(* ===== verification/_CoqProject ===== *)
-Q . S2P
Prelude.v
Misc.v
Bitstream.v
Parser.v
Codecs.v
H264.v
Dlist.v
Families.v
Rings.v
Hlist.v
Queue.v
Buffer.v
Pipe.v
Pixfmt.v
Convert.v
Pixels.v
Conversions.v
Roundtrip.v
Cvrt.v
Mids.v
Contexts.v
Frames.v
Kmp.v
ParseTable.v
Unit.v
Loop.v
Core.v
Drain.v
Channels.v
Run.v
Turns.v
Kernel.v
Memalloc.v
Rng.v
Scc.v
Scc2.v
Spdc.v
SocCheck.v
Dptc.v
