(* ===== verification/Prelude.v ===== *)
(** * imx-test: the kernel test modules and the pitcher media pipeline, verified

    imx-test is a collection of test programs for i.MX chips.  Two parts of it
    have logic of their own and are modelled here: the kernel modules of
    src/module_test/ (with their headers in src/include/), which let a process
    call drivers of the kernel through ioctls, and "pitcher", the library under
    src/test/mxc_v4l2_vpu_test/pitcher/ that cuts streams into frames and moves
    buffers through pipes between channels that a polling loop drives.  A comment [C: file symbol lines] in front of a
    definition names the code it translates.

    ** Conventions

    A C function becomes a function of the same name into [outcome]: [Done] is
    normal termination, [Trap] a failed assert, [UB] an access C leaves
    undefined, [NoFuel] a loop that ran out of its bound.  Functions that change
    state are in the monad [M].  Integers are [Z], wrapped where C wraps them
    ([u32], [s32], ...).  Code that is not in the repository is a parameter: a
    type class whose laws are the documented behaviour, with an instance at the
    end of the file on which the witnesses run.

    ** The kernel modules

    - Kernel: what the modules use of Linux.  [CStruct] is the layout of a
      structure an ioctl argument points to; [Uaccess] the memory of the process
      as copy_from_user and copy_to_user see it, faults included; [Kmalloc] the
      allocator, which may refuse; [kstate] the state of a driver: the process's
      memory, the blocks on the heap, and what the driver and the hardware keep.
      [Ioctl], [Errno], [OsError], [Chrdev], [OsDriver] and [Pages] are command
      numbers, error codes, registration of devices, and pages.
    - Memalloc (memalloc.c, memalloc.h): a module that hands DMA memory to
      processes.  [holds m es] relates its list to the abstract list [es] of
      allocations; [memalloc_step] is what processes can do, interleaved.
      Theorems: nothing is lost over any run and nothing stays after the last
      close or the unloading; each ioctl refines [ioctl_spec]; mmap maps an
      allocation or nothing; GETBUFFER and FREEBUFFER are inverse; loading and
      unloading.
    - Rng (rng_test_driver.c): contexts of the security API, one per open file.
      [rng_trace] is any interleaving of open, ioctl and close.  Theorems: who
      owns which context; what the register and random ioctls deliver; faults;
      loading and unloading.
    - Scc (scc_test_driver.c, scc_test_driver.h): registers, ciphering through
      aligned buffers, key slots.  Theorems: the cipher stays inside its buffers
      and leaves none; encryption followed by decryption gives the plaintext;
      slot and register ioctls are the SCC driver's calls; the keys that
      LOAD_SLOT and ENCRYPT_SLOT hand over; loading and unloading.
    - Scc2 (scc2_test_driver.c, scc2_test_driver.h): partitions of secure memory
      under a mutex; [scc2_step] is what processes can do.  Theorems: over any
      run every command returns, releases the mutex and frees its buffer; the
      partition ioctls are the SCC2 driver's calls; sealing a region and restoring
      it ([region_inverse]: what a decryption that succeeds does to a region
      sealed before); loading and reading a partition; loading and
      unloading the module, with a major of its own or the kernel's.
    - Spdc (spdc_test_driver.c): each command is one call of the framebuffer
      driver; faults; loading and unloading.
    - SocCheck (soc_check.h): the test whether a program runs on its chip.

    The modules share the classes of Kernel; a theorem is proved against the
    class and holds for every kernel that keeps its laws.  Structures have the
    layout of the 32-bit ARM these modules are for.  A handler runs to its end
    before the next begins: processes interleave between calls, and the locks
    are flags that a call must find free.

    ** pitcher

    - Misc (misc.c), Bitstream (bitstream.c): bits and bytes of a buffer; the
      bit reader, Exp-Golomb codes, emulation prevention.
    - Parser, Kmp, ParseTable (parse.c): the frames of a stream and the scan for
      start codes, string search, the table of codecs.  The reference of the scan
      is [file_codes], which looks for the bytes of the patterns, and
      [frames_of], which cuts at what it finds.  Codecs: the parsers of
      the codecs and the IVF writer; H264 (h264_parse.c): parameter sets and
      picture boundaries, against the syntax of the standard ([sps_bits]).
    - Dlist, Rings, Hlist (list.h), Queue (queue.c), Buffer (memory.c, buffer.c, obj.c), Pipe
      (pipe.c), Unit (unit.c): the two kinds of lists on a heap of nodes, queues on them, counted
      buffers, pipes that carry buffers (their contract [next] is about the events
      of a pipe, those of a notification among them), units that take buffers from a pipe and
      push them to others.  Families is the interface of the lists: what a heap
      that holds many lists keeps when some of them change.
    - Loop (loop.c): timer tasks and polled descriptors.  The system is the class
      [LoopOs], the clock and epoll with their documented behaviour
      [LoopOsSpec]; [contents] relates a loop to the lists of its nodes, [pass]
      and [passes] are what turns do to them.  What its call-backs may do is the
      interface [Callbacks]: in the states of an invariant of theirs they return
      and leave the loop alone but for stopping it; their answers are free.
    - Core (core.c): contexts, channels, their numbers and connections, on the
      state of Unit and Loop.  Its theorems: Drain, the scheduling of channels
      ([context_ok] is a context with its channels and pipes, [Draining] what it
      asks of its units); Channels, how channels and units are made and deleted
      ([registry] is the list of all channels with their numbers); Run, a
      context in its loop ([waiting] is the state between two turns); Turns, that
      core.c's call-backs are such as Loop asks for, and what turns do with
      descriptors ready.
    - Pixfmt (pixfmt.c): formats, layout of pictures, copies.
    - Convert, Cvrt (convert.c): the conversions between formats, on the bytes of memory, and the
      contexts that choose the steps for a pair of formats and keep the
      intermediate buffers.  Pixels has the reference: an [encoding] says where
      a format keeps each sample, [encodes] that planes show a picture.
      Conversions: each conversion, from any picture encoded in the source,
      leaves it encoded in the destination.  Roundtrip: packing and unpacking
      again.  Mids: the buffers of a context in the allocator ([converter] is
      the context with the buffers it holds).  Contexts: from the creation of a
      context to its release.  Frames: a frame through a context, for every
      pair of formats that is supported ([convertible]); [scene] is the state
      between two frames.

    Theorems: readers return the bits asked for and never read outside; parsers
    terminate and their frames are those of a reference definition; lists,
    queues and pipes refine lists; a buffer is freed with its last reference;
    the layout of every format holds its samples; a frame that is converted
    shows the picture of its source, the rest of memory stays as it is, and a
    conversion context gives back what it has taken; turns of the loop are passes
    over its lists, a timer whose time has come is called, and a closed loop
    leaves nothing; channel numbers are the least that are free; a channel that
    is registered and unregistered leaves nothing; a pipeline without cycles,
    whose units do not block each other, stops by itself, and pitcher_run
    returns.

    ** Bounds and fuel

    Loops that are not structural have fuel: the length of the list plus one in
    [memalloc_free_buffers], the number of bytes left in the scanners and
    parsers, the number of channels in [find_from].  [loop_turns] runs as long as
    the loop does; its theorems are about any number of turns, and Run bounds
    the number a pipeline takes by the work its units have left.  That the fuel
    given is enough is part of the theorems, which state that the
    function returns ([Done]) or does not run out ([terminates]).  The bounds in
    the statements are those of the code's types: lengths below 2^32 (2^29 bytes
    where bits are counted), pictures up to 16384 by 16384.

    ** Not modelled

    dptc_daemon.h declares messages of a daemon that is not in the repository;
    Dptc has the types and their layout.
    dryice_test.c, km_test.c and the mxc_sdma modules are scripts of calls to
    drivers without state of their own.  Of pitcher: v4l2.c, dmabuf.c, g2dcvt.c,
    platform.c, sysloadso.c (ioctls and libraries), and the programs
    around it.  The other directories of
    src/test/ are programs that drive one device and print what they see.
    Messages to the console are left out everywhere.  [RoomyAlloc] in Frames is an allocator that
    does not refuse and keeps blocks 2^32 bytes apart, since a block is its
    address alone; Contexts, where the allocator may refuse, needs only fresh
    addresses.  Frames and Roundtrip are about even widths and pictures of one field: what
    becomes of others is below.  In Pipe a
    notification may push to, pop and empty the pipe it is about, as a unit that is
    run does ([Notified]); it returns.  The theorems of Loop
    are about call-backs that leave the loop's lists alone: one that adds or
    deletes a task from within a walk finds the queue away.  In Drain, Run and
    Turns the units keep [Draining] and, in Turns, [Guests].

    ** What the code does not do

    Lemmas that are no properties record where the code differs from what it
    means to do: [Memalloc.refused_leaks_entry], [Memalloc.mmap_free_race],
    [Rng.rng_get_random_overflows], [Rng.add_entropy_ignores_process],
    [Scc.scc_mmap_is_release],
    [Scc.scc_dynamic_major_stays], [Scc.cipher_high_address],
    [Scc.scc_slot_fault], [SocCheck.soc_list_unclosed],
    [Bitstream.nal_remove_emul_bytes_overread], [Codecs.vpx_parse_hangs],
    [Codecs.vpx_parse_signed_char], [Codecs.vc1l_parse_short],
    [H264.h264_parse_stale_sps], [H264.sps_profile_44_misread],
    [H264.sps_444_matrix_aborts], [Pipe.push_refused_leaks],
    [Pixfmt.fourcc_zero_is_yuyv], [Pixfmt.dtrc10_chroma_short],
    [Pixfmt.rfc_copies_nothing], [Loop.timers_starve],
    [Loop.add_poll_refused_dangles], [Loop.open_loop_flags],
    [Drain.disconnect_takes_channels], [Drain.refused_channel_takes_number],
    [Roundtrip.odd_width_loses_sample], [Roundtrip.second_field_shifted],
    [Roundtrip.nv12_to_deep_refused], [Roundtrip.p016_unpack_refused],
    [Contexts.half_a_buffer], [Scc2.scc2_declared_unserved]. *)

From stdpp Require Export base list gmap numbers strings.
From Stdlib Require Export ZArith Lia.

Open Scope Z_scope.

(** ** Outcomes of a C execution

    [Done a] is normal termination; [Trap] a failed [assert]; [UB] an access or
    an operation C leaves undefined (out-of-bounds read, shift by the width of
    the type or more); [NoFuel] says that the bound given to a loop was too
    small, and is excluded by the termination theorems. *)
Inductive outcome (A : Type) : Type :=
  | Done (a : A)
  | Trap
  | UB
  | NoFuel.
Arguments Done {A} a.
Arguments Trap {A}.
Arguments UB {A}.
Arguments NoFuel {A}.

Definition obind {A B} (f : A → outcome B) (m : outcome A) : outcome B :=
  match m with
  | Done a => f a
  | Trap => Trap
  | UB => UB
  | NoFuel => NoFuel
  end.

#[export] Instance outcome_ret : MRet outcome := @Done.
#[export] Instance outcome_bind : MBind outcome := @obind.

(** [assert] of the source, and a read that must be in bounds. *)
Definition assert_ (b : bool) : outcome unit := if b then Done tt else Trap.
Definition defined (b : bool) : outcome unit := if b then Done tt else UB.
Definition of_option {A} (o : option A) : outcome A :=
  match o with Some a => Done a | None => UB end.

Definition is_done {A} (o : outcome A) : Prop := ∃ a, o = Done a.

Lemma bind_done {A B} (a : A) (f : A → outcome B) : (Done a ≫= f) = f a.
Proof. reflexivity. Qed.

Lemma bind_assert_true {B} b (f : unit → outcome B) : b = true → (assert_ b ≫= f) = f tt.
Proof. by intros ->. Qed.
Lemma bind_assert_false {B} b (f : unit → outcome B) : b = false → (assert_ b ≫= f) = Trap.
Proof. by intros ->. Qed.
Lemma bind_defined_true {B} b (f : unit → outcome B) : b = true → (defined b ≫= f) = f tt.
Proof. by intros ->. Qed.
Lemma bind_defined_false {B} b (f : unit → outcome B) : b = false → (defined b ≫= f) = UB.
Proof. by intros ->. Qed.

Lemma bind_done_inv {A B} (m : outcome A) (f : A → outcome B) b :
  m ≫= f = Done b → ∃ a, m = Done a ∧ f a = Done b.
Proof. destruct m; cbn; try discriminate. eauto. Qed.

Lemma outcome_bind_assoc {A B C} (m : outcome A) (f : A → outcome B) (g : B → outcome C) :
  (m ≫= f) ≫= g = m ≫= (λ x, f x ≫= g).
Proof. by destruct m. Qed.

(** An execution that does not exhaust the bound of one of its loops. *)
Definition terminates {A} (o : outcome A) : Prop := o ≠ NoFuel.

Lemma terminates_bind {A B} (m : outcome A) (f : A → outcome B) :
  terminates m → (∀ a, m = Done a → terminates (f a)) → terminates (m ≫= f).
Proof. destruct m; cbn; unfold terminates; try done. auto. Qed.

Lemma terminates_assert b : terminates (assert_ b).
Proof. by destruct b. Qed.
Lemma terminates_defined b : terminates (defined b).
Proof. by destruct b. Qed.
Lemma terminates_of_option {A} (o : option A) : terminates (of_option o).
Proof. by destruct o. Qed.
Lemma terminates_done {A} (a : A) : terminates (Done a).
Proof. done. Qed.

Create HintDb term.
#[export] Hint Resolve terminates_assert terminates_defined terminates_of_option
  terminates_done : term.

(** ** State passing on top of outcomes *)
Definition M (S A : Type) : Type := S → outcome (A * S).

#[export] Instance M_ret S : MRet (M S) := λ A a s, Done (a, s).
#[export] Instance M_bind S : MBind (M S) := λ A B f m s,
  obind (λ '(a, s'), f a s') (m s).

Definition lift {S A} (o : outcome A) : M S A := λ s, obind (λ a, Done (a, s)) o.
Definition get {S} : M S S := λ s, Done (s, s).
Definition put {S} (s' : S) : M S unit := λ _, Done (tt, s').
Definition modify {S} (f : S → S) : M S unit := λ s, Done (tt, f s).

Lemma M_bind_done {S A B} (m : M S A) (f : A → M S B) s a s' :
  m s = Done (a, s') → (m ≫= f) s = f a s'.
Proof. intros H. unfold mbind, M_bind. by rewrite H. Qed.

Lemma M_bind_eq {S A B} (m : M S A) (f : A → M S B) s :
  (m ≫= f) s = obind (λ '(a, s'), f a s') (m s).
Proof. reflexivity. Qed.

Lemma terminates_M_bind {S A B} (m : M S A) (f : A → M S B) s :
  terminates (m s) → (∀ a s', m s = Done (a, s') → terminates (f a s')) →
  terminates ((m ≫= f) s).
Proof. intros Hm Hf. apply terminates_bind; [done|]. intros [a s'] E. by apply Hf. Qed.

Lemma terminates_lift {S A} (o : outcome A) (s : S) : terminates o → terminates (lift o s).
Proof. by destruct o. Qed.
#[export] Hint Resolve terminates_lift : term.

Lemma M_bind_ret {S} (m : M S unit) s : (_ ← m; mret tt) s = m s.
Proof. unfold mbind, M_bind, mret, M_ret. destruct (m s) as [[[] ?]| | |]; done. Qed.
Lemma M_bind_assoc {S A B C} (m : M S A) (f : A → M S B) (g : B → M S C) s : ((m ≫= f) ≫= g) s = (m ≫= λ a, f a ≫= g) s.
Proof. unfold mbind, M_bind. destruct (m s) as [[a ?]| | |]; done. Qed.

Lemma M_bind_cong {S A B} (m : M S A) (f g : A → M S B) s : (∀ a s, f a s = g a s) → (m ≫= f) s = (m ≫= g) s.
Proof. intros Hfg. unfold mbind, M_bind. destruct (m s) as [[a ?]| | |]; [apply Hfg|done..]. Qed.

Lemma M_bind_inv {S A B} (m : M S A) (f : A → M S B) s b s'' :
  (m ≫= f) s = Done (b, s'') →
  ∃ a s', m s = Done (a, s') ∧ f a s' = Done (b, s'').
Proof.
  unfold mbind, M_bind. destruct (m s) as [[a s']| | |]; cbn; try discriminate.
  eauto.
Qed.

(** What holds of the result if the computation returns one. *)
Definition ensures {S A} (m : M S A) (s : S) (Q : A → S → Prop) : Prop :=
  ∀ a s', m s = Done (a, s') → Q a s'.

Lemma ensures_bind {S A B} (m : M S A) (f : A → M S B) s Q :
  ensures m s (λ a s', ensures (f a) s' Q) → ensures (m ≫= f) s Q.
Proof. intros Hm b s'' E. apply M_bind_inv in E as (a & s' & E1 & E2). by eapply Hm. Qed.

Lemma ensures_ret {S A} (a : A) (s : S) (Q : A → S → Prop) : Q a s → ensures (mret a) s Q.
Proof. by intros HQ a' s' [= <- <-]. Qed.

Lemma ensures_done {S A} (m : M S A) s a s' (Q : A → S → Prop) :
  m s = Done (a, s') → Q a s' → ensures m s Q.
Proof. intros E HQ b s'' E'. rewrite E in E'. by injection E' as <- <-. Qed.

Lemma ensures_mono {S A} (m : M S A) s (P Q : A → S → Prop) :
  ensures m s P → (∀ a s', P a s' → Q a s') → ensures m s Q.
Proof. intros Hm HPQ a s' E. apply HPQ. by apply Hm. Qed.

(** Steps a state computation through its first action. *)
Ltac mstep H := erewrite M_bind_done; [|apply H].

(** Opens every sequencing in hypothesis [H : (m ≫= f) s = Done _]. *)
Ltac minv H :=
  repeat match type of H with
  | (_ ≫= _) _ = Done _ =>
      let a := fresh "a" in let s := fresh "s" in let E := fresh "E" in
      apply M_bind_inv in H; destruct H as (a & s & E & H)
  end.

(** ** Machine integers: values of the C unsigned types are kept reduced,
    signed values are in two's complement. *)
Definition u8 (x : Z) : Z := x mod 2 ^ 8.
Definition u16 (x : Z) : Z := x mod 2 ^ 16.
Definition u32 (x : Z) : Z := x mod 2 ^ 32.
Definition u64 (x : Z) : Z := x mod 2 ^ 64.
Definition s32 (x : Z) : Z := (x + 2 ^ 31) mod 2 ^ 32 - 2 ^ 31.
Definition s64 (x : Z) : Z := (x + 2 ^ 63) mod 2 ^ 64 - 2 ^ 63.

Definition is_byte (b : Z) : Prop := 0 ≤ b < 256.

Lemma u8_range x : 0 ≤ u8 x < 256.
Proof. apply Z.mod_pos_bound. lia. Qed.
Lemma u16_range x : 0 ≤ u16 x < 2 ^ 16.
Proof. apply Z.mod_pos_bound. lia. Qed.
Lemma u32_range x : 0 ≤ u32 x < 2 ^ 32.
Proof. apply Z.mod_pos_bound. lia. Qed.
Lemma u64_range x : 0 ≤ u64 x < 2 ^ 64.
Proof. apply Z.mod_pos_bound. lia. Qed.
Lemma s32_range x : - 2 ^ 31 ≤ s32 x < 2 ^ 31.
Proof. unfold s32. pose proof (Z.mod_pos_bound (x + 2 ^ 31) (2 ^ 32)). lia. Qed.

Lemma u8_small x : 0 ≤ x < 256 → u8 x = x.
Proof. intros. apply Z.mod_small. lia. Qed.
Lemma u16_small x : 0 ≤ x < 2 ^ 16 → u16 x = x.
Proof. intros. apply Z.mod_small. lia. Qed.
Lemma u32_small x : 0 ≤ x < 2 ^ 32 → u32 x = x.
Proof. intros. apply Z.mod_small. lia. Qed.
Lemma u64_small x : 0 ≤ x < 2 ^ 64 → u64 x = x.
Proof. intros. apply Z.mod_small. lia. Qed.
Lemma s32_small x : - 2 ^ 31 ≤ x < 2 ^ 31 → s32 x = x.
Proof. intros. unfold s32. rewrite Z.mod_small; lia. Qed.
Lemma s64_small x : - 2 ^ 63 ≤ x < 2 ^ 63 → s64 x = x.
Proof. intros. unfold s64. rewrite Z.mod_small; lia. Qed.
Lemma u32_s32 x : u32 (s32 x) = u32 x.
Proof.
  unfold u32, s32. rewrite Zminus_mod_idemp_l. f_equal. lia.
Qed.

Create HintDb cint.
#[export] Hint Resolve u8_range u16_range u32_range u64_range s32_range : cint.
#[export] Hint Rewrite u8_small u16_small u32_small u64_small s32_small s64_small
  using lia : cint.

(** ** Bits *)
Lemma testbit_small x n i : 0 ≤ x < 2 ^ n → n ≤ i → Z.testbit x i = false.
Proof.
  intros Hx Hi. destruct (decide (x = 0)) as [->|]; [apply Z.bits_0|].
  destruct (decide (n < 0)).
  { rewrite Z.pow_neg_r in Hx by lia. lia. }
  apply Z.bits_above_log2; [lia|].
  apply Z.log2_lt_pow2; [lia|].
  pose proof (Z.pow_le_mono_r 2 n i). lia.
Qed.

Lemma testbit_mod_pow2 x n i :
  0 ≤ n → Z.testbit (x mod 2 ^ n) i = bool_decide (i < n) && Z.testbit x i.
Proof.
  intros Hn. case_bool_decide as H.
  - destruct (decide (0 ≤ i)).
    + by rewrite Z.mod_pow2_bits_low by lia.
    + rewrite !(Z.testbit_neg_r _ i) by lia. done.
  - by rewrite Z.mod_pow2_bits_high by lia.
Qed.

Lemma testbit_byte_high b i : is_byte b → 8 ≤ i → Z.testbit b i = false.
Proof. intros Hb. by apply testbit_small. Qed.

Lemma land_ones_mod x n : 0 ≤ n → Z.land x (Z.shiftl 1 n - 1) = x mod 2 ^ n.
Proof. intros. by rewrite <- Z.land_ones. Qed.

Lemma pow2_le a b : 0 ≤ a ≤ b → 2 ^ a ≤ 2 ^ b.
Proof. intros. apply Z.pow_le_mono_r; lia. Qed.

Lemma pow2_pos a : 0 ≤ a → 0 < 2 ^ a.
Proof. intros. apply Z.pow_pos_nonneg; lia. Qed.

(** A non-negative number whose bits from [n] on are zero is below [2 ^ n]. *)
Lemma bits_lt_pow2 v n :
  0 ≤ n → 0 ≤ v → (∀ i, n ≤ i → Z.testbit v i = false) → 0 ≤ v < 2 ^ n.
Proof.
  intros Hn Hv H. split; [done|]. apply Z.nle_gt. intros Hge.
  pose proof (pow2_pos n Hn).
  assert (n ≤ Z.log2 v) by (apply Z.log2_le_pow2; lia).
  pose proof (Z.bit_log2 v ltac:(lia)) as Hb. by rewrite H in Hb.
Qed.

(** The top bit of an [n]-bit number, and masks selecting or clearing it. *)
Lemma testbit_top v n : 0 < n → 2 ^ (n - 1) ≤ v < 2 ^ n → Z.testbit v (n - 1) = true.
Proof.
  intros Hn Hv. assert (2 ^ n = 2 * 2 ^ (n - 1)) by (rewrite <- Z.pow_succ_r by lia; f_equal; lia).
  apply Z.testbit_true; [lia|]. replace (v / 2 ^ (n - 1)) with 1; [done|].
  apply Z.div_unique with (v - 2 ^ (n - 1)); lia.
Qed.

Lemma land_pow2 v k : 0 ≤ k → Z.land v (2 ^ k) = if Z.testbit v k then 2 ^ k else 0.
Proof.
  intros Hk. apply Z.bits_inj'. intros i Hi. rewrite Z.land_spec, Z.pow2_bits_eqb by done.
  destruct (Z.testbit v k) eqn:E; rewrite ?Z.bits_0, ?Z.pow2_bits_eqb by done;
    (destruct (Z.eqb_spec k i) as [<-|]; [by rewrite E|by rewrite andb_false_r]).
Qed.

Lemma land_neg_pow2 v k : 0 ≤ k → Z.land v (- 2 ^ k) = 2 ^ k * (v / 2 ^ k).
Proof.
  intros Hk. replace (- 2 ^ k) with (Z.lnot (Z.ones k)) by (rewrite Z.ones_equiv; unfold Z.lnot; lia).
  rewrite <- Z.ldiff_land, Z.ldiff_ones_r, Z.shiftl_mul_pow2, Z.shiftr_div_pow2 by done. lia.
Qed.

(** A byte shifted right is a byte. *)
Lemma is_byte_shiftr b n : is_byte b → 0 ≤ n → is_byte (Z.shiftr b n).
Proof.
  unfold is_byte. intros Hb Hn. rewrite Z.shiftr_div_pow2 by lia.
  pose proof (pow2_pos n Hn). split; [apply Z.div_pos; lia|].
  apply Z.div_lt_upper_bound; nia.
Qed.

(** Bounds of bitwise operations. *)
Lemma lor_lt_pow2 a b n :
  0 ≤ n → 0 ≤ a < 2 ^ n → 0 ≤ b < 2 ^ n → 0 ≤ Z.lor a b < 2 ^ n.
Proof.
  intros Hn Ha Hb. split; [apply Z.lor_nonneg; lia|].
  destruct (decide (Z.lor a b = 0)) as [->|Hne]; [apply pow2_pos; lia|].
  assert (0 ≤ Z.lor a b) by (apply Z.lor_nonneg; lia).
  apply Z.log2_lt_pow2; [lia|]. rewrite Z.log2_lor by lia.
  destruct (decide (n = 0)) as [->|].
  { replace a with 0 in * by lia. replace b with 0 in * by lia. done. }
  apply Z.max_lub_lt.
  - destruct (decide (a = 0)) as [->|]; [cbn; lia|]. apply Z.log2_lt_pow2; lia.
  - destruct (decide (b = 0)) as [->|]; [cbn; lia|]. apply Z.log2_lt_pow2; lia.
Qed.

(** ** Byte arrays indexed by Z, with partial access *)
Definition zlen {A} (l : list A) : Z := Z.of_nat (length l).
Definition nthz {A} (l : list A) (i : Z) : option A :=
  if 0 <=? i then l !! Z.to_nat i else None.
Definition loadz {A} (l : list A) (i : Z) : outcome A := of_option (nthz l i).
Definition storez {A} (l : list A) (i : Z) (v : A) : outcome (list A) :=
  if (0 <=? i) && (i <? zlen l) then Done (<[Z.to_nat i := v]> l) else UB.
Definition byte_at (l : list Z) (i : Z) : Z := default 0 (nthz l i).

Definition bytes (l : list Z) : Prop := Forall is_byte l.

Lemma zlen_nonneg {A} (l : list A) : 0 ≤ zlen l.
Proof. unfold zlen. lia. Qed.
Lemma zlen_app {A} (l k : list A) : zlen (l ++ k) = zlen l + zlen k.
Proof. unfold zlen. rewrite length_app. lia. Qed.
Lemma zlen_cons {A} (x : A) l : zlen (x :: l) = 1 + zlen l.
Proof. unfold zlen. cbn. lia. Qed.
#[export] Hint Resolve zlen_nonneg : cint.

Lemma nthz_lookup {A} (l : list A) i : 0 ≤ i → nthz l i = l !! Z.to_nat i.
Proof. intros. unfold nthz. by rewrite (proj2 (Z.leb_le 0 i)). Qed.

Lemma nthz_Some {A} (l : list A) i x : nthz l i = Some x → 0 ≤ i < zlen l.
Proof.
  unfold nthz, zlen. destruct (Z.leb_spec 0 i); [|done].
  intros H'%lookup_lt_Some. lia.
Qed.

Lemma nthz_in_range {A} (l : list A) i : 0 ≤ i < zlen l → ∃ x, nthz l i = Some x.
Proof.
  unfold zlen. intros. rewrite nthz_lookup by lia.
  apply lookup_lt_is_Some. lia.
Qed.

Lemma nthz_out {A} (l : list A) i : zlen l ≤ i → nthz l i = None.
Proof.
  unfold zlen, nthz. intros. destruct (0 <=? i); [|done].
  apply lookup_ge_None. lia.
Qed.

Lemma loadz_Done l i : 0 ≤ i < zlen l → loadz l i = Done (byte_at l i).
Proof.
  intros [x Hx]%nthz_in_range. unfold loadz, byte_at. by rewrite Hx.
Qed.

Lemma terminates_loadz {A} (l : list A) i : terminates (loadz l i).
Proof. apply terminates_of_option. Qed.
Lemma terminates_storez {A} (l : list A) i v : terminates (storez l i v).
Proof. unfold storez. by destruct (_ && _). Qed.
#[export] Hint Resolve terminates_loadz terminates_storez : term.

Lemma loadz_inv {A} (l : list A) i x :
  loadz l i = Done x → nthz l i = Some x ∧ 0 ≤ i < zlen l.
Proof.
  unfold loadz. destruct (nthz l i) eqn:E; cbn; [|discriminate].
  intros [= ->]. split; [done|]. by eapply nthz_Some.
Qed.

Lemma byte_at_range l i : bytes l → is_byte (byte_at l i).
Proof.
  intros Hl. unfold byte_at, nthz, is_byte. destruct (0 <=? i); cbn; [|lia].
  destruct (l !! Z.to_nat i) eqn:E; cbn; [|lia].
  by apply (Forall_lookup_1 _ _ _ _ Hl E).
Qed.
#[export] Hint Resolve byte_at_range : cint.

Lemma nthz_bytes l i b : bytes l → nthz l i = Some b → is_byte b.
Proof.
  unfold nthz. intros Hl. destruct (0 <=? i); [|done]. intros E. by apply (Forall_lookup_1 _ _ _ _ Hl E).
Qed.

Lemma storez_Done {A} (l : list A) i v :
  0 ≤ i < zlen l → storez l i v = Done (<[Z.to_nat i := v]> l).
Proof.
  intros. unfold storez.
  rewrite (proj2 (Z.leb_le _ _)), (proj2 (Z.ltb_lt _ _)) by lia. done.
Qed.

Lemma zlen_insert {A} (l : list A) i v : zlen (<[i := v]> l) = zlen l.
Proof. unfold zlen. by rewrite length_insert. Qed.

Lemma byte_at_insert l i j v :
  0 ≤ i < zlen l → 0 ≤ j →
  byte_at (<[Z.to_nat i := v]> l) j = if decide (i = j) then v else byte_at l j.
Proof.
  unfold zlen. intros Hi Hj. unfold byte_at. rewrite !nthz_lookup by lia.
  case_decide as E.
  - subst. rewrite list_lookup_insert_eq by lia. done.
  - rewrite list_lookup_insert_ne by lia. done.
Qed.

Lemma bytes_insert l i v : bytes l → is_byte v → bytes (<[i := v]> l).
Proof. intros. by apply Forall_insert. Qed.

Lemma list_eq_byte_at l k :
  zlen l = zlen k → (∀ i, 0 ≤ i < zlen l → byte_at l i = byte_at k i) → l = k.
Proof.
  unfold zlen. intros Hlen H. apply list_eq_same_length with (length k); [done|lia|].
  intros i x y Hi Hx Hy. specialize (H (Z.of_nat i) ltac:(lia)).
  unfold byte_at in H. rewrite !nthz_lookup, !Nat2Z.id, Hx, Hy in H by lia. done.
Qed.

(** Turns the boolean tests of a branch into facts for [lia]. *)
Ltac zbool :=
  repeat match goal with
  | H : (_ && _)%bool = true |- _ => apply andb_prop in H; destruct H
  | H : (_ || _)%bool = false |- _ => apply orb_false_elim in H; destruct H
  | H : negb _ = true |- _ => apply negb_true_iff in H
  | H : negb _ = false |- _ => apply negb_false_iff in H
  | H : (_ <=? _) = true |- _ => apply Z.leb_le in H
  | H : (_ <=? _) = false |- _ => apply Z.leb_gt in H
  | H : (_ <? _) = true |- _ => apply Z.ltb_lt in H
  | H : (_ <? _) = false |- _ => apply Z.ltb_ge in H
  | H : (_ =? _) = true |- _ => apply Z.eqb_eq in H
  | H : (_ =? _) = false |- _ => apply Z.eqb_neq in H
  end.

(** Case analysis on the next integer test of the goal, in branch order. *)
Ltac zcase :=
  match goal with
  | |- context [?a <=? ?b] => destruct (Z.leb_spec a b)
  | |- context [?a <? ?b] => destruct (Z.ltb_spec a b)
  | |- context [?a =? ?b] => destruct (Z.eqb_spec a b)
  end.

(** [lia] with division and modulo by constants. *)
Ltac dlia := Z.div_mod_to_equations; lia.

(** Decides the [bool_decide]s of linear facts and simplifies the booleans. *)
Ltac bsimpl :=
  rewrite ?andb_true_l, ?andb_true_r, ?andb_false_l, ?andb_false_r,
    ?orb_true_l, ?orb_true_r, ?orb_false_l, ?orb_false_r.
Ltac bd :=
  repeat match goal with
  | |- context [bool_decide ?P] =>
      first [rewrite (bool_decide_true P) by lia | rewrite (bool_decide_false P) by lia]
  end; bsimpl.

(** ** Return codes of pitcher_def.h *)
(* C: pitcher/pitcher_def.h RET_OK 40-54 *)
Definition RET_OK : Z := 0.
Definition RET_E_NULL_POINTER : Z := 10.
Definition RET_E_INVAL : Z := 11.
Definition RET_E_MMAP : Z := 12.
Definition RET_E_OPEN : Z := 13.
Definition RET_E_NO_MEMORY : Z := 14.
Definition RET_E_EMPTY : Z := 15.
Definition RET_E_FULL : Z := 16.
Definition RET_E_NOSYS : Z := 17.
Definition RET_E_NOT_READY : Z := 18.
Definition RET_E_NOT_MATCH : Z := 19.
Definition RET_E_NOT_FOUND : Z := 20.
Definition RET_E_NOT_SUPPORT : Z := 21.
