(* ===== verification/Misc.v ===== *)
(** * misc.c and the arithmetic macros of pitcher_def.h

    [ALIGN], [DIV_ROUND_UP], [min]/[max]; the little-endian bit-field reader
    [pitcher_get_bits_val_le] and the big-endian byte accessors
    [pitcher_bytestream_get_be] / [pitcher_bytestream_set_be]. *)

From S2P Require Import Prelude.

(** ** Macros *)

(* C: pitcher/pitcher_def.h max 56-58 *)
Definition max (a b : Z) : Z := if a <? b then b else a.

(* C: pitcher/pitcher_def.h min 60-62 *)
Definition min (a b : Z) : Z := if b <? a then b else a.

(** The macros below are used on [uint32_t] operands. *)

(* C: pitcher/pitcher_def.h ALIGN 143-143 *)
Definition ALIGN (x a : Z) : Z :=
  let _x := x mod a in
  if negb (_x =? 0) then u32 (u32 (x + a) - _x) else x.

(* C: pitcher/pitcher_def.h DIV_ROUND_UP 89-91 *)
Definition DIV_ROUND_UP (n d : Z) : Z := u32 (u32 (n + d) - 1) / d.

(** ** Bit fields, least significant bit first *)

(* C: pitcher/misc.c pitcher_get_bits_val_le 100-109 *)
Fixpoint get_bits_val_le_loop (fuel : nat) (data : list Z)
    (size offset shift val nb count : Z) : outcome Z :=
  if 0 <? count then
    match fuel with
    | O => NoFuel
    | S fuel' =>
        if size <=? offset then Done val
        else
          let bits := if 8 - shift <? count then 8 - shift else count in
          d ← loadz data offset;
          _ ← defined (nb <? 32);
          let val := Z.lor val
            (u32 (Z.shiftl (Z.land (Z.shiftr d shift) (Z.shiftl 1 bits - 1)) nb)) in
          get_bits_val_le_loop fuel' data size (u32 (offset + 1)) 0 val
            (u32 (nb + bits)) (count - bits)
    end
  else Done val.

(* C: pitcher/misc.c pitcher_get_bits_val_le *)
Definition pitcher_get_bits_val_le (data : list Z) (size nr count : Z) : outcome Z :=
  let offset := nr / 8 in
  let shift := nr mod 8 in
  get_bits_val_le_loop (Z.to_nat count) data size offset shift 0 0 count.

(** ** Big-endian byte fields *)

(* C: pitcher/misc.c pitcher_bytestream_get_be 118-119 *)
Fixpoint bytestream_get_be_loop (bs : list Z) (n : nat) (i val : Z) : outcome Z :=
  match n with
  | O => Done val
  | S n' =>
      b ← loadz bs i;
      bytestream_get_be_loop bs n' (i + 1) (Z.lor (u32 (Z.shiftl val 8)) b)
  end.

(* C: pitcher/misc.c pitcher_bytestream_get_be *)
Definition pitcher_bytestream_get_be (bs : list Z) (bytes : Z) : outcome Z :=
  bytestream_get_be_loop bs (Z.to_nat bytes) 0 0.

(* C: pitcher/misc.c pitcher_bytestream_set_be 128-131 *)
Fixpoint bytestream_set_be_loop (bs : list Z) (n : nat) (pdata val : Z) : outcome (list Z) :=
  match n with
  | O => Done bs
  | S n' =>
      bs ← storez bs pdata (Z.land val 255);
      bytestream_set_be_loop bs n' (pdata - 1) (Z.shiftr val 8)
  end.

(* C: pitcher/misc.c pitcher_bytestream_set_be *)
Definition pitcher_bytestream_set_be (bs : list Z) (val bytes : Z) : outcome (list Z) :=
  bytestream_set_be_loop bs (Z.to_nat bytes) (bytes - 1) val.

(** ** The macros compute what their names say *)

Lemma max_Zmax a b : max a b = Z.max a b.
Proof. unfold max. zcase; lia. Qed.
Lemma min_Zmin a b : min a b = Z.min a b.
Proof. unfold min. zcase; lia. Qed.

Lemma ALIGN_up x a :
  0 ≤ x → 0 < a → x + a ≤ 2 ^ 32 → ALIGN x a = a * ((x + a - 1) / a).
Proof.
  intros Hx Ha Hb. unfold ALIGN.
  pose proof (Z.mod_pos_bound x a Ha).
  pose proof (Z.div_mod x a ltac:(lia)) as Hdm.
  assert (0 ≤ x / a) by (apply Z.div_pos; lia).
  destruct (Z.eqb_spec (x mod a) 0) as [E|E]; cbn [negb].
  - replace (x + a - 1) with (a * (x / a) + (a - 1)) by lia.
    rewrite (Z.mul_comm a (x / a)), Z.div_add_l, (Z.div_small (a - 1)) by lia. lia.
  - assert (x + a < 2 ^ 32 ∨ x + a = 2 ^ 32) as [|E2] by lia.
    + rewrite (u32_small (x + a)), u32_small by lia.
      replace (x + a - 1) with ((x / a + 1) * a + (x mod a - 1)) by lia.
      rewrite Z.div_add_l, (Z.div_small (x mod a - 1)) by lia. lia.
    + replace (u32 (x + a)) with 0 by (rewrite E2; done).
      unfold u32. rewrite <- (Z_mod_plus_full _ 1), Z.mod_small by lia.
      replace (x + a - 1) with ((x / a + 1) * a + (x mod a - 1)) by lia.
      rewrite Z.div_add_l, (Z.div_small (x mod a - 1)) by lia. lia.
Qed.

Lemma ALIGN_bounds x a :
  0 ≤ x → 0 < a → x + a ≤ 2 ^ 32 → x ≤ ALIGN x a < x + a ∧ ALIGN x a mod a = 0.
Proof.
  intros Hx Ha Hb. rewrite ALIGN_up by done.
  pose proof (Z.div_mod (x + a - 1) a ltac:(lia)) as Hdm.
  pose proof (Z.mod_pos_bound (x + a - 1) a Ha).
  rewrite Z.mul_comm at 3. rewrite Z.mod_mul by lia. lia.
Qed.

Lemma ALIGN_id x a : x mod a = 0 → ALIGN x a = x.
Proof. intros E. unfold ALIGN. by rewrite E. Qed.

Lemma DIV_ROUND_UP_spec n d :
  0 ≤ n → 0 < d → n + d < 2 ^ 32 → DIV_ROUND_UP n d = (n + d - 1) / d.
Proof.
  intros. unfold DIV_ROUND_UP. by rewrite (u32_small (n + d)), u32_small by lia.
Qed.

(** ** Specification of the bit-field reader *)

(** Bit [p] of a byte array, counting from the least significant bit of byte 0. *)
Definition bit_le (data : list Z) (p : Z) : bool := Z.testbit (byte_at data (p / 8)) (p mod 8).

Lemma div8_add o s k : 0 ≤ s + k < 8 → (8 * o + s + k) / 8 = o.
Proof. intros. symmetry. apply Z.div_unique with (s + k); lia. Qed.
Lemma mod8_add o s k : 0 ≤ s + k < 8 → (8 * o + s + k) mod 8 = s + k.
Proof. intros. symmetry. apply Z.mod_unique with o; lia. Qed.

(** The bits one iteration contributes. *)
Lemma get_bits_chunk d shift bits nb i :
  is_byte d → 0 ≤ shift < 8 → 0 < bits ≤ 8 - shift → 0 ≤ nb → nb + bits ≤ 32 → 0 ≤ i →
  Z.testbit (u32 (Z.shiftl (Z.land (Z.shiftr d shift) (Z.shiftl 1 bits - 1)) nb)) i =
  bool_decide (nb ≤ i < nb + bits) && Z.testbit d (shift + (i - nb)).
Proof.
  intros Hd Hs Hb Hnb H32 Hi.
  unfold u32. rewrite testbit_mod_pow2, Z.shiftl_spec, land_ones_mod, testbit_mod_pow2 by lia.
  destruct (decide (nb ≤ i < nb + bits)) as [Hin|Hin].
  - rewrite !bool_decide_true by lia. rewrite Z.shiftr_spec by lia.
    cbn. f_equal. lia.
  - rewrite (bool_decide_false (nb ≤ i < _)) by done.
    destruct (decide (nb ≤ i)).
    + rewrite (bool_decide_false (i - nb < bits)) by lia. by rewrite andb_false_r.
    + rewrite (Z.testbit_neg_r _ (i - nb)) by lia. by rewrite !andb_false_r.
Qed.

Lemma get_bits_loop_spec data size fuel : ∀ offset shift val nb count,
  bytes data → 0 ≤ size ≤ zlen data → size < 2 ^ 32 →
  0 ≤ offset < 2 ^ 32 → 0 ≤ shift < 8 → 0 ≤ nb → 0 ≤ count → nb + count ≤ 32 →
  count ≤ Z.of_nat fuel → 0 ≤ val →
  ∃ v, get_bits_val_le_loop fuel data size offset shift val nb count = Done v ∧ 0 ≤ v ∧
    ∀ i, 0 ≤ i → Z.testbit v i =
      Z.testbit val i ||
      (bool_decide (nb ≤ i < nb + count) &&
       bool_decide ((8 * offset + shift + (i - nb)) / 8 < size) &&
       bit_le data (8 * offset + shift + (i - nb))).
Proof.
  induction fuel as [|fuel IH]; intros offset shift val nb count
    Hd Hsz H32 Hoff Hsh Hnb Hc Hle Hf Hval; cbn -[Z.mul Z.add Z.pow].
  - assert (count = 0) as -> by lia. cbn. exists val. split_and!; [done|done|].
    intros i Hi. rewrite bool_decide_false by lia. by rewrite !andb_false_l, orb_false_r.
  - destruct (Z.ltb_spec 0 count) as [Hpos|].
    2:{ exists val. split_and!; [done|done|]. intros i Hi.
        rewrite bool_decide_false by lia. by rewrite !andb_false_l, orb_false_r. }
    destruct (Z.leb_spec size offset) as [Hend|Hin].
    { exists val. split_and!; [done|done|]. intros i Hi.
      destruct (decide (nb ≤ i < nb + count)); [|rewrite bool_decide_false by lia].
      - rewrite (bool_decide_false (_ < size)), andb_false_r; [by rewrite orb_false_r|].
        assert (offset ≤ (8 * offset + shift + (i - nb)) / 8)
          by (apply Z.div_le_lower_bound; lia). lia.
      - by rewrite orb_false_r. }
    rewrite loadz_Done by lia. rewrite bind_done.
    set (bits := if 8 - shift <? count then 8 - shift else count).
    assert (0 < bits ≤ 8 - shift ∧ bits ≤ count) as [Hb Hbc]
      by (unfold bits; zcase; lia).
    assert (Hfull : bits < count → bits = 8 - shift) by (unfold bits; zcase; lia).
    clearbody bits. rewrite (proj2 (Z.ltb_lt nb 32)) by lia.
    unfold defined. rewrite bind_done.
    rewrite (u32_small (offset + 1)), (u32_small (nb + bits)) by lia.
    pose proof (byte_at_range data offset Hd) as Hbyte.
    match goal with |- context [Z.lor val ?c] => set (chunk := c) end.
    destruct (IH (offset + 1) 0 (Z.lor val chunk) (nb + bits) (count - bits))
      as (v & -> & Hv0 & Hv); [try done; try lia..|].
    { apply Z.lor_nonneg. split; [done|]. apply u32_range. }
    exists v. split_and!; [done|done|]. intros i Hi. rewrite Hv, Z.lor_spec by done.
    unfold chunk. rewrite get_bits_chunk by (done || lia).
    rewrite <- orb_assoc. f_equal.
    destruct (decide (nb ≤ i < nb + bits)).
    + rewrite bool_decide_true by lia. rewrite (bool_decide_false (nb + bits ≤ i < _)) by lia.
      rewrite (bool_decide_true (nb ≤ i < nb + count)) by lia.
      rewrite !andb_false_l, orb_false_r, !andb_true_l. unfold bit_le.
      rewrite div8_add, mod8_add by lia. by rewrite bool_decide_true by lia.
    + rewrite (bool_decide_false (nb ≤ i < nb + bits)) by lia. rewrite andb_false_l, orb_false_l.
      destruct (decide (nb + bits ≤ i < nb + count)).
      * bd. specialize (Hfull ltac:(lia)).
        by replace (8 * (offset + 1) + 0 + (i - (nb + bits)))
          with (8 * offset + shift + (i - nb)) by lia.
      * by bd.
Qed.

(** [pitcher_get_bits_val_le] returns, without any out-of-bounds read, the
    [count <= 32] bits of [data] that start at bit [nr], least significant bit
    first; the bits that lie beyond [size] bytes are zero. *)
Theorem get_bits_val_le_correct data size nr count :
  bytes data → 0 ≤ size ≤ zlen data → size < 2 ^ 32 → 0 ≤ nr < 2 ^ 32 → 0 ≤ count ≤ 32 →
  ∃ v, pitcher_get_bits_val_le data size nr count = Done v ∧ 0 ≤ v < 2 ^ count ∧
    ∀ i, 0 ≤ i < count →
      Z.testbit v i = bool_decide ((nr + i) / 8 < size) && bit_le data (nr + i).
Proof.
  intros Hd Hsz H32 Hnr Hc. unfold pitcher_get_bits_val_le.
  pose proof (Z.mod_pos_bound nr 8 ltac:(lia)).
  pose proof (Z.div_mod nr 8 ltac:(lia)) as Hdm.
  destruct (get_bits_loop_spec data size (Z.to_nat count) (nr / 8) (nr mod 8) 0 0 count)
    as (v & Hv & Hv0 & Hbits); [try done; try lia..|].
  exists v. split_and!; [done|done| |].
  - apply bits_lt_pow2; [lia|done|]. intros i Hi. rewrite Hbits by lia.
    rewrite Z.bits_0. by bd.
  - intros i Hi. rewrite Hbits by lia. rewrite Z.bits_0, orb_false_l.
    rewrite bool_decide_true by lia. cbn.
    by replace (8 * (nr / 8) + nr mod 8 + (i - 0)) with (nr + i) by lia.
Qed.

Lemma get_bits_val_le_correct_witness :
  bytes [172; 53; 255] ∧
  ∃ v, pitcher_get_bits_val_le [172; 53; 255] 3 10 10 = Done v ∧ 0 ≤ v < 2 ^ 10 ∧
    ∀ i, 0 ≤ i < 10 →
      Z.testbit v i = bool_decide ((10 + i) / 8 < 3) && bit_le [172; 53; 255] (10 + i).
Proof.
  assert (bytes [172; 53; 255]) by (repeat constructor; lia).
  split; [done|]. apply get_bits_val_le_correct; unfold zlen; cbn; lia || done.
Defined.

(** ** Round trips of the big-endian accessors *)

(** The value of [n] bytes read big-endian. *)
Fixpoint be_value (bs : list Z) (n : nat) (i val : Z) : Z :=
  match n with
  | O => val
  | S n' => be_value bs n' (i + 1) (val * 256 + byte_at bs i)
  end.

Lemma shiftl8_lor_byte v b :
  0 ≤ v < 2 ^ 32 → is_byte b → Z.lor (u32 (Z.shiftl v 8)) b = u32 (v * 256 + b).
Proof.
  intros Hv Hb. unfold u32. rewrite Z.shiftl_mul_pow2 by lia.
  change (2 ^ 8) with 256.
  assert (Hl : Z.land ((v * 256) mod 2 ^ 32) b = 0).
  { apply Z.bits_inj'. intros i Hi.
    rewrite Z.land_spec, Z.bits_0. destruct (decide (8 ≤ i)).
    - by rewrite (testbit_byte_high b), andb_false_r.
    - rewrite testbit_mod_pow2 by lia. change 256 with (2 ^ 8).
      rewrite <- Z.shiftl_mul_pow2, Z.shiftl_spec_low by lia. by rewrite andb_false_r. }
  rewrite <- Z.lxor_lor, <- Z.add_nocarry_lxor by done.
  change (2 ^ 32) with (256 * 16777216).
  rewrite (Z.mul_comm v 256), Z.mul_mod_distr_l by lia.
  assert (E : 256 * (v mod 16777216) + b =
    256 * v + b - (v / 16777216) * (256 * 16777216))
    by (pose proof (Z.div_mod v 16777216); lia).
  rewrite E. unfold is_byte in Hb. pose proof (Z.mod_pos_bound v 16777216).
  apply Z.mod_unique with (v / 16777216); lia.
Qed.

Lemma get_be_loop_value bs n : ∀ i val,
  bytes bs → 0 ≤ i → i + Z.of_nat n ≤ zlen bs →
  bytestream_get_be_loop bs n i (u32 val) = Done (u32 (be_value bs n i val)).
Proof.
  induction n as [|n IH]; intros i val Hbs Hi Hn; cbn [bytestream_get_be_loop be_value]; [done|].
  rewrite loadz_Done, bind_done by lia.
  rewrite shiftl8_lor_byte by auto with cint.
  replace (u32 (u32 val * 256 + byte_at bs i)) with (u32 (val * 256 + byte_at bs i)).
  2:{ unfold u32. rewrite (Z.add_mod (val mod 2 ^ 32 * 256)), Z.mul_mod_idemp_l,
        <- Z.add_mod by lia. done. }
  apply IH; [done|lia|lia].
Qed.

Lemma be_value_split bs n : ∀ i val,
  be_value bs n i val = val * 256 ^ Z.of_nat n + be_value bs n i 0.
Proof.
  induction n as [|n IH]; intros i val; cbn [be_value]; [change (256 ^ Z.of_nat 0) with 1; lia|].
  rewrite IH, (IH _ (0 * 256 + _)), Nat2Z.inj_succ, Z.pow_succ_r by lia. lia.
Qed.

(** The value depends on the bytes of the field only. *)
Lemma be_value_ext bs bs' n : ∀ i val,
  (∀ j, i ≤ j < i + Z.of_nat n → byte_at bs j = byte_at bs' j) →
  be_value bs n i val = be_value bs' n i val.
Proof.
  induction n as [|n IH]; intros i val H; cbn [be_value]; [done|].
  rewrite (H i) by lia. apply IH. intros. apply H. lia.
Qed.

(** Last byte of the field. *)
Lemma be_value_snoc bs n : ∀ i val,
  be_value bs (S n) i val = be_value bs n i val * 256 + byte_at bs (i + Z.of_nat n).
Proof.
  induction n as [|n IH]; intros i val.
  - cbn. by rewrite Z.add_0_r.
  - cbn [be_value] in *. rewrite IH. do 2 f_equal. lia.
Qed.

Lemma set_be_loop_spec n : ∀ bs val,
  bytes bs → 0 ≤ val → Z.of_nat n ≤ zlen bs →
  ∃ bs', bytestream_set_be_loop bs n (Z.of_nat n - 1) val = Done bs' ∧
    bytes bs' ∧ zlen bs' = zlen bs ∧
    (∀ j, Z.of_nat n ≤ j → byte_at bs' j = byte_at bs j) ∧
    be_value bs' n 0 0 = val mod 256 ^ Z.of_nat n.
Proof.
  induction n as [|n IH]; intros bs val Hbs Hv Hn; cbn [bytestream_set_be_loop].
  - exists bs. split_and!; [done..|]. cbn. by rewrite Z.mod_1_r.
  - replace (Z.of_nat (S n) - 1) with (Z.of_nat n) by lia.
    rewrite storez_Done, bind_done by lia.
    set (bs1 := <[_ := _]> bs).
    assert (Hb : Z.land val 255 = val mod 256) by (by change 255 with (Z.ones 8); rewrite Z.land_ones).
    assert (Hb1 : bytes bs1).
    { apply bytes_insert; [done|]. rewrite Hb. apply Z.mod_pos_bound. lia. }
    assert (Hl1 : zlen bs1 = zlen bs) by apply zlen_insert.
    destruct (IH bs1 (Z.shiftr val 8)) as (bs' & -> & Hb' & Hl' & Hfr & Hval);
      [done|by apply Z.shiftr_nonneg|lia|].
    exists bs'. split_and!; [done|done|lia| |].
    + intros j Hj. rewrite Hfr by lia. unfold bs1.
      rewrite byte_at_insert by lia. by rewrite decide_False by lia.
    + rewrite be_value_snoc, Hval, Z.add_0_l, Hfr by lia. unfold bs1.
      rewrite byte_at_insert, decide_True, Hb by lia.
      rewrite Z.shiftr_div_pow2 by lia. change (2 ^ 8) with 256.
      rewrite Nat2Z.inj_succ, Z.pow_succ_r by lia.
      rewrite Z.rem_mul_r by (try apply Z.pow_pos_nonneg; lia). lia.
Qed.

(** Writing a 32-bit value big-endian and reading it back gives the value
    modulo 256^bytes, the rest of the buffer is untouched and no access is out
    of bounds (length-prefix fields of MP4 NAL units). *)
Theorem bytestream_be_roundtrip bs val n :
  bytes bs → 0 ≤ val < 2 ^ 32 → 0 ≤ n ≤ zlen bs →
  ∃ bs', pitcher_bytestream_set_be bs val n = Done bs' ∧
    pitcher_bytestream_get_be bs' n = Done (val mod 256 ^ n) ∧
    zlen bs' = zlen bs ∧ ∀ j, n ≤ j → byte_at bs' j = byte_at bs j.
Proof.
  intros Hbs Hv Hn. unfold pitcher_bytestream_set_be, pitcher_bytestream_get_be.
  destruct (set_be_loop_spec (Z.to_nat n) bs val) as (bs' & Hset & Hb' & Hl & Hfr & Hval);
    [done|lia|lia|].
  rewrite Z2Nat.id in * by lia. rewrite Hset.
  exists bs'. split_and!; [done| |done|done].
  change 0 with (u32 0) at 2. rewrite get_be_loop_value by (done || lia).
  rewrite Hval, u32_small; [done|].
  assert (0 < 256 ^ n) by (apply Z.pow_pos_nonneg; lia).
  pose proof (Z.mod_pos_bound val (256 ^ n)). pose proof (Z.mod_le val (256 ^ n)). lia.
Qed.

Lemma bytestream_be_roundtrip_witness :
  pitcher_bytestream_set_be [9; 9; 9; 9; 7] 305419896 4 = Done [18; 52; 86; 120; 7] ∧
  ∃ bs', pitcher_bytestream_set_be [9; 9; 9; 9; 7] 305419896 4 = Done bs' ∧
    pitcher_bytestream_get_be bs' 4 = Done (305419896 mod 256 ^ 4) ∧
    zlen bs' = zlen [9; 9; 9; 9; 7] ∧ ∀ j, 4 ≤ j → byte_at bs' j = byte_at [9; 9; 9; 9; 7] j.
Proof.
  split; [reflexivity|].
  apply bytestream_be_roundtrip; [repeat constructor; lia|lia|unfold zlen; cbn; lia].
Defined.
