(* ===== verification/Bitstream.v ===== *)
(** * bitstream.c: the bit reader of the H.264 parser

    The reader keeps the last loaded byte and how many of its low bits are
    still unread.  [bs_at B L p s] is the abstraction: [s] reads buffer [B], of
    which [L] bytes may be read, and its next bit is bit [p] (most significant
    bit first).  Every operation is specified against that position; the
    Exp-Golomb readers are shown to decode the code words of the H.264
    standard, and [nal_remove_emul_bytes] to invert emulation prevention. *)

From S2P Require Import Prelude.

(** ** State and operations *)

(* C: pitcher/bitstream.h bitstream_buf 21-28 *)
Record bitstream_buf := BS {
  buf : list Z;
  byte_alloc : Z;
  buf_rdptr : Z;
  num_held_bits : Z;
  held_bits : Z;
  num_bits_read : Z
}.

(** The operations act on the reader that [g_cur_bs] points to. *)
Abbreviation BM := (M bitstream_buf).

(* C: pitcher/bitstream.c bs_init *)
Definition bs_init (b : list Z) (size : Z) : bitstream_buf :=
  {| buf := b; byte_alloc := u32 size; buf_rdptr := 0; num_held_bits := 0;
     held_bits := 0; num_bits_read := 0 |}.

(** One [aligned_word |= buf[buf_rdptr++] << shift]. *)
(* C: pitcher/bitstream.c bs_read 95-95 *)
Definition bs_load_byte (b : list Z) (shift aligned_word rdptr : Z) : outcome (Z * Z) :=
  x ← loadz b rdptr;
  Done (Z.lor aligned_word (u32 (Z.shiftl x shift)), u32 (rdptr + 1)).

(** The [switch] that loads 1 to 4 bytes, each case falling through. *)
(* C: pitcher/bitstream.c bs_read 93-106 *)
Definition bs_load (b : list Z) (rdptr num_bytes_to_load : Z) : outcome (Z * Z) :=
  let case0 '(w, rd) := bs_load_byte b 0 w rd in
  let case1 '(w, rd) := st ← bs_load_byte b 8 w rd; case0 st in
  let case2 '(w, rd) := st ← bs_load_byte b 16 w rd; case1 st in
  let case3 '(w, rd) := st ← bs_load_byte b 24 w rd; case2 st in
  match num_bytes_to_load with
  | 3 => case3 (0, rdptr)
  | 2 => case2 (0, rdptr)
  | 1 => case1 (0, rdptr)
  | 0 => case0 (0, rdptr)
  | _ => Done (0, rdptr)
  end.

(* C: pitcher/bitstream.c bs_read *)
Definition bs_read (num_of_bits : Z) : BM Z := λ pbs,
  _ ← assert_ (num_of_bits <=? 32);
  let read := u32 (num_bits_read pbs + num_of_bits) in
  if num_of_bits <=? num_held_bits pbs then
    let held := num_held_bits pbs - num_of_bits in
    let retval := Z.shiftr (held_bits pbs) held in
    let retval := Z.land retval (u32 (Z.lnot (Z.shiftl 255 num_of_bits))) in
    Done (retval, BS (buf pbs) (byte_alloc pbs) (buf_rdptr pbs) held (held_bits pbs) read)
  else
    let num_of_bits := num_of_bits - num_held_bits pbs in
    let retval := Z.land (held_bits pbs) (u32 (Z.lnot (Z.shiftl 255 (num_held_bits pbs)))) in
    _ ← defined (num_of_bits <? 32);
    let retval := u32 (Z.shiftl retval num_of_bits) in
    let num_bytes_to_load := Z.shiftr (num_of_bits - 1) 3 in
    _ ← assert_ (u32 (buf_rdptr pbs + num_bytes_to_load) <? byte_alloc pbs);
    '(aligned_word, rdptr) ← bs_load (buf pbs) (buf_rdptr pbs) num_bytes_to_load;
    let next_num_held_bits := (32 - num_of_bits) mod 8 in
    let retval := Z.lor retval (Z.shiftr aligned_word next_num_held_bits) in
    Done (retval, BS (buf pbs) (byte_alloc pbs) rdptr next_num_held_bits (u8 aligned_word) read).

(* C: pitcher/bitstream.c bs_read_scode *)
Definition bs_read_scode (length : Z) : BM Z :=
  _ ← lift (assert_ ((0 <? length) && (length <=? 32)));
  val ← bs_read length;
  mret (if 32 <=? length then s32 val
        else Z.lor (- Z.land val (Z.shiftl 1 (length - 1))) val).

(* C: pitcher/bitstream.c bs_read_code *)
Definition bs_read_code (length : Z) : BM Z :=
  _ ← lift (assert_ (0 <? length));
  bs_read length.

(** [while (!(code & 1)) { bs_read(1); length++; }], shared by the two
    Exp-Golomb readers; every turn consumes a bit, so [8 * byte_alloc + 1]
    turns are enough. *)
(* C: pitcher/bitstream.c bs_read_uvlc 151-154 *)
Fixpoint bs_skip_zeros (fuel : nat) (code length : Z) : BM Z :=
  if Z.land code 1 =? 0 then
    match fuel with
    | O => lift NoFuel
    | S fuel' => code ← bs_read 1; bs_skip_zeros fuel' code (u32 (length + 1))
    end
  else mret length.

Definition bs_fuel (pbs : bitstream_buf) : nat := S (Z.to_nat (8 * byte_alloc pbs)).

(* C: pitcher/bitstream.c bs_read_uvlc *)
Definition bs_read_uvlc : BM Z :=
  code ← bs_read 1;
  if code =? 0 then
    pbs ← get;
    length ← bs_skip_zeros (bs_fuel pbs) code 0;
    val ← bs_read length;
    _ ← lift (defined (length <? 32));
    mret (u32 (val + (Z.shiftl 1 length - 1)))
  else mret 0.

(* C: pitcher/bitstream.c bs_read_svlc *)
Definition bs_read_svlc : BM Z :=
  bits ← bs_read 1;
  if bits =? 0 then
    pbs ← get;
    length ← bs_skip_zeros (bs_fuel pbs) bits 0;
    bits ← bs_read length;
    _ ← lift (defined (length <? 32));
    let bits := u32 (bits + Z.shiftl 1 length) in
    mret (if negb (Z.land bits 1 =? 0) then - s32 (Z.shiftr bits 1) else s32 (Z.shiftr bits 1))
  else mret 0.

(* C: pitcher/bitstream.c bs_read_flag *)
Definition bs_read_flag : BM Z := bs_read 1.

(* C: pitcher/bitstream.c bs_consumed_bits *)
Definition bs_consumed_bits (bs : bitstream_buf) : Z := num_bits_read bs.

(** ** Emulation prevention bytes *)

(** The loop of [nal_remove_emul_bytes]; [ps] is the read index in [psrc], the
    result lists the bytes stored to [pdst]. *)
(* C: pitcher/bitstream.c nal_remove_emul_bytes 38-50 *)
Fixpoint nal_remove_loop (fuel : nat) (psrc : list Z) (nal_header_sz num_bytes_in_nal emul_byte : Z)
    (i ps : Z) : outcome (list Z) :=
  if i <? num_bytes_in_nal then
    match fuel with
    | O => NoFuel
    | S fuel' =>
        found ←
          (if i + nal_header_sz <? num_bytes_in_nal then
             p0 ← loadz psrc ps; p1 ← loadz psrc (ps + 1); p2 ← loadz psrc (ps + 2);
             Done (Z.lor (Z.lor (Z.shiftl p0 16) (Z.shiftl p1 8)) p2 =? emul_byte)
           else Done false);
        if (found : bool) then
          b0 ← loadz psrc ps;
          b1 ← loadz psrc (ps + 1);
          rest ← nal_remove_loop fuel' psrc nal_header_sz num_bytes_in_nal emul_byte (i + 2 + 1) (ps + 3);
          Done (b0 :: b1 :: rest)
        else
          b0 ← loadz psrc ps;
          rest ← nal_remove_loop fuel' psrc nal_header_sz num_bytes_in_nal emul_byte (i + 1) (ps + 1);
          Done (b0 :: rest)
    end
  else Done [].

(* C: pitcher/bitstream.c nal_remove_emul_bytes *)
Definition nal_remove_emul_bytes (psrc : list Z) (nalsize nal_header_sz emul_byte : Z)
    : outcome (list Z) :=
  nal_remove_loop (Z.to_nat nalsize) psrc nal_header_sz nalsize emul_byte
    nal_header_sz nal_header_sz.

(** ** The position of a reader *)

(** Bit [p] of a byte array, most significant bit of byte 0 first. *)
Definition bit_be (b : list Z) (p : Z) : bool := Z.testbit (byte_at b (p / 8)) (7 - p mod 8).

(** The [n] bits from position [p], as a number. *)
Fixpoint bits_be (b : list Z) (p : Z) (n : nat) : Z :=
  match n with
  | O => 0
  | S n' => 2 * bits_be b p n' + Z.b2z (bit_be b (p + Z.of_nat n'))
  end.

Record bs_at (B : list Z) (L p : Z) (s : bitstream_buf) : Prop := {
  at_buf : buf s = B;
  at_alloc : byte_alloc s = L;
  at_bytes : bytes B;
  at_L : 0 ≤ L ≤ zlen B;
  at_L29 : L < 2 ^ 29;
  at_pos : num_bits_read s = p;
  at_rd : p = 8 * buf_rdptr s - num_held_bits s;
  at_held : 0 ≤ num_held_bits s < 8;
  at_rd_range : 0 ≤ buf_rdptr s ≤ L;
  at_byte : num_held_bits s ≠ 0 → 0 < buf_rdptr s ∧ held_bits s = byte_at B (buf_rdptr s - 1);
  at_hb : is_byte (held_bits s)
}.

Lemma bs_init_at b size :
  bytes b → 0 ≤ size ≤ zlen b → size < 2 ^ 29 → bs_at b size 0 (bs_init b size).
Proof.
  intros. split; cbn; unfold is_byte; try done; try lia. by rewrite u32_small by lia.
Qed.

Lemma bs_at_range B L p s : bs_at B L p s → 0 ≤ p ≤ 8 * L.
Proof.
  intros []. destruct (decide (num_held_bits s = 0)); [lia|]. destruct at_byte0; lia.
Qed.

Lemma bit_be_at b p a k : 0 ≤ k < 8 → p = 8 * a + (7 - k) → bit_be b p = Z.testbit (byte_at b a) k.
Proof.
  intros Hk ->. unfold bit_be.
  replace ((8 * a + (7 - k)) / 8) with a by dlia.
  by replace (7 - (8 * a + (7 - k)) mod 8) with k by dlia.
Qed.

Lemma bits_be_testbit b p n i :
  0 ≤ i →
  Z.testbit (bits_be b p n) i = bool_decide (i < Z.of_nat n) && bit_be b (p + Z.of_nat n - 1 - i).
Proof.
  revert i. induction n as [|n IH]; intros i Hi; cbn [bits_be].
  - rewrite Z.bits_0. by bd.
  - destruct (decide (i = 0)) as [->|].
    + rewrite Z.testbit_0_r. bd. f_equal. lia.
    + replace i with (Z.succ (i - 1)) at 1 by lia.
      rewrite Z.testbit_succ_r, IH by lia.
      destruct (decide (i < Z.of_nat (S n))); bd; [|done]. f_equal. lia.
Qed.

Lemma bits_be_range b p n : 0 ≤ bits_be b p n < 2 ^ Z.of_nat n.
Proof.
  induction n as [|n IH]; [done|]. cbn [bits_be].
  rewrite Nat2Z.inj_succ, Z.pow_succ_r by lia. destruct (bit_be _ _); cbn; lia.
Qed.

(** A number below [2 ^ n] with the bits of the stream is [bits_be]. *)
Lemma bits_be_eq b p n v :
  0 ≤ v < 2 ^ Z.of_nat n →
  (∀ i, 0 ≤ i < Z.of_nat n → Z.testbit v i = bit_be b (p + Z.of_nat n - 1 - i)) →
  v = bits_be b p n.
Proof.
  intros Hv H. apply Z.bits_inj'. intros i Hi. rewrite bits_be_testbit by done.
  destruct (decide (i < Z.of_nat n)); bd.
  - apply H. lia.
  - apply testbit_small with (Z.of_nat n); [done|lia].
Qed.

(** ** Reading bits *)

Lemma shifted_byte_testbit b s i :
  is_byte b → 0 ≤ s ≤ 24 → 0 ≤ i →
  Z.testbit (u32 (Z.shiftl b s)) i = bool_decide (s ≤ i < s + 8) && Z.testbit b (i - s).
Proof.
  intros Hb Hs Hi. unfold u32. rewrite testbit_mod_pow2, Z.shiftl_spec by lia.
  destruct (decide (s ≤ i < s + 8)); bd; [done|].
  destruct (decide (i < s)); [by rewrite Z.testbit_neg_r, andb_false_r by lia|].
  by rewrite testbit_byte_high, andb_false_r by (done || lia).
Qed.

Lemma bs_load_spec B rd k :
  bytes B → 0 ≤ rd → 0 ≤ k ≤ 3 → rd + k < zlen B → rd + k < 2 ^ 32 - 1 →
  ∃ w, bs_load B rd k = Done (w, rd + k + 1) ∧ 0 ≤ w ∧
    ∀ i, 0 ≤ i → Z.testbit w i =
      bool_decide (i < 8 * (k + 1)) && Z.testbit (byte_at B (rd + k - i / 8)) (i mod 8).
Proof.
  intros HB Hrd Hk Hlen H32.
  assert (k = 0 ∨ k = 1 ∨ k = 2 ∨ k = 3) as [->|[->|[->| ->]]] by lia;
  unfold bs_load, bs_load_byte; repeat
    (cbn beta iota; rewrite loadz_Done by lia; rewrite !bind_done;
     rewrite ?(u32_small (rd + 1)), ?(u32_small (rd + 1 + 1)),
       ?(u32_small (rd + 1 + 1 + 1)), ?(u32_small (rd + 1 + 1 + 1 + 1)) by lia);
  (eexists; split_and!;
   [apply f_equal, f_equal2; [reflexivity|lia]
   |repeat (apply Z.lor_nonneg; split); try apply u32_range; done
   |]; intros i Hi; rewrite ?Z.lor_spec, !shifted_byte_testbit, Z.bits_0
       by (auto with cint; lia);
   (destruct (decide (i < 8)); [|destruct (decide (i < 16)); [|destruct (decide (i < 24))]]);
   bd; try done; [..|destruct (decide (i < 32)); bd; try done];
   do 2 f_equal; dlia).
Qed.

(** Keeping the low [h < 8] bits of a byte with [~(0xff << h)]. *)
Lemma low_bits_testbit x h i :
  is_byte x → 0 ≤ h < 8 → 0 ≤ i →
  Z.testbit (Z.land x (u32 (Z.lnot (Z.shiftl 255 h)))) i = bool_decide (i < h) && Z.testbit x i.
Proof.
  intros Hx Hh Hi. unfold u32.
  rewrite Z.land_spec, testbit_mod_pow2, Z.lnot_spec, Z.shiftl_spec by lia.
  destruct (decide (8 ≤ i)).
  { rewrite testbit_byte_high by done. by rewrite andb_false_l, andb_false_r. }
  change 255 with (Z.ones 8).
  destruct (decide (i < h)); bd.
  - by rewrite (Z.testbit_neg_r _ (i - h)), andb_true_r by lia.
  - rewrite (Z.ones_spec_low 8) by lia. by rewrite andb_false_r.
Qed.

(** [bs_read] within the buffer: the value is the next [n] bits, and the reader
    advances by [n].  The pair [n = 32] on a byte boundary is excluded: there
    the source shifts a 32-bit value by 32. *)
Lemma bs_read_ok B L p s n :
  bs_at B L p s → 0 ≤ n ≤ 32 → n < 32 ∨ p mod 8 ≠ 0 → p + n ≤ 8 * L →
  ∃ s', bs_read n s = Done (bits_be B p (Z.to_nat n), s') ∧ bs_at B L (p + n) s'.
Proof.
  intros [] Hn H32 Hend. destruct s as [b al rd hn hb nr]; cbn in *. subst b al nr.
  unfold bs_read; cbn [buf byte_alloc buf_rdptr num_held_bits held_bits num_bits_read].
  rewrite bind_assert_true by lia.
  destruct (Z.leb_spec n hn) as [Hle|Hgt].
  - eexists. split.
    + apply f_equal, f_equal2; [|reflexivity]. apply bits_be_eq.
      * assert (Hb : ∀ i, n ≤ i → Z.testbit
            (Z.land (Z.shiftr hb (hn - n)) (u32 (Z.lnot (Z.shiftl 255 n)))) i = false).
        { intros i Hi. rewrite low_bits_testbit; [by bd| |lia|lia].
          apply is_byte_shiftr; [done|lia]. }
        rewrite Z2Nat.id by lia. apply bits_lt_pow2; [lia| |done].
        apply Z.land_nonneg. right. apply u32_range.
      * intros i Hi. rewrite Z2Nat.id in * by lia.
        assert (is_byte (Z.shiftr hb (hn - n))) by (apply is_byte_shiftr; [done|lia]).
        rewrite low_bits_testbit, Z.shiftr_spec by (done || lia). bd.
        destruct at_byte0 as [Hrd ->]; [lia|].
        rewrite (bit_be_at _ _ (rd - 1) (i + (hn - n))) by lia. done.
    + split; cbn; try done; try lia.
      rewrite u32_small by lia. lia.
  - set (n' := n - hn) in *.
    assert (Hn' : 0 < n' < 32).
    { subst n'. destruct H32 as [|Hp]; [lia|].
      assert (hn ≠ 0); [|lia]. intros ->. apply Hp. subst p. dlia. }
    rewrite bind_defined_true by lia.
    assert (Hk : Z.shiftr (n' - 1) 3 = (n' - 1) / 8) by (by rewrite Z.shiftr_div_pow2).
    rewrite Hk. set (k := (n' - 1) / 8) in *.
    assert (Hk3 : 0 ≤ k ≤ 3 ∧ n' - 1 - 8 * k < 8 ∧ 8 * k ≤ n' - 1) by (unfold k; dlia).
    assert (Hrd : rd + k < L) by lia.
    rewrite bind_assert_true by (rewrite u32_small by lia; lia).
    destruct (bs_load_spec B rd k) as (w & -> & Hw0 & Hw); [done|lia..|].
    rewrite bind_done. cbn beta iota.
    assert (Hnx : (32 - n') mod 8 = 8 * (k + 1) - n') by dlia.
    rewrite Hnx. set (nx := 8 * (k + 1) - n') in *.
    assert (Hu8 : u8 w = byte_at B (rd + k)).
    { apply Z.bits_inj'. intros i Hi. unfold u8. rewrite testbit_mod_pow2, Hw by lia.
      destruct (decide (i < 8)); bd.
      - do 2 f_equal; dlia.
      - by rewrite testbit_byte_high by (auto with cint; lia). }
    eexists. split.
    + apply f_equal, f_equal2; [|reflexivity].
      assert (Hbits : ∀ i, 0 ≤ i → Z.testbit (Z.lor
          (u32 (Z.shiftl (Z.land hb (u32 (Z.lnot (Z.shiftl 255 hn)))) n')) (Z.shiftr w nx)) i =
          bool_decide (i < n) && bit_be B (p + n - 1 - i)).
      { intros i Hi. unfold u32 at 1.
        rewrite Z.lor_spec, testbit_mod_pow2, Z.shiftl_spec, Z.shiftr_spec, Hw by lia.
        destruct (decide (i < n')) as [Hlow|Hhigh].
        - rewrite (Z.testbit_neg_r _ (i - n')) by lia. bd.
          rewrite (bit_be_at _ _ (rd + k - (i + nx) / 8) ((i + nx) mod 8)) by dlia. done.
        - rewrite low_bits_testbit by (done || lia).
          destruct (decide (i < n)); bd; [|done].
          destruct at_byte0 as [_ ->]; [lia|].
          rewrite (bit_be_at _ _ (rd - 1) (i - n')) by lia. done. }
      apply bits_be_eq; rewrite Z2Nat.id by lia.
      * apply bits_lt_pow2; [lia| |].
        -- apply Z.lor_nonneg. split; [apply u32_range|by apply Z.shiftr_nonneg].
        -- intros i Hi. rewrite Hbits by lia. by bd.
      * intros i Hi. rewrite Hbits by lia. by bd.
    + split; cbn [buf byte_alloc buf_rdptr num_held_bits held_bits num_bits_read];
        try done; try lia.
      * rewrite u32_small by lia. lia.
      * intros _. rewrite Hu8. split; [lia|]. f_equal. lia.
      * apply u8_range.
Qed.

(** Beyond the buffer the assertion of [bs_read] fires before any access. *)
Lemma bs_read_trap B L p s n :
  bs_at B L p s → 0 ≤ n ≤ 32 → n < 32 ∨ p mod 8 ≠ 0 → 8 * L < p + n → bs_read n s = Trap.
Proof.
  intros [] Hn H32 Hend. destruct s as [b al rd hn hb nr]; cbn in *. subst b al nr.
  unfold bs_read; cbn [buf byte_alloc buf_rdptr num_held_bits held_bits num_bits_read].
  rewrite bind_assert_true by lia. rewrite (proj2 (Z.leb_gt n hn)) by lia.
  assert (n - hn < 32).
  { destruct H32 as [|Hp]; [lia|]. assert (hn ≠ 0); [|lia].
    intros ->. apply Hp. subst p. dlia. }
  rewrite bind_defined_true by lia.
  apply bind_assert_false. rewrite Z.shiftr_div_pow2 by lia. change (2 ^ 3) with 8.
  rewrite u32_small by dlia. apply Z.ltb_ge. dlia.
Qed.

(** [bs_read] of [n] bits at bit position [p] returns exactly the bits
    [p .. p+n-1] of the buffer, most significant first, and advances the
    position by [n]; when fewer than [n] bits are left its assertion fails and
    no byte outside the buffer is read.  ([n = 32] on a byte boundary, where
    the source shifts by the width of the type, is excluded.) *)
Theorem bs_read_correct B L p s n :
  bs_at B L p s → 0 ≤ n ≤ 32 → n < 32 ∨ p mod 8 ≠ 0 →
  if p + n <=? 8 * L
  then ∃ s', bs_read n s = Done (bits_be B p (Z.to_nat n), s') ∧ bs_at B L (p + n) s'
  else bs_read n s = Trap.
Proof.
  intros Hs Hn H32. zcase.
  - by apply bs_read_ok.
  - by apply bs_read_trap with B L p.
Qed.

Lemma bs_read_correct_witness :
  bs_at [202; 254; 186; 190] 4 0 (bs_init [202; 254; 186; 190] 4) ∧
  ∃ s', bs_read 12 (bs_init [202; 254; 186; 190] 4) = Done (3247, s') ∧
        bs_at [202; 254; 186; 190] 4 12 s'.
Proof.
  assert (H : bs_at [202; 254; 186; 190] 4 0 (bs_init [202; 254; 186; 190] 4)).
  { apply bs_init_at; [repeat constructor; lia|unfold zlen; cbn; lia|lia]. }
  split; [done|].
  exact (bs_read_correct _ _ _ _ 12 H ltac:(lia) ltac:(lia)).
Defined.

Lemma bs_read_1_ok B L p s :
  bs_at B L p s → p < 8 * L →
  ∃ s', bs_read 1 s = Done (Z.b2z (bit_be B p), s') ∧ bs_at B L (p + 1) s'.
Proof.
  intros Hs Hp. destruct (bs_read_ok B L p s 1) as (s' & Hr & Hs'); [done|lia..|].
  exists s'. split; [|done]. rewrite Hr.
  change (Z.to_nat 1) with 1%nat. cbn [bits_be Z.of_nat]. by rewrite Z.add_0_r.
Qed.

(** ** Exp-Golomb codes

    The code word of [v] is [v + 1] in binary, preceded by as many zeros as it
    has digits after the first: [2 * log2 (v + 1) + 1] bits in all. *)

(** At position [p] stands the code word whose payload is [k = v + 1]. *)
Definition golomb_at (B : list Z) (p k : Z) : Prop :=
  0 < k ∧ bits_be B p (Z.to_nat (2 * Z.log2 k + 1)) = k.

(* The number of bits of that code word. *)
Definition golomb_len (k : Z) : Z := 2 * Z.log2 k + 1.

Lemma golomb_bits B p k i :
  golomb_at B p k → 0 ≤ i ≤ 2 * Z.log2 k →
  bit_be B (p + i) = Z.testbit k (2 * Z.log2 k - i).
Proof.
  intros [Hk Hb] Hi.
  pose proof (bits_be_testbit B p (Z.to_nat (2 * Z.log2 k + 1)) (2 * Z.log2 k - i)) as H.
  rewrite Hb, Z2Nat.id, bool_decide_true in H by lia. rewrite H, andb_true_l by lia.
  f_equal. lia.
Qed.

Lemma golomb_zero B p k i :
  golomb_at B p k → 0 ≤ i < Z.log2 k → bit_be B (p + i) = false.
Proof.
  intros H Hi. rewrite (golomb_bits B p k) by (done || lia). destruct H.
  apply Z.bits_above_log2; lia.
Qed.

Lemma golomb_one B p k : golomb_at B p k → bit_be B (p + Z.log2 k) = true.
Proof.
  intros H. pose proof (Z.log2_nonneg k). rewrite (golomb_bits B p k) by (done || lia).
  destruct H. replace (2 * Z.log2 k - Z.log2 k) with (Z.log2 k) by lia.
  by apply Z.bit_log2.
Qed.

(** The bits after the leading one are the payload without its top digit. *)
Lemma golomb_suffix B p k :
  golomb_at B p k → bits_be B (p + Z.log2 k + 1) (Z.to_nat (Z.log2 k)) = k - 2 ^ Z.log2 k.
Proof.
  intros H. pose proof (Z.log2_nonneg k). destruct (H) as [Hk _].
  pose proof (Z.log2_spec k Hk) as Hl. rewrite Z.pow_succ_r in Hl by lia.
  symmetry. apply bits_be_eq; rewrite Z2Nat.id by lia; [lia|].
  intros i Hi. replace (p + Z.log2 k + 1 + Z.log2 k - 1 - i) with (p + (2 * Z.log2 k - i)) by lia.
  rewrite (golomb_bits B p k) by (done || lia).
  replace (2 * Z.log2 k - (2 * Z.log2 k - i)) with i by lia.
  replace (k - 2 ^ Z.log2 k) with (k mod 2 ^ Z.log2 k).
  - by rewrite Z.mod_pow2_bits_low by lia.
  - symmetry. apply Z.mod_unique with 1; lia.
Qed.

(** The loop over the zeros stops behind the first one bit. *)
Lemma bs_skip_zeros_ok B L q : ∀ fuel p s length,
  bs_at B L p s → p ≤ q < 8 * L → bit_be B q = true →
  (∀ j, p ≤ j < q → bit_be B j = false) →
  q - p < Z.of_nat fuel → 0 ≤ length → length + (q - p) < 2 ^ 32 - 1 →
  ∃ s', bs_skip_zeros fuel 0 length s = Done (length + (q - p) + 1, s') ∧ bs_at B L (q + 1) s'.
Proof.
  induction fuel as [|fuel IH]; intros p s length Hs Hq Hone Hz Hf Hl Hb; [lia|].
  cbn [bs_skip_zeros]. rewrite Z.land_0_l, Z.eqb_refl.
  destruct (bs_read_1_ok B L p s) as (s1 & Hr & Hs1); [done|lia|].
  erewrite M_bind_done by exact Hr. rewrite (u32_small (length + 1)) by lia.
  destruct (decide (p = q)) as [->|].
  - rewrite Hone. exists s1. split; [|done].
    replace (length + (q - q) + 1) with (length + 1) by lia. by destruct fuel.
  - rewrite (Hz p) by lia. cbn [Z.b2z].
    destruct (IH (p + 1) s1 (length + 1)) as (s' & Hr' & Hs');
      [done|lia|done|intros; apply Hz; lia|lia..|].
    exists s'. split; [|done]. rewrite Hr'. do 2 f_equal. lia.
Qed.

(** The reads made at a one-bit code word, and at a longer one. *)
Lemma golomb_read_short B L p s k :
  bs_at B L p s → golomb_at B p k → p + golomb_len k ≤ 8 * L → Z.log2 k = 0 →
  k = 1 ∧ ∃ s1, bs_read 1 s = Done (1, s1) ∧ bs_at B L (p + golomb_len k) s1.
Proof.
  unfold golomb_len. intros Hs Hg Hend E. rewrite E in *.
  destruct (bs_read_1_ok B L p s) as (s1 & Hr1 & Hs1); [done|lia|].
  pose proof (golomb_one B p k Hg) as Hone. rewrite E, Z.add_0_r in Hone.
  rewrite Hone in Hr1. split; [|by exists s1].
  destruct Hg as [Hk _]. pose proof (Z.log2_spec k Hk) as Hl. rewrite E in Hl. cbn in Hl. lia.
Qed.

Lemma golomb_read_long B L p s k :
  bs_at B L p s → k < 2 ^ 32 → golomb_at B p k → p + golomb_len k ≤ 8 * L → Z.log2 k ≠ 0 →
  0 < Z.log2 k < 32 ∧
  ∃ s1 s2 s3, bs_read 1 s = Done (0, s1) ∧
    bs_skip_zeros (bs_fuel s1) 0 0 s1 = Done (Z.log2 k, s2) ∧
    bs_read (Z.log2 k) s2 = Done (k - 2 ^ Z.log2 k, s3) ∧
    bs_at B L (p + golomb_len k) s3.
Proof.
  unfold golomb_len. intros Hs Hk32 Hg Hend E.
  pose proof (bs_at_range _ _ _ _ Hs). pose proof (Z.log2_nonneg k) as Hz0.
  assert (Hz : Z.log2 k < 32) by (apply Z.log2_lt_pow2; destruct Hg; lia).
  pose proof (golomb_zero B p k) as Hzero. pose proof (golomb_one B p k Hg) as Hone.
  pose proof (golomb_suffix B p k Hg) as Hsuf. set (z := Z.log2 k) in *.
  split; [lia|].
  destruct (bs_read_1_ok B L p s) as (s1 & Hr1 & Hs1); [done|lia|].
  replace (bit_be B p) with false in Hr1
    by (symmetry; rewrite <- (Z.add_0_r p); apply Hzero; [done|lia]).
  pose proof (at_L29 _ _ _ _ Hs1). pose proof (at_alloc _ _ _ _ Hs1) as Hal.
  destruct (bs_skip_zeros_ok B L (p + z) (bs_fuel s1) (p + 1) s1 0)
    as (s2 & Hr2 & Hs2); [done|lia|done| |unfold bs_fuel; lia|lia..|].
  { intros j Hj. replace j with (p + (j - p)) by lia. apply Hzero; [done|lia]. }
  replace (0 + (p + z - (p + 1)) + 1) with z in Hr2 by lia.
  destruct (bs_read_ok B L (p + z + 1) s2 z) as (s3 & Hr3 & Hs3); [done|lia..|].
  rewrite Hsuf in Hr3. exists s1, s2, s3. split_and!; [done..|].
  by replace (p + (2 * z + 1)) with (p + z + 1 + z) by lia.
Qed.

(** At the code word of [v], [bs_read_uvlc] returns [v] and consumes that word. *)
Lemma bs_read_uvlc_ok B L p s v :
  bs_at B L p s → 0 ≤ v < 2 ^ 32 - 1 → golomb_at B p (v + 1) →
  p + golomb_len (v + 1) ≤ 8 * L →
  ∃ s', bs_read_uvlc s = Done (v, s') ∧ bs_at B L (p + golomb_len (v + 1)) s'.
Proof.
  intros Hs Hv Hg Hend. unfold bs_read_uvlc. destruct (decide (Z.log2 (v + 1) = 0)) as [E|E].
  - destruct (golomb_read_short B L p s (v + 1)) as (Ev & s1 & Hr1 & Hs1); [done..|].
    exists s1. split; [|done]. mstep Hr1. by replace v with 0 by lia.
  - destruct (golomb_read_long B L p s (v + 1)) as (Hz & s1 & s2 & s3 & Hr1 & Hr2 & Hr3 & Hs3);
      [done|lia|done..|].
    exists s3. split; [|done].
    mstep Hr1. cbn [Z.eqb]. erewrite M_bind_done by reflexivity. mstep Hr2. mstep Hr3.
    erewrite M_bind_done by (unfold lift; rewrite bind_defined_true by lia; reflexivity).
    unfold mret, M_ret. rewrite Z.shiftl_1_l.
    replace (v + 1 - 2 ^ _ + (2 ^ _ - 1)) with v by lia. by rewrite u32_small by lia.
Qed.

(** The payload of the signed code of [e] (0, 1, -1, 2, -2, ...). *)
Definition se_payload (e : Z) : Z := if 0 <? e then 2 * e else 1 - 2 * e.

Lemma bs_read_svlc_ok B L p s e :
  bs_at B L p s → - 2 ^ 31 < e < 2 ^ 31 → golomb_at B p (se_payload e) →
  p + golomb_len (se_payload e) ≤ 8 * L →
  ∃ s', bs_read_svlc s = Done (e, s') ∧ bs_at B L (p + golomb_len (se_payload e)) s'.
Proof.
  intros Hs He Hg Hend. unfold bs_read_svlc. set (k := se_payload e) in *.
  assert (Hk : (0 < e ∧ k = 2 * e) ∨ (e ≤ 0 ∧ k = 1 - 2 * e))
    by (unfold k, se_payload; zcase; lia).
  destruct (decide (Z.log2 k = 0)) as [E|E].
  - destruct (golomb_read_short B L p s k) as (Ev & s1 & Hr1 & Hs1); [done..|].
    exists s1. split; [|done]. mstep Hr1. by replace e with 0 by lia.
  - destruct (golomb_read_long B L p s k) as (Hz & s1 & s2 & s3 & Hr1 & Hr2 & Hr3 & Hs3);
      [done|lia|done..|].
    exists s3. split; [|done].
    mstep Hr1. cbn [Z.eqb]. erewrite M_bind_done by reflexivity. mstep Hr2. mstep Hr3.
    erewrite M_bind_done by (unfold lift; rewrite bind_defined_true by lia; reflexivity).
    unfold mret, M_ret. rewrite Z.shiftl_1_l.
    replace (k - 2 ^ _ + 2 ^ _) with k by lia. rewrite u32_small by lia.
    change 1 with (Z.ones 1) at 1. rewrite Z.land_ones, Z.shiftr_div_pow2 by lia.
    change (2 ^ 1) with 2. rewrite s32_small by dlia. do 2 f_equal.
    zcase; cbn [negb]; dlia.
Qed.

(** The Exp-Golomb readers decode the code words of the H.264 standard:
    [bs_read_uvlc] at the word of [v] returns [v], [bs_read_svlc] at the word
    of the signed [e] returns [e], and each consumes exactly its word. *)
Theorem bs_read_vlc_correct B L p s k :
  bs_at B L p s → golomb_at B p k → p + golomb_len k ≤ 8 * L →
  (∀ v, 0 ≤ v < 2 ^ 32 - 1 → k = v + 1 →
    ∃ s', bs_read_uvlc s = Done (v, s') ∧ bs_at B L (p + golomb_len k) s') ∧
  (∀ e, - 2 ^ 31 < e < 2 ^ 31 → k = se_payload e →
    ∃ s', bs_read_svlc s = Done (e, s') ∧ bs_at B L (p + golomb_len k) s').
Proof.
  intros Hs Hg Hend. split.
  - intros v Hv ->. by apply bs_read_uvlc_ok.
  - intros e He ->. by apply bs_read_svlc_ok.
Qed.

Lemma bs_read_vlc_correct_witness :
  golomb_at [40] 0 5 ∧
  (∀ v, 0 ≤ v < 2 ^ 32 - 1 → 5 = v + 1 →
    ∃ s', bs_read_uvlc (bs_init [40] 1) = Done (v, s') ∧ bs_at [40] 1 (0 + golomb_len 5) s') ∧
  (∀ e, - 2 ^ 31 < e < 2 ^ 31 → 5 = se_payload e →
    ∃ s', bs_read_svlc (bs_init [40] 1) = Done (e, s') ∧ bs_at [40] 1 (0 + golomb_len 5) s').
Proof.
  assert (Hg : golomb_at [40] 0 5) by (split; [done|vm_compute; reflexivity]).
  split; [exact Hg|].
  apply (bs_read_vlc_correct [40] 1 0 (bs_init [40] 1) 5);
    [apply bs_init_at; [repeat constructor; lia|unfold zlen; cbn; lia|lia]
    |exact Hg|vm_compute; discriminate].
Defined.

(** [bs_read_scode] sign-extends the value read. *)
Lemma bs_read_scode_ok B L p s n :
  bs_at B L p s → 0 < n < 32 → p + n ≤ 8 * L →
  ∃ s', bs_read_scode n s =
    Done (let v := bits_be B p (Z.to_nat n) in if v <? 2 ^ (n - 1) then v else v - 2 ^ n, s') ∧
    bs_at B L (p + n) s'.
Proof.
  intros Hs Hn Hend. unfold bs_read_scode.
  destruct (bs_read_ok B L p s n) as (s' & Hr & Hs'); [done|lia..|].
  exists s'. split; [|done].
  erewrite M_bind_done by (unfold lift; rewrite bind_assert_true by lia; reflexivity).
  mstep Hr. unfold mret, M_ret. pose proof (bits_be_range B p (Z.to_nat n)) as Hv.
  rewrite Z2Nat.id in Hv by lia. set (v := bits_be B p (Z.to_nat n)) in *.
  rewrite (proj2 (Z.leb_gt 32 n)) by lia. cbn zeta. do 2 f_equal.
  assert (E : 2 ^ n = 2 * 2 ^ (n - 1)) by (rewrite <- Z.pow_succ_r by lia; f_equal; lia).
  rewrite Z.shiftl_1_l, land_pow2 by lia. zcase.
  - by rewrite (testbit_small v (n - 1)) by lia.
  - rewrite testbit_top, Z.lor_comm by lia.
    pose proof (Z.add_lor_land v (- 2 ^ (n - 1))) as Hal.
    rewrite land_neg_pow2 in Hal by lia.
    replace (v / 2 ^ (n - 1)) with 1 in Hal; [lia|].
    apply Z.div_unique with (v - 2 ^ (n - 1)); lia.
Qed.

(** ** Termination *)

Lemma bs_load_terminates b rd k : terminates (bs_load b rd k).
Proof.
  unfold bs_load, bs_load_byte.
  repeat match goal with
  | |- terminates (match ?x with _ => _ end) => destruct x
  | |- terminates _ => apply terminates_bind; [|intros ??]
  | |- terminates _ => solve [auto with term]
  end.
Qed.

Lemma bs_read_terminates n s : terminates (bs_read n s).
Proof.
  unfold bs_read. apply terminates_bind; [auto with term|intros _ _].
  destruct (_ <=? _); [done|].
  do 2 (apply terminates_bind; [auto with term|intros _ _]).
  apply terminates_bind; [apply bs_load_terminates|]. by intros [] _.
Qed.

(** The three ends of [bs_read]. *)
Lemma bs_read_cases B L p s n :
  bs_at B L p s → 0 ≤ n →
  bs_read n s = Trap ∨ bs_read n s = UB ∨
  ∃ v s', bs_read n s = Done (v, s') ∧ bs_at B L (p + n) s'.
Proof.
  intros Hs Hn. destruct (decide (n ≤ 32)) as [H32|H32].
  2:{ left. unfold bs_read. by rewrite bind_assert_false by lia. }
  destruct (decide (n < 32 ∨ p mod 8 ≠ 0)) as [Ho|Ho].
  - destruct (decide (p + n ≤ 8 * L)).
    + right. right. destruct (bs_read_ok B L p s n) as (s' & E & H'); [done..|]. eauto.
    + left. apply bs_read_trap with B L p; (done || lia).
  - right. left. destruct Hs. unfold bs_read. rewrite bind_assert_true by lia.
    assert (num_held_bits s = 0) by dlia. rewrite (proj2 (Z.leb_gt _ _)) by lia.
    by rewrite bind_defined_false by lia.
Qed.

(** [reads k m]: the reading program [m] terminates on every buffer, and when
    it succeeds it leaves a well-formed reader [k] bits or more further on. *)
Section reads.
Context (B : list Z) (L : Z).

Definition reads {A} (k : Z) (m : BM A) : Prop :=
  ∀ p s, bs_at B L p s → terminates (m s) ∧
    ∀ a s', m s = Done (a, s') → ∃ p', p + k ≤ p' ∧ bs_at B L p' s'.

Lemma reads_ret {A} (a : A) : reads 0 (mret a).
Proof. intros p s Hs. split; [done|]. intros ? ? [= <- <-]. exists p. split; [lia|done]. Qed.

Lemma reads_lift {A} (o : outcome A) : terminates o → reads 0 (lift o).
Proof.
  intros Ho p s Hs. split; [auto with term|]. unfold lift.
  destruct o; try discriminate. intros ? ? [= <- <-]. exists p. split; [lia|done].
Qed.

Lemma reads_bind {A C} j k (m : BM A) (f : A → BM C) :
  reads j m → (∀ a, reads k (f a)) → reads (j + k) (m ≫= f).
Proof.
  intros Hm Hf p s Hs. destruct (Hm p s Hs) as [Ht Hd]. split.
  - apply terminates_M_bind; [done|]. intros a s' (p' & _ & Hs')%Hd. by apply (Hf a p').
  - intros c s'' (a & s' & E & Ef)%M_bind_inv. destruct (Hd _ _ E) as (p' & Hp & Hs').
    destruct (Hf a p' s' Hs') as [_ Hd']. destruct (Hd' _ _ Ef) as (p'' & ? & ?).
    exists p''. split; [lia|done].
Qed.

Lemma reads_weaken {A} j k (m : BM A) : reads k m → j ≤ k → reads j m.
Proof.
  intros Hm Hjk p s Hs. destruct (Hm p s Hs) as [Ht Hd]. split; [done|].
  intros a s' (p' & ? & ?)%Hd. exists p'. split; [lia|done].
Qed.

(** The usual step: the first action reads something, the rest [0] or more. *)
Lemma reads_seq {A C} k (m : BM A) (f : A → BM C) :
  0 ≤ k → reads k m → (∀ a, reads 0 (f a)) → reads 0 (m ≫= f).
Proof. intros Hk Hm Hf. apply (reads_weaken 0 (k + 0)); [by apply reads_bind|lia]. Qed.

Lemma reads_read n : 0 ≤ n → reads n (bs_read n).
Proof.
  intros Hn p s Hs. split; [apply bs_read_terminates|]. intros a s' E.
  destruct (bs_read_cases B L p s n Hs Hn) as [E'|[E'|(v & s1 & E' & H1)]];
    rewrite E' in E; try discriminate. injection E as <- <-. exists (p + n). split; [lia|done].
Qed.

Lemma reads_code n : 0 ≤ n → reads n (bs_read_code n).
Proof.
  intros Hn. apply (reads_weaken n (0 + n)); [|lia].
  apply reads_bind; [apply reads_lift; auto with term|]. intros _. by apply reads_read.
Qed.

Lemma reads_skip_zeros fuel : ∀ code length p s,
  bs_at B L p s → 8 * L - p < Z.of_nat fuel → 0 ≤ length →
  terminates (bs_skip_zeros fuel code length s) ∧
  ∀ n s', bs_skip_zeros fuel code length s = Done (n, s') → 0 ≤ n ∧ ∃ p', p ≤ p' ∧ bs_at B L p' s'.
Proof.
  induction fuel as [|fuel IH]; intros code length p s Hs Hf Hl.
  { pose proof (bs_at_range _ _ _ _ Hs). lia. }
  cbn [bs_skip_zeros]. zcase.
  2:{ split; [done|]. intros ? ? [= <- <-]. split; [done|]. exists p. split; [lia|done]. }
  destruct (reads_read 1 ltac:(lia) p s Hs) as [Ht Hd]. split.
  - apply terminates_M_bind; [done|]. intros c s1 (p1 & ? & H1)%Hd.
    apply (IH c (u32 (length + 1)) p1 s1 H1); [lia|apply u32_range].
  - intros n s' (c & s1 & E1 & E2)%M_bind_inv. destruct (Hd _ _ E1) as (p1 & ? & H1).
    destruct (IH c (u32 (length + 1)) p1 s1 H1) as [_ HI]; [lia|apply u32_range|].
    destruct (HI _ _ E2) as (? & p' & ? & ?). split; [done|]. exists p'. split; [lia|done].
Qed.

(** A reader that reads a bit, then, on 0, a run of zeros and its suffix. *)
Lemma reads_vlc {A} (after : Z → BM A) (short : A) :
  (∀ length, 0 ≤ length → reads 0 (after length)) →
  reads 1 (code ← bs_read 1;
           if code =? 0 then
             pbs ← get; length ← bs_skip_zeros (bs_fuel pbs) code 0; after length
           else mret short).
Proof.
  intros Ha. apply (reads_bind 1 0); [apply reads_read; lia|]. intros code.
  destruct (code =? 0); [|apply reads_ret]. intros p s Hs.
  rewrite (M_bind_done get _ s s s) by done.
  destruct (reads_skip_zeros (bs_fuel s) code 0 p s Hs) as [Ht Hd]; [|lia|].
  { unfold bs_fuel. rewrite (at_alloc _ _ _ _ Hs). pose proof (bs_at_range _ _ _ _ Hs). lia. }
  split.
  - apply terminates_M_bind; [done|]. intros n s1 (? & p1 & ? & H1)%Hd. by apply (Ha n ltac:(done) p1).
  - intros a s' (n & s1 & E1 & E2)%M_bind_inv. destruct (Hd _ _ E1) as (Hn & p1 & ? & H1).
    destruct (Ha n Hn p1 s1 H1) as [_ HI]. destruct (HI _ _ E2) as (p' & ? & ?).
    exists p'. split; [lia|done].
Qed.

Lemma reads_uvlc : reads 1 bs_read_uvlc.
Proof.
  apply (reads_vlc (λ length, val ← bs_read length; _ ← lift (defined (length <? 32));
    mret (u32 (val + (Z.shiftl 1 length - 1))))).
  intros n Hn. apply (reads_seq n); [done|by apply reads_read|]. intros v.
  apply (reads_seq 0); [lia|apply reads_lift; auto with term|]. intros _. apply reads_ret.
Qed.

Lemma reads_svlc : reads 1 bs_read_svlc.
Proof.
  apply (reads_vlc (λ length, bits ← bs_read length; _ ← lift (defined (length <? 32));
    let bits := u32 (bits + Z.shiftl 1 length) in
    mret (if negb (Z.land bits 1 =? 0) then - s32 (Z.shiftr bits 1) else s32 (Z.shiftr bits 1)))).
  intros n Hn. apply (reads_seq n); [done|by apply reads_read|]. intros v.
  apply (reads_seq 0); [lia|apply reads_lift; auto with term|]. intros _. apply reads_ret.
Qed.

Lemma reads_flag : reads 1 bs_read_flag.
Proof. apply reads_read. lia. Qed.
End reads.

Create HintDb reads.
#[export] Hint Resolve reads_ret reads_uvlc reads_svlc reads_flag : reads.
#[export] Hint Extern 1 (reads _ _ _ (lift _)) => apply reads_lift; solve [auto with term] : reads.
#[export] Hint Extern 1 (reads _ _ _ (bs_read_code _)) => apply reads_code; lia : reads.

(** Walks through a straight-line reading program. *)
Ltac reads_step :=
  lazymatch goal with
  | |- reads _ _ 0 (mbind _ _) => eapply reads_seq; [|solve [eauto with reads]|intros ?]; [lia|]
  | |- reads _ _ 0 (if ?b then _ else _) => destruct b
  | |- reads _ _ 0 _ => first [solve [eauto with reads] | eapply reads_weaken; [solve [eauto with reads]|lia]]
  end.

Lemma nal_remove_loop_terminates psrc h n e fuel : ∀ i ps,
  n - i ≤ Z.of_nat fuel → terminates (nal_remove_loop fuel psrc h n e i ps).
Proof.
  induction fuel as [|fuel IH]; intros i ps Hf; cbn [nal_remove_loop]; (zcase; [|done]); [lia|].
  apply terminates_bind.
  { destruct (_ <? _); [|done]. repeat (apply terminates_bind; [solve [auto with term]|intros ? _]). done. }
  intros [|] _; repeat (apply terminates_bind; [solve [auto with term]|intros ? _]);
    (apply terminates_bind; [apply IH; lia|intros; done]).
Qed.

(** What is written was read: no more bytes than the source has. *)
Lemma nal_remove_loop_inv psrc h n e fuel : ∀ i ps out,
  bytes psrc → 0 ≤ ps → nal_remove_loop fuel psrc h n e i ps = Done out →
  bytes out ∧ zlen out ≤ Z.max 0 (zlen psrc - ps).
Proof.
  induction fuel as [|fuel IH]; intros i ps out Hb Hps; cbn [nal_remove_loop]; zcase;
    [discriminate|intros [= <-]; split; [constructor|unfold zlen; cbn; lia]
    | |intros [= <-]; split; [constructor|unfold zlen; cbn; lia]].
  intros (found & _ & H0)%bind_done_inv. destruct found.
  - apply bind_done_inv in H0 as (b0 & E0 & (b1 & E1 & (rest & Er & [= <-])%bind_done_inv)%bind_done_inv).
    apply loadz_inv in E0 as [E0 ?], E1 as [E1 ?].
    destruct (IH (i + 2 + 1) (ps + 3) rest Hb ltac:(lia) Er) as [Hr Hl]. rewrite !zlen_cons. split; [|lia].
    do 2 (constructor; [by eapply (nthz_bytes psrc)|]); done.
  - apply bind_done_inv in H0 as (b0 & E0 & (rest & Er & [= <-])%bind_done_inv).
    apply loadz_inv in E0 as [E0 ?].
    destruct (IH (i + 1) (ps + 1) rest Hb ltac:(lia) Er) as [Hr Hl]. rewrite !zlen_cons. split; [|lia].
    constructor; [by eapply (nthz_bytes psrc)|done].
Qed.

(** ** Emulation prevention: specification

    [unescape] is the removal the H.264/HEVC standards define: a byte 3 that
    follows two zero bytes is dropped.  [escape] is the encoder's insertion, with
    [z] zero bytes just written. *)
Fixpoint unescape (l : list Z) : list Z :=
  match l with
  | 0 :: ((0 :: (3 :: rest)) as tl) => 0 :: 0 :: unescape rest
  | x :: tl => x :: unescape tl
  | [] => []
  end.

Fixpoint escape (z : nat) (l : list Z) : list Z :=
  match l with
  | [] => []
  | x :: tl =>
      if (2 <=? z)%nat && (x <=? 3)
      then 3 :: x :: escape (if x =? 0 then 1 else 0) tl
      else x :: escape (if x =? 0 then S z else 0) tl
  end.

(** The same removal as a machine that counts the zeros it has passed. *)
Fixpoint unescape_count (z : nat) (l : list Z) : list Z :=
  match l with
  | [] => []
  | x :: tl =>
      if (2 <=? z)%nat && (x =? 3) then unescape_count 0 tl
      else x :: unescape_count (if x =? 0 then S z else 0) tl
  end.

Lemma unescape_window a b c l :
  unescape (a :: b :: c :: l) =
  if (a =? 0) && (b =? 0) && (c =? 3) then a :: b :: unescape l
  else a :: unescape (b :: c :: l).
Proof.
  destruct (Z.eqb_spec a 0) as [->|]; [|by destruct a].
  destruct (Z.eqb_spec b 0) as [->|]; [|by destruct b].
  destruct (Z.eqb_spec c 3) as [->|]; [done|]. cbn [andb].
  destruct c as [|[[]|[]|]|]; done.
Qed.

Lemma unescape_cons_nonzero x l : x ≠ 0 → unescape (x :: l) = x :: unescape l.
Proof. by destruct x. Qed.
Lemma unescape_two x y : unescape [x; y] = [x; y].
Proof. by destruct x as [|[]|], y as [|[]|]. Qed.
Lemma unescape_0_nonzero x l : x ≠ 0 → unescape (0 :: x :: l) = 0 :: x :: unescape l.
Proof.
  intros. destruct l as [|y l]; [apply unescape_two|].
  rewrite unescape_window. destruct (Z.eqb_spec x 0); [done|].
  cbn [andb]. by rewrite unescape_cons_nonzero.
Qed.

(** The zeros a window of three bytes can still see. *)
Definition pending (z : nat) : list Z :=
  match z with O => [] | 1%nat => [0] | _ => [0; 0] end.

Lemma unescape_pending l : ∀ z,
  unescape (pending z ++ l) = pending z ++ unescape_count z l.
Proof.
  induction l as [|x l IH]; intros z.
  { rewrite !app_nil_r. by destruct z as [|[|z]]. }
  cbn [unescape_count].
  destruct (Z.eqb_spec x 0) as [->|Hx].
  - rewrite andb_false_r. specialize (IH (S z)).
    destruct z as [|[|z]]; cbn [pending app] in *; [by rewrite IH..|].
    rewrite unescape_window, Z.eqb_refl. cbn [andb]. cbn [Z.eqb]. by rewrite IH.
  - specialize (IH 0%nat). cbn [pending app] in IH.
    destruct z as [|[|z]]; cbn [pending app Nat.leb andb].
    + by rewrite unescape_cons_nonzero, IH.
    + by rewrite unescape_0_nonzero, IH.
    + rewrite unescape_window, Z.eqb_refl. cbn [andb]. zcase; [by rewrite IH|].
      by rewrite unescape_0_nonzero, IH.
Qed.

Lemma unescape_count_escape l : ∀ z, unescape_count z (escape z l) = l.
Proof.
  induction l as [|x l IH]; intros z; [done|]. cbn [escape].
  destruct ((2 <=? z)%nat && (x <=? 3)) eqn:E.
  - apply andb_prop in E as [Ez _]. cbn [unescape_count]. rewrite Ez. cbn [andb Z.eqb].
    by destruct (Z.eqb_spec x 0); rewrite IH.
  - cbn [unescape_count]. replace ((2 <=? z)%nat && (x =? 3)) with false; [by rewrite IH|].
    destruct (2 <=? z)%nat; [|done]. cbn [andb] in *. zbool. symmetry. apply Z.eqb_neq. lia.
Qed.

Lemma unescape_escape l : unescape (escape 0 l) = l.
Proof.
  pose proof (unescape_pending (escape 0 l) 0) as H. cbn [pending app] in H.
  by rewrite H, unescape_count_escape.
Qed.

(** ** [nal_remove_emul_bytes] implements the removal *)

Lemma next_24_bits_eq a b c :
  is_byte a → is_byte b → is_byte c →
  (Z.lor (Z.lor (Z.shiftl a 16) (Z.shiftl b 8)) c =? 3) = (a =? 0) && (b =? 0) && (c =? 3).
Proof.
  intros Ha Hb Hc.
  destruct (Z.eqb_spec (Z.lor (Z.lor (Z.shiftl a 16) (Z.shiftl b 8)) c) 3) as [E|E].
  - assert (Hlow : ∀ i, 0 ≤ i → Z.testbit c i = bool_decide (i < 8) && Z.testbit 3 i).
    { intros i Hi. rewrite <- E, !Z.lor_spec, !Z.shiftl_spec by done.
      destruct (decide (i < 8)); bd.
      - by rewrite !(Z.testbit_neg_r _ (i - _)) by lia.
      - by apply testbit_byte_high; [|lia]. }
    assert (c = 3) as ->.
    { apply Z.bits_inj'. intros i Hi. rewrite Hlow by done.
      destruct (decide (i < 8)); bd; [done|]. symmetry. apply testbit_small with 8; lia. }
    assert (Hz : ∀ x s, is_byte x → 0 ≤ s → Z.lor (Z.shiftl x s) 3 = 3 → 8 ≤ s → x = 0).
    { intros x s Hx Hs He H8. apply Z.bits_inj'. intros i Hi. rewrite Z.bits_0.
      assert (Hb3 : Z.testbit 3 (i + s) = false) by (apply testbit_small with 8; lia).
      rewrite <- He, Z.lor_spec, Z.shiftl_spec in Hb3 by lia.
      apply orb_false_elim in Hb3 as [Hb3 _]. by replace (i + s - s) with i in Hb3 by lia. }
    assert (Hab : ∀ u v, 0 ≤ u → 0 ≤ v → Z.lor (Z.lor u v) 3 = 3 → Z.lor u 3 = 3 ∧ Z.lor v 3 = 3).
    { intros u v Hu Hv He. split; apply Z.bits_inj'; intros i Hi;
        (assert (H3 := f_equal (λ w, Z.testbit w i) He); cbn beta in H3);
        rewrite !Z.lor_spec in *; by destruct (Z.testbit u i), (Z.testbit v i), (Z.testbit 3 i). }
    unfold is_byte in *.
    destruct (Hab (Z.shiftl a 16) (Z.shiftl b 8)) as [Ea Eb];
      [apply Z.shiftl_nonneg; lia..|done|].
    rewrite (Hz a 16), (Hz b 8) by (done || lia). done.
  - symmetry. destruct (Z.eqb_spec a 0) as [->|]; [|done].
    destruct (Z.eqb_spec b 0) as [->|]; [|done].
    destruct (Z.eqb_spec c 3) as [->|]; [|done]. done.
Qed.

(** The NAL unit from its byte [i] on. *)
Definition nal_tail (psrc : list Z) (nalsize i : Z) : list Z :=
  drop (Z.to_nat i) (take (Z.to_nat nalsize) psrc).

Lemma nal_tail_nil psrc n i : n ≤ i → nal_tail psrc n i = [].
Proof. intros. apply drop_ge. rewrite length_take. lia. Qed.

Lemma nal_tail_cons psrc n i :
  0 ≤ i < n → n ≤ zlen psrc → nal_tail psrc n i = byte_at psrc i :: nal_tail psrc n (i + 1).
Proof.
  unfold nal_tail, zlen. intros Hi Hn. replace (Z.to_nat (i + 1)) with (S (Z.to_nat i)) by lia.
  destruct (lookup_lt_is_Some_2 (take (Z.to_nat n) psrc) (Z.to_nat i)) as [x Hx].
  { rewrite length_take. lia. }
  rewrite (drop_S _ x) by done. f_equal.
  rewrite lookup_take_lt in Hx by lia. unfold byte_at. rewrite nthz_lookup, Hx by lia. done.
Qed.

Lemma nal_remove_loop_spec psrc n fuel : ∀ i,
  bytes psrc → 1 ≤ i → n < zlen psrc → n - i ≤ Z.of_nat fuel →
  nal_remove_loop fuel psrc 1 n 3 i i = Done (unescape (nal_tail psrc n i)).
Proof.
  induction fuel as [|fuel IH]; intros i Hb Hi Hn Hf.
  { cbn. rewrite nal_tail_nil by lia. zcase; [lia|done]. }
  cbn [nal_remove_loop]. zcase; [|by rewrite nal_tail_nil by lia].
  destruct (Z.ltb_spec (i + 1) n) as [Hin|].
  - rewrite !loadz_Done, !bind_done by lia.
    rewrite next_24_bits_eq by auto with cint.
    rewrite (nal_tail_cons psrc n i), (nal_tail_cons psrc n (i + 1)) by lia.
    replace (i + 1 + 1) with (i + 2) by lia.
    destruct (decide (i + 2 < n)) as [H3|H3].
    + rewrite (nal_tail_cons psrc n (i + 2)) by lia.
      rewrite unescape_window. replace (i + 2 + 1) with (i + 3) by lia.
      destruct (_ && _).
      * rewrite IH by (done || lia). by rewrite !bind_done.
      * rewrite IH by (done || lia).
        rewrite !bind_done, (nal_tail_cons psrc n (i + 1)) by lia.
        replace (i + 1 + 1) with (i + 2) by lia.
        rewrite (nal_tail_cons psrc n (i + 2)) by lia. by replace (i + 2 + 1) with (i + 3) by lia.
    + rewrite (nal_tail_nil psrc n (i + 2)), unescape_two by lia. destruct (_ && _).
      * replace (i + 2 + 1) with (i + 3) by lia.
        rewrite IH by (done || lia). by rewrite !bind_done, nal_tail_nil by lia.
      * rewrite IH by (done || lia). rewrite !bind_done, (nal_tail_cons psrc n (i + 1)) by lia.
        rewrite nal_tail_nil by lia. by destruct (byte_at psrc (i + 1)).
  - rewrite bind_done, loadz_Done, bind_done by lia. rewrite IH by (done || lia).
    rewrite bind_done, (nal_tail_cons psrc n i), nal_tail_nil by lia.
    by destruct (byte_at psrc i).
Qed.

(** For an H.264 NAL unit (one header byte) that is followed by at least one
    more readable byte, [nal_remove_emul_bytes] outputs the payload with every
    emulation prevention byte removed. *)
Theorem nal_remove_emul_bytes_correct psrc n :
  bytes psrc → 1 ≤ n < zlen psrc →
  nal_remove_emul_bytes psrc n 1 3 = Done (unescape (nal_tail psrc n 1)).
Proof. intros. apply nal_remove_loop_spec; (done || lia). Qed.

Lemma nal_remove_emul_bytes_correct_witness :
  nal_remove_emul_bytes [103; 0; 0; 3; 1; 7; 0; 0; 1] 6 1 3 = Done [0; 0; 1; 7].
Proof.
  rewrite (nal_remove_emul_bytes_correct [103; 0; 0; 3; 1; 7; 0; 0; 1] 6);
    [reflexivity|repeat constructor; lia|unfold zlen; cbn; lia].
Defined.

(** C36: round trip with the encoder: removing from an escaped payload gives the
    payload back. *)
Theorem nal_remove_emul_bytes_escape hdr payload next :
  is_byte hdr → bytes (escape 0 payload) → bytes next → next ≠ [] →
  nal_remove_emul_bytes (hdr :: escape 0 payload ++ next) (1 + zlen (escape 0 payload)) 1 3 =
  Done payload.
Proof.
  intros Hh Hp Hx Hne. rewrite <- (unescape_escape payload) at 3.
  unfold nal_remove_emul_bytes. rewrite nal_remove_loop_spec.
  - f_equal. f_equal. unfold nal_tail, zlen.
    replace (Z.to_nat (1 + Z.of_nat (length (escape 0 payload))))
      with (S (length (escape 0 payload))) by lia.
    change (Z.to_nat 1) with 1%nat. cbn [take drop]. by rewrite take_app_length.
  - constructor; [done|]. by apply Forall_app.
  - lia.
  - rewrite zlen_cons, zlen_app. destruct next; [done|]. rewrite zlen_cons.
    pose proof (zlen_nonneg next). lia.
  - pose proof (zlen_nonneg (escape 0 payload)). lia.
Qed.

Lemma nal_remove_emul_bytes_escape_witness :
  escape 0 [0; 0; 1; 0; 0; 0; 9] = [0; 0; 3; 1; 0; 0; 3; 0; 9] ∧
  nal_remove_emul_bytes (103 :: escape 0 [0; 0; 1; 0; 0; 0; 9] ++ [0])
    (1 + zlen (escape 0 [0; 0; 1; 0; 0; 0; 9])) 1 3 = Done [0; 0; 1; 0; 0; 0; 9].
Proof.
  split; [reflexivity|].
  apply nal_remove_emul_bytes_escape;
    [unfold is_byte; lia|repeat constructor; cbn; lia|repeat constructor; lia|done].
Defined.

(** The window of three bytes is read for the last two bytes of the unit as
    well: with nothing behind the unit the read is out of bounds. *)
Lemma nal_remove_emul_bytes_overread : nal_remove_emul_bytes [103; 66; 1] 3 1 3 = UB.
Proof. reflexivity. Qed.

(** ** Writing syntax elements

    The bits an encoder emits for [u(n)], [ue(v)] and [se(v)], and a reader
    that stands before given bits: clients state what they decode against
    these and never mention positions. *)

Fixpoint ubits (n : nat) (v : Z) : list bool :=
  match n with
  | O => []
  | S n' => ubits n' (v / 2) ++ [Z.odd v]
  end.

Definition ue (v : Z) : list bool := ubits (Z.to_nat (golomb_len (v + 1))) (v + 1).
Definition se (e : Z) : list bool := ubits (Z.to_nat (golomb_len (se_payload e))) (se_payload e).

Lemma zlen_ubits n v : zlen (ubits n v) = Z.of_nat n.
Proof.
  revert v. induction n as [|n IH]; intros v; [done|]. cbn [ubits].
  rewrite zlen_app, IH. unfold zlen. cbn. lia.
Qed.

Section writing.
Context (B : list Z) (L : Z).

(** From position [p] on, the buffer holds these bits. *)
Definition at_bits (p : Z) (l : list bool) : Prop :=
  ∀ i b, l !! i = Some b → bit_be B (p + Z.of_nat i) = b.

Lemma at_bits_app p l k : at_bits p (l ++ k) → at_bits p l ∧ at_bits (p + zlen l) k.
Proof.
  intros H. split; intros i b Hi.
  - apply H. by rewrite lookup_app_l by (by eapply lookup_lt_Some).
  - unfold zlen. rewrite <- Z.add_assoc, <- Nat2Z.inj_add. apply H.
    rewrite lookup_app_r by lia. rewrite <- Hi. f_equal. lia.
Qed.

Lemma at_bits_ubits n : ∀ v p, 0 ≤ v < 2 ^ Z.of_nat n → at_bits p (ubits n v) → bits_be B p n = v.
Proof.
  induction n as [|n IH]; intros v p Hv H; [cbn in *; lia|]. cbn [ubits bits_be] in *.
  rewrite Nat2Z.inj_succ, Z.pow_succ_r in Hv by lia.
  apply at_bits_app in H as [H1 H2]. rewrite zlen_ubits in H2.
  rewrite (IH (v / 2)) by (done || dlia).
  pose proof (H2 0%nat _ eq_refl) as Hb. rewrite Z.add_0_r in Hb. rewrite Hb.
  rewrite (Zdiv2_odd_eqn v) at 3. by rewrite Z.div2_div.
Qed.

Definition upcoming (l : list bool) (s : bitstream_buf) : Prop :=
  ∃ p, bs_at B L p s ∧ at_bits p l ∧ p + zlen l ≤ 8 * L.

Lemma read_u n v rest s :
  0 ≤ n < 32 → 0 ≤ v < 2 ^ n → upcoming (ubits (Z.to_nat n) v ++ rest) s →
  ∃ s', bs_read n s = Done (v, s') ∧ upcoming rest s'.
Proof.
  intros Hn Hv (p & Hs & Hb & Hl). apply at_bits_app in Hb as [Hb Hr].
  rewrite zlen_app, zlen_ubits in *. rewrite Z2Nat.id in * by lia. pose proof (zlen_nonneg rest).
  destruct (bs_read_ok B L p s n) as (s' & E & Hs'); [done|lia..|].
  rewrite (at_bits_ubits _ v) in E by (rewrite ?Z2Nat.id; (done || lia)).
  exists s'. split; [done|]. exists (p + n). split_and!; [done..|lia].
Qed.

Lemma read_flag b rest s :
  upcoming (b :: rest) s → ∃ s', bs_read_flag s = Done (Z.b2z b, s') ∧ upcoming rest s'.
Proof.
  intros H. apply (read_u 1 (Z.b2z b)); [lia|destruct b; cbn; lia|]. by destruct b.
Qed.

Lemma golomb_bound k : 0 < k → k < 2 ^ golomb_len k.
Proof.
  intros Hk. unfold golomb_len. pose proof (Z.log2_nonneg k). pose proof (Z.log2_spec k Hk).
  pose proof (pow2_le (Z.succ (Z.log2 k)) (2 * Z.log2 k + 1) ltac:(lia)). lia.
Qed.

Lemma golomb_len_pos k : 0 < golomb_len k.
Proof. unfold golomb_len. pose proof (Z.log2_nonneg k). lia. Qed.

Lemma read_golomb k rest s :
  0 < k → upcoming (ubits (Z.to_nat (golomb_len k)) k ++ rest) s →
  ∃ p, bs_at B L p s ∧ golomb_at B p k ∧ p + golomb_len k ≤ 8 * L ∧
    ∀ s', bs_at B L (p + golomb_len k) s' → upcoming rest s'.
Proof.
  intros Hk (p & Hs & Hb & Hl). apply at_bits_app in Hb as [Hb Hr].
  pose proof (golomb_len_pos k). pose proof (golomb_bound k Hk). pose proof (zlen_nonneg rest).
  rewrite zlen_app, zlen_ubits, Z2Nat.id in * by lia.
  exists p. split_and!; [done| |lia|].
  - split; [done|]. apply at_bits_ubits; [|done]. rewrite Z2Nat.id by (unfold golomb_len in *; lia). unfold golomb_len in *. lia.
  - intros s' Hs'. exists (p + golomb_len k). split_and!; [done..|lia].
Qed.

Lemma read_ue v rest s :
  0 ≤ v < 2 ^ 32 - 1 → upcoming (ue v ++ rest) s →
  ∃ s', bs_read_uvlc s = Done (v, s') ∧ upcoming rest s'.
Proof.
  intros Hv H. apply read_golomb in H as (p & Hs & Hg & Hl & Hk); [|lia].
  destruct (bs_read_uvlc_ok B L p s v) as (s' & ? & ?); [done..|]. eauto.
Qed.

Lemma read_se e rest s :
  - 2 ^ 31 < e < 2 ^ 31 → upcoming (se e ++ rest) s →
  ∃ s', bs_read_svlc s = Done (e, s') ∧ upcoming rest s'.
Proof.
  intros He H. apply read_golomb in H as (p & Hs & Hg & Hl & Hk);
    [|unfold se_payload; zcase; lia].
  destruct (bs_read_svlc_ok B L p s e) as (s' & ? & ?); [done..|]. eauto.
Qed.

Lemma read_code n v rest s :
  0 < n < 32 → 0 ≤ v < 2 ^ n → upcoming (ubits (Z.to_nat n) v ++ rest) s →
  ∃ s', bs_read_code n s = Done (v, s') ∧ upcoming rest s'.
Proof.
  intros Hn Hv H. destruct (read_u n v rest s) as (s' & E & H'); [lia|done..|].
  exists s'. split; [|done]. unfold bs_read_code.
  rewrite (M_bind_done _ _ s tt s); [done|]. unfold lift. by rewrite bind_assert_true by lia.
Qed.
End writing.

(** One read of a syntax element: [H] says what is upcoming, [lem] reads it. *)
Ltac pstep lem H :=
  let s' := fresh "s" in let E := fresh "E" in
  eapply lem in H; [destruct H as (s' & E & H); mstep E; clear E|try (lia || assumption)..].

(** Packing bits into bytes, the last byte filled with zeros. *)
Definition byte_of (a b c d e f g h : bool) : Z :=
  Z.b2z h + 2 * (Z.b2z g + 2 * (Z.b2z f + 2 * (Z.b2z e +
    2 * (Z.b2z d + 2 * (Z.b2z c + 2 * (Z.b2z b + 2 * Z.b2z a)))))).

Fixpoint pack (l : list bool) : list Z :=
  match l with
  | a :: b :: c :: d :: e :: f :: g :: h :: rest => byte_of a b c d e f g h :: pack rest
  | [] => []
  | [a] => [byte_of a false false false false false false false]
  | [a; b] => [byte_of a b false false false false false false]
  | [a; b; c] => [byte_of a b c false false false false false]
  | [a; b; c; d] => [byte_of a b c d false false false false]
  | [a; b; c; d; e] => [byte_of a b c d e false false false]
  | [a; b; c; d; e; f] => [byte_of a b c d e f false false]
  | [a; b; c; d; e; f; g] => [byte_of a b c d e f g false]
  end.

Lemma is_byte_of a b c d e f g h : is_byte (byte_of a b c d e f g h).
Proof. unfold is_byte, byte_of. destruct a, b, c, d, e, f, g, h; cbn [Z.b2z]; lia. Qed.

Lemma bit_be_byte_of a b c d e f g h k i :
  (i < 8)%nat → [a; b; c; d; e; f; g; h] !! i = Some (bit_be (byte_of a b c d e f g h :: k) (Z.of_nat i)).
Proof.
  intros Hi. do 8 (destruct i as [|i]; [destruct a, b, c, d, e, f, g, h; reflexivity|]). lia.
Qed.

Lemma bit_be_cons x k i : 8 ≤ i → bit_be (x :: k) i = bit_be k (i - 8).
Proof.
  intros Hi. unfold bit_be.
  replace ((i - 8) / 8) with (i / 8 - 1) by dlia. replace ((i - 8) mod 8) with (i mod 8) by dlia.
  f_equal. unfold byte_at. rewrite !nthz_lookup by dlia.
  replace (Z.to_nat (i / 8)) with (S (Z.to_nat (i / 8 - 1))) by dlia. done.
Qed.

Lemma pack_bits l :
  bytes (pack l) ∧ zlen l ≤ 8 * zlen (pack l) ∧ at_bits (pack l) 0 l.
Proof.
  induction l as [l IH] using (Wf_nat.induction_ltof1 _ (@length bool)). unfold Wf_nat.ltof in IH.
  assert (Hshort : ∀ a b c d e f g h k, k = take (length k) [a; b; c; d; e; f; g; h] →
    at_bits [byte_of a b c d e f g h] 0 k).
  { intros a b c d e f g h k Hk i x Hx. cbn [Z.add].
    assert ((i < 8)%nat ∧ [a; b; c; d; e; f; g; h] !! i = Some x) as [Hi Hx'].
    { rewrite Hk in Hx. apply lookup_take_Some in Hx as [Hx ?]. split; [|done].
      by apply lookup_lt_Some in Hx. }
    rewrite (bit_be_byte_of a b c d e f g h []) in Hx' by done. by injection Hx'. }
  do 8 (destruct l as [|? l];
    [split_and!; [by repeat first [apply is_byte_of | apply Forall_cons_2 | apply Forall_nil_2]|unfold zlen; cbn; lia|first [by apply Hshort | by intros i b Hi]]|]).
  destruct (IH l) as (Hb & Hz & Ha); [cbn; lia|]. cbn [pack]. split_and!.
  - constructor; [apply is_byte_of|done].
  - rewrite !zlen_cons. lia.
  - intros i x Hx. cbn [Z.add].
    match type of Hx with (?a :: ?b :: ?c :: ?d :: ?e :: ?f :: ?g :: ?h :: _) !! _ = _ =>
      change (([a; b; c; d; e; f; g; h] ++ l) !! i = Some x) in Hx end.
    destruct (decide (i < 8)%nat) as [Hi|Hi].
    + rewrite lookup_app_l in Hx by (cbn; lia).
      rewrite (bit_be_byte_of _ _ _ _ _ _ _ _ (pack l)) in Hx by done. by injection Hx.
    + rewrite bit_be_cons by lia. rewrite lookup_app_r in Hx by (cbn; lia).
      specialize (Ha _ _ Hx). cbn [length Z.add] in Ha. rewrite <- Ha. f_equal. cbn. lia.
Qed.

(** A fresh reader on packed bits. *)
Definition reader (l : list bool) : bitstream_buf := bs_init (pack l) (zlen (pack l)).

Lemma upcoming_reader l :
  zlen (pack l) < 2 ^ 29 → upcoming (pack l) (zlen (pack l)) l (reader l).
Proof.
  intros Hl. destruct (pack_bits l) as (Hb & Hz & Ha). exists 0. split_and!; [|done|lia].
  apply bs_init_at; [done|pose proof (zlen_nonneg (pack l)); lia|done].
Qed.
