(* ===== verification/Parser.v ===== *)
(** * parse.c: the elementary-stream parser

    The frame list with its cursor, and [pitcher_parse_startcode], the scanner
    that cuts a byte stream into frames at its start codes.  The scanner is
    parameterised, as in the source, by the start code and by the codec's
    [check_frame] call-back.

    The loop body of the source does two things that do not interact: it finds
    the next start code and asks [check_frame] for its type (here [scan_match]),
    and it keeps the bounds of the frame being collected (here [scan_frame]).
    The main theorem says that the frames pushed are those of the reference
    definitions: [file_codes] compares the bytes of the file with those of the
    patterns, [frames_of] cuts at the start codes that are found. *)

From S2P Require Import Prelude.

(** ** Data *)

(* C: pitcher/parse.h pitcher_frame 27-33 *)
Record pitcher_frame := Frame {
  f_idx : Z;
  f_size : Z;
  f_offset : Z;
  f_flag : Z
}.

(** [cur_frame] points to a frame of the queue (here: its index), is NULL, or
    is the bogus frame around the list head that [list_prev_entry] and
    [list_last_entry] can produce. *)
Inductive frame_ptr :=
  | FNull
  | FHead
  | FAt (i : nat).

#[export] Instance frame_ptr_eq_dec : EqDecision frame_ptr.
Proof. solve_decision. Defined.

(** [p_virt] holds the file; [p_nalloc] counts the frames asked from
    [pitcher_calloc] so far. *)
(* C: pitcher/parse.h pitcher_parser 35-48 *)
Record pitcher_parser := Parser {
  p_queue : list pitcher_frame;
  p_format : Z;
  p_cur_frame : frame_ptr;
  p_number : Z;
  p_frame_cnt : Z;
  p_virt : list Z;
  p_size : Z;
  p_width : Z;
  p_height : Z;
  p_nalloc : nat
}.

(* C: pitcher/parse.h PARSER_TYPE_UNKNOWN 90-94 *)
Definition PARSER_TYPE_UNKNOWN : Z := 0.
Definition PARSER_TYPE_CONFIG : Z := 1.
Definition PARSER_TYPE_FRAME : Z := 2.

(* C: pitcher/pitcher.h PITCHER_BUFFER_FLAG_LAST 31-35 *)
Definition PITCHER_BUFFER_FLAG_LAST : Z := 1.

Definition set_queue q p :=
  Parser q (p_format p) (p_cur_frame p) (p_number p) (p_frame_cnt p) (p_virt p)
    (p_size p) (p_width p) (p_height p) (p_nalloc p).
Definition set_cur_frame c p :=
  Parser (p_queue p) (p_format p) c (p_number p) (p_frame_cnt p) (p_virt p)
    (p_size p) (p_width p) (p_height p) (p_nalloc p).
Definition set_frame_cnt n p :=
  Parser (p_queue p) (p_format p) (p_cur_frame p) (p_number p) n (p_virt p)
    (p_size p) (p_width p) (p_height p) (p_nalloc p).
Definition set_resolution w h p :=
  Parser (p_queue p) (p_format p) (p_cur_frame p) (p_number p) (p_frame_cnt p) (p_virt p)
    (p_size p) w h (p_nalloc p).
Definition set_nalloc n p :=
  Parser (p_queue p) (p_format p) (p_cur_frame p) (p_number p) (p_frame_cnt p) (p_virt p)
    (p_size p) (p_width p) (p_height p) n.

(** ** The frame list and its cursor *)

(* C: pitcher/parse.c pitcher_parser_push *)
Definition pitcher_parser_push (p : pitcher_parser) (frame : pitcher_frame) : pitcher_parser :=
  set_frame_cnt (u64 (p_frame_cnt p + 1)) (set_queue (p_queue p ++ [frame]) p).

(* C: pitcher/parse.c pitcher_parser_first_frame *)
Definition pitcher_parser_first_frame (p : pitcher_parser) : frame_ptr :=
  match p_queue p with [] => FNull | _ => FAt 0 end.

(** On an empty queue [list_last_entry] yields the list head itself. *)
(* C: pitcher/parse.c pitcher_parser_last_frame *)
Definition pitcher_parser_last_frame (p : pitcher_parser) : frame_ptr :=
  match p_queue p with [] => FHead | q => FAt (length q - 1) end.

(* C: pitcher/parse.c pitcher_parser_cur_frame *)
Definition pitcher_parser_cur_frame (p : pitcher_parser) : outcome (frame_ptr * pitcher_parser) :=
  if bool_decide (p_cur_frame p ≠ FNull ∧ p_cur_frame p = pitcher_parser_last_frame p) then
    match p_cur_frame p with
    | FAt i =>
        f ← of_option (p_queue p !! i);
        Done (p_cur_frame p,
          set_queue (<[i := Frame (f_idx f) (f_size f) (f_offset f) PITCHER_BUFFER_FLAG_LAST]>
            (p_queue p)) p)
    | _ => UB
    end
  else Done (p_cur_frame p, p).

(* C: pitcher/parse.c pitcher_parser_seek_to_begin *)
Definition pitcher_parser_seek_to_begin (p : pitcher_parser) : pitcher_parser :=
  set_cur_frame (pitcher_parser_first_frame p) p.

(** [list_next_entry] and [list_prev_entry] on the circular list. *)
Definition list_next_entry (n : nat) (c : frame_ptr) : outcome frame_ptr :=
  match c with
  | FNull => UB
  | FHead => Done (if (0 <? n)%nat then FAt 0 else FHead)
  | FAt i => Done (if (S i <? n)%nat then FAt (S i) else FHead)
  end.
Definition list_prev_entry (n : nat) (c : frame_ptr) : outcome frame_ptr :=
  match c with
  | FNull => UB
  | FHead => Done (if (0 <? n)%nat then FAt (n - 1) else FHead)
  | FAt O => Done FHead
  | FAt (S i) => Done (FAt i)
  end.

(* C: pitcher/parse.c pitcher_parser_to_next_frame *)
Definition pitcher_parser_to_next_frame (p : pitcher_parser) : outcome pitcher_parser :=
  if bool_decide (p_cur_frame p = FNull) then Done p
  else if bool_decide (p_cur_frame p = pitcher_parser_last_frame p) then
    Done (set_cur_frame FNull p)
  else
    c ← list_next_entry (length (p_queue p)) (p_cur_frame p);
    Done (set_cur_frame c p).

(* C: pitcher/parse.c pitcher_parser_to_prev_frame *)
Definition pitcher_parser_to_prev_frame (p : pitcher_parser) : outcome pitcher_parser :=
  c ← list_prev_entry (length (p_queue p)) (p_cur_frame p);
  Done (set_cur_frame c p).

(** A parser as [pitcher_calloc] and [INIT_LIST_HEAD] leave it. *)
(* C: pitcher/parse.c pitcher_new_parser *)
Definition pitcher_new_parser (calloc_ok : bool) : option pitcher_parser :=
  if calloc_ok then Some (Parser [] 0 FNull 0 0 [] 0 0 0 0) else None.

(* C: pitcher/parse.c pitcher_init_parser *)
Definition pitcher_init_parser (p : option pitcher_parser) : option pitcher_parser :=
  set_queue [] <$> p.

Section parser.
(** Which allocations of a frame succeed: [calloc_ok n] is the answer to the
    [n]-th request. *)
Context (calloc_ok : nat → bool).

(* C: pitcher/parse.c pitcher_parser_push_new_frame *)
Definition pitcher_parser_push_new_frame (p : pitcher_parser) (offset size idx : Z)
    : Z * pitcher_parser :=
  let ok := calloc_ok (p_nalloc p) in
  let p := set_nalloc (S (p_nalloc p)) p in
  if negb ok then (- RET_E_INVAL, p)
  else (RET_OK, pitcher_parser_push p (Frame (u32 idx) (u64 size) (u32 offset) 0)).

(** ** The start-code scanner *)

(** A call-back gets the file, the offset of [current] in it, the number of
    bytes left and the private data. *)
Definition check_frame_t (P : Type) : Type := list Z → Z → Z → P → outcome (Z * P).

(* C: pitcher/parse.h pitcher_parser_scode 95-107 *)
Record pitcher_parser_scode (P : Type) := Scode {
  scode : Z;
  mask : Z;
  num : Z;
  extra_num : Z;
  extra_code : Z;
  extra_mask : Z;
  force_extra_on_first : Z;
  check_frame : option (check_frame_t P);
  priv_data_size : Z
}.
Arguments Scode {P}.
Arguments scode {P}. Arguments mask {P}. Arguments num {P}. Arguments extra_num {P}.
Arguments extra_code {P}. Arguments extra_mask {P}. Arguments force_extra_on_first {P}.
Arguments check_frame {P}. Arguments priv_data_size {P}.

Section scan.
Context {P : Type}.

(** The local variables of the matching half of the loop. *)
Record match_st := MatchSt { m_state : Z; m_force : Z; m_priv : P }.

(** The local variables of the framing half, with the parser they fill. *)
Record frame_st := FrameSt {
  g_start : Z;
  g_end : Z;
  g_index : Z;
  g_frame_count : Z;
  g_parser : pitcher_parser
}.

(** One byte: [Some (offset, type)] when a start code ends at [i]. *)
(* C: pitcher/parse.c pitcher_parse_startcode 354-379 *)
Definition scan_match (sc : pitcher_parser_scode P) (virt : list Z) (size i : Z) (m : match_st)
    : outcome (option (Z * Z) * match_st) :=
  b ← loadz virt i;
  let state := Z.lor (u32 (Z.shiftl (m_state m) 8)) b in
  let m := MatchSt state (m_force m) (m_priv m) in
  if negb (m_force m =? 0) && (i <? u32 (extra_num sc - 1)) then Done (None, m)
  else if i <? u32 (num sc - 1) then Done (None, m)
  else if (if negb (m_force m =? 0)
           then negb (Z.land state (extra_mask sc) =? extra_code sc)
           else negb (Z.land state (mask sc) =? scode sc)) then Done (None, m)
  else
    '(type, priv) ←
      (match check_frame sc with
       | Some check => check virt (i + 1) (u32 (size - i - 1)) (m_priv m)
       | None => Done (PARSER_TYPE_FRAME, m_priv m)
       end);
    if type =? PARSER_TYPE_UNKNOWN then Done (None, MatchSt state (m_force m) priv)
    else
      let offset :=
        if (extra_num sc <=? i + 1) && (Z.land state (extra_mask sc) =? extra_code sc)
        then i + 1 - extra_num sc else i + 1 - num sc in
      Done (Some (offset, type), MatchSt state 0 priv).

(** The bookkeeping for a start code; [true] is the [goto end]. *)
(* C: pitcher/parse.c pitcher_parse_startcode 380-399 *)
Definition scan_frame (offset type : Z) (g : frame_st) : bool * frame_st :=
  let '(FrameSt start end_ index frame_count parser) := g in
  let start := if start <? 0 then offset else start in
  let end_ := if (0 <? frame_count) && (end_ <? 0) then offset else end_ in
  let frame_count := if type =? PARSER_TYPE_FRAME then frame_count + 1 else frame_count in
  let g :=
    if 1 <? frame_count then
      FrameSt end_ (-1) (index + 1) (frame_count - 1)
        (snd (pitcher_parser_push_new_frame parser start (end_ - start) index))
    else FrameSt start end_ index frame_count parser in
  ((0 <? p_number (g_parser g)) && (p_number (g_parser g) <=? p_frame_cnt (g_parser g)), g).

(** The loop over the bytes of the file. *)
(* C: pitcher/parse.c pitcher_parse_startcode 353-400 *)
Fixpoint scan_loop (fuel : nat) (sc : pitcher_parser_scode P) (virt : list Z) (size i : Z)
    (m : match_st) (g : frame_st) : outcome (bool * match_st * frame_st) :=
  if i <? size then
    match fuel with
    | O => NoFuel
    | S fuel' =>
        '(ev, m) ← scan_match sc virt size i m;
        match ev with
        | None => scan_loop fuel' sc virt size (i + 1) m g
        | Some (offset, type) =>
            let '(stop, g) := scan_frame offset type g in
            if (stop : bool) then Done (true, m, g)
            else scan_loop fuel' sc virt size (i + 1) m g
        end
    end
  else Done (false, m, g).

(** The code behind the loop, skipped by [goto end]. *)
(* C: pitcher/parse.c pitcher_parse_startcode 402-411 *)
Definition scan_finish (size : Z) (g : frame_st) : frame_st :=
  let '(FrameSt start _ index frame_count parser) := g in
  let end_ := size in
  if (0 <=? start) && (start <? end_) then
    FrameSt end_ end_ (index + 1) (frame_count - 1)
      (snd (pitcher_parser_push_new_frame parser start (end_ - start) index))
  else FrameSt start end_ index frame_count parser.

(** The checks and defaults of the descriptor. *)
(* C: pitcher/parse.c pitcher_parse_startcode 327-339 *)
Definition scode_prepare (psc : pitcher_parser_scode P) : option (pitcher_parser_scode P) :=
  if num psc <? extra_num psc then
    if negb (Z.land (extra_code psc) (mask psc) =? scode psc) then None else Some psc
  else
    Some (Scode (scode psc) (mask psc) (num psc) (num psc) (scode psc) (mask psc) 0
      (check_frame psc) (priv_data_size psc)).

(** [priv_ok]: the allocation of the private data succeeds; [priv0]: its
    contents at the start (zeroes, and the statics of the call-back). *)
(* C: pitcher/parse.c pitcher_parse_startcode *)
Definition pitcher_parse_startcode (priv_ok : bool) (priv0 : P)
    (p : option pitcher_parser) (psc : pitcher_parser_scode P)
    : outcome (Z * option pitcher_parser * P) :=
  match p with
  | None => Done (- RET_E_INVAL, None, priv0)
  | Some parser =>
    if num psc =? 0 then Done (- RET_E_INVAL, p, priv0)
    else
      match scode_prepare psc with
      | None => Done (- RET_E_INVAL, p, priv0)
      | Some sc =>
        if (if check_frame sc then true else false) && negb (priv_data_size sc =? 0) && negb priv_ok
        then Done (- RET_E_NO_MEMORY, p, priv0)
        else
          '(stop, m, g) ← scan_loop (Z.to_nat (p_size parser)) sc (p_virt parser) (p_size parser) 0
            (MatchSt 0 (force_extra_on_first sc) priv0) (FrameSt (-1) (-1) 0 0 parser);
          let g := if (stop : bool) then g else scan_finish (p_size parser) g in
          Done (0, Some (g_parser g), m_priv m)
      end
  end.

(** ** Reference definition: cutting a list of start codes into frames

    A frame starts at the first start code, and at the start code that follows
    a picture start code provided another picture follows. *)
Definition has_frame (evs : list (Z * Z)) : bool :=
  existsb (λ e, snd e =? PARSER_TYPE_FRAME) evs.

Definition next_cut (evs : list (Z * Z)) : list Z :=
  match evs with
  | (o, _) :: _ => if has_frame evs then [o] else []
  | [] => []
  end.

Fixpoint cuts (evs : list (Z * Z)) : list Z :=
  match evs with
  | [] => []
  | (_, t) :: rest => (if t =? PARSER_TYPE_FRAME then next_cut rest else []) ++ cuts rest
  end.

Fixpoint spans (starts : list Z) (size : Z) : list (Z * Z) :=
  match starts with
  | [] => []
  | s :: rest => (s, match rest with [] => size | s' :: _ => s' end - s) :: spans rest size
  end.

Definition frames_of (evs : list (Z * Z)) (size : Z) : list (Z * Z) :=
  match evs with
  | [] => []
  | (o, _) :: _ => spans (o :: cuts evs) size
  end.

(** The frame records for a list of spans, numbered from [i]. *)
Fixpoint frame_records (i : Z) (sp : list (Z * Z)) : list pitcher_frame :=
  match sp with
  | [] => []
  | (o, n) :: rest => Frame (u32 i) (u64 n) (u32 o) 0 :: frame_records (i + 1) rest
  end.

(** ** Reference definition: the start codes of a file

    From the bytes of the file: a pattern is looked for byte by byte at the end
    of what has been read, where nothing counts as zeros.  The main pattern has
    [num] bytes.  A descriptor whose extra pattern is longer has both: with
    [force_extra_on_first] only the extra one counts until the first start code
    is found, and where the extra pattern ends the start code is the longer
    one.  The call-back gives the type of each, from the bytes behind it, and
    may say that it is none. *)
Definition octet (v j : Z) : Z := Z.land (Z.shiftr v (8 * j)) 255.

Definition ends_with (virt : list Z) (e code m : Z) : bool :=
  forallb (λ j, Z.land (byte_at virt (e - 1 - j)) (octet m j) =? octet code j) [0; 1; 2; 3].

Definition has_extra (psc : pitcher_parser_scode P) : bool := num psc <? extra_num psc.
Definition main_at (psc : pitcher_parser_scode P) (virt : list Z) (e : Z) : bool :=
  (num psc <=? e) && ends_with virt e (scode psc) (mask psc).
Definition extra_at (psc : pitcher_parser_scode P) (virt : list Z) (e : Z) : bool :=
  has_extra psc && (extra_num psc <=? e) && ends_with virt e (extra_code psc) (extra_mask psc).

Definition type_at (psc : pitcher_parser_scode P) (virt : list Z) (size e : Z) (priv : P) : outcome (Z * P) :=
  match check_frame psc with
  | Some check => check virt e (size - e) priv
  | None => Done (PARSER_TYPE_FRAME, priv)
  end.

(** The start codes that end at one of the [n] positions from [e] on, with the
    position they begin at and their type; [forced] while only the extra
    pattern counts. *)
Fixpoint start_codes (n : nat) (psc : pitcher_parser_scode P) (virt : list Z) (size e : Z) (forced : bool) (priv : P)
    : outcome (list (Z * Z) * P) :=
  match n with
  | O => Done ([], priv)
  | S n =>
      if (if forced then extra_at psc virt e else main_at psc virt e) then
        '(type, priv) ← type_at psc virt size e priv;
        if type =? PARSER_TYPE_UNKNOWN then start_codes n psc virt size (e + 1) forced priv
        else
          '(codes, priv) ← start_codes n psc virt size (e + 1) false priv;
          Done ((e - (if extra_at psc virt e then extra_num psc else num psc), type) :: codes, priv)
      else start_codes n psc virt size (e + 1) forced priv
  end.

(** All start codes of a file. *)
Definition file_codes (psc : pitcher_parser_scode P) (virt : list Z) (size : Z) (priv : P) : outcome (list (Z * Z) * P) :=
  start_codes (Z.to_nat size) psc virt size 1 (has_extra psc && negb (force_extra_on_first psc =? 0)) priv.

(** The trace of [scan_match], which the proofs go through. *)
Fixpoint scan_events (fuel : nat) (sc : pitcher_parser_scode P) (virt : list Z) (size i : Z)
    (m : match_st) : outcome (list (Z * Z) * match_st) :=
  if i <? size then
    match fuel with
    | O => NoFuel
    | S fuel' =>
        '(ev, m) ← scan_match sc virt size i m;
        '(evs, m) ← scan_events fuel' sc virt size (i + 1) m;
        Done (match ev with Some e => e :: evs | None => evs end, m)
    end
  else Done ([], m).
End scan.
End parser.

Arguments Scode {P}.
Arguments scode {P}. Arguments mask {P}. Arguments num {P}. Arguments extra_num {P}.
Arguments extra_code {P}. Arguments extra_mask {P}. Arguments force_extra_on_first {P}.
Arguments check_frame {P}. Arguments priv_data_size {P}.

(** ** The loop runs [scan_frame] over the start codes *)

Section framing.
Context (calloc_ok : nat → bool) (Hok : ∀ n, calloc_ok n = true).

Fixpoint run_events (evs : list (Z * Z)) (g : frame_st) : bool * frame_st :=
  match evs with
  | [] => (false, g)
  | (o, t) :: rest =>
      let '(stop, g) := scan_frame calloc_ok o t g in
      if (stop : bool) then (true, g) else run_events rest g
  end.

Definition finish_events (size : Z) (r : bool * frame_st) : pitcher_parser :=
  g_parser (if fst r then snd r else scan_finish calloc_ok size (snd r)).

Lemma scan_loop_events {P} (sc : pitcher_parser_scode P) virt size fuel : ∀ i m g evs m',
  scan_events fuel sc virt size i m = Done (evs, m') →
  ∃ m'', scan_loop calloc_ok fuel sc virt size i m g =
    Done (fst (run_events evs g), m'', snd (run_events evs g)) ∧
    (fst (run_events evs g) = false → m'' = m').
Proof.
  induction fuel as [|fuel IH]; intros i m g evs m' H; cbn [scan_events scan_loop] in *.
  { destruct (i <? size); [discriminate|]. injection H as <- <-. by exists m. }
  destruct (i <? size).
  2:{ injection H as <- <-. by exists m. }
  destruct (scan_match sc virt size i m) as [[ev m1]| | |]; cbn in H; try discriminate.
  destruct (scan_events fuel sc virt size (i + 1) m1) as [[evs1 m2]| | |] eqn:E;
    cbn in H; try discriminate.
  injection H as <- <-. rewrite bind_done. cbn beta iota.
  destruct ev as [[o t]|]; cbn [run_events].
  - destruct (scan_frame calloc_ok o t g) as [[] g1] eqn:Eg.
    + exists m1. by split.
    + by apply IH.
  - by apply IH.
Qed.

(** What the limit on the number of frames lets through. *)
Definition limited (p : pitcher_parser) (l : list (Z * Z)) : list (Z * Z) :=
  if p_number p =? 0 then l else take (Z.to_nat (p_number p - p_frame_cnt p)) l.

Definition below_limit (p : pitcher_parser) (n : Z) : Prop :=
  0 ≤ p_frame_cnt p ∧ p_frame_cnt p + n < 2 ^ 64 ∧
  (p_number p = 0 ∨ p_frame_cnt p < p_number p).

Lemma push_ok p o n i :
  snd (pitcher_parser_push_new_frame calloc_ok p o n i) =
  pitcher_parser_push (set_nalloc (S (p_nalloc p)) p) (Frame (u32 i) (u64 n) (u32 o) 0).
Proof. unfold pitcher_parser_push_new_frame. by rewrite Hok. Qed.

Definition pushed p o n i := snd (pitcher_parser_push_new_frame calloc_ok p o n i).

Lemma pushed_fields p o n i :
  0 ≤ p_frame_cnt p < 2 ^ 64 - 1 →
  p_queue (pushed p o n i) = p_queue p ++ [Frame (u32 i) (u64 n) (u32 o) 0] ∧
  p_frame_cnt (pushed p o n i) = p_frame_cnt p + 1 ∧
  p_number (pushed p o n i) = p_number p.
Proof.
  intros. unfold pushed. rewrite push_ok. split_and!; [done| |done].
  cbn [pitcher_parser_push set_frame_cnt set_queue set_nalloc p_frame_cnt].
  by rewrite u64_small by lia.
Qed.

Lemma limited_cons p n x l : below_limit p n → 0 < n →
  limited p (x :: l) = x :: (if p_number p =? 0 then l
    else take (Z.to_nat (p_number p - (p_frame_cnt p + 1))) l).
Proof.
  intros (? & ? & [E|E]) Hn; unfold limited; zcase; try lia; [done|].
  replace (Z.to_nat (p_number p - p_frame_cnt p))
    with (S (Z.to_nat (p_number p - (p_frame_cnt p + 1)))) by lia. done.
Qed.

(** The frame starts still to come, for the three states of the bookkeeping:
    no picture yet, a picture with nothing behind it yet, and a picture with a
    later start code at [end_]. *)
Definition to_come (frame_count end_ : Z) (evs : list (Z * Z)) : list Z :=
  (if frame_count =? 0 then []
   else if end_ <? 0 then next_cut evs
   else if has_frame evs then [end_] else []) ++ cuts evs.

Definition stage (frame_count end_ size : Z) : Prop :=
  (frame_count = 0 ∧ end_ = -1) ∨ (frame_count = 1 ∧ (end_ = -1 ∨ 0 ≤ end_ < size)).

Definition at_limit (p : pitcher_parser) : bool :=
  (0 <? p_number p) && (p_number p <=? p_frame_cnt p).

(** One start code, in each state. *)
Lemma scan_frame_first o t start idx p :
  0 ≤ start →
  scan_frame calloc_ok o t (FrameSt start (-1) idx 0 p) =
  (at_limit p, FrameSt start (-1) idx (if t =? PARSER_TYPE_FRAME then 1 else 0) p).
Proof.
  intros. unfold scan_frame, at_limit. rewrite (proj2 (Z.ltb_ge start 0)) by lia.
  by destruct (t =? PARSER_TYPE_FRAME).
Qed.

Lemma scan_frame_next o t start end_ idx p :
  0 ≤ start →
  scan_frame calloc_ok o t (FrameSt start end_ idx 1 p) =
  let end1 := if end_ <? 0 then o else end_ in
  if t =? PARSER_TYPE_FRAME
  then let p' := pushed p start (end1 - start) idx in
       (at_limit p', FrameSt end1 (-1) (idx + 1) 1 p')
  else (at_limit p, FrameSt start end1 idx 1 p).
Proof.
  intros. unfold scan_frame, at_limit. rewrite (proj2 (Z.ltb_ge start 0)) by lia.
  by destruct (t =? PARSER_TYPE_FRAME).
Qed.

Lemma not_at_limit p n : below_limit p n → at_limit p = false.
Proof.
  intros (H0 & _ & [E|E]); unfold at_limit; apply andb_false_iff; [left|right]; lia.
Qed.

Lemma run_events_spec size evs : ∀ start fc end_ idx p,
  0 ≤ start < size → stage fc end_ size →
  Forall (λ e, 0 ≤ fst e < size) evs → below_limit p (Z.of_nat (length evs) + 1) →
  p_queue (finish_events size (run_events evs (FrameSt start end_ idx fc p))) =
  p_queue p ++ frame_records idx (limited p (spans (start :: to_come fc end_ evs) size)).
Proof.
  induction evs as [|[o t] evs IH]; intros start fc end_ idx p Hs Hst Hev Hp.
  - assert (E : to_come fc end_ [] = []).
    { unfold to_come. cbn. by repeat case_match. }
    rewrite E. cbn [run_events]. unfold finish_events. cbn [fst snd scan_finish spans].
    rewrite (proj2 (Z.leb_le 0 start)), (proj2 (Z.ltb_lt start size)) by lia. cbn [andb g_parser].
    destruct (pushed_fields p start (size - start) idx) as (Hq & _ & _).
    { destruct Hp as (? & ? & _). cbn in *. lia. }
    unfold pushed in Hq. rewrite Hq, (limited_cons p _ _ _ Hp) by (cbn; lia).
    case_match; [done|]. by rewrite take_nil.
  - apply Forall_cons in Hev as [Ho Hev]. cbn [fst length] in Ho, Hp.
    pose proof (not_at_limit _ _ Hp) as Hnl.
    assert (Hp' : below_limit p (Z.of_nat (length evs) + 1)) by (destruct Hp as (?&?&?); split_and!; lia).
    cbn [run_events]. destruct Hst as [[-> ->]|[-> Hend]].
    + rewrite scan_frame_first, Hnl by lia. rewrite IH; [|done| |done|done].
      * unfold to_come. cbn [cuts]. by destruct (t =? PARSER_TYPE_FRAME).
      * destruct (t =? PARSER_TYPE_FRAME); [right|left]; auto.
    + rewrite scan_frame_next by lia. cbn zeta. set (end1 := if end_ <? 0 then o else end_).
      assert (He : 0 ≤ end1 < size) by (unfold end1; zcase; lia).
      assert (Hneg : (end1 <? 0) = false) by lia.
      assert (Hcome : to_come 1 end_ ((o, t) :: evs) =
        (if has_frame ((o, t) :: evs) then [end1] else []) ++ cuts ((o, t) :: evs)).
      { unfold to_come. cbn [Z.eqb next_cut]. unfold end1. by destruct (end_ <? 0). }
      rewrite Hcome. cbn [has_frame existsb snd cuts].
      destruct (t =? PARSER_TYPE_FRAME) eqn:Et; cbn [orb].
      * destruct (pushed_fields p start (end1 - start) idx) as (Hq & Hc & Hn);
          [destruct Hp as (?&?&?); lia|].
        set (p1 := pushed p start (end1 - start) idx) in *.
        cbn [app spans]. rewrite (limited_cons p _ _ _ Hp) by lia.
        destruct (at_limit p1) eqn:El.
        -- unfold finish_events. cbn [fst snd g_parser]. rewrite Hq. f_equal.
           unfold at_limit in El. rewrite Hc, Hn in El. zbool.
           rewrite (proj2 (Z.eqb_neq (p_number p) 0)) by lia.
           replace (Z.to_nat _) with 0%nat by lia. done.
        -- rewrite IH; [|done|right; auto|done|].
           2:{ destruct Hp as (?&?&?). split_and!; [lia|lia|]. rewrite Hn, Hc.
               unfold at_limit in El. rewrite Hn, Hc in El.
               apply andb_false_iff in El as [El|El]; zbool; lia. }
           rewrite Hq, <- app_assoc. unfold to_come. cbn [Z.eqb Z.ltb Z.compare].
           unfold limited. rewrite Hn, Hc. by destruct (p_number p =? 0).
      * rewrite Hnl. rewrite IH; [|done|right; auto|done|done].
        unfold to_come. cbn [Z.eqb]. by rewrite Hneg.
Qed.

(** The start codes of a file, put in frames. *)
Lemma run_events_frames size evs p :
  Forall (λ e, 0 ≤ fst e < size) evs → below_limit p (Z.of_nat (length evs) + 1) →
  p_queue (finish_events size (run_events evs (FrameSt (-1) (-1) 0 0 p))) =
  p_queue p ++ frame_records 0 (limited p (frames_of evs size)).
Proof.
  intros Hev Hp. destruct evs as [|[o t] evs].
  - cbn. unfold limited. case_match; [by rewrite app_nil_r|]. by rewrite take_nil, app_nil_r.
  - assert (E : run_events ((o, t) :: evs) (FrameSt (-1) (-1) 0 0 p) =
      run_events ((o, t) :: evs) (FrameSt o (-1) 0 0 p)).
    { apply Forall_cons in Hev as [Ho _]. cbn in Ho.
      cbn [run_events]. rewrite (scan_frame_first o t o) by lia. unfold scan_frame, at_limit.
      cbn. by destruct (t =? PARSER_TYPE_FRAME). }
    rewrite E, run_events_spec; [done| |left; auto|done|done].
    by apply Forall_cons in Hev as [Ho _].
Qed.
End framing.

(** ** Facts on the start codes found *)

Section events.
Context {P : Type}.
Implicit Types (sc : pitcher_parser_scode P).

Definition scode_wf sc : Prop :=
  0 < num sc < 2 ^ 32 ∧ num sc ≤ extra_num sc < 2 ^ 32.

(** Two start codes ending at consecutive bytes cannot be reported in reverse
    order when the long form is at most one byte longer than the short one. *)
Definition scode_ordered sc : Prop := extra_num sc ≤ num sc + 1.

Lemma scode_prepare_wf psc sc :
  0 < num psc < 2 ^ 32 → extra_num psc < 2 ^ 32 → scode_prepare psc = Some sc → scode_wf sc.
Proof.
  unfold scode_prepare, scode_wf. intros Hn He. repeat case_match; intros [= <-]; cbn; zbool; lia.
Qed.

Lemma scan_match_offset sc virt size i m o t m' :
  scode_wf sc → 0 ≤ i → scan_match sc virt size i m = Done (Some (o, t), m') →
  0 ≤ o ∧ i + 1 - extra_num sc ≤ o ≤ i + 1 - num sc.
Proof.
  intros [Hn He] Hi H. unfold scan_match in H.
  apply bind_done_inv in H as (b & _ & H).
  destruct (negb _ && _); [discriminate|].
  destruct (Z.ltb_spec i (u32 (num sc - 1))) as [|Hi2]; [discriminate|].
  rewrite u32_small in Hi2 by lia.
  destruct (if negb (m_force _ =? 0) then _ else _); [discriminate|].
  apply bind_done_inv in H as ([t' m1] & _ & H).
  destruct (t' =? _); [discriminate|]. injection H as Ho _ _. subst o.
  destruct (Z.leb_spec (extra_num sc) (i + 1)); [|cbn [andb]; lia].
  cbn [andb]. case_match; lia.
Qed.

(** A list of start codes in stream order, from [lo] on. *)
Fixpoint ordered (lo : Z) (l : list Z) : Prop :=
  match l with [] => True | x :: l' => lo ≤ x ∧ ordered x l' end.

Lemma ordered_weaken lo lo' l : lo' ≤ lo → ordered lo l → ordered lo' l.
Proof. destruct l; cbn; [done|]. intros ? []. split; [lia|done]. Qed.

Lemma scan_events_offsets sc virt size fuel : ∀ i m evs m',
  scode_wf sc → 0 ≤ i → scan_events fuel sc virt size i m = Done (evs, m') →
  Forall (λ e, 0 ≤ fst e < size) evs ∧ Z.of_nat (length evs) ≤ Z.max 0 (size - i) ∧
  (scode_ordered sc → ordered (i + 1 - extra_num sc) (fst <$> evs)).
Proof.
  induction fuel as [|fuel IH]; intros i m evs m' Hwf Hi H; cbn [scan_events] in H.
  { destruct (i <? size); [discriminate|]. injection H as <- <-. cbn. split_and!; [done|lia|done]. }
  destruct (Z.ltb_spec i size).
  2:{ injection H as <- <-. cbn. split_and!; [done|lia|done]. }
  apply bind_done_inv in H as ([ev m1] & Hm & H).
  apply bind_done_inv in H as ([evs1 m2] & He & H). injection H as <- <-.
  destruct (IH (i + 1) m1 evs1 m2 Hwf ltac:(lia) He) as (Hf & Hl & Ho).
  destruct ev as [[o t]|].
  - destruct (scan_match_offset _ _ _ _ _ _ _ _ Hwf Hi Hm) as [Ho0 Ho1].
    destruct Hwf as [Hn Hx]. cbn [length fmap list_fmap fst]. split_and!.
    + constructor; [cbn; lia|done].
    + lia.
    + intros Hord. cbn. split; [lia|].
      apply ordered_weaken with (i + 1 + 1 - extra_num sc); [|by apply Ho].
      unfold scode_ordered in Hord. lia.
  - split_and!; [done|lia|]. intros Hord.
    apply ordered_weaken with (i + 1 + 1 - extra_num sc); [lia|by apply Ho].
Qed.

(** A call-back that answers on every position of the file. *)
Definition check_total (check : option (check_frame_t P)) (virt : list Z) : Prop :=
  match check with
  | None => True
  | Some c => ∀ off n priv, 0 ≤ off → 0 ≤ n → off + n ≤ zlen virt →
      ∃ t priv', c virt off n priv = Done (t, priv')
  end.

Lemma scan_events_total sc virt size fuel : ∀ i m,
  check_total (check_frame sc) virt → size ≤ zlen virt → size < 2 ^ 32 → 0 ≤ i →
  size - i ≤ Z.of_nat fuel →
  ∃ evs m', scan_events fuel sc virt size i m = Done (evs, m').
Proof.
  induction fuel as [|fuel IH]; intros i m Hc Hlen H32 Hi Hf; cbn [scan_events].
  { rewrite (proj2 (Z.ltb_ge i size)) by lia. eauto. }
  destruct (Z.ltb_spec i size); [|eauto].
  assert (Hm : ∃ ev m1, scan_match sc virt size i m = Done (ev, m1)).
  { unfold scan_match. rewrite loadz_Done, bind_done by lia.
    repeat (match goal with |- context [if ?b then Done (None, _) else _] => destruct b end;
      [by eauto|]).
    unfold check_total in Hc. destruct (check_frame sc) as [c|].
    - destruct (Hc (i + 1) (u32 (size - i - 1)) (m_priv m)) as (t & priv' & E);
        [lia|auto with cint; apply u32_range|rewrite u32_small by lia; lia|].
      cbn [m_priv]. rewrite E, bind_done. cbn beta iota. case_match; eauto.
    - rewrite bind_done. cbn beta iota. case_match; eauto. }
  destruct Hm as (ev & m1 & ->). rewrite bind_done. cbn beta iota.
  destruct (IH (i + 1) m1) as (evs & m' & ->); [done..|lia|lia|].
  rewrite bind_done. cbn beta iota. eauto.
Qed.
End events.

(** ** The scanner finds the start codes *)

Section codes.
Context {P : Type}.

(** The four bytes before [e], the last one in the low bits. *)
Definition window (virt : list Z) (e : Z) : Z :=
  byte_at virt (e - 1) + 256 * byte_at virt (e - 2) + 65536 * byte_at virt (e - 3) + 16777216 * byte_at virt (e - 4).

Lemma octet_div v j : 0 ≤ j → octet v j = v / 2 ^ (8 * j) mod 256.
Proof. intros Hj. unfold octet. rewrite Z.shiftr_div_pow2 by lia. change 255 with (Z.ones 8). by rewrite Z.land_ones by lia. Qed.

Lemma octet_land a b j : octet (Z.land a b) j = Z.land (octet a j) (octet b j).
Proof.
  unfold octet. apply Z.bits_inj'. intros n _. rewrite Z.shiftr_land, !Z.land_spec.
  by destruct (Z.testbit 255 n); rewrite ?andb_true_r, ?andb_false_r.
Qed.

Lemma octet_byte b : 0 ≤ b < 256 → octet b 0 = b.
Proof. intros Hb. rewrite octet_div by lia. change (2 ^ (8 * 0)) with 1. rewrite Z.div_1_r. by apply Z.mod_small. Qed.

(** A number of 32 bits is its four octets. *)
Lemma octets v : 0 ≤ v < 2 ^ 32 → v = octet v 0 + 256 * octet v 1 + 65536 * octet v 2 + 16777216 * octet v 3.
Proof.
  change (2 ^ 32) with 4294967296. intros Hv. rewrite !octet_div by lia.
  change (2 ^ (8 * 0)) with 1. change (2 ^ (8 * 1)) with 256. change (2 ^ (8 * 2)) with 65536. change (2 ^ (8 * 3)) with 16777216. dlia.
Qed.

Lemma octet_window virt e j : bytes virt → j ∈ [0; 1; 2; 3] → octet (window virt e) j = byte_at virt (e - 1 - j).
Proof.
  intros Hb Hj. pose proof (byte_at_range virt (e - 1) Hb). pose proof (byte_at_range virt (e - 2) Hb).
  pose proof (byte_at_range virt (e - 3) Hb). pose proof (byte_at_range virt (e - 4) Hb); unfold is_byte in *. unfold window.
  rewrite !elem_of_cons, elem_of_nil in Hj. destruct Hj as [-> | [-> | [-> | [-> | []]]]]; rewrite octet_div by lia.
  - change (2 ^ (8 * 0)) with 1. replace (e - 1 - 0) with (e - 1) by lia. dlia.
  - change (2 ^ (8 * 1)) with 256. replace (e - 1 - 1) with (e - 2) by lia. dlia.
  - change (2 ^ (8 * 2)) with 65536. replace (e - 1 - 2) with (e - 3) by lia. dlia.
  - change (2 ^ (8 * 3)) with 16777216. replace (e - 1 - 3) with (e - 4) by lia. dlia.
Qed.

Lemma window_range virt e : bytes virt → 0 ≤ window virt e < 2 ^ 32.
Proof.
  intros Hb. change (2 ^ 32) with 4294967296. unfold window.
  pose proof (byte_at_range virt (e - 1) Hb). pose proof (byte_at_range virt (e - 2) Hb).
  pose proof (byte_at_range virt (e - 3) Hb). pose proof (byte_at_range virt (e - 4) Hb); unfold is_byte in *. lia.
Qed.

(** Comparing the last four bytes under a mask, all at once or byte by byte. *)
Lemma window_match virt e code m : bytes virt → 0 ≤ code < 2 ^ 32 → 0 ≤ m →
  (Z.land (window virt e) m =? code) = ends_with virt e code m.
Proof.
  intros Hb Hc Hm. pose proof (window_range virt e Hb) as Hw.
  assert (Hl : 0 ≤ Z.land (window virt e) m < 2 ^ 32).
  { split; [apply Z.land_nonneg; lia|]. destruct (decide (Z.land (window virt e) m = 0)) as [->|Hne]; [lia|].
    assert (0 ≤ Z.land (window virt e) m) by (apply Z.land_nonneg; lia).
    apply Z.log2_lt_pow2; [lia|]. eapply Z.le_lt_trans; [apply Z.log2_land; lia|].
    eapply Z.le_lt_trans; [apply Z.le_min_l|].
    destruct (decide (window virt e = 0)) as [->|]; [reflexivity|]. apply Z.log2_lt_pow2; lia. }
  assert (Ho : ∀ j, j ∈ [0; 1; 2; 3] → octet (Z.land (window virt e) m) j = Z.land (byte_at virt (e - 1 - j)) (octet m j)).
  { intros j Hj. by rewrite octet_land, octet_window. }
  apply eq_true_iff_eq. rewrite Z.eqb_eq. unfold ends_with. rewrite forallb_forall. split.
  - intros E j Hj%list_elem_of_In. apply Z.eqb_eq. by rewrite <- Ho, E.
  - intros Hall. rewrite (octets _ Hl), (octets _ Hc).
    assert (Hj : ∀ j, j ∈ [0; 1; 2; 3] → octet (Z.land (window virt e) m) j = octet code j).
    { intros j Hj. rewrite Ho by done. apply Z.eqb_eq, Hall. by apply list_elem_of_In. }
    rewrite (Hj 0), (Hj 1), (Hj 2), (Hj 3) by set_solver. done.
Qed.

(** Reading one more byte. *)
Lemma window_next virt i b : bytes virt → nthz virt i = Some b →
  Z.lor (u32 (Z.shiftl (window virt i) 8)) b = window virt (i + 1).
Proof.
  intros Hb E. assert (Eb : byte_at virt i = b) by (unfold byte_at; by rewrite E).
  assert (Hr : 0 ≤ b < 256) by (rewrite <- Eb; by apply byte_at_range).
  unfold window. replace (i + 1 - 1) with i by lia. replace (i + 1 - 2) with (i - 1) by lia.
  replace (i + 1 - 3) with (i - 2) by lia. replace (i + 1 - 4) with (i - 3) by lia. rewrite Eb.
  pose proof (byte_at_range virt (i - 1) Hb). pose proof (byte_at_range virt (i - 2) Hb).
  pose proof (byte_at_range virt (i - 3) Hb). pose proof (byte_at_range virt (i - 4) Hb); unfold is_byte in *.
  set (x := byte_at virt (i - 1)) in *. set (y := byte_at virt (i - 2)) in *. set (z := byte_at virt (i - 3)) in *.
  set (t := byte_at virt (i - 4)) in *. rewrite Z.shiftl_mul_pow2 by lia. unfold u32. change (2 ^ 32) with 4294967296. change (2 ^ 8) with 256.
  replace ((x + 256 * y + 65536 * z + 16777216 * t) * 256 mod 4294967296) with ((x + 256 * y + 65536 * z) * 256) by dlia.
  enough (E0 : Z.land ((x + 256 * y + 65536 * z) * 256) b = 0)
    by (pose proof (Z.add_lor_land ((x + 256 * y + 65536 * z) * 256) b); lia).
  apply Z.bits_inj'. intros n Hn. rewrite Z.land_spec, Z.bits_0. destruct (Z.ltb_spec n 8).
  - change ((x + 256 * y + 65536 * z) * 256) with ((x + 256 * y + 65536 * z) * 2 ^ 8). by rewrite Z.mul_pow2_bits_low.
  - assert (Z.log2 b < n).
    { destruct (decide (b = 0)) as [->|]; [cbn; lia|]. apply Z.lt_le_trans with 8; [apply Z.log2_lt_pow2; lia|lia]. }
    rewrite (Z.bits_above_log2 b n) by lia. apply andb_false_r.
Qed.

(** A descriptor whose fields are those of the C types. *)
Definition scode_range (psc : pitcher_parser_scode P) : Prop :=
  0 ≤ scode psc < 2 ^ 32 ∧ 0 ≤ mask psc ∧ 0 ≤ extra_code psc < 2 ^ 32 ∧ 0 ≤ extra_mask psc ∧
  0 < num psc < 2 ^ 32 ∧ extra_num psc < 2 ^ 32.

(** The patterns of the prepared descriptor. *)
Lemma prepared psc sc virt e : bytes virt → scode_range psc → scode_prepare psc = Some sc →
  num sc = num psc ∧ check_frame sc = check_frame psc ∧
  (Z.land (window virt e) (mask sc) =? scode sc) = ends_with virt e (scode psc) (mask psc) ∧
  num sc ≤ extra_num sc < 2 ^ 32 ∧
  (has_extra psc = true → extra_num sc = extra_num psc ∧ force_extra_on_first sc = force_extra_on_first psc ∧
     (Z.land (window virt e) (extra_mask sc) =? extra_code sc) = ends_with virt e (extra_code psc) (extra_mask psc)) ∧
  (has_extra psc = false → extra_num sc = num psc ∧ force_extra_on_first sc = 0).
Proof.
  intros Hb (H1 & H2 & H3 & H4 & H5 & H6) Hp. unfold scode_prepare in Hp. unfold has_extra.
  destruct (Z.ltb_spec (num psc) (extra_num psc)).
  - destruct (negb _); [done|]. injection Hp as <-. split_and!; first [done|lia|by apply window_match|idtac].
    intros _. split_and!; [done|done|by apply window_match].
  - injection Hp as <-. cbn. split_and!; first [done|lia|by apply window_match].
Qed.

(** One position: what the scanner does is what the reference says. *)
Lemma scan_match_at psc sc virt size i m b : bytes virt → scode_range psc → scode_prepare psc = Some sc →
  0 ≤ i < size → size < 2 ^ 32 → nthz virt i = Some b → m_state m = window virt i →
  (m_force m ≠ 0 → has_extra psc = true) →
  let e := i + 1 in
  scan_match sc virt size i m =
    if (if negb (m_force m =? 0) then extra_at psc virt e else main_at psc virt e) then
      '(type, priv) ← type_at psc virt size e (m_priv m);
      if type =? PARSER_TYPE_UNKNOWN then Done (None, MatchSt (window virt e) (m_force m) priv)
      else Done (Some (e - (if extra_at psc virt e then extra_num psc else num psc), type), MatchSt (window virt e) 0 priv)
    else Done (None, MatchSt (window virt e) (m_force m) (m_priv m)).
Proof.
  intros Hb Hr Hp Hi Hsz Hn Hs Hf e.
  destruct (prepared psc sc virt e Hb Hr Hp) as (En & Ec & Em & Hx & Hex & Hno).
  destruct Hr as (_ & _ & _ & _ & Hnum & _).
  unfold scan_match, loadz. rewrite Hn. cbn [of_option]. rewrite bind_done, Hs, (window_next _ _ _ Hb Hn). fold e.
  cbn [m_force m_priv]. rewrite !u32_small by lia. unfold extra_at, main_at, type_at.
  assert (Ee : ∀ k, (i <? k - 1) = negb (k <=? e)) by (intros k; unfold e; destruct (Z.ltb_spec i (k - 1)), (Z.leb_spec k (i + 1)); cbn; lia).
  rewrite !Ee, Em, En, Ec. replace (size - i - 1) with (size - e) by (unfold e; lia).
  assert (Hoff : (if (extra_num sc <=? i + 1) && (Z.land (window virt e) (extra_mask sc) =? extra_code sc)
      then i + 1 - extra_num sc else i + 1 - num psc) =
    e - (if has_extra psc && (extra_num psc <=? e) && ends_with virt e (extra_code psc) (extra_mask psc) then extra_num psc else num psc)).
  { fold e. destruct (has_extra psc).
    - destruct (Hex eq_refl) as (-> & _ & ->). cbn [andb]. by destruct (_ && _).
    - destruct (Hno eq_refl) as (-> & _). cbn [andb]. by destruct (_ && _). }
  fold e in Hoff. destruct (Z.eqb_spec (m_force m) 0) as [E0|E0]; cbn [negb andb].
  - destruct (num psc <=? e); cbn [negb andb]; [|done]. destruct (ends_with virt e (scode psc) (mask psc)); cbn [negb]; [|done].
    destruct (check_frame psc) as [c|]; [destruct (c virt e _ _) as [[ty pr]| | |]|]; cbn [obind mbind outcome_bind]; try done;
      rewrite ?Hoff; done.
  - specialize (Hf E0). rewrite Hf in *. destruct (Hex eq_refl) as (Exn & _ & Exm). rewrite Exm, Exn in *. cbn [andb].
    destruct (Z.leb_spec (extra_num psc) e) as [Hle|]; cbn [negb andb]; [|done].
    rewrite (proj2 (Z.leb_le (num psc) e)) by lia. cbn [negb andb].
    destruct (ends_with virt e (extra_code psc) (extra_mask psc)); cbn [negb]; [|done].
    destruct (check_frame psc) as [c|]; [destruct (c virt e _ _) as [[ty pr]| | |]|]; cbn [obind mbind outcome_bind]; done.
Qed.

Lemma scan_events_codes psc sc virt size n : bytes virt → scode_range psc → scode_prepare psc = Some sc →
  size ≤ zlen virt → size < 2 ^ 32 → ∀ i m codes priv, 0 ≤ i → i + Z.of_nat n = size → m_state m = window virt i →
  (m_force m ≠ 0 → has_extra psc = true) →
  start_codes n psc virt size (i + 1) (negb (m_force m =? 0)) (m_priv m) = Done (codes, priv) →
  ∃ m', scan_events n sc virt size i m = Done (codes, m') ∧ m_priv m' = priv.
Proof.
  intros Hb Hr Hp Hlen Hsz. induction n as [|n IH]; intros i m codes priv Hi Hn Hs Hf; cbn [start_codes scan_events].
  { intros [= <- <-]. rewrite (proj2 (Z.ltb_ge i size)) by lia. by exists m. }
  rewrite (proj2 (Z.ltb_lt i size)) by lia. destruct (nthz_in_range virt i) as [b Hbi]; [lia|].
  rewrite (scan_match_at psc sc virt size i m b) by (done || lia). destruct (if negb (m_force m =? 0) then _ else _).
  - destruct (type_at psc virt size (i + 1) (m_priv m)) as [[ty pr]| | |]; try done. rewrite !bind_done. cbn beta iota.
    destruct (ty =? PARSER_TYPE_UNKNOWN); rewrite bind_done; cbn beta iota.
    + intros Hc. destruct (IH (i + 1) (MatchSt (window virt (i + 1)) (m_force m) pr) codes priv) as (m' & -> & Hm');
        [lia|lia|done|done|exact Hc|]. by exists m'.
    + destruct (start_codes n psc virt size (i + 1 + 1) false pr) as [[codes1 pr1]| | |] eqn:Ec; try done.
      rewrite bind_done. cbn beta iota. intros [= <- <-].
      destruct (IH (i + 1) (MatchSt (window virt (i + 1)) 0 pr) codes1 pr1) as (m' & -> & Hm'); [lia|lia|done|done|exact Ec|].
      by exists m'.
  - intros Hc. rewrite bind_done. cbn beta iota.
    destruct (IH (i + 1) (MatchSt (window virt (i + 1)) (m_force m) (m_priv m)) codes priv) as (m' & -> & Hm');
      [lia|lia|done|done|exact Hc|]. by exists m'.
Qed.

Lemma file_codes_events psc sc virt size priv codes priv' : bytes virt → scode_range psc → scode_prepare psc = Some sc →
  0 ≤ size ≤ zlen virt → size < 2 ^ 32 → file_codes psc virt size priv = Done (codes, priv') →
  ∃ m', scan_events (Z.to_nat size) sc virt size 0 (MatchSt 0 (force_extra_on_first sc) priv) = Done (codes, m') ∧ m_priv m' = priv'.
Proof.
  intros Hb Hr Hp Hl Hsz Hc. destruct (prepared psc sc virt 0 Hb Hr Hp) as (_ & _ & _ & _ & Hex & Hno).
  apply scan_events_codes with psc; try done; try lia.
  - cbn [m_force]. intros Hf. destruct (has_extra psc); [done|]. by destruct (Hno eq_refl) as (_ & ?).
  - cbn [m_force m_priv]. unfold file_codes in Hc. rewrite <- Hc. f_equal. destruct (has_extra psc).
    + by destruct (Hex eq_refl) as (_ & -> & _).
    + by destruct (Hno eq_refl) as (_ & ->).
Qed.
End codes.

(** ** The scanner cuts the stream at [frames_of] its start codes *)

(** C34: the frames [pitcher_parse_startcode] appends to the parser are exactly
    those of the two reference definitions, [file_codes], which finds the start
    codes of the file byte by byte, and [frames_of], which cuts at them: a frame
    begins at the first start code and after each picture that another picture
    follows, parameter sets and headers leading the picture behind them; with a
    frame limit, the first [number] of them.  The file is shorter than 4 GB, the
    descriptor's fields are in the range of their types and its extra code, if it
    has one, ends in the main one, its call-back answers wherever it is asked, and
    memory is not refused. *)
Theorem pitcher_parse_startcode_frames {P} calloc_ok (priv0 : P) p psc codes priv :
  (∀ n, calloc_ok n = true) → scode_range psc →
  (has_extra psc = true → Z.land (extra_code psc) (mask psc) = scode psc) →
  bytes (p_virt p) → 0 ≤ p_size p ≤ zlen (p_virt p) → p_size p < 2 ^ 32 → below_limit p (p_size p + 1) →
  file_codes psc (p_virt p) (p_size p) priv0 = Done (codes, priv) →
  ∃ p' priv', pitcher_parse_startcode calloc_ok true priv0 (Some p) psc = Done (0, Some p', priv') ∧
    p_queue p' = p_queue p ++ frame_records 0 (limited p (frames_of codes (p_size p))).
Proof.
  intros Hok Hr Hcons Hb Hsz H32 Hlim Hcodes. pose proof Hr as (_ & _ & _ & _ & Hn & Hx).
  assert (Hsc : ∃ sc, scode_prepare psc = Some sc).
  { unfold scode_prepare. unfold has_extra in Hcons. destruct (num psc <? extra_num psc); [|eauto].
    rewrite Hcons, Z.eqb_refl by done. eauto. }
  destruct Hsc as [sc Hsc]. destruct (file_codes_events psc sc _ _ _ _ _ Hb Hr Hsc Hsz H32 Hcodes) as (m' & Hev & _).
  pose proof (scode_prepare_wf _ _ Hn Hx Hsc) as Hwf.
  destruct (scan_events_offsets _ _ _ _ 0 _ _ _ Hwf ltac:(lia) Hev) as (Hoff & Hlen & _).
  unfold pitcher_parse_startcode. rewrite (proj2 (Z.eqb_neq (num psc) 0)), Hsc by lia.
  rewrite andb_false_r.
  destruct (scan_loop_events calloc_ok sc _ _ _ _ _ (FrameSt (-1) (-1) 0 0 p) _ _ Hev)
    as (m'' & -> & _).
  rewrite bind_done. cbn beta iota. eexists _, _. split; [reflexivity|].
  rewrite <- (run_events_frames calloc_ok Hok (p_size p) codes p); [|done|].
  - unfold finish_events. by destruct (fst _).
  - destruct Hlim as (?&?&?). split_and!; [lia|lia|done].
Qed.

(** Start codes of three bytes, the first one of four, in a file that has a short
    one before it: two pictures wanted of three. *)
Definition annexb_like : pitcher_parser_scode unit := Scode 1 16777215 3 4 1 4294967295 1 None 0.
Definition three_pictures (number : Z) : pitcher_parser :=
  Parser [] 0 FNull number 0 [0; 0; 1; 9; 0; 0; 0; 1; 5; 0; 0; 1; 6; 0; 0; 0; 1; 7] 18 0 0 0.

Lemma pitcher_parse_startcode_frames_witness :
  file_codes annexb_like (p_virt (three_pictures 2)) 18 tt =
    Done ([(4, PARSER_TYPE_FRAME); (9, PARSER_TYPE_FRAME); (13, PARSER_TYPE_FRAME)], tt) ∧
  ∃ p' priv',
    pitcher_parse_startcode (λ _, true) true tt (Some (three_pictures 2)) annexb_like = Done (0, Some p', priv') ∧
    p_queue p' = [Frame 0 5 4 0; Frame 1 4 9 0].
Proof.
  assert (Hc : file_codes annexb_like (p_virt (three_pictures 2)) 18 tt =
    Done ([(4, PARSER_TYPE_FRAME); (9, PARSER_TYPE_FRAME); (13, PARSER_TYPE_FRAME)], tt)) by (vm_compute; reflexivity).
  split; [exact Hc|].
  destruct (pitcher_parse_startcode_frames (λ _, true) tt (three_pictures 2) annexb_like _ tt (λ _, eq_refl)
    ltac:(by vm_compute) ltac:(reflexivity) ltac:(by repeat constructor) ltac:(by vm_compute) ltac:(by vm_compute)
    ltac:(unfold below_limit; cbn; lia) Hc) as (p' & priv' & E & Hq).
  exists p', priv'. split; [exact E|exact Hq].
Defined.

(** ** The frames partition the stream *)

Definition frame_bytes (virt : list Z) (f : pitcher_frame) : list Z :=
  take (Z.to_nat (f_size f)) (drop (Z.to_nat (f_offset f)) virt).

Definition segment (virt : list Z) (a b : Z) : list Z :=
  take (Z.to_nat (b - a)) (drop (Z.to_nat a) virt).

Lemma segment_app virt a b c :
  0 ≤ a ≤ b → b ≤ c → segment virt a b ++ segment virt b c = segment virt a c.
Proof.
  intros Ha Hb. unfold segment.
  replace (Z.to_nat (c - a)) with (Z.to_nat (b - a) + Z.to_nat (c - b))%nat by lia.
  rewrite <- take_take_drop, drop_drop. do 3 f_equal. lia.
Qed.

Lemma spans_partition virt size starts : ∀ s,
  0 ≤ s ≤ size → ordered s starts → Forall (λ x, 0 ≤ x ≤ size) starts →
  concat ((λ '(o, n), segment virt o (o + n)) <$> spans (s :: starts) size) =
  segment virt s size.
Proof.
  induction starts as [|s' starts IH]; intros s Hs Ho Hr.
  - cbn. rewrite app_nil_r. by replace (s + (size - s)) with size by lia.
  - destruct Ho as [Hss Ho]. apply Forall_cons in Hr as [Hr1 Hr].
    change (spans (s :: s' :: starts) size) with ((s, s' - s) :: spans (s' :: starts) size).
    rewrite fmap_cons. cbn [concat]. rewrite IH by done.
    replace (s + (s' - s)) with s' by lia. apply segment_app; lia.
Qed.

Lemma frame_records_bytes virt sp : ∀ i,
  Forall (λ '(o, n), 0 ≤ o < 2 ^ 32 ∧ 0 ≤ n < 2 ^ 64) sp →
  frame_bytes virt <$> frame_records i sp = (λ '(o, n), segment virt o (o + n)) <$> sp.
Proof.
  induction sp as [|[o n] sp IH]; intros i H; [done|].
  apply Forall_cons in H as [H1 H]. cbn [frame_records fmap list_fmap].
  f_equal; [|by apply IH]. unfold frame_bytes, segment. cbn [f_size f_offset].
  rewrite u64_small, u32_small by lia. by replace (o + n - o) with n by lia.
Qed.

Lemma frame_records_Forall (Q : pitcher_frame → Prop) sp : ∀ i,
  Forall (λ '(o, n), ∀ j, Q (Frame j (u64 n) (u32 o) 0)) sp → Forall Q (frame_records i sp).
Proof.
  induction sp as [|[o n] sp IH]; intros i H; [constructor|].
  apply Forall_cons in H as [H1 H]. constructor; [apply H1|by apply IH].
Qed.

Lemma next_cut_sub evs lo :
  ordered lo (fst <$> evs) → ordered lo (next_cut evs ++ cuts evs) ∧ ordered lo (cuts evs) ∧
  ∀ x, x ∈ next_cut evs ++ cuts evs → x ∈ fst <$> evs.
Proof.
  revert lo. induction evs as [|[o t] evs IH]; intros lo H; [done|].
  destruct H as [Hlo H]. destruct (IH _ H) as (H1 & H2 & H3).
  cbn [next_cut cuts fmap list_fmap fst].
  assert (Hc : ordered o ((if t =? PARSER_TYPE_FRAME then next_cut evs else []) ++ cuts evs))
    by (destruct (t =? _); done).
  assert (Hi : ∀ x, x ∈ (if t =? PARSER_TYPE_FRAME then next_cut evs else []) ++ cuts evs →
    x ∈ fst <$> evs).
  { intros x Hx. apply H3. destruct (t =? _); [done|]. apply elem_of_app. by right. }
  split_and!.
  - destruct (has_frame _); cbn [app]; [done|]. by apply ordered_weaken with o.
  - by apply ordered_weaken with o.
  - intros x Hx. destruct (has_frame _); cbn [app] in Hx; [|right; by apply Hi].
    apply elem_of_cons in Hx as [->|Hx]; [left|right; by apply Hi].
Qed.

Lemma spans_range size starts : ∀ s,
  0 ≤ s ≤ size → size < 2 ^ 32 → ordered s starts → Forall (λ x, 0 ≤ x ≤ size) starts →
  Forall (λ '(o, n), 0 ≤ o < 2 ^ 32 ∧ 0 ≤ n < 2 ^ 64) (spans (s :: starts) size).
Proof.
  induction starts as [|s' starts IH]; intros s Hs H32 Ho Hr.
  - cbn. constructor; [lia|done].
  - destruct Ho as [Hss Ho]. apply Forall_cons in Hr as [Hr1 Hr].
    change (spans (s :: s' :: starts) size) with ((s, s' - s) :: spans (s' :: starts) size).
    constructor; [lia|]. by apply IH.
Qed.

Lemma frames_of_partition virt evs size lo i :
  0 ≤ size < 2 ^ 32 → 
  Forall (λ e, 0 ≤ fst e < size) evs → ordered lo (fst <$> evs) →
  ∃ s, 0 ≤ s ≤ size ∧
    concat (frame_bytes virt <$> frame_records i (frames_of evs size)) = segment virt s size ∧
    match frame_records i (frames_of evs size) with
    | [] => s = size
    | f :: _ => f_offset f = s
    end.
Proof.
  intros Hsz Hf Ho. destruct evs as [|[o t] evs].
  - exists size. split_and!; [lia|lia| |done]. cbn. unfold segment.
    by replace (Z.to_nat (size - size)) with 0%nat by lia.
  - apply Forall_cons in Hf as [Hoff Hf]. cbn [fst] in Hoff. destruct Ho as [_ Ho]. cbn in Ho.
    destruct (next_cut_sub _ _ Ho) as (H1 & H2 & H3).
    assert (Hcuts : ordered o (cuts ((o, t) :: evs))) by (cbn [cuts]; by destruct (t =? _)).
    assert (Hin : Forall (λ x, 0 ≤ x ≤ size) (cuts ((o, t) :: evs))).
    { apply Forall_forall. intros x Hx.
      assert (Hx' : x ∈ fst <$> evs).
      { apply H3. cbn [cuts] in Hx. destruct (t =? _); [done|]. apply elem_of_app. by right. }
      apply list_elem_of_fmap in Hx' as (e & -> & He).
      rewrite Forall_forall in Hf. specialize (Hf e He). lia. }
    exists o. cbn [frames_of]. split_and!; [lia|lia| |].
    + rewrite frame_records_bytes by (apply spans_range; (done || lia)).
      apply spans_partition; (done || lia).
    + cbn [spans frame_records f_offset]. apply u32_small. lia.
Qed.

(** What a parse leaves: the frames appended to the parser's queue are
    consecutive pieces of the file that cover it from its first start code on. *)
Definition cut_into (p p' : pitcher_parser) : Prop :=
  ∃ new s, p_queue p' = p_queue p ++ new ∧ 0 ≤ s ≤ p_size p ∧
    concat (frame_bytes (p_virt p) <$> new) = segment (p_virt p) s (p_size p) ∧
    match new with [] => s = p_size p | f :: _ => f_offset f = s end.

(** A parser of a whole file, without a limit on the number of frames. *)
Definition parser_wf (p : pitcher_parser) : Prop :=
  0 ≤ p_size p < 2 ^ 32 ∧ p_size p ≤ zlen (p_virt p) ∧ p_number p = 0 ∧ 0 ≤ p_frame_cnt p < 2 ^ 63.

(** Whatever the codec's call-back answers, [pitcher_parse_startcode] loses no
    byte and duplicates none, and returns 0. *)
Lemma pitcher_parse_startcode_cut {P} calloc_ok (priv0 : P) p psc sc :
  (∀ n, calloc_ok n = true) → 0 < num psc < 2 ^ 32 → extra_num psc < 2 ^ 32 →
  scode_prepare psc = Some sc → scode_ordered sc → check_total (check_frame sc) (p_virt p) →
  parser_wf p →
  ∃ p' priv', pitcher_parse_startcode calloc_ok true priv0 (Some p) psc = Done (0, Some p', priv') ∧
    cut_into p p'.
Proof.
  intros Hok Hn Hx Hsc Hord Hc (Hsz & Hlen & Hnum & Hcnt).
  destruct (scan_events_total sc (p_virt p) (p_size p) (Z.to_nat (p_size p)) 0
    (MatchSt 0 (force_extra_on_first sc) priv0)) as (evs & m' & Hev); [done|lia..|].
  pose proof (scode_prepare_wf _ _ Hn Hx Hsc) as Hwf.
  destruct (scan_events_offsets _ _ _ _ 0 _ _ _ Hwf ltac:(lia) Hev) as (Hoff & Hl & Ho).
  destruct (scan_loop_events calloc_ok sc _ _ _ _ _ (FrameSt (-1) (-1) 0 0 p) _ _ Hev)
    as (m'' & Hloop & _).
  destruct (frames_of_partition (p_virt p) evs (p_size p) (0 + 1 - extra_num sc) 0)
    as (s & Hs & Hcat & Hhd); [lia|done|by apply Ho|].
  eexists _, _. split; [|eexists _, s; split_and!; [apply run_events_frames; try done|lia|lia| |]].
  - unfold pitcher_parse_startcode. rewrite (proj2 (Z.eqb_neq (num psc) 0)), Hsc by lia.
    rewrite andb_false_r, Hloop, bind_done. cbn beta iota. unfold finish_events. by destruct (fst _).
  - split_and!; lia.
  - unfold limited. by rewrite Hnum.
  - unfold limited. by rewrite Hnum.
Qed.

(** The scan terminates if the call-back does. *)
Lemma scan_loop_terminates {P} calloc_ok (sc : pitcher_parser_scode P) virt size fuel : ∀ i m g,
  (∀ check, check_frame sc = Some check → ∀ off n priv, 0 ≤ off → terminates (check virt off n priv)) →
  size - i ≤ Z.of_nat fuel → 0 ≤ i → terminates (scan_loop calloc_ok fuel sc virt size i m g).
Proof.
  induction fuel as [|fuel IH]; intros i m g Hc Hf Hi; cbn [scan_loop]; (zcase; [|done]); [lia|].
  apply terminates_bind.
  - unfold scan_match. apply terminates_bind; [auto with term|intros b _].
    repeat (match goal with |- terminates (if ?b then _ else _) => destruct b end; [done|]).
    apply terminates_bind; [destruct (check_frame sc) as [c|]; [apply Hc; [done|lia]|done]|].
    intros [t pr] _. by destruct (_ =? _).
  - intros [[[o t]|] m'] _; [|apply IH; (done || lia)].
    destruct (scan_frame calloc_ok o t g) as [[|] g']; [done|]. apply IH; (done || lia).
Qed.

Lemma pitcher_parse_startcode_terminates {P} calloc_ok priv_ok (priv0 : P) p psc :
  (∀ check, check_frame psc = Some check → ∀ off n priv, 0 ≤ off → terminates (check (p_virt p) off n priv)) →
  terminates (pitcher_parse_startcode calloc_ok priv_ok priv0 (Some p) psc).
Proof.
  intros Hc. unfold pitcher_parse_startcode. destruct (_ =? 0); [done|].
  destruct (scode_prepare psc) as [sc|] eqn:E; [|done]. destruct (_ && _); [done|].
  apply terminates_bind; [|by intros [[? ?] ?]].
  apply scan_loop_terminates; [|lia..]. intros check H. apply Hc. rewrite <- H.
  unfold scode_prepare in E. destruct (_ <? _); [destruct (negb _); [done|]|]; by injection E as <-.
Qed.

(** ** Cursor *)

(** Reading a parser from its first frame: take the current one, step. *)
Fixpoint read_all (fuel : nat) (p : pitcher_parser) : outcome (list pitcher_frame) :=
  match fuel with
  | O => NoFuel
  | S fuel' =>
      '(c, p) ← pitcher_parser_cur_frame p;
      match c with
      | FNull => Done []
      | FHead => UB
      | FAt i =>
          f ← of_option (p_queue p !! i);
          p ← pitcher_parser_to_next_frame p;
          rest ← read_all fuel' p;
          Done (f :: rest)
      end
  end.

Definition mark_last (f : pitcher_frame) : pitcher_frame :=
  Frame (f_idx f) (f_size f) (f_offset f) PITCHER_BUFFER_FLAG_LAST.

(** The frames as delivered: in order, the last one flagged. *)
Fixpoint delivered (l : list pitcher_frame) : list pitcher_frame :=
  match l with
  | [] => []
  | [f] => [mark_last f]
  | f :: l' => f :: delivered l'
  end.

Lemma last_frame_eq p : p_queue p ≠ [] →
  pitcher_parser_last_frame p = FAt (length (p_queue p) - 1).
Proof. unfold pitcher_parser_last_frame. by destruct (p_queue p). Qed.

Lemma queue_set_queue q p : p_queue (set_queue q p) = q.
Proof. done. Qed.

Lemma read_all_from q : ∀ fuel p pre,
  p_queue p = pre ++ q → q ≠ [] → p_cur_frame p = FAt (length pre) → (length q < fuel)%nat →
  read_all fuel p = Done (delivered q).
Proof.
  induction q as [|f q IH]; intros fuel p pre Hq Hne Hc Hf; [done|].
  destruct fuel as [|fuel]; [cbn in Hf; lia|]. cbn [read_all].
  assert (Hlk : (pre ++ f :: q) !! length pre = Some f) by (by rewrite list_lookup_middle).
  unfold pitcher_parser_cur_frame. rewrite Hc, last_frame_eq, Hq by (rewrite Hq; by destruct pre).
  rewrite length_app. cbn [length].
  destruct q as [|g q].
  - rewrite bool_decide_true by (split; [done|f_equal; cbn; lia]).
    rewrite Hlk. cbn [of_option]. rewrite !bind_done. cbn beta iota.
    rewrite queue_set_queue. rewrite list_lookup_insert_eq by (rewrite length_app; cbn; lia).
    cbn [of_option]. rewrite bind_done.
    unfold pitcher_parser_to_next_frame.
    rewrite bool_decide_false by (cbn; by rewrite Hc).
    rewrite bool_decide_true.
    2:{ rewrite last_frame_eq; cbn [set_queue p_cur_frame p_queue]; rewrite ?length_insert, ?length_app.
        - rewrite Hc. f_equal. cbn. lia.
        - intros E. apply (f_equal length) in E. rewrite length_insert, length_app in E. cbn in E. lia. }
    rewrite bind_done. destruct fuel; [cbn in Hf; lia|]. reflexivity.
  - rewrite bool_decide_false by (intros [_ [= E]]; cbn in E; lia).
    rewrite bind_done. cbn beta iota. rewrite Hq, Hlk. cbn [of_option]. rewrite bind_done.
    unfold pitcher_parser_to_next_frame.
    rewrite bool_decide_false by (by rewrite Hc).
    rewrite last_frame_eq, Hq, Hc by (rewrite Hq; by destruct pre).
    rewrite bool_decide_false by (rewrite length_app; intros [= E]; cbn in E; lia).
    cbn [list_next_entry]. rewrite length_app. cbn [length].
    rewrite (proj2 (Nat.ltb_lt _ _)) by lia. rewrite !bind_done.
    rewrite (IH fuel _ (pre ++ [f])); [done| |done| |cbn in *; lia].
    + cbn. by rewrite Hq, <- app_assoc.
    + cbn. rewrite length_app. cbn. f_equal. lia.
Qed.

(** Reading a parser from the beginning delivers every frame once, in
    stream order, with [PITCHER_BUFFER_FLAG_LAST] on the last frame only, and
    then reports the end. *)
Theorem parser_read_all p :
  read_all (S (length (p_queue p))) (pitcher_parser_seek_to_begin p) = Done (delivered (p_queue p)).
Proof.
  destruct (p_queue p) as [|f q] eqn:E.
  - unfold pitcher_parser_seek_to_begin, pitcher_parser_first_frame. rewrite E. reflexivity.
  - rewrite <- E. apply read_all_from with []; [done|by rewrite E| |lia].
    unfold pitcher_parser_seek_to_begin, pitcher_parser_first_frame. by rewrite E.
Qed.
