(* ===== verification/Codecs.v ===== *)
(** * The per-codec parsers: h263_parse.c, h265_parse.c, jpeg_parse.c,
      mpegx_parse.c, vc1_parse.c, vp6_parse.c, vpx_parse.c

    Start-code codecs are descriptors for [pitcher_parse_startcode]; VC1 (RCV),
    VP6 and VP8/VP9 (IVF) files carry frame sizes instead.  The size-prefixed
    parsers read plain [char]s: [char_signed] says whether that type is signed
    (it is not on the ARM targets of this program). *)

From S2P Require Import Prelude Parser.

(** ** Descriptors without private data *)

Definition plain_scode (scode mask num : Z) (check : option (check_frame_t unit)) :=
  Scode scode mask num 0 0 0 0 check 0.

(* C: pitcher/h263_parse.c h263_scode 20-24 *)
Definition h263_scode := plain_scode 128 16777212 3 None.

(* C: pitcher/h263_parse.c spk_scode 26-30 *)
Definition spk_scode := plain_scode 128 16777208 3 None.

(* C: pitcher/jpeg_parse.c jpeg_scode 20-24 *)
Definition jpeg_scode := plain_scode 65496 65535 2 None.

(** The call-backs that only look at the byte behind the start code. *)
(* C: pitcher/mpegx_parse.c mpeg4_check_frame *)
Definition mpeg4_check_frame : check_frame_t unit := λ file p size priv,
  if size =? 0 then Done (PARSER_TYPE_UNKNOWN, priv)
  else
    type ← loadz file p;
    Done (if type =? 182 then PARSER_TYPE_FRAME
          else if type =? 176 then PARSER_TYPE_CONFIG
          else if type =? 179 then PARSER_TYPE_CONFIG
          else if type =? 181 then PARSER_TYPE_CONFIG
          else if (0 <=? type) && (type <=? 47) then PARSER_TYPE_CONFIG
          else PARSER_TYPE_UNKNOWN, priv).

(* C: pitcher/mpegx_parse.c mpeg2_check_frame *)
Definition mpeg2_check_frame : check_frame_t unit := λ file p size priv,
  if size =? 0 then Done (PARSER_TYPE_UNKNOWN, priv)
  else
    type ← loadz file p;
    Done (if type =? 0 then PARSER_TYPE_FRAME
          else if (type =? 178) || (type =? 179) || (type =? 181) || (type =? 184)
          then PARSER_TYPE_CONFIG
          else PARSER_TYPE_UNKNOWN, priv).

(* C: pitcher/mpegx_parse.c avs_check_frame *)
Definition avs_check_frame : check_frame_t unit := λ file p size priv,
  if size =? 0 then Done (PARSER_TYPE_UNKNOWN, priv)
  else
    type ← loadz file p;
    Done (if (type =? 179) || (type =? 182) then PARSER_TYPE_FRAME
          else if (type =? 176) || (type =? 178) || (type =? 181) then PARSER_TYPE_CONFIG
          else PARSER_TYPE_UNKNOWN, priv).

(* C: pitcher/vc1_parse.c vc1g_check_frame *)
Definition vc1g_check_frame : check_frame_t unit := λ file p size priv,
  if size =? 0 then Done (PARSER_TYPE_UNKNOWN, priv)
  else
    type ← loadz file p;
    Done (if type =? 13 then PARSER_TYPE_FRAME
          else if type =? 15 then PARSER_TYPE_FRAME
          else PARSER_TYPE_UNKNOWN, priv).

(* C: pitcher/mpegx_parse.c mpeg2_scode 85-90 *)
Definition mpeg2_scode := plain_scode 1 16777215 3 (Some mpeg2_check_frame).
(* C: pitcher/mpegx_parse.c mpeg4_scode 92-97 *)
Definition mpeg4_scode := plain_scode 1 16777215 3 (Some mpeg4_check_frame).
(* C: pitcher/mpegx_parse.c avs_scode 99-104 *)
Definition avs_scode := plain_scode 1 16777215 3 (Some avs_check_frame).
(* C: pitcher/vc1_parse.c vc1g_scode 127-132 *)
Definition vc1g_scode := plain_scode 1 16777215 3 (Some vc1g_check_frame).

(** ** H.265 *)

(* C: pitcher/h265_parse.c h265_parse_t 20-23 *)
Record h265_parse_t := H265 { h265_header_cnt : Z; h265_config_found : Z }.

(* C: pitcher/h265_parse.c h265_check_frame *)
Definition h265_check_frame : check_frame_t h265_parse_t := λ file p size info,
  if size <? 3 then Done (PARSER_TYPE_UNKNOWN, info)
  else
    p0 ← loadz file p;
    let type := Z.shiftr (Z.land p0 126) 1 in
    if ((0 <=? type) && (type <=? 9)) || ((16 <=? type) && (type <=? 21)) then
      if h265_header_cnt info =? 0 then Done (PARSER_TYPE_UNKNOWN, info)
      else if negb (h265_config_found info =? 0) then
        Done (PARSER_TYPE_FRAME, H265 (h265_header_cnt info) 0)
      else
        p2 ← loadz file (p + 2);
        Done (if negb (Z.land p2 128 =? 0) then PARSER_TYPE_FRAME else PARSER_TYPE_UNKNOWN, info)
    else if type =? 33 then
      Done (PARSER_TYPE_CONFIG, H265 (u32 (h265_header_cnt info + 1)) 1)
    else if (type =? 34) || (type =? 32) || (type =? 39) || (type =? 40) then
      Done (PARSER_TYPE_CONFIG, H265 (h265_header_cnt info) 1)
    else Done (PARSER_TYPE_UNKNOWN, info).

(* C: pitcher/h265_parse.c h265_scode 75-85 *)
Definition h265_scode : pitcher_parser_scode h265_parse_t :=
  Scode 1 16777215 3 4 1 4294967295 0 (Some h265_check_frame) 8.

Section parsers.
Context (calloc_ok : nat → bool).

Definition plain_parse (psc : pitcher_parser_scode unit) (p : option pitcher_parser)
    : outcome (Z * option pitcher_parser) :=
  '(ret, p, _) ← pitcher_parse_startcode calloc_ok true tt p psc; Done (ret, p).

(* C: pitcher/h263_parse.c h263_parse *)
Definition h263_parse := plain_parse h263_scode.
(* C: pitcher/h263_parse.c spk_parse *)
Definition spk_parse := plain_parse spk_scode.
(* C: pitcher/jpeg_parse.c jpeg_parse *)
Definition jpeg_parse := plain_parse jpeg_scode.
(* C: pitcher/mpegx_parse.c mpeg4_parse *)
Definition mpeg4_parse := plain_parse mpeg4_scode.
(* C: pitcher/mpegx_parse.c mpeg2_parse *)
Definition mpeg2_parse := plain_parse mpeg2_scode.
(* C: pitcher/mpegx_parse.c xvid_parse *)
Definition xvid_parse := plain_parse mpeg4_scode.
(* C: pitcher/mpegx_parse.c avs_parse *)
Definition avs_parse := plain_parse avs_scode.
(* C: pitcher/mpegx_parse.c divx_parse *)
Definition divx_parse := plain_parse mpeg4_scode.
(* C: pitcher/vc1_parse.c vc1g_parse *)
Definition vc1g_parse := plain_parse vc1g_scode.

(* C: pitcher/h265_parse.c h265_parse *)
Definition h265_parse (priv_ok : bool) (p : option pitcher_parser)
    : outcome (Z * option pitcher_parser) :=
  '(ret, p, _) ← pitcher_parse_startcode calloc_ok priv_ok (H265 0 0) p h265_scode; Done (ret, p).

(** ** Files with frame sizes *)

Context (char_signed : bool).

Definition char_val (b : Z) : Z := if char_signed && (128 <=? b) then b - 256 else b.

(** [p[i]] for [char *p]. *)
Definition load_char (virt : list Z) (i : Z) : outcome Z :=
  b ← loadz virt i; Done (char_val b).

(* C: pitcher/vc1_parse.c byte_to_int 27-28 *)
Fixpoint byte_to_int_loop (virt : list Z) (p : Z) (n : nat) (i dst : Z) : outcome Z :=
  match n with
  | O => Done dst
  | S n' =>
      c ← load_char virt (p + i);
      byte_to_int_loop virt p n' (i + 1) (Z.lor dst (s32 (Z.shiftl c (i * 8))))
  end.

(* C: pitcher/vc1_parse.c byte_to_int *)
Definition byte_to_int (virt : list Z) (p : Z) (n : nat) : outcome Z :=
  byte_to_int_loop virt p n 0 0.

(* C: pitcher/vc1_parse.c rcv_parse_header *)
Definition rcv_parse_header (p : pitcher_parser) : outcome (Z * Z * Z * pitcher_parser) :=
  let virt := p_virt p in
  let src := 0 in
  _ ← byte_to_int virt src 3;
  let src := src + 3 in
  data ← byte_to_int virt src 1;
  let src := src + 1 in
  let rcv_version := if negb (Z.land data 64 =? 0) then 1 else 0 in
  meta_size ← byte_to_int virt src 4;
  let src := src + s32 (4 + meta_size) in
  let size := s32 ((4 + 4 * rcv_version) * 4 + meta_size) in
  height ← byte_to_int virt src 4;
  let src := src + 4 in
  width ← byte_to_int virt src 4;
  Done (size, rcv_version, meta_size, set_resolution (u32 width) (u32 height) p).

(* C: pitcher/vc1_parse.c rcv_frame_size *)
Definition rcv_frame_size (virt : list Z) (src : Z) : outcome Z := byte_to_int virt src 3.

(** The comparisons with [parser->size] are unsigned. *)
(* C: pitcher/vc1_parse.c vc1l_parse 96-104 *)
Fixpoint vc1l_loop (fuel : nat) (p : pitcher_parser) (rcv_version offset current index : Z)
    : outcome pitcher_parser :=
  if u64 offset <? p_size p then
    match fuel with
    | O => NoFuel
    | S fuel' =>
        size ← rcv_frame_size (p_virt p) current;
        if p_size p <? u64 (offset + size) then Done p
        else
          let p := snd (pitcher_parser_push_new_frame calloc_ok p offset size index) in
          vc1l_loop fuel' p rcv_version (offset + (size + (4 + 4 * rcv_version)))
            (current + (size + (4 + 4 * rcv_version))) (index + 1)
    end
  else Done p.

(* C: pitcher/vc1_parse.c vc1l_parse *)
Definition vc1l_parse (fuel : nat) (p : option pitcher_parser) : outcome (Z * option pitcher_parser) :=
  match p with
  | None => Done (- RET_E_INVAL, None)
  | Some p =>
      '(size, rcv_version, meta_size, p) ← rcv_parse_header p;
      let p := snd (pitcher_parser_push_new_frame calloc_ok p 8 meta_size 0) in
      p ← vc1l_loop fuel p rcv_version (0 + (size + (4 + 4 * rcv_version))) size 1;
      Done (RET_OK, Some p)
  end.

(** Four little-endian [char]s as an [int]. *)
Definition char_int_or (virt : list Z) (current : Z) : outcome Z :=
  c0 ← load_char virt current;
  c1 ← load_char virt (current + 1);
  c2 ← load_char virt (current + 2);
  c3 ← load_char virt (current + 3);
  Done (Z.lor (Z.lor (Z.lor c0 (Z.shiftl c1 8)) (Z.shiftl c2 16)) (s32 (Z.shiftl c3 24))).

(** [left_bytes] is unsigned: the test [left_bytes < frame_size] converts a
    negative size to a huge one. *)
(* C: pitcher/vp6_parse.c vp6_parse 37-55 *)
Fixpoint vp6_loop (fuel : nat) (p : pitcher_parser) (current left_bytes offset frame_idx : Z)
    : outcome pitcher_parser :=
  if 4 <? left_bytes then
    match fuel with
    | O => NoFuel
    | S fuel' =>
        frame_size ← char_int_or (p_virt p) current;
        let current := current + 4 in
        let left_bytes := left_bytes - 4 in
        let offset := offset + 4 in
        if left_bytes <? u64 frame_size then Done p
        else
          let p := snd (pitcher_parser_push_new_frame calloc_ok p offset frame_size frame_idx) in
          vp6_loop fuel' p (current + frame_size) (u64 (left_bytes - u64 frame_size))
            (offset + frame_size) (frame_idx + 1)
    end
  else Done p.

(* C: pitcher/vp6_parse.c vp6_parse *)
Definition vp6_parse (p : option pitcher_parser) : outcome (Z * option pitcher_parser) :=
  match p with
  | None => Done (- RET_E_INVAL, None)
  | Some p =>
      p ← vp6_loop (Z.to_nat (p_size p)) p 0 (p_size p) 0 0;
      Done (RET_OK, Some p)
  end.

(** ** IVF *)

(* C: pitcher/vpx_parse.c ivf_header_t 26-37 *)
Definition sizeof_ivf_header_t : Z := 4 + 2 + 2 + 4 + 2 + 2 + 4 + 4 + 4 + 4.
(* C: pitcher/vpx_parse.c ivf_frame_header_t 39-44 *)
Definition sizeof_ivf_frame_header_t : Z := 4 + 8.

(** [strncmp(lit, file + off, n) != 0]; [lit] ends with its NUL. *)
Fixpoint strncmp_ne (lit : list Z) (virt : list Z) (off : Z) (n : nat) : outcome bool :=
  match n, lit with
  | O, _ => Done false
  | _, [] => UB
  | S n', c :: lit' =>
      b ← loadz virt off;
      if negb (c =? b) then Done true
      else if c =? 0 then Done false
      else strncmp_ne lit' virt (off + 1) n'
  end.

Definition DKIF : list Z := [68; 75; 73; 70; 0].
Definition VP80 : list Z := [86; 80; 56; 48; 0].
Definition VP90 : list Z := [86; 80; 57; 48; 0].

(** The size is summed as [int]s. *)
Definition char_int_add (virt : list Z) (current : Z) : outcome Z :=
  c0 ← load_char virt current;
  c1 ← load_char virt (current + 1);
  c2 ← load_char virt (current + 2);
  c3 ← load_char virt (current + 3);
  Done (s32 (c0 + Z.shiftl c1 8 + Z.shiftl c2 16 + Z.shiftl c3 24)).

(* C: pitcher/vpx_parse.c vpx_parse 87-106 *)
Fixpoint vpx_loop (fuel : nat) (p : pitcher_parser) (current left_bytes frame_idx : Z)
    : outcome pitcher_parser :=
  if sizeof_ivf_frame_header_t <? left_bytes then
    match fuel with
    | O => NoFuel
    | S fuel' =>
        frame_size ← char_int_add (p_virt p) current;
        let current := current + sizeof_ivf_frame_header_t in
        let left_bytes := left_bytes - sizeof_ivf_frame_header_t in
        if left_bytes <? frame_size then Done p
        else
          let p := snd (pitcher_parser_push_new_frame calloc_ok p (p_size p - left_bytes)
                          frame_size frame_idx) in
          vpx_loop fuel' p (current + frame_size) (left_bytes - frame_size) (frame_idx + 1)
    end
  else Done p.

(* C: pitcher/vpx_parse.c vpx_parse *)
Definition vpx_parse (fuel : nat) (p : option pitcher_parser) : outcome (Z * option pitcher_parser) :=
  match p with
  | None => Done (- RET_E_INVAL, None)
  | Some p =>
      let left_bytes := p_size p in
      if left_bytes <? sizeof_ivf_header_t then Done (- RET_E_INVAL, Some p)
      else
        bad ← strncmp_ne DKIF (p_virt p) 0 5;
        if (bad : bool) then Done (- RET_E_INVAL, Some p)
        else
          not8 ← strncmp_ne VP80 (p_virt p) 8 4;
          not89 ← (if (not8 : bool) then strncmp_ne VP90 (p_virt p) 8 4 else Done false);
          if (not89 : bool) then Done (- RET_E_INVAL, Some p)
          else
            c12 ← load_char (p_virt p) 12; c13 ← load_char (p_virt p) 13;
            c14 ← load_char (p_virt p) 14; c15 ← load_char (p_virt p) 15;
            let p := set_resolution (u32 (Z.lor c12 (Z.shiftl c13 8)))
                       (u32 (Z.lor c14 (Z.shiftl c15 8))) p in
            p ← vpx_loop fuel p sizeof_ivf_header_t (left_bytes - sizeof_ivf_header_t) 0;
            Done (RET_OK, Some p)
  end.

(* C: pitcher/vpx_parse.c vp8_parse *)
Definition vp8_parse := vpx_parse.
(* C: pitcher/vpx_parse.c vp9_parse *)
Definition vp9_parse := vpx_parse.
End parsers.

(** The bytes the writers pass to [fwrite]. *)

(* C: pitcher/vpx_parse.c vp8_insert_ivf_seqhdr *)
Definition vp8_insert_ivf_seqhdr (width height frame_rate : Z) : list Z :=
  [68; 75; 73; 70;
   0; 0;
   u8 32; u8 (Z.shiftr 32 8);
   86; 80; 56; 48;
   u8 width; u8 (Z.shiftr width 8);
   u8 height; u8 (Z.shiftr height 8);
   u8 frame_rate; u8 (Z.shiftr frame_rate 8); u8 (Z.shiftr frame_rate 16); u8 (Z.shiftr frame_rate 24);
   1; 0; 0; 0;
   255; 255; 255; 255;
   0; 0; 0; 0].

(* C: pitcher/vpx_parse.c vp8_insert_ivf_pichdr *)
Definition vp8_insert_ivf_pichdr (frame_size : Z) : list Z :=
  [u8 frame_size; u8 (Z.shiftr frame_size 8); u8 (Z.shiftr frame_size 16); u8 (Z.shiftr frame_size 24);
   0; 0; 0; 0; 0; 0; 0; 0].


(** ** Start-code codecs *)

(** The call-backs that read only the byte at [current] answer on every
    position that has one. *)
Lemma check_total_byte (t : Z → Z) virt :
  check_total (Some (λ (file : list Z) (p size : Z) (priv : unit),
    if size =? 0 then Done (PARSER_TYPE_UNKNOWN, priv)
    else type ← loadz file p; Done (t type, priv))) virt.
Proof.
  intros off n priv H1 H2 H3. destruct (Z.eqb_spec n 0); [eauto|].
  rewrite loadz_Done, bind_done by lia. eauto.
Qed.

(** The start-code descriptors without private data. *)
Definition plain_codecs : list (pitcher_parser_scode unit) :=
  [h263_scode; spk_scode; jpeg_scode; mpeg2_scode; mpeg4_scode; avs_scode; vc1g_scode].

Lemma plain_codec_total virt psc sc :
  psc ∈ plain_codecs → scode_prepare psc = Some sc → check_total (check_frame sc) virt.
Proof.
  unfold plain_codecs. rewrite !elem_of_cons, elem_of_nil.
  intros [->|[->|[->|[->|[->|[->|[->|[]]]]]]]] [= <-];
    first [exact I | apply check_total_byte].
Qed.

Lemma h265_check_total virt : check_total (Some h265_check_frame) virt.
Proof.
  intros off n priv H1 H2 H3. unfold h265_check_frame. destruct (Z.ltb_spec n 3); [eauto|].
  rewrite loadz_Done by lia. rewrite bind_done. cbn zeta.
  rewrite loadz_Done by lia. rewrite bind_done. repeat case_match; eauto.
Qed.

(** Every codec whose parser only scans start codes (H.263, Sorenson Spark,
    JPEG, MPEG-2, MPEG-4/XVID/DivX, AVS, VC-1 advanced profile) cuts any file
    into frames without losing or repeating a byte, and returns 0. *)
Theorem plain_parse_cuts calloc_ok p psc :
  (∀ n, calloc_ok n = true) → psc ∈ plain_codecs → parser_wf p →
  ∃ p', plain_parse calloc_ok psc (Some p) = Done (0, Some p') ∧ cut_into p p'.
Proof.
  intros Hok Hin Hwf.
  assert (∃ sc, scode_prepare psc = Some sc ∧ scode_ordered sc ∧
    0 < num psc < 2 ^ 32 ∧ extra_num psc < 2 ^ 32) as (sc & Hsc & Ho & H1 & H2).
  { clear -Hin. unfold plain_codecs in Hin. rewrite !elem_of_cons, elem_of_nil in Hin.
    destruct Hin as [->|[->|[->|[->|[->|[->|[->|[]]]]]]]]; eexists;
      (split; [reflexivity|]); unfold scode_ordered; cbn; lia. }
  destruct (pitcher_parse_startcode_cut calloc_ok tt p psc sc) as (p' & priv' & E & H);
    try done; [by eapply plain_codec_total|].
  exists p'. unfold plain_parse. by rewrite E.
Qed.

Lemma plain_parse_cuts_witness :
  ∃ p', plain_parse (λ _, true) mpeg4_scode
      (Some (Parser [] 0 FNull 0 0 [0; 0; 1; 182; 7; 0; 0; 1; 182] 9 0 0 0)) = Done (0, Some p') ∧
    cut_into (Parser [] 0 FNull 0 0 [0; 0; 1; 182; 7; 0; 0; 1; 182] 9 0 0 0) p'.
Proof.
  apply (plain_parse_cuts (λ _, true) _ mpeg4_scode); [done| |].
  - unfold plain_codecs. rewrite !elem_of_cons. auto 10.
  - unfold parser_wf, zlen. cbn. lia.
Defined.

(** The same holds of [h265_parse], whose call-back carries a state. *)
Theorem h265_parse_cuts calloc_ok p :
  (∀ n, calloc_ok n = true) → parser_wf p →
  ∃ p', h265_parse calloc_ok true (Some p) = Done (0, Some p') ∧ cut_into p p'.
Proof.
  intros Hok Hwf.
  destruct (pitcher_parse_startcode_cut calloc_ok (H265 0 0) p h265_scode h265_scode)
    as (p' & priv' & E & H); try done;
    try (unfold scode_ordered; cbn; lia); [apply h265_check_total|].
  exists p'. unfold h265_parse. by rewrite E.
Qed.

Lemma h265_parse_cuts_witness :
  ∃ p', h265_parse (λ _, true) true
      (Some (Parser [] 0 FNull 0 0 [0; 0; 0; 1; 66; 1; 1; 0; 0; 1; 38; 1; 128] 13 0 0 0)) = Done (0, Some p') ∧
    cut_into (Parser [] 0 FNull 0 0 [0; 0; 0; 1; 66; 1; 1; 0; 0; 1; 38; 1; 128] 13 0 0 0) p'.
Proof.
  apply (h265_parse_cuts (λ _, true)); [done|]. unfold parser_wf, zlen. cbn. lia.
Defined.

(** ** Files with frame sizes *)

(** The reference reading of such a file: from [off], a header of [hdr] bytes
    holding the size [rd off], then the frame; it stops when no more than a
    header is left or the frame does not fit. *)
Fixpoint sized_frames (fuel : nat) (hdr : Z) (rd : Z → Z) (off size : Z) : list (Z * Z) :=
  match fuel with
  | O => []
  | S fuel' =>
      if hdr <? size - off then
        let n := rd off in
        if (0 <=? n) && (n <=? size - off - hdr) then
          (off + hdr, n) :: sized_frames fuel' hdr rd (off + hdr + n) size
        else []
      else []
  end.

Lemma sized_frames_bounds fuel hdr rd : ∀ off size,
  0 ≤ hdr → 0 ≤ off →
  Forall (λ '(o, n), off + hdr ≤ o ∧ 0 ≤ n ∧ o + n ≤ size) (sized_frames fuel hdr rd off size).
Proof.
  induction fuel as [|fuel IH]; intros off size Hh Ho; cbn [sized_frames]; [constructor|].
  destruct (_ <? _); [|constructor]. destruct (_ && _) eqn:E; [|constructor]. zbool.
  constructor; [lia|].
  eapply Forall_impl; [apply IH; lia|]. intros [o n]. lia.
Qed.

(** The size read by [vp6_parse], as a function of the file. *)
Definition size_or (char_signed : bool) (virt : list Z) (off : Z) : Z :=
  let c i := char_val char_signed (byte_at virt (off + i)) in
  Z.lor (Z.lor (Z.lor (c 0) (Z.shiftl (c 1) 8)) (Z.shiftl (c 2) 16)) (s32 (Z.shiftl (c 3) 24)).

Lemma load_char_ok cs virt i : 0 ≤ i < zlen virt → load_char cs virt i = Done (char_val cs (byte_at virt i)).
Proof. intros. unfold load_char. by rewrite loadz_Done by done. Qed.

Lemma char_int_or_ok cs virt off :
  0 ≤ off → off + 4 ≤ zlen virt → char_int_or cs virt off = Done (size_or cs virt off).
Proof.
  intros H1 H2. unfold char_int_or, size_or. rewrite !load_char_ok by lia. by rewrite Z.add_0_r.
Qed.

Lemma char_val_range cs b : is_byte b → - 2 ^ 7 ≤ char_val cs b < 2 ^ 8.
Proof. unfold is_byte, char_val. destruct cs, (128 <=? b) eqn:E; cbn; zbool; lia. Qed.

(** Bounds of [Z.lor] on two's complement numbers. *)
Lemma lor_lt_signed a b n :
  0 ≤ n → - 2 ^ n ≤ a < 2 ^ n → - 2 ^ n ≤ b < 2 ^ n → - 2 ^ n ≤ Z.lor a b < 2 ^ n.
Proof.
  intros Hn Ha Hb.
  assert (Hlow : ∀ x y, x < 0 → - 2 ^ n ≤ x → - 2 ^ n ≤ Z.lor x y < 2 ^ n).
  { intros x y Hx Hxl. pose proof (pow2_pos n Hn).
    assert (Hle : 0 ≤ Z.ldiff (Z.lnot x) y ≤ Z.lnot x).
    { apply Z.ldiff_le; [unfold Z.lnot; lia|].
      apply Z.bits_inj'. intros i Hi. rewrite !Z.ldiff_spec, Z.bits_0.
      by destruct (Z.testbit (Z.lnot x) i), (Z.testbit y i). }
    assert (Z.lnot (Z.lor x y) = Z.ldiff (Z.lnot x) y) by (by rewrite Z.lnot_lor, Z.ldiff_land).
    unfold Z.lnot in *. lia. }
  destruct (decide (a < 0)); [apply Hlow; lia|].
  destruct (decide (b < 0)); [rewrite Z.lor_comm; apply Hlow; lia|].
  pose proof (lor_lt_pow2 a b n Hn ltac:(lia) ltac:(lia)). lia.
Qed.

Lemma size_or_range cs virt off : bytes virt → - 2 ^ 31 ≤ size_or cs virt off < 2 ^ 31.
Proof.
  intros Hb. unfold size_or. repeat apply lor_lt_signed; try lia; try apply s32_range.
  all: rewrite ?Z.shiftl_mul_pow2 by lia.
  all: match goal with H : bytes _ |- context [char_val ?c ?b] =>
    pose proof (char_val_range c b (byte_at_range _ _ H)) end; lia.
Qed.

(** Pushing a list of frames, from index [i]. *)
Lemma vp6_loop_frames calloc_ok cs fuel : ∀ p off i,
  (∀ n, calloc_ok n = true) → bytes (p_virt p) →
  0 ≤ off ≤ p_size p → p_size p ≤ zlen (p_virt p) → p_size p < 2 ^ 32 →
  0 ≤ p_frame_cnt p → p_frame_cnt p + (p_size p - off) < 2 ^ 64 - 1 →
  p_size p - off ≤ Z.of_nat fuel →
  ∃ p', vp6_loop calloc_ok cs fuel p off (p_size p - off) off i = Done p' ∧
    p_queue p' = p_queue p ++
      frame_records i (sized_frames fuel 4 (size_or cs (p_virt p)) off (p_size p)).
Proof.
  induction fuel as [|fuel IH]; intros p off i Hok Hb Ho Hl H32 Hc0 Hc Hf; cbn [vp6_loop sized_frames].
  { rewrite (proj2 (Z.ltb_ge _ _)) by lia. exists p. by rewrite app_nil_r. }
  destruct (Z.ltb_spec 4 (p_size p - off)); [|exists p; by rewrite app_nil_r].
  rewrite char_int_or_ok, bind_done by lia. cbn zeta.
  pose proof (size_or_range cs (p_virt p) off Hb) as Hr.
  set (n := size_or cs (p_virt p) off) in *.
  assert (Hu : (p_size p - off - 4 <? u64 n) = negb ((0 <=? n) && (n <=? p_size p - off - 4))).
  { unfold u64. destruct (Z.leb_spec 0 n).
    - rewrite Z.mod_small by lia. cbn. by rewrite Z.ltb_antisym.
    - replace (n mod 2 ^ 64) with (n + 2 ^ 64) by (apply Z.mod_unique with (-1); lia).
      cbn [andb negb]. apply Z.ltb_lt. lia. }
  rewrite Hu. destruct (_ && _) eqn:E; cbn [negb]; [|exists p; by rewrite app_nil_r]. zbool.
  destruct (pushed_fields calloc_ok Hok p (off + 4) n i) as (Hq & Hfc & _); [lia|].
  fold (pushed calloc_ok p (off + 4) n i). set (p1 := pushed _ _ _ _ _) in *.
  assert (p_virt p1 = p_virt p ∧ p_size p1 = p_size p) as [Hv1 Hs1].
  { unfold p1, pushed. by rewrite push_ok. }
  rewrite (u64_small n), u64_small by lia.
  replace (p_size p - off - 4 - n) with (p_size p1 - (off + 4 + n)) by lia.
  destruct (IH p1 (off + 4 + n) (i + 1)) as (p' & -> & Hq'); rewrite ?Hv1, ?Hs1; try done; try lia.
  exists p'. split; [done|]. rewrite Hq', Hq, Hv1, Hs1, <- app_assoc. done.
Qed.

(** [vp6_parse] reads any file: it always ends with [RET_OK], whatever the
    signedness of [char], and its frames are those of the reference reading of
    size-prefixed files; each lies inside the file, behind its size field. *)
Theorem vp6_parse_frames calloc_ok cs p :
  (∀ n, calloc_ok n = true) → bytes (p_virt p) → parser_wf p → p_queue p = [] →
  ∃ p', vp6_parse calloc_ok cs (Some p) = Done (RET_OK, Some p') ∧
    p_queue p' = frame_records 0
      (sized_frames (Z.to_nat (p_size p)) 4 (size_or cs (p_virt p)) 0 (p_size p)) ∧
    Forall (λ f, 4 ≤ f_offset f ∧ 0 ≤ f_size f ∧ f_offset f + f_size f ≤ p_size p) (p_queue p').
Proof.
  intros Hok Hb (Hs & Hl & Hn & Hc) Hq. unfold vp6_parse.
  destruct (vp6_loop_frames calloc_ok cs (Z.to_nat (p_size p)) p 0 0) as (p' & E & Hq'); try done; try lia.
  replace (p_size p - 0) with (p_size p) in E by lia. rewrite E, bind_done.
  exists p'. rewrite Hq', Hq. split_and!; [done..|].
  apply frame_records_Forall. eapply Forall_impl; [apply sized_frames_bounds; lia|].
  intros [o n] (?&?&?). cbn. rewrite u32_small, u64_small by lia. lia.
Qed.

Lemma vp6_parse_frames_witness :
  ∃ p', vp6_parse (λ _, true) false (Some (Parser [] 0 FNull 0 0 [2; 0; 0; 0; 7; 8; 9; 0; 0; 0] 10 0 0 0)) =
      Done (RET_OK, Some p') ∧
    p_queue p' = frame_records 0 (sized_frames 10 4
      (size_or false [2; 0; 0; 0; 7; 8; 9; 0; 0; 0]) 0 10) ∧
    Forall (λ f, 4 ≤ f_offset f ∧ 0 ≤ f_size f ∧ f_offset f + f_size f ≤ 10) (p_queue p').
Proof.
  apply (vp6_parse_frames (λ _, true) false (Parser [] 0 FNull 0 0 [2; 0; 0; 0; 7; 8; 9; 0; 0; 0] 10 0 0 0));
    [done|repeat constructor; lia|unfold parser_wf, zlen; cbn; lia|done].
Defined.

(** ** IVF: what the writers write, the parser reads *)

(** The file [vp8_insert_ivf_seqhdr], then for each frame
    [vp8_insert_ivf_pichdr] and its bytes. *)
Definition ivf_frame (f : list Z) : list Z := vp8_insert_ivf_pichdr (zlen f) ++ f.
Definition ivf_body (frames : list (list Z)) : list Z := concat (ivf_frame <$> frames).
Definition ivf_file (width height frame_rate : Z) (frames : list (list Z)) : list Z :=
  vp8_insert_ivf_seqhdr width height frame_rate ++ ivf_body frames.

Lemma nthz_app_r {A} (l k : list A) i : 0 ≤ i → nthz (l ++ k) (zlen l + i) = nthz k i.
Proof.
  intros. rewrite !nthz_lookup by (unfold zlen; lia).
  rewrite lookup_app_r by (unfold zlen; lia). f_equal. unfold zlen. lia.
Qed.

Lemma byte_at_app_r l k i : 0 ≤ i → byte_at (l ++ k) (zlen l + i) = byte_at k i.
Proof. intros. unfold byte_at. by rewrite nthz_app_r. Qed.

Lemma u8_digits n : 0 ≤ n < 2 ^ 32 →
  u8 n + u8 (Z.shiftr n 8) * 2 ^ 8 + u8 (Z.shiftr n 16) * 2 ^ 16 + u8 (Z.shiftr n 24) * 2 ^ 24 = n.
Proof. intros. unfold u8. rewrite !Z.shiftr_div_pow2 by lia. dlia. Qed.

Lemma le16_pair n : 0 ≤ n < 2 ^ 16 → u32 (Z.lor (u8 n) (Z.shiftl (u8 (Z.shiftr n 8)) 8)) = n.
Proof.
  intros Hn. apply Z.bits_inj'. intros i Hi. unfold u32, u8.
  rewrite testbit_mod_pow2, Z.lor_spec, Z.shiftl_spec, !testbit_mod_pow2 by lia.
  destruct (decide (i < 8)).
  { rewrite (Z.testbit_neg_r _ (i - 8)) by lia. bd. by rewrite ?andb_false_r, ?orb_false_r. }
  rewrite Z.shiftr_spec by lia. replace (i - 8 + 8) with i by lia.
  destruct (decide (i < 16)); [bd; done|]. rewrite (testbit_small n 16 i) by lia. bsimpl. done.
Qed.

Lemma ivf_body_cons f frames : ivf_body (f :: frames) = vp8_insert_ivf_pichdr (zlen f) ++ f ++ ivf_body frames.
Proof.
  unfold ivf_body. rewrite fmap_cons. cbn [concat]. unfold ivf_frame at 1. by rewrite <- app_assoc.
Qed.

Lemma zlen_ivf_body frames : Forall (λ f, f ≠ []) frames → zlen frames ≤ zlen (ivf_body frames).
Proof.
  induction 1 as [|f frames Hf _ IH]; [done|]. rewrite ivf_body_cons, !zlen_app, zlen_cons.
  change (zlen (vp8_insert_ivf_pichdr (zlen f))) with 12. pose proof (zlen_nonneg f). lia.
Qed.

Lemma char_int_add_pichdr pre n rest :
  0 ≤ n < 2 ^ 31 →
  char_int_add false (pre ++ vp8_insert_ivf_pichdr n ++ rest) (zlen pre) = Done n.
Proof.
  intros Hn. unfold char_int_add.
  assert (Hl : 4 ≤ zlen (vp8_insert_ivf_pichdr n ++ rest)).
  { rewrite zlen_app. pose proof (zlen_nonneg rest). change (zlen (vp8_insert_ivf_pichdr n)) with 12. lia. }
  pose proof (zlen_nonneg pre).
  rewrite !load_char_ok by (rewrite zlen_app; lia). rewrite !bind_done. unfold char_val. cbn [andb].
  rewrite <- (Z.add_0_r (zlen pre)) at 1. rewrite !byte_at_app_r by lia.
  rewrite !Z.shiftl_mul_pow2 by lia. f_equal. transitivity (s32 n); [|by apply s32_small; lia].
  f_equal. exact (u8_digits n ltac:(lia)).
Qed.

Lemma frame_bytes_middle pre f rest i :
  zlen pre < 2 ^ 32 → zlen f < 2 ^ 64 →
  frame_bytes (pre ++ f ++ rest) (Frame i (u64 (zlen f)) (u32 (zlen pre)) 0) = f.
Proof.
  intros. pose proof (zlen_nonneg pre). pose proof (zlen_nonneg f).
  unfold frame_bytes. cbn [f_size f_offset]. rewrite u64_small, u32_small by lia.
  unfold zlen. rewrite !Nat2Z.id. by rewrite drop_app_length, take_app_length.
Qed.

Lemma vpx_loop_ivf calloc_ok frames : ∀ fuel p pre idx,
  (∀ n, calloc_ok n = true) →
  p_virt p = pre ++ ivf_body frames → p_size p = zlen (p_virt p) → p_size p < 2 ^ 31 →
  Forall (λ f, f ≠ []) frames → 0 ≤ p_frame_cnt p → p_frame_cnt p + zlen frames < 2 ^ 63 →
  (length frames ≤ fuel)%nat →
  ∃ p', vpx_loop calloc_ok false fuel p (zlen pre) (zlen (ivf_body frames)) idx = Done p' ∧
    frame_bytes (p_virt p) <$> p_queue p' = (frame_bytes (p_virt p) <$> p_queue p) ++ frames ∧
    p_width p' = p_width p ∧ p_height p' = p_height p.
Proof.
  induction frames as [|f frames IH]; intros fuel p pre idx Hok Hv Hs H31 Hne Hc0 Hc Hf.
  { assert (vpx_loop calloc_ok false fuel p (zlen pre) (zlen (ivf_body [])) idx = Done p) as -> by (by destruct fuel).
    exists p. by rewrite app_nil_r. }
  destruct fuel as [|fuel]; [cbn in Hf; lia|].
  apply Forall_cons in Hne as [Hf0 Hne].
  rewrite ivf_body_cons in Hv |- *. rewrite zlen_cons in Hc.
  pose proof (zlen_nonneg pre). pose proof (zlen_nonneg f). pose proof (zlen_nonneg frames).
  pose proof (zlen_nonneg (ivf_body frames)).
  assert (0 < zlen f) by (destruct f; [done|]; rewrite zlen_cons; pose proof (zlen_nonneg f); lia).
  assert (Hsz : p_size p = zlen pre + 12 + zlen f + zlen (ivf_body frames)).
  { rewrite Hs, Hv, !zlen_app. change (zlen (vp8_insert_ivf_pichdr (zlen f))) with 12. lia. }
  rewrite !zlen_app. change (zlen (vp8_insert_ivf_pichdr (zlen f))) with 12.
  cbn [vpx_loop]. unfold sizeof_ivf_frame_header_t.
  rewrite (proj2 (Z.ltb_lt _ _)) by lia. rewrite Hv, char_int_add_pichdr, bind_done by lia. cbn zeta.
  rewrite (proj2 (Z.ltb_ge _ _)) by lia.
  fold (pushed calloc_ok p (p_size p - (12 + (zlen f + zlen (ivf_body frames)) - (4 + 8))) (zlen f) idx).
  replace (p_size p - (12 + (zlen f + zlen (ivf_body frames)) - (4 + 8))) with (zlen pre + 12) by lia.
  destruct (pushed_fields calloc_ok Hok p (zlen pre + 12) (zlen f) idx) as (Hq & Hfc & _); [lia|].
  set (p1 := pushed _ _ _ _ _) in *.
  assert (p_virt p1 = p_virt p ∧ p_size p1 = p_size p ∧ p_width p1 = p_width p ∧ p_height p1 = p_height p)
    as (Hv1 & Hs1 & Hw1 & Hh1) by (unfold p1, pushed; by rewrite push_ok).
  destruct (IH fuel p1 (pre ++ vp8_insert_ivf_pichdr (zlen f) ++ f) (idx + 1))
    as (p' & E & Hq' & Hw & Hh); rewrite ?Hv1, ?Hs1, ?Hfc; try done; try lia.
  { by rewrite Hv, <- !app_assoc. }
  { cbn in Hf. lia. }
  exists p'. split_and!; [|rewrite <- Hv; rewrite Hv1 in Hq'; rewrite Hq', Hq|congruence..].
  - rewrite <- E. rewrite !zlen_app. change (zlen (vp8_insert_ivf_pichdr (zlen f))) with 12. f_equal; lia.
  - rewrite fmap_app, <- app_assoc. f_equal. cbn [fmap list_fmap app]. f_equal.
    rewrite Hv. replace (zlen pre + 12) with (zlen (pre ++ vp8_insert_ivf_pichdr (zlen f)))
      by (rewrite zlen_app; change (zlen (vp8_insert_ivf_pichdr (zlen f))) with 12; lia).
    rewrite app_assoc. apply frame_bytes_middle; rewrite ?zlen_app;
      change (zlen (vp8_insert_ivf_pichdr (zlen f))) with 12; lia.
Qed.

(** C35: the IVF files the encoder side writes ([vp8_insert_ivf_seqhdr], then
    [vp8_insert_ivf_pichdr] and the data for each frame) are read back exactly
    by [vpx_parse]: [RET_OK], the same picture size and, as contents of the
    parser's frames, the same frames in the same order.  No frame is empty, the
    file is shorter than 2 GB, memory is not refused, and [char] is unsigned, as
    on ARM (signed it is [vpx_parse_signed_char]). *)
Theorem vpx_parse_ivf_roundtrip calloc_ok w h rate frames :
  (∀ n, calloc_ok n = true) → 0 ≤ w < 2 ^ 16 → 0 ≤ h < 2 ^ 16 →
  Forall (λ f, f ≠ []) frames → zlen (ivf_file w h rate frames) < 2 ^ 31 →
  let file := ivf_file w h rate frames in
  ∃ p', vpx_parse calloc_ok false (length frames)
      (Some (Parser [] 0 FNull 0 0 file (zlen file) 0 0 0)) = Done (RET_OK, Some p') ∧
    frame_bytes file <$> p_queue p' = frames ∧ p_width p' = w ∧ p_height p' = h.
Proof.
  intros Hok Hw Hh Hne Hsz file. fold file in Hsz.
  assert (Hlen : zlen file = 32 + zlen (ivf_body frames)) by (unfold file, ivf_file; by rewrite zlen_app).
  pose proof (zlen_nonneg (ivf_body frames)).
  unfold vpx_parse. cbn [p_size p_virt]. unfold sizeof_ivf_header_t.
  rewrite (proj2 (Z.ltb_ge _ _)) by lia.
  replace (strncmp_ne DKIF file 0 5) with (Done false) by reflexivity. rewrite bind_done.
  replace (strncmp_ne VP80 file 8 4) with (Done false) by reflexivity. rewrite !bind_done.
  assert (Hb : ∀ i, 0 ≤ i < 32 → load_char false file i = Done (byte_at (vp8_insert_ivf_seqhdr w h rate) i)).
  { intros i Hi. rewrite load_char_ok by lia. unfold char_val. cbn [andb]. f_equal.
    unfold byte_at, file, ivf_file. rewrite !nthz_lookup by lia.
    rewrite lookup_app_l by (cbn [length vp8_insert_ivf_seqhdr]; lia). done. }
  rewrite !Hb by lia. rewrite !bind_done.
  match goal with |- context [set_resolution ?a ?b] =>
    replace a with w; [replace b with h|] end;
    [|symmetry; apply (le16_pair h); lia|symmetry; apply (le16_pair w); lia].
  destruct (vpx_loop_ivf calloc_ok frames (length frames)
    (set_resolution w h (Parser [] 0 FNull 0 0 file (zlen file) 0 0 0))
    (vp8_insert_ivf_seqhdr w h rate) 0) as (p' & E & Hq & Hw' & Hh'); try done.
  { pose proof (zlen_ivf_body frames Hne). cbn [p_frame_cnt set_resolution]. lia. }
  replace (zlen file - _) with (zlen (ivf_body frames)) by (rewrite Hlen; cbn; lia).
  change (zlen (vp8_insert_ivf_seqhdr w h rate)) with (4 + 2 + 2 + 4 + 2 + 2 + 4 + 4 + 4 + 4) in E.
  rewrite E, bind_done. exists p'. split_and!; done.
Qed.

Lemma vpx_parse_ivf_roundtrip_witness :
  let file := ivf_file 320 240 30 [[1; 2; 3]; [4]] in
  ∃ p', vpx_parse (λ _, true) false 2 (Some (Parser [] 0 FNull 0 0 file (zlen file) 0 0 0)) =
      Done (RET_OK, Some p') ∧
    frame_bytes file <$> p_queue p' = [[1; 2; 3]; [4]] ∧ p_width p' = 320 ∧ p_height p' = 240.
Proof.
  apply (vpx_parse_ivf_roundtrip (λ _, true) 320 240 30 [[1; 2; 3]; [4]]);
    [done|lia|lia|repeat constructor; done|vm_compute; done].
Defined.

(** A size field of 0xFFFFFFF4 is -12 once summed in [int]s: the header is
    skipped and the "frame" steps back over it, for ever. *)
Definition vpx_hang : list Z := vp8_insert_ivf_seqhdr 16 16 30 ++ vp8_insert_ivf_pichdr 4294967284 ++ [0].

Lemma vpx_loop_hangs calloc_ok fuel : ∀ p idx,
  p_virt p = vpx_hang → vpx_loop calloc_ok false fuel p 32 13 idx = NoFuel.
Proof.
  induction fuel as [|fuel IH]; intros p idx Hv; [done|].
  cbn [vpx_loop]. change (sizeof_ivf_frame_header_t <? 13) with true. cbn iota. rewrite Hv.
  replace (char_int_add false vpx_hang 32) with (Done (-12)) by (vm_compute; reflexivity).
  rewrite bind_done. apply IH. unfold pitcher_parser_push_new_frame. by destruct (calloc_ok _).
Qed.

Lemma vpx_parse_hangs calloc_ok fuel :
  vpx_parse calloc_ok false fuel (Some (Parser [] 0 FNull 0 0 vpx_hang 45 0 0 0)) = NoFuel.
Proof.
  unfold vpx_parse. cbn [p_size p_virt].
  replace (strncmp_ne DKIF vpx_hang 0 5) with (Done false) by reflexivity.
  replace (strncmp_ne VP80 vpx_hang 8 4) with (Done false) by reflexivity.
  rewrite !load_char_ok by (vm_compute; done).
  change (45 <? sizeof_ivf_header_t) with false. rewrite !bind_done.
  change sizeof_ivf_header_t with 32. change (45 - 32) with 13.
  rewrite vpx_loop_hangs; done.
Qed.

(** Where plain [char] is signed, a frame of 128 bytes is not delivered. *)
Lemma vpx_parse_signed_char :
  vpx_parse (λ _, true) true 2 (Some (Parser [] 0 FNull 0 0
      (ivf_file 16 16 30 [repeat 0 128; [1]]) 185 0 0 0)) ≠
  vpx_parse (λ _, true) false 2 (Some (Parser [] 0 FNull 0 0
      (ivf_file 16 16 30 [repeat 0 128; [1]]) 185 0 0 0)).
Proof. vm_compute. discriminate. Qed.

(** [rcv_parse_header] reads the header without looking at the file's size. *)
Lemma vc1l_parse_short calloc_ok fuel :
  vc1l_parse calloc_ok false fuel (Some (Parser [] 0 FNull 0 0 [1; 2; 3] 3 0 0 0)) = UB.
Proof. reflexivity. Qed.
