(* ===== verification/H264.v ===== *)
(** * h264_parse.c: the H.264 call-back of the start-code scanner

    A sequence parameter set is parsed when the NAL unit behind it shows up (its
    end is known then): the C code remembers it in a static pointer, here
    [sps_ptr].  Slice headers decide whether a slice opens a new picture;
    [slice_boundary] is that decision, which pairs the two fields of an
    interlaced picture.  [malloc] of the NAL buffers is taken to succeed. *)

From S2P Require Import Prelude Misc Bitstream Parser.

(* C: pitcher/h264_parse.c h264_parse_t 22-33 *)
Record h264_parse_t := H264 {
  header_cnt : Z;
  config_found : Z;
  max_frame_num : Z;
  frame_mbs_only_flag : Z;
  tf_found : Z;
  bf_found : Z;
  pre_frame_num : Z;
  cur_frame_num : Z;
  frame_cnt : Z
}.

(** [static uint8_t *psps]: NULL, an offset in the file being parsed, or a
    pointer into a file parsed before. *)
(* C: pitcher/h264_parse.c h264_check_frame 225-225 *)
Inductive sps_ptr := SpsNull | SpsAt (offset : Z) | SpsStale.

Definition when_ {S} (b : bool) (m : M S unit) : M S unit := if b then m else mret tt.
Definition drop_ {S A} (m : M S A) : M S unit := _ ← m; mret tt.

(* C: pitcher/h264_parse.c scaling_list 47-58 *)
Fixpoint scaling_list_loop (n : nat) (first : bool) (last_scale next_scale : Z) : BM unit :=
  match n with
  | O => mret tt
  | S n' =>
      '(next_scale, stop) ←
        (if negb (next_scale =? 0) then
           delta ← bs_read_svlc;
           let next_scale := Z.land (u32 (last_scale + delta + 256)) 255 in
           mret (next_scale, first && (next_scale =? 0))
         else mret (next_scale, false));
      if (stop : bool) then mret tt
      else
        let scaling_val := if negb (next_scale =? 0) then next_scale else last_scale in
        scaling_list_loop n' false (u8 scaling_val) next_scale
  end.

(* C: pitcher/h264_parse.c scaling_list *)
Definition scaling_list (idx : Z) : BM unit :=
  scaling_list_loop (if idx <? 6 then 16%nat else 64%nat) true 8 8.

(* C: pitcher/h264_parse.c parse_sps_info 93-98 *)
Fixpoint scaling_matrix (n : nat) (i : Z) : BM unit :=
  match n with
  | O => mret tt
  | S n' =>
      value ← bs_read_flag;
      _ ← when_ (negb (value =? 0)) (scaling_list i);
      scaling_matrix n' (i + 1)
  end.

(** [for (i = 0; i < value; i++)], compared unsigned; every turn reads a code. *)
(* C: pitcher/h264_parse.c parse_sps_info 111-113 *)
Fixpoint ref_frame_offsets (fuel : nat) (i value : Z) : BM unit :=
  if i <? value then
    match fuel with
    | O => lift NoFuel
    | S fuel' => _ ← bs_read_svlc; ref_frame_offsets fuel' (u32 (i + 1)) value
    end
  else mret tt.

(** The fields only high profiles have. *)
(* C: pitcher/h264_parse.c parse_sps_info 81-101 *)
Definition parse_sps_high (profile_idc : Z) : BM unit :=
  when_ (100 <=? profile_idc)
    (chroma_format_idc ← bs_read_uvlc;
     _ ← when_ (chroma_format_idc =? 3) (drop_ bs_read_flag);
     _ ← bs_read_uvlc;
     _ ← bs_read_uvlc;
     _ ← bs_read_flag;
     value ← bs_read_flag;
     when_ (negb (value =? 0))
       (_ ← lift (assert_ (negb (chroma_format_idc =? 3)));
        scaling_matrix 8 0)).

(* C: pitcher/h264_parse.c parse_sps_info 105-114 *)
Definition parse_sps_poc : BM unit :=
  pic_order_cnt_type ← bs_read_uvlc;
  if pic_order_cnt_type =? 0 then drop_ bs_read_uvlc
  else
    when_ (pic_order_cnt_type =? 1)
      (_ ← bs_read_flag;
       _ ← bs_read_svlc;
       _ ← bs_read_svlc;
       value ← bs_read_uvlc;
       pbs ← get;
       ref_frame_offsets (bs_fuel pbs) 0 value).

(* C: pitcher/h264_parse.c parse_sps_info 128-134 *)
Definition parse_sps_crop : BM unit :=
  value ← bs_read_flag;
  when_ (negb (value =? 0))
    (_ ← bs_read_uvlc; _ ← bs_read_uvlc; _ ← bs_read_uvlc; drop_ bs_read_uvlc).

Definition set_sps (max_num mbs_only : Z) (info : h264_parse_t) : h264_parse_t :=
  H264 (header_cnt info) (config_found info) max_num mbs_only (tf_found info) (bf_found info)
    (pre_frame_num info) (cur_frame_num info) (frame_cnt info).

(* C: pitcher/h264_parse.c parse_sps_info *)
Definition parse_sps_info (info : h264_parse_t) : BM h264_parse_t :=
  profile_idc ← bs_read_code 8;
  _ ← bs_read_flag; _ ← bs_read_flag; _ ← bs_read_flag;
  _ ← bs_read_flag; _ ← bs_read_flag; _ ← bs_read_flag;
  _ ← bs_read_code 2;
  _ ← bs_read_code 8;
  _ ← bs_read_uvlc;
  _ ← parse_sps_high profile_idc;
  value ← bs_read_uvlc;
  _ ← lift (defined (u32 (value + 4) <? 32));
  let max_num := u32 (Z.shiftl 1 (u32 (value + 4))) in
  _ ← parse_sps_poc;
  _ ← bs_read_uvlc;
  _ ← bs_read_flag;
  _ ← bs_read_uvlc;
  _ ← bs_read_uvlc;
  mbs_only ← bs_read_flag;
  _ ← when_ (mbs_only =? 0) (drop_ bs_read_flag);
  _ ← bs_read_flag;
  _ ← parse_sps_crop;
  _ ← bs_read_flag;
  mret (set_sps max_num mbs_only info).

(** [while (info->max_frame_num >> i) i++;] *)
(* C: pitcher/h264_parse.c parse_slice_header_info 160-162 *)
Fixpoint frame_num_bits (fuel : nat) (max_num i : Z) : outcome Z :=
  _ ← defined (i <? 32);
  if Z.shiftr max_num i =? 0 then Done i
  else match fuel with O => NoFuel | S fuel' => frame_num_bits fuel' max_num (i + 1) end.

(** What a slice header says about the picture structure. *)
(* C: pitcher/h264_parse.c parse_slice_header_info 173-204 *)
Definition slice_boundary (info : h264_parse_t) (first_mb_in_slice frame_num field_pic_flag
    bottom_field_flag : Z) : bool * h264_parse_t :=
  if first_mb_in_slice =? 0 then
    let pre := if frame_cnt info =? 0 then u32 (-1) else cur_frame_num info in
    let upd tf bf := H264 (header_cnt info) (config_found info) (max_frame_num info)
      (frame_mbs_only_flag info) tf bf pre frame_num (u32 (frame_cnt info + 1)) in
    if negb (frame_mbs_only_flag info =? 0) then (true, upd (tf_found info) (bf_found info))
    else if field_pic_flag =? 0 then (true, upd (tf_found info) (bf_found info))
    else
      let eq := bf_found info =? tf_found info in
      let tf := if eq then 0 else tf_found info in
      let bf := if eq then 0 else bf_found info in
      let info' := if negb (bottom_field_flag =? 0) then upd tf 1 else upd 1 bf in
      (eq || negb (frame_num =? pre), info')
  else (false, info).

(* C: pitcher/h264_parse.c parse_slice_header_info *)
Definition parse_slice_header_info (info : h264_parse_t) (idr_flag : bool)
    : BM (bool * h264_parse_t) :=
  first_mb_in_slice ← bs_read_uvlc;
  _ ← bs_read_uvlc;
  _ ← bs_read_uvlc;
  i ← lift (frame_num_bits 32 (max_frame_num info) 0);
  frame_num ← bs_read_code (u32 (i - 1));
  '(field_pic_flag, bottom_field_flag) ←
    (if frame_mbs_only_flag info =? 0 then
       field_pic_flag ← bs_read_flag;
       if negb (field_pic_flag =? 0) then
         bottom_field_flag ← bs_read_flag; mret (field_pic_flag, bottom_field_flag)
       else mret (field_pic_flag, 0)
     else mret (0, 0));
  let r := slice_boundary info first_mb_in_slice frame_num field_pic_flag bottom_field_flag in
  _ ← when_ idr_flag (drop_ bs_read_uvlc);
  mret r.

(* C: pitcher/h264_parse.c MAX_SLICE_HDR_SZ 35-35 *)
Definition MAX_SLICE_HDR_SZ : Z := 32.

(** Copying a NAL unit without its emulation bytes and running a parser on it. *)
Definition on_nal {A} (file : list Z) (off size limit : Z) (m : BM A) : outcome A :=
  nalbuf ← nal_remove_emul_bytes (drop (Z.to_nat off) file) size 1 3;
  '(a, bs) ← m (bs_init nalbuf (zlen nalbuf));
  _ ← assert_ (Z.shiftr (u32 (bs_consumed_bits bs + 7)) 3 <=? limit);
  Done a.

(* C: pitcher/h264_parse.c h264_check_frame 232-244 *)
Definition h264_finish_sps (file : list Z) (p : Z) (info : h264_parse_t) (psps : sps_ptr)
    : outcome h264_parse_t :=
  match psps with
  | SpsNull => Done info
  | SpsStale => UB
  | SpsAt off => on_nal file off (u32 (p - off)) (u32 (p - off)) (parse_sps_info info)
  end.

(* C: pitcher/h264_parse.c h264_check_frame *)
Definition h264_check_frame : check_frame_t (h264_parse_t * sps_ptr) := λ file p size st,
  let '(info, psps) := st in
  if size <? 2 then Done (PARSER_TYPE_UNKNOWN, (info, psps))
  else
    p0 ← loadz file p;
    let type := Z.land p0 31 in
    info ← h264_finish_sps file p info psps;
    if (type =? 1) || (type =? 5) then
      if header_cnt info =? 0 then Done (PARSER_TYPE_UNKNOWN, (info, SpsNull))
      else
        '(new_frame, info) ← on_nal file p (min size MAX_SLICE_HDR_SZ) MAX_SLICE_HDR_SZ
          (parse_slice_header_info info (type =? 5));
        Done (if (new_frame : bool) then PARSER_TYPE_FRAME else PARSER_TYPE_UNKNOWN, (info, SpsNull))
    else
      let configured cnt := H264 cnt 1 (max_frame_num info) (frame_mbs_only_flag info)
        (tf_found info) (bf_found info) (pre_frame_num info) (cur_frame_num info) (frame_cnt info) in
      if type =? 7 then
        Done (PARSER_TYPE_CONFIG, (configured (u32 (header_cnt info + 1)), SpsAt p))
      else if (type =? 8) || (type =? 6) then
        Done (PARSER_TYPE_CONFIG, (configured (header_cnt info), SpsNull))
      else Done (PARSER_TYPE_UNKNOWN, (info, SpsNull)).

(* C: pitcher/h264_parse.c h264_scode 270-280 *)
Definition h264_scode : pitcher_parser_scode (h264_parse_t * sps_ptr) :=
  Scode 1 16777215 3 4 1 4294967295 0 (Some h264_check_frame) 36.

(** The static pointer survives the parse; what it points to does not. *)
Definition sps_after (psps : sps_ptr) : sps_ptr :=
  match psps with SpsAt _ => SpsStale | _ => psps end.

(* C: pitcher/h264_parse.c h264_parse *)
Definition h264_parse (calloc_ok : nat → bool) (priv_ok : bool) (psps : sps_ptr)
    (p : option pitcher_parser) : outcome (Z * option pitcher_parser * sps_ptr) :=
  '(ret, p, st) ← pitcher_parse_startcode calloc_ok priv_ok
    (H264 0 0 0 0 0 0 0 0 0, psps) p h264_scode;
  Done (ret, p, sps_after (snd st)).

(** ** The parsers terminate *)
Section termination.
Context (B : list Z) (L : Z).











End termination.






(** ** What the parameter sets and slice headers say

    The syntax of the H.264 standard (7.3.2.1.1 and 7.3.3), as an encoder
    writes it; the parsers recover the fields this program uses. *)

Inductive poc_syntax :=
  | Poc0 (log2_max_lsb_minus4 : Z)
  | Poc1 (always_zero : bool) (non_ref top_bottom : Z) (ref_frames : list Z)
  | Poc2.

Record high_syntax := High {
  hi_chroma_format_idc : Z;
  hi_separate_planes : bool;
  hi_bit_depth_luma : Z;
  hi_bit_depth_chroma : Z;
  hi_bypass : bool;
  hi_matrix : option (list (option (list Z)))
}.

Record sps_syntax := Sps {
  s_profile_idc : Z;
  s_c0 : bool; s_c1 : bool; s_c2 : bool; s_c3 : bool; s_c4 : bool; s_c5 : bool;
  s_level_idc : Z;
  s_id : Z;
  s_high : high_syntax;
  s_log2_max_frame_num_minus4 : Z;
  s_poc : poc_syntax;
  s_max_ref_frames : Z;
  s_gaps : bool;
  s_width : Z;
  s_height : Z;
  s_frame_mbs_only : bool;
  s_mbaff : bool;
  s_direct_8x8 : bool;
  s_crop : option (Z * Z * Z * Z);
  s_vui : bool
}.

(** A scaling list (7.3.2.1.1.1) is written as the differences of its entries up
    to the one that makes the next entry 0, from where the last one repeats. *)
Definition scaling_bits (l : option (list Z)) : list bool :=
  match l with Some deltas => true :: concat (se <$> deltas) | None => [false] end.

Fixpoint deltas_ok (n : nat) (last : Z) (deltas : list Z) : Prop :=
  match n, deltas with
  | O, _ => deltas = []
  | S _, [] => False
  | S n, d :: deltas =>
      -128 ≤ d ≤ 127 ∧
      let next := (last + d + 256) mod 256 in
      if next =? 0 then deltas = [] else deltas_ok n next deltas
  end.

(** The lists of a scaling matrix from number [i] on: six of 4x4, then 8x8. *)
Fixpoint lists_ok (i : Z) (ls : list (option (list Z))) : Prop :=
  match ls with
  | [] => True
  | l :: ls =>
      match l with Some deltas => deltas_ok (if i <? 6 then 16 else 64) 8 deltas | None => True end ∧ lists_ok (i + 1) ls
  end.

Definition matrix_bits (m : option (list (option (list Z)))) : list bool :=
  match m with Some ls => true :: concat (scaling_bits <$> ls) | None => [false] end.

Definition high_bits (h : high_syntax) : list bool :=
  ue (hi_chroma_format_idc h) ++
  (if hi_chroma_format_idc h =? 3 then [hi_separate_planes h] else []) ++
  ue (hi_bit_depth_luma h) ++ ue (hi_bit_depth_chroma h) ++
  hi_bypass h :: matrix_bits (hi_matrix h).

(** The profiles whose parameter sets say more of the format (7.3.2.1.1). *)
Definition high_profiles : list Z := [100; 110; 122; 244; 44; 83; 86; 118; 128; 138; 139; 134; 135].
Definition is_high (s_profile : Z) : bool := existsb (Z.eqb s_profile) high_profiles.

Definition poc_bits (c : poc_syntax) : list bool :=
  match c with
  | Poc0 lsb => ue 0 ++ ue lsb
  | Poc1 z a b l => ue 1 ++ z :: se a ++ se b ++ ue (zlen l) ++ concat (se <$> l)
  | Poc2 => ue 2
  end.

Definition crop_bits (c : option (Z * Z * Z * Z)) : list bool :=
  match c with
  | Some (l, r, t, b) => true :: ue l ++ ue r ++ ue t ++ ue b
  | None => [false]
  end.

Definition sps_bits (s : sps_syntax) : list bool :=
  ubits 8 (s_profile_idc s) ++
  s_c0 s :: s_c1 s :: s_c2 s :: s_c3 s :: s_c4 s :: s_c5 s :: ubits 2 0 ++
  ubits 8 (s_level_idc s) ++ ue (s_id s) ++
  (if is_high (s_profile_idc s) then high_bits (s_high s) else []) ++
  ue (s_log2_max_frame_num_minus4 s) ++ poc_bits (s_poc s) ++
  ue (s_max_ref_frames s) ++ s_gaps s :: ue (s_width s) ++ ue (s_height s) ++
  s_frame_mbs_only s :: (if s_frame_mbs_only s then [] else [s_mbaff s]) ++
  s_direct_8x8 s ::
  crop_bits (s_crop s) ++ [s_vui s].

Definition ue_ok (v : Z) : Prop := 0 ≤ v < 2 ^ 32 - 1.
Definition se_ok (e : Z) : Prop := - 2 ^ 31 < e < 2 ^ 31.

Definition poc_ok (c : poc_syntax) : Prop :=
  match c with
  | Poc0 lsb => ue_ok lsb
  | Poc1 _ a b l => se_ok a ∧ se_ok b ∧ zlen l < 2 ^ 32 - 1 ∧ Forall se_ok l
  | Poc2 => True
  end.

Definition high_ok (h : high_syntax) : Prop :=
  ue_ok (hi_chroma_format_idc h) ∧ ue_ok (hi_bit_depth_luma h) ∧ ue_ok (hi_bit_depth_chroma h) ∧
  match hi_matrix h with
  | Some ls => zlen ls = (if hi_chroma_format_idc h =? 3 then 12 else 8) ∧ lists_ok 0 ls
  | None => True
  end.

Definition crop_ok (c : option (Z * Z * Z * Z)) : Prop :=
  match c with Some (l, r, t, b) => ue_ok l ∧ ue_ok r ∧ ue_ok t ∧ ue_ok b | None => True end.

(** [log2_max_frame_num_minus4] is at most 12 in the standard. *)
Record sps_ok (s : sps_syntax) : Prop := {
  ok_profile : 0 ≤ s_profile_idc s < 256;
  ok_level : 0 ≤ s_level_idc s < 256;
  ok_id : ue_ok (s_id s);
  ok_high : high_ok (s_high s);
  ok_log2 : 0 ≤ s_log2_max_frame_num_minus4 s ≤ 12;
  ok_poc : poc_ok (s_poc s);
  ok_ref : ue_ok (s_max_ref_frames s);
  ok_width : ue_ok (s_width s);
  ok_height : ue_ok (s_height s);
  ok_crop : crop_ok (s_crop s)
}.

(** What the program reads: not the three profiles of [high_profiles] below 100
    (it takes them for profiles without the format fields), no number from 100
    on that is not one of them, and no scaling matrix in 4:4:4. *)
Definition sps_read (s : sps_syntax) : Prop :=
  s_profile_idc s ∉ [44; 83; 86] ∧ (100 ≤ s_profile_idc s → is_high (s_profile_idc s) = true) ∧
  (hi_chroma_format_idc (s_high s) = 3 → hi_matrix (s_high s) = None).

Lemma sps_read_high s : sps_read s → is_high (s_profile_idc s) = (100 <=? s_profile_idc s).
Proof.
  intros (H1 & H2 & _). destruct (Z.leb_spec 100 (s_profile_idc s)); [auto|]. unfold is_high.
  apply not_true_is_false. rewrite existsb_exists. intros (x & Hx & <-%Z.eqb_eq).
  apply H1. cbn in Hx. rewrite !elem_of_cons. lia.
Qed.

Section syntax.
Context (B : list Z) (L : Z).
Abbreviation upcoming := (upcoming B L).

(** Reading a part of the syntax: the bits [l] are consumed. *)
Definition consumes (l : list bool) (m : BM unit) : Prop :=
  ∀ rest s, upcoming (l ++ rest) s → ∃ s', m s = Done (tt, s') ∧ upcoming rest s'.

Lemma consumes_nothing : consumes [] (mret tt).
Proof. intros rest s H. by exists s. Qed.

Lemma consumes_drop {A} l (m : BM A) :
  (∀ rest s, upcoming (l ++ rest) s → ∃ a s', m s = Done (a, s') ∧ upcoming rest s') →
  consumes l (drop_ m).
Proof.
  intros Hm rest s H. destruct (Hm rest s H) as (a & s' & E & H').
  exists s'. split; [|done]. unfold drop_. by mstep E.
Qed.

Lemma consumes_bind l k (m : BM unit) (n : BM unit) :
  consumes l m → consumes k n → consumes (l ++ k) (_ ← m; n).
Proof.
  intros Hm Hn rest s H. rewrite <- app_assoc in H.
  destruct (Hm _ s H) as (s1 & E & H1). destruct (Hn rest s1 H1) as (s2 & E2 & H2).
  exists s2. split; [|done]. by mstep E.
Qed.

Lemma consumes_ue v : ue_ok v → consumes (ue v) (drop_ bs_read_uvlc).
Proof. intros Hv. apply consumes_drop. intros rest s H. exists v. by apply (read_ue B L). Qed.

Lemma consumes_flag b : consumes [b] (drop_ bs_read_flag).
Proof. apply consumes_drop. intros rest s H. exists (Z.b2z b). by apply (read_flag B L). Qed.

Lemma read_part l (m : BM unit) rest s :
  consumes l m → upcoming (l ++ rest) s → ∃ s', m s = Done (tt, s') ∧ upcoming rest s'.
Proof. intros Hm. apply Hm. Qed.

Lemma consumes_when (c : bool) l (m : BM unit) :
  consumes l m → consumes (if c then l else []) (when_ c m).
Proof. destruct c; [done|]. intros _. apply consumes_nothing. Qed.

(** Once an entry is 0 a scaling list is not read any further. *)
Lemma consumes_repeated n : ∀ first last, consumes [] (scaling_list_loop n first last 0).
Proof.
  induction n as [|n IH]; intros first last rest s H; [by exists s|].
  cbn [scaling_list_loop Z.eqb negb]. rewrite (M_bind_done _ _ s (0, false) s) by done. by apply IH.
Qed.

Lemma consumes_scaling_loop n : ∀ first last next deltas, 0 ≤ last < 256 → next ≠ 0 → deltas_ok n last deltas →
  consumes (concat (se <$> deltas)) (scaling_list_loop n first last next).
Proof.
  induction n as [|n IH]; intros first last next deltas Hl Hn Hd.
  { destruct deltas; [apply consumes_nothing|done]. }
  destruct deltas as [|d deltas]; [done|]. destruct Hd as [Hd Hds]. cbn zeta in Hds.
  intros rest s H. rewrite fmap_cons in H. cbn [concat] in H. rewrite <- app_assoc in H.
  cbn [scaling_list_loop]. rewrite (proj2 (Z.eqb_neq next 0)) by done. cbn [negb].
  assert (Hse : se_ok d) by (unfold se_ok; lia).
  destruct (read_se B L d _ s Hse H) as (s1 & E1 & H1).
  set (nx := (last + d + 256) mod 256) in *.
  assert (Enx : Z.land (u32 (last + d + 256)) 255 = nx).
  { rewrite u32_small by lia. change 255 with (Z.ones 8). by rewrite Z.land_ones by lia. }
  erewrite M_bind_done by (erewrite M_bind_done by exact E1; rewrite Enx; reflexivity).
  cbn beta iota. destruct (Z.eqb_spec nx 0) as [E0|E0].
  - rewrite Hds, E0 in *. rewrite andb_true_r. cbn [negb fmap list_fmap concat app] in *.
    destruct first; [by exists s1|]. apply (consumes_repeated n false (u8 last) rest s1 H1).
  - rewrite andb_false_r. cbn [negb]. assert (Hnx : 0 ≤ nx < 256) by (subst nx; apply Z.mod_pos_bound; lia).
    unfold u8. rewrite Z.mod_small by (change (2 ^ 8) with 256; lia).
    exact (IH false nx nx deltas Hnx E0 Hds rest s1 H1).
Qed.

Lemma consumes_lists ls : ∀ i, lists_ok i ls →
  consumes (concat (scaling_bits <$> ls)) (scaling_matrix (length ls) i).
Proof.
  induction ls as [|l ls IH]; intros i Hls; [apply consumes_nothing|]. destruct Hls as [Hl Hls].
  intros rest s H. rewrite fmap_cons in H. cbn [concat] in H. rewrite <- app_assoc in H.
  cbn [length scaling_matrix]. destruct l as [deltas|]; cbn [scaling_bits app] in H.
  - pstep (read_flag B L) H. cbn [Z.b2z Z.eqb negb when_].
    eapply read_part in H as (s2 & E2 & H); [|apply (consumes_scaling_loop (if i <? 6 then 16%nat else 64%nat) true 8 8); [lia|done|exact Hl]].
    unfold scaling_list. mstep E2. by apply IH.
  - pstep (read_flag B L) H. cbn [Z.b2z Z.eqb negb when_].
    erewrite (M_bind_done _ _ _ tt) by reflexivity. by apply IH.
Qed.

Lemma consumes_matrix h : high_ok h → (hi_chroma_format_idc h = 3 → hi_matrix h = None) →
  consumes (matrix_bits (hi_matrix h)) (value ← bs_read_flag;
    when_ (negb (value =? 0)) (_ ← lift (assert_ (negb (hi_chroma_format_idc h =? 3))); scaling_matrix 8 0)).
Proof.
  intros (_ & _ & _ & Hm) H3 rest s H. destruct (hi_matrix h) as [ls|]; cbn [matrix_bits app] in H.
  - destruct (Z.eqb_spec (hi_chroma_format_idc h) 3) as [E|]; [by apply H3 in E|]. destruct Hm as [Hn Hls].
    pstep (read_flag B L) H. cbn [Z.b2z Z.eqb negb when_].
    erewrite (M_bind_done _ _ _ tt) by reflexivity. replace 8%nat with (length ls) by (unfold zlen in Hn; lia). by apply consumes_lists.
  - pstep (read_flag B L) H. by exists s0.
Qed.

Lemma consumes_high s : high_ok (s_high s) → sps_read s →
  consumes (if is_high (s_profile_idc s) then high_bits (s_high s) else []) (parse_sps_high (s_profile_idc s)).
Proof.
  intros Hh Hr. rewrite sps_read_high by done. pose proof Hh as (H1 & H2 & H3 & _). destruct Hr as (_ & _ & H4).
  unfold parse_sps_high.
  apply consumes_when. intros rest t H. unfold high_bits in H. rewrite <- !app_assoc in H. cbn [app] in H.
  pstep (read_ue B L) H.
  eapply read_part in H as (t1 & E1 & H);
    [|apply consumes_when, consumes_flag].
  mstep E1. pstep (read_ue B L) H. pstep (read_ue B L) H.
  pstep (read_flag B L) H. by apply (consumes_matrix (s_high s)).
Qed.
Lemma consumes_ref_frames l : ∀ fuel i,
  Forall se_ok l → 0 ≤ i → i + zlen l < 2 ^ 32 - 1 → (length l ≤ fuel)%nat →
  consumes (concat (se <$> l)) (ref_frame_offsets fuel i (i + zlen l)).
Proof.
  induction l as [|e l IH]; intros fuel i Hl Hi H32 Hf.
  - intros rest s H. exists s. split; [|done]. unfold zlen. cbn [length]. rewrite Z.add_0_r.
    destruct fuel; cbn [ref_frame_offsets]; by rewrite Z.ltb_irrefl.
  - destruct fuel as [|fuel]; [cbn in Hf; lia|]. apply Forall_cons in Hl as [He Hl].
    rewrite zlen_cons in *. pose proof (zlen_nonneg l) as Hz. intros rest s H.
    rewrite fmap_cons in H. cbn [concat] in H. rewrite <- app_assoc in H.
    cbn [ref_frame_offsets]. rewrite (proj2 (Z.ltb_lt _ _)) by lia.
    pstep (read_se B L) H. rewrite u32_small by lia.
    replace (i + (1 + zlen l)) with (i + 1 + zlen l) by lia.
    apply IH; try done; try lia. cbn in Hf. lia.
Qed.

(** The loop's bound is the bits left; every offset takes one at least. *)
Lemma se_bits_length l : (length l ≤ length (concat (se <$> l)))%nat.
Proof.
  induction l as [|e l IH]; [done|]. rewrite fmap_cons. cbn [concat length]. rewrite length_app.
  pose proof (zlen_ubits (Z.to_nat (golomb_len (se_payload e))) (se_payload e)).
  pose proof (golomb_len_pos (se_payload e)). unfold se, zlen in *. lia.
Qed.

Lemma upcoming_fuel l s : upcoming l s → (length l ≤ bs_fuel s)%nat.
Proof.
  intros (p & Hs & _ & Hl). unfold bs_fuel. rewrite (at_alloc _ _ _ _ Hs).
  pose proof (bs_at_range _ _ _ _ Hs). unfold zlen in Hl. lia.
Qed.

Lemma consumes_poc c : poc_ok c → consumes (poc_bits c) parse_sps_poc.
Proof.
  intros Hc rest s H. unfold parse_sps_poc. destruct c as [lsb|z a b l|]; cbn [poc_bits] in H;
    rewrite <- ?app_assoc in H.
  - pstep (read_ue B L) H. by apply (consumes_ue lsb).
  - destruct Hc as (Ha & Hb & Hl & Hf). pose proof (zlen_nonneg l) as Hz.
    pstep (read_ue B L) H. cbn [Z.eqb Pos.eqb when_].
    cbn [app] in H.
    pstep (read_flag B L) H. rewrite <- !app_assoc in H.
    pstep (read_se B L) H. pstep (read_se B L) H. pstep (read_ue B L) H.
    rewrite (M_bind_done get _ _ s4 s4) by done.
    apply (consumes_ref_frames l (bs_fuel s4) 0); [done|lia|lia| |done].
    apply upcoming_fuel in H. rewrite length_app in H. pose proof (se_bits_length l). lia.
  - pstep (read_ue B L) H. by exists s0.
Qed.

Lemma consumes_mbaff (mbs_only mbaff : bool) :
  consumes (if mbs_only then [] else [mbaff]) (when_ (Z.b2z mbs_only =? 0) (drop_ bs_read_flag)).
Proof. destruct mbs_only; [apply consumes_nothing|apply consumes_flag]. Qed.

Lemma consumes_crop c : crop_ok c → consumes (crop_bits c) parse_sps_crop.
Proof.
  intros Hc rest s H. unfold parse_sps_crop. destruct c as [[[[l r] t] b]|]; cbn [app crop_bits] in H.
  - destruct Hc as (H1 & H2 & H3 & H4). rewrite <- !app_assoc in H.
    pstep (read_flag B L) H. cbn [Z.b2z Z.eqb negb when_].
    pstep (read_ue B L) H. pstep (read_ue B L) H. pstep (read_ue B L) H. by apply (consumes_ue b).
  - pstep (read_flag B L) H. by exists s0.
Qed.

(** A parameter set read to its end. *)
Lemma parse_sps_info_ok info sp rest s :
  sps_ok sp → sps_read sp → upcoming (sps_bits sp ++ rest) s →
  ∃ s', parse_sps_info info s =
    Done (set_sps (2 ^ (s_log2_max_frame_num_minus4 sp + 4)) (Z.b2z (s_frame_mbs_only sp)) info, s') ∧
    upcoming rest s'.
Proof.
  intros [] Hread H. unfold sps_bits in H. rewrite <- app_assoc in H. cbn [app] in H.
  unfold parse_sps_info. change 8%nat with (Z.to_nat 8) in H.
  pstep (read_code B L) H. do 6 pstep (read_flag B L) H. rewrite <- app_assoc in H.
  change 2%nat with (Z.to_nat 2) in H. pstep (read_code B L) H. rewrite <- app_assoc in H.
  pstep (read_code B L) H. rewrite <- app_assoc in H. pstep (read_ue B L) H. rewrite <- app_assoc in H.
  eapply read_part in H as (t1 & E1 & H); [|by apply consumes_high]. mstep E1.
  rewrite <- app_assoc in H. pstep (read_ue B L) H.
  erewrite M_bind_done by (unfold lift; rewrite bind_defined_true
    by (rewrite u32_small by lia; lia); reflexivity).
  rewrite <- app_assoc in H.
  eapply read_part in H as (t2 & E2 & H); [|by apply consumes_poc]. mstep E2.
  rewrite <- app_assoc in H. pstep (read_ue B L) H. cbn [app] in H. pstep (read_flag B L) H.
  rewrite <- app_assoc in H. pstep (read_ue B L) H. rewrite <- app_assoc in H. cbn [app] in H.
  pstep (read_ue B L) H. pstep (read_flag B L) H. rewrite <- app_assoc in H. cbn [app] in H.
  eapply read_part in H as (t3 & E3 & H); [|apply (consumes_mbaff (s_frame_mbs_only sp) (s_mbaff sp))].
  mstep E3. pstep (read_flag B L) H. rewrite <- app_assoc in H.
  eapply read_part in H as (t4 & E4 & H); [|by apply consumes_crop]. mstep E4. cbn [app] in H. pstep (read_flag B L) H.
  eexists. split; [|exact H]. unfold mret, M_ret.
  rewrite (u32_small (_ + 4)) by lia. rewrite Z.shiftl_1_l, u32_small; [done|].
  pose proof (pow2_le (s_log2_max_frame_num_minus4 sp + 4) 31 ltac:(lia)).
  pose proof (pow2_pos (s_log2_max_frame_num_minus4 sp + 4) ltac:(lia)). lia.
Qed.

(** A slice header. *)
Record slice_syntax := Slice {
  sl_first_mb : Z;
  sl_type : Z;
  sl_pps : Z;
  sl_frame_num : Z;
  sl_field : bool;
  sl_bottom : bool;
  sl_idr_pic_id : option Z
}.

Definition slice_bits (log2_max : Z) (mbs_only : bool) (h : slice_syntax) : list bool :=
  ue (sl_first_mb h) ++ ue (sl_type h) ++ ue (sl_pps h) ++ ubits (Z.to_nat log2_max) (sl_frame_num h) ++
  (if mbs_only then [] else sl_field h :: if sl_field h then [sl_bottom h] else []) ++
  match sl_idr_pic_id h with Some v => ue v | None => [] end.

Definition slice_ok (log2_max : Z) (h : slice_syntax) : Prop :=
  ue_ok (sl_first_mb h) ∧ ue_ok (sl_type h) ∧ ue_ok (sl_pps h) ∧
  0 ≤ sl_frame_num h < 2 ^ log2_max ∧
  match sl_idr_pic_id h with Some v => ue_ok v | None => True end.

Lemma frame_num_bits_pow2 n fuel : ∀ i,
  0 ≤ i ≤ n + 1 → n + 1 < 32 → n + 1 - i ≤ Z.of_nat fuel →
  frame_num_bits fuel (2 ^ n) i = Done (n + 1).
Proof.
  induction fuel as [|fuel IH]; intros i Hi Hn Hf; cbn [frame_num_bits];
    rewrite bind_defined_true by lia; rewrite Z.shiftr_div_pow2 by lia.
  - replace i with (n + 1) by lia. by rewrite Z.div_small by (split; [lia|apply Z.pow_lt_mono_r; lia]).
  - destruct (decide (i = n + 1)) as [->|].
    { by rewrite Z.div_small by (split; [lia|apply Z.pow_lt_mono_r; lia]). }
    rewrite <- Z.pow_sub_r by lia. pose proof (pow2_pos (n - i) ltac:(lia)).
    rewrite (proj2 (Z.eqb_neq _ _)) by lia. apply IH; lia.
Qed.

Lemma parse_slice_header_info_ok info n mbs_only h rest s :
  4 ≤ n ≤ 30 → max_frame_num info = 2 ^ n → frame_mbs_only_flag info = Z.b2z mbs_only →
  slice_ok n h → upcoming (slice_bits n mbs_only h ++ rest) s →
  ∃ s', parse_slice_header_info info (bool_decide (is_Some (sl_idr_pic_id h))) s =
    Done (slice_boundary info (sl_first_mb h) (sl_frame_num h)
      (if mbs_only then 0 else Z.b2z (sl_field h))
      (if mbs_only then 0 else if sl_field h then Z.b2z (sl_bottom h) else 0), s') ∧
    upcoming rest s'.
Proof.
  intros Hn Hmax Hmbs (H1 & H2 & H3 & H4 & H5) H. unfold slice_bits in H. rewrite <- !app_assoc in H.
  unfold parse_slice_header_info. rewrite Hmax, Hmbs. do 3 pstep (read_ue B L) H.
  erewrite M_bind_done by (unfold lift; rewrite (frame_num_bits_pow2 n) by lia; reflexivity).
  rewrite u32_small by lia. replace (n + 1 - 1) with n by lia. pstep (read_code B L) H.
  assert (∃ s4, (if Z.b2z mbs_only =? 0
     then field_pic_flag ← bs_read_flag;
          if negb (field_pic_flag =? 0) then
            bottom_field_flag ← bs_read_flag; mret (field_pic_flag, bottom_field_flag)
          else mret (field_pic_flag, 0)
     else mret (0, 0) : BM (Z * Z)) s3 =
    Done (if mbs_only then 0 else Z.b2z (sl_field h),
      if mbs_only then 0 else if sl_field h then Z.b2z (sl_bottom h) else 0, s4) ∧
    upcoming (match sl_idr_pic_id h with Some v => ue v | None => [] end ++ rest) s4) as (s4 & E4 & H').
  { destruct mbs_only; cbn [Z.b2z Z.eqb app] in *; [by exists s3|].
    pstep (read_flag B L) H. destruct (sl_field h); cbn [Z.b2z Z.eqb negb app] in *; [|by exists s4].
    pstep (read_flag B L) H. by exists s5. }
  mstep E4. destruct (sl_idr_pic_id h) as [v|]; cbn [app] in H'.
  - rewrite bool_decide_true by eauto. eapply read_part in H' as (s5 & E5 & H'); [|by apply consumes_ue].
    cbn [when_]. mstep E5. by exists s5.
  - rewrite bool_decide_false by (by intros [? ?]). by exists s4.
Qed.
End syntax.

(** C37: [parse_sps_info] recovers, from a sequence parameter set written in the
    syntax of the standard (the format fields of the high profiles with their
    scaling lists, all three picture order types, cropping; the fields in the
    range of their codes, less than 512 MB in all), [MaxFrameNum] and
    [frame_mbs_only_flag], and touches no other field.  Left out is what the
    program does not read ([sps_read]): the profiles 44, 83 and 86, whose format
    fields it skips ([sps_profile_44_misread]), numbers from 100 on that are no
    profile with these fields, and scaling matrices in 4:4:4. *)
Theorem parse_sps_info_correct info sp rest :
  sps_ok sp → sps_read sp → zlen (pack (sps_bits sp ++ rest)) < 2 ^ 29 →
  ∃ s', parse_sps_info info (reader (sps_bits sp ++ rest)) =
    Done (set_sps (2 ^ (s_log2_max_frame_num_minus4 sp + 4)) (Z.b2z (s_frame_mbs_only sp)) info, s').
Proof.
  intros Hsp Hrd Hl. apply upcoming_reader in Hl.
  destruct (parse_sps_info_ok _ _ info sp rest _ Hsp Hrd Hl) as (s' & E & _). by exists s'.
Qed.

(** A parameter set of High profile with two scaling lists and cropping; [idc]
    puts another profile in its place. *)
Definition sps_example (idc : Z) : sps_syntax :=
  Sps idc false true false false false false 30 0
    (High 1 false 0 0 false (Some [Some [2; -10]; Some [-8]; None; None; None; None; Some [0; -8]; None])) 5
    (Poc1 false (-3) 2 [1; -1]) 2 false 44 35 false true true (Some (0, 0, 0, 2)) false.

Lemma sps_example_ok idc : 0 ≤ idc < 256 → sps_ok (sps_example idc).
Proof.
  intros Hidc. split; cbn; unfold high_ok, ue_ok, se_ok; cbn; repeat split; try lia.
  repeat (apply Forall_cons_2; [lia|]). constructor.
Qed.

Lemma parse_sps_info_correct_witness :
  ∃ s', parse_sps_info (H264 1 0 0 0 0 0 0 0 0) (reader (sps_bits (sps_example 100) ++ [true])) =
    Done (H264 1 0 512 0 0 0 0 0 0, s').
Proof.
  apply (parse_sps_info_correct (H264 1 0 0 0 0 0 0 0 0) (sps_example 100) [true]);
    [apply sps_example_ok; lia| |vm_compute; done].
  split; [|split]; [|reflexivity|done]. cbn. intros Hin. rewrite !elem_of_cons, elem_of_nil in Hin. lia.
Defined.

(** The same parameter set in profile 44 (CAVLC 4:4:4 Intra), which writes the
    format fields too: the program takes [chroma_format_idc] for
    [log2_max_frame_num_minus4]. *)
Lemma sps_profile_44_misread :
  sps_ok (sps_example 44) ∧ is_high 44 = true ∧
  ∃ info' s', parse_sps_info (H264 1 0 0 0 0 0 0 0 0) (reader (sps_bits (sps_example 44) ++ [true])) = Done (info', s') ∧
    max_frame_num info' = 32 ∧ 2 ^ (s_log2_max_frame_num_minus4 (sps_example 44) + 4) = 512.
Proof.
  split_and!; [apply sps_example_ok; lia|done|]. eexists _, _.
  split_and!; [vm_compute; reflexivity|reflexivity|reflexivity].
Qed.

(** A scaling matrix in 4:4:4 (High 4:4:4 Predictive) runs into an assertion. *)
Definition sps_444 : sps_syntax :=
  Sps 244 false false false false false false 30 0 (High 3 false 0 0 false (Some (repeat None 12))) 0 Poc2 1
    false 44 35 true false true None false.

Lemma sps_444_matrix_aborts :
  sps_ok sps_444 ∧ parse_sps_info (H264 1 0 0 0 0 0 0 0 0) (reader (sps_bits sps_444 ++ [true])) = Trap.
Proof.
  split; [|vm_compute; reflexivity]. split; cbn; unfold high_ok, ue_ok; cbn; repeat split; lia.
Qed.

(** [parse_slice_header_info] reads any slice header of a stream with the
    parameter set in force: its answer is [slice_boundary] of the header's
    fields. *)
Theorem parse_slice_header_info_correct info n mbs_only h rest :
  4 ≤ n ≤ 30 → max_frame_num info = 2 ^ n → frame_mbs_only_flag info = Z.b2z mbs_only →
  slice_ok n h → zlen (pack (slice_bits n mbs_only h ++ rest)) < 2 ^ 29 →
  ∃ s', parse_slice_header_info info (bool_decide (is_Some (sl_idr_pic_id h)))
      (reader (slice_bits n mbs_only h ++ rest)) =
    Done (slice_boundary info (sl_first_mb h) (sl_frame_num h)
      (if mbs_only then 0 else Z.b2z (sl_field h))
      (if mbs_only then 0 else if sl_field h then Z.b2z (sl_bottom h) else 0), s').
Proof.
  intros Hn Hmax Hmbs Hok Hl. apply upcoming_reader in Hl.
  destruct (parse_slice_header_info_ok _ _ info n mbs_only h rest _ Hn Hmax Hmbs Hok Hl) as (s' & E & _).
  by exists s'.
Qed.

Lemma parse_slice_header_info_correct_witness :
  ∃ s', parse_slice_header_info (H264 1 1 512 0 1 0 0 7 1) false
      (reader (slice_bits 9 false (Slice 0 5 0 7 true true None) ++ [true])) =
    Done ((false, H264 1 1 512 0 1 1 7 7 2), s').
Proof.
  apply (parse_slice_header_info_correct (H264 1 1 512 0 1 0 0 7 1) 9 false
    (Slice 0 5 0 7 true true None) [true]); try done; try lia.
Defined.

(** ** Pairing fields

    A picture of an interlaced stream is a frame or two fields of opposite
    parity with the same [frame_num]; each starts with a slice at macroblock 0
    and may have more. *)
Inductive picture :=
  | PicFrame (frame_num : Z) (more : list (Z * Z * Z * Z))
  | PicFields (frame_num : Z) (bottom_first : bool) (more1 more2 : list (Z * Z * Z * Z)).

(** The slices of a picture: first macroblock, [frame_num], the two flags. *)
Definition picture_slices (p : picture) : list (Z * Z * Z * Z) :=
  match p with
  | PicFrame n more => (0, n, 0, 0) :: more
  | PicFields n bf more1 more2 =>
      ((0, n, 1, Z.b2z bf) :: more1) ++ (0, n, 1, Z.b2z (negb bf)) :: more2
  end.

Definition later_slices (l : list (Z * Z * Z * Z)) : Prop :=
  Forall (λ '(mb, _, _, _), mb ≠ 0) l.

Definition picture_ok (p : picture) : Prop :=
  match p with
  | PicFrame _ more => later_slices more
  | PicFields _ _ more1 more2 => later_slices more1 ∧ later_slices more2
  end.

(** A picture opens a frame with its first slice, and with no other. *)
Definition picture_starts (p : picture) : list bool :=
  true :: repeat false (length (picture_slices p) - 1).

Fixpoint run_slices (info : h264_parse_t) (l : list (Z * Z * Z * Z)) : list bool * h264_parse_t :=
  match l with
  | [] => ([], info)
  | (mb, n, f, b) :: l' =>
      let '(r, info) := slice_boundary info mb n f b in
      let '(rs, info) := run_slices info l' in (r :: rs, info)
  end.

Lemma run_slices_app l k info :
  run_slices info (l ++ k) =
  (fst (run_slices info l) ++ fst (run_slices (snd (run_slices info l)) k),
   snd (run_slices (snd (run_slices info l)) k)).
Proof.
  revert info. induction l as [|[[[mb n] f] b] l IH]; intros info; cbn [app run_slices fst snd].
  - by destruct (run_slices info k).
  - destruct (slice_boundary info mb n f b) as [r i1]. rewrite IH. by destruct (run_slices i1 l).
Qed.

Lemma run_later info l : later_slices l → run_slices info l = (repeat false (length l), info).
Proof.
  induction 1 as [|[[[mb n] f] b] l Hmb _ IH]; [done|]. cbn [run_slices].
  unfold slice_boundary at 1. rewrite (proj2 (Z.eqb_neq mb 0)) by done. by rewrite IH.
Qed.

(** Between pictures the two field marks agree. *)
Definition paired (info : h264_parse_t) (n : Z) : Prop :=
  frame_mbs_only_flag info = 0 ∧ bf_found info = tf_found info ∧
  0 ≤ frame_cnt info ∧ frame_cnt info + n < 2 ^ 32.

(** The first slice of a frame, and of each field of a pair. *)
Lemma boundary_frame info fn n :
  paired info (n + 2) → 0 ≤ n →
  ∃ i1, slice_boundary info 0 fn 0 0 = (true, i1) ∧ paired i1 n.
Proof.
  intros (Hm & Hf & Hc0 & Hc) Hn. unfold slice_boundary. rewrite Hm. eexists. split; [reflexivity|].
  unfold paired. cbn [frame_mbs_only_flag bf_found tf_found frame_cnt]. rewrite u32_small by lia. lia.
Qed.

(** Between the two fields of a picture one mark is set. *)
Definition half_paired (info : h264_parse_t) (fn : Z) (bf : bool) (n : Z) : Prop :=
  frame_mbs_only_flag info = 0 ∧ tf_found info = Z.b2z (negb bf) ∧ bf_found info = Z.b2z bf ∧
  cur_frame_num info = fn ∧ 0 < frame_cnt info ∧ frame_cnt info + n < 2 ^ 32.

Lemma boundary_field_1 info fn bf n :
  paired info (n + 2) → 0 ≤ n →
  ∃ i1, slice_boundary info 0 fn 1 (Z.b2z bf) = (true, i1) ∧ half_paired i1 fn bf (n + 1).
Proof.
  intros (Hm & Hf & Hc0 & Hc) Hn. unfold slice_boundary. rewrite Hm, Hf, !Z.eqb_refl.
  rewrite (u32_small (_ + 1)) by lia. unfold half_paired.
  destruct bf; eexists; (split; [reflexivity|]); cbn; lia.
Qed.

Lemma boundary_field_2 info fn bf n :
  half_paired info fn bf (n + 1) → 0 ≤ n →
  ∃ i2, slice_boundary info 0 fn 1 (Z.b2z (negb bf)) = (false, i2) ∧ paired i2 n.
Proof.
  intros (Hm & Ht & Hb & Hcur & Hc0 & Hc) Hn. unfold slice_boundary.
  rewrite Hm, Ht, Hb, Hcur, (proj2 (Z.eqb_neq (frame_cnt info) 0)), !Z.eqb_refl by lia.
  rewrite (u32_small (_ + 1)) by lia. unfold paired.
  destruct bf; eexists; (split; [reflexivity|]); cbn; lia.
Qed.

Lemma run_picture p info n :
  picture_ok p → paired info (n + 2) → 0 ≤ n →
  fst (run_slices info (picture_slices p)) = picture_starts p ∧
  paired (snd (run_slices info (picture_slices p))) n.
Proof.
  intros Hp Hi Hn. unfold picture_starts. destruct p as [fn more|fn bf more1 more2].
  - destruct (boundary_frame info fn n Hi Hn) as (i1 & E & Hi1).
    cbn [picture_slices run_slices picture_ok length] in *. rewrite E, run_later by done.
    cbn [fst snd]. split; [f_equal; f_equal; lia|done].
  - destruct Hp as [H1 H2]. destruct (boundary_field_1 info fn bf n Hi Hn) as (i1 & E1 & Hi1).
    destruct (boundary_field_2 i1 fn bf n Hi1 Hn) as (i2 & E2 & Hi2).
    cbn [picture_slices]. rewrite run_slices_app. cbn [run_slices]. rewrite E1, run_later by done.
    cbn [fst snd]. rewrite E2, run_later by done. cbn [fst snd]. split; [|done].
    rewrite length_app. cbn [length app]. f_equal.
    change (false :: repeat false ?k) with (repeat false (S k)). rewrite <- repeat_app. f_equal. lia.
Qed.

(** In an interlaced stream that mixes frames and field pairs of either
    parity order, with any number of slices each, exactly the first slice of
    every picture is answered as a new frame: the second field never is. *)
Theorem field_pairing pics info :
  Forall picture_ok pics → frame_mbs_only_flag info = 0 → bf_found info = tf_found info →
  0 ≤ frame_cnt info → frame_cnt info + 2 * zlen pics < 2 ^ 32 →
  fst (run_slices info (concat (picture_slices <$> pics))) = concat (picture_starts <$> pics).
Proof.
  intros Hp Hm Hf Hc0 Hc. assert (Hi : paired info (2 * zlen pics)) by (unfold paired; lia).
  clear Hm Hf Hc0 Hc. revert info Hi. induction Hp as [|p pics Hp _ IH]; intros info Hi; [done|].
  rewrite !fmap_cons. cbn [concat]. rewrite run_slices_app. cbn [fst].
  rewrite zlen_cons in Hi. pose proof (zlen_nonneg pics).
  replace (2 * (1 + zlen pics)) with (2 * zlen pics + 2) in Hi by lia.
  destruct (run_picture p info (2 * zlen pics) Hp Hi ltac:(lia)) as [-> Hi']. by rewrite IH.
Qed.

Lemma field_pairing_witness :
  fst (run_slices (H264 1 1 16 0 0 0 0 0 0) (concat (picture_slices <$>
    [PicFields 0 false [] [(8, 0, 1, 1)]; PicFrame 1 [(4, 1, 0, 0)]; PicFields 2 true [] []]))) =
  [true; false; false; true; false; true; false].
Proof.
  apply (field_pairing [PicFields 0 false [] [(8, 0, 1, 1)]; PicFrame 1 [(4, 1, 0, 0)];
    PicFields 2 true [] []]); try done.
  repeat constructor; done.
Defined.

(** A file whose last NAL unit is a parameter set leaves the static pointer
    set; the next file parsed in the same process dereferences it. *)
Definition sps_last : pitcher_parser :=
  Parser [] 0 FNull 0 0 [0; 0; 1; 103; 66; 0; 30] 7 0 0 0.

Lemma h264_parse_stale_sps :
  (∃ p', h264_parse (λ _, true) true SpsNull (Some sps_last) = Done (0, Some p', SpsStale)) ∧
  h264_parse (λ _, true) true SpsStale (Some sps_last) = UB.
Proof. split; [eexists|]; vm_compute; reflexivity. Qed.
