(* ===== verification/Dlist.v ===== *)
(** * list.h: circular doubly linked lists

    The heap maps the address of a [struct list_head] to its two fields; an
    access to an address that is not allocated is undefined.  [ring h l] says
    that the nodes [l], the head first, form a circle; every operation is
    specified by what it does to the rings, and touches no other node. *)

From S2P Require Import Prelude.

(** ** Memory *)

(* C: pitcher/list.h list_head 41-43 *)
Record heap := Heap {
  h_next : gmap Z Z;
  h_prev : gmap Z Z
}.

Abbreviation HM := (M heap).

Definition load_next (x : Z) : HM Z := λ h, obind (λ v, Done (v, h)) (of_option (h_next h !! x)).
Definition load_prev (x : Z) : HM Z := λ h, obind (λ v, Done (v, h)) (of_option (h_prev h !! x)).
Definition store_next (x v : Z) : HM unit := λ h,
  match h_next h !! x with
  | Some _ => Done (tt, Heap (<[x := v]> (h_next h)) (h_prev h))
  | None => UB
  end.
Definition store_prev (x v : Z) : HM unit := λ h,
  match h_prev h !! x with
  | Some _ => Done (tt, Heap (h_next h) (<[x := v]> (h_prev h)))
  | None => UB
  end.

(** ** Operations *)

(* C: pitcher/list.h INIT_LIST_HEAD *)
Definition INIT_LIST_HEAD (l : Z) : HM unit :=
  _ ← store_next l l; store_prev l l.

(* C: pitcher/list.h __list_add *)
Definition __list_add (newnode prev next : Z) : HM unit :=
  _ ← store_prev next newnode;
  _ ← store_next newnode next;
  _ ← store_prev newnode prev;
  store_next prev newnode.

(* C: pitcher/list.h list_add *)
Definition list_add (newnode head : Z) : HM unit :=
  next ← load_next head; __list_add newnode head next.

(* C: pitcher/list.h list_add_tail *)
Definition list_add_tail (newnode head : Z) : HM unit :=
  prev ← load_prev head; __list_add newnode prev head.

(* C: pitcher/list.h __list_del *)
Definition __list_del (prev next : Z) : HM unit :=
  _ ← store_prev next prev; store_next prev next.

(** [LIST_POISON1] and [LIST_POISON2] are null pointers. *)
(* C: pitcher/list.h list_del *)
Definition list_del (entry : Z) : HM unit :=
  prev ← load_prev entry; next ← load_next entry;
  _ ← __list_del prev next;
  _ ← store_next entry 0; store_prev entry 0.

(* C: pitcher/list.h list_replace *)
Definition list_replace (old newnode : Z) : HM unit :=
  next ← load_next old; _ ← store_next newnode next;
  _ ← store_prev next newnode;
  prev ← load_prev old; _ ← store_prev newnode prev;
  store_next prev newnode.

(* C: pitcher/list.h list_replace_init *)
Definition list_replace_init (old newnode : Z) : HM unit :=
  _ ← list_replace old newnode; INIT_LIST_HEAD old.

(* C: pitcher/list.h list_del_init *)
Definition list_del_init (entry : Z) : HM unit :=
  prev ← load_prev entry; next ← load_next entry;
  _ ← __list_del prev next; INIT_LIST_HEAD entry.

(* C: pitcher/list.h list_move *)
Definition list_move (l head : Z) : HM unit :=
  prev ← load_prev l; next ← load_next l;
  _ ← __list_del prev next; list_add l head.

(* C: pitcher/list.h list_move_tail *)
Definition list_move_tail (l head : Z) : HM unit :=
  prev ← load_prev l; next ← load_next l;
  _ ← __list_del prev next; list_add_tail l head.

(* C: pitcher/list.h list_is_last *)
Definition list_is_last (l head : Z) : HM bool :=
  next ← load_next l; mret (next =? head).

(* C: pitcher/list.h list_empty *)
Definition list_empty (head : Z) : HM bool :=
  next ← load_next head; mret (next =? head).

(* C: pitcher/list.h list_empty_careful *)
Definition list_empty_careful (head : Z) : HM bool :=
  next ← load_next head;
  if next =? head then prev ← load_prev head; mret (next =? prev) else mret false.

(* C: pitcher/list.h list_is_singular *)
Definition list_is_singular (head : Z) : HM bool :=
  e ← list_empty head;
  if (e : bool) then mret false
  else next ← load_next head; prev ← load_prev head; mret (next =? prev).

(* C: pitcher/list.h __list_cut_position *)
Definition __list_cut_position (l head entry : Z) : HM unit :=
  new_first ← load_next entry;
  next ← load_next head; _ ← store_next l next;
  _ ← store_prev next l;
  _ ← store_prev l entry;
  _ ← store_next entry l;
  _ ← store_next head new_first;
  store_prev new_first head.

(* C: pitcher/list.h list_cut_position *)
Definition list_cut_position (l head entry : Z) : HM unit :=
  e ← list_empty head;
  if (e : bool) then mret tt
  else
    s ← list_is_singular head;
    next ← load_next head;
    if (s : bool) && (negb (next =? entry) && negb (head =? entry)) then mret tt
    else if entry =? head then INIT_LIST_HEAD l
    else __list_cut_position l head entry.

(* C: pitcher/list.h __list_splice *)
Definition __list_splice (l prev next : Z) : HM unit :=
  first ← load_next l; last ← load_prev l;
  _ ← store_prev first prev; _ ← store_next prev first;
  _ ← store_next last next; store_prev next last.

(* C: pitcher/list.h list_splice *)
Definition list_splice (l head : Z) : HM unit :=
  e ← list_empty l;
  if (e : bool) then mret tt else next ← load_next head; __list_splice l head next.

(* C: pitcher/list.h list_splice_tail *)
Definition list_splice_tail (l head : Z) : HM unit :=
  e ← list_empty l;
  if (e : bool) then mret tt else prev ← load_prev head; __list_splice l prev head.

(* C: pitcher/list.h list_splice_init *)
Definition list_splice_init (l head : Z) : HM unit :=
  e ← list_empty l;
  if (e : bool) then mret tt
  else next ← load_next head; _ ← __list_splice l head next; INIT_LIST_HEAD l.

(* C: pitcher/list.h list_splice_tail_init *)
Definition list_splice_tail_init (l head : Z) : HM unit :=
  e ← list_empty l;
  if (e : bool) then mret tt
  else prev ← load_prev head; _ ← __list_splice l prev head; INIT_LIST_HEAD l.

(** ** Rings *)

Definition link (h : heap) (x y : Z) : Prop := h_next h !! x = Some y ∧ h_prev h !! y = Some x.

(** Each node of the list points to the one behind it, and back. *)
Fixpoint chain (h : heap) (l : list Z) : Prop :=
  match l with
  | x :: ((y :: _) as l') => link h x y ∧ chain h l'
  | _ => True
  end.

(** The head and the nodes behind it, back to the head. *)
Definition ring (h : heap) (head : Z) (l : list Z) : Prop :=
  NoDup (head :: l) ∧ chain h (head :: l ++ [head]).

Lemma chain_app h l x k : chain h (l ++ x :: k) ↔ chain h (l ++ [x]) ∧ chain h (x :: k).
Proof.
  induction l as [|a l IH]; [cbn; tauto|].
  destruct l as [|b l]; [cbn; destruct k; tauto|].
  change (link h a b ∧ chain h ((b :: l) ++ x :: k) ↔
    (link h a b ∧ chain h ((b :: l) ++ [x])) ∧ chain h (x :: k)). tauto.
Qed.

Lemma chain_cons h x y l : chain h (x :: y :: l) ↔ link h x y ∧ chain h (y :: l).
Proof. done. Qed.

(** Reading a ring from another of its nodes. *)
Lemma ring_rotate h x l1 y l2 : ring h x (l1 ++ y :: l2) ↔ ring h y (l2 ++ x :: l1).
Proof.
  unfold ring. rewrite <- !app_assoc. cbn [app].
  pose proof (chain_app h (x :: l1) y (l2 ++ [x])) as E1.
  pose proof (chain_app h (y :: l2) x (l1 ++ [y])) as E2.
  assert (NoDup (x :: l1 ++ y :: l2) ↔ NoDup (y :: l2 ++ x :: l1)) as E3.
  { rewrite !app_comm_cons, (Permutation_app_comm (x :: l1)). done. }
  cbn [app] in *. tauto.
Qed.

(** A chain does not see changes elsewhere: it reads the forward pointers of
    all its nodes but the last, the backward ones of all but the first. *)
Lemma chain_frame h h' x l y :
  chain h (x :: l ++ [y]) →
  (∀ z, z ∈ x :: l → h_next h' !! z = h_next h !! z) →
  (∀ z, z ∈ l ++ [y] → h_prev h' !! z = h_prev h !! z) →
  chain h' (x :: l ++ [y]).
Proof.
  revert x. induction l as [|a l IH]; intros x Hc Hn Hp; cbn [app] in *.
  - destruct Hc as [[H1 H2] _]. split; [|done]. split; [rewrite Hn|rewrite Hp]; set_solver.
  - rewrite chain_cons in *. destruct Hc as [[H1 H2] Hc]. split.
    + split; [rewrite Hn|rewrite Hp]; set_solver.
    + apply IH; [done| |]; intros z Hz; [apply Hn|apply Hp]; set_solver.
Qed.

(** What an operation may change: the nodes of [l]. *)
Definition only (l : list Z) (h h' : heap) : Prop :=
  (∀ z, z ∉ l → h_next h' !! z = h_next h !! z ∧ h_prev h' !! z = h_prev h !! z).

Lemma ring_only l h h' a k : ring h a k → only l h h' → (∀ z, z ∈ a :: k → z ∉ l) → ring h' a k.
Proof.
  intros [Hn Hc] Ho Hd. split; [done|]. apply chain_frame with h; [done|..];
    intros z Hz; apply Ho, Hd; set_solver.
Qed.

(** A node is allocated if both fields are. *)
Definition allocated (h : heap) (x : Z) : Prop := is_Some (h_next h !! x) ∧ is_Some (h_prev h !! x).

Lemma chain_next h x l y : chain h (x :: l ++ [y]) → h_next h !! x = Some (hd y l).
Proof. destruct l; cbn; unfold link; naive_solver. Qed.

Definition set_next (x v : Z) (h : heap) : heap := Heap (<[x := v]> (h_next h)) (h_prev h).
Definition set_prev (x v : Z) (h : heap) : heap := Heap (h_next h) (<[x := v]> (h_prev h)).

Lemma store_next_ok x v h : is_Some (h_next h !! x) → store_next x v h = Done (tt, set_next x v h).
Proof. intros [w E]. unfold store_next. by rewrite E. Qed.
Lemma store_prev_ok x v h : is_Some (h_prev h !! x) → store_prev x v h = Done (tt, set_prev x v h).
Proof. intros [w E]. unfold store_prev. by rewrite E. Qed.
Lemma load_next_ok x v h : h_next h !! x = Some v → load_next x h = Done (v, h).
Proof. intros E. unfold load_next. by rewrite E. Qed.
Lemma load_prev_ok x v h : h_prev h !! x = Some v → load_prev x h = Done (v, h).
Proof. intros E. unfold load_prev. by rewrite E. Qed.

Lemma is_Some_insert {A} (m : gmap Z A) (x y : Z) (v : A) : is_Some (m !! x) → is_Some (<[y := v]> m !! x).
Proof. intros H. destruct (decide (y = x)) as [->|]; [rewrite lookup_insert_eq|rewrite lookup_insert_ne]; eauto. Qed.

Create HintDb heap.
#[export] Hint Resolve is_Some_insert : heap.
#[export] Hint Extern 1 (is_Some (h_next (set_next _ _ _) !! _)) => unfold set_next; cbn [h_next] : heap.
#[export] Hint Extern 1 (is_Some (h_next (set_prev _ _ _) !! _)) => unfold set_prev; cbn [h_next] : heap.
#[export] Hint Extern 1 (is_Some (h_prev (set_next _ _ _) !! _)) => unfold set_next; cbn [h_prev] : heap.
#[export] Hint Extern 1 (is_Some (h_prev (set_prev _ _ _) !! _)) => unfold set_prev; cbn [h_prev] : heap.

(** Runs the next store. *)
Ltac hstore :=
  match goal with
  | |- context [mbind _ (store_next _ _)] => erewrite M_bind_done by (apply store_next_ok; eauto with heap)
  | |- context [mbind _ (store_prev _ _)] => erewrite M_bind_done by (apply store_prev_ok; eauto with heap)
  | |- context [store_next _ _ _] => rewrite store_next_ok by eauto with heap
  | |- context [store_prev _ _ _] => rewrite store_prev_ok by eauto with heap
  end.

(** The heaps [__list_add] and [__list_del] leave. *)
Definition inserted (new p n : Z) (h : heap) : heap :=
  set_next p new (set_prev new p (set_next new n (set_prev n new h))).
Definition unlinked (p n : Z) (h : heap) : heap := set_next p n (set_prev n p h).

Lemma __list_add_ok new p n h :
  allocated h new → allocated h p → allocated h n →
  __list_add new p n h = Done (tt, inserted new p n h).
Proof. intros [] [] []. unfold __list_add. by repeat hstore. Qed.

Lemma __list_del_ok p n h :
  allocated h p → allocated h n → __list_del p n h = Done (tt, unlinked p n h).
Proof. intros [] []. unfold __list_del. by repeat hstore. Qed.

Lemma INIT_LIST_HEAD_ok x h : allocated h x → INIT_LIST_HEAD x h = Done (tt, set_prev x x (set_next x x h)).
Proof. intros []. unfold INIT_LIST_HEAD. by repeat hstore. Qed.

Lemma chain_alloc h x l y :
  chain h (x :: l ++ [y]) →
  (∀ z, z ∈ x :: l → is_Some (h_next h !! z)) ∧ (∀ z, z ∈ l ++ [y] → is_Some (h_prev h !! z)).
Proof.
  revert x. induction l as [|a l IH]; intros x Hc; cbn [app] in *.
  - destruct Hc as [[H1 H2] _]. split; intros z ->%list_elem_of_singleton; eauto.
  - rewrite chain_cons in Hc. destruct Hc as [[H1 H2] Hc]. apply IH in Hc as [Hn Hp].
    split; intros z [->|Hz]%elem_of_cons; eauto.
Qed.

Lemma ring_alloc h a l x : ring h a l → x ∈ a :: l → allocated h x.
Proof.
  intros [_ Hc] Hx. apply chain_alloc in Hc as [Hn Hp]. split; [by apply Hn|apply Hp].
  apply elem_of_cons in Hx as [->|]; set_solver.
Qed.

Lemma ring_next h a l : ring h a l → h_next h !! a = Some (hd a l).
Proof. intros [_ Hc]. by apply chain_next in Hc. Qed.

Lemma ring_prev h a l : ring h a l → h_prev h !! a = Some (List.last l a).
Proof.
  intros Hr. induction l as [|x l _] using rev_ind.
  - destruct Hr as [_ [[_ H] _]]. done.
  - rewrite List.last_last. apply ring_rotate in Hr as [_ Hc]. cbn [app] in Hc.
    rewrite chain_cons in Hc. apply Hc.
Qed.

(** Linking in a node behind [p]. *)
Lemma ring_insert h p l new :
  ring h p l → new ∉ p :: l → ring (inserted new p (hd p l) h) p (new :: l).
Proof.
  intros [Hnd Hc] Hnew. assert (p ≠ new) by set_solver. split.
  { apply NoDup_cons in Hnd as [Hp Hnd]. repeat constructor; set_solver. }
  cbn [app]. unfold inserted. rewrite !chain_cons. split.
  { split; cbn; [by rewrite lookup_insert_eq|by rewrite lookup_insert_eq]. }
  destruct l as [|n l]; cbn [app hd] in *.
  - split; [|done]. split; cbn.
    + by rewrite lookup_insert_ne, lookup_insert_eq by done.
    + by rewrite lookup_insert_ne, lookup_insert_eq by done.
  - rewrite chain_cons in Hc. destruct Hc as [_ Hc]. rewrite chain_cons.
    assert (n ≠ new) by set_solver. split.
    + split; cbn; by rewrite lookup_insert_ne, lookup_insert_eq by done.
    + apply NoDup_cons in Hnd as [Hp [Hn Hnd]%NoDup_cons].
      apply chain_frame with h; [done|..]; intros z Hz; cbn.
      * rewrite !lookup_insert_ne; [done|set_solver..].
      * rewrite !lookup_insert_ne; [done|set_solver..].
Qed.

(** Taking out the node behind [p]. *)
Lemma ring_unlink h p x l : ring h p (x :: l) → ring (unlinked p (hd p l) h) p l.
Proof.
  intros [Hnd Hc]. apply NoDup_cons in Hnd as [Hp [Hx Hnd]%NoDup_cons]. split.
  { constructor; set_solver. }
  cbn [app] in Hc. rewrite chain_cons in Hc. destruct Hc as [_ Hc].
  destruct l as [|n l]; cbn [app hd] in *.
  - split; [|done]. split; cbn; by rewrite lookup_insert_eq.
  - rewrite chain_cons in Hc |- *. destruct Hc as [_ Hc]. split.
    + split; cbn; by rewrite lookup_insert_eq.
    + apply NoDup_cons in Hnd as [Hn Hnd].
      apply chain_frame with h; [done|..]; intros z Hz; cbn; rewrite lookup_insert_ne; set_solver.
Qed.

Lemma only_inserted new p n h l : new ∈ l → p ∈ l → n ∈ l → only l h (inserted new p n h).
Proof. intros H1 H2 H3 z Hz. cbn. rewrite !lookup_insert_ne by set_solver. done. Qed.
Lemma only_unlinked p n h l : p ∈ l → n ∈ l → only l h (unlinked p n h).
Proof. intros H1 H2 z Hz. cbn. rewrite !lookup_insert_ne by set_solver. done. Qed.
Lemma only_init x h l : x ∈ l → only l h (set_prev x x (set_next x x h)).
Proof. intros H1 z Hz. cbn. rewrite !lookup_insert_ne by set_solver. done. Qed.

Lemma only_trans l k h1 h2 h3 : only l h1 h2 → only k h2 h3 → l ⊆ k → only k h1 h3.
Proof.
  intros H1 H2 Hlk z Hz. destruct (H2 z Hz), (H1 z); [by intros E; apply Hz, Hlk|]. split; congruence.
Qed.
Lemma only_weaken l k h1 h2 : only l h1 h2 → l ⊆ k → only k h1 h2.
Proof. intros H1 Hlk z Hz. apply H1. by intros E; apply Hz, Hlk. Qed.

Lemma init_ring x h : ring (set_prev x x (set_next x x h)) x [].
Proof.
  split; [repeat constructor; set_solver|]. split; [|done]. split; cbn; by rewrite lookup_insert_eq.
Qed.

(** ** The operations on rings *)

Lemma hd_elem (p : Z) l : hd p l ∈ p :: l.
Proof. destruct l; cbn; set_solver. Qed.
Lemma last_elem (p : Z) l : List.last l p ∈ p :: l.
Proof.
  induction l as [|x l _] using rev_ind; [cbn; set_solver|]. rewrite List.last_last. set_solver.
Qed.

Lemma list_add_ok h a l new :
  ring h a l → new ∉ a :: l → allocated h new →
  ∃ h', list_add new a h = Done (tt, h') ∧ ring h' a (new :: l) ∧ only (new :: a :: l) h h'.
Proof.
  intros Hr Hnew Ha. pose proof (hd_elem a l) as Hh. exists (inserted new a (hd a l) h).
  split_and!; [|by apply ring_insert|apply only_inserted; set_solver].
  unfold list_add. erewrite M_bind_done by (apply load_next_ok; by apply ring_next).
  apply __list_add_ok; [done|by eapply ring_alloc; [done|set_solver]..].
Qed.

Lemma list_add_tail_ok h a l new :
  ring h a l → new ∉ a :: l → allocated h new →
  ∃ h', list_add_tail new a h = Done (tt, h') ∧ ring h' a (l ++ [new]) ∧ only (new :: a :: l) h h'.
Proof.
  intros Hr Hnew Ha. pose proof (last_elem a l) as Hh.
  exists (inserted new (List.last l a) a h). split_and!; [| |apply only_inserted; set_solver].
  - unfold list_add_tail. erewrite M_bind_done by (apply load_prev_ok; by apply ring_prev).
    apply __list_add_ok; [done|by eapply ring_alloc; [done|set_solver]..].
  - induction l as [|x l _] using rev_ind; [by apply (ring_insert h a [])|].
    rewrite List.last_last. rewrite <- app_assoc. apply ring_rotate. cbn [app].
    apply ring_rotate in Hr. apply (ring_insert h x (a :: l)); [done|set_solver].
Qed.

(** Taking a node out, wherever it stands. *)
Lemma unlink_ok h a l1 x l2 :
  ring h a (l1 ++ x :: l2) →
  ∃ p n, h_prev h !! x = Some p ∧ h_next h !! x = Some n ∧
    __list_del p n h = Done (tt, unlinked p n h) ∧
    ring (unlinked p n h) a (l1 ++ l2) ∧ only (a :: l1 ++ l2) h (unlinked p n h).
Proof.
  intros Hr. pose proof Hr as Hx. apply ring_rotate in Hx.
  exists (List.last (l2 ++ a :: l1) x), (hd x (l2 ++ a :: l1)).
  pose proof (ring_prev _ _ _ Hx) as Hp. pose proof (ring_next _ _ _ Hx) as Hn.
  assert (Hp' : List.last (l2 ++ a :: l1) x ∈ a :: l1 ++ l2).
  { destruct l1 as [|y l1 _] using rev_ind; [rewrite List.last_last; set_solver|].
    rewrite app_comm_cons, app_assoc, List.last_last. set_solver. }
  assert (Hn' : hd x (l2 ++ a :: l1) ∈ a :: l1 ++ l2) by (destruct l2; cbn; set_solver).
  split_and!; [done|done| | |by apply only_unlinked].
  { apply __list_del_ok; eapply ring_alloc; try done; set_solver. }
  destruct l1 as [|y l1 _] using rev_ind.
  - rewrite List.last_last. cbn [app] in *.
    replace (hd x (l2 ++ [a])) with (hd a l2) by (by destruct l2). by apply (ring_unlink _ _ x).
  - rewrite app_comm_cons, app_assoc, List.last_last. rewrite <- app_assoc in *. cbn [app] in *.
    rewrite <- ?app_assoc. cbn [app]. apply (ring_rotate _ a l1 y l2). apply ring_rotate in Hr. cbn [app] in Hr.
    replace (hd x (l2 ++ a :: l1 ++ [y])) with (hd y (l2 ++ a :: l1)) by (by destruct l2).
    by apply (ring_unlink _ _ x) in Hr.
Qed.

Lemma ring_nodup h a l1 x l2 : ring h a (l1 ++ x :: l2) → x ∉ a :: l1 ++ l2 ∧ NoDup (a :: l1 ++ l2).
Proof.
  intros [Hnd _]. rewrite app_comm_cons, <- (Permutation_middle (a :: l1) l2 x) in Hnd.
  by apply NoDup_cons in Hnd.
Qed.

Lemma allocated_unlinked p n h x : allocated h x → allocated (unlinked p n h) x.
Proof. intros []. split; cbn; auto with heap. Qed.

Lemma list_del_init_ok h a l1 x l2 :
  ring h a (l1 ++ x :: l2) →
  ∃ h', list_del_init x h = Done (tt, h') ∧ ring h' a (l1 ++ l2) ∧ ring h' x [] ∧
    only (a :: l1 ++ x :: l2) h h'.
Proof.
  intros Hr. destruct (unlink_ok h a l1 x l2 Hr) as (p & n & Hp & Hn & E & Hr' & Ho).
  destruct (ring_nodup _ _ _ _ _ Hr) as [Hx _].
  assert (Ha : allocated (unlinked p n h) x) by (apply allocated_unlinked; split; eauto).
  eexists. split_and!; [| |apply init_ring|].
  - unfold list_del_init. erewrite M_bind_done by (by apply load_prev_ok).
    erewrite M_bind_done by (by apply load_next_ok). erewrite M_bind_done by exact E.
    by apply INIT_LIST_HEAD_ok.
  - eapply ring_only; [exact Hr'|apply (only_init x _ [x]); set_solver|]. intros z Hz. set_solver.
  - eapply only_trans; [exact Ho|apply (only_init x _ (a :: l1 ++ x :: l2)); set_solver|set_solver].
Qed.

(** A node that is its own ring stays one. *)
Lemma list_del_init_self h x :
  ring h x [] → ∃ h', list_del_init x h = Done (tt, h') ∧ only [x] h h'.
Proof.
  intros Hr. assert (Ha : allocated h x) by (by apply (ring_alloc _ x []); [|set_solver]).
  pose proof (ring_prev _ _ _ Hr) as Hp. pose proof (ring_next _ _ _ Hr) as Hn.
  eexists. split.
  - unfold list_del_init. erewrite M_bind_done by (by apply load_prev_ok).
    erewrite M_bind_done by (by apply load_next_ok). erewrite M_bind_done by (by apply __list_del_ok).
    apply INIT_LIST_HEAD_ok. by apply allocated_unlinked.
  - eapply only_trans; [apply (only_unlinked x x _ [x]); set_solver|apply only_init; set_solver|done].
Qed.

(** [list_del] leaves null pointers in the node. *)
Lemma list_del_ok h a l1 x l2 :
  ring h a (l1 ++ x :: l2) →
  ∃ h', list_del x h = Done (tt, h') ∧ ring h' a (l1 ++ l2) ∧
    h_next h' !! x = Some 0 ∧ h_prev h' !! x = Some 0 ∧ only (a :: l1 ++ x :: l2) h h'.
Proof.
  intros Hr. destruct (unlink_ok h a l1 x l2 Hr) as (p & n & Hp & Hn & E & Hr' & Ho).
  destruct (ring_nodup _ _ _ _ _ Hr) as [Hx _].
  assert (Ha : allocated (unlinked p n h) x) by (apply allocated_unlinked; split; eauto).
  exists (set_prev x 0 (set_next x 0 (unlinked p n h))).
  assert (Ho' : only [x] (unlinked p n h) (set_prev x 0 (set_next x 0 (unlinked p n h)))).
  { intros z Hz. cbn. rewrite (lookup_insert_ne _ x), (lookup_insert_ne _ x) by set_solver. done. }
  split_and!.
  - unfold list_del. erewrite M_bind_done by (by apply load_prev_ok).
    erewrite M_bind_done by (by apply load_next_ok). erewrite M_bind_done by exact E.
    destruct Ha. by repeat hstore.
  - eapply ring_only; [exact Hr'|exact Ho'|]. set_solver.
  - cbn. by rewrite lookup_insert_eq.
  - cbn. by rewrite lookup_insert_eq.
  - intros z Hz. destruct (Ho' z) as [-> ->]; [set_solver|]. apply Ho. set_solver.
Qed.

(** Moving a node to the front or the back of the same or of another list. *)
Lemma list_move_tail_ok h a l1 x l2 :
  ring h a (l1 ++ x :: l2) →
  ∃ h', list_move_tail x a h = Done (tt, h') ∧ ring h' a (l1 ++ l2 ++ [x]) ∧
    only (a :: l1 ++ x :: l2) h h'.
Proof.
  intros Hr. destruct (unlink_ok h a l1 x l2 Hr) as (p & n & Hp & Hn & E & Hr' & Ho).
  destruct (ring_nodup _ _ _ _ _ Hr) as [Hx _].
  assert (Ha : allocated (unlinked p n h) x) by (apply allocated_unlinked; split; eauto).
  destruct (list_add_tail_ok _ a (l1 ++ l2) x Hr' Hx Ha) as (h' & E' & Hr2 & Ho2).
  exists h'. split_and!; [|by rewrite app_assoc|].
  - unfold list_move_tail. erewrite M_bind_done by (by apply load_prev_ok).
    erewrite M_bind_done by (by apply load_next_ok). by erewrite M_bind_done by exact E.
  - eapply only_trans; [exact Ho| |set_solver]. eapply only_weaken; [exact Ho2|set_solver].
Qed.

Lemma list_move_ok h a l1 x l2 :
  ring h a (l1 ++ x :: l2) →
  ∃ h', list_move x a h = Done (tt, h') ∧ ring h' a (x :: l1 ++ l2) ∧
    only (a :: l1 ++ x :: l2) h h'.
Proof.
  intros Hr. destruct (unlink_ok h a l1 x l2 Hr) as (p & n & Hp & Hn & E & Hr' & Ho).
  destruct (ring_nodup _ _ _ _ _ Hr) as [Hx _].
  assert (Ha : allocated (unlinked p n h) x) by (apply allocated_unlinked; split; eauto).
  destruct (list_add_ok _ a (l1 ++ l2) x Hr' Hx Ha) as (h' & E' & Hr2 & Ho2).
  exists h'. split_and!; [|done|].
  - unfold list_move. erewrite M_bind_done by (by apply load_prev_ok).
    erewrite M_bind_done by (by apply load_next_ok). by erewrite M_bind_done by exact E.
  - eapply only_trans; [exact Ho| |set_solver]. eapply only_weaken; [exact Ho2|set_solver].
Qed.

Lemma list_empty_ok h a l : ring h a l → list_empty a h = Done (bool_decide (l = []), h).
Proof.
  intros Hr. unfold list_empty. erewrite M_bind_done by (apply load_next_ok; by apply ring_next).
  unfold mret, M_ret. do 2 f_equal. destruct l as [|x l]; cbn [hd].
  - by rewrite Z.eqb_refl.
  - destruct Hr as [Hnd _]. apply NoDup_cons in Hnd as [Ha _].
    rewrite (proj2 (Z.eqb_neq x a)); [done|]. intros ->. set_solver.
Qed.

(** ** Refinement: the pointer operations implement operations on lists *)

Inductive list_op :=
  | OpAdd (x : Z)
  | OpAddTail (x : Z)
  | OpDelInit (x : Z)
  | OpMove (x : Z)
  | OpMoveTail (x : Z).

Definition run_op (head : Z) (op : list_op) : HM unit :=
  match op with
  | OpAdd x => list_add x head
  | OpAddTail x => list_add_tail x head
  | OpDelInit x => list_del_init x
  | OpMove x => list_move x head
  | OpMoveTail x => list_move_tail x head
  end.

Definition without (x : Z) (l : list Z) : list Z := filter (λ y, y ≠ x) l.

Definition spec_op (op : list_op) (l : list Z) : list Z :=
  match op with
  | OpAdd x => x :: l
  | OpAddTail x => l ++ [x]
  | OpDelInit x => without x l
  | OpMove x => x :: without x l
  | OpMoveTail x => without x l ++ [x]
  end.

(** A node is added only while it is on no list, and removed only from it. *)
Definition op_ok (head : Z) (op : list_op) (l : list Z) : Prop :=
  match op with
  | OpAdd x | OpAddTail x => x ∉ head :: l
  | OpDelInit x | OpMove x | OpMoveTail x => x ∈ l
  end.

Definition op_node (op : list_op) : Z :=
  match op with OpAdd x | OpAddTail x | OpDelInit x | OpMove x | OpMoveTail x => x end.

Fixpoint run_ops (head : Z) (ops : list list_op) : HM unit :=
  match ops with
  | [] => mret tt
  | op :: ops' => _ ← run_op head op; run_ops head ops'
  end.

Fixpoint ops_ok (head : Z) (ops : list list_op) (l : list Z) : Prop :=
  match ops with
  | [] => True
  | op :: ops' => op_ok head op l ∧ ops_ok head ops' (spec_op op l)
  end.

Definition spec_ops (ops : list list_op) (l : list Z) : list Z :=
  fold_left (λ l op, spec_op op l) ops l.

Lemma without_notin x l : x ∉ l → without x l = l.
Proof.
  unfold without. induction l as [|y l IH]; intros Hx; [done|].
  rewrite filter_cons_True by set_solver. f_equal. apply IH. set_solver.
Qed.

Lemma without_middle x l1 l2 : x ∉ l1 ++ l2 → without x (l1 ++ x :: l2) = l1 ++ l2.
Proof.
  intros Hx. unfold without. rewrite filter_app, filter_cons_False by (intros H; by apply H).
  fold (without x l1) (without x l2). rewrite !without_notin by set_solver. done.
Qed.

Lemma allocated_only l h h' x :
  only l h h' → (∀ z, z ∈ l → allocated h' z) → allocated h x → allocated h' x.
Proof.
  intros Ho Hl [Hn Hp]. destruct (decide (x ∈ l)) as [|Hx]; [auto|].
  destruct (Ho x Hx) as [En Ep]. split; [by rewrite En|by rewrite Ep].
Qed.

(** One operation: the new ring, and what stays allocated. *)
Lemma run_op_ok h a l op :
  ring h a l → op_ok a op l → allocated h (op_node op) →
  ∃ h', run_op a op h = Done (tt, h') ∧ ring h' a (spec_op op l) ∧
    only (op_node op :: a :: l) h h' ∧ ∀ x, allocated h x → allocated h' x.
Proof.
  intros Hr Hok Ha.
  assert (∀ x, x ∈ l → ∃ l1 l2, l = l1 ++ x :: l2 ∧ without x l = l1 ++ l2) as Hsplit.
  { intros x (l1 & l2 & ->)%list_elem_of_split. exists l1, l2. split; [done|].
    apply without_middle. apply ring_nodup in Hr as [Hx _]. set_solver. }
  destruct op as [x|x|x|x|x]; cbn [op_ok op_node run_op spec_op] in *.
  1: destruct (list_add_ok h a l x Hr Hok Ha) as (h' & E & Hr' & Ho); exists h'.
  2: destruct (list_add_tail_ok h a l x Hr Hok Ha) as (h' & E & Hr' & Ho); exists h'.
  3-5: destruct (Hsplit x Hok) as (l1 & l2 & -> & ->).
  3: destruct (list_del_init_ok h a l1 x l2 Hr) as (h' & E & Hr' & Hx & Ho); exists h'.
  4: destruct (list_move_ok h a l1 x l2 Hr) as (h' & E & Hr' & Ho); exists h'.
  5: destruct (list_move_tail_ok h a l1 x l2 Hr) as (h' & E & Hr' & Ho); exists h'; rewrite <- app_assoc.
  all: split_and!; [done|done|eapply only_weaken; [exact Ho|set_solver]|].
  all: intros y; apply (allocated_only _ _ _ _ Ho); intros z Hz.
  3: destruct (decide (z = x)) as [->|]; [eapply ring_alloc; [exact Hx|set_solver]|].
  all: eapply ring_alloc; [exact Hr'|set_solver].
Qed.

(** List.h refines lists: every sequence of [list_add], [list_add_tail],
    [list_del_init], [list_move] and [list_move_tail] that adds nodes off the
    list and removes nodes on it runs without an invalid access, and leaves the
    ring of the list the same operations give on lists. *)
Theorem list_ops_refine ops : ∀ h a l,
  ring h a l → ops_ok a ops l → Forall (λ op, allocated h (op_node op)) ops →
  ∃ h', run_ops a ops h = Done (tt, h') ∧ ring h' a (spec_ops ops l).
Proof.
  induction ops as [|op ops IH]; intros h a l Hr Hok Ha; [by exists h|].
  destruct Hok as [Hop Hok]. apply Forall_cons in Ha as [Ha Has].
  destruct (run_op_ok h a l op Hr Hop Ha) as (h1 & E & Hr1 & _ & Hal).
  destruct (IH h1 a (spec_op op l) Hr1 Hok) as (h' & E' & Hr').
  { eapply Forall_impl; [exact Has|]. intros op' ?. by apply Hal. }
  exists h'. split; [|done]. cbn [run_ops]. by mstep E.
Qed.

(** Three nodes beside a head, none linked in yet. *)
Definition heap_example : heap :=
  Heap (list_to_map [(1, 1); (2, 2); (3, 3); (4, 4)]) (list_to_map [(1, 1); (2, 2); (3, 3); (4, 4)]).

Lemma list_ops_refine_witness :
  ∃ h', run_ops 1 [OpAdd 2; OpAddTail 3; OpAdd 4; OpDelInit 2; OpMoveTail 4] heap_example =
      Done (tt, h') ∧
    ring h' 1 [3; 4].
Proof.
  apply (list_ops_refine [OpAdd 2; OpAddTail 3; OpAdd 4; OpDelInit 2; OpMoveTail 4] heap_example 1 []).
  - split; [repeat constructor; set_solver|done].
  - cbn. repeat split; set_solver.
  - repeat constructor; cbn; eauto.
Defined.
