(* ===== verification/Families.v ===== *)
(** * Lists of a program that share no nodes

    What a heap holds, as a map from heads to lists of nodes.  [ListRep] is what a kind of
    list promises: a heap represents a list at a head, and
    keeps doing so as long as none of its nodes is written.  From this follows how the map
    changes when an operation works on some of the lists; Rings and Hlist use it for
    the two kinds of lists of list.h. *)

From S2P Require Import Prelude.
Open Scope Z_scope.

Class ListRep (S : Type) := {
  rep : S → Z → list Z → Prop;
  (** From one state to the other only the nodes of the list have been written. *)
  only_on : list Z → S → S → Prop;
  rep_nodup : ∀ s a l, rep s a l → NoDup (a :: l);
  rep_frame : ∀ L s s' a l, rep s a l → only_on L s s' → (∀ z, z ∈ a :: l → z ∉ L) → rep s' a l
}.

Abbreviation lists := (gmap Z (list Z)).

Definition nodes (F : lists) (a : Z) : list Z := default [] (F !! a).

Section families.
Context {S : Type} `{R : !ListRep S}.

Record family (h : S) (F : lists) : Prop := {
  fa_rep : ∀ a l, F !! a = Some l → rep h a l;
  fa_disj : ∀ a b l k x, F !! a = Some l → F !! b = Some k → x ∈ a :: l → x ∈ b :: k → a = b
}.

(** On no list, or the head of one that is empty. *)
Definition loose (F : lists) (x : Z) : Prop := ∀ a l, F !! a = Some l → x ∈ a :: l → a = x ∧ l = [].
Definition absent (F : lists) (x : Z) : Prop := ∀ a l, F !! a = Some l → x ∉ a :: l.

(** The nodes that come with [a]. *)
Definition circle (F : lists) (a : Z) (l : list Z) : Prop := F !! a = Some l ∨ loose F a ∧ l = [].

Lemma absent_loose F x : absent F x → loose F x.
Proof. intros H a l E Hx. by apply H in E. Qed.

Lemma nodes_circle F a : is_Some (F !! a) → F !! a = Some (nodes F a).
Proof. unfold nodes. by intros [l ->]. Qed.

Lemma nodes_home F a x : x ∈ nodes F a → F !! a = Some (nodes F a).
Proof. unfold nodes. destruct (F !! a); [done|set_solver]. Qed.

Section change.
Context (h h' : S) (F F' : lists) (D : list Z).
Context (HF : family h F) (HD : ∀ a, a ∉ D → F' !! a = F !! a).

Lemma circle_apart a l c k x : circle F a l → F !! c = Some k → c ≠ a → x ∈ a :: l → x ∉ c :: k.
Proof.
  clear HD. intros [Ha|[Ha ->]] Hc Hne Hx Hx'; [by apply Hne, (fa_disj _ _ HF c a k l x)|].
  apply list_elem_of_singleton in Hx as ->. by destruct (Ha c k Hc Hx').
Qed.

(** The lists outside of [D] keep their circles, as long as only_on the circles of
    [D] are written. *)
Lemma family_change L : only_on L h h' →
  (∀ x, x ∈ L → ∃ a l, a ∈ D ∧ circle F a l ∧ x ∈ a :: l) →
  (∀ a l, a ∈ D → F' !! a = Some l → rep h' a l ∧ ∀ x, x ∈ a :: l → x ∈ L) →
  (∀ a b l k x, a ∈ D → b ∈ D → F' !! a = Some l → F' !! b = Some k → x ∈ a :: l → x ∈ b :: k → a = b) →
  family h' F'.
Proof.
  intros Ho HL Hin Hdj.
  assert (Hout : ∀ c k x, c ∉ D → F' !! c = Some k → x ∈ c :: k → x ∉ L).
  { intros c k x Hc E Hx HxL. rewrite HD in E by done. destruct (HL x HxL) as (a & l & Ha & Hcir & Hxa).
    by eapply (circle_apart a l c k x Hcir E); [intros ->|..]. }
  constructor.
  - intros a l E. destruct (decide (a ∈ D)) as [Ha|Ha]; [by apply Hin|]. pose proof (Hout a l) as Hl.
    apply (rep_frame L h); [|done|auto]. apply (fa_rep _ _ HF). by rewrite HD in E.
  - intros a b l k x Ea Eb Hxa Hxb. destruct (decide (a ∈ D)) as [Ha|Ha], (decide (b ∈ D)) as [Hb|Hb].
    + by eapply Hdj.
    + destruct (Hin a l Ha Ea) as [_ Hs]. by apply Hs, (Hout b k x Hb Eb Hxb) in Hxa.
    + destruct (Hin b k Hb Eb) as [_ Hs]. by apply Hs, (Hout a l x Ha Ea Hxa) in Hxb.
    + rewrite HD in Ea, Eb by done. by eapply (fa_disj _ _ HF).
Qed.

Lemma absent_change x d l : d ∈ D → circle F d l → x ∈ d :: l →
  (∀ a k, a ∈ D → F' !! a = Some k → x ∉ a :: k) → absent F' x.
Proof.
  intros Hd Hc Hx Hin a k E. destruct (decide (a ∈ D)) as [Ha|Ha]; [by apply Hin|]. rewrite HD in E by done.
  eapply circle_apart; [exact Hc|done|by intros ->|done].
Qed.
End change.

Lemma family_in h F a l x : family h F → F !! a = Some l → x ∈ l → x ≠ a ∧ F !! x = None.
Proof.
  intros HF Ha Hx. pose proof (rep_nodup _ _ _ (fa_rep _ _ HF _ _ Ha)) as [Hal _]%NoDup_cons.
  assert (x ≠ a) by (by intros ->). split; [done|]. destruct (F !! x) as [k|] eqn:E; [|done].
  exfalso. apply (H), (fa_disj _ _ HF x a k l x E Ha); set_solver.
Qed.

(** One list takes in the nodes of another, or of a loose node. *)
Lemma family_merge h h' F a l x k l' : family h F → circle F a l → circle F x k → a ≠ x → rep h' a l' →
  (∀ z, z ∈ l' → z ∈ (a :: l) ++ x :: k) → only_on ((a :: l) ++ x :: k) h h' → family h' (<[a := l']> (delete x F)).
Proof.
  intros HF Ha Hx Hne Hr Hs Ho. eapply (family_change h h' F _ [a; x] HF); [|exact Ho|..].
  - intros c Hc. rewrite lookup_insert_ne, lookup_delete_ne by set_solver. done.
  - intros z [Hz|Hz]%elem_of_app; [exists a, l|exists x, k]; set_solver.
  - intros c m Hc E. assert (c = a ∨ c = x) as [-> | ->] by set_solver.
    + rewrite lookup_insert_eq in E. injection E as <-. split; [done|]. intros z [->|Hz]%elem_of_cons; [set_solver|by apply Hs].
    + by rewrite lookup_insert_ne, lookup_delete_eq in E.
  - assert (Hn : ∀ c m, c ∈ [a; x] → <[a:=l']> (delete x F) !! c = Some m → c = a).
    { intros c m Hc E. assert (c = a ∨ c = x) as [-> | ->] by set_solver; [done|]. by rewrite lookup_insert_ne, lookup_delete_eq in E. }
    intros c d m n z Hc Hd Ec Ed _ _. by rewrite (Hn c m Hc Ec), (Hn d n Hd Ed).
Qed.

(** One list is given other nodes of its own. *)
Lemma family_own h h' F a l l' : family h F → circle F a l → rep h' a l' → (∀ z, z ∈ l' → z ∈ a :: l) →
  only_on (a :: l) h h' → family h' (<[a := l']> F).
Proof.
  intros HF Ha Hr Hs Ho. eapply (family_change h h' F _ [a] HF); [|exact Ho|..].
  - intros c Hc. rewrite lookup_insert_ne by set_solver. done.
  - intros z Hz. exists a, l. set_solver.
  - intros c m ->%list_elem_of_singleton E. rewrite lookup_insert_eq in E. injection E as <-. split; [done|].
    intros z [->|Hz]%elem_of_cons; [set_solver|by apply Hs].
  - by intros c d m n z ->%list_elem_of_singleton ->%list_elem_of_singleton.
Qed.

(** A node on no list may be written. *)
Lemma family_touch h h' F x : family h F → absent F x → only_on [x] h h' → family h' F.
Proof.
  intros HF Hx Ho. eapply (family_change h h' F _ [x] HF); [done|exact Ho|..].
  - intros z ->%list_elem_of_singleton. exists x, []. split; [set_solver|]. split; [right; by split; [apply absent_loose|]|set_solver].
  - intros c m ->%list_elem_of_singleton E. exfalso. apply (Hx x m E). set_solver.
  - by intros c d m n z ->%list_elem_of_singleton ->%list_elem_of_singleton.
Qed.

(** One list is cut in two. *)
Lemma family_cut h h' F a k m x : family h F → circle F a (k ++ m) → loose F x → a ≠ x → x ∉ k ++ m → NoDup (a :: k ++ m) →
  rep h' x k → rep h' a m → only_on (x :: a :: k ++ m) h h' → family h' (<[x := k]> (<[a := m]> F)).
Proof.
  intros HF Ha Hx Hne Hxl Hnd Hrx Hra Ho. apply NoDup_cons in Hnd as [Hal [_ [Hd _]]%NoDup_app].
  assert (Hin : ∀ c l, c ∈ [a; x] → <[x:=k]> (<[a:=m]> F) !! c = Some l → (c = a ∧ l = m) ∨ (c = x ∧ l = k)).
  { intros c l Hc E. assert (c = a ∨ c = x) as [-> | ->] by set_solver.
    - rewrite lookup_insert_ne, lookup_insert_eq in E by done. left. by injection E as <-.
    - rewrite lookup_insert_eq in E. right. by injection E as <-. }
  eapply (family_change h h' F _ [a; x] HF); [|exact Ho|..].
  - intros c Hc. rewrite !lookup_insert_ne by set_solver. done.
  - intros z [->|Hz]%elem_of_cons.
    + exists x, []. split; [by right; left|]. split; [by right; split|by left].
    + exists a, (k ++ m). split; [by left|]. by split.
  - intros c l Hc E. destruct (Hin c l Hc E) as [[-> ->]|[-> ->]]; (split; [done|set_solver]).
  - intros c d l n z Hc Hd' Ec Ed Hzc Hzd. destruct (Hin c l Hc Ec) as [[-> ->]|[-> ->]], (Hin d n Hd' Ed) as [[-> ->]|[-> ->]]; try done.
    all: exfalso; specialize (Hd z); set_solver.
Qed.
End families.

#[export] Instance loose_dec F x : Decision (loose F x).
Proof. change (Decision (map_Forall (λ a l, x ∈ a :: l → a = x ∧ l = []) F)). apply _. Defined.
