(* ===== verification/Rings.v ===== *)
(** * list.h: the lists of a program

    Dlist specifies operations on one list.  Those that take two, replacing a
    node, joining lists and cutting one, are specified here, and then all of
    them together: [family h F] says that the heap holds the lists [F], heads to nodes,
    none sharing a node with another, and every operation does to the
    heap what the same operation on finite maps of lists does to [F]. *)

From S2P Require Import Prelude Dlist Families.
Open Scope Z_scope.

(** ** Chains in pieces *)

(** The last of [l], if any, points to the first of [k]. *)
Definition joint (h : heap) (l k : list Z) : Prop :=
  match last l, head k with Some x, Some y => link h x y | _, _ => True end.

Lemma chain_join h l k : chain h (l ++ k) ↔ chain h l ∧ joint h l k ∧ chain h k.
Proof.
  unfold joint. induction l as [|x l IH]; [cbn; tauto|]. destruct l as [|y l].
  - cbn. destruct k as [|z k]; cbn; tauto.
  - cbn [app] in *. rewrite !chain_cons, IH. cbn. tauto.
Qed.

(** A chain reads the forward pointers of all nodes but the last, and the
    backward pointers of all but the first. *)
Lemma chain_keep h h' l : chain h l →
  (∀ z, z ∈ removelast l → h_next h' !! z = h_next h !! z) →
  (∀ z, z ∈ tail l → h_prev h' !! z = h_prev h !! z) →
  chain h' l.
Proof.
  induction l as [|x l IH]; [done|]. destruct l as [|y l]; [done|]. rewrite !chain_cons. intros [[H1 H2] Hc] Hn Hp. split.
  - split; [rewrite Hn|rewrite Hp]; [done|cbn; set_solver|done|cbn; set_solver].
  - apply IH; [done|..]; intros z Hz; [apply Hn|apply Hp]; [cbn [removelast] in *; set_solver|destruct l; cbn in *; set_solver].
Qed.

(** A stretch of nodes from [f] to [t], one and the same perhaps. *)
Record stretch (k : list Z) (f t : Z) : Prop := {
  st_first : ∃ k', k = f :: k';
  st_last : ∃ k', k = k' ++ [t];
  st_nodup : NoDup k
}.

Lemma stretch_of k : NoDup k → k ≠ [] → ∃ f t, stretch k f t.
Proof.
  intros Hn Hk. destruct k as [|f k]; [done|]. destruct (exists_last (l := f :: k)) as (k' & t & E); [done|].
  exists f, t. constructor; [by eexists|by eexists|done].
Qed.

Lemma stretch_in k f t : stretch k f t → f ∈ k ∧ t ∈ k.
Proof. intros [[k1 E1] [k2 E2] _]. split; [rewrite E1|rewrite E2]; set_solver. Qed.

Lemma stretch_keep h h' k f t : stretch k f t → chain h k →
  (∀ z, z ∈ k → z ≠ t → h_next h' !! z = h_next h !! z) → (∀ z, z ∈ k → z ≠ f → h_prev h' !! z = h_prev h !! z) → chain h' k.
Proof.
  intros [[k1 E1] [k2 E2] Hnd] Hc Hn Hp. apply (chain_keep h); [done|..]; intros z Hz.
  - rewrite E2, removelast_last in Hz. rewrite E2 in Hnd. apply NoDup_app in Hnd as (_ & Hd & _).
    apply Hn; [rewrite E2; set_solver|]. intros ->. apply (Hd t Hz). set_solver.
  - rewrite E1 in Hz. cbn in Hz. rewrite E1 in Hnd. apply NoDup_cons in Hnd as [Hd _].
    apply Hp; [rewrite E1; set_solver|]. by intros ->.
Qed.

Lemma stretch_around h k f t x y : stretch k f t → chain h (x :: k ++ [y]) ↔ link h x f ∧ chain h k ∧ link h t y.
Proof.
  intros [[k1 E1] [k2 E2] _]. change (x :: k ++ [y]) with ([x] ++ k ++ [y]). rewrite (chain_join h [x]), (chain_join h k [y]).
  unfold joint. rewrite E2 at 2. rewrite last_snoc, E1. cbn. tauto.
Qed.

Lemma ring_stretch h l k : ring h l k → k ≠ [] → ∃ f t, stretch k f t ∧ h_next h !! l = Some f ∧ h_prev h !! l = Some t ∧ chain h k.
Proof.
  intros [Hnd Hc] Hk. apply NoDup_cons in Hnd as [_ Hnd]. destruct (stretch_of k Hnd Hk) as (f & t & Hs).
  exists f, t. apply (stretch_around h k f t l l Hs) in Hc as ([H1 _] & H2 & [_ H3]). done.
Qed.

Lemma NoDup_rest (p : Z) m z : NoDup (p :: m) → z ∈ tail (m ++ [p]) → z ≠ hd p m.
Proof. destruct m as [|n m]; cbn; [set_solver|]. intros Hnd Hz. apply NoDup_cons in Hnd as [H1 [H2 _]%NoDup_cons]. set_solver. Qed.

Lemma first_rest (p : Z) m : m ++ [p] = hd p m :: tail (m ++ [p]).
Proof. by destruct m. Qed.

(** The nodes behind a head, when what is changed is the head's forward pointer and
    the first node's backward pointer. *)
Lemma rest_keep h h' p m : NoDup (p :: m) → chain h (m ++ [p]) → (∀ z, z ∈ m → h_next h' !! z = h_next h !! z) →
  (∀ z, z ∈ p :: m → z ≠ hd p m → h_prev h' !! z = h_prev h !! z) → chain h' (m ++ [p]).
Proof.
  intros Hnd Hm Hn Hp. apply (chain_keep h); [done|..]; intros z Hz; [apply Hn; by rewrite removelast_last in Hz|].
  apply Hp; [|by eapply NoDup_rest]. rewrite first_rest in *. assert (Hz' : z ∈ m ++ [p]) by (rewrite first_rest; set_solver). set_solver.
Qed.

Lemma ring_rest h p k m : ring h p (k ++ m) → chain h (m ++ [p]).
Proof.
  intros [_ Hc]. change (chain h (([p] ++ (k ++ m) ++ [p]))) in Hc. rewrite <- !app_assoc, !chain_join in Hc.
  destruct Hc as (_ & _ & _ & _ & Hc). by rewrite chain_join.
Qed.

(** ** Joining *)

(** The nodes of [l] go behind [p], whose list is [m]; [l] itself is not written. *)
Lemma __list_splice_ok h l k p m : ring h l k → k ≠ [] → ring h p m → (∀ z, z ∈ l :: k → z ∉ p :: m) →
  ∃ h', __list_splice l p (hd p m) h = Done (tt, h') ∧ ring h' p (k ++ m) ∧ only (p :: k ++ m) h h'.
Proof.
  intros Hl Hk Hp Hd. destruct (ring_stretch h l k Hl Hk) as (f & t & Hs & Hf & Ht & Hc). destruct (stretch_in k f t Hs) as [Fk Tk].
  pose proof (hd_elem p m) as Hh. set (n := hd p m) in *.
  assert (Hfp : f ≠ p) by (intros ->; apply (Hd p); set_solver). assert (Htp : t ≠ p) by (intros ->; apply (Hd p); set_solver).
  assert (Hfn : f ≠ n) by (intros E; apply (Hd f); [set_solver|by rewrite E]).
  assert (Hkm : ∀ z, z ∈ k → z ∉ p :: m) by (intros z Hz; apply Hd; set_solver).
  exists (set_prev n t (set_next t n (set_next p f (set_prev f p h)))). split_and!.
  - destruct (ring_alloc h l k f Hl) as [_ Af]; [set_solver|]. destruct (ring_alloc h l k t Hl) as [At _]; [set_solver|].
    destruct (ring_alloc h p m p Hp) as [Ap _]; [set_solver|]. destruct (ring_alloc h p m n Hp Hh) as [_ An].
    unfold __list_splice. erewrite M_bind_done by (by apply load_next_ok). erewrite M_bind_done by (by apply load_prev_ok).
    by repeat hstore.
  - pose proof Hp as [Hnd _]. assert (Hpm : p ∉ m) by (by apply NoDup_cons in Hnd as [? _]). split.
    { destruct Hs as [_ _ Hndk]. apply NoDup_cons in Hnd as [_ Hnd]. apply NoDup_cons. split; [set_solver|].
      apply NoDup_app. split_and!; [done|set_solver|done]. }
    rewrite <- app_assoc, first_rest. fold n. apply (chain_app _ (p :: k) n). split; [apply (stretch_around _ _ _ _ _ _ Hs); split_and!|].
    + split; cbn; [rewrite (lookup_insert_ne _ t), lookup_insert_eq by done|rewrite (lookup_insert_ne _ n), lookup_insert_eq by done]; done.
    + apply (stretch_keep h _ k f t Hs Hc); intros z Hz Hne; cbn.
      * rewrite !lookup_insert_ne; [done|set_solver|done].
      * rewrite !lookup_insert_ne; [done|done|intros E; apply (Hkm z Hz); by rewrite <- E].
    + split; cbn; by rewrite lookup_insert_eq.
    + unfold n. rewrite <- first_rest. apply (rest_keep h); [done|by apply (ring_rest h p [])|..]; intros z Hz; cbn; fold n.
      * rewrite !lookup_insert_ne; [done|by intros ->|]. intros ->. apply (Hkm z Tk). by right.
      * intros Hne. rewrite !lookup_insert_ne; [done| |done]. intros ->. by apply (Hkm z Fk).
  - intros z Hz. cbn. rewrite !lookup_insert_ne by set_solver. done.
Qed.

(** ** Cutting *)

Lemma __list_cut_position_ok h l a k e m f : ring h a (k ++ m) → stretch k f e → l ∉ a :: k ++ m → allocated h l →
  ∃ h', __list_cut_position l a e h = Done (tt, h') ∧ ring h' l k ∧ ring h' a m ∧ only (l :: a :: k ++ m) h h'.
Proof.
  intros Hr Hs Hl Ha. pose proof (stretch_in k f e Hs) as [Fk Ek]. pose proof Hr as [Hnd Hc]. pose proof (hd_elem a m) as Hh.
  rewrite <- app_assoc, first_rest in Hc. apply (chain_app h (a :: k)) in Hc as [Hc Hm]. rewrite <- first_rest in Hm.
  set (n := hd a m) in *. apply (stretch_around h k f e a n Hs) in Hc as ([Ea Ef] & Hc & [Ee En]).
  apply NoDup_cons in Hnd as [Hak Hnd]. apply NoDup_app in Hnd as (Hndk & Hkm & Hndm).
  assert (Hnk : n ∉ k) by (intros Hn; apply elem_of_cons in Hh as [->|Hh]; [set_solver|by apply (Hkm n)]).
  assert (Hall : l ≠ a ∧ l ∉ k ∧ l ∉ m ∧ l ≠ n ∧ a ∉ k ∧ a ∉ m) by set_solver. destruct Hall as (La & Lk & Lm & Ln & Ak & Am).
  assert (e ≠ a ∧ e ≠ l ∧ f ≠ l ∧ f ≠ n) as (Hea & Hel & Hfl & Hfn) by (split_and!; intros ->; done).
  exists (set_prev n a (set_next a n (set_next e l (set_prev l e (set_prev f l (set_next l f h)))))). split_and!.
  - destruct Ha. unfold __list_cut_position. erewrite M_bind_done by (by apply load_next_ok).
    erewrite M_bind_done by (by apply load_next_ok). by repeat hstore.
  - split; [by apply NoDup_cons|]. apply (stretch_around _ _ _ _ _ _ Hs). split_and!.
    + split; cbn; [rewrite !(lookup_insert_ne _ _ l), lookup_insert_eq by done|rewrite !(lookup_insert_ne _ _ f), lookup_insert_eq by done]; done.
    + apply (stretch_keep h _ k f e Hs Hc); intros z Hz Hne; cbn; rewrite !lookup_insert_ne; done || (by intros ->).
    + split; cbn; [rewrite (lookup_insert_ne _ a), lookup_insert_eq by done|rewrite (lookup_insert_ne _ n), lookup_insert_eq by done]; done.
  - split; [by apply NoDup_cons|]. cbn [app]. rewrite first_rest. fold n. apply chain_cons. split.
    + split; cbn; by rewrite lookup_insert_eq.
    + unfold n. rewrite <- first_rest. apply (rest_keep h); [by apply NoDup_cons|done|..]; intros z Hz; cbn; fold n.
      * rewrite !lookup_insert_ne; [done|by intros ->| |by intros ->]. intros ->. by apply (Hkm z).
      * intros Hne. assert (z ≠ l) by (intros ->; set_solver). assert (z ≠ f) by (intros ->; apply elem_of_cons in Hz as [->|]; [done|by apply (Hkm f)]).
        by rewrite !lookup_insert_ne.
  - intros z Hz. assert (z ≠ l ∧ z ≠ e ∧ z ≠ a ∧ z ≠ f ∧ z ≠ n) as (? & ? & ? & ? & ?) by (split_and!; intros ->; set_solver).
    cbn. by rewrite !lookup_insert_ne.
Qed.

(** ** Replacing *)

Lemma list_replace_ok h old new k : ring h old k → new ∉ old :: k → allocated h new →
  ∃ h', list_replace old new h = Done (tt, h') ∧ ring h' new k ∧ only (new :: old :: k) h h'.
Proof.
  intros Hr Hnew [An Ap]. destruct (decide (k = [])) as [->|Hk].
  - destruct (ring_alloc h old [] old Hr) as [Ao Bo]; [set_solver|]. assert (Hne : new ≠ old) by set_solver.
    exists (set_next new new (set_prev new new (set_prev old new (set_next new old h)))). split_and!.
    + unfold list_replace. erewrite M_bind_done by (apply load_next_ok; by apply (ring_next _ _ _ Hr)). cbn [hd]. do 2 hstore.
      erewrite M_bind_done by (apply load_prev_ok; cbn; by rewrite lookup_insert_eq). by repeat hstore.
    + split; [repeat constructor; set_solver|]. split; [|done]. split; cbn; by rewrite lookup_insert_eq.
    + intros z Hz. cbn. rewrite !lookup_insert_ne by set_solver. done.
  - destruct (ring_stretch h old k Hr Hk) as (f & t & Hs & Hf & Ht & Hc). destruct (stretch_in k f t Hs) as [Fk Tk].
    assert (Hno : old ∉ k) by (destruct Hr as [Hnd _]; by apply NoDup_cons in Hnd as [? _]).
    assert (new ≠ old ∧ new ∉ k) as [Hne Hnk] by set_solver. assert (new ≠ f ∧ new ≠ t ∧ old ≠ f) as (? & ? & ?) by (split_and!; intros ->; done).
    exists (set_next t new (set_prev new t (set_prev f new (set_next new f h)))). split_and!.
    + destruct (ring_alloc h old k f Hr) as [_ Af]; [set_solver|]. destruct (ring_alloc h old k t Hr) as [At _]; [set_solver|].
      unfold list_replace. erewrite M_bind_done by (by apply load_next_ok). do 2 hstore.
      erewrite M_bind_done by (apply load_prev_ok; cbn; by rewrite lookup_insert_ne). by repeat hstore.
    + split; [apply NoDup_cons; split; [done|by apply st_nodup in Hs]|]. apply (stretch_around _ _ _ _ _ _ Hs). split_and!.
      * split; cbn; [rewrite lookup_insert_ne, lookup_insert_eq by done|rewrite lookup_insert_ne, lookup_insert_eq by done]; done.
      * apply (stretch_keep h _ k f t Hs Hc); intros z Hz Hz'; cbn; rewrite !lookup_insert_ne; done || (by intros ->).
      * split; cbn; by rewrite lookup_insert_eq.
    + intros z Hz. assert (z ≠ new ∧ z ≠ f ∧ z ≠ t) as (? & ? & ?) by (split_and!; intros ->; set_solver). cbn. by rewrite !lookup_insert_ne.
Qed.

(** ** Rings as the lists of a heap *)

#[export] Instance ring_rep : ListRep heap := {|
  rep := ring;
  only_on := only;
  rep_nodup h a l (H : ring h a l) := proj1 H;
  rep_frame L h h' a l := ring_only L h h' a l
|}.

Lemma fa_ring (h : heap) F : family h F → ∀ a l, F !! a = Some l → ring h a l.
Proof. exact (λ HF, fa_rep h F HF). Qed.

(** ** What stays allocated *)

Definition safe {A} (m : HM A) : Prop := ∀ h r h', m h = Done (r, h') → ∀ x, allocated h x → allocated h' x.

Lemma safe_ret {A} (a : A) : safe (mret a).
Proof. intros h r h' E x Hx. by injection E as <- <-. Qed.
Lemma safe_bind {A B} (m : HM A) (f : A → HM B) : safe m → (∀ a, safe (f a)) → safe (m ≫= f).
Proof.
  intros Hm Hf h r h' E x Hx. unfold mbind, M_bind in E. destruct (m h) as [[a h1]| | |] eqn:Em; try done.
  eapply Hf; [exact E|]. by eapply Hm.
Qed.
Lemma safe_load_next x : safe (load_next x).
Proof. intros h r h' E y Hy. unfold load_next in E. destruct (h_next h !! x); [|done]. by injection E as <- <-. Qed.
Lemma safe_load_prev x : safe (load_prev x).
Proof. intros h r h' E y Hy. unfold load_prev in E. destruct (h_prev h !! x); [|done]. by injection E as <- <-. Qed.
Lemma safe_store_next x v : safe (store_next x v).
Proof.
  intros h r h' E y [Hn Hp]. unfold store_next in E. destruct (h_next h !! x); [|done]. injection E as <- <-.
  split; [apply is_Some_insert, Hn|exact Hp].
Qed.
Lemma safe_store_prev x v : safe (store_prev x v).
Proof.
  intros h r h' E y [Hn Hp]. unfold store_prev in E. destruct (h_prev h !! x); [|done]. injection E as <- <-.
  split; [exact Hn|apply is_Some_insert, Hp].
Qed.
Lemma safe_if {A} (b : bool) (m k : HM A) : safe m → safe k → safe (if b then m else k).
Proof. by destruct b. Qed.
#[export] Hint Resolve safe_ret safe_bind safe_load_next safe_load_prev safe_store_next safe_store_prev safe_if : heap.

(** ** The operations on families *)

(** Runs to a heap that holds [F']. *)
Definition gives (m : HM unit) (h : heap) (F' : lists) : Prop := ∃ h', m h = Done (tt, h') ∧ family h' F'.

Lemma init_gives h F x : family h F → loose F x → allocated h x → gives (INIT_LIST_HEAD x) h (<[x := []]> F).
Proof.
  intros HF Hx Ha. exists (set_prev x x (set_next x x h)). split; [by apply INIT_LIST_HEAD_ok|].
  apply (family_own h _ F x []); [done|right; by split|apply init_ring|set_solver|apply only_init; set_solver].
Qed.

Section add.
Context (h : heap) (F : lists) (x a : Z).
Context (HF : family h F) (Hx : loose F x) (Ha : is_Some (F !! a)) (Hne : x ≠ a) (Hal : allocated h x).

Lemma loose_apart : x ∉ a :: nodes F a.
Proof. apply nodes_circle in Ha. intros Hin. by destruct (Hx a _ Ha Hin). Qed.

Lemma add_gives : gives (list_add x a) h (<[a := x :: nodes F a]> (delete x F)).
Proof.
  pose proof loose_apart as Hap. apply nodes_circle in Ha.
  destruct (list_add_ok h a (nodes F a) x (fa_ring _ _ HF _ _ Ha) Hap Hal) as (h' & E & Hr & Ho). exists h'. split; [done|].
  apply (family_merge h h' F a (nodes F a) x []); try done; [by left|right; by split|set_solver|eapply only_weaken; [done|set_solver]].
Qed.

Lemma add_tail_gives : gives (list_add_tail x a) h (<[a := nodes F a ++ [x]]> (delete x F)).
Proof.
  pose proof loose_apart as Hap. apply nodes_circle in Ha.
  destruct (list_add_tail_ok h a (nodes F a) x (fa_ring _ _ HF _ _ Ha) Hap Hal) as (h' & E & Hr & Ho). exists h'. split; [done|].
  apply (family_merge h h' F a (nodes F a) x []); try done; [by left|right; by split|set_solver|eapply only_weaken; [done|set_solver]].
Qed.
End add.

(** The first half of a deletion or a move. *)
Lemma family_unlink h F a x : family h F → x ∈ nodes F a →
  ∃ p n h1, load_prev x h = Done (p, h) ∧ load_next x h = Done (n, h) ∧ __list_del p n h = Done (tt, h1) ∧
    family h1 (<[a := without x (nodes F a)]> F) ∧ absent (<[a := without x (nodes F a)]> F) x ∧ allocated h1 x.
Proof.
  intros HF Hx. pose proof (nodes_home F a x Hx) as E. revert Hx E. generalize (nodes F a). intros l Hx E.
  pose proof (fa_ring _ _ HF a l E) as Hr. pose proof Hx as Hin. apply list_elem_of_split in Hin as (l1 & l2 & ->).
  destruct (ring_nodup _ _ _ _ _ Hr) as [Hxn _]. rewrite without_middle by set_solver.
  destruct (unlink_ok h a l1 x l2 Hr) as (p & n & Hp & Hn & Ed & Hr' & Ho). exists p, n, (unlinked p n h).
  split; [by apply load_prev_ok|]. split; [by apply load_next_ok|]. split; [done|]. split; [|split].
  - apply (family_own h _ F a (l1 ++ x :: l2)); [done|by left|done|set_solver|eapply only_weaken; [done|set_solver]].
  - apply (absent_change h F _ [a] HF) with (d := a) (l := l1 ++ x :: l2); [|set_solver|by left|set_solver|].
    + intros c Hc. rewrite lookup_insert_ne by set_solver. done.
    + intros c k ->%list_elem_of_singleton Ek. rewrite lookup_insert_eq in Ek. by injection Ek as <-.
  - apply allocated_unlinked. split; eauto.
Qed.

Section del.
Context (h : heap) (F : lists) (x a : Z).
Context (HF : family h F) (Hx : x ∈ nodes F a).
Abbreviation F1 := (<[a := without x (nodes F a)]> F).

Lemma del_gives : gives (list_del x) h F1.
Proof.
  destruct (family_unlink h F a x HF Hx) as (p & n & h1 & Ep & En & Ed & HF1 & Hab & [A1 A2]).
  exists (set_prev x 0 (set_next x 0 h1)). split.
  - unfold list_del. erewrite M_bind_done by exact Ep. erewrite M_bind_done by exact En. erewrite M_bind_done by exact Ed. by repeat hstore.
  - apply (family_touch h1 _ _ x HF1 Hab). intros z Hz. cbn. by rewrite !lookup_insert_ne by set_solver.
Qed.

Lemma del_init_gives : gives (list_del_init x) h (<[x := []]> F1).
Proof.
  destruct (family_unlink h F a x HF Hx) as (p & n & h1 & Ep & En & Ed & HF1 & Hab & Hal).
  destruct (init_gives h1 F1 x HF1 (absent_loose _ _ Hab) Hal) as (h' & E & HF'). exists h'. split; [|done].
  unfold list_del_init. erewrite M_bind_done by exact Ep. erewrite M_bind_done by exact En. by erewrite M_bind_done by exact Ed.
Qed.

Context (b : Z) (Hb : is_Some (F !! b)).

Lemma moved_target : is_Some (F1 !! b) ∧ x ≠ b ∧ F1 !! x = None.
Proof.
  destruct (family_in h F a _ x HF (nodes_home F a x Hx) Hx) as [Hne Hn]. split_and!.
  - destruct (decide (b = a)) as [->|]; [rewrite lookup_insert_eq; by eexists|by rewrite lookup_insert_ne].
  - intros <-. rewrite Hn in Hb. by destruct Hb.
  - by rewrite lookup_insert_ne.
Qed.

Lemma move_gives : gives (list_move x b) h (<[b := x :: nodes F1 b]> F1).
Proof.
  destruct (family_unlink h F a x HF Hx) as (p & n & h1 & Ep & En & Ed & HF1 & Hab & Hal). destruct moved_target as (H1 & H2 & H3).
  destruct (add_gives h1 F1 x b HF1 (absent_loose _ _ Hab) H1 H2 Hal) as (h' & E & HF'). rewrite (delete_id F1 x H3) in HF'.
  exists h'. split; [|done].
  unfold list_move. erewrite M_bind_done by exact Ep. erewrite M_bind_done by exact En. by erewrite M_bind_done by exact Ed.
Qed.

Lemma move_tail_gives : gives (list_move_tail x b) h (<[b := nodes F1 b ++ [x]]> F1).
Proof.
  destruct (family_unlink h F a x HF Hx) as (p & n & h1 & Ep & En & Ed & HF1 & Hab & Hal). destruct moved_target as (H1 & H2 & H3).
  destruct (add_tail_gives h1 F1 x b HF1 (absent_loose _ _ Hab) H1 H2 Hal) as (h' & E & HF'). rewrite (delete_id F1 x H3) in HF'.
  exists h'. split; [|done].
  unfold list_move_tail. erewrite M_bind_done by exact Ep. erewrite M_bind_done by exact En. by erewrite M_bind_done by exact Ed.
Qed.
End del.

(** *** Replacing *)

Definition swap (old new : Z) (l : list Z) : list Z := (λ y, if y =? old then new else y) <$> l.

Lemma swap_notin old new l : old ∉ l → swap old new l = l.
Proof.
  induction l as [|y l IH]; intros Hn; [done|]. cbn. fold (swap old new l). rewrite IH by set_solver.
  rewrite (proj2 (Z.eqb_neq y old)); [done|]. set_solver.
Qed.

Lemma swap_middle old new l1 l2 : old ∉ l1 ++ l2 → swap old new (l1 ++ old :: l2) = l1 ++ new :: l2.
Proof.
  intros Hn. unfold swap. rewrite fmap_app, fmap_cons, Z.eqb_refl. fold (swap old new l1) (swap old new l2).
  by rewrite !swap_notin by set_solver.
Qed.

(** The new node stands where the old one stood, also when that is the head. *)
Definition replaced (old new a : Z) (F : lists) : lists :=
  if old =? a then <[new := nodes F a]> (delete a F) else <[a := swap old new (nodes F a)]> (delete new F).

Section replace.
Context (h : heap) (F : lists) (old new a : Z).
Context (HF : family h F) (Ha : is_Some (F !! a)) (Hold : old ∈ a :: nodes F a) (Hnew : loose F new) (Hne : new ≠ old)
  (Hal : allocated h new).

Lemma new_apart : new ∉ a :: nodes F a.
Proof.
  pose proof (nodes_circle F a Ha) as E. intros Hin. destruct (Hnew a _ E Hin) as [-> En]. rewrite En in Hold. set_solver.
Qed.

Lemma replace_family : ∃ h', list_replace old new h = Done (tt, h') ∧ family h' (replaced old new a F) ∧
  absent (replaced old new a F) old ∧ allocated h old.
Proof.
  pose proof new_apart as Hap. pose proof (nodes_circle F a Ha) as E. unfold replaced. revert Hap E Hold. generalize (nodes F a).
  intros l Hap E Hold. pose proof (fa_ring _ _ HF _ _ E) as Hr. pose proof (ring_alloc _ _ _ _ Hr Hold) as Hao.
  destruct (Z.eqb_spec old a) as [->|Hoa].
  - destruct (list_replace_ok h a new l Hr Hap Hal) as (h' & Er & Hr' & Ho). exists h'. split; [done|]. split; [|split; [|done]].
    + apply (family_merge h h' F new [] a l); try done; [right; by split|by left|set_solver].
    + eapply (absent_change h F _ [a; new] HF) with (d := a) (l := l); [|set_solver|by left|done|].
      * intros c Hc. rewrite lookup_insert_ne, lookup_delete_ne by set_solver. done.
      * intros c k Hc Ek. assert (c = a ∨ c = new) as [-> | ->] by set_solver; [by rewrite lookup_insert_ne, lookup_delete_eq in Ek|].
        rewrite lookup_insert_eq in Ek. injection Ek as <-. destruct Hr as [[? _]%NoDup_cons _]. set_solver.
  - apply elem_of_cons in Hold as [->|Hold]; [done|]. apply list_elem_of_split in Hold as (l1 & l2 & ->).
    destruct (ring_nodup _ _ _ _ _ Hr) as [Hxn _]. rewrite swap_middle by set_solver.
    destruct (list_replace_ok h old new (l2 ++ a :: l1) (proj1 (ring_rotate h a l1 old l2) Hr)) as (h' & Er & Hr' & Ho); [set_solver|done|].
    exists h'. split; [done|]. apply ring_rotate in Hr'. split; [|split; [|done]].
    + apply (family_merge h h' F a (l1 ++ old :: l2) new []); try done; [by left|right; by split|set_solver|set_solver|].
      eapply only_weaken; [exact Ho|set_solver].
    + eapply (absent_change h F _ [a; new] HF) with (d := a) (l := l1 ++ old :: l2); [|set_solver|by left|set_solver|].
      * intros c Hc. rewrite lookup_insert_ne, lookup_delete_ne by set_solver. done.
      * intros c k Hc Ek. assert (c = a ∨ c = new) as [-> | ->] by set_solver.
        -- rewrite lookup_insert_eq in Ek. injection Ek as <-. set_solver.
        -- rewrite lookup_insert_ne, lookup_delete_eq in Ek by set_solver. done.
Qed.

Lemma replace_gives : gives (list_replace old new) h (replaced old new a F).
Proof. destruct replace_family as (h' & E & HF' & _). by exists h'. Qed.

Lemma replace_init_gives : gives (list_replace_init old new) h (<[old := []]> (replaced old new a F)).
Proof.
  destruct replace_family as (h' & E & HF' & Hab & Hao).
  assert (Hs : safe (list_replace old new)) by (unfold list_replace; eauto 20 with heap).
  destruct (init_gives h' _ old HF' (absent_loose _ _ Hab) (Hs h _ h' E _ Hao)) as (h2 & E2 & HF2). exists h2. split; [|done].
  unfold list_replace_init. by erewrite M_bind_done by exact E.
Qed.
End replace.

(** *** Joining *)

Definition splice_core (tail : bool) (l head : Z) : HM unit :=
  if tail then prev ← load_prev head; __list_splice l prev head else next ← load_next head; __list_splice l head next.

Definition joined (tail : bool) (l a : Z) (F : lists) : lists :=
  <[a := if tail then nodes F a ++ nodes F l else nodes F l ++ nodes F a]> (delete l F).

Section splice.
Context (tail : bool) (h : heap) (F : lists) (l a : Z).
Context (HF : family h F) (Hl : is_Some (F !! l)) (Ha : is_Some (F !! a)) (Hne : l ≠ a).

Lemma splice_empty : list_empty l h = Done (bool_decide (nodes F l = []), h).
Proof. clear Ha Hne. apply list_empty_ok, (fa_ring _ _ HF), nodes_circle, Hl. Qed.

Lemma splice_core_ok : nodes F l ≠ [] →
  ∃ h', splice_core tail l a h = Done (tt, h') ∧ family h' (joined tail l a F) ∧ absent (joined tail l a F) l ∧ allocated h' l.
Proof.
  pose proof (nodes_circle F l Hl) as El. pose proof (nodes_circle F a Ha) as Ea. unfold joined. revert El Ea.
  generalize (nodes F l) as k, (nodes F a) as m. intros k m El Ea Hk.
  pose proof (fa_ring _ _ HF _ _ El) as Rl. pose proof (fa_ring _ _ HF _ _ Ea) as Ra.
  assert (Hd : ∀ z, z ∈ l :: k → z ∉ a :: m) by (intros z H1 H2; by apply Hne, (fa_disj _ _ HF l a k m z)).
  assert (Hs : safe (splice_core tail l a)) by (unfold splice_core, __list_splice; eauto 20 with heap).
  assert (∃ h', splice_core tail l a h = Done (tt, h') ∧ ring h' a (if tail then m ++ k else k ++ m) ∧ only (a :: k ++ m) h h')
    as (h' & E & Hr & Ho).
  { unfold splice_core. clear Hs. destruct tail.
    - erewrite M_bind_done by (apply load_prev_ok, (ring_prev _ _ _ Ra)).
      destruct m as [|p m _] using rev_ind; [destruct (__list_splice_ok h l k a [] Rl Hk Ra Hd) as (h' & ? & Hr & ?); exists h'; by rewrite app_nil_r in *|].
      rewrite List.last_last. apply ring_rotate in Ra. cbn [app] in Ra.
      destruct (__list_splice_ok h l k p (a :: m) Rl Hk Ra) as (h' & E & Hr & Ho); [intros z Hz; specialize (Hd z Hz); set_solver|].
      exists h'. split; [exact E|]. split; [|eapply only_weaken; [done|set_solver]]. rewrite <- app_assoc. cbn [app]. by apply ring_rotate.
    - erewrite M_bind_done by (apply load_next_ok, (ring_next _ _ _ Ra)).
      destruct (__list_splice_ok h l k a m Rl Hk Ra Hd) as (h' & ? & ? & ?). by exists h'. }
  exists h'. split; [done|]. split; [|split].
  - apply (family_merge h h' F a m l k); try done; [by left|by left|destruct tail; set_solver|eapply only_weaken; [done|set_solver]].
  - eapply (absent_change h F _ [a; l] HF) with (d := l) (l := k); [|set_solver|by left|set_solver|].
    + intros c Hc. rewrite lookup_insert_ne, lookup_delete_ne by set_solver. done.
    + intros c n Hc En. assert (c = a ∨ c = l) as [-> | ->] by set_solver; [|by rewrite lookup_insert_ne, lookup_delete_eq in En].
      rewrite lookup_insert_eq in En. injection En as <-. destruct Rl as [[Hlk _]%NoDup_cons _]. specialize (Hd l ltac:(set_solver)).
      destruct tail; set_solver.
  - apply (Hs h tt h' E). apply (ring_alloc _ _ _ l Rl). set_solver.
Qed.
End splice.

Definition spliced (tail init : bool) (l a : Z) (F : lists) : lists :=
  match nodes F l with
  | [] => F
  | _ => let F := joined tail l a F in if init then <[l := []]> F else F
  end.

Section splices.
Context (h : heap) (F : lists) (l a : Z).
Context (HF : family h F) (Hl : is_Some (F !! l)) (Ha : is_Some (F !! a)) (Hne : l ≠ a).

Lemma splice_gives_with tail (init : bool) (m : HM unit) :
  (∀ h, m h = (e ← list_empty l; if (e : bool) then mret tt
                else _ ← splice_core tail l a; if init then INIT_LIST_HEAD l else mret tt) h) →
  gives m h (spliced tail init l a F).
Proof.
  intros Hm. unfold gives. rewrite Hm. erewrite M_bind_done by (by apply (splice_empty _ F)). unfold spliced.
  destruct (nodes F l) as [|f k] eqn:Ek; [exists h; by split|]. rewrite bool_decide_eq_false_2 by done.
  destruct (splice_core_ok tail h F l a HF Hl Ha Hne) as (h1 & E1 & HF1 & Hab & Hal); [by rewrite Ek|].
  erewrite M_bind_done by exact E1. destruct init; [|by exists h1].
  by apply init_gives; [|apply absent_loose|].
Qed.

Ltac spliced_with tail init :=
  apply (splice_gives_with tail init); intros h'; apply M_bind_cong; intros [] s; [done|];
  unfold splice_core; cbv beta iota; first [rewrite M_bind_ret|rewrite <- M_bind_assoc].
Lemma list_splice_gives : gives (list_splice l a) h (spliced false false l a F).
Proof. by spliced_with false false. Qed.
Lemma list_splice_tail_gives : gives (list_splice_tail l a) h (spliced true false l a F).
Proof. by spliced_with true false. Qed.
Lemma list_splice_init_gives : gives (list_splice_init l a) h (spliced false true l a F).
Proof. by spliced_with false true. Qed.
Lemma list_splice_tail_init_gives : gives (list_splice_tail_init l a) h (spliced true true l a F).
Proof. by spliced_with true true. Qed.
End splices.

(** *** Cutting *)

Definition single (l : list Z) : bool := match l with [_] => true | _ => false end.

Lemma last_in l (a : Z) : l ≠ [] → List.last l a ∈ l.
Proof. intros Hl. induction l as [|x l _] using rev_ind; [done|]. rewrite List.last_last. set_solver. Qed.

Lemma list_is_singular_ok h a l : ring h a l → list_is_singular a h = Done (single l, h).
Proof.
  intros Hr. unfold list_is_singular. erewrite M_bind_done by (by apply list_empty_ok).
  destruct l as [|x l]; [done|]. rewrite bool_decide_eq_false_2 by done.
  erewrite M_bind_done by (apply load_next_ok, (ring_next _ _ _ Hr)). erewrite M_bind_done by (apply load_prev_ok, (ring_prev _ _ _ Hr)).
  cbn [hd]. destruct l as [|y l]; [cbn; by rewrite Z.eqb_refl|]. unfold mret, M_ret. do 2 f_equal. apply Z.eqb_neq.
  destruct Hr as [Hnd _]. apply NoDup_cons in Hnd as [_ [Hx _]%NoDup_cons]. 
  intros E. apply Hx. rewrite E. by apply (last_in (y :: l) a).
Qed.

Fixpoint upto (e : Z) (l : list Z) : list Z := match l with [] => [] | x :: l => if x =? e then [x] else x :: upto e l end.
Fixpoint after (e : Z) (l : list Z) : list Z := match l with [] => [] | x :: l => if x =? e then l else after e l end.

Lemma upto_after e k m : e ∉ k → upto e (k ++ e :: m) = k ++ [e] ∧ after e (k ++ e :: m) = m.
Proof.
  induction k as [|x k IH]; intros He; cbn; [by rewrite Z.eqb_refl|]. destruct IH as [E1 E2]; [set_solver|].
  rewrite (proj2 (Z.eqb_neq x e)) by set_solver. by rewrite E1, E2.
Qed.

(** The first nodes of [a], up to [e], become the list [l].  Nothing happens to [l]
    when [a] has no nodes. *)
Definition cut (l a e : Z) (F : lists) : lists :=
  match nodes F a with
  | [] => F
  | ns => if e =? a then <[l := []]> F else <[l := upto e ns]> (<[a := after e ns]> F)
  end.

Lemma cut_gives h F l a e : family h F → is_Some (F !! a) → e ∈ a :: nodes F a → loose F l → l ≠ a → allocated h l →
  gives (list_cut_position l a e) h (cut l a e F).
Proof.
  intros HF Ha He Hl Hne Hal. pose proof (nodes_circle F a Ha) as E. unfold cut, gives, list_cut_position.
  assert (Hap : l ∉ a :: nodes F a) by (by apply (loose_apart F l a)).
  revert E He Hap. generalize (nodes F a). intros ns E He Hap. pose proof (fa_ring _ _ HF _ _ E) as Hr.
  erewrite M_bind_done by (by apply list_empty_ok). destruct ns as [|x ns]; [by exists h|]. rewrite bool_decide_eq_false_2 by done.
  erewrite M_bind_done by (by apply list_is_singular_ok). erewrite M_bind_done by (apply load_next_ok, (ring_next _ _ _ Hr)).
  cbn [hd]. replace (single (x :: ns) && (negb (x =? e) && negb (a =? e))) with false.
  2:{ destruct ns; [|done]. cbn. destruct (Z.eqb_spec x e), (Z.eqb_spec a e); set_solver. }
  destruct (Z.eqb_spec e a) as [->|Hea]; [by apply init_gives|].
  apply elem_of_cons in He as [->|He]; [done|]. apply list_elem_of_split_l in He as (k & m & Ek & Hk).
  destruct (upto_after e k m Hk) as [E1 E2]. rewrite Ek in *. rewrite E1, E2. clear E1 E2.
  rewrite cons_middle, app_assoc in Hr, E, Hap. pose proof Hr as [Hnd _].
  assert (Hndk : NoDup (k ++ [e])) by (apply NoDup_cons in Hnd as [_ Hnd]; by apply NoDup_app in Hnd as [? _]).
  destruct (stretch_of (k ++ [e]) Hndk) as (f & t & Hs); [by destruct k|].
  assert (t = e) as ->. { destruct Hs as [_ [k' Et] _]. apply app_inj_2 in Et as [_ [= Et]]; done. }
  destruct (__list_cut_position_ok h l a (k ++ [e]) e m f Hr Hs Hap Hal) as (h' & Ec & Hrl & Hra & Ho). exists h'. split; [done|].
  apply (family_cut h h' F a (k ++ [e]) m l); try done; [by left|set_solver].
Qed.

(** ** Refinement: any sequence of operations on any lists *)

(** The last argument of a command that takes nodes off a list is that list's head. *)
Inductive list_cmd :=
  | CmdInit (x : Z)
  | CmdAdd (x a : Z)
  | CmdAddTail (x a : Z)
  | CmdDel (x a : Z)
  | CmdDelInit (x a : Z)
  | CmdMove (x b a : Z)
  | CmdMoveTail (x b a : Z)
  | CmdReplace (old new a : Z)
  | CmdReplaceInit (old new a : Z)
  | CmdSplice (l a : Z)
  | CmdSpliceTail (l a : Z)
  | CmdSpliceInit (l a : Z)
  | CmdSpliceTailInit (l a : Z)
  | CmdCut (l a e : Z).

Definition run_cmd (c : list_cmd) : HM unit :=
  match c with
  | CmdInit x => INIT_LIST_HEAD x
  | CmdAdd x a => list_add x a
  | CmdAddTail x a => list_add_tail x a
  | CmdDel x _ => list_del x
  | CmdDelInit x _ => list_del_init x
  | CmdMove x b _ => list_move x b
  | CmdMoveTail x b _ => list_move_tail x b
  | CmdReplace old new _ => list_replace old new
  | CmdReplaceInit old new _ => list_replace_init old new
  | CmdSplice l a => list_splice l a
  | CmdSpliceTail l a => list_splice_tail l a
  | CmdSpliceInit l a => list_splice_init l a
  | CmdSpliceTailInit l a => list_splice_tail_init l a
  | CmdCut l a e => list_cut_position l a e
  end.

Definition removed (x a : Z) (F : lists) : lists := <[a := without x (nodes F a)]> F.

Definition spec_cmd (c : list_cmd) (F : lists) : lists :=
  match c with
  | CmdInit x => <[x := []]> F
  | CmdAdd x a => <[a := x :: nodes F a]> (delete x F)
  | CmdAddTail x a => <[a := nodes F a ++ [x]]> (delete x F)
  | CmdDel x a => removed x a F
  | CmdDelInit x a => <[x := []]> (removed x a F)
  | CmdMove x b a => let F := removed x a F in <[b := x :: nodes F b]> F
  | CmdMoveTail x b a => let F := removed x a F in <[b := nodes F b ++ [x]]> F
  | CmdReplace old new a => replaced old new a F
  | CmdReplaceInit old new a => <[old := []]> (replaced old new a F)
  | CmdSplice l a => spliced false false l a F
  | CmdSpliceTail l a => spliced true false l a F
  | CmdSpliceInit l a => spliced false true l a F
  | CmdSpliceTailInit l a => spliced true true l a F
  | CmdCut l a e => cut l a e F
  end.

(** What list.h asks of its callers: a node is added when it is on no list, and
    taken from the list it is on; two lists are two. *)
Definition cmd_ok (c : list_cmd) (F : lists) : Prop :=
  match c with
  | CmdInit x => loose F x
  | CmdAdd x a | CmdAddTail x a => is_Some (F !! a) ∧ loose F x ∧ x ≠ a
  | CmdDel x a | CmdDelInit x a => x ∈ nodes F a
  | CmdMove x b a | CmdMoveTail x b a => x ∈ nodes F a ∧ is_Some (F !! b)
  | CmdReplace old new a | CmdReplaceInit old new a => is_Some (F !! a) ∧ old ∈ a :: nodes F a ∧ loose F new ∧ new ≠ old
  | CmdSplice l a | CmdSpliceTail l a | CmdSpliceInit l a | CmdSpliceTailInit l a => is_Some (F !! l) ∧ is_Some (F !! a) ∧ l ≠ a
  | CmdCut l a e => is_Some (F !! a) ∧ e ∈ a :: nodes F a ∧ loose F l ∧ l ≠ a
  end.

(** The nodes a command brings in. *)
Definition cmd_new (c : list_cmd) : list Z :=
  match c with
  | CmdInit x | CmdAdd x _ | CmdAddTail x _ | CmdReplace _ x _ | CmdReplaceInit _ x _ | CmdCut x _ _ => [x]
  | _ => []
  end.

Fixpoint run_cmds (cs : list list_cmd) : HM unit :=
  match cs with [] => mret tt | c :: cs => _ ← run_cmd c; run_cmds cs end.
Fixpoint cmds_ok (cs : list list_cmd) (F : lists) : Prop :=
  match cs with [] => True | c :: cs => cmd_ok c F ∧ cmds_ok cs (spec_cmd c F) end.
Definition spec_cmds (cs : list list_cmd) (F : lists) : lists := fold_left (λ F c, spec_cmd c F) cs F.

Lemma cmd_gives c h F : family h F → cmd_ok c F → Forall (allocated h) (cmd_new c) → gives (run_cmd c) h (spec_cmd c F).
Proof.
  intros HF Hok Hal. destruct c; cbn [run_cmd spec_cmd cmd_ok cmd_new] in *; rewrite ?Forall_singleton in Hal.
  - by apply init_gives.
  - destruct Hok as (? & ? & ?). by apply add_gives.
  - destruct Hok as (? & ? & ?). by apply add_tail_gives.
  - by apply del_gives.
  - by apply del_init_gives.
  - destruct Hok. by apply move_gives.
  - destruct Hok. by apply move_tail_gives.
  - destruct Hok as (? & ? & ? & ?). by apply replace_gives.
  - destruct Hok as (? & ? & ? & ?). by apply replace_init_gives.
  - destruct Hok as (? & ? & ?). by apply list_splice_gives.
  - destruct Hok as (? & ? & ?). by apply list_splice_tail_gives.
  - destruct Hok as (? & ? & ?). by apply list_splice_init_gives.
  - destruct Hok as (? & ? & ?). by apply list_splice_tail_init_gives.
  - destruct Hok as (? & ? & ? & ?). by apply cut_gives.
Qed.

Lemma cmd_safe c : safe (run_cmd c).
Proof.
  destruct c; cbn [run_cmd];
    unfold list_cut_position, list_empty, list_is_singular, __list_cut_position, list_splice_tail_init, list_splice_init, list_splice_tail,
      list_splice, __list_splice, list_replace_init, list_replace, list_move_tail, list_move, list_del_init, list_del, list_add_tail, list_add,
      INIT_LIST_HEAD, list_empty, __list_del, __list_add.
  all: repeat first [apply safe_ret|apply safe_load_next|apply safe_load_prev|apply safe_store_next|apply safe_store_prev|apply safe_if
    |apply safe_bind; [|intros ?]].
Qed.

(** C38: list.h refines finite maps of lists.  In a heap that holds any number of lists, every
    sequence of additions, deletions, moves, replacements, joins and cuts, on any of the lists and
    from one to another, that keeps to the rules of list.h runs without an
    invalid access, and the lists the heap then holds, none sharing a node with another, are those the same
    operations give on a map from heads to lists of nodes. *)
Theorem list_family_refines cs : ∀ h F, family h F → cmds_ok cs F → Forall (allocated h) (cs ≫= cmd_new) →
  ∃ h', run_cmds cs h = Done (tt, h') ∧ family h' (spec_cmds cs F).
Proof.
  induction cs as [|c cs IH]; intros h F HF Hok Hal; [by exists h|]. destruct Hok as [Hc Hcs].
  rewrite bind_cons in Hal. apply Forall_app in Hal as [Hn Hal]. destruct (cmd_gives c h F HF Hc Hn) as (h1 & E & HF1).
  destruct (IH h1 _ HF1 Hcs) as (h' & E' & HF'). { eapply Forall_impl; [exact Hal|]. intros x. by apply (cmd_safe c h tt h1 E). }
  exists h'. split; [|done]. cbn [run_cmds]. by erewrite M_bind_done by exact E.
Qed.

#[export] Instance cmd_ok_dec c F : Decision (cmd_ok c F).
Proof. destruct c; cbn [cmd_ok]; apply _. Defined.
#[export] Instance cmds_ok_dec cs : ∀ F, Decision (cmds_ok cs F).
Proof. induction cs as [|c cs IH]; intros F; cbn [cmds_ok]; [apply _|]. pose proof (IH (spec_cmd c F)). apply _. Defined.

(** Two heads and four nodes, not linked to anything. *)
Definition loose_nodes : heap :=
  Heap (list_to_map ((λ x, (x, 0)) <$> seqZ 1 6)) (list_to_map ((λ x, (x, 0)) <$> seqZ 1 6)).

Definition cmds_example : list list_cmd :=
  [CmdInit 1; CmdInit 2; CmdAdd 3 1; CmdAddTail 4 1; CmdAddTail 5 2; CmdReplace 4 6 1; CmdSpliceTailInit 1 2; CmdCut 1 2 3;
   CmdMove 6 1 2].

Lemma list_family_refines_witness :
  ∃ h', run_cmds cmds_example loose_nodes = Done (tt, h') ∧ family h' {[1 := [6; 5; 3]; 2 := []]}.
Proof.
  destruct (list_family_refines cmds_example loose_nodes ∅) as (h' & E & HF).
  - constructor; intros * E; by rewrite lookup_empty in E.
  - apply (bool_decide_unpack _). vm_compute. exact I.
  - cbn. repeat constructor; cbn; by eexists.
  - exists h'. split; [exact E|]. exact HF.
Defined.
