(* ===== verification/Hlist.v ===== *)
(** * list.h: lists with a one-pointer head

    A [struct hlist_head] is the pointer to the first node, a [struct hlist_node]
    the pointer to the next one and [pprev], the address of the pointer that
    points to the node: the head's, or the node's before it.  The pointer is the first
    member of both structures, so a head and a node are the addresses of
    their pointers: [c_cell] maps those to what they point to, NULL being 0, and
    [c_pprev] the nodes to their [pprev]. *)

From S2P Require Import Prelude Dlist Families.
Open Scope Z_scope.

(** ** Memory *)

(* C: pitcher/list.h hlist_node 603-609 *)
Record hheap := HHeap {
  c_cell : gmap Z Z;
  c_pprev : gmap Z Z
}.

Abbreviation HHM := (M hheap).

Definition set_cell (x v : Z) (s : hheap) : hheap := HHeap (<[x := v]> (c_cell s)) (c_pprev s).
Definition set_pprev (x v : Z) (s : hheap) : hheap := HHeap (c_cell s) (<[x := v]> (c_pprev s)).

Definition load_cell (x : Z) : HHM Z := λ s, obind (λ v, Done (v, s)) (of_option (c_cell s !! x)).
Definition load_pprev (x : Z) : HHM Z := λ s, obind (λ v, Done (v, s)) (of_option (c_pprev s !! x)).
Definition store_cell (x v : Z) : HHM unit := λ s, match c_cell s !! x with Some _ => Done (tt, set_cell x v s) | None => UB end.
Definition store_pprev (x v : Z) : HHM unit := λ s, match c_pprev s !! x with Some _ => Done (tt, set_pprev x v s) | None => UB end.

(** [if (p) p->pprev = v;] *)
Definition store_pprev_of (p v : Z) : HHM unit := if negb (p =? 0) then store_pprev p v else mret tt.

(** ** Operations *)

(* C: pitcher/list.h INIT_HLIST_HEAD 613-613 *)
Definition INIT_HLIST_HEAD (ptr : Z) : HHM unit := store_cell ptr 0.

(* C: pitcher/list.h INIT_HLIST_NODE *)
Definition INIT_HLIST_NODE (h : Z) : HHM unit := _ ← store_cell h 0; store_pprev h 0.

(* C: pitcher/list.h hlist_unhashed *)
Definition hlist_unhashed (h : Z) : HHM bool := pprev ← load_pprev h; mret (pprev =? 0).

(* C: pitcher/list.h hlist_empty *)
Definition hlist_empty (h : Z) : HHM bool := first ← load_cell h; mret (first =? 0).

(* C: pitcher/list.h __hlist_del *)
Definition __hlist_del (n : Z) : HHM unit :=
  next ← load_cell n;
  pprev ← load_pprev n;
  _ ← store_cell pprev next;
  store_pprev_of next pprev.

(* C: pitcher/list.h hlist_del *)
Definition hlist_del (n : Z) : HHM unit := _ ← __hlist_del n; _ ← store_cell n 0; store_pprev n 0.

(* C: pitcher/list.h hlist_del_init *)
Definition hlist_del_init (n : Z) : HHM unit :=
  unhashed ← hlist_unhashed n;
  if negb unhashed then _ ← __hlist_del n; INIT_HLIST_NODE n else mret tt.

(* C: pitcher/list.h hlist_add_head *)
Definition hlist_add_head (n h : Z) : HHM unit :=
  first ← load_cell h;
  _ ← store_cell n first;
  _ ← store_pprev_of first n;
  _ ← store_cell h n;
  store_pprev n h.

(* C: pitcher/list.h hlist_add_before *)
Definition hlist_add_before (n next : Z) : HHM unit :=
  pprev ← load_pprev next;
  _ ← store_pprev n pprev;
  _ ← store_cell n next;
  _ ← store_pprev next n;
  pprev ← load_pprev n;
  store_cell pprev n.

(** It is [next] that is added, behind [n]. *)
(* C: pitcher/list.h hlist_add_after *)
Definition hlist_add_after (n next : Z) : HHM unit :=
  v ← load_cell n;
  _ ← store_cell next v;
  _ ← store_cell n next;
  _ ← store_pprev next n;
  v ← load_cell next;
  store_pprev_of v next.

(* C: pitcher/list.h hlist_move_list *)
Definition hlist_move_list (old newnode : Z) : HHM unit :=
  first ← load_cell old;
  _ ← store_cell newnode first;
  first ← load_cell newnode;
  _ ← store_pprev_of first newnode;
  store_cell old 0.

(** ** What a heap holds *)

(** From the pointer at [p], node after node. *)
Fixpoint threaded (s : hheap) (p : Z) (l : list Z) : Prop :=
  match l with
  | [] => True
  | n :: l => c_cell s !! p = Some n ∧ n ≠ 0 ∧ c_pprev s !! n = Some p ∧ threaded s n l
  end.

Record hlist (s : hheap) (a : Z) (l : list Z) : Prop := {
  hl_nodup : NoDup (a :: l);
  hl_nodes : threaded s a l;
  hl_end : c_cell s !! List.last l a = Some 0
}.

Lemma last_of (p n : Z) l : List.last (n :: l) p = List.last l n.
Proof. revert p n. induction l as [|m l IH]; intros p n; [done|]. transitivity (List.last (m :: l) p); [done|]. by rewrite (IH p m), (IH n m). Qed.

Lemma last_behind (p : Z) l1 l2 : List.last (l1 ++ l2) p = List.last l2 (List.last l1 p).
Proof. revert p. induction l1 as [|n l1 IH]; intros p; [done|]. cbn [app]. rewrite !last_of. apply IH. Qed.

Lemma threaded_app s p l1 l2 : threaded s p (l1 ++ l2) ↔ threaded s p l1 ∧ threaded s (List.last l1 p) l2.
Proof.
  revert p. induction l1 as [|n l1 IH]; intros p; [cbn; tauto|]. rewrite last_of. cbn [app threaded]. rewrite IH. tauto.
Qed.

Lemma threaded_nz s p l z : threaded s p l → z ∈ l → z ≠ 0.
Proof. revert p. induction l as [|n l IH]; intros p Ht Hz; [set_solver|]. destruct Ht as (_ & Hn & _ & Ht). set_unfold. naive_solver. Qed.

Lemma threaded_alloc s p l z : threaded s p l → z ∈ l → is_Some (c_pprev s !! z).
Proof.
  revert p. induction l as [|n l IH]; intros p Ht Hz; [set_solver|]. destruct Ht as (_ & _ & Hn & Ht).
  apply elem_of_cons in Hz as [->|Hz]; [by eexists|by eapply IH].
Qed.

(** All but the last pointer, and the nodes' [pprev], are read. *)
Lemma threaded_keep s s' p l : NoDup (p :: l) → threaded s p l →
  (∀ z, z ∈ p :: l → z ≠ List.last l p → c_cell s' !! z = c_cell s !! z) → (∀ z, z ∈ l → c_pprev s' !! z = c_pprev s !! z) →
  threaded s' p l.
Proof.
  revert p. induction l as [|n l IH]; intros p Hnd Ht Hc Hp; [done|]. destruct Ht as (H1 & H2 & H3 & Ht). rewrite last_of in Hc.
  apply NoDup_cons in Hnd as [Hpn Hnd]. pose proof (last_elem n l) as Hl. cbn [threaded].
  assert (p ≠ List.last l n) by (intros E; apply Hpn; rewrite E; set_solver). split_and!; [rewrite Hc; [done|set_solver|done]|done|rewrite Hp; [done|set_solver]|].
  apply IH; [done|done|..]; [intros z Hz Hne; apply Hc; [set_solver|done]|intros z Hz; apply Hp; set_solver].
Qed.

Definition same_but (L : list Z) (s s' : hheap) : Prop :=
  ∀ z, z ∉ L → c_cell s' !! z = c_cell s !! z ∧ c_pprev s' !! z = c_pprev s !! z.

Lemma hlist_frame L s s' a l : hlist s a l → same_but L s s' → (∀ z, z ∈ a :: l → z ∉ L) → hlist s' a l.
Proof.
  intros [Hnd Ht He] Hs Hd. pose proof (last_elem a l) as Hl. constructor; [done| |by rewrite (proj1 (Hs _ (Hd _ Hl)))].
  apply (threaded_keep s); [done|done|..]; intros z Hz; intros; apply Hs, Hd; set_solver.
Qed.

#[export] Instance hlist_rep : ListRep hheap := {|
  rep := hlist;
  only_on := same_but;
  rep_nodup := hl_nodup;
  rep_frame := hlist_frame
|}.

(** A stretch of pointers that is not written stays, with its end. *)
Lemma threaded_after s s' p l : NoDup (p :: l) → threaded s p l →
  (∀ z, z ∈ p :: l → c_cell s' !! z = c_cell s !! z) → (∀ z, z ∈ l → c_pprev s' !! z = c_pprev s !! z) →
  threaded s' p l ∧ c_cell s' !! List.last l p = c_cell s !! List.last l p.
Proof. intros Hnd Ht Hc Hp. split; [apply (threaded_keep s); auto|apply Hc, last_elem]. Qed.

Section insert.
Context (s s' : hheap) (a n : Z) (l1 l2 : list Z).
Abbreviation q := (List.last l1 a).

(** The parts of a list around the pointer [q]. *)
Lemma hlist_parts : hlist s a (l1 ++ l2) → NoDup (a :: l1) ∧ threaded s a l1 ∧ threaded s q l2 ∧
  c_cell s !! List.last l2 q = Some 0 ∧ c_cell s !! q = Some (hd 0 l2) ∧ NoDup l2 ∧ (∀ z, z ∈ a :: l1 → z ∉ l2) ∧ q ∈ a :: l1.
Proof.
  intros [Hnd Ht He]. rewrite app_comm_cons in Hnd. apply NoDup_app in Hnd as (H1 & H2 & H3). apply threaded_app in Ht as [T1 T2].
  rewrite last_behind in He. pose proof (last_elem a l1). split_and!; try done. destruct l2 as [|x l]; [done|]. by destruct T2.
Qed.

(** [n] is linked in behind [q]. *)
Lemma hlist_insert : hlist s a (l1 ++ l2) → n ∉ a :: l1 ++ l2 → n ≠ 0 →
  c_cell s' !! q = Some n → c_cell s' !! n = Some (hd 0 l2) → c_pprev s' !! n = Some q →
  (∀ x, head l2 = Some x → c_pprev s' !! x = Some n) →
  (∀ z, z ≠ n → z ≠ q → c_cell s' !! z = c_cell s !! z) →
  (∀ z, z ≠ n → head l2 ≠ Some z → c_pprev s' !! z = c_pprev s !! z) → hlist s' a (l1 ++ n :: l2).
Proof.
  intros Hh Hn Hn0 Eq En Ep Ex Hc Hp. destruct (hlist_parts Hh) as (N1 & T1 & T2 & He & _ & N2 & Hd & Hq).
  assert (Hnl : n ∉ a :: l1 ∧ n ∉ l2) by set_solver. destruct Hnl as [Hn1 Hn2].
  assert (T1' : threaded s' a l1).
  { apply (threaded_keep s); [done|done|..]; intros z Hz; [intros Hzq; apply Hc; [by intros ->|done]|].
    apply Hp; [intros ->; set_solver|]. intros E. apply (Hd z); [set_solver|]. destruct l2; [done|]. injection E as ->. set_solver. }
  assert (Hrest : threaded s' n l2 ∧ c_cell s' !! List.last l2 n = Some 0).
  { destruct l2 as [|x l]; [by split|]. destruct T2 as (_ & Hx & _ & T2). rewrite !last_of in *.
    apply NoDup_cons in N2 as [Hxl N2].
    destruct (threaded_after s s' x l) as [T2' El]; [by apply NoDup_cons|done|..].
    - intros z Hz. apply Hc; [by intros ->|]. intros ->. by apply (Hd q).
    - intros z Hz. apply Hp; [intros ->; set_solver|]. intros [= ->]. done.
    - rewrite El. split; [|done]. cbn [threaded]. split_and!; try done. by apply Ex. }
  destruct Hrest as [T2' He']. constructor.
  - rewrite app_comm_cons. apply NoDup_app. split; [done|]. split; [set_solver|by apply NoDup_cons].
  - apply threaded_app. by split.
  - by rewrite last_behind, last_of.
Qed.

(** The node behind [q] is taken out. *)
Lemma hlist_remove : hlist s a (l1 ++ n :: l2) →
  c_cell s' !! q = Some (hd 0 l2) → (∀ x, head l2 = Some x → c_pprev s' !! x = Some q) →
  (∀ z, z ≠ q → c_cell s' !! z = c_cell s !! z) → (∀ z, head l2 ≠ Some z → c_pprev s' !! z = c_pprev s !! z) → hlist s' a (l1 ++ l2).
Proof.
  intros [Hnd Ht He] Eq Ex Hc Hp. rewrite app_comm_cons in Hnd. apply NoDup_app in Hnd as (N1 & Hd & N2).
  apply threaded_app in Ht as [T1 T2]. destruct T2 as (_ & _ & _ & T2). apply NoDup_cons in N2 as [Hn2 N2]. pose proof (last_elem a l1) as Hq.
  assert (T1' : threaded s' a l1).
  { apply (threaded_keep s); [done|done|..]; intros z Hz; [intros Hzq; by apply Hc|].
    apply Hp. intros E. apply (Hd z); [set_solver|]. destruct l2; [done|]. injection E as ->. set_solver. }
  assert (Hrest : threaded s' q l2 ∧ c_cell s' !! List.last l2 q = Some 0).
  { rewrite last_behind, last_of in He.
    destruct l2 as [|x l]; [by split|]. destruct T2 as (_ & Hx & _ & T2). rewrite !last_of in *.
    pose proof N2 as [Hxl _]%NoDup_cons.
    destruct (threaded_after s s' x l) as [T2' El]; [done|done|..].
    - intros z Hz. apply Hc. intros ->. apply (Hd q); [done|set_solver].
    - intros z Hz. apply Hp. intros [= ->]. done.
    - rewrite El. split; [|done]. cbn [threaded]. split_and!; try done. by apply Ex. }
  destruct Hrest as [T2' He']. constructor.
  - rewrite app_comm_cons. apply NoDup_app. split; [done|]. split; [set_solver|done].
  - apply threaded_app. by split.
  - by rewrite last_behind.
Qed.
End insert.

(** ** The operations *)

Lemma load_cell_ok x v s : c_cell s !! x = Some v → load_cell x s = Done (v, s).
Proof. intros E. unfold load_cell. by rewrite E. Qed.
Lemma load_pprev_ok x v s : c_pprev s !! x = Some v → load_pprev x s = Done (v, s).
Proof. intros E. unfold load_pprev. by rewrite E. Qed.
Lemma store_cell_ok x v s : is_Some (c_cell s !! x) → store_cell x v s = Done (tt, set_cell x v s).
Proof. intros [w E]. unfold store_cell. by rewrite E. Qed.
Lemma store_pprev_ok x v s : is_Some (c_pprev s !! x) → store_pprev x v s = Done (tt, set_pprev x v s).
Proof. intros [w E]. unfold store_pprev. by rewrite E. Qed.

(** [v] becomes the [pprev] of the first node of [l], if there is one. *)
Definition linked_back (l : list Z) (v : Z) (s : hheap) : hheap :=
  HHeap (c_cell s) (match l with [] => c_pprev s | x :: _ => <[x := v]> (c_pprev s) end).

Lemma store_pprev_of_ok s l v : (∀ x, head l = Some x → x ≠ 0 ∧ is_Some (c_pprev s !! x)) →
  store_pprev_of (hd 0 l) v s = Done (tt, linked_back l v s).
Proof.
  unfold store_pprev_of, linked_back. intros Hl. destruct l as [|x l]; [by destruct s|]. destruct (Hl x eq_refl) as [Hx Hp]. cbn [hd].
  rewrite (proj2 (Z.eqb_neq x 0)) by done. by apply store_pprev_ok.
Qed.

Lemma threaded_head s p l x : threaded s p l → head l = Some x → x ≠ 0 ∧ is_Some (c_pprev s !! x).
Proof. intros Ht Ex. destruct l as [|y l]; [done|]. injection Ex as ->. destruct Ht as (_ & ? & ? & _). by split; [|eexists]. Qed.

Lemma linked_back_head l v s x : head l = Some x → c_pprev (linked_back l v s) !! x = Some v.
Proof. destruct l; [done|]. intros [= ->]. cbn. by rewrite lookup_insert_eq. Qed.
Lemma linked_back_other l v s z : head l ≠ Some z → c_pprev (linked_back l v s) !! z = c_pprev s !! z.
Proof. destruct l as [|x l]; [done|]. intros Hz. cbn. rewrite lookup_insert_ne; [done|]. by intros ->. Qed.
Lemma linked_back_some l v s z : is_Some (c_pprev s !! z) → is_Some (c_pprev (linked_back l v s) !! z).
Proof. destruct l as [|x l]; [done|]. cbn. apply is_Some_insert. Qed.

Definition in_heap (s : hheap) (x : Z) : Prop := is_Some (c_cell s !! x) ∧ is_Some (c_pprev s !! x).

(** Runs the next load or store. *)
Ltac cstep :=
  match goal with
  | |- context [mbind _ (store_cell _ _)] => erewrite M_bind_done by (apply store_cell_ok; cbn [c_cell set_cell set_pprev linked_back]; eauto with heap)
  | |- context [mbind _ (store_pprev _ _)] =>
      erewrite M_bind_done by (apply store_pprev_ok; cbn [c_pprev set_cell set_pprev]; eauto using linked_back_some with heap)
  | |- context [store_cell _ _ _] => rewrite store_cell_ok by (cbn [c_cell set_cell set_pprev linked_back]; eauto with heap)
  | |- context [store_pprev _ _ _] => rewrite store_pprev_ok by (cbn [c_pprev set_cell set_pprev]; eauto using linked_back_some with heap)
  end.

Section ops.
Context (s : hheap) (a : Z) (l1 l2 : list Z).
Abbreviation q := (List.last l1 a).

(** Linking in [n] behind [q], in the order of the three functions. *)
Definition added (n : Z) : hheap :=
  HHeap (<[q := n]> (<[n := hd 0 l2]> (c_cell s))) (<[n := q]> (c_pprev (linked_back l2 n s))).

Lemma added_hlist n : hlist s a (l1 ++ l2) → n ∉ a :: l1 ++ l2 → n ≠ 0 → hlist (added n) a (l1 ++ n :: l2).
Proof.
  intros Hh Hn Hn0. destruct (hlist_parts _ _ _ _ Hh) as (_ & _ & T2 & _ & _ & _ & _ & Hq).
  assert (Hnq : q ≠ n) by (intros E; rewrite E in Hq; set_solver).
  apply (hlist_insert s); [done..| | | | | |]; cbn [added c_cell c_pprev].
  - by rewrite lookup_insert_eq.
  - by rewrite lookup_insert_ne, lookup_insert_eq.
  - by rewrite lookup_insert_eq.
  - intros x Ex. rewrite lookup_insert_ne; [by apply linked_back_head|]. intros ->. apply Hn. destruct l2; [done|]. injection Ex as ->. set_solver.
  - intros z Hz Hzq. by rewrite !lookup_insert_ne.
  - intros z Hz Hzx. rewrite lookup_insert_ne by done. by apply linked_back_other.
Qed.

Lemma added_same n : same_but (n :: a :: l1 ++ l2) s (added n).
Proof.
  intros z Hz. pose proof (last_elem a l1) as Hq. assert (z ≠ n ∧ z ≠ q) as [Hzn Hzq] by (split; [set_solver|intros ->; set_solver]).
  cbn [added c_cell c_pprev]. rewrite !lookup_insert_ne by done. split; [done|]. apply linked_back_other.
  intros E. destruct l2; [done|]. injection E as ->. set_solver.
Qed.

Definition dropped : hheap := HHeap (<[q := hd 0 l2]> (c_cell s)) (c_pprev (linked_back l2 q s)).

Lemma __hlist_del_ok n : hlist s a (l1 ++ n :: l2) →
  __hlist_del n s = Done (tt, dropped) ∧ hlist dropped a (l1 ++ l2) ∧ same_but (a :: l1 ++ n :: l2) s dropped ∧
  c_pprev s !! n = Some q ∧ n ≠ 0.
Proof.
  intros Hh. destruct (hlist_parts _ _ _ _ Hh) as (_ & T1 & T2 & _ & Eq & N2 & Hd & Hq).
  pose proof (hlist_parts s a (l1 ++ [n]) l2) as Hp. rewrite last_behind, <- app_assoc in Hp. destruct (Hp Hh) as (_ & _ & T3 & _ & En & _). clear Hp.
  cbn [List.last] in *. destruct T2 as (_ & Hn0 & Epn & _). split_and!; try done.
  - unfold __hlist_del. erewrite M_bind_done by (by apply load_cell_ok). erewrite M_bind_done by (by apply load_pprev_ok). cstep.
    rewrite store_pprev_of_ok; [done|]. intros x. cbn. by apply (threaded_head s n).
  - apply (hlist_remove s) with (n := n); [done|cbn; by rewrite lookup_insert_eq| | |].
    + intros x. apply linked_back_head.
    + intros z Hz. cbn. by rewrite lookup_insert_ne.
    + intros z. apply linked_back_other.
  - intros z Hz. cbn [dropped c_cell c_pprev]. rewrite lookup_insert_ne by (intros <-; set_solver). split; [done|].
    apply linked_back_other. intros E. destruct l2; [done|]. injection E as ->. set_solver.
Qed.
End ops.

Section adds.
Context (s : hheap) (a n : Z) (Hal : in_heap s n) (Hn0 : n ≠ 0).

Lemma hlist_add_head_ok l : hlist s a l → n ∉ a :: l → hlist_add_head n a s = Done (tt, added s a [] l n).
Proof.
  intros Hh Hn. destruct Hal as [An Bn]. destruct (hlist_parts s a [] l Hh) as (_ & _ & T2 & _ & Ea & _). cbn [List.last] in *.
  unfold hlist_add_head. erewrite M_bind_done by (by apply load_cell_ok). cstep.
  erewrite M_bind_done by (apply store_pprev_of_ok; intros x; cbn; by apply (threaded_head s a)).
  by repeat cstep.
Qed.

(** [n] before [x], behind the pointer that points to [x]. *)
Lemma hlist_add_before_ok l1 x l2 : hlist s a (l1 ++ x :: l2) → n ∉ a :: l1 ++ x :: l2 →
  hlist_add_before n x s = Done (tt, added s a l1 (x :: l2) n).
Proof.
  intros Hh Hn. destruct Hal as [An Bn]. destruct (hlist_parts s a l1 (x :: l2) Hh) as (_ & _ & (E1 & Hx & E2 & _) & _ & _ & _ & _ & Hq).
  assert (Hnx : n ≠ x) by set_solver. assert (Hnq : List.last l1 a ≠ n) by (intros E; rewrite E in Hq; set_solver).
  unfold hlist_add_before. erewrite M_bind_done by (by apply load_pprev_ok). do 3 cstep.
  erewrite M_bind_done by (apply load_pprev_ok; cbn; by rewrite lookup_insert_ne, lookup_insert_eq by done). cstep.
  unfold added, set_cell, set_pprev, linked_back. cbn [c_cell c_pprev hd]. do 3 f_equal. by rewrite insert_insert_ne.
Qed.

(** [n] behind the node [x]. *)
Lemma hlist_add_after_ok l1 x l2 : hlist s a (l1 ++ x :: l2) → n ∉ a :: l1 ++ x :: l2 →
  hlist_add_after x n s = Done (tt, added s a (l1 ++ [x]) l2 n).
Proof.
  intros Hh Hn. destruct Hal as [An Bn]. rewrite cons_middle, app_assoc in Hh.
  destruct (hlist_parts s a (l1 ++ [x]) l2 Hh) as (_ & _ & T2 & _ & Ex & N2 & Hd & _).
  unfold added. rewrite !last_behind in *. cbn [List.last] in *. assert (Hnx : n ≠ x) by set_solver. assert (Hxl : x ∉ l2) by (apply Hd; set_solver).
  unfold hlist_add_after. erewrite M_bind_done by (by apply load_cell_ok). do 3 cstep.
  erewrite M_bind_done by (apply load_cell_ok; cbn; by rewrite lookup_insert_ne, lookup_insert_eq by done).
  rewrite store_pprev_of_ok.
  - unfold set_cell, set_pprev, linked_back. cbn [c_cell c_pprev]. do 3 f_equal. destruct l2 as [|y l2]; [done|].
    apply insert_insert_ne. set_solver.
  - intros y Ey. destruct (threaded_head s x l2 y T2 Ey) as [? ?]. cbn. split; [done|]. by apply is_Some_insert.
Qed.
End adds.

Lemma hlist_move_list_ok s old new l : hlist s old l → new ∉ old :: l → is_Some (c_cell s !! new) →
  ∃ s', hlist_move_list old new s = Done (tt, s') ∧ hlist s' new l ∧ hlist s' old [] ∧ same_but (new :: old :: l) s s'.
Proof.
  intros Hh Hn An. destruct (hlist_parts s old [] l Hh) as (_ & _ & T & He & Eo & N & Hd & _). cbn [List.last] in *.
  assert (new ≠ old ∧ new ∉ l ∧ old ∉ l) as (Hne & Hnl & Hol) by (split_and!; [set_solver..|apply Hd; set_solver]).
  set (s' := HHeap (<[old := 0]> (<[new := hd 0 l]> (c_cell s))) (c_pprev (linked_back l new s))). exists s'. split_and!.
  - unfold hlist_move_list. erewrite M_bind_done by (by apply load_cell_ok). cstep.
    erewrite M_bind_done by (apply load_cell_ok; cbn; by rewrite lookup_insert_eq).
    erewrite M_bind_done by (apply store_pprev_of_ok; intros x; cbn; by apply (threaded_head s old)). by repeat cstep.
  - assert (Hk : threaded s' new l ∧ c_cell s' !! List.last l new = Some 0).
    { destruct l as [|x l]; [cbn; by rewrite lookup_insert_ne, lookup_insert_eq|]. destruct T as (_ & Hx & _ & T). rewrite !last_of in *.
      destruct (threaded_after s s' x l N T) as [T' El].
      - intros z Hz. cbn. rewrite !lookup_insert_ne; [done|by intros ->|by intros ->].
      - intros z Hz. apply linked_back_other. apply NoDup_cons in N as [Hxl _]. by intros [= ->].
      - rewrite El. split; [|done]. cbn. rewrite lookup_insert_ne, !lookup_insert_eq by done. done. }
    destruct Hk. constructor; [by apply NoDup_cons|done..].
  - constructor; [repeat constructor; set_solver|done|]. cbn. by rewrite lookup_insert_eq.
  - intros z Hz. cbn [s' c_cell c_pprev]. rewrite !lookup_insert_ne by set_solver. split; [done|]. apply linked_back_other.
    intros E. destruct l; [done|]. injection E as ->. set_solver.
Qed.

(** Queries, and [hlist_del_init] on a node that is on no list. *)
Lemma hlist_empty_ok s a l : hlist s a l → hlist_empty a s = Done (bool_decide (l = []), s).
Proof.
  intros Hh. destruct (hlist_parts s a [] l Hh) as (_ & _ & T & _ & Ea & _). unfold hlist_empty. erewrite M_bind_done by (by apply load_cell_ok).
  unfold mret, M_ret. do 2 f_equal. destruct l as [|x l]; [done|]. destruct T as (_ & Hx & _). cbn. by apply Z.eqb_neq.
Qed.

Lemma hlist_del_init_unhashed s n : c_pprev s !! n = Some 0 → hlist_del_init n s = Done (tt, s).
Proof.
  intros E. unfold hlist_del_init. erewrite M_bind_done; [|unfold hlist_unhashed; by erewrite M_bind_done by (by apply load_pprev_ok)].
  done.
Qed.

(** ** Families of such lists *)

Definition gives (m : HHM unit) (s : hheap) (F' : lists) : Prop := ∃ s', m s = Done (tt, s') ∧ family s' F'.

Lemma init_head_gives s F x : family s F → loose F x → is_Some (c_cell s !! x) → gives (INIT_HLIST_HEAD x) s (<[x := []]> F).
Proof.
  intros HF Hx Ha. exists (set_cell x 0 s). split; [by apply store_cell_ok|]. apply (family_own s _ F x []); [done|right; by split| |set_solver|].
  - constructor; [repeat constructor; set_solver|done|]. cbn. by rewrite lookup_insert_eq.
  - intros z Hz. cbn. by rewrite lookup_insert_ne by set_solver.
Qed.

(** A new node, wherever it is linked in. *)
Lemma added_gives s F a n l1 l2 m : family s F → F !! a = Some (l1 ++ l2) → loose F n → n ≠ a → n ≠ 0 →
  (hlist s a (l1 ++ l2) → n ∉ a :: l1 ++ l2 → m s = Done (tt, added s a l1 l2 n)) →
  gives m s (<[a := l1 ++ n :: l2]> (delete n F)).
Proof.
  intros HF Ea Hn Hne Hn0 Hm. pose proof (fa_rep _ _ HF _ _ Ea) as Hh. assert (Hap : n ∉ a :: l1 ++ l2) by (intros Hin; by destruct (Hn a _ Ea Hin)).
  exists (added s a l1 l2 n). split; [by apply Hm|]. apply (family_merge s _ F a (l1 ++ l2) n []); try done.
  - by left.
  - right. by split.
  - by apply added_hlist.
  - intros z Hz. set_solver.
  - intros z Hz. apply added_same. set_solver.
Qed.

Lemma dropped_gives s F a n : family s F → n ∈ nodes F a →
  ∃ s1 q, __hlist_del n s = Done (tt, s1) ∧ family s1 (<[a := without n (nodes F a)]> F) ∧ absent (<[a := without n (nodes F a)]> F) n ∧
    c_pprev s !! n = Some q ∧ (a ≠ 0 → q ≠ 0) ∧ in_heap s1 n.
Proof.
  intros HF Hn. pose proof (nodes_home F a n Hn) as E. revert Hn E. generalize (nodes F a). intros l Hn E.
  pose proof (fa_rep _ _ HF a l E) as Hh. apply list_elem_of_split in Hn as (l1 & l2 & ->).
  destruct (__hlist_del_ok s a l1 l2 n Hh) as (Ed & Hh' & Hs & Ep & Hn0).
  pose proof (hl_nodup _ _ _ Hh) as Hnd. rewrite app_comm_cons, <- (Permutation_middle (a :: l1) l2 n) in Hnd. apply NoDup_cons in Hnd as [Hx _].
  rewrite without_middle by set_solver. exists (dropped s a l1 l2), (List.last l1 a). split_and!; [done| | |done| |].
  - apply (family_own s _ F a (l1 ++ n :: l2)); [done|by left|done|set_solver|done].
  - apply (absent_change s F _ [a] HF) with (d := a) (l := l1 ++ n :: l2); [|set_solver|by left|set_solver|].
    + intros c Hc. rewrite lookup_insert_ne by set_solver. done.
    + intros c k ->%list_elem_of_singleton Ek. rewrite lookup_insert_eq in Ek. by injection Ek as <-.
  - intros Ha. pose proof (last_elem a l1) as Hq. apply elem_of_cons in Hq as [->|Hq]; [done|].
    destruct (hlist_parts s a l1 (n :: l2) Hh) as (_ & T1 & _). by eapply threaded_nz.
  - split; cbn [dropped c_cell c_pprev].
    + apply is_Some_insert. pose proof (hlist_parts s a (l1 ++ [n]) l2) as Hp. rewrite last_behind, <- app_assoc in Hp.
      destruct (Hp Hh) as (_ & _ & _ & _ & En & _). by eexists.
    + apply linked_back_some. by eexists.
Qed.

Section del.
Context (s : hheap) (F : lists) (n a : Z) (HF : family s F) (Hn : n ∈ nodes F a).
Abbreviation F1 := (<[a := without n (nodes F a)]> F).

(** The two pointers of a node on no list are cleared. *)
Lemma cleared_gives s1 : family s1 F1 → absent F1 n → in_heap s1 n → gives (_ ← store_cell n 0; store_pprev n 0) s1 F1.
Proof.
  intros HF1 Hab [A B]. exists (set_pprev n 0 (set_cell n 0 s1)). split; [by repeat cstep|].
  apply (family_touch s1 _ _ n HF1 Hab). intros z Hz. cbn. by rewrite !lookup_insert_ne by set_solver.
Qed.

Lemma node_del_gives : gives (hlist_del n) s F1.
Proof.
  destruct (dropped_gives s F a n HF Hn) as (s1 & q & Ed & HF1 & Hab & _ & _ & Hal).
  destruct (cleared_gives s1 HF1 Hab Hal) as (s' & E & HF'). exists s'. split; [|done]. unfold hlist_del. by erewrite M_bind_done by exact Ed.
Qed.

Lemma node_del_init_gives : a ≠ 0 → gives (hlist_del_init n) s F1.
Proof.
  intros Ha. destruct (dropped_gives s F a n HF Hn) as (s1 & q & Ed & HF1 & Hab & Ep & Hq & Hal).
  destruct (cleared_gives s1 HF1 Hab Hal) as (s' & E & HF'). exists s'. split; [|done]. unfold hlist_del_init.
  erewrite M_bind_done; [|unfold hlist_unhashed; by erewrite M_bind_done by (by apply load_pprev_ok)].
  rewrite (proj2 (Z.eqb_neq q 0)) by auto. cbn [negb]. by erewrite M_bind_done by exact Ed.
Qed.
End del.

Lemma move_list_gives s F old new : family s F → is_Some (F !! old) → loose F new → new ≠ old → is_Some (c_cell s !! new) →
  gives (hlist_move_list old new) s (<[new := nodes F old]> (<[old := []]> F)).
Proof.
  intros HF Ho Hn Hne Ha. pose proof (nodes_circle F old Ho) as E. revert E. generalize (nodes F old). intros l E.
  pose proof (fa_rep _ _ HF _ _ E) as Hh. assert (Hap : new ∉ old :: l) by (intros Hin; by destruct (Hn old _ E Hin)).
  destruct (hlist_move_list_ok s old new l Hh Hap Ha) as (s' & Em & H1 & H2 & H3). exists s'. split; [done|].
  apply (family_cut s s' F old l [] new); rewrite ?app_nil_r; try done; [by left|set_solver|by apply Hh].
Qed.

(** ** Refinement *)

(** The last argument of a command on a node is the head of the list it is on. *)
Inductive hlist_cmd :=
  | HInit (x : Z)
  | HAddHead (n a : Z)
  | HAddBefore (n x a : Z)
  | HAddAfter (n x a : Z)
  | HDel (n a : Z)
  | HDelInit (n a : Z)
  | HMoveList (old new : Z).

Definition run_hcmd (c : hlist_cmd) : HHM unit :=
  match c with
  | HInit x => INIT_HLIST_HEAD x
  | HAddHead n a => hlist_add_head n a
  | HAddBefore n x _ => hlist_add_before n x
  | HAddAfter n x _ => hlist_add_after x n
  | HDel n _ => hlist_del n
  | HDelInit n _ => hlist_del_init n
  | HMoveList old new => hlist_move_list old new
  end.

Definition before (n x : Z) (l : list Z) : list Z := l ≫= λ y, if y =? x then [n; y] else [y].
Definition behind (n x : Z) (l : list Z) : list Z := l ≫= λ y, if y =? x then [y; n] else [y].

Definition spec_hcmd (c : hlist_cmd) (F : lists) : lists :=
  match c with
  | HInit x => <[x := []]> F
  | HAddHead n a => <[a := n :: nodes F a]> (delete n F)
  | HAddBefore n x a => <[a := before n x (nodes F a)]> (delete n F)
  | HAddAfter n x a => <[a := behind n x (nodes F a)]> (delete n F)
  | HDel n a | HDelInit n a => <[a := without n (nodes F a)]> F
  | HMoveList old new => <[new := nodes F old]> (<[old := []]> F)
  end.

Definition hcmd_ok (c : hlist_cmd) (F : lists) : Prop :=
  match c with
  | HInit x => loose F x
  | HAddHead n a => is_Some (F !! a) ∧ loose F n ∧ n ≠ a ∧ n ≠ 0
  | HAddBefore n x a | HAddAfter n x a => x ∈ nodes F a ∧ loose F n ∧ n ≠ a ∧ n ≠ 0
  | HDel n a => n ∈ nodes F a
  | HDelInit n a => n ∈ nodes F a ∧ a ≠ 0
  | HMoveList old new => is_Some (F !! old) ∧ loose F new ∧ new ≠ old
  end.

(** The memory a command needs: a pointer for a head, two for a node. *)
Definition hcmd_room (s : hheap) (c : hlist_cmd) : Prop :=
  match c with
  | HInit x | HMoveList _ x => is_Some (c_cell s !! x)
  | HAddHead n _ | HAddBefore n _ _ | HAddAfter n _ _ => in_heap s n
  | HDel _ _ | HDelInit _ _ => True
  end.

Fixpoint run_hcmds (cs : list hlist_cmd) : HHM unit :=
  match cs with [] => mret tt | c :: cs => _ ← run_hcmd c; run_hcmds cs end.
Fixpoint hcmds_ok (cs : list hlist_cmd) (F : lists) : Prop :=
  match cs with [] => True | c :: cs => hcmd_ok c F ∧ hcmds_ok cs (spec_hcmd c F) end.
Definition spec_hcmds (cs : list hlist_cmd) (F : lists) : lists := fold_left (λ F c, spec_hcmd c F) cs F.

Lemma once_mapped (x : Z) (u : Z → list Z) l1 l2 : x ∉ l1 ++ l2 →
  ((l1 ++ x :: l2) ≫= λ y, if y =? x then u y else [y]) = l1 ++ u x ++ l2.
Proof.
  intros Hx. assert (Hl : ∀ l, x ∉ l → (l ≫= λ y, if y =? x then u y else [y]) = l).
  { induction l as [|y l IH]; intros Hn; [done|]. rewrite bind_cons, IH by set_solver. rewrite (proj2 (Z.eqb_neq y x)) by set_solver. done. }
  rewrite bind_app, bind_cons, Z.eqb_refl, !Hl by set_solver. done.
Qed.

(** Where [x] stands on its list. *)
Lemma node_place s F a x : family s F → x ∈ nodes F a → ∃ l1 l2, nodes F a = l1 ++ x :: l2 ∧ x ∉ l1 ++ l2.
Proof.
  intros HF Hx. pose proof (fa_rep _ _ HF a _ (nodes_home F a x Hx)) as Hh. apply list_elem_of_split in Hx as (l1 & l2 & E).
  exists l1, l2. split; [done|]. pose proof (hl_nodup _ _ _ Hh) as Hnd. rewrite E in Hnd. apply NoDup_cons in Hnd as [_ Hnd].
  rewrite <- (Permutation_middle l1 l2 x) in Hnd. by apply NoDup_cons in Hnd as [? _].
Qed.

Lemma hcmd_gives c s F : family s F → hcmd_ok c F → hcmd_room s c → gives (run_hcmd c) s (spec_hcmd c F).
Proof.
  intros HF Hok Hr. destruct c as [x|n a|n x a|n x a|n a|n a|old new]; cbn [run_hcmd spec_hcmd hcmd_ok hcmd_room] in *.
  - by apply init_head_gives.
  - destruct Hok as (Ha & Hn & Hne & Hn0). apply (added_gives s F a n []); [done|by apply nodes_circle|done..|].
    intros Hh Hap. by apply hlist_add_head_ok.
  - destruct Hok as (Hx & Hn & Hne & Hn0). pose proof (nodes_home F a x Hx) as E. destruct (node_place s F a x HF Hx) as (l1 & l2 & El & Hxl).
    unfold before. rewrite El in *. rewrite (once_mapped x (λ y, [n; y])) by done. apply (added_gives s F a n l1 (x :: l2)); [done..|].
    intros Hh Hap. by apply hlist_add_before_ok.
  - destruct Hok as (Hx & Hn & Hne & Hn0). pose proof (nodes_home F a x Hx) as E. destruct (node_place s F a x HF Hx) as (l1 & l2 & El & Hxl).
    unfold behind. rewrite El in *. rewrite (once_mapped x (λ y, [y; n])) by done. cbn [app]. rewrite cons_middle, app_assoc.
    apply (added_gives s F a n (l1 ++ [x]) l2); [done|by rewrite <- app_assoc|done..|].
    intros Hh Hap. rewrite <- app_assoc in Hh, Hap. by apply hlist_add_after_ok.
  - by apply node_del_gives.
  - destruct Hok. by apply node_del_init_gives.
  - destruct Hok as (? & ? & ?). by apply move_list_gives.
Qed.

(** Stores do not free memory. *)
Definition grows {A} (m : HHM A) : Prop := ∀ s r s', m s = Done (r, s') →
  ∀ x, (is_Some (c_cell s !! x) → is_Some (c_cell s' !! x)) ∧ (is_Some (c_pprev s !! x) → is_Some (c_pprev s' !! x)).

Lemma grows_ret {A} (a : A) : grows (mret a).
Proof. intros s r s' E x. by injection E as <- <-. Qed.
Lemma grows_bind {A B} (m : HHM A) (f : A → HHM B) : grows m → (∀ a, grows (f a)) → grows (m ≫= f).
Proof.
  intros Hm Hf s r s' E x. unfold mbind, M_bind in E. destruct (m s) as [[a s1]| | |] eqn:Em; try done.
  destruct (Hm _ _ _ Em x), (Hf _ _ _ _ E x). auto.
Qed.
Lemma grows_load_cell x : grows (load_cell x).
Proof. intros s r s' E y. unfold load_cell in E. destruct (c_cell s !! x); [|done]. by injection E as <- <-. Qed.
Lemma grows_load_pprev x : grows (load_pprev x).
Proof. intros s r s' E y. unfold load_pprev in E. destruct (c_pprev s !! x); [|done]. by injection E as <- <-. Qed.
Lemma grows_store_cell x v : grows (store_cell x v).
Proof. intros s r s' E y. unfold store_cell in E. destruct (c_cell s !! x); [|done]. injection E as <- <-. split; [apply is_Some_insert|done]. Qed.
Lemma grows_store_pprev x v : grows (store_pprev x v).
Proof. intros s r s' E y. unfold store_pprev in E. destruct (c_pprev s !! x); [|done]. injection E as <- <-. split; [done|apply is_Some_insert]. Qed.
Lemma grows_if {A} (b : bool) (m k : HHM A) : grows m → grows k → grows (if b then m else k).
Proof. by destruct b. Qed.

Lemma hcmd_grows c : grows (run_hcmd c).
Proof.
  destruct c; cbn [run_hcmd]; unfold INIT_HLIST_HEAD, hlist_add_head, hlist_add_before, hlist_add_after, hlist_del_init, hlist_del,
    hlist_move_list, hlist_unhashed, __hlist_del, INIT_HLIST_NODE, store_pprev_of.
  all: repeat first [apply grows_ret|apply grows_load_cell|apply grows_load_pprev|apply grows_store_cell|apply grows_store_pprev|apply grows_if
    |apply grows_bind; [|intros ?]].
Qed.

Lemma room_kept c c' s s' : run_hcmd c s = Done (tt, s') → hcmd_room s c' → hcmd_room s' c'.
Proof. intros E. pose proof (hcmd_grows c s tt s' E) as Hg. unfold hcmd_room, in_heap. destruct c'; try apply Hg; naive_solver. Qed.

(** C39: the lists of list.h with a one-pointer head refine finite maps of lists.  Every sequence of
    additions (at the head, before a node, behind a node), deletions and moves of whole
    lists that takes nodes off the list they are on and adds them when they are on
    none runs without an invalid access, the pointers to pointers included, and leaves the lists that
    the same operations give on a map from heads to lists of nodes. *)
Theorem hlist_family_refines cs : ∀ s F, family s F → hcmds_ok cs F → Forall (hcmd_room s) cs →
  ∃ s', run_hcmds cs s = Done (tt, s') ∧ family s' (spec_hcmds cs F).
Proof.
  induction cs as [|c cs IH]; intros s F HF Hok Hr; [by exists s|]. destruct Hok as [Hc Hcs]. apply Forall_cons in Hr as [Hr Hrs].
  destruct (hcmd_gives c s F HF Hc Hr) as (s1 & E & HF1).
  destruct (IH s1 _ HF1 Hcs) as (s' & E' & HF'). { eapply Forall_impl; [exact Hrs|]. intros c'. by apply (room_kept c). }
  exists s'. split; [|done]. cbn [run_hcmds]. by erewrite M_bind_done by exact E.
Qed.

#[export] Instance hcmd_ok_dec c F : Decision (hcmd_ok c F).
Proof. destruct c; cbn [hcmd_ok]; apply _. Defined.
#[export] Instance hcmds_ok_dec cs : ∀ F, Decision (hcmds_ok cs F).
Proof. induction cs as [|c cs IH]; intros F; cbn [hcmds_ok]; [apply _|]. pose proof (IH (spec_hcmd c F)). apply _. Defined.

(** Two heads, 1 and 2, and three nodes. *)
Definition unlinked_nodes : hheap := HHeap (list_to_map ((λ x, (x, 0)) <$> seqZ 1 5)) (list_to_map ((λ x, (x, 0)) <$> seqZ 3 3)).
Definition hcmds_example : list hlist_cmd :=
  [HInit 1; HAddHead 3 1; HAddBefore 4 3 1; HAddAfter 5 4 1; HDelInit 4 1; HMoveList 1 2; HAddHead 4 1].

Lemma hlist_family_refines_witness :
  ∃ s', run_hcmds hcmds_example unlinked_nodes = Done (tt, s') ∧ family s' {[1 := [4]; 2 := [5; 3]]}.
Proof.
  destruct (hlist_family_refines hcmds_example unlinked_nodes ∅) as (s' & E & HF).
  - constructor; intros * E; by rewrite lookup_empty in E.
  - apply (bool_decide_unpack _). vm_compute. exact I.
  - repeat constructor; cbn; by eexists.
  - exists s'. split; [exact E|exact HF].
Defined.
