(* ===== verification/Queue.v ===== *)
(** * queue.c: FIFO queues on circular lists, with a cache of idle nodes

    A queue owns its nodes: the two list heads, the nodes holding items and at
    most [QUEUE_IDLE_MAX_THD] idle ones.  [QueueSpec] is the contract the other
    components rely on (a queue is a list of items); the second half of the
    file proves that the pointer code meets it.  Call-backs act on a state [W]
    of their own and do not reenter the queue that runs them. *)

From S2P Require Import Prelude Dlist.

(** ** Contract *)

(** What enumerating a list does: the call-back sees every item in order and
    says which ones are removed. *)
Fixpoint enum_list {W} (f : Z → W → outcome (bool * W)) (l : list Z) (w : W)
    : outcome (list Z * W) :=
  match l with
  | [] => Done ([], w)
  | x :: l =>
      '(del, w) ← f x w;
      '(l', w) ← enum_list f l w;
      Done (if (del : bool) then l' else x :: l', w)
  end.

(** The first item [compare] accepts is given to the call-back. *)
Fixpoint find_list {W} (f : option (Z → W → outcome (bool * W))) (compare : Z → bool)
    (l : list Z) (w : W) : outcome (Z * list Z * W) :=
  match l with
  | [] => Done (- RET_E_NOT_FOUND, [], w)
  | x :: l =>
      if compare x then
        match f with
        | None => Done (RET_OK, x :: l, w)
        | Some f => '(del, w) ← f x w; Done (RET_OK, if (del : bool) then l else x :: l, w)
        end
      else '(ret, l', w) ← find_list f compare l w; Done (ret, x :: l', w)
  end.

Class QueueOps (Q : Type) := {
  queue_init : bool → outcome (option Q);
  queue_destroy : Q → outcome unit;
  queue_push_back : Q → Z → outcome (Z * Q);
  queue_pop : Q → outcome (Z * option Z * Q);
  queue_is_empty : Q → outcome bool;
  queue_count : Q → outcome Z;
  queue_clear {W} : option (Z → W → outcome (bool * W)) → Q → W → outcome (Q * W);
  queue_enumerate {W} : (Z → W → outcome (bool * W)) → Q → W → outcome (Q * W);
  queue_find {W} : option (Z → W → outcome (bool * W)) → (Z → bool) → Q → W → outcome (Z * Q * W)
}.

(** The same end, the list results being represented by the queue. *)
Definition refines {A B} (R : A → B → Prop) (m : outcome A) (m' : outcome B) : Prop :=
  match m, m' with
  | Done a, Done b => R a b
  | Trap, Trap | UB, UB | NoFuel, NoFuel => True
  | _, _ => False
  end.

Lemma refines_bind {A B C D} (R : A → B → Prop) (R' : C → D → Prop) m m' f f' :
  refines R m m' → (∀ a b, R a b → refines R' (f a) (f' b)) → refines R' (m ≫= f) (m' ≫= f').
Proof. destruct m, m'; cbn; try done. intros H Hf. by apply Hf. Qed.

Lemma refines_weaken {A B} (R R' : A → B → Prop) m m' :
  refines R m m' → (∀ a b, R a b → R' a b) → refines R' m m'.
Proof. destruct m, m'; cbn; auto. Qed.

Class QueueSpec (Q : Type) `{!QueueOps Q} := {
  holds : Q → list Z → Prop;
  holds_init : queue_init (Q := Q) false = Done None ∧
    ∃ q, queue_init true = Done (Some q) ∧ holds q [];
  holds_destroy q l : holds q l → queue_destroy q = Done tt;
  holds_push q l x : holds q l →
    ∃ ret q', queue_push_back q x = Done (ret, q') ∧
      (ret = RET_OK ∧ holds q' (l ++ [x]) ∨ ret = - RET_E_NO_MEMORY ∧ holds q' l);
  holds_pop q l : holds q l →
    match l with
    | [] => ∃ q', queue_pop q = Done (- RET_E_EMPTY, None, q') ∧ holds q' []
    | x :: l' => ∃ q', queue_pop q = Done (RET_OK, Some x, q') ∧ holds q' l'
    end;
  holds_is_empty q l : holds q l → queue_is_empty q = Done (bool_decide (l = []));
  holds_count q l : holds q l → queue_count q = Done (zlen l);
  holds_clear {W} (f : Z → W → outcome (bool * W)) q l w : holds q l →
    refines (λ '(q', w') '(_, w''), holds q' [] ∧ w' = w'')
      (queue_clear (Some f) q w) (enum_list f l w);
  holds_enumerate {W} (f : Z → W → outcome (bool * W)) q l w : holds q l →
    refines (λ '(q', w') '(l', w''), holds q' l' ∧ w' = w'')
      (queue_enumerate f q w) (enum_list f l w);
  holds_find {W} (f : option (Z → W → outcome (bool * W))) cmp q l w : holds q l →
    refines (λ '(r, q', w') '(r', l', w''), r = r' ∧ holds q' l' ∧ w' = w'')
      (queue_find f cmp q w) (find_list f cmp l w)
}.

(** ** Implementation *)

(* C: pitcher/queue.c QUEUE_IDLE_MAX_THD 22-22 *)
Definition QUEUE_IDLE_MAX_THD : Z := 16.

(** The queue with the memory of its nodes; [q_nalloc] counts the nodes asked
    from [pitcher_calloc]. *)
(* C: pitcher/queue.c queue_t 24-34 *)
Record queue_t := QueueT {
  q_heap : heap;
  q_item : gmap Z Z;
  q_queue : Z;
  q_idles : Z;
  q_idle_num : Z;
  q_count : Z;
  q_nalloc : nat
}.

Abbreviation QM := (M queue_t).

Definition set_heap h q := QueueT h (q_item q) (q_queue q) (q_idles q) (q_idle_num q) (q_count q) (q_nalloc q).
Definition set_item m q := QueueT (q_heap q) m (q_queue q) (q_idles q) (q_idle_num q) (q_count q) (q_nalloc q).
Definition set_idle_num n q := QueueT (q_heap q) (q_item q) (q_queue q) (q_idles q) n (q_count q) (q_nalloc q).
Definition set_count n q := QueueT (q_heap q) (q_item q) (q_queue q) (q_idles q) (q_idle_num q) n (q_nalloc q).
Definition set_qalloc n q := QueueT (q_heap q) (q_item q) (q_queue q) (q_idles q) (q_idle_num q) (q_count q) n.

(** A list operation on the queue's nodes. *)
Definition on_heap {A} (m : HM A) : QM A := λ q,
  obind (λ '(a, h), Done (a, set_heap h q)) (m (q_heap q)).

(** [pitcher_calloc] of a node at address [x], and [pitcher_free] of it. *)
Definition new_node (x : Z) (q : queue_t) : queue_t :=
  set_item (<[x := 0]> (q_item q))
    (set_heap (Heap (<[x := 0]> (h_next (q_heap q))) (<[x := 0]> (h_prev (q_heap q)))) q).
Definition drop_node (x : Z) (q : queue_t) : queue_t :=
  set_item (delete x (q_item q))
    (set_heap (Heap (delete x (h_next (q_heap q))) (delete x (h_prev (q_heap q)))) q).

Definition load_item (x : Z) : QM Z := λ q,
  obind (λ v, Done (v, q)) (of_option (q_item q !! x)).
Definition store_item (x v : Z) : QM unit := λ q,
  match q_item q !! x with
  | Some _ => Done (tt, set_item (<[x := v]> (q_item q)) q)
  | None => UB
  end.

Section queue.
(** The allocator: the address given to the [n]-th request, if any. *)
Context (calloc : nat → heap → option Z).

(* C: pitcher/queue.c __alloc_node *)
Definition __alloc_node : QM (option Z) :=
  q ← get;
  _ ← put (set_qalloc (S (q_nalloc q)) q);
  match calloc (q_nalloc q) (q_heap q) with
  | None => mret None
  | Some node =>
      _ ← modify (new_node node);
      _ ← on_heap (INIT_LIST_HEAD node);
      mret (Some node)
  end.

(* C: pitcher/queue.c __free_node *)
Definition __free_node (node : Z) : QM unit :=
  _ ← on_heap (list_del_init node);
  modify (drop_node node).

(* C: pitcher/queue.c __get_idle_node *)
Definition __get_idle_node : QM (option Z) :=
  q ← get;
  e ← on_heap (list_empty (q_idles q));
  if (e : bool) then __alloc_node
  else
    node ← on_heap (load_next (q_idles q));
    _ ← on_heap (list_del_init node);
    _ ← modify (λ q, set_idle_num (q_idle_num q - 1) q);
    mret (Some node).

(* C: pitcher/queue.c __put_idle_node *)
Definition __put_idle_node (node : option Z) : QM unit :=
  match node with
  | None => mret tt
  | Some node =>
      q ← get;
      if q_idle_num q <? QUEUE_IDLE_MAX_THD then
        _ ← on_heap (list_add_tail node (q_idles q));
        modify (λ q, set_idle_num (q_idle_num q + 1) q)
      else __free_node node
  end.

(* C: pitcher/queue.c __remove_queue_node *)
Definition __remove_queue_node (node : option Z) : QM unit :=
  match node with
  | None => mret tt
  | Some node =>
      _ ← on_heap (list_del_init node);
      modify (λ q, set_count (q_count q - 1) q)
  end.

(* C: pitcher/queue.c __push_node_to_queue *)
Definition __push_node_to_queue (node : option Z) : QM Z :=
  match node with
  | None => mret (- RET_E_NULL_POINTER)
  | Some node =>
      q ← get;
      _ ← on_heap (list_add_tail node (q_queue q));
      _ ← modify (λ q, set_count (q_count q + 1) q);
      mret RET_OK
  end.

(* C: pitcher/queue.c __pop_node_from_queue *)
Definition __pop_node_from_queue : QM (option Z) :=
  q ← get;
  e ← on_heap (list_empty (q_queue q));
  if (e : bool) then mret None
  else
    node ← on_heap (load_next (q_queue q));
    _ ← __remove_queue_node (Some node);
    mret (Some node).

(** A fresh queue at addresses [head] and [idles] of its structure. *)
(* C: pitcher/queue.c pitcher_init_queue *)
Definition pitcher_init_queue (calloc_ok : bool) (head idles : Z) : outcome (option queue_t) :=
  if negb calloc_ok then Done None
  else
    let zero := list_to_map [(head, 0); (idles, 0)] in
    '(_, q) ← (_ ← on_heap (INIT_LIST_HEAD head); on_heap (INIT_LIST_HEAD idles))
      (QueueT (Heap zero zero) ∅ head idles 0 0 0);
    Done (Some q).

(* C: pitcher/queue.c pitcher_queue_push_back *)
Definition pitcher_queue_push_back (item : Z) : QM Z :=
  node ← __get_idle_node;
  match node with
  | None => mret (- RET_E_NO_MEMORY)
  | Some node =>
      _ ← store_item node item;
      __push_node_to_queue (Some node)
  end.

(** The item popped is the value stored through the pointer argument. *)
(* C: pitcher/queue.c pitcher_queue_pop *)
Definition pitcher_queue_pop : QM (Z * option Z) :=
  node ← __pop_node_from_queue;
  match node with
  | None => mret (- RET_E_EMPTY, None)
  | Some node =>
      item ← load_item node;
      _ ← __put_idle_node (Some node);
      mret (RET_OK, Some item)
  end.

(** [list_for_each_entry_safe]: [n] is read before the body runs, which says
    whether to go on. *)
(* C: pitcher/list.h list_for_each_entry_safe 543-547 *)
Fixpoint for_each_safe {W} (fuel : nat) (head pos n : Z) (body : Z → M (queue_t * W) bool)
    : M (queue_t * W) unit :=
  if pos =? head then mret tt
  else
    match fuel with
    | O => lift NoFuel
    | S fuel' =>
        go_on ← body pos;
        if (go_on : bool) then
          n' ← (λ '(q, w), obind (λ '(n', q), Done (n', (q, w))) (on_heap (load_next n) q));
          for_each_safe fuel' head n n' body
        else mret tt
    end.

(** An operation of the queue while a call-back's state is around. *)
Definition on_queue {W A} (m : QM A) : M (queue_t * W) A := λ '(q, w),
  obind (λ '(a, q), Done (a, (q, w))) (m q).

Definition on_arg {W A} (f : W → outcome (A * W)) : M (queue_t * W) A := λ '(q, w),
  obind (λ '(a, w), Done (a, (q, w))) (f w).

(** Every turn visits a node of the queue. *)
Definition walk {W} (body : Z → M (queue_t * W) bool) : M (queue_t * W) unit :=
  '(q, _) ← get;
  pos ← on_queue (on_heap (load_next (q_queue q)));
  n ← on_queue (on_heap (load_next pos));
  for_each_safe (Z.to_nat (q_count q)) (q_queue q) pos n body.

Definition take_out (node : Z) : QM unit :=
  _ ← __remove_queue_node (Some node);
  __put_idle_node (Some node).

(* C: pitcher/queue.c pitcher_queue_clear *)
Definition pitcher_queue_clear {W} (func : option (Z → W → outcome (bool * W))) : M (queue_t * W) unit :=
  walk (λ node,
    _ ← on_queue (__remove_queue_node (Some node));
    _ ← (match func with
         | Some func =>
             item ← on_queue (load_item node); on_arg (func item)
         | None => mret false
         end);
    _ ← on_queue (__put_idle_node (Some node));
    mret true).

(* C: pitcher/queue.c pitcher_queue_enumerate *)
Definition pitcher_queue_enumerate {W} (func : Z → W → outcome (bool * W)) : M (queue_t * W) unit :=
  walk (λ node,
    item ← on_queue (load_item node);
    del ← on_arg (func item);
    _ ← (if (del : bool) then on_queue (take_out node) else mret tt);
    mret true).

(* C: pitcher/queue.c pitcher_queue_is_empty *)
Definition pitcher_queue_is_empty : QM bool :=
  q ← get; on_heap (list_empty (q_queue q)).

(* C: pitcher/queue.c pitcher_queue_count *)
Definition pitcher_queue_count : QM Z := q ← get; mret (q_count q).

(** The early [return RET_OK] is the result left in the state. *)
(* C: pitcher/queue.c pitcher_queue_find *)
Definition pitcher_queue_find {W} (func : option (Z → W → outcome (bool * W))) (compare : Z → bool)
    : M (queue_t * (Z * W)) unit :=
  walk (λ node,
    item ← on_queue (load_item node);
    if negb (compare item) then mret true
    else
      _ ← (match func with
           | Some func =>
               del ← on_arg (λ '(r, w), obind (λ '(b, w), Done (b, (r, w))) (func item w));
               if (del : bool) then on_queue (take_out node) else mret tt
           | None => mret tt
           end);
      _ ← on_arg (λ '(_, w), Done (tt, (RET_OK, w)));
      mret false).

(** Emptying the idle list of a queue without items, in [pitcher_destroy_queue]. *)
(* C: pitcher/queue.c pitcher_destroy_queue 150-154 *)
Fixpoint free_idles (fuel : nat) (head pos n : Z) : QM unit :=
  if pos =? head then mret tt
  else
    match fuel with
    | O => lift NoFuel
    | S fuel' =>
        _ ← on_heap (list_del_init pos);
        _ ← modify (λ q, set_idle_num (q_idle_num q - 1) q);
        _ ← __free_node pos;
        n' ← on_heap (load_next n);
        free_idles fuel' head n n'
    end.

(** Freeing the structure itself is the end of the queue: what is left of the
    nodes afterwards would be leaked. *)
(* C: pitcher/queue.c pitcher_destroy_queue *)
Definition pitcher_destroy_queue : QM unit :=
  _ ← (λ q, obind (λ '(_, (q, _)), Done (tt, q)) (pitcher_queue_clear (W := unit) None (q, tt)));
  q ← get;
  pos ← on_heap (load_next (q_idles q));
  n ← on_heap (load_next pos);
  free_idles (Z.to_nat (q_idle_num q)) (q_idles q) pos n.
End queue.

(** ** The memory of a queue *)

(** [ns] the nodes with items, [ids] the idle ones, [fl] those in transit. *)
Record qshape (q : queue_t) (ns ids fl : list Z) : Prop := {
  qs_queue : ring (q_heap q) (q_queue q) ns;
  qs_idles : ring (q_heap q) (q_idles q) ids;
  qs_float : ∀ x, x ∈ fl → ring (q_heap q) x [];
  qs_nodup : NoDup (q_queue q :: q_idles q :: ns ++ ids ++ fl);
  qs_next x : is_Some (h_next (q_heap q) !! x) ↔ x ∈ q_queue q :: q_idles q :: ns ++ ids ++ fl;
  qs_prev x : is_Some (h_prev (q_heap q) !! x) ↔ x ∈ q_queue q :: q_idles q :: ns ++ ids ++ fl;
  qs_item x : is_Some (q_item q !! x) ↔ x ∈ ns ++ ids ++ fl
}.

(** A list operation that permutes the nodes keeps the shape. *)
Lemma qshape_heap q h' ns ids fl ns' ids' fl' :
  qshape q ns ids fl →
  only (q_queue q :: q_idles q :: ns ++ ids ++ fl) (q_heap q) h' →
  ring h' (q_queue q) ns' → ring h' (q_idles q) ids' → (∀ x, x ∈ fl' → ring h' x []) →
  ns' ++ ids' ++ fl' ≡ₚ ns ++ ids ++ fl →
  qshape (set_heap h' q) ns' ids' fl'.
Proof.
  intros [] Ho Hq Hi Hf Hp.
  assert (Hal : ∀ x, x ∈ q_queue q :: q_idles q :: ns' ++ ids' ++ fl' → allocated h' x).
  { intros x Hx. assert (x ∈ q_queue q :: ns' ∨ x ∈ q_idles q :: ids' ∨ x ∈ fl') as [H|[H|H]] by set_solver.
    - by eapply ring_alloc; [exact Hq|].
    - by eapply ring_alloc; [exact Hi|].
    - eapply ring_alloc; [by apply Hf|set_solver]. }
  split; cbn [set_heap q_heap q_queue q_idles q_item]; try done.
  - by rewrite Hp.
  - intros x. split.
    + intros Hx. rewrite Hp. apply qs_next0. destruct (decide (x ∈ q_queue q :: q_idles q :: ns ++ ids ++ fl)) as [H|H].
      * by apply qs_next0.
      * by rewrite <- (proj1 (Ho x H)).
    + apply Hal.
  - intros x. split.
    + intros Hx. rewrite Hp. apply qs_prev0. destruct (decide (x ∈ q_queue q :: q_idles q :: ns ++ ids ++ fl)) as [H|H].
      * by apply qs_prev0.
      * by rewrite <- (proj2 (Ho x H)).
    + apply Hal.
  - intros x. rewrite Hp. apply qs_item0.
Qed.

Lemma on_heap_done {A} (m : HM A) q a h' :
  m (q_heap q) = Done (a, h') → on_heap m q = Done (a, set_heap h' q).
Proof. intros E. unfold on_heap. by rewrite E. Qed.

Lemma set_heap_id q : set_heap (q_heap q) q = q.
Proof. by destruct q. Qed.

Lemma on_heap_read {A} (m : HM A) q a :
  m (q_heap q) = Done (a, q_heap q) → on_heap m q = Done (a, q).
Proof. intros E. by rewrite (on_heap_done m q a (q_heap q)), set_heap_id. Qed.

Lemma qshape_notin q ns ids fl x :
  qshape q ns ids fl → x ∈ fl → x ∉ q_queue q :: q_idles q :: ns ++ ids.
Proof.
  intros [] Hx. rewrite !app_comm_cons, app_assoc in qs_nodup0.
  apply NoDup_app in qs_nodup0 as (_ & Hd & _). intros H. by apply (Hd x).
Qed.

(** Moving nodes between the two lists and in transit. *)
Lemma shape_remove q l1 x l2 ids fl :
  qshape q (l1 ++ x :: l2) ids fl →
  ∃ h', on_heap (list_del_init x) q = Done (tt, set_heap h' q) ∧ qshape (set_heap h' q) (l1 ++ l2) ids (x :: fl).
Proof.
  intros Hs. pose proof Hs as []. destruct (list_del_init_ok _ _ _ _ _ qs_queue0) as (h' & E & Hr & Hx & Ho).
  exists h'. split; [by apply on_heap_done|].
  pose proof qs_nodup0 as Hnd. rewrite NoDup_cons, NoDup_cons, !NoDup_app in Hnd.
  apply (qshape_heap _ _ _ _ _ _ _ _ Hs); [eapply only_weaken; [exact Ho|set_solver]|done| | |].
  - eapply ring_only; [exact qs_idles0|exact Ho|]. set_solver.
  - intros y [->|Hy]%elem_of_cons; [done|]. eapply ring_only; [by apply qs_float0|exact Ho|].
    intros z ->%list_elem_of_singleton. set_solver.
  - by solve_Permutation.
Qed.

(** The nodes of a shape are pairwise different. *)
Lemma shape_parts q ns ids fl :
  qshape q ns ids fl →
  q_queue q ≠ q_idles q ∧
  (∀ z, z ∈ q_queue q :: ns → z ∉ q_idles q :: ids) ∧
  (∀ z, z ∈ fl → z ∉ q_queue q :: q_idles q :: ns ++ ids).
Proof.
  intros Hs. split_and!.
  - destruct Hs. intros E. rewrite E in qs_nodup0. apply NoDup_cons in qs_nodup0 as [H _]. set_solver.
  - destruct Hs. intros z Hz Hz'.
    rewrite NoDup_cons, NoDup_cons, !NoDup_app in qs_nodup0.
    destruct qs_nodup0 as (H1 & H2 & H3 & H4 & H5).
    apply elem_of_cons in Hz as [E|Hz], Hz' as [E'|Hz']; try subst z; set_solver.
  - intros z Hz. by eapply qshape_notin.
Qed.

Lemma shape_take_idle q ns x ids fl :
  qshape q ns (x :: ids) fl →
  ∃ h', on_heap (list_del_init x) q = Done (tt, set_heap h' q) ∧ qshape (set_heap h' q) ns ids (x :: fl).
Proof.
  intros Hs. pose proof (shape_parts _ _ _ _ Hs) as (Hne & Hd & Hf). pose proof Hs as [].
  destruct (list_del_init_ok _ _ [] _ _ qs_idles0) as (h' & E & Hr & Hx & Ho). cbn [app] in *.
  exists h'. split; [by apply on_heap_done|].
  apply (qshape_heap _ _ _ _ _ _ _ _ Hs); [eapply only_weaken; [exact Ho|set_solver]| |done| |].
  - eapply ring_only; [exact qs_queue0|exact Ho|]. intros z Hz. by apply Hd.
  - intros y [->|Hy]%elem_of_cons; [done|]. eapply ring_only; [by apply qs_float0|exact Ho|].
    intros z ->%list_elem_of_singleton. specialize (Hf y Hy). set_solver.
  - by solve_Permutation.
Qed.

(** A node in transit goes to the end of one of the two lists. *)
Lemma shape_put_idle q ns x ids fl :
  qshape q ns ids (x :: fl) →
  ∃ h', on_heap (list_add_tail x (q_idles q)) q = Done (tt, set_heap h' q) ∧
    qshape (set_heap h' q) ns (ids ++ [x]) fl.
Proof.
  intros Hs. pose proof (shape_parts _ _ _ _ Hs) as (Hne & Hd & Hf). pose proof Hs as [].
  assert (Hx : x ∉ q_queue q :: q_idles q :: ns ++ ids) by (apply Hf; set_solver).
  destruct (list_add_tail_ok (q_heap q) (q_idles q) ids x qs_idles0) as (h' & E & Hr & Ho);
    [set_solver|apply (ring_alloc _ x []); [apply qs_float0; set_solver|set_solver]|].
  exists h'. split; [by apply on_heap_done|].
  apply (qshape_heap _ _ _ _ _ _ _ _ Hs); [eapply only_weaken; [exact Ho|set_solver]| |done| |].
  - eapply ring_only; [exact qs_queue0|exact Ho|]. intros z Hz. specialize (Hd z Hz). set_solver.
  - intros y Hy. eapply ring_only; [apply qs_float0; set_solver|exact Ho|].
    intros z ->%list_elem_of_singleton. assert (y ≠ x).
    { intros ->. rewrite !app_comm_cons, app_assoc in qs_nodup0.
      apply NoDup_app in qs_nodup0 as (_ & _ & [H _]%NoDup_cons). done. }
    specialize (Hf y). set_solver.
  - by solve_Permutation.
Qed.

Lemma shape_put_queue q ns x ids fl :
  qshape q ns ids (x :: fl) →
  ∃ h', on_heap (list_add_tail x (q_queue q)) q = Done (tt, set_heap h' q) ∧
    qshape (set_heap h' q) (ns ++ [x]) ids fl.
Proof.
  intros Hs. pose proof (shape_parts _ _ _ _ Hs) as (Hne & Hd & Hf). pose proof Hs as [].
  assert (Hx : x ∉ q_queue q :: q_idles q :: ns ++ ids) by (apply Hf; set_solver).
  destruct (list_add_tail_ok (q_heap q) (q_queue q) ns x qs_queue0) as (h' & E & Hr & Ho);
    [set_solver|apply (ring_alloc _ x []); [apply qs_float0; set_solver|set_solver]|].
  exists h'. split; [by apply on_heap_done|].
  apply (qshape_heap _ _ _ _ _ _ _ _ Hs); [eapply only_weaken; [exact Ho|set_solver]|done| | |].
  - eapply ring_only; [exact qs_idles0|exact Ho|]. intros z Hz Hz'.
    apply elem_of_cons in Hz' as [->|Hz']; [set_solver|]. by apply (Hd z Hz').
  - intros y Hy. eapply ring_only; [apply qs_float0; set_solver|exact Ho|].
    intros z ->%list_elem_of_singleton. assert (y ≠ x).
    { intros ->. rewrite !app_comm_cons, app_assoc in qs_nodup0.
      apply NoDup_app in qs_nodup0 as (_ & _ & [H _]%NoDup_cons). done. }
    specialize (Hf y). set_solver.
  - by solve_Permutation.
Qed.

Lemma dropped x h q :
  only [x] (q_heap q) h →
  (∀ z, z ≠ x → h_next (q_heap (drop_node x (set_heap h q))) !! z = h_next (q_heap q) !! z ∧
    h_prev (q_heap (drop_node x (set_heap h q))) !! z = h_prev (q_heap q) !! z ∧
    q_item (drop_node x (set_heap h q)) !! z = q_item q !! z) ∧
  h_next (q_heap (drop_node x (set_heap h q))) !! x = None ∧
  h_prev (q_heap (drop_node x (set_heap h q))) !! x = None ∧
  q_item (drop_node x (set_heap h q)) !! x = None.
Proof.
  intros Ho. split_and!; [|by apply lookup_delete_eq..].
  intros z Hz. cbn. rewrite !lookup_delete_ne by done. destruct (Ho z); [set_solver|done].
Qed.

(** [__free_node] of a node in transit. *)
Lemma shape_free q ns ids x fl :
  qshape q ns ids (x :: fl) →
  ∃ q', __free_node x q = Done (tt, q') ∧ qshape q' ns ids fl ∧
    q_queue q' = q_queue q ∧ q_idles q' = q_idles q ∧ q_count q' = q_count q ∧ q_idle_num q' = q_idle_num q ∧
    ∀ y, y ≠ x → q_item q' !! y = q_item q !! y.
Proof.
  intros Hs. pose proof Hs as [].
  assert (Hp : ns ++ ids ++ x :: fl ≡ₚ x :: ns ++ ids ++ fl) by solve_Permutation.
  assert (Hx : x ∉ q_queue q :: q_idles q :: ns ++ ids ++ fl ∧ NoDup (q_queue q :: q_idles q :: ns ++ ids ++ fl)).
  { rewrite Hp in qs_nodup0. apply NoDup_cons. eapply NoDup_Permutation_proper; [|exact qs_nodup0].
    solve_Permutation. }
  destruct Hx as [Hx Hnd].
  destruct (list_del_init_self (q_heap q) x) as (h1 & E & Ho); [apply qs_float0; set_solver|].
  destruct (dropped x h1 q Ho) as (Hd & Hn & Hpv & Hi).
  exists (drop_node x (set_heap h1 q)). split_and!; try done.
  - unfold __free_node. by erewrite M_bind_done by (by apply on_heap_done).
  - assert (Ho' : only [x] (q_heap q) (q_heap (drop_node x (set_heap h1 q)))).
    { intros z Hz. destruct (Hd z) as (? & ? & _); [set_solver|done]. }
    assert (Hr : ∀ a l, ring (q_heap q) a l → x ∉ a :: l → ring (q_heap (drop_node x (set_heap h1 q))) a l).
    { intros a l Hr Ha. eapply ring_only; [exact Hr|exact Ho'|]. intros z Hz ->%list_elem_of_singleton. done. }
    split; [apply Hr; [done|set_solver]|apply Hr; [done|set_solver]| |done| | |].
    + intros y Hy. apply Hr; [apply qs_float0; set_solver|]. intros ->%list_elem_of_singleton. set_solver.
    + intros z. destruct (decide (z = x)) as [->|Hz]; [rewrite Hn; split; [by intros []|done]|].
      rewrite (proj1 (Hd z Hz)), qs_next0, Hp. set_solver.
    + intros z. destruct (decide (z = x)) as [->|Hz]; [rewrite Hpv; split; [by intros []|done]|].
      rewrite (proj1 (proj2 (Hd z Hz))), qs_prev0, Hp. set_solver.
    + intros z. destruct (decide (z = x)) as [->|Hz]; [rewrite Hi; split; [by intros []|set_solver]|].
      rewrite (proj2 (proj2 (Hd z Hz))), qs_item0, Hp. set_solver.
  - intros y Hy. by apply Hd.
Qed.

(** ** The queue as a list of items *)

Section correctness.
Context (calloc : nat → heap → option Z).
(** What [calloc] promises: memory not in use. *)
Context (calloc_fresh : ∀ n h x, calloc n h = Some x → h_next h !! x = None ∧ h_prev h !! x = None).

Lemma shape_alloc q ns ids fl :
  qshape q ns ids fl →
  ∃ q' r, __alloc_node calloc q = Done (r, q') ∧
    q_queue q' = q_queue q ∧ q_idles q' = q_idles q ∧ q_count q' = q_count q ∧ q_idle_num q' = q_idle_num q ∧
    match r with
    | None => qshape q' ns ids fl ∧ q_item q' = q_item q
    | Some x => qshape q' ns ids (x :: fl) ∧ ∀ y, y ≠ x → q_item q' !! y = q_item q !! y
    end.
Proof.
  intros Hs. unfold __alloc_node. erewrite M_bind_done by done. erewrite M_bind_done by done.
  set (q0 := set_qalloc _ q).
  assert (Hs0 : qshape q0 ns ids fl) by (destruct Hs; by split).
  destruct (calloc (q_nalloc q) (q_heap q)) as [x|] eqn:Ec; [|by exists q0, None].
  destruct (calloc_fresh _ _ _ Ec) as [Hnx Hpx]. pose proof Hs as [].
  assert (Hx : x ∉ q_queue q :: q_idles q :: ns ++ ids ++ fl).
  { intros H%qs_next0. rewrite Hnx in H. by destruct H. }
  erewrite M_bind_done by done.
  set (h1 := set_prev x x (set_next x x (q_heap (new_node x q0)))).
  assert (E : on_heap (INIT_LIST_HEAD x) (new_node x q0) = Done (tt, set_heap h1 (new_node x q0))).
  { apply on_heap_done, INIT_LIST_HEAD_ok. split; cbn; rewrite lookup_insert_eq; eauto. }
  erewrite M_bind_done by exact E.
  exists (set_heap h1 (new_node x q0)), (Some x). split_and!; try done.
  2:{ intros y Hy. cbn. by rewrite lookup_insert_ne. }
  assert (Ho : only [x] (q_heap q) h1).
  { intros z Hz. cbn. rewrite !lookup_insert_ne by set_solver. done. }
  assert (Hp : ns ++ ids ++ x :: fl ≡ₚ x :: ns ++ ids ++ fl) by solve_Permutation.
  assert (Hr : ∀ a l, ring (q_heap q) a l → x ∉ a :: l → ring h1 a l).
  { intros a l Hr Ha. eapply ring_only; [exact Hr|exact Ho|]. intros z Hz ->%list_elem_of_singleton. done. }
  split; cbn [set_heap q_heap q_queue q_idles new_node set_item q0 set_qalloc].
  - apply Hr; [done|set_solver].
  - apply Hr; [done|set_solver].
  - intros y [->|Hy]%elem_of_cons; [apply init_ring|]. apply Hr; [by apply qs_float0|].
    intros ->%list_elem_of_singleton. set_solver.
  - rewrite Hp. change (NoDup ([q_queue q; q_idles q] ++ x :: ns ++ ids ++ fl)).
    rewrite <- Permutation_middle. by constructor.
  - intros z. destruct (decide (z = x)) as [->|Hz].
    + unfold h1. cbn. rewrite lookup_insert_eq, Hp. split; [set_solver|eauto].
    + rewrite (proj1 (Ho z ltac:(set_solver))), qs_next0, Hp. set_solver.
  - intros z. destruct (decide (z = x)) as [->|Hz].
    + unfold h1. cbn. rewrite lookup_insert_eq, Hp. split; [set_solver|eauto].
    + rewrite (proj2 (Ho z ltac:(set_solver))), qs_prev0, Hp. set_solver.
  - intros z. cbn [q_item set_heap new_node set_item]. destruct (decide (z = x)) as [->|Hz].
    + rewrite lookup_insert_eq, Hp. split; [set_solver|eauto].
    + rewrite lookup_insert_ne by done. change (q_item q0) with (q_item q). rewrite qs_item0, Hp. set_solver.
Qed.

(** The queue with [ns] in order, [x] possibly in transit, and its counters. *)
Record qstate (q : queue_t) (ns ids fl : list Z) (l : list Z) : Prop := {
  st_shape : qshape q ns ids fl;
  st_items : Forall2 (λ n v, q_item q !! n = Some v) ns l;
  st_count : q_count q = zlen ns;
  st_idle : q_idle_num q = zlen ids;
  st_max : zlen ids ≤ QUEUE_IDLE_MAX_THD
}.

Definition queue_holds (q : queue_t) (l : list Z) : Prop := ∃ ns ids, qstate q ns ids [] l.

Lemma items_frame q q' ns l x :
  Forall2 (λ n v, q_item q !! n = Some v) ns l → (∀ y, y ≠ x → q_item q' !! y = q_item q !! y) → x ∉ ns →
  Forall2 (λ n v, q_item q' !! n = Some v) ns l.
Proof.
  intros H Hy Hx. induction H as [|n v ns l Hn _ IH]; constructor.
  - rewrite Hy; [done|set_solver].
  - apply IH. set_solver.
Qed.

(** [__put_idle_node]: kept while there is room, freed otherwise. *)
Lemma put_idle_ok q ns ids x l :
  qstate q ns ids [x] l →
  ∃ q' ids', __put_idle_node (Some x) q = Done (tt, q') ∧ qstate q' ns ids' [] l ∧
    q_queue q' = q_queue q ∧ q_idles q' = q_idles q.
Proof.
  intros []. unfold __put_idle_node. erewrite M_bind_done by done. rewrite st_idle0.
  unfold QUEUE_IDLE_MAX_THD in *. zcase.
  - destruct (shape_put_idle _ _ _ _ _ st_shape0) as (h' & E & Hs).
    erewrite M_bind_done by exact E. eexists _, (ids ++ [x]). split; [reflexivity|]. split_and!; try done.
    split; try done; cbn [set_idle_num set_heap q_idle_num]; rewrite ?zlen_app, ?st_idle0; unfold zlen in *; cbn in *;
      unfold QUEUE_IDLE_MAX_THD; try lia.
    destruct Hs. by split.
  - destruct (shape_free _ _ _ _ _ st_shape0) as (q' & E & Hs & Eq & Ei & Ec & En & Hit).
    exists q', ids. split; [done|]. split_and!; [|done|done]. split; [done| |congruence|congruence|done].
    apply (items_frame q _ _ _ x); [done|done|]. pose proof (qshape_notin _ _ _ _ x st_shape0). set_solver.
Qed.

Lemma remove_node_ok q n1 x n2 ids l1 v l2 :
  qstate q (n1 ++ x :: n2) ids [] (l1 ++ v :: l2) → length n1 = length l1 →
  ∃ q', __remove_queue_node (Some x) q = Done (tt, q') ∧ qstate q' (n1 ++ n2) ids [x] (l1 ++ l2) ∧
    q_item q' = q_item q ∧ q_queue q' = q_queue q.
Proof.
  intros [] Hl. destruct (shape_remove _ _ _ _ _ _ st_shape0) as (h' & E & Hs).
  exists (set_count (q_count q - 1) (set_heap h' q)). split; [|split_and!]; [|split|done|done].
  - unfold __remove_queue_node. erewrite M_bind_done by exact E. reflexivity.
  - destruct Hs. by split.
  - apply Forall2_app_inv in st_items0 as [H1 H2]; [|done]. inversion H2; subst. by apply Forall2_app.
  - cbn. rewrite st_count0, !zlen_app, zlen_cons. lia.
  - done.
  - done.
Qed.

Lemma empty_ok q a l : ring (q_heap q) a l → on_heap (list_empty a) q = Done (bool_decide (l = []), q).
Proof. intros Hr. apply on_heap_read. by apply list_empty_ok. Qed.

Lemma next_ok q a l : ring (q_heap q) a l → on_heap (load_next a) q = Done (hd a l, q).
Proof. intros Hr. apply on_heap_read. by apply load_next_ok, ring_next. Qed.

Lemma get_idle_ok q ns ids l :
  qstate q ns ids [] l →
  ∃ q' r, __get_idle_node calloc q = Done (r, q') ∧
    match r with
    | None => qstate q' ns ids [] l
    | Some x => ∃ ids', qstate q' ns ids' [x] l
    end.
Proof.
  intros []. unfold __get_idle_node. erewrite M_bind_done by done.
  erewrite M_bind_done by (apply empty_ok, st_shape0). destruct ids as [|x ids].
  - destruct (shape_alloc q ns [] [] st_shape0) as (q' & r & E & Eq & Ei & Ec & En & H).
    exists q', r. split; [done|]. destruct r as [x|]; [exists []|]; destruct H as [Hs Hit]; split;
      try done; try congruence.
    + apply (items_frame q _ _ _ x); [done|done|].
      pose proof (qshape_notin _ _ _ _ x Hs). set_solver.
    + by rewrite Hit.
  - rewrite bool_decide_false by done. erewrite M_bind_done by (apply next_ok, st_shape0). cbn [hd].
    destruct (shape_take_idle _ _ _ _ _ st_shape0) as (h' & E & Hs).
    erewrite M_bind_done by exact E. erewrite M_bind_done by done.
    exists (set_idle_num (q_idle_num q - 1) (set_heap h' q)), (Some x). split; [done|]. exists ids.
    rewrite zlen_cons in *. split; cbn; try done; try lia. destruct Hs; by split.
Qed.

Lemma push_back_ok q l v :
  queue_holds q l →
  ∃ ret q', pitcher_queue_push_back calloc v q = Done (ret, q') ∧
    (ret = RET_OK ∧ queue_holds q' (l ++ [v]) ∨ ret = - RET_E_NO_MEMORY ∧ queue_holds q' l).
Proof.
  intros (ns & ids & Hst). unfold pitcher_queue_push_back.
  destruct (get_idle_ok q ns ids l Hst) as (q1 & r & E & H). erewrite M_bind_done by exact E.
  destruct r as [x|]; [|exists (- RET_E_NO_MEMORY), q1; split; [done|right; split; [done|by exists ns, ids]]].
  destruct H as (ids' & []). pose proof (qshape_notin _ _ _ _ x st_shape0 ltac:(set_solver)) as Hx.
  assert (is_Some (q_item q1 !! x)) as [w Ew] by (apply (qs_item _ _ _ _ st_shape0); set_solver).
  erewrite M_bind_done by (unfold store_item; by rewrite Ew).
  set (q2 := set_item _ q1). unfold __push_node_to_queue. erewrite M_bind_done by done.
  assert (Hs2 : qshape q2 ns ids' [x]).
  { destruct st_shape0. split; try done. intros z. cbn. rewrite lookup_insert_is_Some', qs_item0. set_solver. }
  destruct (shape_put_queue _ _ _ _ _ Hs2) as (h' & E2 & Hs).
  erewrite M_bind_done by exact E2. erewrite M_bind_done by done.
  exists RET_OK, (set_count (q_count (set_heap h' q2) + 1) (set_heap h' q2)). split; [done|]. left. split; [done|].
  exists (ns ++ [x]), ids'. split; cbn; try done.
  - destruct Hs; by split.
  - apply Forall2_app; [|repeat constructor; by rewrite lookup_insert_eq].
    refine (items_frame q1 q2 ns l x st_items0 _ _); [|set_solver]. intros y Hy. cbn. by rewrite lookup_insert_ne.
  - rewrite st_count0, zlen_app, zlen_cons. unfold zlen. cbn. lia.
Qed.

Lemma pop_ok q l :
  queue_holds q l →
  match l with
  | [] => ∃ q', pitcher_queue_pop q = Done ((- RET_E_EMPTY, None), q') ∧ queue_holds q' []
  | x :: l' => ∃ q', pitcher_queue_pop q = Done ((RET_OK, Some x), q') ∧ queue_holds q' l'
  end.
Proof.
  intros (ns & ids & Hst). pose proof Hst as []. unfold pitcher_queue_pop, __pop_node_from_queue.
  inversion st_items0 as [|n v ns' l' Hn Hf E1 E2]; subst.
  - exists q. split; [|by exists [], ids].
    erewrite M_bind_done; [|erewrite M_bind_done by done;
      erewrite M_bind_done by (apply empty_ok, st_shape0); reflexivity]. done.
  - destruct (remove_node_ok q [] n ns' ids [] v l' Hst eq_refl) as (q1 & E & Hst1 & Hit & Eq).
    destruct (put_idle_ok q1 ns' ids n l' Hst1) as (q2 & ids2 & E2 & Hst2 & _).
    exists q2. split; [|by exists ns', ids2].
    erewrite M_bind_done.
    2:{ erewrite M_bind_done by done. erewrite M_bind_done by (apply empty_ok, st_shape0).
        rewrite bool_decide_false by done. erewrite M_bind_done by (apply next_ok, st_shape0). cbn [hd].
        erewrite M_bind_done by exact E. reflexivity. }
    cbn beta iota. erewrite M_bind_done by (unfold load_item; rewrite Hit, Hn; reflexivity).
    by erewrite M_bind_done by exact E2.
Qed.

(** ** Walking a queue *)
Section walk.
Context {W : Type}.

(** A visit: removed or not, go on or not. *)
Fixpoint walk_list (step : Z → W → outcome (bool * bool * W)) (l : list Z) (w : W) : outcome (list Z * W) :=
  match l with
  | [] => Done ([], w)
  | x :: l =>
      '(del, go_on, w) ← step x w;
      if (go_on : bool) then
        '(l', w) ← walk_list step l w; Done (if (del : bool) then l' else x :: l', w)
      else Done (if (del : bool) then l else x :: l, w)
  end.

(** The visit of node [x], holding [v], between [n1] and [n2]. *)
Definition visits (body : Z → M (queue_t * W) bool) (step : Z → W → outcome (bool * bool * W)) : Prop :=
  ∀ q w n1 x n2 ids l1 v l2,
    qstate q (n1 ++ x :: n2) ids [] (l1 ++ v :: l2) → length n1 = length l1 →
    refines (λ '(go, (q', w')) '(del, go', w''), go = go' ∧ w' = w'' ∧ q_queue q' = q_queue q ∧
        ∃ ids', qstate q' (if del : bool then n1 ++ n2 else n1 ++ x :: n2) ids' []
          (if del then l1 ++ l2 else l1 ++ v :: l2))
      (body x (q, w)) (step v w).

Lemma refines_M_bind {A B C} (R : A * (queue_t * W) → C → Prop) {D} (R' : B * (queue_t * W) → D → Prop)
    (m : M (queue_t * W) A) f (m' : outcome C) f' s :
  refines R (m s) m' → (∀ a s' b, R (a, s') b → refines R' (f a s') (f' b)) →
  refines R' ((m ≫= f) s) (m' ≫= f').
Proof.
  intros Hm Hf. unfold mbind at 1, M_bind. eapply (refines_bind R); [exact Hm|].
  intros [a s'] b H. by apply Hf.
Qed.

Lemma head_notin q ns ids fl l : qstate q ns ids fl l → q_queue q ∉ ns.
Proof. intros [[] _ _ _ _]. apply NoDup_cons in qs_nodup0 as [H _]. set_solver. Qed.

(** Reading the pointer behind a node of the queue, or behind its head. *)
Lemma load_next_mid q n1 x n2 ids fl l :
  qstate q (n1 ++ x :: n2) ids fl l → on_heap (load_next x) q = Done (hd (q_queue q) n2, q).
Proof.
  intros [[] _ _ _ _]. apply on_heap_read, load_next_ok. apply ring_rotate, ring_next in qs_queue0.
  rewrite qs_queue0. by destruct n2.
Qed.

Lemma for_each_ok body step : visits body step →
  ∀ n2 fuel q w n1 ids l1 l2,
  qstate q (n1 ++ n2) ids [] (l1 ++ l2) → length n1 = length l1 → (length n2 ≤ fuel)%nat →
  refines (λ '(_, (q', w')) '(l', w''), queue_holds q' (l1 ++ l') ∧ w' = w'')
    (for_each_safe fuel (q_queue q) (hd (q_queue q) n2) (hd (q_queue q) (tail n2)) body (q, w))
    (walk_list step l2 w).
Proof.
  intros Hv. induction n2 as [|x n2 IH]; intros fuel q w n1 ids l1 l2 Hst Hl Hf.
  - pose proof (st_items _ _ _ _ _ Hst) as H. apply Forall2_length in H. rewrite !length_app in H.
    destruct l2; [|cbn in H; lia]. cbn [hd walk_list].
    replace (for_each_safe _ _ _ _ _ (q, w)) with (Done (tt, (q, w)))
      by (destruct fuel; cbn [for_each_safe]; by rewrite Z.eqb_refl).
    cbn. rewrite !app_nil_r in *. split; [|done]. by exists n1, ids.
  - pose proof (st_items _ _ _ _ _ Hst) as H. apply Forall2_length in H. rewrite !length_app in H.
    destruct l2 as [|v l2]; [cbn in H; lia|]. destruct fuel as [|fuel]; [cbn in Hf; lia|].
    pose proof (head_notin _ _ _ _ _ Hst) as Hh. cbn [for_each_safe hd tail walk_list].
    rewrite (proj2 (Z.eqb_neq x (q_queue q))) by (intros ->; set_solver).
    eapply refines_M_bind; [apply (Hv q w n1 x n2 ids l1 v l2 Hst Hl)|].
    intros go [q' w'] [[del go'] w''] (-> & -> & Eq & ids' & Hst'). destruct go'.
    2:{ cbn. split; [|done]. destruct del; by eexists _, ids'. }
    assert (E : on_heap (load_next (hd (q_queue q) n2)) q' =
      Done (match n2 with [] => hd (q_queue q) (if del then n1 ++ n2 else n1 ++ x :: n2) | _ :: n3 => hd (q_queue q) n3 end, q')).
    { rewrite <- Eq. destruct n2 as [|y n3]; cbn [hd].
      - destruct Hst' as [[] _ _ _ _]. apply on_heap_read, load_next_ok.
        rewrite (ring_next _ _ _ qs_queue0). by destruct del.
      - destruct del; [apply (load_next_mid q' n1 y n3 ids' _ _ Hst')|].
        apply (load_next_mid q' (n1 ++ [x]) y n3 ids' [] (l1 ++ v :: l2)). by rewrite <- app_assoc. }
    erewrite M_bind_done by (rewrite E; reflexivity).
    set (nx := match n2 with [] => _ | _ => _ end).
    assert (for_each_safe fuel (q_queue q) (hd (q_queue q) n2) nx body (q', w'') =
      for_each_safe fuel (q_queue q') (hd (q_queue q') n2) (hd (q_queue q') (tail n2)) body (q', w'')) as ->.
    { rewrite Eq. unfold nx. destruct n2; [|done]. destruct fuel; cbn; by rewrite Z.eqb_refl. }
    cbn in Hf. destruct del.
    + specialize (IH fuel q' w'' n1 ids' l1 l2 Hst' Hl ltac:(lia)).
      destruct (for_each_safe _ _ _ _ _ _) as [[? [? ?]]| | |], (walk_list step l2 w'') as [[? ?]| | |]; done.
    + assert (Hst2 : qstate q' ((n1 ++ [x]) ++ n2) ids' [] ((l1 ++ [v]) ++ l2)) by (by rewrite <- !app_assoc).
      specialize (IH fuel q' w'' (n1 ++ [x]) ids' (l1 ++ [v]) l2 Hst2
        ltac:(by rewrite !length_app, Hl) ltac:(lia)).
      destruct (for_each_safe _ _ _ _ _ _) as [[? [? ?]]| | |], (walk_list step l2 w'') as [[? ?]| | |];
        try done. cbn in *. by rewrite <- app_assoc in IH.
Qed.

Lemma walk_ok body step q l w : visits body step → queue_holds q l →
  refines (λ '(_, (q', w')) '(l', w''), queue_holds q' l' ∧ w' = w'') (walk body (q, w)) (walk_list step l w).
Proof.
  intros Hv (ns & ids & Hst). unfold walk. erewrite M_bind_done by done. cbn beta iota.
  pose proof (qs_queue _ _ _ _ (st_shape _ _ _ _ _ Hst)) as Hr.
  erewrite M_bind_done by (unfold on_queue; rewrite (next_ok _ _ _ Hr); reflexivity).
  destruct ns as [|x ns].
  - pose proof (st_items _ _ _ _ _ Hst) as H. inversion H; subst.
    cbn [hd]. erewrite M_bind_done by (unfold on_queue; rewrite (next_ok _ _ _ Hr); reflexivity).
    apply (for_each_ok body step Hv [] _ q w [] ids [] []); [done|done|cbn; lia].
  - cbn [hd]. erewrite M_bind_done
      by (unfold on_queue; rewrite (load_next_mid q [] x ns _ _ _ Hst); reflexivity).
    apply (for_each_ok body step Hv (x :: ns) _ q w [] ids [] l); [done|done|].
    rewrite (st_count _ _ _ _ _ Hst). unfold zlen. lia.
Qed.

Lemma load_item_mid q n1 x n2 ids fl l1 v l2 :
  qstate q (n1 ++ x :: n2) ids fl (l1 ++ v :: l2) → length n1 = length l1 → load_item x q = Done (v, q).
Proof.
  intros Hst Hl. apply st_items in Hst. apply Forall2_app_inv in Hst as [_ H]; [|done].
  inversion H as [|? ? ? ? E]; subst. unfold load_item. by rewrite E.
Qed.

Lemma take_out_ok q n1 x n2 ids l1 v l2 :
  qstate q (n1 ++ x :: n2) ids [] (l1 ++ v :: l2) → length n1 = length l1 →
  ∃ q' ids', take_out x q = Done (tt, q') ∧ qstate q' (n1 ++ n2) ids' [] (l1 ++ l2) ∧ q_queue q' = q_queue q.
Proof.
  intros Hst Hl. destruct (remove_node_ok _ _ _ _ _ _ _ _ Hst Hl) as (q1 & E1 & H1 & _ & Eq1).
  destruct (put_idle_ok _ _ _ _ _ H1) as (q2 & ids2 & E2 & H2 & Eq2 & _).
  exists q2, ids2. split_and!; [|done|congruence]. unfold take_out. by mstep E1.
Qed.

Lemma on_queue_done {A} (m : QM A) q a q' (w : W) : m q = Done (a, q') → on_queue m (q, w) = Done (a, (q', w)).
Proof. intros E. unfold on_queue. by rewrite E. Qed.

Lemma visits_enumerate (f : Z → W → outcome (bool * W)) :
  visits (λ node, item ← on_queue (load_item node); del ← on_arg (f item);
            _ ← (if (del : bool) then on_queue (take_out node) else mret tt); mret true)
    (λ v w, '(d, w) ← f v w; Done (d, true, w)).
Proof.
  intros q w n1 x n2 ids l1 v l2 Hst Hl.
  erewrite M_bind_done by (apply on_queue_done; by eapply load_item_mid).
  rewrite M_bind_eq. unfold on_arg. destruct (f v w) as [[del w']| | |]; try done.
  rewrite bind_done. cbn [obind].
  destruct del.
  - destruct (take_out_ok _ _ _ _ _ _ _ _ Hst Hl) as (q' & ids' & E & H & Eq).
    erewrite M_bind_done by (by apply on_queue_done). cbn. split_and!; eauto.
  - cbn. split_and!; eauto.
Qed.

Lemma visits_clear (f : Z → W → outcome (bool * W)) :
  visits (λ node, _ ← on_queue (__remove_queue_node (Some node));
            _ ← (item ← on_queue (load_item node); on_arg (f item));
            _ ← on_queue (__put_idle_node (Some node)); mret true)
    (λ v w, '(_, w) ← f v w; Done (true, true, w)).
Proof.
  intros q w n1 x n2 ids l1 v l2 Hst Hl.
  destruct (remove_node_ok _ _ _ _ _ _ _ _ Hst Hl) as (q1 & E1 & H1 & Eit & Eq1).
  erewrite M_bind_done by (apply on_queue_done; exact E1).
  assert (Hli : load_item x q1 = Done (v, q1)).
  { pose proof (load_item_mid _ _ _ _ _ _ _ _ _ Hst Hl) as H. unfold load_item in *. rewrite Eit.
    destruct (q_item q !! x); [by injection H as ->|done]. }
  rewrite M_bind_eq. erewrite M_bind_done by (apply on_queue_done; exact Hli).
  unfold on_arg. destruct (f v w) as [[del w']| | |]; try done.
  rewrite bind_done. cbn [obind].
  destruct (put_idle_ok _ _ _ _ _ H1) as (q2 & ids2 & E2 & H2 & Eq2 & _).
  erewrite M_bind_done by (apply on_queue_done; exact E2). cbn. split_and!; try done; [congruence|eauto].
Qed.
End walk.

(** The visit of [pitcher_queue_find]; the return value is part of the state. *)
Definition find_step {W} (f : option (Z → W → outcome (bool * W))) (compare : Z → bool) (v : Z)
    (rw : Z * W) : outcome (bool * bool * (Z * W)) :=
  if compare v then
    match f with
    | None => Done (false, false, (RET_OK, snd rw))
    | Some f => '(del, w) ← f v (snd rw); Done (del, false, (RET_OK, w))
    end
  else Done (false, true, rw).

Lemma visits_find {W} (f : option (Z → W → outcome (bool * W))) compare :
  visits (λ node, item ← on_queue (load_item node);
    if negb (compare item) then mret true
    else
      _ ← (match f with
           | Some func =>
               del ← on_arg (λ '(r, w), obind (λ '(b, w), Done (b, (r, w))) (func item w));
               if (del : bool) then on_queue (take_out node) else mret tt
           | None => mret tt
           end);
      _ ← on_arg (λ '(_, w), Done (tt, (RET_OK, w)));
      mret false) (find_step f compare).
Proof.
  intros q [r w] n1 x n2 ids l1 v l2 Hst Hl.
  erewrite M_bind_done by (apply on_queue_done; by eapply load_item_mid). unfold find_step.
  destruct (compare v); cbn [negb]; [|cbn; split_and!; eauto]. destruct f as [f|]; [|cbn; split_and!; eauto].
  rewrite M_bind_eq, M_bind_eq. unfold on_arg. cbn [snd].
  destruct (f v w) as [[del w']| | |]; try done.
  rewrite bind_done. cbn [obind]. destruct del.
  - destruct (take_out_ok _ _ _ _ _ _ _ _ Hst Hl) as (q' & ids' & E & H & Eq).
    rewrite (on_queue_done _ _ _ _ _ E). cbn. split_and!; eauto.
  - cbn. split_and!; eauto.
Qed.

(** ** Life of a queue *)

Lemma init_ok head idles :
  head ≠ idles → ∃ q, pitcher_init_queue true head idles = Done (Some q) ∧ queue_holds q [].
Proof.
  intros Hne. unfold pitcher_init_queue. cbn [negb].
  set (z := list_to_map [(head, 0); (idles, 0)] : gmap Z Z).
  set (q0 := QueueT (Heap z z) ∅ head idles 0 0 0).
  assert (Ha : allocated (Heap z z) head ∧ allocated (Heap z z) idles).
  { assert (z !! head = Some 0) by apply lookup_insert_eq.
    assert (z !! idles = Some 0) by (etransitivity; [by apply lookup_insert_ne|apply lookup_insert_eq]).
    unfold allocated. cbn [h_next h_prev]. eauto. }
  destruct Ha as [Hah Hai]. set (h1 := set_prev head head (set_next head head (Heap z z))).
  assert (Hai1 : allocated h1 idles) by (split; cbn; rewrite lookup_insert_ne by done; apply Hai).
  set (h2 := set_prev idles idles (set_next idles idles h1)).
  erewrite M_bind_done by (apply on_heap_done; by apply INIT_LIST_HEAD_ok).
  erewrite on_heap_done by (by apply INIT_LIST_HEAD_ok). cbn.
  eexists. split; [reflexivity|]. exists [], []. split; [|constructor|done|done|done].
  split; cbn -[z].
  - eapply ring_only; [apply init_ring|apply (only_init idles _ [idles]); set_solver|]. set_solver.
  - apply (init_ring idles h1).
  - set_solver.
  - repeat constructor; set_solver.
  - intros x. rewrite !lookup_insert_is_Some', lookup_empty.
    split; [intros [->|[->|[->|[->|[? [=]]]]]]; set_solver|set_solver].
  - intros x. rewrite !lookup_insert_is_Some', lookup_empty.
    split; [intros [->|[->|[->|[->|[? [=]]]]]]; set_solver|set_solver].
  - intros x. rewrite lookup_empty. split; [by intros []|set_solver].
Qed.

(** The idle nodes go one after the other. *)
Lemma free_idles_ok ids : ∀ fuel q,
  qstate q [] ids [] [] → (length ids ≤ fuel)%nat →
  ∃ q', free_idles fuel (q_idles q) (hd (q_idles q) ids) (hd (q_idles q) (tail ids)) q = Done (tt, q') ∧
    qstate q' [] [] [] [] ∧ q_queue q' = q_queue q ∧ q_idles q' = q_idles q.
Proof.
  induction ids as [|x ids IH]; intros fuel q Hst Hf.
  { exists q. split; [|done]. destruct fuel; cbn [free_idles hd]; by rewrite Z.eqb_refl. }
  destruct fuel as [|fuel]; [cbn in Hf; lia|]. pose proof Hst as [].
  assert (Hx : x ≠ q_idles q).
  { intros ->. destruct st_shape0. rewrite !NoDup_cons in qs_nodup0. set_solver. }
  cbn [free_idles hd tail]. rewrite (proj2 (Z.eqb_neq _ _)) by done.
  destruct (shape_take_idle _ _ _ _ _ st_shape0) as (h1 & E1 & Hs1). erewrite M_bind_done by exact E1.
  erewrite M_bind_done by done. set (q1 := set_idle_num _ _).
  assert (Hs1' : qshape q1 [] ids [x]) by (destruct Hs1; by split).
  destruct (shape_free _ _ _ _ _ Hs1') as (q2 & E2 & Hs2 & Eq & Ei & Ec & En & _).
  erewrite M_bind_done by exact E2. rewrite zlen_cons in *.
  assert (Hst2 : qstate q2 [] ids [] []).
  { split; [done|constructor|rewrite Ec; done| |lia]. rewrite En. cbn. lia. }
  assert (El : on_heap (load_next (hd (q_idles q) ids)) q2 =
    Done (match ids with [] => q_idles q | _ :: k => hd (q_idles q) k end, q2)).
  { apply on_heap_read, load_next_ok. change (q_idles q) with (q_idles q1). rewrite <- Ei.
    destruct Hs2. destruct ids as [|y ids]; [by apply ring_next in qs_idles0|].
    apply (ring_rotate _ _ [] y ids), ring_next in qs_idles0. cbn [hd]. rewrite qs_idles0. by destruct ids. }
  erewrite M_bind_done by exact El. cbn in Hf.
  destruct (IH fuel q2 Hst2 ltac:(lia)) as (q' & E & Hst' & Eq' & Ei').
  exists q'. split; [|split_and!; [done|by rewrite Eq', Eq|by rewrite Ei', Ei]].
  rewrite <- E, Ei. change (q_idles q1) with (q_idles q). by destruct ids.
Qed.

(** [pitcher_queue_clear] without a call-back. *)
Lemma visits_clear_none {W} :
  visits (W := W) (λ node, _ ← on_queue (__remove_queue_node (Some node));
            _ ← (mret false : M (queue_t * W) bool);
            _ ← on_queue (__put_idle_node (Some node)); mret true)
    (λ v w, Done (true, true, w)).
Proof.
  intros q w n1 x n2 ids l1 v l2 Hst Hl.
  destruct (remove_node_ok _ _ _ _ _ _ _ _ Hst Hl) as (q1 & E1 & H1 & Eit & Eq1).
  erewrite M_bind_done by (apply on_queue_done; exact E1). erewrite M_bind_done by done.
  destruct (put_idle_ok _ _ _ _ _ H1) as (q2 & ids2 & E2 & H2 & Eq2 & _).
  erewrite M_bind_done by (apply on_queue_done; exact E2). cbn. split_and!; try done; [congruence|eauto].
Qed.

Lemma walk_all {W} l (w : W) : walk_list (λ v w, Done (true, true, w)) l w = Done ([], w).
Proof. induction l as [|x l IH]; [done|]. cbn [walk_list]. rewrite bind_done. cbn beta iota. by rewrite IH. Qed.

Lemma destroy_ok q l :
  queue_holds q l → ∃ q', pitcher_destroy_queue q = Done (tt, q') ∧ qshape q' [] [] [].
Proof.
  intros Hh. unfold pitcher_destroy_queue.
  pose proof (walk_ok _ _ q l tt visits_clear_none Hh) as Hw. rewrite walk_all in Hw.
  unfold pitcher_queue_clear. rewrite M_bind_eq.
  destruct (walk _ _) as [[[] [q1 []]]| | |]; try done. destruct Hw as [(ns & ids & Hst) _]. cbn [obind].
  pose proof (st_items _ _ _ _ _ Hst) as Hi. inversion Hi; subst.
  pose proof (qs_idles _ _ _ _ (st_shape _ _ _ _ _ Hst)) as Hr.
  erewrite M_bind_done by done. erewrite M_bind_done by (apply next_ok; exact Hr).
  assert (El : on_heap (load_next (hd (q_idles q1) ids)) q1 =
    Done (match ids with [] => q_idles q1 | _ :: k => hd (q_idles q1) k end, q1)).
  { apply on_heap_read, load_next_ok. destruct ids as [|y ids]; [by apply ring_next in Hr|].
    apply (ring_rotate _ _ [] y ids), ring_next in Hr. cbn [hd]. rewrite Hr. by destruct ids. }
  erewrite M_bind_done by exact El.
  destruct (free_idles_ok ids (Z.to_nat (q_idle_num q1)) q1 Hst) as (q' & E & Hst' & _).
  { rewrite (st_idle _ _ _ _ _ Hst). unfold zlen. lia. }
  exists q'. split; [|apply Hst']. rewrite <- E. by destruct ids.
Qed.

(** ** The contract is met *)

(** The addresses of the two heads in a queue's own memory are 1 and 2. *)
Definition queue_t_ops : QueueOps queue_t := {|
  queue_init ok := pitcher_init_queue ok 1 2;
  queue_destroy q := obind (λ _, Done tt) (pitcher_destroy_queue q);
  queue_push_back q x := pitcher_queue_push_back calloc x q;
  queue_pop := pitcher_queue_pop;
  queue_is_empty q := obind (λ '(b, _), Done b) (pitcher_queue_is_empty q);
  queue_count q := obind (λ '(n, _), Done n) (pitcher_queue_count q);
  queue_clear W f q w := obind (λ '(_, s), Done s) (pitcher_queue_clear f (q, w));
  queue_enumerate W f q w := obind (λ '(_, s), Done s) (pitcher_queue_enumerate f (q, w));
  queue_find W f cmp q w :=
    obind (λ '(_, (q, (r, w))), Done (r, q, w)) (pitcher_queue_find f cmp (q, (- RET_E_NOT_FOUND, w)))
|}.

Lemma walk_enum_list {W} (f : Z → W → outcome (bool * W)) l w :
  walk_list (λ v w, '(d, w) ← f v w; Done (d, true, w)) l w = enum_list f l w.
Proof.
  revert w. induction l as [|x l IH]; intros w; [done|]. cbn [walk_list enum_list].
  destruct (f x w) as [[d w']| | |]; [|done..]. rewrite !bind_done. cbn beta iota. by rewrite IH.
Qed.

Lemma walk_clear_list {W} (f : Z → W → outcome (bool * W)) l w :
  walk_list (λ v w, '(_, w) ← f v w; Done (true, true, w)) l w =
  ('(_, w) ← enum_list f l w; Done ([], w)).
Proof.
  revert w. induction l as [|x l IH]; intros w; [done|]. cbn [walk_list enum_list].
  destruct (f x w) as [[d w']| | |]; [|done..]. rewrite !bind_done. cbn beta iota. rewrite IH.
  by destruct (enum_list f l w') as [[? ?]| | |].
Qed.

Lemma walk_find_list {W} (f : option (Z → W → outcome (bool * W))) compare l w :
  walk_list (find_step f compare) l (- RET_E_NOT_FOUND, w) =
  ('(r, l', w) ← find_list f compare l w; Done (l', (r, w))).
Proof.
  revert w. induction l as [|x l IH]; intros w; [done|]. cbn [walk_list find_list].
  unfold find_step at 2. cbn [snd]. destruct (compare x).
  - destruct f as [f|]; [|done]. by destruct (f x w) as [[d w']| | |].
  - rewrite bind_done. cbn beta iota. rewrite IH. by destruct (find_list f compare l w) as [[[? ?] ?]| | |].
Qed.

#[local] Existing Instance queue_t_ops.

Definition queue_t_spec : QueueSpec queue_t.
Proof.
  refine {| holds := queue_holds |}.
  - split; [done|]. by apply (init_ok 1 2).
  - intros q l H. destruct (destroy_ok q l H) as (q' & E & _). cbn. by rewrite E.
  - intros q l x H. exact (push_back_ok q l x H).
  - intros q l H. pose proof (pop_ok q l H) as Hp. exact Hp.
  - intros q l (ns & ids & Hst).
    change (obind (λ '(b, _), Done b) (on_heap (list_empty (q_queue q)) q) = Done (bool_decide (l = []))).
    rewrite (empty_ok _ _ _ (qs_queue _ _ _ _ (st_shape _ _ _ _ _ Hst))). cbn.
    f_equal. apply bool_decide_ext. pose proof (st_items _ _ _ _ _ Hst) as Hf.
    split; intros ->; by inversion Hf.
  - intros q l (ns & ids & Hst). change (Done (q_count q) = Done (zlen l)). f_equal. rewrite (st_count _ _ _ _ _ Hst). unfold zlen.
    by rewrite (Forall2_length _ _ _ (st_items _ _ _ _ _ Hst)).
  - intros W f q l w H. pose proof (walk_ok _ _ q l w (visits_clear f) H) as Hw.
    rewrite walk_clear_list in Hw. cbn. unfold pitcher_queue_clear.
    by destruct (walk _ _) as [[? [? ?]]| | |], (enum_list f l w) as [[? ?]| | |].
  - intros W f q l w H. pose proof (walk_ok _ _ q l w (visits_enumerate f) H) as Hw.
    rewrite walk_enum_list in Hw. cbn. unfold pitcher_queue_enumerate.
    by destruct (walk _ _) as [[? [? ?]]| | |], (enum_list f l w) as [[? ?]| | |].
  - intros W f cmp q l w H.
    pose proof (walk_ok _ _ q l (- RET_E_NOT_FOUND, w) (visits_find f cmp) H) as Hw.
    rewrite walk_find_list in Hw. cbn. unfold pitcher_queue_find.
    destruct (walk _ _) as [[? [? [? ?]]]| | |], (find_list f cmp l w) as [[[? ?] ?]| | |]; cbn in *; try done.
    by destruct Hw as [Hh [= -> ->]].
Defined.

(** What a client sees of a queue: results of pushes and pops, and the items a
    call-back is shown. *)
Inductive queue_op := QPush (x : Z) | QPop | QKeep (keep : Z → bool).
Inductive queue_result := RPush (ret : Z) | RPop (ret : Z) (item : option Z) | RSeen (items : list Z).

Definition keep_step (keep : Z → bool) (x : Z) (seen : list Z) : outcome (bool * list Z) :=
  Done (negb (keep x), seen ++ [x]).

Fixpoint run_queue (ops : list queue_op) : QM (list queue_result) :=
  match ops with
  | [] => mret []
  | op :: ops =>
      r ← (match op with
           | QPush x => ret ← pitcher_queue_push_back calloc x; mret (RPush ret)
           | QPop => '(ret, item) ← pitcher_queue_pop; mret (RPop ret item)
           | QKeep keep => λ q,
               obind (λ '(_, (q, seen)), Done (RSeen seen, q)) (pitcher_queue_enumerate (keep_step keep) (q, []))
           end);
      rs ← run_queue ops; mret (r :: rs)
  end.

(** The same on a list: push at the end (or fail for lack of memory, changing
    nothing), pop at the front. *)
Inductive fifo : list Z → list queue_op → list queue_result → list Z → Prop :=
  | fifo_nil l : fifo l [] [] l
  | fifo_push l x ops rs l' : fifo (l ++ [x]) ops rs l' → fifo l (QPush x :: ops) (RPush RET_OK :: rs) l'
  | fifo_full l x ops rs l' : fifo l ops rs l' → fifo l (QPush x :: ops) (RPush (- RET_E_NO_MEMORY) :: rs) l'
  | fifo_pop x l ops rs l' : fifo l ops rs l' → fifo (x :: l) (QPop :: ops) (RPop RET_OK (Some x) :: rs) l'
  | fifo_empty ops rs l' : fifo [] ops rs l' → fifo [] (QPop :: ops) (RPop (- RET_E_EMPTY) None :: rs) l'
  | fifo_keep l keep ops rs l' :
      fifo (List.filter keep l) ops rs l' → fifo l (QKeep keep :: ops) (RSeen l :: rs) l'.

Lemma enum_keep keep l : ∀ seen, enum_list (keep_step keep) l seen = Done (List.filter keep l, seen ++ l).
Proof.
  induction l as [|x l IH]; intros seen; cbn [enum_list List.filter]; [by rewrite app_nil_r|].
  change (keep_step keep x seen) with (Done (negb (keep x), seen ++ [x])).
  rewrite bind_done. cbn beta iota. rewrite IH, bind_done, <- app_assoc. cbn.
  by destruct (keep x).
Qed.

Lemma run_queue_ok ops : ∀ q l,
  queue_holds q l → ∃ rs q' l', run_queue ops q = Done (rs, q') ∧ fifo l ops rs l' ∧ queue_holds q' l'.
Proof.
  induction ops as [|op ops IH]; intros q l Hh; [exists [], q, l; by repeat constructor|].
  destruct op as [x| |keep]; cbn [run_queue].
  - destruct (push_back_ok q l x Hh) as (ret & q1 & E & H).
    erewrite M_bind_done by (erewrite M_bind_done by exact E; reflexivity).
    destruct H as [[-> H]|[-> H]]; destruct (IH _ _ H) as (rs & q' & l' & E' & Hf & H');
      (erewrite M_bind_done by exact E'); do 3 eexists; (split; [reflexivity|]); (split; [by constructor|done]).
  - pose proof (pop_ok q l Hh) as Hp. destruct l as [|x l]; destruct Hp as (q1 & E & H);
      (erewrite M_bind_done by (erewrite M_bind_done by exact E; reflexivity));
      destruct (IH _ _ H) as (rs & q' & l' & E' & Hf & H');
      (erewrite M_bind_done by exact E'); do 3 eexists; (split; [reflexivity|]); (split; [by constructor|done]).
  - pose proof (walk_ok _ _ q l [] (visits_enumerate (keep_step keep)) Hh) as Hw.
    rewrite walk_enum_list, enum_keep in Hw.
    destruct (pitcher_queue_enumerate (keep_step keep) (q, [])) as [[[] [q1 seen]]| | |] eqn:E;
      unfold pitcher_queue_enumerate in E; rewrite E in Hw; try done.
    destruct Hw as [H ->]. erewrite M_bind_done by (unfold pitcher_queue_enumerate; rewrite E; reflexivity).
    destruct (IH _ _ H) as (rs & q' & l' & E' & Hf & H').
    erewrite M_bind_done by exact E'. do 3 eexists. split; [reflexivity|]. split; [by constructor|done].
Qed.

(** C30: a queue is a FIFO: from [pitcher_init_queue] on, any sequence of pushes,
    pops and filtering enumerations returns what the same sequence on a list
    returns (a push, whenever the allocator refuses its node, fails and changes
    nothing: the reference leaves open which pushes do),
    [pitcher_queue_count] is the length of that list, no access is invalid, and
    after [pitcher_destroy_queue] no node is left allocated. *)
Theorem queue_fifo head idles ops :
  head ≠ idles →
  ∃ q0 rs q l q', pitcher_init_queue true head idles = Done (Some q0) ∧
    run_queue ops q0 = Done (rs, q) ∧ fifo [] ops rs l ∧
    pitcher_queue_count q = Done (zlen l, q) ∧
    pitcher_destroy_queue q = Done (tt, q') ∧
    (∀ x, is_Some (h_next (q_heap q') !! x) ↔ x = q_queue q' ∨ x = q_idles q').
Proof.
  intros Hne. destruct (init_ok head idles Hne) as (q0 & E0 & H0).
  destruct (run_queue_ok ops q0 [] H0) as (rs & q & l & E & Hf & Hh).
  destruct (destroy_ok q l Hh) as (q' & E' & Hs).
  exists q0, rs, q, l, q'. split_and!; try done.
  - destruct Hh as (ns & ids & Hst). change (Done (q_count q, q) = Done (zlen l, q)).
    do 2 f_equal. rewrite (st_count _ _ _ _ _ Hst). unfold zlen.
    by rewrite (Forall2_length _ _ _ (st_items _ _ _ _ _ Hst)).
  - intros x. rewrite (qs_next _ _ _ _ Hs). set_solver.
Qed.
End correctness.

(** An allocator that never fails. *)
Definition calloc_example (n : nat) (h : heap) : option Z :=
  Some (fresh (dom (h_next h) ∪ dom (h_prev h) : gset Z)).

Lemma calloc_example_fresh n h x : calloc_example n h = Some x → h_next h !! x = None ∧ h_prev h !! x = None.
Proof.
  intros [= <-]. pose proof (is_fresh (dom (h_next h) ∪ dom (h_prev h) : gset Z)) as H.
  split; apply not_elem_of_dom; set_solver.
Qed.

Lemma queue_fifo_witness :
  ∃ q0 rs q l q', pitcher_init_queue true 1 2 = Done (Some q0) ∧
    run_queue calloc_example [QPush 7; QPush 8; QPop; QPop; QPop] q0 = Done (rs, q) ∧
    fifo [] [QPush 7; QPush 8; QPop; QPop; QPop] rs l ∧
    pitcher_queue_count q = Done (zlen l, q) ∧
    pitcher_destroy_queue q = Done (tt, q') ∧
    (∀ x, is_Some (h_next (q_heap q') !! x) ↔ x = q_queue q' ∨ x = q_idles q').
Proof. by apply (queue_fifo calloc_example calloc_example_fresh 1 2). Defined.

(** Lists themselves keep the contract; a queue that never refuses. *)
Definition list_queue_ops : QueueOps (list Z) := {|
  queue_init ok := Done (if (ok : bool) then Some [] else None);
  queue_destroy _ := Done tt;
  queue_push_back q x := Done (RET_OK, q ++ [x]);
  queue_pop q := Done (match q with [] => (- RET_E_EMPTY, None, []) | x :: q => (RET_OK, Some x, q) end);
  queue_is_empty q := Done (bool_decide (q = []));
  queue_count q := Done (zlen q);
  queue_clear W f q w := match f with
    | Some f => '(_, w) ← enum_list f q w; Done ([], w)
    | None => Done ([], w)
    end;
  queue_enumerate W f q w := enum_list f q w;
  queue_find W f cmp q w := find_list f cmp q w
|}.

Definition list_queue_spec : @QueueSpec (list Z) list_queue_ops.
Proof.
  refine {| holds (q l : list Z) := q = l |}; try done.
  - split; [done|]. by exists [].
  - intros q l x ->. eexists _, _. split; [reflexivity|by left].
  - intros q [|x l] ->; by eexists.
  - by intros q l ->.
  - by intros q l ->.
  - intros W f q l w ->. cbn. by destruct (enum_list f l w) as [[l' w']| | |].
  - intros W f q l w ->. cbn. by destruct (enum_list f l w) as [[l' w']| | |].
  - intros W f cmp q l w ->. cbn. by destruct (find_list f cmp l w) as [[[r l'] w']| | |].
Defined.
