(* ===== verification/Buffer.v ===== *)
(** * memory.c, obj.c and buffer.c: counted allocations and counted buffers

    [mem] is the heap as far as the program manages it: the blocks in use and
    the counter of memory.c.  A buffer is an object with a reference count; the
    last [pitcher_put_buffer] hands it to its owner's [recycle] call-back, and
    if that asks for it the planes and the buffer are released.  Function
    pointers are numbers, given meaning by the variables of the section. *)

From S2P Require Import Prelude.

(** ** memory.c *)

(** Blocks in use, [total_count], and the number of requests so far. *)
(* C: pitcher/memory.c total_count 20-20 *)
Record mem := Mem {
  m_live : gset Z;
  m_count : Z;
  m_nalloc : nat
}.

Section memory.
(** The allocator's answer to the [n]-th request; 0 is never a block. *)
Context (alloc : nat → gset Z → option Z).

Definition raw_alloc : M mem (option Z) := λ m,
  match alloc (m_nalloc m) (m_live m) with
  | Some p => Done (Some p, Mem ({[p]} ∪ m_live m) (m_count m) (S (m_nalloc m)))
  | None => Done (None, Mem (m_live m) (m_count m) (S (m_nalloc m)))
  end.

Definition raw_free (p : option Z) : M mem unit := λ m,
  match p with
  | None => Done (tt, m)
  | Some p =>
      if bool_decide (p ∈ m_live m) then Done (tt, Mem (m_live m ∖ {[p]}) (m_count m) (m_nalloc m))
      else UB
  end.

Definition add_count (n : Z) : M mem unit :=
  modify (λ m, Mem (m_live m) (s64 (m_count m + n)) (m_nalloc m)).

(* C: pitcher/memory.c _pitcher_malloc *)
Definition _pitcher_malloc : M mem (option Z) := _ ← add_count 1; raw_alloc.

(* C: pitcher/memory.c pitcher_free *)
Definition pitcher_free (p : option Z) : M mem unit := _ ← add_count (-1); raw_free p.

(* C: pitcher/memory.c _pitcher_calloc *)
Definition _pitcher_calloc : M mem (option Z) := _ ← add_count 1; raw_alloc.

(** A block that cannot be grown stays as it is. *)
(* C: pitcher/memory.c _pitcher_realloc *)
Definition _pitcher_realloc (p : option Z) : M mem (option Z) :=
  match p with
  | None => _ ← add_count 1; raw_alloc
  | Some q =>
      m ← get;
      if bool_decide (q ∈ m_live m) then
        r ← raw_alloc;
        match r with
        | None => mret None
        | Some q' => _ ← raw_free (Some q); mret (Some q')
        end
      else lift UB
  end.

(* C: pitcher/memory.c pitcher_memory_count *)
Definition pitcher_memory_count : M mem Z := m ← get; mret (m_count m).
End memory.

(** ** obj.c and buffer.c *)

(* C: pitcher/pitcher.h pitcher_buf_ref 56-63 *)
Record pitcher_buf_ref := Plane {
  pl_virt : option Z;
  pl_size : Z;
  pl_phys : Z;
  pl_bytesused : Z;
  pl_offset : Z;
  pl_dmafd : Z
}.

(** The object of obj.c is its reference count here; its [release] is
    [__release_buffer]. *)
(* C: pitcher/buffer.c ext_buffer 23-31 *)
Record ext_buffer := Ext {
  b_planes : list pitcher_buf_ref;
  b_index : Z;
  b_flags : Z;
  b_refcount : Z;
  b_uninit_plane : Z;
  b_recycle : Z
}.

(* C: pitcher/pitcher.h pitcher_buffer_desc 80-87 *)
Record pitcher_buffer_desc := Desc {
  d_plane_count : Z;
  d_plane_size : list Z;
  d_init_plane : Z;
  d_uninit_plane : Z;
  d_recycle : Z
}.

(* C: pitcher/pixfmt.h MAX_PLANES 22-22 *)
Definition MAX_PLANES : Z := 8.

(** Memory, the buffers by address, and whatever the call-backs work on. *)
Record world (W : Type) := World {
  w_mem : mem;
  w_bufs : gmap Z ext_buffer;
  w_env : W
}.
Arguments World {W}. Arguments w_mem {W}. Arguments w_bufs {W}. Arguments w_env {W}.

Section buffer.
Context {W : Type}.
Abbreviation WM := (M (world W)).
Context (alloc : nat → gset Z → option Z).
(** [handle_plane] and [handle_buffer] of the buffers' owners; the latter says
    whether the buffer is to be deleted. *)
Context (call_plane : Z → pitcher_buf_ref → Z → M (world W) (Z * pitcher_buf_ref)).
Context (call_recycle : Z → Z → M (world W) bool).

Definition on_mem {A} (m : M mem A) : WM A := λ w,
  obind (λ '(a, x), Done (a, World x (w_bufs w) (w_env w))) (m (w_mem w)).

Definition load_buf (b : Z) : WM ext_buffer := λ w,
  obind (λ e, Done (e, w)) (of_option (w_bufs w !! b)).
Definition store_buf (b : Z) (e : ext_buffer) : WM unit := λ w,
  match w_bufs w !! b with
  | Some _ => Done (tt, World (w_mem w) (<[b := e]> (w_bufs w)) (w_env w))
  | None => UB
  end.

Definition set_planes l e := Ext l (b_index e) (b_flags e) (b_refcount e) (b_uninit_plane e) (b_recycle e).
Definition set_flags f e := Ext (b_planes e) (b_index e) f (b_refcount e) (b_uninit_plane e) (b_recycle e).
Definition set_refcount n e := Ext (b_planes e) (b_index e) (b_flags e) n (b_uninit_plane e) (b_recycle e).
Definition set_virt v p := Plane v (pl_size p) (pl_phys p) (pl_bytesused p) (pl_offset p) (pl_dmafd p).

(* C: pitcher/buffer.c pitcher_alloc_plane *)
Definition pitcher_alloc_plane (plane : pitcher_buf_ref) (index : Z) : WM (Z * pitcher_buf_ref) :=
  if pl_size plane =? 0 then mret (- RET_E_INVAL, plane)
  else
    p ← on_mem (_pitcher_calloc alloc);
    match p with
    | None => mret (- RET_E_NO_MEMORY, set_virt None plane)
    | Some _ => mret (RET_OK, set_virt p plane)
    end.

(* C: pitcher/buffer.c pitcher_free_plane *)
Definition pitcher_free_plane (plane : pitcher_buf_ref) (index : Z) : WM (Z * pitcher_buf_ref) :=
  match pl_virt plane with
  | None => mret (RET_OK, plane)
  | Some _ => _ ← on_mem (pitcher_free (pl_virt plane)); mret (RET_OK, set_virt None plane)
  end.

(** Calling [uninit_plane] on the planes, in order. *)
(* C: pitcher/buffer.c __release_buffer 75-76 *)
Fixpoint uninit_planes (f : Z) (l : list pitcher_buf_ref) (i : Z) : WM (list pitcher_buf_ref) :=
  match l with
  | [] => mret []
  | p :: l =>
      '(_, p) ← call_plane f p i;
      l ← uninit_planes f l (i + 1); mret (p :: l)
  end.

Definition free_buf (b : Z) : WM unit :=
  _ ← modify (λ w, World (w_mem w) (delete b (w_bufs w)) (w_env w));
  on_mem (pitcher_free (Some b)).

(* C: pitcher/buffer.c __release_buffer *)
Definition __release_buffer (b : Z) : WM unit :=
  e ← load_buf b;
  _ ← store_buf b (set_flags 0 e);
  is_del ← (if b_recycle e =? 0 then mret false else call_recycle (b_recycle e) b);
  if (is_del : bool) then
    e ← load_buf b;
    l ← uninit_planes (b_uninit_plane e) (b_planes e) 0;
    free_buf b
  else mret tt.

(* C: pitcher/obj.c pitcher_get_obj *)
Definition pitcher_get_obj (b : Z) : WM unit :=
  e ← load_buf b; store_buf b (set_refcount (u32 (b_refcount e + 1)) e).

(* C: pitcher/obj.c pitcher_put_obj *)
Definition pitcher_put_obj (b : Z) : WM unit :=
  e ← load_buf b;
  if b_refcount e =? 0 then mret tt
  else
    _ ← store_buf b (set_refcount (b_refcount e - 1) e);
    if b_refcount e - 1 =? 0 then __release_buffer b else mret tt.

(** [planes[i].size], [dmafd = -1] and [init_plane], until one fails. *)
(* C: pitcher/buffer.c pitcher_new_buffer 106-112 *)
Fixpoint init_planes (f : Z) (sizes : list Z) (i : Z) : WM (list pitcher_buf_ref) :=
  match sizes with
  | [] => mret []
  | size :: sizes =>
      '(ret, p) ← call_plane f (Plane None size 0 0 0 (-1)) i;
      if ret <? 0 then mret [] else l ← init_planes f sizes (i + 1); mret (p :: l)
  end.

(* C: pitcher/buffer.c pitcher_new_buffer *)
Definition pitcher_new_buffer (desc : option pitcher_buffer_desc) : WM (option Z) :=
  match desc with
  | None => mret None
  | Some d =>
      if (d_plane_count d =? 0) || (d_init_plane d =? 0) || (d_uninit_plane d =? 0) || (d_recycle d =? 0)
      then mret None
      else if MAX_PLANES <? d_plane_count d then mret None
      else
        exb ← on_mem (_pitcher_calloc alloc);
        match exb with
        | None => mret None
        | Some b =>
            _ ← modify (λ w, World (w_mem w)
                  (<[b := Ext [] 0 0 0 (d_uninit_plane d) (d_recycle d)]> (w_bufs w)) (w_env w));
            planes ← init_planes (d_init_plane d) (take (Z.to_nat (d_plane_count d)) (d_plane_size d)) 0;
            match planes with
            | [] => _ ← free_buf b; mret None
            | _ =>
                e ← load_buf b;
                _ ← store_buf b (set_refcount 0 (set_planes planes e));
                _ ← pitcher_get_obj b;
                mret (Some b)
            end
        end
  end.

(* C: pitcher/buffer.c pitcher_get_buffer *)
Definition pitcher_get_buffer (b : Z) : WM Z := _ ← pitcher_get_obj b; mret b.

(* C: pitcher/buffer.c pitcher_put_buffer *)
Definition pitcher_put_buffer (b : Z) : WM unit := pitcher_put_obj b.

(* C: pitcher/buffer.c pitcher_get_buffer_refcount *)
Definition pitcher_get_buffer_refcount (b : Z) : WM Z := e ← load_buf b; mret (b_refcount e).

(* C: pitcher/buffer.c pitcher_auto_remove_buffer *)
Definition pitcher_auto_remove_buffer (b : Z) : WM bool := mret true.
End buffer.

(** ** The counter of memory.c *)

Inductive mem_op := OpAlloc | OpFree (p : Z) | OpRealloc (p : option Z).

Definition run_mem_op (alloc : nat → gset Z → option Z) (op : mem_op) : M mem (option Z) :=
  match op with
  | OpAlloc => _pitcher_calloc alloc
  | OpFree p => _ ← pitcher_free (Some p); mret None
  | OpRealloc p => _pitcher_realloc alloc p
  end.

(** The results of a sequence of requests. *)
Fixpoint run_mem (alloc : nat → gset Z → option Z) (ops : list mem_op) : M mem (list (option Z)) :=
  match ops with
  | [] => mret []
  | op :: ops => r ← run_mem_op alloc op; rs ← run_mem alloc ops; mret (r :: rs)
  end.

(** Requests for a new block that were refused. *)
Definition refused (op : mem_op) (r : option Z) : Z :=
  match op, r with
  | (OpAlloc | OpRealloc None), None => 1
  | _, _ => 0
  end.
Fixpoint all_refused (ops : list mem_op) (rs : list (option Z)) : Z :=
  match ops, rs with
  | op :: ops, r :: rs => refused op r + all_refused ops rs
  | _, _ => 0
  end.

Definition blocks (m : mem) : Z := Z.of_nat (size (m_live m)).

Lemma size_add (p : Z) (X : gset Z) : p ∉ X → Z.of_nat (size ({[p]} ∪ X)) = Z.of_nat (size X) + 1.
Proof. intros H. rewrite size_union, size_singleton by set_solver. lia. Qed.

Lemma size_sub (p : Z) (X : gset Z) : p ∈ X → Z.of_nat (size (X ∖ {[p]})) = Z.of_nat (size X) - 1.
Proof.
  intros H. rewrite size_difference, size_singleton by set_solver.
  assert (size ({[p]} : gset Z) ≤ size X)%nat by (apply subseteq_size; set_solver).
  rewrite size_singleton in *. lia.
Qed.

Section memory_props.
Context (alloc : nat → gset Z → option Z).
Context (alloc_fresh : ∀ n X p, alloc n X = Some p → p ∉ X).

Lemma raw_alloc_blocks m r m' :
  raw_alloc alloc m = Done (r, m') →
  m_count m' = m_count m ∧ blocks m' = blocks m + (if r then 1 else 0) ∧
  m_live m' = match r with Some p => {[p]} ∪ m_live m | None => m_live m end ∧
  match r with Some p => p ∉ m_live m | None => True end.
Proof.
  unfold raw_alloc, blocks. destruct (alloc _ _) as [p|] eqn:E; intros [= <- <-]; cbn.
  - apply alloc_fresh in E. rewrite size_add by done. done.
  - split_and!; (done || lia).
Qed.

Lemma raw_free_blocks p m m' :
  raw_free (Some p) m = Done (tt, m') →
  m_count m' = m_count m ∧ blocks m' = blocks m - 1 ∧ m_live m' = m_live m ∖ {[p]} ∧ p ∈ m_live m.
Proof.
  unfold raw_free, blocks. case_bool_decide; [|done]. intros [= <-]. cbn. by rewrite size_sub.
Qed.

Lemma run_mem_op_blocks op m r m' :
  run_mem_op alloc op m = Done (r, m') → - 2 ^ 62 < m_count m < 2 ^ 62 →
  m_count m' - blocks m' = m_count m - blocks m + refused op r ∧ m_count m - 1 ≤ m_count m' ≤ m_count m + 1.
Proof.
  intros H Hc. destruct op as [|p|[p|]]; cbn [run_mem_op] in H.
  - apply M_bind_inv in H as ([] & m1 & [= <-] & H). apply raw_alloc_blocks in H as (E1 & E2 & _).
    unfold blocks in *. cbn in *. rewrite s64_small in E1 by lia. destruct r; cbn; lia.
  - apply M_bind_inv in H as ([] & m1 & H & [= <- <-]).
    apply M_bind_inv in H as ([] & m2 & [= <-] & H). apply raw_free_blocks in H as (E1 & E2 & _).
    unfold blocks in *. cbn in *. rewrite s64_small in E1 by lia. lia.
  - apply M_bind_inv in H as (? & m1 & [= <- <-] & H). case_bool_decide; [|done].
    apply M_bind_inv in H as (r1 & m2 & H1 & H). apply raw_alloc_blocks in H1 as (E1 & E2 & E3 & E4).
    destruct r1 as [q|]; [|injection H as <- <-; cbn; lia].
    apply M_bind_inv in H as ([] & m3 & H & [= <- <-]). apply raw_free_blocks in H as (E5 & E6 & _).
    cbn. lia.
  - apply M_bind_inv in H as ([] & m1 & [= <-] & H). apply raw_alloc_blocks in H as (E1 & E2 & _).
    unfold blocks in *. cbn in *. rewrite s64_small in E1 by lia. destruct r; cbn; lia.
Qed.

(** [pitcher_memory_count] is the number of blocks in use plus the number of
    requests that were refused: every allocation raises the counter before it
    is tried, and nothing takes a failure back. *)
Theorem memory_count_tracks ops m rs m' :
  run_mem alloc ops m = Done (rs, m') → m_count m = blocks m → m_count m + zlen ops < 2 ^ 62 →
  pitcher_memory_count m' = Done (blocks m' + all_refused ops rs, m').
Proof.
  intros H Hm Hb. unfold pitcher_memory_count. erewrite M_bind_done by done.
  cut (m_count m' - blocks m' = m_count m - blocks m + all_refused ops rs).
  { intros E. unfold mret, M_ret. do 2 f_equal. lia. }
  assert (Hc : - 2 ^ 62 + zlen ops < m_count m < 2 ^ 62 - zlen ops) by (unfold blocks in *; unfold zlen in *; lia).
  clear Hm Hb. revert m rs H Hc. induction ops as [|op ops IH]; intros m rs H Hc.
  - injection H as <- <-. cbn. lia.
  - cbn [run_mem] in H. apply M_bind_inv in H as (r & m1 & E & H). apply M_bind_inv in H as (rs' & m2 & E2 & [= <- <-]).
    rewrite zlen_cons in Hc. pose proof (zlen_nonneg ops).
    destruct (run_mem_op_blocks _ _ _ _ E) as [H1 H2]; [lia|]. specialize (IH _ _ E2 ltac:(lia)). cbn. lia.
Qed.
End memory_props.

(** An allocator whose second request is refused. *)
Definition alloc_example (n : nat) (X : gset Z) : option Z :=
  if Nat.eqb n 1 then None else Some (fresh X).

Lemma alloc_example_fresh n X p : alloc_example n X = Some p → p ∉ X.
Proof. unfold alloc_example. destruct (Nat.eqb n 1); [done|]. intros [= <-]. apply is_fresh. Qed.

Lemma memory_count_tracks_witness :
  pitcher_memory_count (Mem {[0]} 2 2) = Done (1 + 1, Mem {[0]} 2 2).
Proof.
  apply (memory_count_tracks alloc_example alloc_example_fresh
    [OpAlloc; OpAlloc] (Mem ∅ 0 0) [Some 0; None]); vm_compute; reflexivity.
Defined.

(** ** The life of a buffer *)

Section lifetime.
Context {W : Type}.
Context (alloc : nat → gset Z → option Z).
Context (alloc_fresh : ∀ n X p, alloc n X = Some p → p ∉ X).

(** The planes of buffer.c: 1 is [pitcher_alloc_plane], 2
    [pitcher_free_plane]; the recycling is [pitcher_auto_remove_buffer]. *)
Definition own_plane (f : Z) (p : pitcher_buf_ref) (i : Z) : M (world W) (Z * pitcher_buf_ref) :=
  if f =? 1 then pitcher_alloc_plane alloc p i else pitcher_free_plane p i.
Definition own_recycle (f : Z) (b : Z) : M (world W) bool := pitcher_auto_remove_buffer b.
Definition own_desc (count : Z) (sizes : list Z) : pitcher_buffer_desc := Desc count sizes 1 2 3.

Abbreviation live w := (m_live (w_mem w)).

(** The blocks of a list of planes. *)
Definition virts (l : list pitcher_buf_ref) : gset Z := list_to_set (omap pl_virt l).
Fixpoint planes_ok (l : list pitcher_buf_ref) : Prop :=
  match l with
  | [] => True
  | p :: l => (∃ v, pl_virt p = Some v ∧ v ∉ virts l) ∧ planes_ok l
  end.

Lemma virts_cons p l v : pl_virt p = Some v → virts (p :: l) = {[v]} ∪ virts l.
Proof. unfold virts. cbn. by intros ->. Qed.

Lemma on_mem_done {A} (m : M mem A) (w : world W) a x :
  m (w_mem w) = Done (a, x) → on_mem m w = Done (a, World x (w_bufs w) (w_env w)).
Proof. unfold on_mem. by intros ->. Qed.

Lemma calloc_cases (w : world W) :
  ∃ r w', on_mem (_pitcher_calloc alloc) w = Done (r, w') ∧ w_bufs w' = w_bufs w ∧ w_env w' = w_env w ∧
    match r with Some p => live w' = {[p]} ∪ live w ∧ p ∉ live w | None => live w' = live w end.
Proof.
  unfold on_mem, _pitcher_calloc. erewrite M_bind_done by done. unfold raw_alloc. cbn [m_live m_nalloc].
  destruct (alloc _ _) as [p|] eqn:E; cbn; do 2 eexists; (split; [reflexivity|]); cbn; [|done].
  apply alloc_fresh in E. done.
Qed.

Lemma free_ok (w : world W) p :
  p ∈ live w → ∃ w', on_mem (pitcher_free (Some p)) w = Done (tt, w') ∧ w_bufs w' = w_bufs w ∧
    w_env w' = w_env w ∧ live w' = live w ∖ {[p]}.
Proof.
  intros Hp. unfold on_mem, pitcher_free. erewrite M_bind_done by done. unfold raw_free. cbn [m_live].
  rewrite bool_decide_true by done. cbn. eauto.
Qed.

Lemma free_buf_ok (w : world W) b :
  b ∈ live w → ∃ w', free_buf b w = Done (tt, w') ∧ w_bufs w' = delete b (w_bufs w) ∧ live w' = live w ∖ {[b]} ∧
    w_env w' = w_env w.
Proof.
  intros Hb. unfold free_buf. erewrite M_bind_done by done.
  destruct (free_ok (World (w_mem w) (delete b (w_bufs w)) (w_env w)) b Hb) as (w' & E & H & He & Hl).
  exists w'. split_and!; done.
Qed.

Lemma init_planes_ok sizes : ∀ i w,
  ∃ l w', init_planes own_plane 1 sizes i w = Done (l, w') ∧ w_bufs w' = w_bufs w ∧
    planes_ok l ∧ live w' = virts l ∪ live w ∧ virts l ## live w.
Proof.
  induction sizes as [|size sizes IH]; intros i w.
  { exists [], w. split_and!; try done; unfold virts; set_solver. }
  cbn [init_planes].
  change (own_plane 1 (Plane None size 0 0 0 (-1)) i)
    with (pitcher_alloc_plane (W := W) alloc (Plane None size 0 0 0 (-1)) i).
  unfold pitcher_alloc_plane at 1. cbn [pl_size].
  destruct (size =? 0).
  { erewrite M_bind_done by reflexivity. exists [], w. split_and!; try done; unfold virts; set_solver. }
  destruct (calloc_cases w) as (r & w1 & E & Hb & _ & Hr).
  destruct r as [v|]; (erewrite M_bind_done by (erewrite M_bind_done by exact E; reflexivity));
    cbn [Z.ltb Z.compare RET_OK RET_E_NO_MEMORY Z.opp].
  - destruct Hr as [Hl Hv]. destruct (IH (i + 1) w1) as (l & w' & E' & Hb' & Hok & Hl' & Hd).
    erewrite M_bind_done by exact E'. exists (Plane (Some v) size 0 0 0 (-1) :: l), w'. split; [reflexivity|].
    rewrite (virts_cons (Plane (Some v) size 0 0 0 (-1)) l v eq_refl). split_and!; [by rewrite Hb'| |by rewrite Hl', Hl; set_solver|set_solver].
    split; [|done]. exists v. split; [done|]. set_solver.
  - exists [], w1. split_and!; try done; unfold virts; set_solver.
Qed.

Lemma uninit_planes_ok l : ∀ i w,
  planes_ok l → virts l ⊆ live w →
  ∃ l' w', uninit_planes own_plane 2 l i w = Done (l', w') ∧ w_bufs w' = w_bufs w ∧ live w' = live w ∖ virts l.
Proof.
  induction l as [|p l IH]; intros i w Hok Hl.
  { exists [], w. split_and!; try done. unfold virts. set_solver. }
  destruct Hok as [(v & Ev & Hv) Hok]. rewrite (virts_cons _ _ v Ev) in *.
  cbn [uninit_planes]. change (own_plane 2 p i) with (pitcher_free_plane (W := W) p i).
  unfold pitcher_free_plane at 1. rewrite Ev.
  destruct (free_ok w v) as (w1 & E & Hb & _ & Hl1); [set_solver|].
  erewrite M_bind_done by (erewrite M_bind_done by exact E; reflexivity).
  destruct (IH (i + 1) w1 Hok) as (l' & w' & E' & Hb' & Hl'); [set_solver|].
  erewrite M_bind_done by exact E'. eexists _, w'. split; [reflexivity|]. split; [by rewrite Hb'|].
  rewrite Hl', Hl1. set_solver.
Qed.

(** Buffer [b], with these planes and [n] references, beside the world [w0]. *)
Record alive (w0 : world W) (b : Z) (l : list pitcher_buf_ref) (n : Z) (w : world W) : Prop := {
  al_bufs : ∃ f i, w_bufs w = <[b := Ext l i f n 2 3]> (w_bufs w0);
  al_live : live w = {[b]} ∪ virts l ∪ live w0;
  al_planes : planes_ok l;
  al_new : w_bufs w0 !! b = None ∧ b ∉ live w0 ∧ b ∉ virts l ∧ virts l ## live w0
}.

Lemma get_ok w0 b l n w :
  alive w0 b l n w → 0 ≤ n < 2 ^ 32 - 1 →
  ∃ w', pitcher_get_buffer b w = Done (b, w') ∧ alive w0 b l (n + 1) w'.
Proof.
  intros [(f & i & Hb) Hl Hp Hn] Hr. unfold pitcher_get_buffer, pitcher_get_obj.
  assert (Elk : w_bufs w !! b = Some (Ext l i f n 2 3)) by (rewrite Hb; apply lookup_insert_eq).
  eexists. split.
  - erewrite M_bind_done; [reflexivity|].
    erewrite M_bind_done by (unfold load_buf; rewrite Elk; reflexivity).
    unfold store_buf. rewrite Elk. reflexivity.
  - split; cbn; try done. exists f, i. rewrite Hb, insert_insert_eq. cbn. by rewrite u32_small by lia.
Qed.

(** Dropping a reference: the last one releases planes and buffer. *)
Lemma put_ok w0 b l n w :
  alive w0 b l n w → 0 < n →
  ∃ w', pitcher_put_buffer own_plane own_recycle b w = Done (tt, w') ∧
    (1 < n → alive w0 b l (n - 1) w') ∧
    (n = 1 → w_bufs w' = w_bufs w0 ∧ live w' = live w0).
Proof.
  intros [(f & i & Hb) Hl Hp Hn] Hr. unfold pitcher_put_buffer, pitcher_put_obj.
  assert (Elk : w_bufs w !! b = Some (Ext l i f n 2 3)) by (rewrite Hb; apply lookup_insert_eq).
  erewrite M_bind_done by (unfold load_buf; rewrite Elk; reflexivity). cbn [b_refcount].
  rewrite (proj2 (Z.eqb_neq n 0)) by lia.
  erewrite M_bind_done by (unfold store_buf; rewrite Elk; reflexivity).
  set (w1 := World _ _ _). cbn [set_refcount b_planes b_index b_flags b_uninit_plane b_recycle] in w1.
  destruct (Z.eqb_spec (n - 1) 0) as [E|E].
  2:{ exists w1. split; [done|]. split; [|lia]. intros _. split; cbn; try done.
      exists f, i. by rewrite Hb, insert_insert_eq. }
  unfold __release_buffer.
  assert (E1 : w_bufs w1 !! b = Some (Ext l i f (n - 1) 2 3)) by (cbn; apply lookup_insert_eq).
  erewrite M_bind_done by (unfold load_buf; rewrite E1; reflexivity).
  erewrite M_bind_done by (unfold store_buf; rewrite E1; reflexivity).
  set (w2 := World _ _ _). cbn [b_recycle]. cbn [Z.eqb].
  erewrite M_bind_done by done. cbn iota.
  erewrite M_bind_done by (unfold load_buf; cbn; rewrite lookup_insert_eq; reflexivity).
  cbn [b_uninit_plane b_planes set_flags].
  destruct (uninit_planes_ok l 0 w2 Hp) as (l' & w3 & E3 & Hb3 & Hl3); [cbn; rewrite Hl; set_solver|].
  erewrite M_bind_done by exact E3.
  destruct (free_buf_ok w3 b) as (w4 & E4 & Hb4 & Hl4 & _); [rewrite Hl3; cbn; rewrite Hl; set_solver|].
  exists w4. split; [done|]. split; [lia|]. intros _. split.
  - rewrite Hb4, Hb3. cbn. rewrite Hb, !delete_insert_eq. apply delete_id, Hn.
  - rewrite Hl4, Hl3. cbn. rewrite Hl. set_solver.
Qed.

Lemma new_ok count sizes w :
  (∀ b, is_Some (w_bufs w !! b) → b ∈ live w) →
  ∃ r w', pitcher_new_buffer alloc own_plane (Some (own_desc count sizes)) w = Done (r, w') ∧
    match r with
    | Some b => ∃ l, alive w b l 1 w'
    | None => w_bufs w' = w_bufs w ∧ live w' = live w
    end.
Proof.
  intros Hsub. unfold pitcher_new_buffer. cbn [own_desc d_plane_count d_init_plane d_uninit_plane d_recycle d_plane_size].
  change (1 =? 0) with false. change (2 =? 0) with false. change (3 =? 0) with false. rewrite !orb_false_r.
  destruct (count =? 0); [by exists None, w|]. destruct (MAX_PLANES <? count); [by exists None, w|].
  destruct (calloc_cases w) as (r & w1 & E & Hb & _ & Hr). erewrite M_bind_done by exact E.
  destruct r as [b|]; [|by exists None, w1]. destruct Hr as [Hl Hfresh].
  assert (Hnb : w_bufs w !! b = None) by (apply eq_None_not_Some; intros ?; by apply Hfresh, Hsub).
  erewrite M_bind_done by done. set (w2 := World _ _ _).
  destruct (init_planes_ok (take (Z.to_nat count) sizes) 0 w2) as (l & w3 & E3 & Hb3 & Hok & Hl3 & Hd).
  erewrite M_bind_done by exact E3. cbn in Hb3, Hl3, Hd. destruct l as [|p l].
  - destruct (free_buf_ok w3 b) as (w4 & E4 & Hb4 & Hl4 & _); [rewrite Hl3, Hl; set_solver|].
    erewrite M_bind_done by exact E4. exists None, w4. split; [done|].
    rewrite Hb4, Hb3, Hl4, Hl3, Hb, Hl, delete_insert_eq. unfold virts. split; [by apply delete_id|set_solver].
  - assert (Elk : w_bufs w3 !! b = Some (Ext [] 0 0 0 2 3)) by (rewrite Hb3; apply lookup_insert_eq).
    erewrite M_bind_done by (unfold load_buf; rewrite Elk; reflexivity).
    erewrite M_bind_done by (unfold store_buf; rewrite Elk; reflexivity).
    unfold pitcher_get_obj.
    erewrite M_bind_done.
    2:{ erewrite M_bind_done by (unfold load_buf; cbn; rewrite lookup_insert_eq; reflexivity).
        unfold store_buf. cbn [w_bufs]. rewrite lookup_insert_eq. reflexivity. }
    exists (Some b). eexists. split; [reflexivity|]. exists (p :: l).
    split; cbn [w_bufs w_mem]; [|rewrite Hl3, Hl; set_solver|done|set_solver].
    exists 0, 0. by rewrite insert_insert_eq, Hb3, insert_insert_eq, Hb.
Qed.

(** Taking ([true]) and dropping ([false]) references. *)
Fixpoint run_refs (b : Z) (ops : list bool) : M (world W) unit :=
  match ops with
  | [] => mret tt
  | op :: ops =>
      _ ← (if (op : bool) then _ ← pitcher_get_buffer b; mret tt
           else pitcher_put_buffer own_plane own_recycle b);
      run_refs b ops
  end.

(** [n] references are held, each dropped by the end, none used afterwards. *)
Fixpoint held (n : Z) (ops : list bool) : Prop :=
  match ops with
  | [] => n = 0
  | op :: ops => 0 < n ∧ held (if (op : bool) then n + 1 else n - 1) ops
  end.

Lemma run_refs_ok b w0 l ops : ∀ n w,
  alive w0 b l n w → held n ops → 0 < n → n + zlen ops < 2 ^ 32 - 1 →
  ∃ w', run_refs b ops w = Done (tt, w') ∧ w_bufs w' = w_bufs w0 ∧ live w' = live w0.
Proof.
  induction ops as [|op ops IH]; intros n w Ha Hh Hn Hb; [cbn in Hh; lia|].
  destruct Hh as [_ Hh]. rewrite zlen_cons in Hb. pose proof (zlen_nonneg ops). cbn [run_refs]. destruct op.
  - destruct (get_ok w0 b l n w Ha ltac:(lia)) as (w1 & E & H1).
    erewrite M_bind_done by (erewrite M_bind_done by exact E; reflexivity).
    apply (IH (n + 1)); (done || lia).
  - destruct (put_ok w0 b l n w Ha Hn) as (w1 & E & H1 & H2). erewrite M_bind_done by exact E.
    destruct (decide (n = 1)) as [->|].
    + destruct ops as [|op ops]; [exists w1; split; [done|by apply H2]|]. destruct Hh; lia.
    + apply (IH (n - 1)); [apply H1; lia|done|lia|lia].
Qed.

(** C31: a buffer with planes from [pitcher_alloc_plane] lives exactly as long as
    it is referenced.  [pitcher_new_buffer] gives the first reference or, on
    any failure, leaves no block behind; however the references are then taken
    and dropped, no access is invalid while one is left, and when the last is
    dropped its planes and the buffer itself are freed, each once: the blocks
    in use are those from before. *)
Theorem buffer_lifetime count sizes (w : world W) ops :
  (∀ b, is_Some (w_bufs w !! b) → b ∈ live w) → held 1 ops → zlen ops < 2 ^ 31 →
  ∃ r w1, pitcher_new_buffer alloc own_plane (Some (own_desc count sizes)) w = Done (r, w1) ∧
    match r with
    | None => live w1 = live w
    | Some b => ∃ w2, run_refs b ops w1 = Done (tt, w2) ∧ w_bufs w2 = w_bufs w ∧ live w2 = live w
    end.
Proof.
  intros Hsub Hh Hl. destruct (new_ok count sizes w Hsub) as (r & w1 & E & H). exists r, w1. split; [done|].
  destruct r as [b|]; [|apply H]. destruct H as (l & H). apply (run_refs_ok b w l ops 1 w1); (done || lia).
Qed.
End lifetime.

Lemma buffer_lifetime_witness :
  ∃ r w1, pitcher_new_buffer alloc_example (own_plane alloc_example) (Some (own_desc 2 [16; 8])) 
      (World (Mem {[5]} 1 7) ∅ tt) = Done (r, w1) ∧
    match r with
    | None => m_live (w_mem w1) = {[5]}
    | Some b => ∃ w2, run_refs alloc_example b [true; false; false] w1 = Done (tt, w2) ∧
        w_bufs w2 = ∅ ∧ m_live (w_mem w2) = {[5]}
    end.
Proof.
  refine (buffer_lifetime alloc_example alloc_example_fresh 2 [16; 8]
    (World (Mem {[5]} 1 7) ∅ tt) [true; false; false] _ _ _).
  - intros b [? H]. cbn in H. by rewrite lookup_empty in H.
  - cbn. lia.
  - done.
Defined.
