(* ===== verification/Pipe.v ===== *)
(** * pipe.c: connections between units

    A pipe is a queue of counted buffers with a frame-skipping ratio.  It is
    written against the contract of queues ([QueueSpec]) and the buffers of
    Buffer.v; the pipes of a program live in a store, as its buffers do.  While
    a queue is being walked it is taken out of its pipe, so that a call-back
    that came back to it would be undefined. *)

From S2P Require Import Prelude Queue Buffer.

(* C: pitcher/pipe.c pitcher_pipe 23-33 *)
Record pitcher_pipe (Q : Type) := Pipe {
  pp_src : Z;
  pp_dst : Z;
  pp_queue : option (Z * Q);
  pp_numerator : Z;
  pp_denominator : Z;
  pp_idx : Z;
  pp_notify : Z
}.
Arguments Pipe {Q}. Arguments pp_src {Q}. Arguments pp_dst {Q}. Arguments pp_queue {Q}.
Arguments pp_numerator {Q}. Arguments pp_denominator {Q}. Arguments pp_idx {Q}. Arguments pp_notify {Q}.

(** The pipes by address, and the rest of the program's state. *)
Record pipes (Q E : Type) := Pipes { e_pipes : gmap Z (pitcher_pipe Q); e_rest : E }.
Arguments Pipes {Q E}. Arguments e_pipes {Q E}. Arguments e_rest {Q E}.

Section pipe.
Context {Q E : Type} `{QueueOps Q}.
Abbreviation state := (world (pipes Q E)).
Abbreviation SM := (M (world (pipes Q E))).
Context (alloc : nat → gset Z → option Z).
Context (call_plane : Z → pitcher_buf_ref → Z → M (world (pipes Q E)) (Z * pitcher_buf_ref)).
Context (call_recycle : Z → Z → M (world (pipes Q E)) bool).
(** [notify_callback]: function and channel. *)
Context (call_notify : Z → Z → M (world (pipes Q E)) unit).

Definition put_buffer (b : Z) : SM unit := pitcher_put_buffer call_plane call_recycle b.

Definition set_env (f : pipes Q E → pipes Q E) (w : state) : state := World (w_mem w) (w_bufs w) (f (w_env w)).
Definition get_pipe (w : state) (p : Z) : option (pitcher_pipe Q) := e_pipes (w_env w) !! p.

(** [assert(pipe)], then the structure behind the pointer. *)
Definition load_pipe (p : Z) : SM (pitcher_pipe Q) := λ w,
  if p =? 0 then Trap else obind (λ x, Done (x, w)) (of_option (get_pipe w p)).
Definition store_pipe (p : Z) (x : pitcher_pipe Q) : SM unit :=
  modify (set_env (λ e, Pipes (<[p := x]> (e_pipes e)) (e_rest e))).

Definition set_pp_src v (x : pitcher_pipe Q) := Pipe v (pp_dst x) (pp_queue x) (pp_numerator x) (pp_denominator x) (pp_idx x) (pp_notify x).
Definition set_pp_dst v (x : pitcher_pipe Q) := Pipe (pp_src x) v (pp_queue x) (pp_numerator x) (pp_denominator x) (pp_idx x) (pp_notify x).
Definition set_pp_queue (v : option (Z * Q)) (x : pitcher_pipe Q) := Pipe (pp_src x) (pp_dst x) v (pp_numerator x) (pp_denominator x) (pp_idx x) (pp_notify x).
Definition set_pp_ratio n d (x : pitcher_pipe Q) := Pipe (pp_src x) (pp_dst x) (pp_queue x) n d (pp_idx x) (pp_notify x).
Definition set_pp_idx v (x : pitcher_pipe Q) := Pipe (pp_src x) (pp_dst x) (pp_queue x) (pp_numerator x) (pp_denominator x) v (pp_notify x).
Definition set_pp_notify v (x : pitcher_pipe Q) := Pipe (pp_src x) (pp_dst x) (pp_queue x) (pp_numerator x) (pp_denominator x) (pp_idx x) v.

(** [pitcher_init_queue] and [pitcher_destroy_queue], with the block of the
    [queue_t] itself. *)
Definition new_queue : SM (option (Z * Q)) :=
  a ← on_mem (_pitcher_calloc alloc);
  q ← lift (queue_init (bool_decide (is_Some a)));
  mret (match a, q with Some a, Some q => Some (a, q) | _, _ => None end).
Definition delete_queue (q : Z * Q) : SM unit :=
  _ ← lift (queue_destroy (snd q)); on_mem (pitcher_free (Some (fst q))).

(** Euclid's algorithm; the second number decreases. *)
(* C: pitcher/pipe.c pitcher_set_pipe_skip 201-206 *)
Fixpoint skip_gcd (fuel : nat) (m n : Z) : outcome Z :=
  if n =? 0 then Done m
  else match fuel with O => NoFuel | S fuel' => skip_gcd fuel' n (m mod n) end.

(* C: pitcher/pipe.c pitcher_set_pipe_skip *)
Definition pitcher_set_pipe_skip (p numerator denominator : Z) : SM Z :=
  x ← load_pipe p;
  if (denominator =? 0) || (denominator <? numerator) then mret (- RET_E_INVAL)
  else
    '(numerator, denominator) ←
      (if negb (numerator =? 0) && negb (denominator =? 0) then
         m ← lift (skip_gcd (S (Z.to_nat numerator)) denominator numerator);
         mret (numerator / m, denominator / m)
       else mret (numerator, denominator));
    _ ← store_pipe p (set_pp_ratio numerator denominator x);
    mret RET_OK.

(* C: pitcher/pipe.c pitcher_new_pipe *)
Definition pitcher_new_pipe : SM (option Z) :=
  pipe ← on_mem (_pitcher_calloc alloc);
  match pipe with
  | None => mret None
  | Some p =>
      _ ← store_pipe p (Pipe 0 0 None 0 0 0 0);
      q ← new_queue;
      match q with
      | None =>
          _ ← modify (set_env (λ e, Pipes (delete p (e_pipes e)) (e_rest e)));
          _ ← on_mem (pitcher_free (Some p));
          mret None
      | Some _ =>
          x ← load_pipe p;
          _ ← store_pipe p (set_pp_queue q x);
          _ ← pitcher_set_pipe_skip p 0 1;
          mret (Some p)
      end
  end.

(* C: pitcher/pipe.c __clear_queue_item *)
Definition __clear_queue_item (item : Z) (w : state) : outcome (bool * state) :=
  obind (λ '(_, w), Done (true, w)) ((if item =? 0 then mret tt else put_buffer item) w).

(** Emptying the queue of a pipe; the queue is away while it is walked. *)
Definition clear_pipe_queue (p : Z) : SM unit :=
  x ← load_pipe p;
  match pp_queue x with
  | None => mret tt
  | Some (a, q) =>
      _ ← store_pipe p (set_pp_queue None x);
      q ← (λ w, queue_clear (Some __clear_queue_item) q w);
      x ← load_pipe p;
      store_pipe p (set_pp_queue (Some (a, q)) x)
  end.

(* C: pitcher/pipe.c pitcher_del_pipe *)
Definition pitcher_del_pipe (p : Z) : SM unit :=
  _ ← clear_pipe_queue p;
  x ← load_pipe p;
  _ ← (match pp_queue x with Some q => delete_queue q | None => mret tt end);
  _ ← modify (set_env (λ e, Pipes (delete p (e_pipes e)) (e_rest e)));
  on_mem (pitcher_free (Some p)).

(* C: pitcher/pipe.c pitcher_get_pipe_dst *)
Definition pitcher_get_pipe_dst (p : Z) : SM Z := x ← load_pipe p; mret (pp_dst x).
(* C: pitcher/pipe.c pitcher_set_pipe_dst *)
Definition pitcher_set_pipe_dst (p dst : Z) : SM unit := x ← load_pipe p; store_pipe p (set_pp_dst dst x).
(* C: pitcher/pipe.c pitcher_get_pipe_src *)
Definition pitcher_get_pipe_src (p : Z) : SM Z := x ← load_pipe p; mret (pp_src x).
(* C: pitcher/pipe.c pitcher_set_pipe_src *)
Definition pitcher_set_pipe_src (p src : Z) : SM unit := x ← load_pipe p; store_pipe p (set_pp_src src x).

(** The subtraction and the increment are of 32-bit unsigned numbers. *)
(* C: pitcher/pipe.c __check_is_need_skip *)
Definition __check_is_need_skip (x : pitcher_pipe Q) : bool * pitcher_pipe Q :=
  if (pp_numerator x =? 0) || (pp_denominator x =? 0) then (false, x)
  else
    let skip := negb (pp_idx x <? u32 (pp_denominator x - pp_numerator x)) in
    (skip, set_pp_idx (u32 (pp_idx x + 1) mod pp_denominator x) x).

(* C: pitcher/pipe.c pitcher_pipe_push_back *)
Definition pitcher_pipe_push_back (p buffer : Z) : SM Z :=
  x ← load_pipe p;
  if buffer =? 0 then mret (- RET_E_NULL_POINTER)
  else
    let '(skip, x) := __check_is_need_skip x in
    _ ← store_pipe p x;
    if (skip : bool) then mret RET_OK
    else
      _ ← pitcher_get_buffer buffer;
      x ← load_pipe p;
      '(a, q) ← lift (of_option (pp_queue x));
      '(ret, q) ← lift (queue_push_back q buffer);
      let x := set_pp_queue (Some (a, q)) x in
      _ ← store_pipe p x;
      _ ← (if negb (pp_dst x =? 0) && negb (pp_notify x =? 0)
           then call_notify (pp_notify x) (pp_dst x) else mret tt);
      mret ret.

(* C: pitcher/pipe.c pitcher_pipe_pop *)
Definition pitcher_pipe_pop (p : Z) : SM Z :=
  x ← load_pipe p;
  '(a, q) ← lift (of_option (pp_queue x));
  '(ret, item, q) ← lift (queue_pop q);
  _ ← store_pipe p (set_pp_queue (Some (a, q)) x);
  if ret <? 0 then mret 0 else lift (of_option item).

(* C: pitcher/pipe.c pitcher_pipe_poll *)
Definition pitcher_pipe_poll (p : Z) : SM bool :=
  x ← load_pipe p;
  '(a, q) ← lift (of_option (pp_queue x));
  e ← lift (queue_is_empty q);
  mret (negb e).

(* C: pitcher/pipe.c pitcher_pipe_clear *)
Definition pitcher_pipe_clear (p : Z) : SM Z := _ ← clear_pipe_queue p; mret RET_OK.

(* C: pitcher/pipe.c pitcher_set_pipe_notify *)
Definition pitcher_set_pipe_notify (p notify : Z) : SM Z :=
  x ← load_pipe p; _ ← store_pipe p (set_pp_notify notify x); mret RET_OK.
End pipe.

(** ** Skipping *)

(** [n] pushes ask [__check_is_need_skip] in turn; how many are skipped. *)
Fixpoint count_skips {Q} (n : nat) (x : pitcher_pipe Q) : Z * pitcher_pipe Q :=
  match n with
  | O => (0, x)
  | S n =>
      let '(s, x) := __check_is_need_skip x in
      let '(k, x) := count_skips n x in
      ((if (s : bool) then 1 else 0) + k, x)
  end.

(** The pipes whose ratio is in the range [pitcher_set_pipe_skip] leaves. *)
Definition skip_ok {Q} (x : pitcher_pipe Q) : Prop :=
  0 ≤ pp_numerator x ≤ pp_denominator x ∧ 0 ≤ pp_idx x < pp_denominator x ∧ pp_denominator x < 2 ^ 32.

(** Skips among the first [t] pushes from index 0. *)
Definition skips_until (n d t : Z) : Z := t / d * n + Z.max 0 (t mod d - (d - n)).

Lemma skips_until_step n d t : 0 < n ≤ d → 0 ≤ t →
  skips_until n d (t + 1) = skips_until n d t + (if t mod d <? d - n then 0 else 1).
Proof.
  intros Hn Ht. unfold skips_until. pose proof (Z.mod_pos_bound t d ltac:(lia)) as Hm.
  pose proof (Z.div_mod t d ltac:(lia)) as E.
  destruct (decide (t mod d + 1 = d)) as [E1|E1].
  - assert (H1 : (t + 1) / d = t / d + 1) by (symmetry; apply (Z.div_unique_pos _ _ _ 0); lia).
    assert (H2 : (t + 1) mod d = 0) by (symmetry; apply (Z.mod_unique_pos _ _ (t / d + 1)); lia).
    rewrite H1, H2. destruct (Z.ltb_spec (t mod d) (d - n)); lia.
  - assert (H1 : (t + 1) / d = t / d) by (symmetry; apply (Z.div_unique_pos _ _ _ (t mod d + 1)); lia).
    assert (H2 : (t + 1) mod d = t mod d + 1) by (symmetry; apply (Z.mod_unique_pos _ _ (t / d)); lia).
    rewrite H1, H2. destruct (Z.ltb_spec (t mod d) (d - n)); lia.
Qed.

Lemma skips_until_period n d t k : 0 < d → skips_until n d (t + k * d) = skips_until n d t + k * n.
Proof. intros Hd. unfold skips_until. rewrite Z.div_add, Z.mod_add by lia. lia. Qed.

Lemma check_skip_eq {Q} (x : pitcher_pipe Q) : skip_ok x →
  __check_is_need_skip x =
    if pp_numerator x =? 0 then (false, x)
    else (negb (pp_idx x <? pp_denominator x - pp_numerator x),
          set_pp_idx ((pp_idx x + 1) mod pp_denominator x) x).
Proof.
  intros (H1 & H2 & H3). unfold __check_is_need_skip. destruct (Z.eqb_spec (pp_numerator x) 0); [done|].
  cbn [orb]. rewrite (proj2 (Z.eqb_neq (pp_denominator x) 0)) by lia. rewrite !u32_small by lia. done.
Qed.

Lemma count_skips_run {Q} (n : nat) : ∀ (x : pitcher_pipe Q) t, skip_ok x → pp_numerator x ≠ 0 → 0 ≤ t →
  pp_idx x = t mod pp_denominator x →
  count_skips n x =
    (skips_until (pp_numerator x) (pp_denominator x) (t + Z.of_nat n) - skips_until (pp_numerator x) (pp_denominator x) t,
     set_pp_idx ((t + Z.of_nat n) mod pp_denominator x) x).
Proof.
  induction n as [|n IH]; intros x t Hok Hn Ht Hi.
  - cbn [count_skips]. rewrite Z.add_0_r, Z.sub_diag, <- Hi. by destruct x.
  - cbn [count_skips]. rewrite check_skip_eq by done. rewrite (proj2 (Z.eqb_neq _ _)) by done.
    destruct Hok as (H1 & H2 & H3). rewrite Hi.
    assert (Hm : (t mod pp_denominator x + 1) mod pp_denominator x = (t + 1) mod pp_denominator x)
      by (apply Zplus_mod_idemp_l).
    rewrite Hm, (IH _ (t + 1)); cbn [set_pp_idx pp_numerator pp_denominator pp_idx]; try done; try lia.
    2:{ pose proof (Z.mod_pos_bound (t + 1) (pp_denominator x) ltac:(lia)). split_and!; cbn; lia. }
    rewrite (skips_until_step _ _ t) by lia. replace (t + 1 + Z.of_nat n) with (t + Z.of_nat (S n)) by lia.
    f_equal. destruct (Z.ltb_spec (t mod pp_denominator x) (pp_denominator x - pp_numerator x)); cbn; lia.
Qed.

(** Any whole number of periods skips its share and comes back. *)
Lemma count_skips_period {Q} (x : pitcher_pipe Q) k : skip_ok x → 0 ≤ k →
  count_skips (Z.to_nat (k * pp_denominator x)) x = (k * pp_numerator x, x).
Proof.
  intros Hok Hk. destruct (decide (pp_numerator x = 0)) as [E|E].
  - rewrite E, Z.mul_0_r. generalize (Z.to_nat (k * pp_denominator x)). intros n. induction n as [|n IH]; [done|].
    cbn [count_skips]. rewrite check_skip_eq, E by done. cbn. by rewrite IH.
  - destruct Hok as (H1 & H2 & H3).
    rewrite (count_skips_run _ x (pp_idx x)); try done; [|lia|by rewrite Z.mod_small by lia].
    rewrite Z2Nat.id by nia. rewrite skips_until_period by lia. rewrite Z.mod_add, Z.mod_small by lia.
    f_equal; [lia|by destruct x].
Qed.

Lemma count_skips_ok {Q} n : ∀ x : pitcher_pipe Q, skip_ok x →
  skip_ok (count_skips n x).2 ∧ pp_numerator (count_skips n x).2 = pp_numerator x ∧
  pp_denominator (count_skips n x).2 = pp_denominator x.
Proof.
  induction n as [|n IH]; intros x Hok; [done|]. cbn [count_skips]. rewrite check_skip_eq by done.
  destruct (pp_numerator x =? 0).
  - specialize (IH x Hok). by destruct (count_skips n x).
  - assert (Hok' : skip_ok (set_pp_idx ((pp_idx x + 1) mod pp_denominator x) x)).
    { destruct Hok as (H1 & H2 & H3). pose proof (Z.mod_pos_bound (pp_idx x + 1) (pp_denominator x) ltac:(lia)). split_and!; cbn; lia. }
    specialize (IH _ Hok'). by destruct (count_skips n _).
Qed.

Lemma skip_gcd_ok fuel : ∀ m n, 0 ≤ n → n ≤ Z.of_nat fuel → 0 ≤ m → skip_gcd fuel m n = Done (Z.gcd m n).
Proof.
  induction fuel as [|fuel IH]; intros m n Hn Hf Hm; cbn [skip_gcd].
  - assert (n = 0) as -> by lia. cbn. by rewrite Z.gcd_0_r, Z.abs_eq.
  - destruct (Z.eqb_spec n 0) as [->|E]; [by rewrite Z.gcd_0_r, Z.abs_eq|].
    pose proof (Z.mod_pos_bound m n). rewrite IH by lia. f_equal. rewrite Z.gcd_comm, Z.gcd_mod by lia.
    apply Z.gcd_comm.
Qed.

(** ** Pipes with an implementation of queues behind them *)

Section pipe_props.
Context {Q E : Type} `{QueueSpec Q}.
Abbreviation state := (world (pipes Q E)).
Context (alloc : nat → gset Z → option Z).
Context (call_plane : Z → pitcher_buf_ref → Z → M (world (pipes Q E)) (Z * pitcher_buf_ref)).
Context (call_recycle : Z → Z → M (world (pipes Q E)) bool).
Context (call_notify : Z → Z → M (world (pipes Q E)) unit).

Lemma load_pipe_ok p (w : state) x : p ≠ 0 → get_pipe w p = Some x → load_pipe p w = Done (x, w).
Proof. intros Hp Hx. unfold load_pipe. rewrite (proj2 (Z.eqb_neq p 0)), Hx by done. done. Qed.

Definition with_pipe (p : Z) (x : pitcher_pipe Q) (w : state) : state :=
  set_env (λ e, Pipes (<[p := x]> (e_pipes e)) (e_rest e)) w.

Lemma get_with_pipe p x w : get_pipe (with_pipe p x w) p = Some x.
Proof. apply lookup_insert_eq. Qed.

(** Setting the ratio 0/den or num/den. *)
Lemma set_pipe_skip_ok p n d (w : state) x :
  p ≠ 0 → get_pipe w p = Some x → 0 ≤ n ≤ d → 0 < d →
  pitcher_set_pipe_skip p n d w =
    Done (RET_OK, with_pipe p (set_pp_ratio (if n =? 0 then 0 else n / Z.gcd n d)
                                            (if n =? 0 then d else d / Z.gcd n d) x) w).
Proof.
  intros Hp Hx Hn Hd. unfold pitcher_set_pipe_skip. erewrite M_bind_done by (by apply load_pipe_ok).
  rewrite (proj2 (Z.eqb_neq d 0)), (proj2 (Z.ltb_ge d n)) by lia. cbn [orb negb].
  destruct (Z.eqb_spec n 0) as [->|E0]; cbn [andb negb].
  - by erewrite M_bind_done by reflexivity.
  - erewrite M_bind_done; [|erewrite M_bind_done; [reflexivity|unfold lift; rewrite skip_gcd_ok by lia; reflexivity]].
    rewrite (Z.gcd_comm d n). reflexivity.
Qed.

(** A ratio of [n] frames out of [d] is honoured exactly.  The ratio is
    reduced by Euclid's algorithm, with the range checked first; then, of any
    [d] consecutive pushes, counted from any later push, exactly [n] are
    skipped, provided the running index is below the reduced denominator
    (it is 0 in a new pipe). *)
Theorem pipe_skip_ratio p n d (w : state) x :
  p ≠ 0 → get_pipe w p = Some x → 0 ≤ n → 0 ≤ d < 2 ^ 32 → 0 ≤ pp_idx x →
  pp_idx x * Z.gcd n d < d ∨ d = 0 →
  if (d =? 0) || (d <? n) then pitcher_set_pipe_skip p n d w = Done (- RET_E_INVAL, w)
  else ∃ x', pitcher_set_pipe_skip p n d w = Done (RET_OK, with_pipe p x' w) ∧
    pp_numerator x' * d = n * pp_denominator x' ∧ pp_queue x' = pp_queue x ∧ pp_idx x' = pp_idx x ∧
    ∀ start, fst (count_skips (Z.to_nat d) (snd (count_skips start x'))) = n.
Proof.
  intros Hp Hx Hn Hd Hi0 Hi. destruct (Z.eqb_spec d 0) as [->|Hd0].
  { unfold pitcher_set_pipe_skip. by erewrite M_bind_done by (by apply load_pipe_ok). }
  destruct (Z.ltb_spec d n) as [Hdn|Hdn]; cbn [orb].
  { unfold pitcher_set_pipe_skip. erewrite M_bind_done by (by apply load_pipe_ok).
    rewrite (proj2 (Z.eqb_neq d 0)), (proj2 (Z.ltb_lt d n)) by lia. done. }
  eexists. split; [apply set_pipe_skip_ok; (done || lia)|]. cbn [set_pp_ratio pp_numerator pp_denominator pp_queue pp_idx].
  destruct Hi as [Hi|]; [|done].
  assert (Hg : 0 < Z.gcd n d) by (pose proof (Z.gcd_nonneg n d); pose proof (Z.gcd_eq_0_r n d); lia).
  destruct (Z.gcd_divide_l n d) as [n' En]. destruct (Z.gcd_divide_r n d) as [d' Ed].
  set (g := Z.gcd n d) in *. 
  assert (Hn' : n / g = n') by (rewrite En; apply Z.div_mul; lia).
  assert (Hd' : d / g = d') by (rewrite Ed; apply Z.div_mul; lia).
  rewrite Hn', Hd'.
  assert (Hr : ∃ k, 0 ≤ k ∧ d = k * (if n =? 0 then d else d') ∧ n = k * (if n =? 0 then 0 else n')).
  { destruct (Z.eqb_spec n 0); [exists 1|exists g]; lia. }
  set (n1 := if n =? 0 then 0 else n') in *. set (d1 := if n =? 0 then d else d') in *.
  assert (Hd1 : 0 ≤ n1 ≤ d1 ∧ pp_idx x < d1 ∧ d1 < 2 ^ 32)
    by (unfold n1, d1; destruct (Z.eqb_spec n 0); nia).
  split_and!; try done.
  { destruct Hr as (k & _ & Ek & Ek'). rewrite Ek, Ek'. lia. }
  intros start.
  assert (Hok : skip_ok (set_pp_ratio n1 d1 x)) by (split_and!; cbn; lia).
  destruct (count_skips_ok start _ Hok) as (Hok' & E1 & E2). cbn [set_pp_ratio pp_numerator pp_denominator] in E1, E2.
  destruct Hr as (k & Hk & Ek & Ek'). generalize dependent (snd (count_skips start (set_pp_ratio n1 d1 x))).
  intros y Hok' E1 E2. rewrite Ek, <- E2, count_skips_period by done. cbn. lia.
Qed.

(** *** Pushing and popping *)

Inductive pipe_op := PPush (b : Z) | PPop.

(** The results of a sequence of operations: a code, or the popped buffer. *)
Fixpoint run_pipe (p : Z) (ops : list pipe_op) : M (world (pipes Q E)) (list Z) :=
  match ops with
  | [] => mret []
  | op :: ops =>
      r ← (match op with
           | PPush b => pitcher_pipe_push_back call_notify p b
           | PPop => pitcher_pipe_pop p
           end);
      rs ← run_pipe p ops;
      mret (r :: rs)
  end.

(** What happens to a pipe, in the order in which it happens: a push is
    accepted, refused for want of memory or skipped; a pop gives a buffer, or 0;
    the pipe is emptied. *)
Inductive pipe_event := EAccept (b : Z) | ERefuse (b : Z) | ESkip (b : Z) | EPop (b : Z) | EClear.

(** The ratio, as its documentation has it: of [d] pushes one after the other
    the last [n] are skipped; [t] have been made. *)
Definition skipped (n d t : Z) : bool := negb (n =? 0) && (d - n <=? t mod d).

(** The contract: the number of pushes and the buffers inside after an event;
    nothing, when the event cannot happen. *)
Definition next (n d : Z) (s : Z * list Z) (ev : pipe_event) : option (Z * list Z) :=
  let '(t, l) := s in
  match ev with
  | EAccept b => if skipped n d t then None else Some (t + 1, l ++ [b])
  | ERefuse b => if skipped n d t then None else Some (t + 1, l)
  | ESkip b => if skipped n d t then Some (t + 1, l) else None
  | EPop b => if b =? hd 0 l then Some (t, tl l) else None
  | EClear => Some (t, [])
  end.

Fixpoint replay (n d : Z) (s : Z * list Z) (evs : list pipe_event) : option (Z * list Z) :=
  match evs with
  | [] => Some s
  | ev :: evs => s ← next n d s ev; replay n d s evs
  end.

(** The buffers that went in and those that came out. *)
Definition went_in (evs : list pipe_event) : list Z :=
  omap (λ ev, match ev with EAccept b => Some b | _ => None end) evs.
Definition came_out (evs : list pipe_event) : list Z :=
  omap (λ ev, match ev with EPop b => if b =? 0 then None else Some b | _ => None end) evs.

(** First in, first out: as long as the pipe is not emptied, what came out
    and what is left are what was inside and what went in, in this order. *)
Lemma replay_fifo n d evs : ∀ t l t' l', replay n d (t, l) evs = Some (t', l') → EClear ∉ evs →
  Forall (λ b, b ≠ 0) l → Forall (λ b, b ≠ 0) (went_in evs) → came_out evs ++ l' = l ++ went_in evs.
Proof.
  induction evs as [|ev evs IH]; intros t l t' l' Hr Hc Hl Hin; cbn [replay] in Hr.
  { injection Hr as <- <-. by rewrite app_nil_r. }
  apply not_elem_of_cons in Hc as [Hne Hc]. destruct ev as [b|b|b|b|]; cbn [next] in Hr; [| | | |done].
  - destruct (skipped n d t); [done|]. change (went_in (EAccept b :: evs)) with (b :: went_in evs) in *.
    change (came_out (EAccept b :: evs)) with (came_out evs). apply Forall_cons in Hin as [Hb Hin].
    rewrite (IH _ _ _ _ Hr Hc); [by rewrite <- app_assoc| |done]. apply Forall_app_2; [done|by apply Forall_singleton].
  - destruct (skipped n d t); [done|]. by apply (IH _ _ _ _ Hr).
  - destruct (skipped n d t); [|done]. by apply (IH _ _ _ _ Hr).
  - destruct (Z.eqb_spec b (hd 0 l)) as [->|]; [|done]. cbn in Hr. destruct l as [|b l]; cbn [hd tl] in *.
    + by apply (IH _ _ _ _ Hr).
    + apply Forall_cons in Hl as [Hb Hl]. change (came_out (EPop b :: evs)) with
        (match (if b =? 0 then None else Some b) with Some b => b :: came_out evs | None => came_out evs end).
      rewrite (proj2 (Z.eqb_neq b 0) Hb). cbn. f_equal. by apply (IH _ _ _ _ Hr).
Qed.

(** [w'] has the buffers of [w] with [n b] more references on [b]; and the
    same memory too. *)
Definition refs_grow (n : Z → Z) (w w' : state) : Prop :=
  w_bufs w' = map_imap (λ b e, Some (set_refcount (b_refcount e + n b) e)) (w_bufs w).
Definition more_refs (n : Z → Z) (w w' : state) : Prop := w_mem w' = w_mem w ∧ refs_grow n w w'.

(** The pipe at [p], whose queue is at [a], holds the buffers [l]. *)
Definition pipe_has (w : state) (p a : Z) (x : pitcher_pipe Q) (l : list Z) : Prop :=
  get_pipe w p = Some x ∧ ∃ q, pp_queue x = Some (a, q) ∧ holds q l.

(** Nothing happens to the pipes but [p]. *)
Definition only_pipe (p : Z) (w w' : state) : Prop :=
  delete p (e_pipes (w_env w')) = delete p (e_pipes (w_env w)).

Lemma only_with_pipe p x w : only_pipe p w (with_pipe p x w).
Proof. apply delete_insert_eq. Qed.

Definition one_at (b b' : Z) : Z := if b' =? b then 1 else 0.

Lemma more_refs_0 w w' : w_mem w' = w_mem w → w_bufs w' = w_bufs w → more_refs (λ _, 0) w w'.
Proof.
  intros Hm Hw. split; [done|]. unfold refs_grow. rewrite Hw. apply map_eq. intros b. rewrite map_lookup_imap.
  destruct (w_bufs w !! b) as [[]|]; [|done]. cbn. by rewrite Z.add_0_r.
Qed.

Lemma refs_grow_trans n m k w w1 w2 :
  (∀ b, k b = n b + m b) → refs_grow n w w1 → refs_grow m w1 w2 → refs_grow k w w2.
Proof.
  unfold refs_grow. intros Hk H1 H2. rewrite H2, H1. apply map_eq. intros b. rewrite !map_lookup_imap.
  destruct (w_bufs w !! b) as [[]|]; [|done]. cbn. by rewrite Hk, Z.add_assoc.
Qed.

Lemma more_refs_trans n m w w1 w2 :
  more_refs n w w1 → more_refs m w1 w2 → more_refs (λ b, n b + m b) w w2.
Proof. intros [M1 H1] [M2 H2]. split; [congruence|]. by eapply refs_grow_trans. Qed.

Lemma more_refs_ext n m w w' : (∀ b, n b = m b) → more_refs n w w' → more_refs m w w'.
Proof.
  intros E1 [HM Hb]. split; [done|]. unfold refs_grow. rewrite Hb. apply map_eq. intros b. rewrite !map_lookup_imap.
  destruct (w_bufs w !! b); [|done]. cbn. by rewrite E1.
Qed.

Lemma more_refs_frame n w w' w1 w1' :
  w_mem w = w_mem w1 → w_bufs w = w_bufs w1 → w_mem w' = w_mem w1' → w_bufs w' = w_bufs w1' →
  more_refs n w w' → more_refs n w1 w1'.
Proof. unfold more_refs, refs_grow. by intros -> -> -> ->. Qed.

Lemma more_refs_lookup n w w' b e :
  more_refs n w w' → w_bufs w !! b = Some e → w_bufs w' !! b = Some (set_refcount (b_refcount e + n b) e).
Proof. intros [_ Hb] He. by rewrite Hb, map_lookup_imap, He. Qed.

Lemma get_buffer_more b (w : state) e :
  w_bufs w !! b = Some e → 0 ≤ b_refcount e < 2 ^ 32 - 1 →
  ∃ w', pitcher_get_buffer b w = Done (b, w') ∧ w_env w' = w_env w ∧ more_refs (one_at b) w w'.
Proof.
  intros He Hr. unfold pitcher_get_buffer, pitcher_get_obj. eexists. split.
  - erewrite M_bind_done; [reflexivity|].
    erewrite M_bind_done by (unfold load_buf; rewrite He; reflexivity).
    unfold store_buf. rewrite He. reflexivity.
  - split_and!; try done. split; [done|]. unfold refs_grow. cbn. apply map_eq. intros b'. rewrite map_lookup_imap.
    unfold one_at. rewrite u32_small by lia. destruct (Z.eqb_spec b' b) as [->|].
    + by rewrite lookup_insert_eq, He.
    + rewrite lookup_insert_ne by done. destruct (w_bufs w !! b') as [[]|]; [|done]. cbn. by rewrite Z.add_0_r.
Qed.

(** The pipe at [p] with its queue at [a] and the ratio [n] of [d]: so many
    pushes so far, and these buffers inside. *)
Definition pipe_at (w : state) (p a n d : Z) (s : Z * list Z) : Prop :=
  ∃ x, pipe_has w p a x s.2 ∧ pp_numerator x = n ∧ pp_denominator x = d ∧ 0 ≤ s.1 ∧ (n ≠ 0 → pp_idx x = s.1 mod d).

(** The other pipes, the ends of this one and the rest of the state stay. *)
Definition kept (p : Z) (w w' : state) : Prop :=
  only_pipe p w w' ∧ e_rest (w_env w') = e_rest (w_env w) ∧
  ∀ y z, get_pipe w p = Some y → get_pipe w' p = Some z →
    pp_src z = pp_src y ∧ pp_dst z = pp_dst y ∧ pp_notify z = pp_notify y.

(** What an event makes of the rest of the state: an accepted and a refused push
    take one reference on their buffer. *)
Definition taken (p : Z) (ev : pipe_event) (w w' : state) : Prop :=
  match ev with
  | EAccept b | ERefuse b => more_refs (one_at b) w w' ∧ kept p w w'
  | ESkip _ | EPop _ => more_refs (λ _, 0) w w' ∧ kept p w w'
  | EClear => True
  end.

(** The way of a program from [w] to [w'], as far as the pipe [p] is
    concerned: the events [evs] happen to it, and what happens between them
    leaves its record alone. *)
Inductive runs (p a n d : Z) : list pipe_event → Z * list Z → state → Z * list Z → state → Prop :=
  | runs_done s w : runs p a n d [] s w s w
  | runs_other evs s w w1 s' w' :
      get_pipe w1 p = get_pipe w p → runs p a n d evs s w1 s' w' → runs p a n d evs s w s' w'
  | runs_event ev evs s s1 w w1 s' w' :
      next n d s ev = Some s1 → pipe_at w1 p a n d s1 → taken p ev w w1 →
      runs p a n d evs s1 w1 s' w' → runs p a n d (ev :: evs) s w s' w'.

Lemma runs_trans p a n d e1 e2 s1 w1 s2 w2 s3 w3 :
  runs p a n d e1 s1 w1 s2 w2 → runs p a n d e2 s2 w2 s3 w3 → runs p a n d (e1 ++ e2) s1 w1 s3 w3.
Proof. induction 1; intros Hr; cbn; [done|eapply runs_other|eapply runs_event]; eauto. Qed.

Lemma runs_replay p a n d evs s w s' w' : runs p a n d evs s w s' w' → replay n d s evs = Some s'.
Proof. induction 1 as [| |ev evs s s1 w w1 s' w' Hn _ _ _ IH]; [done|done|]. cbn [replay]. by rewrite Hn. Qed.

Lemma runs_at p a n d evs s w s' w' : runs p a n d evs s w s' w' → pipe_at w p a n d s → pipe_at w' p a n d s'.
Proof.
  induction 1 as [|evs s w w1 s' w' Hg _ IH|ev evs s s1 w w1 s' w' _ Hp _ _ IH]; [done| |auto].
  intros (x & [Hx Hq] & Hrest). apply IH. exists x. split; [|done]. split; [by rewrite Hg|done].
Qed.

Lemma check_skip_at (x : pitcher_pipe Q) n d t : 0 ≤ n ≤ d → 0 < d < 2 ^ 32 → 0 ≤ t →
  pp_numerator x = n → pp_denominator x = d → (n ≠ 0 → pp_idx x = t mod d) →
  ∃ y, __check_is_need_skip x = (skipped n d t, y) ∧ pp_queue y = pp_queue x ∧ pp_numerator y = n ∧
    pp_denominator y = d ∧ (n ≠ 0 → pp_idx y = (t + 1) mod d).
Proof.
  intros Hn Hd Ht <- <- Hi. unfold skipped. pose proof (Z.mod_pos_bound t (pp_denominator x)) as Hm.
  destruct (Z.eqb_spec (pp_numerator x) 0) as [E0|E0].
  - exists x. unfold __check_is_need_skip. rewrite E0. done.
  - specialize (Hi E0). rewrite check_skip_eq by (split_and!; lia). rewrite (proj2 (Z.eqb_neq _ _) E0).
    eexists. split; [f_equal|].
    + rewrite Hi. destruct (Z.ltb_spec (t mod pp_denominator x) (pp_denominator x - pp_numerator x)), (Z.leb_spec (pp_denominator x - pp_numerator x) (t mod pp_denominator x));
        cbn; lia || done.
    + cbn. split_and!; try done. intros _. rewrite Hi. apply Zplus_mod_idemp_l.
Qed.

(** The event of a push, with its result. *)
Definition answered (b r : Z) (ev : pipe_event) : Prop :=
  ev = EAccept b ∧ r = RET_OK ∨ ev = ERefuse b ∧ r = - RET_E_NO_MEMORY.

(** A push up to the notification. *)
Lemma pipe_push_ok p b a n d t l (w : state) :
  p ≠ 0 → b ≠ 0 → 0 ≤ n ≤ d → 0 < d < 2 ^ 32 → pipe_at w p a n d (t, l) →
  (∃ e, w_bufs w !! b = Some e ∧ 0 ≤ b_refcount e < 2 ^ 32 - 1) →
  ∃ ev s1 w1, next n d (t, l) ev = Some s1 ∧ pipe_at w1 p a n d s1 ∧ taken p ev w w1 ∧
    (ev = ESkip b ∧ pitcher_pipe_push_back call_notify p b w = Done (RET_OK, w1) ∨
     ∃ z r, answered b r ev ∧ pitcher_pipe_push_back call_notify p b w =
       (_ ← (if negb (pp_dst z =? 0) && negb (pp_notify z =? 0) then call_notify (pp_notify z) (pp_dst z) else mret tt);
        mret r) w1 ∧ get_pipe w1 p = Some z).
Proof.
  intros Hp Hb Hn Hd (x & (Hx & q & Hq & Hl) & En & Ed & Ht & Hi) (e & He & Hr). cbn [fst snd] in *. unfold pitcher_pipe_push_back.
  erewrite M_bind_done by (by apply load_pipe_ok). rewrite (proj2 (Z.eqb_neq b 0)) by done.
  destruct (check_skip_at x n d t Hn Hd Ht En Ed Hi) as (y & Ey & Hqy & Eny & Edy & Hiy).
  assert (Hends : pp_src y = pp_src x ∧ pp_dst y = pp_dst x ∧ pp_notify y = pp_notify x).
  { unfold __check_is_need_skip in Ey. destruct (_ || _); by injection Ey as _ <-. }
  rewrite Ey. erewrite M_bind_done by reflexivity. set (w1 := set_env _ w). destruct (skipped n d t) eqn:Es.
  { exists (ESkip b), (t + 1, l), w1. cbn [next]. rewrite Es. split; [done|]. split.
    { exists y. cbn. split; [split; [apply get_with_pipe|exists q; split; [congruence|done]]|]. split_and!; [done..|lia|done]. }
    split; [split; [by apply more_refs_0|]|by left]. split; [apply only_with_pipe|]. split; [done|].
    intros y1 z1 Hy1. unfold get_pipe at 1. cbn. rewrite lookup_insert_eq. intros [= <-]. rewrite Hx in Hy1. by injection Hy1 as <-. }
  destruct (get_buffer_more b w1 e) as (w2 & E2 & Henv & Hm); [done|done|].
  erewrite M_bind_done by exact E2. erewrite M_bind_done.
  2:{ apply load_pipe_ok; [done|]. unfold get_pipe. rewrite Henv. apply get_with_pipe. }
  rewrite Hqy, Hq. erewrite M_bind_done by reflexivity. cbn iota.
  destruct (holds_push q l b Hl) as (ret & q' & Ep & Hret).
  erewrite M_bind_done by (unfold lift; rewrite Ep; reflexivity). cbn iota.
  erewrite M_bind_done by reflexivity. set (z := set_pp_queue (Some (a, q')) y). set (w3 := set_env _ w2).
  set (ev := if ret =? RET_OK then EAccept b else ERefuse b).
  assert (Hrec : more_refs (one_at b) w w3 ∧ kept p w w3).
  { split; [by eapply more_refs_frame; [..|exact Hm]|]. split; [|split; [cbn; by rewrite Henv|]].
    - unfold only_pipe. cbn. rewrite Henv. cbn. by rewrite !delete_insert_eq.
    - intros y1 z1 Hy1. unfold get_pipe at 1. cbn. rewrite lookup_insert_eq. intros [= <-]. rewrite Hx in Hy1. by injection Hy1 as <-. }
  exists ev, (t + 1, if ret =? RET_OK then l ++ [b] else l), w3.
  assert (Hz : get_pipe w3 p = Some z) by apply get_with_pipe.
  split; [unfold ev; destruct (ret =? RET_OK); cbn [next]; by rewrite Es|]. split; [|split].
  - exists z. split; [split; [done|exists q'; split; [done|]]|cbn; split_and!; [done..|lia|done]].
    cbn. by destruct Hret as [[-> Hl']|[-> Hl']].
  - unfold ev. by destruct (ret =? RET_OK).
  - right. exists z, ret. split; [unfold ev; destruct Hret as [[-> _]|[-> _]]; [by left|by right]|].
    split; [reflexivity|done].
Qed.

Lemma pipe_pop_ok p a n d t l (w : state) :
  p ≠ 0 → pipe_at w p a n d (t, l) →
  ∃ w', pitcher_pipe_pop p w = Done (hd 0 l, w') ∧ next n d (t, l) (EPop (hd 0 l)) = Some (t, tl l) ∧
    pipe_at w' p a n d (t, tl l) ∧ taken p (EPop (hd 0 l)) w w'.
Proof.
  intros Hp (x & (Hx & q & Hq & Hl) & En & Ed & Ht & Hi). cbn [fst snd] in *. unfold pitcher_pipe_pop.
  erewrite M_bind_done by (by apply load_pipe_ok). rewrite Hq. erewrite M_bind_done by reflexivity. cbn iota.
  apply holds_pop in Hl. assert (Hpop : ∃ q' ret it, queue_pop q = Done (ret, it, q') ∧ holds q' (tl l) ∧
    (if ret <? 0 then Done 0 else of_option it) = Done (hd 0 l)).
  { destruct l as [|i l]; destruct Hl as (q' & Ep & Hl); exists q'; eauto. }
  destruct Hpop as (q' & ret & it & Ep & Hl' & Hit).
  erewrite M_bind_done by (unfold lift; rewrite Ep; reflexivity). cbn iota. erewrite M_bind_done by reflexivity.
  eexists. split; [|split; [cbn [next]; by rewrite Z.eqb_refl|split]].
  - transitivity (obind (λ r, Done (r, set_env (λ e, Pipes (<[p := set_pp_queue (Some (a, q')) x]> (e_pipes e)) (e_rest e)) w))
      (if ret <? 0 then Done 0 else of_option it)); [by destruct (ret <? 0)|]. rewrite Hit. reflexivity.
  - exists (set_pp_queue (Some (a, q')) x). split; [split; [apply get_with_pipe|by exists q']|done].
  - split; [by apply more_refs_0|]. split; [apply only_with_pipe|]. split; [done|].
    intros y1 z1 Hy1. unfold get_pipe at 1. cbn. rewrite lookup_insert_eq. intros [= <-]. rewrite Hx in Hy1. by injection Hy1 as <-.
Qed.

(** *** What is notified

    Pushing calls the sink's side, which may pop this very pipe, push to it or
    empty it.  What is asked of it, in an invariant [inv] that also counts the
    operations still to come: the buffers pushed are there and have room in
    their counters, the notification returns, all it does to this pipe is push,
    pop and empty it, and the invariant holds again. *)
Definition of_ours (bs : list Z) (ev : pipe_event) : Prop :=
  match ev with EAccept b | ERefuse b | ESkip b => b ∈ bs | EPop _ => True | EClear => False end.

Record Notified (p a n d : Z) (bs : list Z) (inv : nat → state → Prop) : Prop := {
  nt_buffer k w b : inv (S k) w → b ∈ bs → b ≠ 0 ∧ ∃ e, w_bufs w !! b = Some e ∧ 0 ≤ b_refcount e < 2 ^ 32 - 1;
  nt_step k ev w w1 s s1 : inv (S k) w → of_ours bs ev → pipe_at w p a n d s → next n d s ev = Some s1 →
    pipe_at w1 p a n d s1 → taken p ev w w1 → inv k w1;
  nt_notify k z w s : inv k w → pipe_at w p a n d s → get_pipe w p = Some z → pp_notify z ≠ 0 → pp_dst z ≠ 0 →
    ∃ evs s' w', call_notify (pp_notify z) (pp_dst z) w = Done (tt, w') ∧ runs p a n d evs s w s' w' ∧ inv k w'
}.

(** The operations [ops] with their results [rs] are events of [evs], in this
    order; what follows a push until the next of them is the notification's. *)
Inductive within : list pipe_op → list Z → list pipe_event → Prop :=
  | within_none : within [] [] []
  | within_pop ops rs b evs : within ops rs evs → within (PPop :: ops) (b :: rs) (EPop b :: evs)
  | within_skip ops rs b evs : within ops rs evs → within (PPush b :: ops) (RET_OK :: rs) (ESkip b :: evs)
  | within_push ops rs b r ev nested evs :
      answered b r ev → within ops rs evs → within (PPush b :: ops) (r :: rs) (ev :: nested ++ evs).

Lemma run_pipe_ok p a n d bs inv ops : p ≠ 0 → 0 ≤ n ≤ d → 0 < d < 2 ^ 32 → Notified p a n d bs inv →
  (∀ b, PPush b ∈ ops → b ∈ bs) → ∀ w s, pipe_at w p a n d s → inv (length ops) w →
  ∃ rs evs s' w', run_pipe p ops w = Done (rs, w') ∧ runs p a n d evs s w s' w' ∧ within ops rs evs ∧ inv 0%nat w'.
Proof.
  intros Hp Hn Hd Hnt. induction ops as [|op ops IH]; intros Hbs w [t l] Hat Hi; cbn [run_pipe].
  { exists [], [], (t, l), w. split_and!; [done|constructor|constructor|done]. }
  cbn [length] in Hi. assert (Hbs' : ∀ b, PPush b ∈ ops → b ∈ bs) by (intros b Hb; apply Hbs; by right). specialize (IH Hbs').
  destruct op as [b|].
  - assert (Hb : b ∈ bs) by (apply Hbs; by left). destruct (nt_buffer _ _ _ _ _ _ Hnt _ _ b Hi Hb) as [Hb0 He].
    destruct (pipe_push_ok p b a n d t l w Hp Hb0 Hn Hd Hat He) as (ev & s1 & w1 & Hnx & Hat1 & Htk & Hcase).
    assert (Hours : of_ours bs ev) by (destruct Hcase as [[-> _]|(z & r & [[-> _]|[-> _]] & _)]; exact Hb).
    pose proof (nt_step _ _ _ _ _ _ Hnt _ _ _ _ _ _ Hi Hours Hat Hnx Hat1 Htk) as Hi1.
    destruct Hcase as [[-> E1]|(z & r & Hans & E1 & Hz)].
    + destruct (IH w1 s1 Hat1 Hi1) as (rs & evs & s' & w' & E' & Hr & Hin & Hi').
      exists (RET_OK :: rs), (ESkip b :: evs), s', w'. mstep E1. mstep E'. split_and!; [done| |by constructor|done].
      by eapply runs_event.
    + assert (Hnot : ∃ evs2 s2 w2, (if negb (pp_dst z =? 0) && negb (pp_notify z =? 0)
          then call_notify (pp_notify z) (pp_dst z) else mret tt) w1 = Done (tt, w2) ∧ runs p a n d evs2 s1 w1 s2 w2 ∧ inv (length ops) w2).
      { destruct (Z.eqb_spec (pp_dst z) 0) as [|Hd1]; cbn [negb andb]; [exists [], s1, w1; split_and!; [done|constructor|done]|].
        destruct (Z.eqb_spec (pp_notify z) 0) as [|Hd2]; cbn [negb]; [exists [], s1, w1; split_and!; [done|constructor|done]|].
        by eapply (nt_notify _ _ _ _ _ _ Hnt). }
      destruct Hnot as (evs2 & s2 & w2 & E2 & Hr2 & Hi2).
      destruct (IH w2 s2 (runs_at _ _ _ _ _ _ _ _ _ Hr2 Hat1) Hi2) as (rs & evs & s' & w' & E' & Hr & Hin & Hi').
      exists (r :: rs), (ev :: evs2 ++ evs), s', w'. rewrite M_bind_eq, E1, M_bind_eq, E2. cbn [obind mret M_ret]. mstep E'.
      split_and!; [done| |by constructor|done]. eapply runs_event; [done..|by eapply runs_trans].
  - destruct (pipe_pop_ok p a n d t l w Hp Hat) as (w1 & E1 & Hnx & Hat1 & Htk).
    pose proof (nt_step _ _ _ _ _ _ Hnt _ (EPop (hd 0 l)) _ _ _ _ Hi I Hat Hnx Hat1 Htk) as Hi1.
    destruct (IH w1 _ Hat1 Hi1) as (rs & evs & s' & w' & E' & Hr & Hin & Hi').
    exists (hd 0 l :: rs), (EPop (hd 0 l) :: evs), s', w'. mstep E1. mstep E'. split_and!; [done| |by constructor|done].
    by eapply runs_event.
Qed.

(** C32: a pipe is a queue of counted buffers.  For any pushes and pops of a
    pipe with the ratio [n] of [d], and a notification that may itself push to,
    pop and empty this pipe but returns ([Notified], with the buffers pushed
    being there and their counters not overflowing): every operation returns,
    its result is the event the contract [next] allows at its place among all
    that happens to the pipe, a push that is not skipped takes exactly one
    reference, every push is skipped or not by its number alone, and, unless the
    pipe is emptied, what has come out and what is left inside are what was
    inside and what went in, in order. *)
Theorem pipe_fifo p a n d bs inv ops (w : state) t l :
  p ≠ 0 → 0 ≤ n ≤ d → 0 < d < 2 ^ 32 → Notified p a n d bs inv → (∀ b, PPush b ∈ ops → b ∈ bs) →
  pipe_at w p a n d (t, l) → inv (length ops) w →
  ∃ rs evs t' l' w', run_pipe p ops w = Done (rs, w') ∧ runs p a n d evs (t, l) w (t', l') w' ∧ within ops rs evs ∧
    pipe_at w' p a n d (t', l') ∧ replay n d (t, l) evs = Some (t', l') ∧
    (EClear ∉ evs → Forall (λ b, b ≠ 0) (l ++ went_in evs) → came_out evs ++ l' = l ++ went_in evs).
Proof.
  intros Hp Hn Hd Hnt Hbs Hat Hi.
  destruct (run_pipe_ok p a n d bs inv ops Hp Hn Hd Hnt Hbs w (t, l) Hat Hi) as (rs & evs & [t' l'] & w' & E' & Hr & Hin & _).
  exists rs, evs, t', l', w'. pose proof (runs_replay _ _ _ _ _ _ _ _ _ Hr) as Hre. split_and!; [done..|by eapply runs_at|done|].
  intros Hc [Hl Hw]%Forall_app. by eapply replay_fifo.
Qed.

(** A push the queue refuses keeps the reference it took, although the buffer
    is not in the pipe. *)
Lemma push_refused_leaks p a b n d t l (w : state) x e w' :
  p ≠ 0 → b ≠ 0 → 0 ≤ n ≤ d → 0 < d < 2 ^ 32 → pipe_at w p a n d (t, l) → get_pipe w p = Some x → pp_notify x = 0 →
  w_bufs w !! b = Some e → 0 ≤ b_refcount e < 2 ^ 32 - 1 →
  pitcher_pipe_push_back call_notify p b w = Done (- RET_E_NO_MEMORY, w') →
  pipe_at w' p a n d (t + 1, l) ∧ w_bufs w' !! b = Some (set_refcount (b_refcount e + 1) e).
Proof.
  intros Hp Hb Hn Hd Hat Hx Hno He Hr Hpush.
  destruct (pipe_push_ok p b a n d t l w Hp Hb Hn Hd Hat ltac:(eauto)) as (ev & s1 & w1 & Hnx & Hat1 & Htk & [[_ E1]|(z & r & Hans & E1 & Hz)]);
    [by rewrite Hpush in E1|].
  assert (Ez : pp_notify z = pp_notify x).
  { destruct Hans as [[-> _]|[-> _]]; destruct Htk as (_ & _ & _ & Hsame); by destruct (Hsame x z Hx Hz) as (_ & _ & ?). }
  rewrite Ez, Hno, andb_false_r, Hpush in E1. injection E1 as <- <-.
  destruct Hans as [[_ [=]]|[-> _]]. cbn [next] in Hnx. destruct (skipped n d t); [done|]. injection Hnx as <-.
  split; [done|]. destruct Htk as [Hm _]. rewrite (more_refs_lookup _ _ _ _ _ Hm He). unfold one_at. by rewrite Z.eqb_refl.
Qed.

(** *** The life of a pipe *)

(** How often [b] occurs in a pipe. *)
Fixpoint occurs (b : Z) (l : list Z) : Z :=
  match l with
  | [] => 0
  | x :: l => (if b =? x then 1 else 0) + occurs b l
  end.

Lemma occurs_nonneg b l : 0 ≤ occurs b l.
Proof. induction l; cbn; [lia|]. destruct (b =? a); lia. Qed.
Abbreviation put := (put_buffer (Q := Q) (E := E) call_plane call_recycle).

Lemma put_more b (w : state) e :
  w_bufs w !! b = Some e → 1 < b_refcount e →
  ∃ w', put b w = Done (tt, w') ∧ w_env w' = w_env w ∧ more_refs (λ b', - one_at b b') w w'.
Proof.
  intros He Hr. unfold put_buffer, pitcher_put_buffer, pitcher_put_obj. eexists. split.
  - erewrite M_bind_done by (unfold load_buf; rewrite He; reflexivity).
    rewrite (proj2 (Z.eqb_neq (b_refcount e) 0)) by lia.
    erewrite M_bind_done by (unfold store_buf; rewrite He; reflexivity).
    rewrite (proj2 (Z.eqb_neq (b_refcount e - 1) 0)) by lia. reflexivity.
  - split_and!; try done. split; [done|]. unfold refs_grow. cbn. apply map_eq. intros b'. rewrite map_lookup_imap.
    unfold one_at. destruct (Z.eqb_spec b' b) as [->|].
    + by rewrite lookup_insert_eq, He.
    + rewrite lookup_insert_ne by done. destruct (w_bufs w !! b') as [[]|]; [|done]. cbn. by rewrite Z.add_0_r.
Qed.

(** Clearing drops one reference for each place in the queue. *)
Lemma enum_clear_ok l : ∀ w : state,
  Forall (λ b, b ≠ 0) l → (∀ b, b ∈ l → ∃ e, w_bufs w !! b = Some e ∧ occurs b l < b_refcount e) →
  ∃ w', enum_list (__clear_queue_item call_plane call_recycle) l w = Done ([], w') ∧ w_env w' = w_env w ∧
    more_refs (λ b, - occurs b l) w w'.
Proof.
  induction l as [|b l IH]; intros w Hn Hr.
  - exists w. split_and!; try done. by apply more_refs_0.
  - inversion Hn as [|? ? Hb Hl]; subst. destruct (Hr b) as (e & He & Hlt); [by left|]. cbn in Hlt. rewrite Z.eqb_refl in Hlt.
    pose proof (occurs_nonneg b l). destruct (put_more b w e He) as (w1 & E1 & He1 & H1); [lia|].
    assert (Ec : __clear_queue_item call_plane call_recycle b w = Done (true, w1)).
    { unfold __clear_queue_item. rewrite (proj2 (Z.eqb_neq b 0)), E1 by done. done. }
    cbn [enum_list]. rewrite Ec. cbn [obind mbind outcome_bind].
    destruct (IH w1 Hl) as (w' & E' & He' & H').
    { intros b' Hb'. destruct (Hr b') as (e' & E2 & Hlt'); [by right|].
      eexists. split; [by eapply more_refs_lookup|]. cbn in *. unfold one_at. destruct (b' =? b); lia. }
    rewrite E'. cbn. exists w'. split_and!; [done|congruence|].
    eapply more_refs_ext; [|eapply more_refs_trans; [exact H1|exact H']]. intros b'. cbn. unfold one_at. lia.
Qed.

Lemma clear_ok p a (w : state) x l :
  p ≠ 0 → pipe_has w p a x l → Forall (λ b, b ≠ 0) l →
  (∀ b, b ∈ l → ∃ e, w_bufs w !! b = Some e ∧ occurs b l < b_refcount e) →
  ∃ w' x', clear_pipe_queue call_plane call_recycle p w = Done (tt, w') ∧ pipe_has w' p a x' [] ∧
    only_pipe p w w' ∧ more_refs (λ b, - occurs b l) w w'.
Proof.
  intros Hp (Hx & q & Hq & Hl) Hn Hr. unfold clear_pipe_queue.
  erewrite M_bind_done by (by apply load_pipe_ok). rewrite Hq.
  erewrite M_bind_done by reflexivity. set (w1 := set_env _ w).
  destruct (enum_clear_ok l w1 Hn Hr) as (w2 & E2 & He2 & H2).
  pose proof (holds_clear (__clear_queue_item call_plane call_recycle) q l w1 Hl) as Hc. rewrite E2 in Hc.
  destruct (queue_clear (Some (__clear_queue_item call_plane call_recycle)) q w1) as [[q' w2']| | |] eqn:Ec; try done.
  destruct Hc as [Hq' ->]. erewrite M_bind_done by exact Ec.
  erewrite M_bind_done.
  2:{ apply load_pipe_ok; [done|]. unfold get_pipe. rewrite He2. apply lookup_insert_eq. }
  eexists. exists (set_pp_queue (Some (a, q')) (set_pp_queue None x)). split; [reflexivity|]. split_and!.
  - split; [apply get_with_pipe|]. by exists q'.
  - unfold only_pipe. cbn. rewrite He2. cbn. by rewrite !delete_insert_eq.
  - by eapply more_refs_frame; [..|exact H2].
Qed.

Abbreviation live w := (m_live (w_mem w)).

Context (alloc_fresh : ∀ n X p, alloc n X = Some p → p ∉ X ∧ p ≠ 0).

(** The blocks come from [alloc]. *)
Lemma calloc_ok (w : state) :
  ∃ r w', on_mem (_pitcher_calloc alloc) w = Done (r, w') ∧ w_bufs w' = w_bufs w ∧ w_env w' = w_env w ∧
    match r with Some p => live w' = {[p]} ∪ live w ∧ p ∉ live w ∧ p ≠ 0 | None => live w' = live w end.
Proof.
  destruct (calloc_cases alloc (λ n X p Ha, proj1 (alloc_fresh n X p Ha)) w) as (r & w' & Ea & Hb & He & Hr).
  exists r, w'. split_and!; try done. destruct r as [p|]; [|done]. destruct Hr as [Hl Hf]. split_and!; try done.
  unfold on_mem, _pitcher_calloc in Ea. erewrite M_bind_done in Ea by done. unfold raw_alloc in Ea. cbn [m_live m_nalloc add_count] in Ea.
  destruct (alloc _ _) as [p'|] eqn:E2; cbn in Ea; [|done]. injection Ea as <- <-. apply alloc_fresh in E2. by destruct E2.
Qed.

Lemma new_pipe_ok (w : state) :
  (∀ p, is_Some (get_pipe w p) → p ∈ live w) →
  ∃ r w1, pitcher_new_pipe alloc w = Done (r, w1) ∧ w_bufs w1 = w_bufs w ∧
    match r with
    | None => live w1 = live w ∧ e_pipes (w_env w1) = e_pipes (w_env w)
    | Some p => ∃ x a, pipe_has w1 p a x [] ∧ p ≠ 0 ∧ get_pipe w p = None ∧ only_pipe p w w1 ∧
        a ≠ p ∧ live w1 = {[p]} ∪ {[a]} ∪ live w ∧ p ∉ live w ∧ a ∉ live w
    end.
Proof.
  intros Hsub. unfold pitcher_new_pipe. destruct (calloc_ok w) as (r & w1 & E1 & Hb1 & He1 & H1).
  erewrite M_bind_done by exact E1. destruct r as [p|]; [|exists None, w1; by rewrite He1].
  destruct H1 as (Hl1 & Hf1 & Hp).
  assert (Hnew : get_pipe w p = None) by (apply eq_None_not_Some; intros ?; by apply Hf1, Hsub).
  erewrite M_bind_done by reflexivity. set (w2 := set_env _ w1). unfold new_queue.
  destruct (calloc_ok w2) as (r & w3 & E3 & Hb3 & He3 & H3). destruct holds_init as [Hi0 (q & Hi1 & Hq)].
  destruct r as [a|].
  - erewrite M_bind_done.
    2:{ erewrite M_bind_done by exact E3. rewrite bool_decide_true by done.
        erewrite M_bind_done by (unfold lift; rewrite Hi1; reflexivity). reflexivity. }
    cbn iota. erewrite M_bind_done.
    2:{ apply load_pipe_ok; [done|]. unfold get_pipe. rewrite He3. apply lookup_insert_eq. }
    erewrite M_bind_done by reflexivity. erewrite M_bind_done.
    2:{ apply set_pipe_skip_ok; [done|apply get_with_pipe|lia|lia]. }
    eexists (Some p), _. split; [reflexivity|]. split; [cbn in *; congruence|].
    eexists _, a. destruct H3 as (Hl3 & Hf3 & Ha). cbn in Hl3, Hf3. split_and!.
    + split; [apply get_with_pipe|]. by exists q.
    + done.
    + done.
    + unfold only_pipe. cbn. rewrite He3. cbn. rewrite He1. by rewrite !delete_insert_eq.
    + set_solver.
    + cbn. rewrite Hl3, Hl1. set_solver.
    + done.
    + set_solver.
  - erewrite M_bind_done.
    2:{ erewrite M_bind_done by exact E3. rewrite bool_decide_false by (by intros []).
        erewrite M_bind_done by (unfold lift; rewrite Hi0; reflexivity). reflexivity. }
    cbn iota. erewrite M_bind_done by reflexivity.
    destruct (free_ok (set_env (λ e, Pipes (delete p (e_pipes e)) (e_rest e)) w3) p) as (w4 & E4 & Hb4 & He4 & Hl4).
    { cbn. rewrite H3. cbn. set_solver. }
    erewrite M_bind_done by exact E4. exists None, w4. cbn in *. split; [done|].
    split; [congruence|]. rewrite Hl4, H3, Hl1, He4, He3. cbn. rewrite He1, delete_insert_eq. split; [set_solver|].
    by apply delete_id.
Qed.

Lemma del_pipe_ok p a (w : state) x l :
  p ≠ 0 → pipe_has w p a x l → Forall (λ b, b ≠ 0) l →
  (∀ b, b ∈ l → ∃ e, w_bufs w !! b = Some e ∧ occurs b l < b_refcount e) →
  a ≠ p → p ∈ live w → a ∈ live w →
  ∃ w', pitcher_del_pipe call_plane call_recycle p w = Done (tt, w') ∧ live w' = live w ∖ ({[p]} ∪ {[a]}) ∧
    refs_grow (λ b, - occurs b l) w w' ∧ e_pipes (w_env w') = delete p (e_pipes (w_env w)).
Proof.
  intros Hp Hh Hn Hr Hne HBp HBa. unfold pitcher_del_pipe.
  destruct (clear_ok p a w x l Hp Hh Hn Hr) as (w1 & x1 & E1 & (Hx1 & q & Hq & Hl) & Ho & Hm & Hg).
  erewrite M_bind_done by exact E1. erewrite M_bind_done by (by apply load_pipe_ok).
  rewrite Hq. unfold delete_queue. cbn [fst snd].
  destruct (free_ok w1 a) as (w2 & E2 & Hb2 & He2 & Hl2); [rewrite Hm; set_solver|].
  erewrite M_bind_done.
  2:{ erewrite M_bind_done by (unfold lift; rewrite (holds_destroy q [] Hl); reflexivity). exact E2. }
  erewrite M_bind_done by reflexivity.
  destruct (free_ok (set_env (λ e, Pipes (delete p (e_pipes e)) (e_rest e)) w2) p) as (w3 & E3 & Hb3 & He3 & Hl3).
  { cbn. rewrite Hl2, Hm. set_solver. }
  exists w3. split; [exact E3|]. cbn in *. rewrite Hl3, Hl2, Hm. split_and!; [set_solver| |].
  - unfold refs_grow in *. congruence.
  - rewrite He3. cbn. by rewrite He2.
Qed.


(** The life of a pipe.  [pitcher_new_pipe] gives an empty pipe that skips
    nothing, or leaves nothing behind; from any later state in which the pipe
    holds buffers that are still referenced elsewhere, [pitcher_del_pipe] drops
    one reference for each of them and frees the pipe and its queue. *)
Theorem pipe_lifecycle (w : state) :
  (∀ p, is_Some (get_pipe w p) → p ∈ live w) →
  ∃ r w1, pitcher_new_pipe alloc w = Done (r, w1) ∧ w_bufs w1 = w_bufs w ∧
    match r with
    | None => live w1 = live w ∧ e_pipes (w_env w1) = e_pipes (w_env w)
    | Some p => ∃ x a, pipe_has w1 p a x [] ∧ only_pipe p w w1 ∧ live w1 = {[p]} ∪ {[a]} ∪ live w ∧
        ∀ w2 y l, pipe_has w2 p a y l → Forall (λ b, b ≠ 0) l →
          (∀ b, b ∈ l → ∃ e, w_bufs w2 !! b = Some e ∧ occurs b l < b_refcount e) → p ∈ live w2 → a ∈ live w2 →
          ∃ w3, pitcher_del_pipe call_plane call_recycle p w2 = Done (tt, w3) ∧ live w3 = live w2 ∖ ({[p]} ∪ {[a]}) ∧
            refs_grow (λ b, - occurs b l) w2 w3 ∧ e_pipes (w_env w3) = delete p (e_pipes (w_env w2))
    end.
Proof.
  intros Hsub. destruct (new_pipe_ok w Hsub) as (r & w1 & E1 & Hb1 & H1).
  exists r, w1. split; [done|]. split; [done|]. destruct r as [p|]; [|done].
  destruct H1 as (x & a & Hh & Hp & Hnew & Ho1 & Hne & Hl1 & Hfp & Hfa). exists x, a. split_and!; try done.
  intros w2 y l Hh2 Hn Hr Hpl Hal. by eapply del_pipe_ok.
Qed.
End pipe_props.

(** ** Witnesses *)

Definition calloc_pipe (n : nat) (X : gset Z) : option Z := Some (fresh ({[0]} ∪ X)).
Lemma calloc_pipe_fresh n X p : calloc_pipe n X = Some p → p ∉ X ∧ p ≠ 0.
Proof. intros [= <-]. pose proof (is_fresh ({[0]} ∪ X)). set_solver. Qed.

Definition no_plane {E} (f : Z) (p : pitcher_buf_ref) (i : Z) : M (world E) (Z * pitcher_buf_ref) := mret (0, p).
Definition no_recycle {E} (f b : Z) : M (world E) bool := mret true.
Lemma pipe_skip_ratio_witness :
  let w := World (Mem ∅ 0 0) ∅ (Pipes {[5 := Pipe 0 0 (None : option (Z * queue_t)) 0 1 0 0]} tt) in
  ∃ x', pitcher_set_pipe_skip 5 4 6 w = Done (RET_OK, with_pipe 5 x' w) ∧
    pp_numerator x' * 6 = 4 * pp_denominator x' ∧
    ∀ start, fst (count_skips 6 (snd (count_skips start x'))) = 4.
Proof.
  intros w. destruct (pipe_skip_ratio 5 4 6 w (Pipe 0 0 None 0 1 0 0)) as (x' & E & H1 & _ & _ & H2);
    try done; [by left|]. by exists x'.
Defined.

#[local] Instance pipe_queue_ops : QueueOps queue_t := queue_t_ops calloc_example.
#[local] Instance pipe_queue_spec : QueueSpec queue_t := queue_t_spec calloc_example calloc_example_fresh.

(** A pipe at 5 whose sink takes each buffer out as soon as it is notified, and
    gives it back. *)
Definition taking_notify (f dst : Z) : M (world (pipes queue_t unit)) unit :=
  b ← pitcher_pipe_pop dst; if b =? 0 then mret tt else put_buffer no_plane no_recycle b.

Definition world_example (x : gmap Z (pitcher_pipe queue_t)) : world (pipes queue_t unit) :=
  World (Mem {[5; 6; 7]} 3 3) {[7 := Ext [] 0 0 1 0 0]} (Pipes x tt).

(** All that is inside is the buffer 7, which has one reference for each place
    and one more. *)
Definition taking_inv (k : nat) (w : world (pipes queue_t unit)) : Prop :=
  ∃ x l r, pipe_has w 5 6 x l ∧ pp_dst x = 5 ∧ Forall (λ b, b = 7) l ∧
    w_bufs w = {[7 := Ext [] 0 0 r 0 0]} ∧ 1 + zlen l ≤ r ∧ r + Z.of_nat k < 2 ^ 32 - 1.

(** What a queue holds can be read off by popping. *)
Lemma holds_inj {Q} `{QueueSpec Q} (l : list Z) : ∀ (q : Q) k, holds q l → holds q k → l = k.
Proof.
  induction l as [|x l IH]; intros q k H1%holds_pop H2%holds_pop.
  - destruct H1 as (q1 & E1 & _). destruct k as [|y k]; [done|]. destruct H2 as (q2 & E2 & _). by rewrite E1 in E2.
  - destruct H1 as (q1 & E1 & H1). destruct k as [|y k]; destruct H2 as (q2 & E2 & H2); rewrite E1 in E2; [done|].
    injection E2 as <- <-. f_equal. by eapply IH.
Qed.

Lemma pipe_has_same {Q E} `{QueueSpec Q} (w : world (pipes Q E)) p a x y l k :
  pipe_has w p a x l → pipe_has w p a y k → x = y ∧ l = k.
Proof.
  intros [Hx (q & Hq & Hl)] [Hy (q' & Hq' & Hk)]. rewrite Hx in Hy. injection Hy as <-. rewrite Hq in Hq'.
  injection Hq' as <-. split; [done|]. by eapply holds_inj.
Qed.

(** The counter of the buffer 7 after an event. *)
Lemma one_buffer n (w w' : world (pipes queue_t unit)) r :
  more_refs n w w' → w_bufs w = {[7 := Ext [] 0 0 r 0 0]} → w_bufs w' = {[7 := Ext [] 0 0 (r + n 7) 0 0]}.
Proof.
  intros [_ Hb] Hw. rewrite Hb, Hw. apply map_eq. intros b. rewrite map_lookup_imap.
  destruct (decide (b = 7)) as [->|Hne]; [by rewrite !lookup_singleton_eq|]. by rewrite !lookup_singleton_ne.
Qed.

Lemma taking_step k ev w w1 (s s1 : Z * list Z) : taking_inv (S k) w → of_ours [7] ev → pipe_at w 5 6 0 1 s →
  next 0 1 s ev = Some s1 → pipe_at w1 5 6 0 1 s1 → taken 5 ev w w1 → taking_inv k w1.
Proof.
  intros (x & l & r & Hx & Hd & Hl & Hb & Hr & Hk) Ho (y & Hy & _) Hn (z & Hz & _) Ht.
  destruct (pipe_has_same _ _ _ _ _ _ _ Hx Hy) as [<- ->]. destruct s as [t l]. cbn [snd] in *.
  assert (Hends : pp_dst z = 5).
  { assert (Hkp : kept 5 w w1) by (destruct ev; [apply Ht..|done]). destruct Hkp as (_ & _ & Hs).
    destruct (Hs x z (proj1 Hx) (proj1 Hz)) as (_ & -> & _). done. }
  assert (Hev : ∃ g, more_refs g w w1 ∧ 0 ≤ g 7 ≤ 1 ∧ Forall (λ b, b = 7) s1.2 ∧ zlen s1.2 ≤ zlen l + g 7).
  { destruct ev as [b|b|b|b|]; cbn [next skipped Z.eqb negb andb] in Hn; [| | |destruct (b =? hd 0 l); [|done]|done]; try done;
      injection Hn as <-; cbn [snd].
    - apply list_elem_of_singleton in Ho as ->. exists (one_at 7). split; [apply Ht|]. split; [by vm_compute|].
      split; [apply Forall_app_2; [done|by apply Forall_singleton]|]. unfold zlen, one_at. rewrite length_app. cbn. lia.
    - apply list_elem_of_singleton in Ho as ->. exists (one_at 7). split; [apply Ht|]. split; [by vm_compute|]. split; [done|].
      unfold one_at. cbn. lia.
    - exists (λ _, 0). split; [apply Ht|]. split; [done|]. destruct l as [|c l]; [by split|]. cbn [tl]. apply Forall_cons in Hl as [_ Hl].
      split; [done|]. rewrite zlen_cons. lia. }
  destruct Hev as (g & Hm & Hg & Hall & Hlen). exists z, s1.2, (r + g 7). split; [done|]. split; [done|]. split; [done|].
  split; [by apply one_buffer with w|]. lia.
Qed.

Lemma taking_notified : Notified taking_notify 5 6 0 1 [7] taking_inv.
Proof.
  split.
  - intros k w b (x & l & r & _ & _ & _ & Hb & Hr & Hk) ->%list_elem_of_singleton. split; [done|].
    exists (Ext [] 0 0 r 0 0). rewrite Hb. split; [done|]. cbn. pose proof (zlen_nonneg l). lia.
  - exact taking_step.
  - intros k z w [t l] Hi Hat Hz _ _. pose proof Hi as (x & l' & r & Hx & Hd & Hl & Hb & Hr & Hk).
    assert (z = x) as -> by (destruct Hx as [Hx _]; rewrite Hz in Hx; by injection Hx). rewrite Hd.
    destruct (pipe_pop_ok 5 6 0 1 t l w ltac:(done) Hat) as (w1 & E1 & Hn & Hat1 & Ht).
    pose proof Hat as (x2 & Hx2 & _). destruct (pipe_has_same _ _ _ _ _ _ _ Hx Hx2) as [<- ->]. cbn [snd] in *.
    pose proof Hat1 as (x1 & Hx1 & Hrest). cbn [snd] in Hx1.
    assert (Hd1 : pp_dst x1 = 5) by (destruct Ht as (_ & _ & _ & Hs); by destruct (Hs x x1 Hz (proj1 Hx1)) as (_ & -> & _)).
    pose proof (one_buffer _ _ _ _ (proj1 Ht) Hb) as Hb1. cbn in Hb1. rewrite Z.add_0_r in Hb1.
    unfold taking_notify. rewrite M_bind_eq, E1. cbn [obind]. destruct l as [|b l]; cbn [hd tl] in *.
    { exists [EPop 0], (t, []), w1. split; [done|]. split; [eapply runs_event; [done..|constructor]|].
      exists x1, [], r. by split_and!. }
    apply Forall_cons in Hl as [-> Hl]. rewrite zlen_cons in Hr. pose proof (zlen_nonneg l).
    destruct (put_more no_plane no_recycle 7 w1 (Ext [] 0 0 r 0 0)) as (w2 & E2 & He2 & Hm2); [by rewrite Hb1|cbn; lia|].
    assert (Hg : get_pipe w2 5 = get_pipe w1 5) by (unfold get_pipe; by rewrite He2).
    exists [EPop 7], (t, l), w2. split; [exact E2|]. split; [eapply runs_event; [done..|]; eapply runs_other; [exact Hg|constructor]|].
    exists x1, l, (r - 1). split_and!; try done; [|exact (one_buffer _ _ _ _ Hm2 Hb1)|lia|lia].
    destruct Hx1 as [Hx1 Hq1]. split; [by rewrite Hg|done].
Qed.

(** Two pushes, each taken by the sink before it returns, and a pop that finds
    nothing. *)
Lemma pipe_fifo_witness :
  ∃ x rs evs t' l' w', run_pipe taking_notify 5 [PPush 7; PPush 7; PPop] (world_example {[5 := x]}) = Done (rs, w') ∧
    within [PPush 7; PPush 7; PPop] rs evs ∧ replay 0 1 (0, []) evs = Some (t', l') ∧ pipe_at w' 5 6 0 1 (t', l').
Proof.
  destruct holds_init as [_ (q & _ & Hq)]. set (x := Pipe 0 5 (Some (6, q)) 0 1 0 1).
  assert (Hx : pipe_has (world_example {[5 := x]}) 5 6 x []) by (split; [apply lookup_singleton_eq|by exists q]).
  destruct (pipe_fifo taking_notify 5 6 0 1 [7] taking_inv [PPush 7; PPush 7; PPop] (world_example {[5 := x]}) 0 [])
    as (rs & evs & t' & l' & w' & E & _ & Hin & Hat & Hr & _); [done|done|done|exact taking_notified| | | |].
  - intros b Hb. rewrite !elem_of_cons, elem_of_nil in Hb. apply list_elem_of_singleton. naive_solver.
  - exists x. by split_and!.
  - exists x, [], 1. by split_and!.
  - exists x, rs, evs, t', l', w'. exact (conj E (conj Hin (conj Hr Hat))).
Defined.
