(* ===== verification/Pixfmt.v ===== *)
(** * pixfmt.c: pixel formats, their memory layout, planes of buffers

    The descriptor table, the lookups by name and by fourcc, the layout of a
    picture ([pitcher_get_pix_fmt_info]), the planes of a buffer and the copy of
    one picture into another.  The fourcc constants of <linux/videodev2.h> are
    parameters (class [Videodev2]); memory is a map from addresses to bytes. *)

From S2P Require Import Prelude Misc Buffer.
From Stdlib Require Import Ascii String.
Open Scope Z_scope.

(** ** Formats *)

(* C: pitcher/pixfmt.h pixel_format 24-82 *)
Definition PIX_FMT_I420 : Z := 0.
Definition PIX_FMT_NV12 : Z := 1.
Definition PIX_FMT_NV21 : Z := 2.
Definition PIX_FMT_NV16 : Z := 3.
Definition PIX_FMT_YUYV : Z := 4.
Definition PIX_FMT_YUV24 : Z := 5.
Definition PIX_FMT_I420_10LE : Z := 6.
Definition PIX_FMT_NV12_10LE : Z := 7.
Definition PIX_FMT_NV12_8L128 : Z := 8.
Definition PIX_FMT_NV12_10BE_8L128 : Z := 9.
Definition PIX_FMT_DTRC : Z := 10.
Definition PIX_FMT_DTRC10 : Z := 11.
Definition PIX_FMT_P010 : Z := 12.
Definition PIX_FMT_P012 : Z := 13.
Definition PIX_FMT_P016 : Z := 14.
Definition PIX_FMT_NVX2 : Z := 15.
Definition PIX_FMT_RFC : Z := 16.
Definition PIX_FMT_RFCX : Z := 17.
Definition PIX_FMT_RGB24 : Z := 18.
Definition PIX_FMT_RGB565 : Z := 19.
Definition PIX_FMT_BGR565 : Z := 20.
Definition PIX_FMT_RGB555 : Z := 21.
Definition PIX_FMT_RGBA : Z := 22.
Definition PIX_FMT_BGR32 : Z := 23.
Definition PIX_FMT_ARGB : Z := 24.
Definition PIX_FMT_RGBX : Z := 25.
Definition PIX_FMT_BGR24 : Z := 26.
Definition PIX_FMT_ABGR : Z := 27.
Definition PIX_FMT_BGR48_12 : Z := 28.
Definition PIX_FMT_ABGR64_12 : Z := 29.
Definition PIX_FMT_GRAY : Z := 30.
Definition PIX_FMT_Y012 : Z := 31.
Definition PIX_FMT_Y16 : Z := 32.
Definition PIX_FMT_Y212 : Z := 33.
Definition PIX_FMT_YUV48_12 : Z := 34.
Definition PIX_FMT_COMPRESSED : Z := 35.
Definition PIX_FMT_H264 : Z := 35.
Definition PIX_FMT_H265 : Z := 36.
Definition PIX_FMT_VP8 : Z := 37.
Definition PIX_FMT_VP9 : Z := 38.
Definition PIX_FMT_VP6 : Z := 39.
Definition PIX_FMT_VC1L : Z := 40.
Definition PIX_FMT_VC1G : Z := 41.
Definition PIX_FMT_XVID : Z := 42.
Definition PIX_FMT_DIVX : Z := 43.
Definition PIX_FMT_MPEG4 : Z := 44.
Definition PIX_FMT_MPEG2 : Z := 45.
Definition PIX_FMT_H263 : Z := 46.
Definition PIX_FMT_AVS : Z := 47.
Definition PIX_FMT_SPK : Z := 48.
Definition PIX_FMT_RV30 : Z := 49.
Definition PIX_FMT_RV40 : Z := 50.
Definition PIX_FMT_JPEG : Z := 51.
Definition PIX_FMT_NB : Z := 52.
Definition PIX_FMT_NONE : Z := 2 ^ 32 - 1.

(** The constants of <linux/videodev2.h> the table uses. *)
Class Videodev2 := {
  v4l2_fourcc : ascii → ascii → ascii → ascii → Z;
  v4l2_fourcc_be : ascii → ascii → ascii → ascii → Z;
  V4L2_PIX_FMT_YUV420 : Z;
  V4L2_PIX_FMT_YUV420M : Z;
  V4L2_PIX_FMT_NV12 : Z;
  V4L2_PIX_FMT_NV12M : Z;
  V4L2_PIX_FMT_NV21 : Z;
  V4L2_PIX_FMT_NV21M : Z;
  V4L2_PIX_FMT_NV16 : Z;
  V4L2_PIX_FMT_NV16M : Z;
  V4L2_PIX_FMT_YUYV : Z;
  V4L2_PIX_FMT_YUV24 : Z;
  V4L2_PIX_FMT_RGB24 : Z;
  V4L2_PIX_FMT_RGB565 : Z;
  V4L2_PIX_FMT_RGB555 : Z;
  V4L2_PIX_FMT_RGBA32 : Z;
  V4L2_PIX_FMT_BGR24 : Z;
  V4L2_PIX_FMT_BGR32 : Z;
  V4L2_PIX_FMT_ARGB32 : Z;
  V4L2_PIX_FMT_RGBX32 : Z;
  V4L2_PIX_FMT_ABGR32 : Z;
  V4L2_PIX_FMT_GREY : Z;
  V4L2_PIX_FMT_Y16 : Z;
  V4L2_PIX_FMT_H264 : Z;
  V4L2_PIX_FMT_HEVC : Z;
  V4L2_PIX_FMT_VP8 : Z;
  V4L2_PIX_FMT_VP9 : Z;
  V4L2_PIX_FMT_VC1_ANNEX_L : Z;
  V4L2_PIX_FMT_VC1_ANNEX_G : Z;
  V4L2_PIX_FMT_XVID : Z;
  V4L2_PIX_FMT_MPEG4 : Z;
  V4L2_PIX_FMT_MPEG2 : Z;
  V4L2_PIX_FMT_H263 : Z;
  V4L2_PIX_FMT_JPEG : Z
}.

(* C: pitcher/pixfmt.h pixel_format_desc 84-97 *)
Record pixel_format_desc := FmtDesc {
  fd_name : string;
  fd_fourcc : Z;
  fd_fourcc_nc : Z;
  fd_num_planes : Z;
  fd_log2_chroma_w : Z;
  fd_log2_chroma_h : Z;
  fd_comp : list (Z * Z);
  fd_tile_ws : Z;
  fd_tile_hs : Z
}.

(* C: pitcher/pixfmt.h pix_plane_info 99-102 *)
Record pix_plane_info := PlaneInfo { pi_line : Z; pi_size : Z }.

(* C: pitcher/pixfmt.h pix_fmt_info 104-114 *)
Record pix_fmt_info := FmtInfo {
  i_format : Z;
  i_desc : option pixel_format_desc;
  i_width : Z;
  i_height : Z;
  i_interlaced : Z;
  i_size : Z;
  i_num_planes : Z;
  i_planes : list pix_plane_info;
  i_tile_ws : Z;
  i_tile_hs : Z
}.

Definition bpp (d : pixel_format_desc) (i : Z) : Z := default 0 (fst <$> nthz (fd_comp d) i).

Section table.
Context `{Videodev2}.
Open Scope char_scope.
Open Scope string_scope.
Open Scope Z_scope.

(* C: pitcher/platform_8x.h VPU_PIX_FMT_AVS 24-35 *)
Definition VPU_PIX_FMT_AVS : Z := v4l2_fourcc "A" "V" "S" "0".
Definition VPU_PIX_FMT_VP6 : Z := v4l2_fourcc "V" "P" "6" "0".
Definition VPU_PIX_FMT_SPK : Z := v4l2_fourcc "S" "P" "K" "0".
Definition VPU_PIX_FMT_DIVX : Z := v4l2_fourcc "D" "I" "V" "X".
Definition V4L2_PIX_FMT_NV12M_8L128 : Z := v4l2_fourcc "N" "A" "1" "2".
Definition V4L2_PIX_FMT_NV12M_10BE_8L128 : Z := v4l2_fourcc_be "N" "T" "1" "2".
(* C: pitcher/pitcher_v4l2.h V4L2_PIX_FMT_BGR565 60-60 *)
Definition V4L2_PIX_FMT_BGR565 : Z := v4l2_fourcc "B" "G" "R" "P".

(** The table, by designated index as the source initialises it. *)
(* C: pitcher/pixfmt.c pix_fmt_descriptors 25-162 *)
Definition pix_fmt_rows0 : list (Z * pixel_format_desc) := [
  (PIX_FMT_I420, FmtDesc "i420" V4L2_PIX_FMT_YUV420 V4L2_PIX_FMT_YUV420M 3 1 1 [(8, 8); (8, 8); (8, 8)] 0 0);
  (PIX_FMT_NV12, FmtDesc "nv12" V4L2_PIX_FMT_NV12 V4L2_PIX_FMT_NV12M 2 1 1 [(8, 8); (16, 8)] 0 0);
  (PIX_FMT_NV21, FmtDesc "nv21" V4L2_PIX_FMT_NV21 V4L2_PIX_FMT_NV21M 2 1 1 [(8, 8); (16, 8)] 0 0);
  (PIX_FMT_NV16, FmtDesc "nv16" V4L2_PIX_FMT_NV16 V4L2_PIX_FMT_NV16M 2 1 0 [(8, 8); (16, 8)] 0 0);
  (PIX_FMT_YUYV, FmtDesc "yuyv" V4L2_PIX_FMT_YUYV 0 1 0 0 [(16, 8)] 0 0);
  (PIX_FMT_YUV24, FmtDesc "yuv24" V4L2_PIX_FMT_YUV24 0 1 0 0 [(24, 8)] 0 0);
  (PIX_FMT_I420_10LE, FmtDesc "yuv420p10le" 0 0 3 1 1 [(16, 10); (16, 10); (16, 10)] 0 0);
  (PIX_FMT_NV12_10LE, FmtDesc "yuv420sp10le" 0 0 2 1 1 [(16, 10); (32, 10)] 0 0);
  (PIX_FMT_NV12_8L128, FmtDesc "na12" 0 V4L2_PIX_FMT_NV12M_8L128 2 1 1 [(8, 8); (16, 8)] 8 128);
  (PIX_FMT_NV12_10BE_8L128, FmtDesc "nt12" 0 V4L2_PIX_FMT_NV12M_10BE_8L128 2 1 1 [(10, 10); (20, 10)] 8 128);
  (PIX_FMT_DTRC, FmtDesc "dtrc" (v4l2_fourcc "D" "T" "R" "C") 0 2 1 1 [(8, 8); (16, 8)] 4 4);
  (PIX_FMT_DTRC10, FmtDesc "dtrc10" (v4l2_fourcc "D" "T" "R" "X") 0 2 1 1 [(10, 10); (20, 10)] 5 4)
].

(* C: pitcher/pixfmt.c pix_fmt_descriptors 163-306 *)
Definition pix_fmt_rows1 : list (Z * pixel_format_desc) := [
  (PIX_FMT_P010, FmtDesc "p010" (v4l2_fourcc "P" "0" "1" "0") 0 2 1 1 [(16, 10); (32, 10)] 0 0);
  (PIX_FMT_P012, FmtDesc "p012" (v4l2_fourcc "P" "0" "1" "2") (v4l2_fourcc "P" "M" "1" "2") 2 1 1 [(16, 12); (32, 12)] 0 0);
  (PIX_FMT_P016, FmtDesc "p016" (v4l2_fourcc "P" "0" "1" "6") (v4l2_fourcc "P" "M" "1" "6") 2 1 1 [(16, 16); (32, 16)] 0 0);
  (PIX_FMT_NVX2, FmtDesc "nvx2" (v4l2_fourcc "N" "V" "X" "2") 0 2 1 1 [(10, 10); (20, 10)] 0 0);
  (PIX_FMT_RFC, FmtDesc "rfc" (v4l2_fourcc "R" "F" "C" "0") 0 1 0 0 [] 0 0);
  (PIX_FMT_RFCX, FmtDesc "rfcx" (v4l2_fourcc "R" "F" "C" "X") 0 1 0 0 [] 0 0);
  (PIX_FMT_RGB24, FmtDesc "rgb888" V4L2_PIX_FMT_RGB24 0 1 0 0 [(24, 8)] 0 0);
  (PIX_FMT_RGB565, FmtDesc "rgb565" V4L2_PIX_FMT_RGB565 0 1 0 0 [(16, 6)] 0 0);
  (PIX_FMT_BGR565, FmtDesc "bgr565" V4L2_PIX_FMT_BGR565 0 1 0 0 [(16, 6)] 0 0);
  (PIX_FMT_RGB555, FmtDesc "rgb555" V4L2_PIX_FMT_RGB555 0 1 0 0 [(16, 5)] 0 0);
  (PIX_FMT_RGBA, FmtDesc "rgba" V4L2_PIX_FMT_RGBA32 0 1 0 0 [(32, 8)] 0 0);
  (PIX_FMT_BGR24, FmtDesc "bgr" V4L2_PIX_FMT_BGR24 0 1 0 0 [(24, 8)] 0 0);
  (PIX_FMT_BGR32, FmtDesc "bgr32" V4L2_PIX_FMT_BGR32 0 1 0 0 [(32, 8)] 0 0);
  (PIX_FMT_ARGB, FmtDesc "argb" V4L2_PIX_FMT_ARGB32 0 1 0 0 [(32, 8)] 0 0);
  (PIX_FMT_RGBX, FmtDesc "rgbx" V4L2_PIX_FMT_RGBX32 0 1 0 0 [(32, 8)] 0 0);
  (PIX_FMT_ABGR, FmtDesc "abgr" V4L2_PIX_FMT_ABGR32 0 1 0 0 [(32, 8)] 0 0);
  (PIX_FMT_BGR48_12, FmtDesc "bgr48_12" (v4l2_fourcc "B" "3" "1" "2") 0 1 0 0 [(48, 12)] 0 0)
].

(* C: pitcher/pixfmt.c pix_fmt_descriptors 307-439 *)
Definition pix_fmt_rows2 : list (Z * pixel_format_desc) := [
  (PIX_FMT_ABGR64_12, FmtDesc "abgr64_12" (v4l2_fourcc "B" "4" "1" "2") 0 1 0 0 [(64, 12)] 0 0);
  (PIX_FMT_GRAY, FmtDesc "gray" V4L2_PIX_FMT_GREY 0 1 0 0 [(8, 8)] 0 0);
  (PIX_FMT_Y012, FmtDesc "y012" (v4l2_fourcc "Y" "0" "1" "2") 0 1 0 0 [(16, 12)] 0 0);
  (PIX_FMT_Y16, FmtDesc "y16" V4L2_PIX_FMT_Y16 0 1 0 0 [(16, 16)] 0 0);
  (PIX_FMT_Y212, FmtDesc "y212" (v4l2_fourcc "Y" "2" "1" "2") 0 1 0 0 [(32, 12)] 0 0);
  (PIX_FMT_YUV48_12, FmtDesc "yuv48_12" (v4l2_fourcc "Y" "3" "1" "2") 0 1 0 0 [(48, 12)] 0 0);
  (PIX_FMT_H264, FmtDesc "h264" V4L2_PIX_FMT_H264 0 1 0 0 [] 0 0);
  (PIX_FMT_H265, FmtDesc "h265" V4L2_PIX_FMT_HEVC 0 1 0 0 [] 0 0);
  (PIX_FMT_VP8, FmtDesc "vp8" V4L2_PIX_FMT_VP8 0 1 0 0 [] 0 0);
  (PIX_FMT_VP9, FmtDesc "vp9" V4L2_PIX_FMT_VP9 0 1 0 0 [] 0 0);
  (PIX_FMT_VP6, FmtDesc "vp6" VPU_PIX_FMT_VP6 0 1 0 0 [] 0 0);
  (PIX_FMT_VC1L, FmtDesc "vc1l" V4L2_PIX_FMT_VC1_ANNEX_L 0 1 0 0 [] 0 0);
  (PIX_FMT_VC1G, FmtDesc "vc1g" V4L2_PIX_FMT_VC1_ANNEX_G 0 1 0 0 [] 0 0);
  (PIX_FMT_XVID, FmtDesc "xvid" V4L2_PIX_FMT_XVID 0 1 0 0 [] 0 0);
  (PIX_FMT_DIVX, FmtDesc "divx" VPU_PIX_FMT_DIVX 0 1 0 0 [] 0 0);
  (PIX_FMT_MPEG4, FmtDesc "mpeg4" V4L2_PIX_FMT_MPEG4 0 1 0 0 [] 0 0);
  (PIX_FMT_MPEG2, FmtDesc "mpeg2" V4L2_PIX_FMT_MPEG2 0 1 0 0 [] 0 0);
  (PIX_FMT_H263, FmtDesc "h263" V4L2_PIX_FMT_H263 0 1 0 0 [] 0 0);
  (PIX_FMT_AVS, FmtDesc "avs" VPU_PIX_FMT_AVS 0 1 0 0 [] 0 0);
  (PIX_FMT_SPK, FmtDesc "spk" VPU_PIX_FMT_SPK 0 1 0 0 [] 0 0);
  (PIX_FMT_RV30, FmtDesc "rv30" (v4l2_fourcc "R" "V" "3" "0") 0 1 0 0 [] 0 0);
  (PIX_FMT_RV40, FmtDesc "rv40" (v4l2_fourcc "R" "V" "4" "0") 0 1 0 0 [] 0 0);
  (PIX_FMT_JPEG, FmtDesc "jpeg" V4L2_PIX_FMT_JPEG 0 1 0 0 [] 0 0)
].

Definition pix_fmt_rows : list (Z * pixel_format_desc) := pix_fmt_rows0 ++ pix_fmt_rows1 ++ pix_fmt_rows2.

Fixpoint assocz {A} (k : Z) (l : list (Z * A)) : option A :=
  match l with
  | [] => None
  | (k', a) :: l => if k =? k' then Some a else assocz k l
  end.

(** An entry without initialiser would be zero: it has no name. *)
Definition pix_fmt_descriptors (format : Z) : option pixel_format_desc := assocz format pix_fmt_rows.

(** ** Lookups *)

Definition lower (c : ascii) : ascii :=
  let n := nat_of_ascii c in if (65 <=? n)%nat && (n <=? 90)%nat then ascii_of_nat (n + 32) else c.

(** [strcasecmp(a, b) == 0]. *)
Fixpoint strcaseeq (a b : string) : bool :=
  match a, b with
  | EmptyString, EmptyString => true
  | String c a, String d b => Ascii.eqb (lower c) (lower d) && strcaseeq a b
  | _, _ => false
  end.

(** The formats in the order of the searches. *)
Definition formats : list Z := seqZ PIX_FMT_I420 PIX_FMT_NB.

Definition find_format (p : pixel_format_desc → bool) : Z :=
  default PIX_FMT_NONE
    (List.find (λ f, match pix_fmt_descriptors f with Some d => p d | None => false end) formats).

(* C: pitcher/pixfmt.c pitcher_get_format_by_name *)
Definition pitcher_get_format_by_name (name' : option string) : Z :=
  match name' with
  | None => PIX_FMT_NONE
  | Some name' =>
      if strcaseeq name' "yuv420p" then PIX_FMT_I420
      else find_format (λ d, strcaseeq name' (fd_name d))
  end.

(* C: pitcher/pixfmt.c pitcher_get_format_by_fourcc *)
Definition pitcher_get_format_by_fourcc (code : Z) : Z :=
  find_format (λ d, (fd_fourcc_nc d =? code) || (fd_fourcc d =? code)).

(* C: pitcher/pixfmt.c pitcher_get_format_num_planes *)
Definition pitcher_get_format_num_planes (format : Z) : Z :=
  if PIX_FMT_NB <=? format then 0 else default 0 (fd_num_planes <$> pix_fmt_descriptors format).

(* C: pitcher/pixfmt.c pitcher_get_format_name *)
Definition pitcher_get_format_name (format : Z) : option string :=
  if PIX_FMT_NB <=? format then Some "unknown foramt"%string else fd_name <$> pix_fmt_descriptors format.

(* C: pitcher/pixfmt.c pitcher_get_format_desc_by_name *)
Definition pitcher_get_format_desc_by_name (name' : option string) : option pixel_format_desc :=
  let format := pitcher_get_format_by_name name' in
  if format =? PIX_FMT_NONE then None else pix_fmt_descriptors format.

(** ** Layout *)

(* C: pitcher/pixfmt.c pitcher_fill_plane_desc *)
Definition pitcher_fill_plane_desc (line h : Z) : pix_plane_info := PlaneInfo line (u32 (line * h)).

(** Width and height of plane [i] as stored, and the alignment of its lines. *)
(* C: pitcher/pixfmt.c pitcher_get_pix_fmt_info 539-550 *)
Definition plane_geometry (desc : pixel_format_desc) (width height al_w al_h alignment i : Z) : outcome (Z * Z * Z) :=
  let w := ALIGN width al_w in
  let h := ALIGN height al_h in
  '(w, h, align) ←
    (if negb (i =? 0) then
       let h := if negb (fd_tile_hs desc =? 0) then ALIGN height (u32 (Z.shiftl al_h (fd_log2_chroma_h desc))) else h in
       _ ← defined (negb (bpp desc 0 =? 0));
       Done (Z.shiftr w (fd_log2_chroma_w desc), Z.shiftr h (fd_log2_chroma_h desc),
             DIV_ROUND_UP (Z.shiftr (u32 (alignment * bpp desc i)) (fd_log2_chroma_w desc)) (bpp desc 0))
     else Done (w, h, alignment));
  Done (w, h, if align =? 0 then 1 else align).

(* C: pitcher/pixfmt.c pitcher_get_pix_fmt_info 538-555 *)
Fixpoint fill_planes (n : nat) (desc : pixel_format_desc) (width height al_w al_h alignment i size' : Z)
    (planes : list pix_plane_info) : outcome (list pix_plane_info * Z) :=
  match n with
  | O => Done (planes, size')
  | S n =>
      '(w, h, align) ← plane_geometry desc width height al_w al_h alignment i;
      let line := if negb (bpp desc i =? 0) then Z.shiftr (ALIGN (u32 (w * bpp desc i)) 8) 3 else w in
      let p := pitcher_fill_plane_desc (ALIGN line align) h in
      planes ← storez planes i p;
      fill_planes n desc width height al_w al_h alignment (i + 1) (u32 (size' + pi_size p)) planes
  end.

(* C: pitcher/pixfmt.c pitcher_get_pix_fmt_info 526-536 *)
Definition tile_alignment (desc : pixel_format_desc) (interlaced : Z) : Z * Z :=
  let al_w := Z.shiftl 1 (fd_log2_chroma_w desc) in
  let al_h := Z.shiftl 1 (fd_log2_chroma_h desc) in
  let al_w := if negb (fd_tile_ws desc =? 0) then max al_w (fd_tile_ws desc) else al_w in
  let al_h := if negb (fd_tile_hs desc =? 0) then max al_h (fd_tile_hs desc) else al_h in
  (al_w, if negb (interlaced =? 0) then u32 (Z.shiftl al_h 1) else al_h).

(* C: pitcher/pixfmt.c pitcher_get_pix_fmt_info *)
Definition pitcher_get_pix_fmt_info (info : option pix_fmt_info) (alignment : Z)
    : outcome (Z * option pix_fmt_info) :=
  match info with
  | None => Done (- RET_E_NULL_POINTER, None)
  | Some info =>
      if (PIX_FMT_NB <=? i_format info) || (i_width info =? 0) || (i_height info =? 0)
      then Done (- RET_E_INVAL, Some info)
      else
        let alignment := if alignment =? 0 then 1 else alignment in
        desc ← of_option (pix_fmt_descriptors (i_format info));
        let '(al_w, al_h) := tile_alignment desc (i_interlaced info) in
        '(planes, size') ← fill_planes (Z.to_nat (fd_num_planes desc)) desc (i_width info) (i_height info)
                            al_w al_h alignment 0 0 (i_planes info);
        Done (RET_OK, Some (FmtInfo (i_format info) (Some desc) (i_width info) (i_height info)
          (i_interlaced info) (if i_size info <? size' then size' else i_size info) (fd_num_planes desc)
          planes (fd_tile_ws desc) (fd_tile_hs desc)))
  end.

(* C: pitcher/pixfmt.c pitcher_compare_format *)
Definition pitcher_compare_format (src dst : option pix_fmt_info) : Z :=
  match src, dst with
  | Some src, Some dst =>
      if negb (i_format src =? i_format dst) then - RET_E_NOT_MATCH
      else if negb (i_width src =? i_width dst) then - RET_E_NOT_MATCH
      else if negb (i_height src =? i_height dst) then - RET_E_NOT_MATCH
      else if negb (i_interlaced src =? i_interlaced dst) then - RET_E_NOT_MATCH
      else 0
  | _, _ => - RET_E_NULL_POINTER
  end.
End table.

(** ** The layout is large enough *)

(** What the layout needs of a descriptor; every entry of the table has it. *)
Record desc_ok (d : pixel_format_desc) : Prop := {
  dk_planes : 1 ≤ fd_num_planes d ≤ 3;
  dk_chroma_w : 0 ≤ fd_log2_chroma_w d ≤ 1;
  dk_chroma_h : 0 ≤ fd_log2_chroma_h d ≤ 1;
  dk_tile_ws : 0 ≤ fd_tile_ws d ≤ 8;
  dk_tile_hs : 0 ≤ fd_tile_hs d ≤ 128;
  dk_comp : Forall (λ c, 1 ≤ fst c ≤ if fd_num_planes d =? 1 then 64 else 32) (fd_comp d);
  dk_first : fd_num_planes d = 1 ∨ 8 ≤ bpp d 0 ≤ 16
}.

Lemma bpp_bounds d i : desc_ok d → 0 ≤ bpp d i ≤ if fd_num_planes d =? 1 then 64 else 32.
Proof.
  intros Hd. assert (0 ≤ if fd_num_planes d =? 1 then 64 else 32) by (destruct (_ =? _); lia).
  unfold bpp, nthz. destruct (0 <=? i); cbn; [|lia].
  destruct (fd_comp d !! Z.to_nat i) as [[b x]|] eqn:E; cbn; [|lia].
  pose proof (Forall_lookup_1 _ _ _ _ (dk_comp d Hd) E) as Hc. cbn in Hc. lia.
Qed.

Section table_ok.
Context `{Videodev2}.

Lemma rows_ok : Forall (λ r, desc_ok (snd r)) pix_fmt_rows.
Proof.
  unfold pix_fmt_rows. repeat (apply Forall_app_2 || apply Forall_cons_2 || apply Forall_nil_2);
    (split; [cbn; lia..| |first [by left|right; vm_compute; split; discriminate]]; cbn; repeat (apply Forall_cons_2 || apply Forall_nil_2); cbn; lia).
Qed.

Lemma assocz_in {A} k (l : list (Z * A)) a : assocz k l = Some a → (k, a) ∈ l.
Proof.
  induction l as [|[k' a'] l IH]; cbn; [done|]. destruct (Z.eqb_spec k k') as [->|].
  - intros [= ->]. by left.
  - intros Ha. right. by apply IH.
Qed.

Lemma descriptor_ok f d : pix_fmt_descriptors f = Some d → desc_ok d.
Proof.
  intros Hd%assocz_in. pose proof rows_ok as Hr. rewrite Forall_forall in Hr. by apply Hr in Hd.
Qed.

(** Every format below [PIX_FMT_NB] has its entry. *)
Lemma descriptor_some f : 0 ≤ f < PIX_FMT_NB → ∃ d, pix_fmt_descriptors f = Some d.
Proof.
  intros Hf. assert (Ha : forallb (λ f, match pix_fmt_descriptors f with Some _ => true | None => false end) formats = true)
    by reflexivity.
  rewrite forallb_forall in Ha. specialize (Ha f). destruct (pix_fmt_descriptors f) as [d|]; [by exists d|].
  discriminate Ha. apply list_elem_of_In, elem_of_seqZ. unfold PIX_FMT_I420. lia.
Qed.
End table_ok.

(** How far plane [i] is subsampled. *)
Definition sub_w (d : pixel_format_desc) (i : Z) : Z := if i =? 0 then 0 else fd_log2_chroma_w d.
Definition sub_h (d : pixel_format_desc) (i : Z) : Z := if i =? 0 then 0 else fd_log2_chroma_h d.

Definition even_tile (d : pixel_format_desc) : bool := Z.even (fd_tile_ws d) && Z.even (fd_tile_hs d).

Lemma tile_alignment_ok d interlaced : desc_ok d →
  let '(al_w, al_h) := tile_alignment d interlaced in
  1 ≤ al_w ≤ 8 ∧ 1 ≤ al_h ≤ 256 ∧
  (Z.even (fd_tile_ws d) = true → fd_log2_chroma_w d = 1 → Z.even al_w = true) ∧
  (Z.even (fd_tile_hs d) = true → fd_log2_chroma_h d = 1 → Z.even al_h = true).
Proof.
  intros []. unfold tile_alignment.
  assert (Hw : fd_log2_chroma_w d = 0 ∨ fd_log2_chroma_w d = 1) by lia.
  assert (Hh : fd_log2_chroma_h d = 0 ∨ fd_log2_chroma_h d = 1) by lia.
  rewrite !max_Zmax.
  set (al_w := if negb (fd_tile_ws d =? 0) then _ else _). set (al_h := if negb (fd_tile_hs d =? 0) then _ else _).
  assert (E1 : 1 ≤ al_w ≤ 8 ∧ (Z.even (fd_tile_ws d) = true → fd_log2_chroma_w d = 1 → Z.even al_w = true)).
  { unfold al_w. destruct Hw as [-> | ->]; [change (Z.shiftl 1 0) with 1|change (Z.shiftl 1 1) with 2];
      (destruct (Z.eqb_spec (fd_tile_ws d) 0); cbn [negb]; [split; [lia|done]|]);
      (split; [lia|]); intros He Hl; [done|].
    destruct (Z.max_spec 2 (fd_tile_ws d)) as [[_ ->]|[_ ->]]; done. }
  assert (E2 : 1 ≤ al_h ≤ 128 ∧ (Z.even (fd_tile_hs d) = true → fd_log2_chroma_h d = 1 → Z.even al_h = true)).
  { unfold al_h. destruct Hh as [-> | ->]; [change (Z.shiftl 1 0) with 1|change (Z.shiftl 1 1) with 2];
      (destruct (Z.eqb_spec (fd_tile_hs d) 0); cbn [negb]; [split; [lia|done]|]);
      (split; [lia|]); intros He Hl; [done|].
    destruct (Z.max_spec 2 (fd_tile_hs d)) as [[_ ->]|[_ ->]]; done. }
  destruct E1 as [E1 E1'], E2 as [E2 E2']. destruct (interlaced =? 0); cbn [negb]; [split_and!; (lia || done)|].
  rewrite Z.shiftl_mul_pow2 by lia. rewrite u32_small by lia. split_and!; try lia; [done|]. intros _ _.
  change (2 ^ 1) with 2. by rewrite Z.even_mul, orb_true_r.
Qed.

(** Rounding up to 1 or 2, and halving, a multiple of an even number. *)
Lemma ALIGN_chroma x a b s : 0 ≤ s ≤ 1 → 0 ≤ x < 2 ^ 31 → x ≤ b → b mod a = 0 → 0 < a →
  (s = 1 → Z.even a = true) → ALIGN x (2 ^ s) ≤ b.
Proof.
  intros Hs Hx Hb Hm Ha He. assert (s = 0 ∨ s = 1) as [-> | ->] by lia.
  - change (2 ^ 0) with 1. rewrite ALIGN_id; [done|apply Z.mod_1_r].
  - destruct (ALIGN_bounds x (2 ^ 1)) as [B M]; [lia..|]. change (2 ^ 1) with 2 in *. specialize (He eq_refl).
    rewrite Z.even_spec in He. destruct He as [k ->]. apply Z.mod_divide in Hm as [q ->]; [|lia]. dlia.
Qed.

Lemma shiftr_chroma x a b s : 0 ≤ s ≤ 1 → 0 ≤ x < 2 ^ 31 → x ≤ b → b mod a = 0 → 0 < a →
  x / 2 ^ s ≤ Z.shiftr b s ∧ Z.shiftr b s ≤ b ∧
  ((s = 1 → Z.even a = true) → ALIGN x (2 ^ s) ≤ Z.shiftr b s * 2 ^ s).
Proof.
  intros Hs Hx Hb Hm Ha. rewrite Z.shiftr_div_pow2 by lia.
  split_and!; [by apply Z.div_le_mono; [apply pow2_pos; lia|]| |].
  - assert (s = 0 ∨ s = 1) as [-> | ->] by lia; [rewrite Z.div_1_r; lia|change (2 ^ 1) with 2; dlia].
  - intros He. pose proof (ALIGN_chroma x a b s Hs Hx Hb Hm Ha He) as H.
    assert (s = 0 ∨ s = 1) as [-> | ->] by lia; [change (2 ^ 0) with 1 in *; rewrite Z.div_1_r; lia|].
    change (2 ^ 1) with 2 in *. specialize (He eq_refl).
    rewrite Z.even_spec in He. destruct He as [k ->]. apply Z.mod_divide in Hm as [q ->]; [|lia]. 
    replace (q * (2 * k)) with (q * k * 2) by lia. rewrite Z.div_mul by lia. lia.
Qed.

Definition al_ok (d : pixel_format_desc) (al_w al_h : Z) : Prop :=
  1 ≤ al_w ≤ 8 ∧ 1 ≤ al_h ≤ 256 ∧
  (even_tile d = true → fd_log2_chroma_w d = 1 → Z.even al_w = true) ∧
  (even_tile d = true → fd_log2_chroma_h d = 1 → Z.even al_h = true).

(** How the lines of plane [i] are aligned: those of plane 0 as asked for, the
    chroma lines by what is left of it at their bits per sample and subsampling,
    rounded up to whole luma samples. *)
Definition line_align (d : pixel_format_desc) (alignment i : Z) : Z :=
  if i =? 0 then alignment
  else Z.max 1 ((alignment * bpp d i / 2 ^ fd_log2_chroma_w d + bpp d 0 - 1) / bpp d 0).

Lemma plane_geometry_ok d width height al_w al_h alignment i :
  desc_ok d → al_ok d al_w al_h → 0 < width ≤ 2 ^ 14 → 0 < height ≤ 2 ^ 14 → 1 ≤ alignment ≤ 2 ^ 12 →
  0 ≤ i < fd_num_planes d →
  ∃ w h align, plane_geometry d width height al_w al_h alignment i = Done (w, h, align) ∧
    0 ≤ w < 2 ^ 14 + 8 ∧ 0 ≤ h < 2 ^ 14 + (if i =? 0 then 256 else 512) ∧
    1 ≤ align ≤ (if i =? 0 then 2 ^ 12 else 2 ^ 14) ∧ align = line_align d alignment i ∧
    width / 2 ^ sub_w d i ≤ w ∧ height / 2 ^ sub_h d i ≤ h ∧
    (even_tile d = true → ALIGN width (2 ^ fd_log2_chroma_w d) ≤ w * 2 ^ sub_w d i ∧
                           ALIGN height (2 ^ fd_log2_chroma_h d) ≤ h * 2 ^ sub_h d i).
Proof.
  intros Hd (Hw & Hh & Ew & Eh) Hwd Hht Hal Hi. pose proof (bpp_bounds d i Hd) as Hbpp.
  pose proof Hd as []. unfold plane_geometry, sub_w, sub_h, line_align.
  destruct (ALIGN_bounds width al_w) as [Bw Mw]; [lia..|].
  destruct (ALIGN_bounds height al_h) as [Bh Mh]; [lia..|].
  destruct (Z.eqb_spec i 0) as [->|Hi0]; cbn [negb].
  - eexists _, _, _. split; [reflexivity|]. cbn iota. rewrite (proj2 (Z.eqb_neq alignment 0)) by lia.
    rewrite !Z.div_1_r, !Z.mul_1_r. split_and!; try lia.
    intros He. split; eapply ALIGN_chroma; eauto; lia.
  - assert (Hn : fd_num_planes d ≠ 1) by lia. rewrite (proj2 (Z.eqb_neq (fd_num_planes d) 1)) in Hbpp by done.
    destruct dk_first0 as [|Hb0]; [done|].
    set (a := if negb (fd_tile_hs d =? 0) then u32 (Z.shiftl al_h (fd_log2_chroma_h d)) else al_h).
    assert (Ha : 1 ≤ a ≤ 512 ∧ (even_tile d = true → fd_log2_chroma_h d = 1 → Z.even a = true)).
    { unfold a. destruct (Z.eqb_spec (fd_tile_hs d) 0); cbn [negb]; [split; [lia|auto]|].
      rewrite Z.shiftl_mul_pow2 by lia.
      assert (fd_log2_chroma_h d = 0 ∨ fd_log2_chroma_h d = 1) as [-> | ->] by lia; rewrite u32_small by lia;
        (split; [lia|]); intros _ ?; [done|]. change (2 ^ 1) with 2. by rewrite Z.even_mul, orb_true_r. }
    destruct Ha as [Ha Ea]. destruct (ALIGN_bounds height a) as [Ba Ma]; [lia..|].
    replace (if negb (fd_tile_hs d =? 0) then ALIGN height (u32 (Z.shiftl al_h (fd_log2_chroma_h d))) else ALIGN height al_h)
      with (ALIGN height a) by (unfold a; by destruct (negb _)).
    rewrite (proj2 (Z.eqb_neq (bpp d 0) 0)) by lia. cbn [negb defined]. rewrite bind_done.
    set (n := Z.shiftr (u32 (alignment * bpp d i)) (fd_log2_chroma_w d)).
    assert (En : n = alignment * bpp d i / 2 ^ fd_log2_chroma_w d)
      by (unfold n; by rewrite Z.shiftr_div_pow2, u32_small by nia).
    rewrite <- En. assert (Hnb : 0 ≤ n ≤ 2 ^ 17).
    { rewrite En. assert (0 ≤ alignment * bpp d i ≤ 2 ^ 17) by nia.
      assert (fd_log2_chroma_w d = 0 ∨ fd_log2_chroma_w d = 1) as [-> | ->] by lia;
        [rewrite Z.div_1_r; lia|change (2 ^ 1) with 2; dlia]. }
    eexists _, _, _. split; [reflexivity|]. rewrite DIV_ROUND_UP_spec by lia.
    assert (Hq : 0 ≤ (n + bpp d 0 - 1) / bpp d 0 ≤ 2 ^ 14).
    { split; [apply Z.div_pos; lia|]. apply Z.lt_succ_r, Z.div_lt_upper_bound; nia. }
    destruct (shiftr_chroma width al_w (ALIGN width al_w) (fd_log2_chroma_w d)) as (W1 & W2 & W3); [lia..|].
    destruct (shiftr_chroma height a (ALIGN height a) (fd_log2_chroma_h d)) as (H1 & H2 & H3); [lia..|].
    assert (0 ≤ width / 2 ^ fd_log2_chroma_w d) by (apply Z.div_pos; lia).
    assert (0 ≤ height / 2 ^ fd_log2_chroma_h d) by (apply Z.div_pos; lia).
    split_and!; try lia; [destruct (Z.eqb_spec ((n + bpp d 0 - 1) / bpp d 0) 0); lia..|].
    intros He. split; [apply W3|apply H3]; auto.
Qed.

(** Bytes of a line of [w] samples of plane [i]. *)
Definition line_bytes (d : pixel_format_desc) (w i : Z) : Z :=
  if bpp d i =? 0 then w else (w * bpp d i + 7) / 8.

(** Plane [i] has room for the picture: every line holds its samples and is no
    longer than its alignment makes it, there are enough lines, and the size is
    exact. *)
Definition plane_fits (d : pixel_format_desc) (width height alignment i : Z) (p : pix_plane_info) : Prop :=
  ∃ w h, pi_size p = pi_line p * h ∧
    pi_line p mod line_align d alignment i = 0 ∧ pi_line p < line_bytes d w i + line_align d alignment i ∧
    (if bpp d i =? 0 then w ≤ pi_line p else w * bpp d i ≤ 8 * pi_line p) ∧
    width / 2 ^ sub_w d i ≤ w ∧ height / 2 ^ sub_h d i ≤ h ∧
    (even_tile d = true → ALIGN width (2 ^ fd_log2_chroma_w d) ≤ w * 2 ^ sub_w d i ∧
                           ALIGN height (2 ^ fd_log2_chroma_h d) ≤ h * 2 ^ sub_h d i).

(** The planes share 32 bits. *)
Definition plane_cap (d : pixel_format_desc) : Z := (2 ^ 32 - 1) / fd_num_planes d.

Definition plane_line (d : pixel_format_desc) (w align i : Z) : Z :=
  ALIGN (if negb (bpp d i =? 0) then Z.shiftr (ALIGN (u32 (w * bpp d i)) 8) 3 else w) align.

Lemma plane_line_ok d w align i b :
  0 ≤ w < 2 ^ 14 + 8 → 0 ≤ bpp d i ≤ b → b ≤ 64 → 8 ≤ b → 1 ≤ align ≤ 2 ^ 14 →
  (if bpp d i =? 0 then w ≤ plane_line d w align i else w * bpp d i ≤ 8 * plane_line d w align i) ∧
  plane_line d w align i mod align = 0 ∧ plane_line d w align i < line_bytes d w i + align ∧ 0 ≤ plane_line d w align i ≤ (2 ^ 14 + 8) * b / 8 + align.
Proof.
  intros Hw Hb Hb64 Hb8 Ha. unfold plane_line. 
  assert (Hl : ∃ l, (if negb (bpp d i =? 0) then Z.shiftr (ALIGN (u32 (w * bpp d i)) 8) 3 else w) = l ∧
    0 ≤ l ≤ (2 ^ 14 + 8) * b / 8 ∧ (if bpp d i =? 0 then w ≤ l else w * bpp d i ≤ 8 * l) ∧ l = line_bytes d w i).
  { eexists. split; [reflexivity|]. assert (Hbound : (2 ^ 14 + 8) * 8 / 8 ≤ (2 ^ 14 + 8) * b / 8) by (apply Z.div_le_mono; lia).
    rewrite Z.div_mul in Hbound by lia. unfold line_bytes. destruct (Z.eqb_spec (bpp d i) 0); cbn [negb]; [lia|].
    assert (0 ≤ w * bpp d i ≤ (2 ^ 14 + 7) * b) by nia. rewrite u32_small by lia.
    destruct (ALIGN_bounds (w * bpp d i) 8) as [B M]; [lia..|].
    rewrite Z.shiftr_div_pow2 by lia. change (2 ^ 3) with 8. split; [|split; dlia].
    split; [dlia|]. apply Z.div_le_mono; lia. }
  destruct Hl as (l & -> & Hlb & Hlf & Hle).
  assert ((2 ^ 14 + 8) * b / 8 ≤ 131136) by (apply (Z.div_le_mono _ ((2 ^ 14 + 8) * 64) 8); lia).
  destruct (ALIGN_bounds l align) as [B M]; [lia..|]. split_and!; try done; try lia.
  destruct (bpp d i =? 0); lia.
Qed.

Lemma sum_sizes_cap d w h align i :
  desc_ok d → 0 ≤ i < fd_num_planes d → 0 ≤ w < 2 ^ 14 + 8 → 0 ≤ h < 2 ^ 14 + (if i =? 0 then 256 else 512) →
  1 ≤ align ≤ (if i =? 0 then 2 ^ 12 else 2 ^ 14) →
  0 ≤ plane_line d w align i * h ≤ plane_cap d.
Proof.
  intros Hd Hi Hw Hh Ha. pose proof (bpp_bounds d i Hd) as Hb. pose proof (dk_planes d Hd).
  assert (Hal : 1 ≤ align ≤ 2 ^ 14) by (destruct (i =? 0); lia). unfold plane_cap.
  destruct (Z.eqb_spec (fd_num_planes d) 1) as [E|E].
  - assert (i = 0) as -> by lia. cbn [Z.eqb] in *. rewrite E, Z.div_1_r.
    destruct (plane_line_ok d w align 0 64) as (_ & _ & _ & Hl); [lia..|].
    replace ((2 ^ 14 + 8) * 64 / 8) with 131136 in Hl by reflexivity. nia.
  - destruct (plane_line_ok d w align i 32) as (_ & _ & _ & Hl); [lia..|].
    replace ((2 ^ 14 + 8) * 32 / 8) with 65568 in Hl by reflexivity.
    assert (1431655765 ≤ (2 ^ 32 - 1) / fd_num_planes d).
    { apply Z.div_le_lower_bound; lia. }
    destruct (i =? 0); nia.
Qed.

Definition sum_sizes (l : list pix_plane_info) : Z := foldr Z.add 0 (map pi_size l).

Lemma fill_planes_ok d width height al_w al_h alignment :
  desc_ok d → al_ok d al_w al_h → 0 < width ≤ 2 ^ 14 → 0 < height ≤ 2 ^ 14 → 1 ≤ alignment ≤ 2 ^ 12 →
  ∀ n i s planes, i + Z.of_nat n = fd_num_planes d → 0 ≤ i → zlen planes = 8 → 0 ≤ s ≤ i * plane_cap d →
  ∃ planes' s', fill_planes n d width height al_w al_h alignment i s planes = Done (planes', s') ∧
    zlen planes' = 8 ∧ (∀ j, j < i ∨ fd_num_planes d ≤ j → nthz planes' j = nthz planes j) ∧
    (∀ j, i ≤ j < fd_num_planes d → ∃ p, nthz planes' j = Some p ∧ plane_fits d width height alignment j p) ∧
    s' = s + sum_sizes (take n (drop (Z.to_nat i) planes')) ∧ 0 ≤ s' < 2 ^ 32.
Proof.
  intros Hd Hal Hw Hh Ha. pose proof (dk_planes d Hd) as Hp.
  assert (Hcap : plane_cap d * fd_num_planes d ≤ 2 ^ 32 - 1) by (unfold plane_cap; rewrite Z.mul_comm; apply Z.mul_div_le; lia).
  assert (0 ≤ plane_cap d) by (unfold plane_cap; apply Z.div_pos; lia).
  induction n as [|n IH]; intros i s planes Hi Hi0 Hl Hs; cbn [fill_planes].
  { exists planes, s. assert (s < 2 ^ 32) by nia. split_and!; try done; try lia.
    change (s = s + 0). lia. }
  destruct (plane_geometry_ok d width height al_w al_h alignment i) as (w & h & align & E & Hwb & Hhb & Hab & Ha0 & F1 & F2 & F3); [done..|lia|].
  rewrite E. cbn [mbind outcome_bind obind].
  fold (plane_line d w align i). pose proof (sum_sizes_cap d w h align i Hd ltac:(lia) Hwb Hhb Hab) as Hc.
  assert (Hx : plane_cap d ≤ 2 ^ 32 - 1) by nia.
  assert (Hsz : pi_size (pitcher_fill_plane_desc (plane_line d w align i) h) = plane_line d w align i * h)
    by (cbn; apply u32_small; lia).
  set (p := pitcher_fill_plane_desc _ h) in *.
  rewrite storez_Done by lia. rewrite bind_done, Hsz, u32_small by nia.
  destruct (IH (i + 1) (s + plane_line d w align i * h) (<[Z.to_nat i := p]> planes)) as (planes' & s' & E' & Hl' & Hout & Hin & Hs' & Hsb);
    [lia|lia|by rewrite zlen_insert|nia|].
  assert (Hpi : nthz planes' i = Some p).
  { rewrite Hout by lia. rewrite nthz_lookup by lia. apply list_lookup_insert_eq. unfold zlen in Hl. lia. }
  exists planes', s'. split_and!; try done; try lia.
  - intros j Hj. rewrite Hout by lia. unfold nthz. destruct (Z.leb_spec 0 j); [|done]. apply list_lookup_insert_ne. lia.
  - intros j Hj. destruct (decide (j = i)) as [->|]; [|apply Hin; lia]. exists p. split; [done|].
    destruct (plane_line_ok d w align i (if fd_num_planes d =? 1 then 64 else 32)) as (L1 & L2 & L3 & _);
      [lia|by apply bpp_bounds|destruct (_ =? 1); lia|destruct (_ =? 1); lia|destruct (i =? 0); lia|].
    exists w, h. rewrite <- Ha0. split_and!; try done.
  - rewrite Hs'. assert (Hdrop : drop (Z.to_nat i) planes' = p :: drop (Z.to_nat (i + 1)) planes').
    { replace (Z.to_nat (i + 1)) with (S (Z.to_nat i)) by lia. apply drop_S. by rewrite <- nthz_lookup. }
    rewrite Hdrop. unfold sum_sizes. cbn [take map foldr]. rewrite Hsz. lia.
Qed.

Section pixfmt_props.
Context `{Videodev2}.

(** The formats whose tiles have an odd number of columns. *)
Lemma odd_tile f d : pix_fmt_descriptors f = Some d → f ≠ PIX_FMT_DTRC10 → even_tile d = true.
Proof.
  intros Hd%assocz_in Hf.
  assert (Ha : forallb (λ r, (fst r =? PIX_FMT_DTRC10) || even_tile (snd r)) pix_fmt_rows = true) by reflexivity.
  rewrite forallb_forall in Ha. apply list_elem_of_In in Hd. apply Ha in Hd. cbn in Hd.
  by rewrite (proj2 (Z.eqb_neq _ _)) in Hd.
Qed.

(** C40: the layout of a picture.  For each of the formats, dimensions up to
    16384 and alignments up to 4096 (with or without interlacing),
    [pitcher_get_pix_fmt_info] succeeds without wrap-around; it fills exactly
    the planes of the format, each with lines that hold their samples and are
    padded just to the alignment, the one asked for in plane 0 and its share
    ([line_align]: by bits per sample and subsampling) in the chroma planes,
    and with enough lines (for all but the 5-column tiles of dtrc10, also when
    the dimensions are rounded up to whole chroma samples), and the reported size is at least their sum.
    Nothing is written for a format out of range or an empty picture. *)
Theorem pix_fmt_layout info alignment :
  i_width info ≤ 2 ^ 14 → i_height info ≤ 2 ^ 14 → 0 ≤ i_width info → 0 ≤ i_height info →
  0 ≤ i_format info → 0 ≤ alignment ≤ 2 ^ 12 → zlen (i_planes info) = 8 →
  if (PIX_FMT_NB <=? i_format info) || (i_width info =? 0) || (i_height info =? 0)
  then pitcher_get_pix_fmt_info (Some info) alignment = Done (- RET_E_INVAL, Some info)
  else ∃ d info', pitcher_get_pix_fmt_info (Some info) alignment = Done (RET_OK, Some info') ∧
    pix_fmt_descriptors (i_format info) = Some d ∧ i_desc info' = Some d ∧
    i_num_planes info' = pitcher_get_format_num_planes (i_format info) ∧
    pitcher_compare_format (Some info) (Some info') = 0 ∧
    (∀ i, 0 ≤ i < i_num_planes info' → ∃ p, nthz (i_planes info') i = Some p ∧
       plane_fits d (i_width info) (i_height info) (Z.max 1 alignment) i p) ∧
    (∀ i, i_num_planes info' ≤ i → nthz (i_planes info') i = nthz (i_planes info) i) ∧
    i_size info' = Z.max (i_size info) (sum_sizes (take (Z.to_nat (i_num_planes info')) (i_planes info'))) ∧
    (i_format info ≠ PIX_FMT_DTRC10 → even_tile d = true).
Proof.
  intros Hw Hh Hw0 Hh0 Hf Ha Hl. unfold pitcher_get_pix_fmt_info.
  destruct (_ || _) eqn:E; [done|]. zbool.
  destruct (descriptor_some (i_format info)) as [d Hd]; [lia|]. pose proof (descriptor_ok _ _ Hd) as Hok.
  rewrite Hd. cbn [of_option]. rewrite bind_done.
  pose proof (tile_alignment_ok d (i_interlaced info) Hok) as Hal.
  destruct (tile_alignment d (i_interlaced info)) as [al_w al_h]. destruct Hal as (A1 & A2 & A3 & A4).
  assert (Hal : al_ok d al_w al_h) by (split_and!; [lia..| |]; unfold even_tile; intros He%andb_prop; naive_solver).
  assert (Hm : (if alignment =? 0 then 1 else alignment) = Z.max 1 alignment) by (zcase; lia).
  rewrite Hm. pose proof (dk_planes d Hok).
  destruct (fill_planes_ok d (i_width info) (i_height info) al_w al_h (Z.max 1 alignment) Hok Hal ltac:(lia) ltac:(lia) ltac:(lia)
    (Z.to_nat (fd_num_planes d)) 0 0 (i_planes info)) as (planes & s & E' & _ & Hout & Hin & Hs & _); [lia..|].
  rewrite E'. cbn [mbind outcome_bind obind]. exists d. eexists. split; [reflexivity|].
  cbn [i_desc i_num_planes i_planes i_size]. split_and!; try done.
  - unfold pitcher_get_format_num_planes. rewrite (proj2 (Z.leb_gt _ _)), Hd by lia. done.
  - unfold pitcher_compare_format. cbn [i_format i_width i_height i_interlaced]. by rewrite !Z.eqb_refl.
  - intros i Hi. apply Hout. lia.
  - rewrite Hs, drop_0. rewrite Z.add_0_l. zcase; lia.
  - intros. by eapply odd_tile.
Qed.

(** ** Names and codes *)

(** The codes the table uses. *)
Definition row_codes (r : Z * pixel_format_desc) : list Z := [fd_fourcc_nc (snd r); fd_fourcc (snd r)].
Definition codes (rows : list (Z * pixel_format_desc)) : list Z :=
  List.concat (List.map row_codes rows).
Definition nonzero (l : list Z) : list Z := List.filter (λ c, negb (c =? 0)) l.

Lemma elem_of_nonzero c l : c ∈ nonzero l ↔ c ∈ l ∧ c ≠ 0.
Proof.
  unfold nonzero. rewrite !list_elem_of_In, filter_In. rewrite negb_true_iff, Z.eqb_neq. done.
Qed.

Lemma in_row_codes c r : c = fd_fourcc_nc (snd r) ∨ c = fd_fourcc (snd r) → c ∈ row_codes r.
Proof. intros [-> | ->]; [by left|by right; left]. Qed.

Lemma elem_of_codes c rows : c ∈ codes rows ↔ ∃ r, r ∈ rows ∧ c ∈ row_codes r.
Proof.
  unfold codes. rewrite list_elem_of_In, in_concat. split.
  - intros (l & (r & <- & Hr)%in_map_iff & Hc). exists r. by rewrite !list_elem_of_In.
  - intros (r & Hr & Hc). exists (row_codes r). rewrite in_map_iff, <- list_elem_of_In. split; [|done].
    exists r. by rewrite <- list_elem_of_In.
Qed.

Lemma codes_identify rows r r' c : NoDup (nonzero (codes rows)) → c ≠ 0 →
  r ∈ rows → r' ∈ rows → c ∈ row_codes r → c ∈ row_codes r' → r = r'.
Proof.
  intros Hnd Hc. revert Hnd. induction rows as [|r0 rows IH]; [by intros _ ?%not_elem_of_nil|].
  intros Hnd Hr Hr' Hcr Hcr'. change (codes (r0 :: rows)) with (row_codes r0 ++ codes rows) in Hnd.
  unfold nonzero in Hnd. rewrite List.filter_app in Hnd. apply NoDup_app in Hnd as (_ & Hd & Hnd).
  assert (Hsep : ∀ r1, r1 ∈ rows → c ∈ row_codes r1 → c ∈ row_codes r0 → False).
  { intros r1 H1 Hc1 Hc0. apply (Hd c); [by apply elem_of_nonzero|]. apply elem_of_nonzero. split; [|done].
    apply elem_of_codes. by exists r1. }
  apply elem_of_cons in Hr as [->|Hr], Hr' as [->|Hr']; [done| | |by apply IH].
  - by destruct (Hsep r').
  - by destruct (Hsep r).
Qed.

Fixpoint lower_all (a : string) : string :=
  match a with EmptyString => EmptyString | String c a => String (lower c) (lower_all a) end.

Lemma strcaseeq_lower a b : strcaseeq a b = true ↔ lower_all a = lower_all b.
Proof.
  revert b. induction a as [|c a IH]; intros [|d b]; cbn; try done.
  rewrite andb_true_iff, IH, Ascii.eqb_eq. split; [by intros [-> ->]|by intros [= -> ->]].
Qed.

Lemma find_format_unique p f d : pix_fmt_descriptors f = Some d → p d = true →
  (∀ f' d', pix_fmt_descriptors f' = Some d' → p d' = true → f' = f) → find_format p = f.
Proof.
  intros Hd Hp Hu. unfold find_format.
  assert (Hf : In f formats).
  { apply list_elem_of_In, elem_of_seqZ. apply assocz_in in Hd.
    assert (Ha : forallb (λ r, (0 <=? fst r) && (fst r <? PIX_FMT_NB)) pix_fmt_rows = true) by reflexivity.
    rewrite forallb_forall in Ha. apply list_elem_of_In, Ha in Hd. zbool. cbn in *. unfold PIX_FMT_I420. lia. }
  destruct (List.find _ formats) as [f'|] eqn:E.
  - apply find_some in E as [_ E]. destruct (pix_fmt_descriptors f') as [d'|] eqn:E'; [|done]. cbn. by eapply Hu.
  - eapply find_none in E; [|exact Hf]. rewrite Hd in E. congruence.
Qed.

Lemma find_format_none p : (∀ f d, pix_fmt_descriptors f = Some d → p d = false) → find_format p = PIX_FMT_NONE.
Proof.
  intros Hp. unfold find_format. destruct (List.find _ formats) as [f|] eqn:E; [|done].
  apply find_some in E as [_ E]. destruct (pix_fmt_descriptors f) as [d|] eqn:E'; [|done].
  rewrite (Hp f d) in E; done.
Qed.

Lemma names_identify f d f' d' : pix_fmt_descriptors f = Some d → pix_fmt_descriptors f' = Some d' →
  lower_all (fd_name d) = lower_all (fd_name d') → f' = f.
Proof.
  intros Hd%assocz_in Hd'%assocz_in He.
  assert (Ha : forallb (λ r, forallb (λ r', negb (String.eqb (lower_all (fd_name (snd r))) (lower_all (fd_name (snd r'))))
    || (fst r' =? fst r)) pix_fmt_rows) pix_fmt_rows = true) by reflexivity.
  rewrite forallb_forall in Ha. apply list_elem_of_In, Ha in Hd. rewrite forallb_forall in Hd.
  apply list_elem_of_In, Hd in Hd'. cbn in Hd'. rewrite He, String.eqb_refl in Hd'. cbn in Hd'. lia.
Qed.

Lemma name_not_alias f d : pix_fmt_descriptors f = Some d → lower_all (fd_name d) ≠ "yuv420p"%string.
Proof.
  intros Hd%assocz_in.
  assert (Ha : forallb (λ r, negb (String.eqb (lower_all (fd_name (snd r))) "yuv420p")) pix_fmt_rows = true) by reflexivity.
  rewrite forallb_forall in Ha. apply list_elem_of_In, Ha in Hd. cbn in Hd. by destruct (String.eqb_spec (lower_all (fd_name d)) "yuv420p").
Qed.

(** Names and codes identify formats.  [pitcher_get_format_by_name] inverts
    [pitcher_get_format_name] whatever the case of the letters;
    [pitcher_get_format_by_fourcc] maps both codes of a format back to it as
    long as <linux/videodev2.h> gives different formats different codes; an
    unknown name or code gives [PIX_FMT_NONE]. *)
Theorem format_lookup_roundtrip :
  (∀ f d n, pix_fmt_descriptors f = Some d → strcaseeq n (fd_name d) = true →
     pitcher_get_format_name f = Some (fd_name d) ∧ pitcher_get_format_by_name (Some n) = f ∧
     pitcher_get_format_desc_by_name (Some n) = Some d) ∧
  (NoDup (nonzero (codes pix_fmt_rows)) →
   ∀ f d c, pix_fmt_descriptors f = Some d → c ≠ 0 → c = fd_fourcc d ∨ c = fd_fourcc_nc d →
     pitcher_get_format_by_fourcc c = f) ∧
  (∀ c, c ∉ codes pix_fmt_rows → pitcher_get_format_by_fourcc c = PIX_FMT_NONE) ∧
  (∀ n, strcaseeq n "yuv420p" = false → (∀ f d, pix_fmt_descriptors f = Some d → strcaseeq n (fd_name d) = false) →
     pitcher_get_format_by_name (Some n) = PIX_FMT_NONE).
Proof.
  split_and!.
  - intros f d n Hd Hn. apply strcaseeq_lower in Hn.
    assert (Hby : pitcher_get_format_by_name (Some n) = f).
    { unfold pitcher_get_format_by_name. destruct (strcaseeq n "yuv420p") eqn:E.
      - apply strcaseeq_lower in E. rewrite Hn in E. by destruct (name_not_alias _ _ Hd).
      - apply (find_format_unique _ f d Hd); [by apply strcaseeq_lower|]. intros f' d' Hd' E'%strcaseeq_lower.
        eapply names_identify; [exact Hd|exact Hd'|congruence]. }
    assert (Hnb : f < PIX_FMT_NB).
    { destruct (Z.lt_ge_cases f PIX_FMT_NB) as [|Hge]; [done|]. apply assocz_in in Hd.
      assert (Ha : forallb (λ r, fst r <? PIX_FMT_NB) pix_fmt_rows = true) by reflexivity.
      rewrite forallb_forall in Ha. apply list_elem_of_In, Ha in Hd. cbn in Hd. lia. }
    unfold pitcher_get_format_desc_by_name, pitcher_get_format_name. rewrite Hby.
    rewrite (proj2 (Z.leb_gt _ _)), Hd by lia. split_and!; try done.
    rewrite (proj2 (Z.eqb_neq _ _)); [done|]. unfold PIX_FMT_NB, PIX_FMT_NONE in *. lia.
  - intros Hnd f d c Hd Hc Hcd. unfold pitcher_get_format_by_fourcc.
    apply (find_format_unique _ f d Hd); [by destruct Hcd as [-> | ->]; rewrite Z.eqb_refl, ?orb_true_r|].
    intros f' d' Hd' Hc'. apply orb_true_iff in Hc'. rewrite !Z.eqb_eq in Hc'. apply assocz_in in Hd, Hd'.
    assert (E : (f', d') = (f, d)); [|by injection E]. apply (codes_identify pix_fmt_rows _ _ c Hnd Hc Hd' Hd);
      apply in_row_codes; cbn [snd]; [destruct Hc' as [<- | <-]; auto|destruct Hcd as [-> | ->]; auto].
  - intros c Hc. apply find_format_none. intros f d Hd%assocz_in. apply orb_false_iff. rewrite !Z.eqb_neq.
    split; intros E; apply Hc, elem_of_codes; exists (f, d); (split; [done|]); apply in_row_codes; cbn [snd]; auto.
  - intros n Hn Hd. unfold pitcher_get_format_by_name. rewrite Hn. by apply find_format_none.
Qed.
End pixfmt_props.

(** ** Planes of a buffer *)

(** The part of a buffer that its pictures need; [crop] is width and height. *)
(* C: pitcher/pitcher.h pitcher_buffer 65-73 *)
Record pitcher_buffer := PBuf {
  pb_planes : list pitcher_buf_ref;
  pb_format : option pix_fmt_info;
  pb_crop : option (Z * Z)
}.
Definition pb_count (b : pitcher_buffer) : Z := zlen (pb_planes b).
Definition set_pb_planes l (b : pitcher_buffer) := PBuf l (pb_format b) (pb_crop b).

Definition plane_size (f : pix_fmt_info) (i : Z) : outcome Z :=
  obind (λ p, Done (pi_size p)) (loadz (i_planes f) i).
Definition plane_stride (f : pix_fmt_info) (i : Z) : outcome Z :=
  obind (λ p, Done (pi_line p)) (loadz (i_planes f) i).

(** Pointer arithmetic; there is none on NULL. *)
Definition ptr_add (p : option Z) (n : Z) : outcome (option Z) := obind (λ p, Done (Some (p + n))) (of_option p).

(* C: pitcher/pixfmt.c pitcher_get_buffer_plane 592-598 *)
Definition skip_plane (plane : pitcher_buf_ref) (n : Z) : outcome pitcher_buf_ref :=
  virt ← ptr_add (pl_virt plane) n;
  Done (Plane virt (pl_size plane)
    (if negb (pl_phys plane =? 0) then u64 (pl_phys plane + n) else pl_phys plane)
    (if negb (pl_bytesused plane =? 0) then u64 (pl_bytesused plane - n) else pl_bytesused plane)
    (if 0 <=? pl_dmafd plane then u64 (pl_offset plane + n) else pl_offset plane)
    (pl_dmafd plane)).

(* C: pitcher/pixfmt.c pitcher_get_buffer_plane 591-599 *)
Fixpoint skip_planes (n : nat) (f : pix_fmt_info) (i : Z) (plane : pitcher_buf_ref) : outcome pitcher_buf_ref :=
  match n with
  | O => Done plane
  | S n => s ← plane_size f i; plane ← skip_plane plane s; skip_planes n f (i + 1) plane
  end.

(** The plane stored through the pointer, if any; [index] is compared as an
    unsigned number. *)
(* C: pitcher/pixfmt.c pitcher_get_buffer_plane *)
Definition pitcher_get_buffer_plane (buf : option pitcher_buffer) (index : Z) : outcome (Z * option pitcher_buf_ref) :=
  match buf with
  | None => Done (- RET_E_NULL_POINTER, None)
  | Some buf =>
      match pb_format buf with
      | None =>
          if pb_count buf <=? u32 index then Done (- RET_E_INVAL, None)
          else p ← loadz (pb_planes buf) index; Done (0, Some p)
      | Some f =>
          if i_num_planes f <=? u32 index then Done (- RET_E_INVAL, None)
          else if negb (pb_count buf =? 1) && negb (pb_count buf =? i_num_planes f) then Done (- RET_E_INVAL, None)
          else if pb_count buf =? i_num_planes f then p ← loadz (pb_planes buf) index; Done (0, Some p)
          else
            p ← loadz (pb_planes buf) 0;
            p ← skip_planes (Z.to_nat index) f 0 p;
            s0 ← plane_size f 0;
            s ← plane_size f index;
            Done (0, Some (Plane (pl_virt p) s (pl_phys p) (if index =? 0 then s0 else pl_bytesused p)
                             (pl_offset p) (pl_dmafd p)))
      end
  end.

(* C: pitcher/pixfmt.c pitcher_get_buffer_plane_size *)
Definition pitcher_get_buffer_plane_size (buf : option pitcher_buffer) (index : Z) : outcome Z :=
  '(ret, plane) ← pitcher_get_buffer_plane buf index;
  if negb (ret =? 0) then Done 0 else obind (λ p, Done (pl_size p)) (of_option plane).

(** [y] is an [int], the line size unsigned; a NULL buffer has no plane. *)
(* C: pitcher/pixfmt.c pitcher_get_frame_line_vaddr *)
Definition pitcher_get_frame_line_vaddr (buf : option pitcher_buffer) (index y : Z) : outcome (option Z) :=
  '(ret, plane) ← pitcher_get_buffer_plane buf index;
  if negb (ret =? 0) then Done None
  else
    p ← of_option plane;
    b ← of_option buf;
    f ← of_option (pb_format b);
    l ← plane_stride f index;
    ptr_add (pl_virt p) (u32 (y * l)).

(** ** Copying a picture *)

(** Memory by address; reading or writing outside it is undefined, and so is a
    [memcpy] between overlapping areas. *)
Abbreviation bmem := (gmap Z Z).

Definition read_at (m : bmem) (a : Z) : outcome Z := of_option (m !! a).
Definition write_at (m : bmem) (a v : Z) : outcome bmem :=
  match m !! a with Some _ => Done (<[a := v]> m) | None => UB end.

Fixpoint copy_bytes (n : nat) (d s : Z) (m : bmem) : outcome bmem :=
  match n with
  | O => Done m
  | S n => v ← read_at m s; m ← write_at m d v; copy_bytes n (d + 1) (s + 1) m
  end.

Definition memcpy (d s : option Z) (n : Z) (m : bmem) : outcome bmem :=
  d ← of_option d;
  s ← of_option s;
  _ ← defined ((d + n <=? s) || (s + n <=? d));
  copy_bytes (Z.to_nat n) d s m.

(* C: pitcher/pixfmt.c pitcher_copy_buffer_data 699-704 *)
Fixpoint copy_lines (h : nat) (pdst psrc : option Z) (dline sline line bytesused : Z) (m : bmem)
    : outcome (Z * bmem) :=
  match h with
  | O => Done (bytesused, m)
  | S h =>
      m ← memcpy pdst psrc line m;
      psrc ← ptr_add psrc sline;
      pdst ← ptr_add pdst dline;
      copy_lines h pdst psrc dline sline line (u64 (bytesused + dline)) m
  end.

Definition set_bytesused (v : Z) (p : pitcher_buf_ref) := Plane (pl_virt p) (pl_size p) (pl_phys p) v (pl_offset p) (pl_dmafd p).

Definition upd_plane (b : pitcher_buffer) (i : Z) (g : pitcher_buf_ref → pitcher_buf_ref) : outcome pitcher_buffer :=
  p ← loadz (pb_planes b) i; l ← storez (pb_planes b) i (g p); Done (set_pb_planes l b).

(** Width, height and bytes per line of what is copied of plane [i]. *)
(* C: pitcher/pixfmt.c pitcher_copy_buffer_data 679-694 *)
Definition copy_size (src : pitcher_buffer) (fs fd : pix_fmt_info) (desc : pixel_format_desc) (i : Z) : Z * Z :=
  let '(w, h) :=
    match pb_crop src with
    | Some (cw, ch) => if negb (cw =? 0) && negb (ch =? 0) then (cw, ch) else (i_width fs, i_height fs)
    | None => (i_width fs, i_height fs)
    end in
  let w := ALIGN (min w (i_width fd)) (Z.shiftl 1 (fd_log2_chroma_w desc)) in
  let h := ALIGN (min h (i_height fd)) (Z.shiftl 1 (fd_log2_chroma_h desc)) in
  let '(w, h) := if negb (i =? 0) then (Z.shiftr w (fd_log2_chroma_w desc), Z.shiftr h (fd_log2_chroma_h desc)) else (w, h) in
  (Z.shiftr (ALIGN (u32 (w * bpp desc i)) 8) 3, h).

(* C: pitcher/pixfmt.c pitcher_copy_buffer_data 677-708 *)
Definition copy_plane (src : pitcher_buffer) (fs fd : pix_fmt_info) (desc : pixel_format_desc) (i : Z)
    (dst : pitcher_buffer) (m : bmem) : outcome (pitcher_buffer * bmem) :=
  '(_, splane) ← pitcher_get_buffer_plane (Some src) i;
  '(_, dplane) ← pitcher_get_buffer_plane (Some dst) i;
  let '(line, h) := copy_size src fs fd desc i in
  splane ← of_option splane;
  dplane ← of_option dplane;
  sline ← plane_stride fs i;
  dline ← plane_stride fd i;
  '(bytesused, m) ← copy_lines (Z.to_nat h) (pl_virt dplane) (pl_virt splane) dline sline line 0 m;
  dst ← (if i <? pb_count dst then upd_plane dst i (set_bytesused bytesused)
         else upd_plane dst (pb_count dst - 1) (λ p, set_bytesused (u64 (pl_bytesused p + bytesused)) p));
  Done (dst, m).

(* C: pitcher/pixfmt.c pitcher_copy_buffer_data 676-709 *)
Fixpoint copy_planes (n : nat) (src : pitcher_buffer) (fs fd : pix_fmt_info) (desc : pixel_format_desc) (i : Z)
    (dst : pitcher_buffer) (m : bmem) : outcome (pitcher_buffer * bmem) :=
  match n with
  | O => Done (dst, m)
  | S n => '(dst, m) ← copy_plane src fs fd desc i dst m; copy_planes n src fs fd desc (i + 1) dst m
  end.

(* C: pitcher/pixfmt.c pitcher_copy_buffer_data *)
Definition pitcher_copy_buffer_data (src dst : option pitcher_buffer) (m : bmem)
    : outcome (Z * option pitcher_buffer * bmem) :=
  match src, dst with
  | Some src, Some dst =>
      match pb_format src, pb_format dst with
      | Some fs, Some fd =>
          if negb (i_format fs =? i_format fd) then Done (- RET_E_INVAL, Some dst, m)
          else if negb (i_tile_ws fs =? 0) || negb (i_tile_hs fs =? 0) then Done (- RET_E_NOT_SUPPORT, Some dst, m)
          else if PIX_FMT_COMPRESSED <=? i_format fs then
            '(_, splane) ← pitcher_get_buffer_plane (Some src) 0;
            '(_, dplane) ← pitcher_get_buffer_plane (Some dst) 0;
            splane ← of_option splane;
            dplane ← of_option dplane;
            if pl_size dplane <? pl_bytesused splane then Done (- RET_E_INVAL, Some dst, m)
            else
              m ← memcpy (pl_virt dplane) (pl_virt splane) (pl_bytesused splane) m;
              dst ← upd_plane dst 0 (set_bytesused (pl_bytesused splane));
              Done (RET_OK, Some dst, m)
          else
            desc ← of_option (i_desc fs);
            '(dst, m) ← copy_planes (Z.to_nat (i_num_planes fs)) src fs fd desc 0 dst m;
            Done (RET_OK, Some dst, m)
      | _, _ => Done (- RET_E_INVAL, Some dst, m)
      end
  | _, _ => Done (- RET_E_INVAL, dst, m)
  end.

(** *** Bytes *)

(** [m'] is [m] with the bytes of [h] lines of [n] bytes copied. *)
Record lines_copied (h n d dline s sline : Z) (m m' : bmem) : Prop := {
  lc_in : ∀ y x, 0 ≤ y < h → 0 ≤ x < n → m' !! (d + y * dline + x) = m !! (s + y * sline + x);
  lc_out : ∀ a, (∀ y x, 0 ≤ y < h → 0 ≤ x < n → a ≠ d + y * dline + x) → m' !! a = m !! a
}.

Definition mapped (m : bmem) (a n : Z) : Prop := ∀ x, 0 ≤ x < n → is_Some (m !! (a + x)).
Definition apart (a n b k : Z) : Prop := a + n ≤ b ∨ b + k ≤ a.

Lemma lines_copied_mapped h n d dl s sl m m' a : lines_copied h n d dl s sl m m' →
  (∀ y x, 0 ≤ y < h → 0 ≤ x < n → is_Some (m !! (s + y * sl + x))) → is_Some (m !! a) → is_Some (m' !! a).
Proof.
  intros [Hi Ho] Hs Ha. destruct (decide (0 ≤ n)) as [Hn|Hn].
  2:{ rewrite Ho; [done|]. lia. }
  destruct (Exists_dec (λ y, d + y * dl ≤ a ∧ a < d + y * dl + n) (seqZ 0 h)) as [He|He].
  - apply Exists_exists in He as (y & Hy%elem_of_seqZ & H1 & H2).
    replace a with (d + y * dl + (a - d - y * dl)) by lia. rewrite Hi by lia. apply Hs; lia.
  - rewrite Ho; [done|]. intros y x Hy Hx E. apply He, Exists_exists. exists y. rewrite elem_of_seqZ. lia.
Qed.

Lemma copy_bytes_ok n : ∀ d s m, apart d (Z.of_nat n) s (Z.of_nat n) →
  mapped m d (Z.of_nat n) → mapped m s (Z.of_nat n) →
  ∃ m', copy_bytes n d s m = Done m' ∧ lines_copied 1 (Z.of_nat n) d 0 s 0 m m'.
Proof.
  induction n as [|n IH]; intros d s m Ha Hd Hs; cbn [copy_bytes].
  { exists m. split; [done|]. split; [intros; lia|done]. }
  destruct (Hs 0) as [v Ev]; [lia|]. destruct (Hd 0) as [u Eu]; [lia|]. rewrite Z.add_0_r in Ev, Eu.
  unfold read_at, write_at. rewrite Ev. cbn [of_option mbind outcome_bind obind]. rewrite Eu.
  destruct (IH (d + 1) (s + 1) (<[d := v]> m)) as (m' & E & [Hi Ho]).
  - unfold apart in *. lia.
  - intros x Hx. apply lookup_insert_is_Some'. right. replace (d + 1 + x) with (d + (x + 1)) by lia. apply Hd. lia.
  - intros x Hx. apply lookup_insert_is_Some'. right. replace (s + 1 + x) with (s + (x + 1)) by lia. apply Hs. lia.
  - exists m'. split; [done|]. split.
    + intros y x Hy Hx. rewrite !Z.mul_0_r, !Z.add_0_r. destruct (decide (x = 0)) as [->|].
      * rewrite Ho, !Z.add_0_r, lookup_insert_eq by (intros; lia). done.
      * replace (d + x) with (d + 1 + 0 * 0 + (x - 1)) by lia. rewrite Hi by lia.
        rewrite lookup_insert_ne by (unfold apart in *; lia). f_equal. lia.
    + intros a Hne. rewrite Ho.
      * apply lookup_insert_ne. specialize (Hne 0 0). lia.
      * intros y x Hy Hx. specialize (Hne 0 (x + 1)). lia.
Qed.

Lemma memcpy_ok d s n m : 0 ≤ n → apart d n s n → mapped m d n → mapped m s n →
  ∃ m', memcpy (Some d) (Some s) n m = Done m' ∧ lines_copied 1 n d 0 s 0 m m'.
Proof.
  intros Hn Ha Hd Hs. unfold memcpy. cbn [of_option]. rewrite !bind_done.
  rewrite bind_defined_true.
  2:{ unfold apart in Ha. apply orb_true_iff. rewrite !Z.leb_le. lia. }
  destruct (copy_bytes_ok (Z.to_nat n) d s m) as (m' & E & H); rewrite ?Z2Nat.id by lia; try done.
  exists m'. rewrite Z2Nat.id in H by lia. done.
Qed.

Lemma copy_lines_ok h : ∀ d s dl sl n bu m, 0 ≤ n ≤ dl → n ≤ sl →
  apart d (Z.of_nat h * dl) s (Z.of_nat h * sl) →
  mapped m d (Z.of_nat h * dl) → mapped m s (Z.of_nat h * sl) →
  ∃ bu' m', copy_lines h (Some d) (Some s) dl sl n bu m = Done (bu', m') ∧
    lines_copied (Z.of_nat h) n d dl s sl m m'.
Proof.
  induction h as [|h IH]; intros d s dl sl n bu m Hn Hns Ha Hd Hs; cbn [copy_lines].
  { exists bu, m. split; [done|]. split; [intros; lia|done]. }
  assert (Ha1 : apart d n s n) by (unfold apart in *; nia).
  destruct (memcpy_ok d s n m) as (m1 & E1 & H1); [lia|done|intros x Hx; apply Hd; nia|intros x Hx; apply Hs; nia|].
  rewrite E1. cbn [mbind outcome_bind obind ptr_add of_option].
  assert (Hsrc : ∀ y x, 0 ≤ y < 1 → 0 ≤ x < n → is_Some (m !! (s + y * 0 + x))).
  { intros y x Hy Hx. replace (s + y * 0 + x) with (s + x) by lia. apply Hs. nia. }
  destruct (IH (d + dl) (s + sl) dl sl n (u64 (bu + dl)) m1) as (bu' & m' & E & [Hi Ho]); try done.
  - unfold apart in *. nia.
  - intros x Hx. eapply lines_copied_mapped; [exact H1|exact Hsrc|]. replace (d + dl + x) with (d + (dl + x)) by lia. apply Hd. nia.
  - intros x Hx. eapply lines_copied_mapped; [exact H1|exact Hsrc|]. replace (s + sl + x) with (s + (sl + x)) by lia. apply Hs. nia.
  - exists bu', m'. split; [exact E|]. destruct H1 as [Hi1 Ho1]. split.
    + intros y x Hy Hx. destruct (decide (y = 0)) as [->|].
      * rewrite Ho by (intros y' x' ? ?; nia). replace (d + 0 * dl + x) with (d + 0 * 0 + x) by lia.
        rewrite Hi1 by lia. f_equal; lia.
      * replace (d + y * dl + x) with (d + dl + (y - 1) * dl + x) by lia. rewrite Hi by lia.
        replace (s + sl + (y - 1) * sl + x) with (s + y * sl + x) by lia. apply Ho1.
        intros y' x' Hy' Hx'. unfold apart in Ha. assert (y' = 0) as -> by lia. nia.
    + intros a Hne. rewrite Ho.
      * apply Ho1. intros y x Hy Hx. assert (y = 0) as -> by lia. specialize (Hne 0 x). lia.
      * intros y x Hy Hx. specialize (Hne (y + 1) x). nia.
Qed.

(** *** Planes *)

Definition upto_bytesused (p q : pitcher_buf_ref) : Prop := ∃ v, q = set_bytesused v p.
Definition same_planes (b c : pitcher_buffer) : Prop :=
  pb_format c = pb_format b ∧ Forall2 upto_bytesused (pb_planes b) (pb_planes c).

Lemma upto_refl p : upto_bytesused p p.
Proof. exists (pl_bytesused p). by destruct p. Qed.
Lemma same_planes_refl b : same_planes b b.
Proof. split; [done|]. induction (pb_planes b); constructor; [apply upto_refl|done]. Qed.
Lemma same_planes_trans b c d : same_planes b c → same_planes c d → same_planes b d.
Proof.
  intros [E1 H1] [E2 H2]. split; [congruence|]. revert H2. generalize (pb_planes d).
  induction H1 as [|p q l k [v ->] _ IH]; intros l' H2; inversion H2 as [|? r ? ? [w ->] ?]; subst; constructor; [by exists w|auto].
Qed.

Lemma same_planes_load b c i p : same_planes b c → loadz (pb_planes b) i = Done p →
  ∃ q, loadz (pb_planes c) i = Done q ∧ upto_bytesused p q.
Proof.
  intros [_ H2] Hp. apply loadz_inv in Hp as [Hp Hi]. rewrite nthz_lookup in Hp by lia.
  destruct (Forall2_lookup_l _ _ _ _ _ H2 Hp) as (q & Hq & Hpq). exists q. split; [|done].
  unfold loadz. by rewrite nthz_lookup, Hq by lia.
Qed.

Lemma skip_planes_upto f n : ∀ i p q r, upto_bytesused p q → skip_planes n f i p = Done r →
  ∃ r', skip_planes n f i q = Done r' ∧ upto_bytesused r r'.
Proof.
  induction n as [|n IH]; intros i p q r [v ->] Hr; cbn [skip_planes] in *.
  { injection Hr as ->. eexists. split; [done|]. by exists v. }
  destruct (plane_size f i) as [s| | |]; cbn in Hr |- *; try done.
  unfold skip_plane in *. cbn [pl_virt set_bytesused] in *.
  destruct (ptr_add (pl_virt p) s) as [w| | |]; cbn in Hr |- *; try done.
  eapply IH; [|exact Hr]. eexists. reflexivity.
Qed.

(** Plane [i] of the buffer starts at address [A i]. *)
Definition has_planes (b : pitcher_buffer) (n : Z) (A : Z → Z) : Prop :=
  ∀ i, 0 ≤ i < n → ∃ p, pitcher_get_buffer_plane (Some b) i = Done (0, Some p) ∧ pl_virt p = Some (A i).

Lemma has_planes_same b c n A : same_planes b c → has_planes b n A → has_planes c n A.
Proof.
  intros Hbc Hb i Hi. destruct (Hb i Hi) as (p & Hp & Hv). revert Hp. unfold pitcher_get_buffer_plane.
  assert (Hc : pb_count c = pb_count b).
  { unfold pb_count, zlen. by rewrite (Forall2_length _ _ _ (proj2 Hbc)). }
  rewrite (proj1 Hbc), Hc. destruct (pb_format b) as [f|].
  - destruct (_ <=? _); [done|]. destruct (_ && _); [done|]. destruct (_ =? _).
    + intros E. apply bind_done_inv in E as (p' & E & [= ->]).
      destruct (same_planes_load b c i p Hbc E) as (q & -> & [v ->]). cbn. by eexists.
    + intros E. apply bind_done_inv in E as (p0 & E0 & E). apply bind_done_inv in E as (p1 & E1 & E).
      destruct (same_planes_load b c 0 p0 Hbc E0) as (q0 & -> & H0). rewrite bind_done.
      destruct (skip_planes_upto _ _ _ _ _ _ H0 E1) as (q1 & -> & [v ->]). rewrite bind_done.
      destruct (plane_size f 0); cbn in E |- *; try done. destruct (plane_size f i); cbn in E |- *; try done.
      injection E as <-. eexists. split; [reflexivity|]. done.
  - destruct (_ <=? _); [done|]. intros E. apply bind_done_inv in E as (p' & E & [= ->]).
    destruct (same_planes_load b c i p Hbc E) as (q & -> & [v ->]). cbn. by eexists.
Qed.

Lemma has_planes_nonempty b n A : 0 < n → has_planes b n A → 0 < pb_count b.
Proof.
  intros Hn Hb. destruct (Hb 0) as (p & Hp & _); [lia|]. revert Hp. unfold pitcher_get_buffer_plane.
  assert (Hl : ∀ q, loadz (pb_planes b) 0 = Done q → 0 < pb_count b).
  { intros q Hq. apply loadz_inv in Hq. unfold pb_count. lia. }
  destruct (pb_format b); repeat case_match; try done; intros E; apply bind_done_inv in E as (q & E & _); eauto.
Qed.

Lemma upd_plane_ok b i g : 0 ≤ i < pb_count b → (∀ p, upto_bytesused p (g p)) →
  ∃ c, upd_plane b i g = Done c ∧ same_planes b c.
Proof.
  intros Hi Hg. unfold upd_plane, loadz. destruct (nthz_in_range (pb_planes b) i Hi) as [p Hp]. rewrite Hp.
  cbn [of_option]. rewrite bind_done, storez_Done by done. rewrite bind_done. eexists. split; [reflexivity|].
  split; [done|]. cbn. rewrite nthz_lookup in Hp by lia. apply Forall2_same_length_lookup_2.
  - by rewrite length_insert.
  - intros j x y Hx Hy. destruct (decide (j = Z.to_nat i)) as [->|].
    + rewrite list_lookup_insert_eq in Hy by (eapply lookup_lt_Some; eauto). simplify_eq. apply Hg.
    + rewrite list_lookup_insert_ne in Hy by done. simplify_eq. apply upto_refl.
Qed.

(** *** Pictures *)

(** A format as [pitcher_get_pix_fmt_info] leaves it. *)
Record laid_out (f : pix_fmt_info) (d : pixel_format_desc) (alignment : Z) : Prop := {
  lo_width : 0 < i_width f ≤ 2 ^ 14;
  lo_height : 0 < i_height f ≤ 2 ^ 14;
  lo_desc : i_desc f = Some d;
  lo_num : i_num_planes f = fd_num_planes d;
  lo_planes : ∀ i, 0 ≤ i < fd_num_planes d →
    ∃ p, nthz (i_planes f) i = Some p ∧ plane_fits d (i_width f) (i_height f) alignment i p
}.

Lemma ALIGN_chroma_bounds x s : 0 ≤ s ≤ 1 → 0 ≤ x < 2 ^ 31 →
  x ≤ ALIGN x (2 ^ s) ≤ x + 1 ∧ ALIGN x (2 ^ s) mod 2 ^ s = 0.
Proof.
  intros Hs Hx. assert (s = 0 ∨ s = 1) as [-> | ->] by lia;
    (destruct (ALIGN_bounds x (2 ^ 0)) as [B0 M0]; [lia..|]); (destruct (ALIGN_bounds x (2 ^ 1)) as [B1 M1]; [lia..|]); lia.
Qed.

Lemma ALIGN_chroma_mono x y s : 0 ≤ s ≤ 1 → 0 ≤ x ≤ y → y < 2 ^ 31 → ALIGN x (2 ^ s) ≤ ALIGN y (2 ^ s).
Proof.
  intros Hs Hx Hy. destruct (ALIGN_chroma_bounds y s Hs) as [B M]; [lia|].
  apply (ALIGN_chroma x (2 ^ s)); [done|lia|lia|done|apply pow2_pos; lia|by intros ->].
Qed.

(** What is copied of a plane fits into its lines. *)
Lemma copy_fits d width height al i p W H : desc_ok d → even_tile d = true → 0 ≤ i < fd_num_planes d →
  0 < width ≤ 2 ^ 14 → 0 < height ≤ 2 ^ 14 → plane_fits d width height al i p → 0 ≤ W ≤ width → 0 ≤ H ≤ height →
  let w := Z.shiftr (ALIGN W (2 ^ fd_log2_chroma_w d)) (sub_w d i) in
  let h := Z.shiftr (ALIGN H (2 ^ fd_log2_chroma_h d)) (sub_h d i) in
  0 ≤ Z.shiftr (ALIGN (u32 (w * bpp d i)) 8) 3 ≤ pi_line p ∧ 0 ≤ h ∧ h * pi_line p ≤ pi_size p.
Proof.
  intros Hd He Hi Hw Hh (wp & hp & Hsz & _ & _ & Hl & _ & Hhp & Hr) HW HH w h.
  destruct (Hr He) as [Rw Rh]. pose proof (bpp_bounds d i Hd) as Hb. pose proof Hd as [].
  assert (Hsw : 0 ≤ sub_w d i ≤ 1) by (unfold sub_w; destruct (i =? 0); lia).
  assert (Hsh : 0 ≤ sub_h d i ≤ 1) by (unfold sub_h; destruct (i =? 0); lia).
  pose proof (ALIGN_chroma_mono W width _ dk_chroma_w0 HW ltac:(lia)) as Mw.
  pose proof (ALIGN_chroma_mono H height _ dk_chroma_h0 HH ltac:(lia)) as Mh.
  destruct (ALIGN_chroma_bounds W _ dk_chroma_w0) as [Bw _]; [lia|].
  destruct (ALIGN_chroma_bounds H _ dk_chroma_h0) as [Bh _]; [lia|].
  assert (Ew : 0 ≤ w ≤ 2 ^ 14 + 2 ∧ w ≤ wp).
  { unfold w. rewrite Z.shiftr_div_pow2 by lia. pose proof (pow2_pos (sub_w d i) ltac:(lia)).
    split_and!; [apply Z.div_pos; lia|apply Z.div_le_upper_bound; nia|apply Z.div_le_upper_bound; lia]. }
  assert (Eh : 0 ≤ h ∧ h ≤ hp).
  { unfold h. rewrite Z.shiftr_div_pow2 by lia. pose proof (pow2_pos (sub_h d i) ltac:(lia)).
    split; [apply Z.div_pos; lia|apply Z.div_le_upper_bound; lia]. }
  assert (Hb64 : bpp d i ≤ 64) by (destruct (_ =? 1); lia).
  rewrite u32_small by nia. destruct (ALIGN_bounds (w * bpp d i) 8) as [B M]; [nia|lia|nia|].
  rewrite Z.shiftr_div_pow2 by lia. change (2 ^ 3) with 8.
  assert (Hline : 0 ≤ ALIGN (w * bpp d i) 8 / 8 ≤ pi_line p).
  { split; [apply Z.div_pos; nia|]. revert Hl. destruct (Z.eqb_spec (bpp d i) 0) as [E0|E0]; intros Hl.
    - rewrite E0, Z.mul_0_r, ALIGN_id by done. change (0 / 8) with 0. lia.
    - assert (w * bpp d i ≤ 8 * pi_line p) by nia. dlia. }
  split_and!; try lia. nia.
Qed.

Section copy.
Context (src dst : pitcher_buffer) (fs fd : pix_fmt_info) (d : pixel_format_desc) (als ald : Z) (A B : Z → Z).
Context (Hfs : pb_format src = Some fs) (Hfd : pb_format dst = Some fd).
Context (Hd : desc_ok d) (He : even_tile d = true).
Context (Ls : laid_out fs d als) (Ld : laid_out fd d ald).
Context (Hcrop : ∀ cw ch, pb_crop src = Some (cw, ch) → 0 ≤ cw ≤ i_width fs ∧ 0 ≤ ch ≤ i_height fs).
Context (HA : has_planes src (fd_num_planes d) A) (HB : has_planes dst (fd_num_planes d) B).

Definition plane (f : pix_fmt_info) (i : Z) : pix_plane_info := 
  match nthz (i_planes f) i with Some p => p | None => PlaneInfo 0 0 end.

Lemma copy_size_fits i : 0 ≤ i < fd_num_planes d →
  let '(n, h) := copy_size src fs fd d i in
  0 ≤ n ≤ pi_line (plane fs i) ∧ n ≤ pi_line (plane fd i) ∧ 0 ≤ h ∧
  h * pi_line (plane fs i) ≤ pi_size (plane fs i) ∧ h * pi_line (plane fd i) ≤ pi_size (plane fd i).
Proof.
  intros Hi. destruct (lo_planes _ _ _ Ls i Hi) as (ps & Eps & Fs). destruct (lo_planes _ _ _ Ld i Hi) as (pd & Epd & Fd).
  unfold plane. rewrite Eps, Epd. pose proof (lo_width _ _ _ Ls). pose proof (lo_width _ _ _ Ld).
  pose proof (lo_height _ _ _ Ls). pose proof (lo_height _ _ _ Ld).
  assert (Hwh : ∃ W H, 0 ≤ W ≤ i_width fs ∧ 0 ≤ H ≤ i_height fs ∧ match pb_crop src with
    | Some (cw, ch) => if negb (cw =? 0) && negb (ch =? 0) then (cw, ch) else (i_width fs, i_height fs)
    | None => (i_width fs, i_height fs) end = (W, H)).
  { destruct (pb_crop src) as [[cw ch]|]; [|exists (i_width fs), (i_height fs); split_and!; (done || lia)].
    destruct (Hcrop cw ch eq_refl). destruct (_ && _); [by exists cw, ch|exists (i_width fs), (i_height fs); split_and!; (done || lia)]. }
  destruct Hwh as (W & H' & HW & HH & E). unfold copy_size. rewrite E, !min_Zmin.
  pose proof (dk_chroma_w d Hd). pose proof (dk_chroma_h d Hd).
  rewrite !Z.shiftl_1_l.
  pose proof (copy_fits d (i_width fs) (i_height fs) als i ps (Z.min W (i_width fd)) (Z.min H' (i_height fd)) Hd He Hi
    ltac:(lia) ltac:(lia) Fs ltac:(lia) ltac:(lia)) as Fs'.
  pose proof (copy_fits d (i_width fd) (i_height fd) ald i pd (Z.min W (i_width fd)) (Z.min H' (i_height fd)) Hd He Hi
    ltac:(lia) ltac:(lia) Fd ltac:(lia) ltac:(lia)) as Fd'.
  cbn zeta in Fs', Fd'. unfold sub_w, sub_h in Fs', Fd'. revert Fs' Fd'.
  destruct (i =? 0); cbn [negb]; rewrite ?Z.shiftr_0_r; intros Fs' Fd'; cbv iota beta zeta; lia.
Qed.

(** The area of a plane. *)
Definition area (f : pix_fmt_info) (X : Z → Z) (i : Z) (a : Z) : Prop := X i ≤ a < X i + pi_size (plane f i).

Context (m : bmem).
Context (HmA : ∀ i a, 0 ≤ i < fd_num_planes d → area fs A i a → is_Some (m !! a)).
Context (HmB : ∀ i a, 0 ≤ i < fd_num_planes d → area fd B i a → is_Some (m !! a)).
Context (Hapart : ∀ i j, 0 ≤ i < fd_num_planes d → 0 ≤ j < fd_num_planes d →
  apart (B i) (pi_size (plane fd i)) (A j) (pi_size (plane fs j))).
Context (HBapart : ∀ i j, 0 ≤ i < fd_num_planes d → 0 ≤ j < fd_num_planes d → i ≠ j →
  apart (B i) (pi_size (plane fd i)) (B j) (pi_size (plane fd j))).

(** The first [k] planes of the picture have been copied. *)
Record copied (k : Z) (m' : bmem) : Prop := {
  co_in : ∀ i y x, 0 ≤ i < k → 0 ≤ y < snd (copy_size src fs fd d i) → 0 ≤ x < fst (copy_size src fs fd d i) →
    m' !! (B i + y * pi_line (plane fd i) + x) = m !! (A i + y * pi_line (plane fs i) + x);
  co_out : ∀ a, (∀ i, 0 ≤ i < k → ¬ area fd B i a) → m' !! a = m !! a;
  co_mapped : ∀ a, is_Some (m !! a) → is_Some (m' !! a)
}.

Lemma copy_plane_ok i c m1 : 0 ≤ i < fd_num_planes d → same_planes dst c → copied i m1 →
  ∃ c' m2, copy_plane src fs fd d i c m1 = Done (c', m2) ∧ same_planes dst c' ∧ copied (i + 1) m2.
Proof.
  intros Hi Hc [Hin Hout Hmap]. destruct (HA i Hi) as (sp & Esp & Hsp).
  destruct (has_planes_same _ _ _ _ Hc HB i Hi) as (dp & Edp & Hdp).
  pose proof (copy_size_fits i Hi) as Hfit. unfold copy_plane. rewrite Esp, Edp. cbn [mbind outcome_bind obind].
  specialize (Hin). destruct (copy_size src fs fd d i) as [n h] eqn:Ecs. destruct Hfit as (Hn & Hnd & Hh & Hhs & Hhd).
  cbn [of_option]. unfold plane_stride, loadz.
  destruct (lo_planes _ _ _ Ls i Hi) as (ps & Eps & _). destruct (lo_planes _ _ _ Ld i Hi) as (pd & Epd & _).
  assert (Ps : plane fs i = ps) by (unfold plane; by rewrite Eps). assert (Pd : plane fd i = pd) by (unfold plane; by rewrite Epd).
  rewrite Eps, Epd. cbn [of_option obind mbind outcome_bind]. rewrite Hsp, Hdp. rewrite Ps, Pd in *.
  assert (Hhn : 0 ≤ h * n) by nia.
  pose proof (Hapart i i Hi Hi) as Hii. rewrite Ps, Pd in Hii.
  destruct (copy_lines_ok (Z.to_nat h) (B i) (A i) (pi_line pd) (pi_line ps) n 0 m1) as (bu & m2 & E & [Li Lo]);
    rewrite ?Z2Nat.id in * by lia; [lia|lia|unfold apart in *; lia| | |].
  { intros x Hx. apply Hmap, (HmB i); [done|]. unfold area. rewrite Pd. lia. }
  { intros x Hx. apply Hmap, (HmA i); [done|]. unfold area. rewrite Ps. lia. }
  rewrite E. cbn [obind mbind outcome_bind].
  assert (Hcnt : 0 < pb_count c) by (eapply has_planes_nonempty; [|eapply has_planes_same; [exact Hc|exact HB]]; lia).
  assert (Hu : ∃ c', (if i <? pb_count c then upd_plane c i (set_bytesused bu)
     else upd_plane c (pb_count c - 1) (λ p, set_bytesused (u64 (pl_bytesused p + bu)) p)) = Done c' ∧ same_planes c c').
  { destruct (Z.ltb_spec i (pb_count c)); apply upd_plane_ok; try lia; intros p; eexists; reflexivity. }
  destruct Hu as (c' & -> & Hc'). cbn [obind mbind outcome_bind]. exists c', m2. split; [done|].
  split; [by eapply same_planes_trans|].
  (* The source has not been written to, nor have the other planes. *)
  assert (Hsrc : ∀ j a, 0 ≤ j < fd_num_planes d → area fs A j a → m1 !! a = m !! a).
  { intros j a Hj Ha. apply Hout. intros k Hk Hka. pose proof (Hapart k j ltac:(lia) Hj). unfold area, apart in *. lia. }
  assert (Hline : ∀ a y x, 0 ≤ y < h → 0 ≤ x < n → a = B i + y * pi_line pd + x → area fd B i a).
  { intros a y x Hy Hx ->. unfold area. rewrite Pd. nia. }
  split.
  - intros j y x Hj Hy Hx. destruct (decide (j = i)) as [->|].
    + rewrite Ecs in Hy, Hx. cbn in Hy, Hx. rewrite Ps, Pd, Li by done. apply (Hsrc i); [done|]. unfold area. rewrite Ps. nia.
    + rewrite Lo; [apply Hin; (done || lia)|]. intros y' x' Hy' Hx' Ea.
      pose proof (copy_size_fits j ltac:(lia)) as Hfj. destruct (copy_size src fs fd d j) as [nj hj]. cbn in Hy, Hx.
      pose proof (HBapart i j Hi ltac:(lia) ltac:(lia)) as Hij. pose proof (Hline _ y' x' Hy' Hx' Ea) as Har.
      unfold area, apart in *. nia.
  - intros a Ha. rewrite Lo; [apply Hout; intros j Hj; apply Ha; lia|].
    intros y x Hy Hx Ea. apply (Ha i); [lia|]. by eapply Hline.
  - intros a Ha. apply Hmap in Ha. eapply (lines_copied_mapped h n (B i) (pi_line pd) (A i) (pi_line ps) m1); [by split| |done].
    intros y x Hy Hx. apply Hmap, (HmA i); [done|]. unfold area. rewrite Ps. nia.
Qed.

Lemma copy_planes_ok n : ∀ i c m1, i + Z.of_nat n = fd_num_planes d → 0 ≤ i → same_planes dst c → copied i m1 →
  ∃ c' m2, copy_planes n src fs fd d i c m1 = Done (c', m2) ∧ same_planes dst c' ∧ copied (fd_num_planes d) m2.
Proof.
  induction n as [|n IH]; intros i c m1 Hi Hi0 Hc Hm; cbn [copy_planes].
  { exists c, m1. split; [done|]. split; [done|]. by replace (fd_num_planes d) with i by lia. }
  destruct (copy_plane_ok i c m1) as (c1 & m2 & E & Hc1 & Hm2); [lia|done..|].
  rewrite E. cbn [obind mbind outcome_bind]. apply IH; (done || lia).
Qed.

(** Copying a raw picture.  When source and destination have the layouts of
    [pitcher_get_pix_fmt_info] for one untiled format (the dimensions may
    differ, and a crop size may be set), their planes are mapped and nothing of
    the destination overlaps the source or another plane, then
    [pitcher_copy_buffer_data] succeeds: in each plane the rows and bytes common
    to both pictures are those of the source, and outside the destination's
    planes memory is unchanged, whether a buffer has one plane in memory for
    all or one for each. *)
Theorem copy_picture :
  i_format fs = i_format fd → i_tile_ws fs = 0 → i_tile_hs fs = 0 → i_format fs < PIX_FMT_COMPRESSED →
  ∃ dst' m', pitcher_copy_buffer_data (Some src) (Some dst) m = Done (RET_OK, Some dst', m') ∧
    same_planes dst dst' ∧ copied (fd_num_planes d) m'.
Proof.
  intros Hf Htw Hth Hc. unfold pitcher_copy_buffer_data. rewrite Hfs, Hfd, Hf, Z.eqb_refl, Htw, Hth. cbn [negb orb Z.eqb].
  rewrite (proj2 (Z.leb_gt _ _)) by lia. rewrite (lo_desc _ _ _ Ls). cbn [of_option]. rewrite bind_done, (lo_num _ _ _ Ls).
  pose proof (dk_planes d Hd).
  destruct (copy_planes_ok (Z.to_nat (fd_num_planes d)) 0 dst m) as (c & m' & E & Hs & Hco); [lia|lia|apply same_planes_refl| |].
  { split; [intros; lia|done|done]. }
  rewrite E. cbn [obind mbind outcome_bind]. by exists c, m'.
Qed.
End copy.

(** ** Witnesses and findings *)

(** <linux/videodev2.h> as documented. *)
Definition fourcc_le (a b c d : ascii) : Z :=
  let n x := Z.of_nat (nat_of_ascii x) in n a + 256 * (n b + 256 * (n c + 256 * n d)).

#[local] Instance videodev2_example : Videodev2 := {|
  v4l2_fourcc := fourcc_le; v4l2_fourcc_be := λ a b c d, fourcc_le a b c d + 2 ^ 31;
  V4L2_PIX_FMT_YUV420 := fourcc_le "Y" "U" "1" "2";
  V4L2_PIX_FMT_YUV420M := fourcc_le "Y" "M" "1" "2";
  V4L2_PIX_FMT_NV12 := fourcc_le "N" "V" "1" "2";
  V4L2_PIX_FMT_NV12M := fourcc_le "N" "M" "1" "2";
  V4L2_PIX_FMT_NV21 := fourcc_le "N" "V" "2" "1";
  V4L2_PIX_FMT_NV21M := fourcc_le "N" "M" "2" "1";
  V4L2_PIX_FMT_NV16 := fourcc_le "N" "V" "1" "6";
  V4L2_PIX_FMT_NV16M := fourcc_le "N" "M" "1" "6";
  V4L2_PIX_FMT_YUYV := fourcc_le "Y" "U" "Y" "V";
  V4L2_PIX_FMT_YUV24 := fourcc_le "Y" "U" "V" "3";
  V4L2_PIX_FMT_RGB24 := fourcc_le "R" "G" "B" "3";
  V4L2_PIX_FMT_RGB565 := fourcc_le "R" "G" "B" "P";
  V4L2_PIX_FMT_RGB555 := fourcc_le "R" "G" "B" "O";
  V4L2_PIX_FMT_RGBA32 := fourcc_le "A" "B" "2" "4";
  V4L2_PIX_FMT_BGR24 := fourcc_le "B" "G" "R" "3";
  V4L2_PIX_FMT_BGR32 := fourcc_le "B" "G" "R" "4";
  V4L2_PIX_FMT_ARGB32 := fourcc_le "B" "A" "2" "4";
  V4L2_PIX_FMT_RGBX32 := fourcc_le "X" "B" "2" "4";
  V4L2_PIX_FMT_ABGR32 := fourcc_le "A" "R" "2" "4";
  V4L2_PIX_FMT_GREY := fourcc_le "G" "R" "E" "Y";
  V4L2_PIX_FMT_Y16 := fourcc_le "Y" "1" "6" " ";
  V4L2_PIX_FMT_H264 := fourcc_le "H" "2" "6" "4";
  V4L2_PIX_FMT_HEVC := fourcc_le "H" "E" "V" "C";
  V4L2_PIX_FMT_VP8 := fourcc_le "V" "P" "8" "0";
  V4L2_PIX_FMT_VP9 := fourcc_le "V" "P" "9" "0";
  V4L2_PIX_FMT_VC1_ANNEX_L := fourcc_le "V" "C" "1" "L";
  V4L2_PIX_FMT_VC1_ANNEX_G := fourcc_le "V" "C" "1" "G";
  V4L2_PIX_FMT_XVID := fourcc_le "X" "V" "I" "D";
  V4L2_PIX_FMT_MPEG4 := fourcc_le "M" "P" "G" "4";
  V4L2_PIX_FMT_MPEG2 := fourcc_le "M" "P" "G" "2";
  V4L2_PIX_FMT_H263 := fourcc_le "H" "2" "6" "3";
  V4L2_PIX_FMT_JPEG := fourcc_le "J" "P" "E" "G"
|}.

Definition picture_example (format width height : Z) : pix_fmt_info :=
  FmtInfo format None width height 0 0 0 (replicate 8 (PlaneInfo 0 0)) 0 0.

Lemma pix_fmt_layout_witness :
  ∃ d info', pitcher_get_pix_fmt_info (Some (picture_example PIX_FMT_NV12 33 17)) 16 = Done (RET_OK, Some info') ∧
    i_num_planes info' = 2 ∧
    (∀ i, 0 ≤ i < i_num_planes info' → ∃ p, nthz (i_planes info') i = Some p ∧ plane_fits d 33 17 16 i p) ∧
    even_tile d = true.
Proof.
  pose proof (pix_fmt_layout (picture_example PIX_FMT_NV12 33 17) 16 ltac:(done) ltac:(done) ltac:(done)
    ltac:(done) ltac:(done) ltac:(lia) eq_refl) as H.
  replace ((PIX_FMT_NB <=? _) || _ || _) with false in H by reflexivity. cbv iota in H.
  destruct H as (d & info' & E & _ & _ & Hn & _ & Hp & _ & _ & He). exists d, info'. split_and!; [done|done|done|by apply He].
Defined.

Lemma format_lookup_roundtrip_witness :
  pitcher_get_format_by_name (Some "NV12"%string) = PIX_FMT_NV12 ∧
  pitcher_get_format_by_fourcc (fourcc_le "N" "M" "1" "2") = PIX_FMT_NV12.
Proof.
  destruct format_lookup_roundtrip as (H1 & H2 & _ & _). split.
  - by eapply (H1 PIX_FMT_NV12); [reflexivity|].
  - eapply (H2 ltac:(apply (bool_decide_unpack _); vm_compute; exact I) PIX_FMT_NV12); [reflexivity|done|by right].
Defined.

(** Two 4x2 pictures of format nv12, at 1000 and 2000, each in one piece. *)
Definition nv12_desc : pixel_format_desc := FmtDesc "nv12" (fourcc_le "N" "V" "1" "2") (fourcc_le "N" "M" "1" "2") 2 1 1
  [(8, 8); (16, 8)] 0 0.
Definition nv12_4x2 : pix_fmt_info :=
  FmtInfo PIX_FMT_NV12 (Some nv12_desc) 4 2 0 12 2 [PlaneInfo 4 8; PlaneInfo 4 4] 0 0.
Definition buffer_at (a : Z) : pitcher_buffer := PBuf [Plane (Some a) 12 0 12 0 (-1)] (Some nv12_4x2) None.
Definition memory_example : bmem := gset_to_gmap 7 (list_to_set (seqZ 1000 12 ++ seqZ 2000 12)).
Definition plane_at (a i : Z) : Z := a + 8 * i.

Lemma nv12_laid_out : laid_out nv12_4x2 nv12_desc 1.
Proof.
  split; cbn; try (done || lia). intros i Hi. assert (i = 0 ∨ i = 1) as [-> | ->] by lia.
  - eexists. split; [reflexivity|]. exists 4, 2. by vm_compute.
  - eexists. split; [reflexivity|]. exists 2, 1. by vm_compute.
Qed.

Lemma buffer_at_planes a : has_planes (buffer_at a) 2 (plane_at a).
Proof.
  intros i Hi. assert (i = 0 ∨ i = 1) as [-> | ->] by lia; eexists; (split; [reflexivity|]); cbn; unfold plane_at; f_equal; lia.
Qed.

Lemma memory_example_mapped a : 1000 ≤ a < 1012 ∨ 2000 ≤ a < 2012 → is_Some (memory_example !! a).
Proof.
  intros Ha. exists 7. apply lookup_gset_to_gmap_Some. split; [|done].
  rewrite elem_of_list_to_set, elem_of_app, !elem_of_seqZ. lia.
Qed.

Lemma copy_picture_witness :
  ∃ dst' m', pitcher_copy_buffer_data (Some (buffer_at 1000)) (Some (buffer_at 2000)) memory_example
      = Done (RET_OK, Some dst', m') ∧
    m' !! 2000 = memory_example !! 1000.
Proof.
  assert (Hp : ∀ i, plane nv12_4x2 i = if i =? 0 then PlaneInfo 4 8 else if i =? 1 then PlaneInfo 4 4 else PlaneInfo 0 0).
  { intros i. unfold plane, nthz. destruct (Z.leb_spec 0 i); [|by destruct (Z.eqb_spec i 0); [lia|destruct (Z.eqb_spec i 1); [lia|]]].
    destruct (Z.eqb_spec i 0) as [->|]; [done|]. destruct (Z.eqb_spec i 1) as [->|]; [done|].
    rewrite lookup_ge_None_2; [done|cbn; lia]. }
  destruct (copy_picture (buffer_at 1000) (buffer_at 2000) nv12_4x2 nv12_4x2 nv12_desc 1 1 (plane_at 1000) (plane_at 2000)
    eq_refl eq_refl) with (m := memory_example) as (dst' & m' & E & _ & Hc); try done.
  - split; cbn; try lia. { repeat constructor; cbn; lia. } { right. by vm_compute. }
  - apply nv12_laid_out.
  - apply nv12_laid_out.
  - apply buffer_at_planes.
  - apply buffer_at_planes.
  - intros i a Hi Ha. unfold area, plane_at in Ha. rewrite Hp in Ha. cbn in Hi. apply memory_example_mapped.
    assert (i = 0 ∨ i = 1) as [-> | ->] by lia; cbn in Ha; lia.
  - intros i a Hi Ha. unfold area, plane_at in Ha. rewrite Hp in Ha. cbn in Hi. apply memory_example_mapped.
    assert (i = 0 ∨ i = 1) as [-> | ->] by lia; cbn in Ha; lia.
  - intros i j Hi Hj. unfold apart, plane_at. rewrite !Hp. cbn in Hi, Hj.
    assert (i = 0 ∨ i = 1) as [-> | ->] by lia; assert (j = 0 ∨ j = 1) as [-> | ->] by lia; cbn; lia.
  - intros i j Hi Hj Hij. unfold apart, plane_at. rewrite !Hp. cbn in Hi, Hj.
    assert (i = 0 ∨ i = 1) as [-> | ->] by lia; assert (j = 0 ∨ j = 1) as [-> | ->] by lia; cbn; lia.
  - exists dst', m'. split; [exact E|]. apply (co_in _ _ _ _ _ _ _ _ _ Hc 0 0 0); vm_compute; (done || (split; done)).
Defined.

(** The first format without a second code answers to code 0. *)
Lemma fourcc_zero_is_yuyv : pitcher_get_format_by_fourcc 0 = PIX_FMT_YUYV.
Proof. reflexivity. Qed.

(** The chroma lines of dtrc10 lose a sample when the width is 15. *)
Lemma dtrc10_chroma_short :
  ∃ info', pitcher_get_pix_fmt_info (Some (picture_example PIX_FMT_DTRC10 15 16)) 1 = Done (RET_OK, Some info') ∧
    8 * pi_line (plane info' 1) < 8 * 20.
Proof. eexists. split; [reflexivity|]. done. Qed.

(** A copy between two pictures of format rfc or rfcx copies no byte. *)
Lemma rfc_copies_nothing src fs fd f d i :
  f = PIX_FMT_RFC ∨ f = PIX_FMT_RFCX → pix_fmt_descriptors f = Some d → fst (copy_size src fs fd d i) = 0.
Proof.
  intros Hf Hd. assert (Hb : bpp d i = 0) by (destruct Hf as [-> | ->]; injection Hd as <-; unfold bpp, nthz; by destruct (0 <=? i)).
  unfold copy_size. rewrite Hb. repeat case_match; simplify_eq; cbn [fst]; by rewrite Z.mul_0_r.
Qed.
