(* ===== verification/Convert.v ===== *)
(** * convert.c: pictures between pixel formats in software

    The conversions work on the bytes of two buffers ([bmem], Pixfmt).  Each
    function of the source is a definition here, with its loops as [for_up];
    where two functions differ only in the width of a sample, [n] is the number
    of its bytes.  Samples of 16 bits are stored low byte first, as on the
    machines the program runs on.  The contexts of the conversions, and the
    choice of the steps for a pair of formats, are in Cvrt. *)

From S2P Require Import Prelude Misc Buffer Pixfmt.
Open Scope Z_scope.

(* C: pitcher/convert.c CVRT_MID_FMT16 24-24 *)
Definition CVRT_MID_FMT16 : Z := PIX_FMT_P016.

(** The intermediate format for samples of eight bits, and of more. *)
Definition mid_fmt (sixteen : bool) : Z := if sixteen then CVRT_MID_FMT16 else PIX_FMT_NV12.

(** ** Loops and samples *)

Fixpoint for_up (n : nat) (i : Z) (body : Z → bmem → outcome bmem) (m : bmem) : outcome bmem :=
  match n with
  | O => Done m
  | S n => m ← body i m; for_up n (i + 1) body m
  end.

(** [for (i = 0; i < n; i++)] *)
Definition for_ (n : Z) (body : Z → bmem → outcome bmem) (m : bmem) : outcome bmem := for_up (Z.to_nat n) 0 body m.

Fixpoint load_le (n : nat) (a : Z) (m : bmem) : outcome Z :=
  match n with
  | O => Done 0
  | S n => b ← read_at m a; r ← load_le n (a + 1) m; Done (b + 256 * r)
  end.

Fixpoint store_le (n : nat) (a v : Z) (m : bmem) : outcome bmem :=
  match n with
  | O => Done m
  | S n => m ← write_at m a (v mod 256); store_le n (a + 1) (v / 256) m
  end.

(** [p[i]] and [p[i] = v] for samples of [n] bytes; what is stored is cut to
    the width of the sample. *)
Definition ld (n : nat) (p : option Z) (i : Z) (m : bmem) : outcome Z :=
  a ← of_option p; load_le n (a + Z.of_nat n * i) m.
Definition st (n : nat) (p : option Z) (i v : Z) (m : bmem) : outcome bmem :=
  a ← of_option p; store_le n (a + Z.of_nat n * i) v m.

Definition format_of (b : option pitcher_buffer) : outcome pix_fmt_info :=
  b ← of_option b; of_option (pb_format b).

(** The plane where the source does not look at the result: without one the
    variable is not set. *)
Definition the_plane (b : option pitcher_buffer) (i : Z) : outcome pitcher_buf_ref :=
  '(_, p) ← pitcher_get_buffer_plane b i; of_option p.

Definition line_of (b : option pitcher_buffer) (i : Z) : outcome Z := f ← format_of b; plane_stride f i.

Definition quotient (x d : Z) : outcome Z := _ ← defined (negb (d =? 0)); Done (x / d).

(** ** Tiled pictures *)

(* C: pitcher/convert.c unpack_tile_2_nv12 *)
Fixpoint unpack_tile_2_nv12_lines (y : nat) (src : option Z) (tw x : Z) (dst : option Z) (stride offset : Z) (m : bmem)
    : outcome bmem :=
  match y with
  | O => Done m
  | S y =>
      d ← ptr_add dst offset;
      m ← memcpy d src x m;
      src ← ptr_add src tw;
      dst ← ptr_add dst stride;
      unpack_tile_2_nv12_lines y src tw x dst stride offset m
  end.
Definition unpack_tile_2_nv12 (src : option Z) (tw x y : Z) (dst : option Z) (stride offset : Z) (m : bmem) : outcome bmem :=
  unpack_tile_2_nv12_lines (Z.to_nat y) src tw x dst stride offset m.

(** The tiles of one row; [fuel] bounds the number of columns. *)
(* C: pitcher/convert.c swc_unpack_tile_2_nv12 61-65 *)
Fixpoint unpack_tile_row (fuel : nat) (src : option Z) (tw ts w len_y : Z) (dst : option Z) (stride offset x i : Z)
    (m : bmem) : outcome bmem :=
  if x <? w then
    match fuel with
    | O => NoFuel
    | S fuel =>
        let len_x := min tw (u32 (w - x)) in
        s ← ptr_add src (u32 (ts * i));
        m ← unpack_tile_2_nv12 s tw len_x len_y dst stride (u32 (offset + u32 (tw * i))) m;
        unpack_tile_row fuel src tw ts w len_y dst stride offset (u32 (x + len_x)) (u32 (i + 1)) m
    end
  else Done m.

(* C: pitcher/convert.c swc_unpack_tile_2_nv12 58-68 *)
Fixpoint unpack_tile_rows (nty : nat) (src : option Z) (tw th w h ntx : Z) (dst : option Z) (stride offset j : Z)
    (m : bmem) : outcome bmem :=
  match nty with
  | O => Done m
  | S nty =>
      let len_y := min th (u32 (h - u32 (th * j))) in
      m ← unpack_tile_row (Z.to_nat w) src tw (u32 (tw * th)) w len_y dst stride offset 0 0 m;
      src ← ptr_add src (u32 (ntx * u32 (tw * th)));
      dst ← ptr_add dst (u32 (stride * th));
      unpack_tile_rows nty src tw th w h ntx dst stride offset (j + 1) m
  end.

(* C: pitcher/convert.c swc_unpack_tile_2_nv12 *)
Definition swc_unpack_tile_2_nv12 (src : option Z) (tw th w h ntx nty : Z) (dst : option Z) (stride offset : Z)
    (m : bmem) : outcome bmem :=
  unpack_tile_rows (Z.to_nat nty) src tw th w h ntx dst stride offset 0 m.

(* C: pitcher/convert.c swc_unpack_tiled_nv12 *)
Definition swc_unpack_tiled_nv12 (src dst : option pitcher_buffer) (m : bmem) : outcome (Z * bmem) :=
  f ← format_of src;
  let tw := i_tile_ws f in
  let th := i_tile_hs f in
  let width := i_width f in
  let height := i_height f in
  let field i h m :=
    splane ← the_plane src i;
    dplane ← the_plane dst i;
    sline ← line_of src i;
    ntx ← quotient sline tw;
    _ ← defined (negb (th =? 0));
    dline ← line_of dst i;
    m ← swc_unpack_tile_2_nv12 (pl_virt splane) tw th width h ntx (DIV_ROUND_UP h th) (pl_virt dplane)
          (u32 (dline * 2)) 0 m;
    second ← ptr_add (pl_virt splane) (pl_size splane / 2);
    swc_unpack_tile_2_nv12 second tw th width h ntx (DIV_ROUND_UP h th) (pl_virt dplane)
      (u32 (dline * 2)) width m in
  let frame i h m :=
    splane ← the_plane src i;
    dplane ← the_plane dst i;
    sline ← line_of src i;
    ntx ← quotient sline tw;
    _ ← defined (negb (th =? 0));
    dline ← line_of dst i;
    swc_unpack_tile_2_nv12 (pl_virt splane) tw th width h ntx (DIV_ROUND_UP h th) (pl_virt dplane) dline 0 m in
  if negb (i_interlaced f =? 0) then
    let h := height / 2 in
    m ← field 0 h m;
    m ← field 1 (DIV_ROUND_UP h 2) m;
    Done (0, m)
  else
    m ← frame 0 height m;
    m ← frame 1 (DIV_ROUND_UP height 2) m;
    Done (0, m).

(** A shift by at least the width of [int], or by less than 0, is undefined. *)
Definition shl (v s : Z) : outcome Z := _ ← defined ((0 <=? s) && (s <? 32)); Done (Z.shiftl v s).
Definition shr (v s : Z) : outcome Z := _ ← defined ((0 <=? s) && (s <? 32)); Done (Z.shiftr v s).

(* C: pitcher/convert.c get_10BE_pos *)
Definition get_10BE_pos (x : Z) : outcome (Z * Z * Z * Z * Z * Z) :=
  let bit_index := s32 (u32 (10 * x)) in
  let pos0 := Z.quot bit_index 8 in
  let bits0 := 8 - Z.rem bit_index 8 in
  let bits1 := 10 - bits0 in
  let pos1 := pos0 + 1 in
  mask0 ← shl 1 bits0;
  mask1 ← shl 1 bits1;
  Done (pos0, pos1, bits0, bits1, u8 (mask0 - 1), u8 (mask1 - 1)).

(* C: pitcher/convert.c GET_U8_BITS 129-129 *)
Definition GET_U8_BITS (pdata : option Z) (mask shift : Z) (m : bmem) : outcome Z :=
  v ← ld 1 pdata 0 m; v ← shr v shift; Done (Z.land v mask).

(* C: pitcher/convert.c TILE_POS_TO_ADDR 130-130 *)
Definition TILE_POS_TO_ADDR (base : option Z) (offset ts tw y x : Z) : outcome (option Z) :=
  q ← quotient (u32 x) tw;
  p ← ptr_add base offset;
  ptr_add p (u32 (u32 (u32 (ts * q) + u32 (tw * y)) + u32 x mod tw)).

(** The sample of ten bits at position [x] of line [y] of a tiled plane. *)
(* C: pitcher/convert.c swc_unpack_nv12_10be_8l128 177-181 *)
Definition get_10BE (base : option Z) (offset ts tw y x : Z) (m : bmem) : outcome Z :=
  '(pos0, pos1, bits0, bits1, mask0, mask1) ← get_10BE_pos x;
  pdata0 ← TILE_POS_TO_ADDR base offset ts tw y pos0;
  pdata1 ← TILE_POS_TO_ADDR base offset ts tw y pos1;
  a ← GET_U8_BITS pdata0 mask0 0 m;
  a ← shl a bits1;
  b ← GET_U8_BITS pdata1 mask1 (8 - bits1) m;
  Done (u16 (Z.lor a b)).

(* C: pitcher/convert.c swc_unpack_nv12_10be_8l128 *)
Definition swc_unpack_nv12_10be_8l128 (src dst : option pitcher_buffer) (m : bmem) : outcome (Z * bmem) :=
  f ← format_of src;
  let tw := i_tile_ws f in
  let th := i_tile_hs f in
  let ts := u32 (tw * th) in
  luma ← pitcher_get_frame_line_vaddr src 0 0;
  chroma ← pitcher_get_frame_line_vaddr src 1 0;
  line0 ← plane_stride f 0;
  line1 ← plane_stride f 1;
  m ← for_ (i_height f) (λ y m,
    py ← pitcher_get_frame_line_vaddr dst 0 y;
    uv ← pitcher_get_frame_line_vaddr dst 1 (y / 2);
    q0 ← quotient y th;
    q1 ← quotient (y / 2) th;
    let offset0 := u32 (q0 * u32 (line0 * th)) in
    let offset1 := u32 (q1 * u32 (line1 * th)) in
    for_ (i_width f) (λ x m,
      Y ← get_10BE luma offset0 ts tw (y mod th) x m;
      m ← st 2 py x (Z.shiftl Y 6) m;
      if (y mod 2 =? 0) && (x mod 2 =? 0) then
        U ← get_10BE chroma offset1 ts tw ((y / 2) mod th) x m;
        V ← get_10BE chroma offset1 ts tw ((y / 2) mod th) (u32 (x + 1)) m;
        m ← st 2 uv x (Z.shiftl U 6) m;
        st 2 uv (u32 (x + 1)) (Z.shiftl V 6) m
      else Done m) m) m;
  Done (0, m).

(** ** Planar and semi-planar pictures *)

(** The loops over the rows of luma and, for the first half of them, chroma. *)
Definition for_rows (f : pix_fmt_info) (luma chroma : Z → bmem → outcome bmem) (m : bmem) : outcome (Z * bmem) :=
  m ← for_ (i_height f) (λ y m,
    m ← luma y m;
    if y <? DIV_ROUND_UP (i_height f) 2 then chroma y m else Done m) m;
  Done (0, m).

(** [memcpy] of [n] bytes of row [y] of a plane. *)
Definition copy_row (src dst : option pitcher_buffer) (i n y : Z) (m : bmem) : outcome bmem :=
  psrc ← pitcher_get_frame_line_vaddr src i y;
  pdst ← pitcher_get_frame_line_vaddr dst i y;
  memcpy pdst psrc n m.

(** [pdst[x] = g(psrc[x])] for the first [w] samples of row [y] of a plane. *)
Definition map_row (n k : nat) (g : Z → Z) (src dst : option pitcher_buffer) (i w y : Z) (m : bmem) : outcome bmem :=
  psrc ← pitcher_get_frame_line_vaddr src i y;
  pdst ← pitcher_get_frame_line_vaddr dst i y;
  for_ w (λ x m, v ← ld n psrc x m; st k pdst x (g v) m) m.

(** [uv[x * 2] = g(pu[x]); uv[x * 2 + 1] = g(pv[x])] *)
Definition merge_row (n : nat) (g : Z → Z) (src dst : option pitcher_buffer) (w y : Z) (m : bmem) : outcome bmem :=
  pu ← pitcher_get_frame_line_vaddr src 1 y;
  pv ← pitcher_get_frame_line_vaddr src 2 y;
  uv ← pitcher_get_frame_line_vaddr dst 1 y;
  for_ (DIV_ROUND_UP w 2) (λ x m,
    u ← ld n pu x m;
    m ← st n uv (u32 (x * 2)) (g u) m;
    v ← ld n pv x m;
    st n uv (u32 (x * 2 + 1)) (g v) m) m.

(** [pu[x] = g(uv[x * 2]); pv[x] = g(uv[x * 2 + 1])] *)
Definition split_row (n : nat) (g : Z → Z) (src dst : option pitcher_buffer) (w y : Z) (m : bmem) : outcome bmem :=
  uv ← pitcher_get_frame_line_vaddr src 1 y;
  pu ← pitcher_get_frame_line_vaddr dst 1 y;
  pv ← pitcher_get_frame_line_vaddr dst 2 y;
  for_ (DIV_ROUND_UP w 2) (λ x m,
    u ← ld n uv (u32 (x * 2)) m;
    m ← st n pu x (g u) m;
    v ← ld n uv (u32 (x * 2 + 1)) m;
    st n pv x (g v) m) m.

(* C: pitcher/convert.c swc_unpack_i420 *)
Definition swc_unpack_i420 (src dst : option pitcher_buffer) (m : bmem) : outcome (Z * bmem) :=
  f ← format_of src;
  for_rows f (copy_row src dst 0 (i_width f)) (merge_row 1 id src dst (i_width f)) m.

(* C: pitcher/convert.c swc_pack_i420 *)
Definition swc_pack_i420 (src dst : option pitcher_buffer) (m : bmem) : outcome (Z * bmem) :=
  f ← format_of src;
  for_rows f (copy_row src dst 0 (i_width f)) (split_row 1 id src dst (i_width f)) m.

(* C: pitcher/convert.c swc_unpack_nv21 *)
Definition swc_unpack_nv21 (src dst : option pitcher_buffer) (m : bmem) : outcome (Z * bmem) :=
  f ← format_of src;
  for_rows f (copy_row src dst 0 (i_width f)) (λ y m,
    uv ← pitcher_get_frame_line_vaddr src 1 y;
    vu ← pitcher_get_frame_line_vaddr dst 1 y;
    for_ (DIV_ROUND_UP (i_width f) 2) (λ x m,
      v ← ld 1 uv (u32 (x * 2 + 1)) m;
      m ← st 1 vu (u32 (x * 2)) v m;
      u ← ld 1 uv (u32 (x * 2)) m;
      st 1 vu (u32 (x * 2 + 1)) u m) m) m.

(* C: pitcher/convert.c swc_pack_nv21 *)
Definition swc_pack_nv21 (src dst : option pitcher_buffer) (m : bmem) : outcome (Z * bmem) := swc_unpack_nv21 src dst m.

(** The chroma of a picture that has none. *)
Definition neutral_row (n : nat) (v : Z) (dst : option pitcher_buffer) (w y : Z) (m : bmem) : outcome bmem :=
  uv ← pitcher_get_frame_line_vaddr dst 1 y;
  for_ (DIV_ROUND_UP w 2) (λ x m,
    m ← st n uv (u32 (x * 2)) v m;
    st n uv (u32 (x * 2 + 1)) v m) m.

(* C: pitcher/convert.c swc_unpack_gray *)
Definition swc_unpack_gray (src dst : option pitcher_buffer) (m : bmem) : outcome (Z * bmem) :=
  f ← format_of src;
  for_rows f (copy_row src dst 0 (i_width f)) (neutral_row 1 128 dst (i_width f)) m.

(* C: pitcher/convert.c swc_pack_gray *)
Definition swc_pack_gray (src dst : option pitcher_buffer) (m : bmem) : outcome (Z * bmem) :=
  f ← format_of src;
  m ← for_ (i_height f) (copy_row src dst 0 (i_width f)) m;
  Done (0, m).

(** ** Packed pictures *)

(** Chroma is taken from the even rows. *)
(* C: pitcher/convert.c swc_unpack_yuyv 344-355 *)
Definition unpack_422 (n : nat) (src dst : option pitcher_buffer) (m : bmem) : outcome (Z * bmem) :=
  f ← format_of src;
  m ← for_ (i_height f) (λ y m,
    yuv ← pitcher_get_frame_line_vaddr src 0 y;
    py ← pitcher_get_frame_line_vaddr dst 0 y;
    uv ← (if y mod 2 =? 0 then pitcher_get_frame_line_vaddr dst 1 (y / 2) else Done None);
    for_ (i_width f) (λ x m,
      v ← ld n yuv (u32 (x * 2)) m;
      m ← st n py x v m;
      if y mod 2 =? 0 then v ← ld n yuv (u32 (x * 2 + 1)) m; st n uv x v m else Done m) m) m;
  Done (0, m).

(* C: pitcher/convert.c swc_pack_yuyv 368-377 *)
Definition pack_422 (n : nat) (src dst : option pitcher_buffer) (m : bmem) : outcome (Z * bmem) :=
  f ← format_of src;
  m ← for_ (i_height f) (λ y m,
    py ← pitcher_get_frame_line_vaddr src 0 y;
    uv ← pitcher_get_frame_line_vaddr src 1 (y / 2);
    yuv ← pitcher_get_frame_line_vaddr dst 0 y;
    for_ (i_width f) (λ x m,
      v ← ld n py x m;
      m ← st n yuv (u32 (x * 2)) v m;
      v ← ld n uv x m;
      st n yuv (u32 (x * 2 + 1)) v m) m) m;
  Done (0, m).

(* C: pitcher/convert.c swc_unpack_yuv24 393-405 *)
Definition unpack_444 (n : nat) (src dst : option pitcher_buffer) (m : bmem) : outcome (Z * bmem) :=
  f ← format_of src;
  m ← for_ (i_height f) (λ y m,
    yuv ← pitcher_get_frame_line_vaddr src 0 y;
    py ← pitcher_get_frame_line_vaddr dst 0 y;
    uv ← pitcher_get_frame_line_vaddr dst 1 (y / 2);
    for_ (i_width f) (λ x m,
      v ← ld n yuv (u32 (x * 3)) m;
      m ← st n py x v m;
      if (y mod 2 =? 0) && (x mod 2 =? 0) then
        u ← ld n yuv (u32 (x * 3 + 1)) m;
        m ← st n uv x u m;
        v ← ld n yuv (u32 (x * 3 + 2)) m;
        st n uv (u32 (x + 1)) v m
      else Done m) m) m;
  Done (0, m).

(* C: pitcher/convert.c swc_pack_yuv24 420-430 *)
Definition pack_444 (n : nat) (src dst : option pitcher_buffer) (m : bmem) : outcome (Z * bmem) :=
  f ← format_of src;
  m ← for_ (i_height f) (λ y m,
    py ← pitcher_get_frame_line_vaddr src 0 y;
    uv ← pitcher_get_frame_line_vaddr src 1 (y / 2);
    yuv ← pitcher_get_frame_line_vaddr dst 0 y;
    for_ (i_width f) (λ x m,
      v ← ld n py x m;
      m ← st n yuv (u32 (x * 3)) v m;
      u ← ld n uv (x / 2 * 2) m;
      m ← st n yuv (u32 (x * 3 + 1)) u m;
      v ← ld n uv (x / 2 * 2 + 1) m;
      st n yuv (u32 (x * 3 + 2)) v m) m) m;
  Done (0, m).

(* C: pitcher/convert.c swc_unpack_yuyv *)
Definition swc_unpack_yuyv : option pitcher_buffer → option pitcher_buffer → bmem → outcome (Z * bmem) := unpack_422 1.
(* C: pitcher/convert.c swc_pack_yuyv *)
Definition swc_pack_yuyv : option pitcher_buffer → option pitcher_buffer → bmem → outcome (Z * bmem) := pack_422 1.
(* C: pitcher/convert.c swc_unpack_yuv24 *)
Definition swc_unpack_yuv24 : option pitcher_buffer → option pitcher_buffer → bmem → outcome (Z * bmem) := unpack_444 1.
(* C: pitcher/convert.c swc_pack_yuv24 *)
Definition swc_pack_yuv24 : option pitcher_buffer → option pitcher_buffer → bmem → outcome (Z * bmem) := pack_444 1.

(* C: pitcher/convert.c swc_copy_nv12 *)
Definition swc_copy_nv12 (src dst : option pitcher_buffer) (m : bmem) : outcome (Z * bmem) :=
  f ← format_of src;
  let row i y m :=
    splane ← the_plane src i;
    dplane ← the_plane dst i;
    dline ← line_of dst i;
    sline ← line_of src i;
    d ← ptr_add (pl_virt dplane) (u32 (y * dline));
    s ← ptr_add (pl_virt splane) (u32 (y * sline));
    memcpy d s (i_width f) m in
  for_rows f (row 0) (row 1) m.

(** ** Pictures of more than eight bits *)

(* C: pitcher/convert.c swc_copy_p0xx *)
Definition swc_copy_p0xx (src dst : option pitcher_buffer) (m : bmem) : outcome (Z * bmem) :=
  f ← format_of src;
  for_rows f (copy_row src dst 0 (u32 (i_width f * 2))) (copy_row src dst 1 (u32 (i_width f * 2))) m.

(** The bytes from [p] on, [n] at most, as far as there are any. *)
Fixpoint bytes_from (n : nat) (p : Z) (m : bmem) : list Z :=
  match n with
  | O => []
  | S n => match m !! p with Some b => b :: bytes_from n (p + 1) m | None => [] end
  end.

(* C: pitcher/convert.c swc_unpack_nvx2 496-514 *)
Definition unpack_bits_row (src dst : option pitcher_buffer) (f : pix_fmt_info) (i y : Z) (m : bmem) : outcome bmem :=
  pdst ← pitcher_get_frame_line_vaddr dst i y;
  psrc ← pitcher_get_frame_line_vaddr src i y;
  size ← plane_stride f i;
  for_ (i_width f) (λ x m,
    p ← of_option psrc;
    v ← pitcher_get_bits_val_le (bytes_from (Z.to_nat size) p m) size (u32 (x * 10)) 10;
    st 2 pdst x (u32 (Z.shiftl v 6)) m) m.

(* C: pitcher/convert.c swc_unpack_nvx2 *)
Definition swc_unpack_nvx2 (src dst : option pitcher_buffer) (m : bmem) : outcome (Z * bmem) :=
  f ← format_of src;
  for_rows f (unpack_bits_row src dst f 0) (unpack_bits_row src dst f 1) m.

(* C: pitcher/convert.c swc_unpack_nv12_10le *)
Definition swc_unpack_nv12_10le (src dst : option pitcher_buffer) (m : bmem) : outcome (Z * bmem) :=
  f ← format_of src;
  let up v := Z.shiftl v 6 in
  for_rows f (map_row 2 2 up src dst 0 (i_width f)) (map_row 2 2 up src dst 1 (i_width f)) m.

(* C: pitcher/convert.c swc_unpack_i420_10le *)
Definition swc_unpack_i420_10le (src dst : option pitcher_buffer) (m : bmem) : outcome (Z * bmem) :=
  f ← format_of src;
  let up v := Z.shiftl v 6 in
  for_rows f (map_row 2 2 up src dst 0 (i_width f)) (merge_row 2 up src dst (i_width f)) m.

(** The row is copied before its samples are shifted. *)
(* C: pitcher/convert.c swc_pack_nv12_10le *)
Definition swc_pack_nv12_10le (src dst : option pitcher_buffer) (m : bmem) : outcome (Z * bmem) :=
  f ← format_of src;
  let down v := Z.shiftr v 6 in
  for_rows f
    (λ y m, m ← copy_row src dst 0 (u32 (i_width f * 2)) y m; map_row 2 2 down src dst 0 (i_width f) y m)
    (map_row 2 2 down src dst 1 (i_width f)) m.

(* C: pitcher/convert.c swc_pack_i420_10le *)
Definition swc_pack_i420_10le (src dst : option pitcher_buffer) (m : bmem) : outcome (Z * bmem) :=
  f ← format_of src;
  let down v := Z.shiftr v 6 in
  for_rows f (map_row 2 2 down src dst 0 (i_width f)) (split_row 2 down src dst (i_width f)) m.

(* C: pitcher/convert.c swc_unpack_y16 *)
Definition swc_unpack_y16 (src dst : option pitcher_buffer) (m : bmem) : outcome (Z * bmem) :=
  f ← format_of src;
  for_rows f (copy_row src dst 0 (u32 (i_width f * 2))) (neutral_row 2 (Z.shiftl 128 8) dst (i_width f)) m.

(* C: pitcher/convert.c swc_pack_y16 *)
Definition swc_pack_y16 (src dst : option pitcher_buffer) (m : bmem) : outcome (Z * bmem) :=
  f ← format_of src;
  m ← for_ (i_height f) (copy_row src dst 0 (u32 (i_width f * 2))) m;
  Done (0, m).

(* C: pitcher/convert.c swc_unpack_y212 *)
Definition swc_unpack_y212 : option pitcher_buffer → option pitcher_buffer → bmem → outcome (Z * bmem) := unpack_422 2.
(* C: pitcher/convert.c swc_pack_y212 *)
Definition swc_pack_y212 : option pitcher_buffer → option pitcher_buffer → bmem → outcome (Z * bmem) := pack_422 2.
(* C: pitcher/convert.c swc_unpack_yuv48_12 *)
Definition swc_unpack_yuv48_12 : option pitcher_buffer → option pitcher_buffer → bmem → outcome (Z * bmem) := unpack_444 2.
(* C: pitcher/convert.c swc_pack_yuv48_12 *)
Definition swc_pack_yuv48_12 : option pitcher_buffer → option pitcher_buffer → bmem → outcome (Z * bmem) := pack_444 2.

(** ** By format *)

Definition not_supported (m : bmem) : outcome (Z * bmem) := Done (- RET_E_NOT_SUPPORT, m).

(* C: pitcher/convert.c pitcher_sw_unpack *)
Definition pitcher_sw_unpack (src dst : option pitcher_buffer) (m : bmem) : outcome (Z * bmem) :=
  fd ← format_of dst;
  _ ← assert_ (i_format fd =? PIX_FMT_NV12);
  fs ← format_of src;
  let f := i_format fs in
  if f =? PIX_FMT_NV12_8L128 then swc_unpack_tiled_nv12 src dst m
  else if f =? PIX_FMT_I420 then swc_unpack_i420 src dst m
  else if f =? PIX_FMT_YUYV then swc_unpack_yuyv src dst m
  else if f =? PIX_FMT_NV21 then swc_unpack_nv21 src dst m
  else if f =? PIX_FMT_NV12 then swc_copy_nv12 src dst m
  else if f =? PIX_FMT_GRAY then swc_unpack_gray src dst m
  else if f =? PIX_FMT_YUV24 then swc_unpack_yuv24 src dst m
  else not_supported m.

(* C: pitcher/convert.c pitcher_sw_pack *)
Definition pitcher_sw_pack (src dst : option pitcher_buffer) (m : bmem) : outcome (Z * bmem) :=
  fs ← format_of src;
  _ ← assert_ (i_format fs =? PIX_FMT_NV12);
  fd ← format_of dst;
  let f := i_format fd in
  if f =? PIX_FMT_I420 then swc_pack_i420 src dst m
  else if f =? PIX_FMT_YUYV then swc_pack_yuyv src dst m
  else if f =? PIX_FMT_NV21 then swc_pack_nv21 src dst m
  else if f =? PIX_FMT_NV12 then swc_copy_nv12 src dst m
  else if f =? PIX_FMT_GRAY then swc_pack_gray src dst m
  else if f =? PIX_FMT_YUV24 then swc_pack_yuv24 src dst m
  else not_supported m.

(* C: pitcher/convert.c pitcher_sw_unpack_16 *)
Definition pitcher_sw_unpack_16 (src dst : option pitcher_buffer) (m : bmem) : outcome (Z * bmem) :=
  fd ← format_of dst;
  _ ← assert_ (i_format fd =? PIX_FMT_P016);
  fs ← format_of src;
  let f := i_format fs in
  if f =? PIX_FMT_NV12_10LE then swc_unpack_nv12_10le src dst m
  else if f =? PIX_FMT_I420_10LE then swc_unpack_i420_10le src dst m
  else if f =? PIX_FMT_NVX2 then swc_unpack_nvx2 src dst m
  else if (f =? PIX_FMT_P010) || (f =? PIX_FMT_P012) then swc_copy_p0xx src dst m
  else if f =? PIX_FMT_NV12_10BE_8L128 then swc_unpack_nv12_10be_8l128 src dst m
  else if (f =? PIX_FMT_Y012) || (f =? PIX_FMT_Y16) then swc_unpack_y16 src dst m
  else if f =? PIX_FMT_Y212 then swc_unpack_y212 src dst m
  else if f =? PIX_FMT_YUV48_12 then swc_unpack_yuv48_12 src dst m
  else not_supported m.

(* C: pitcher/convert.c pitcher_sw_pack_16 *)
Definition pitcher_sw_pack_16 (src dst : option pitcher_buffer) (m : bmem) : outcome (Z * bmem) :=
  fs ← format_of src;
  _ ← assert_ (i_format fs =? CVRT_MID_FMT16);
  fd ← format_of dst;
  let f := i_format fd in
  if f =? PIX_FMT_NV12_10LE then swc_pack_nv12_10le src dst m
  else if f =? PIX_FMT_I420_10LE then swc_pack_i420_10le src dst m
  else if (f =? PIX_FMT_P010) || (f =? PIX_FMT_P012) then swc_copy_p0xx src dst m
  else if (f =? PIX_FMT_Y012) || (f =? PIX_FMT_Y16) then swc_pack_y16 src dst m
  else if f =? PIX_FMT_Y212 then swc_pack_y212 src dst m
  else if f =? PIX_FMT_YUV48_12 then swc_pack_yuv48_12 src dst m
  else not_supported m.

(** [pdst[x * 2] = g(psrc[x * 2]); pdst[x * 2 + 1] = g(psrc[x * 2 + 1])] *)
Definition map_pairs (n k : nat) (g : Z → Z) (src dst : option pitcher_buffer) (i w y : Z) (m : bmem) : outcome bmem :=
  psrc ← pitcher_get_frame_line_vaddr src i y;
  pdst ← pitcher_get_frame_line_vaddr dst i y;
  for_ (DIV_ROUND_UP w 2) (λ x m,
    v ← ld n psrc (u32 (x * 2)) m;
    m ← st k pdst (u32 (x * 2)) (g v) m;
    v ← ld n psrc (u32 (x * 2 + 1)) m;
    st k pdst (u32 (x * 2 + 1)) (g v) m) m.

(* C: pitcher/convert.c pitcher_sw_cvrt_8_to_16 *)
Definition pitcher_sw_cvrt_8_to_16 (src dst : option pitcher_buffer) (m : bmem) : outcome (Z * bmem) :=
  f ← format_of src;
  fd ← format_of dst;
  _ ← assert_ (i_format f =? PIX_FMT_NV12);
  _ ← assert_ (i_format fd =? CVRT_MID_FMT16);
  let up v := Z.shiftl v 8 in
  for_rows f (map_row 1 2 up src dst 0 (i_width f)) (map_pairs 1 2 up src dst 1 (i_width f)) m.

(* C: pitcher/convert.c pitcher_sw_cvrt_16_to_8 *)
Definition pitcher_sw_cvrt_16_to_8 (src dst : option pitcher_buffer) (m : bmem) : outcome (Z * bmem) :=
  f ← format_of src;
  fd ← format_of dst;
  _ ← assert_ (i_format f =? CVRT_MID_FMT16);
  _ ← assert_ (i_format fd =? PIX_FMT_NV12);
  let down v := Z.shiftr v 8 in
  for_rows f (map_row 2 1 down src dst 0 (i_width f)) (map_pairs 2 1 down src dst 1 (i_width f)) m.
