(* ===== verification/Pixels.v ===== *)
(** * What the conversions of convert.c do to the samples

    The reference is an encoding per format: which sample of a 4:2:0 picture is
    the [k]-th of row [y] of plane [i] ([element]), and which bytes hold it
    ([stored], [byte_addr]).  Samples are taken to 16 bits, the most significant
    ones first, so that a picture is the same at any depth.  Each conversion is
    then shown to write the encoding of the picture it reads. *)

From S2P Require Import Prelude Misc Buffer Pixfmt Convert.
Open Scope Z_scope.

(** ** Encodings *)

(** Component (0 for luma, 1 and 2 for chroma), column and row; chroma has half
    the columns and rows. *)
Definition picture : Type := Z → Z → Z → Z.

Inductive sampling := Planar | SemiPlanar | SemiPlanarVU | Packed422 | Packed444 | Luma.
Inductive storage := Bytes | Words (shift : Z) | Bits10LE | Bits10BE.
Record encoding := Enc { e_sampling : sampling; e_storage : storage; e_tiled : bool }.

Definition encodings : list (Z * encoding) := [
  (PIX_FMT_I420, Enc Planar Bytes false);
  (PIX_FMT_NV12, Enc SemiPlanar Bytes false);
  (PIX_FMT_NV21, Enc SemiPlanarVU Bytes false);
  (PIX_FMT_YUYV, Enc Packed422 Bytes false);
  (PIX_FMT_YUV24, Enc Packed444 Bytes false);
  (PIX_FMT_GRAY, Enc Luma Bytes false);
  (PIX_FMT_NV12_8L128, Enc SemiPlanar Bytes true);
  (PIX_FMT_I420_10LE, Enc Planar (Words 6) false);
  (PIX_FMT_NV12_10LE, Enc SemiPlanar (Words 6) false);
  (PIX_FMT_P010, Enc SemiPlanar (Words 0) false);
  (PIX_FMT_P012, Enc SemiPlanar (Words 0) false);
  (PIX_FMT_P016, Enc SemiPlanar (Words 0) false);
  (PIX_FMT_Y012, Enc Luma (Words 0) false);
  (PIX_FMT_Y16, Enc Luma (Words 0) false);
  (PIX_FMT_Y212, Enc Packed422 (Words 0) false);
  (PIX_FMT_YUV48_12, Enc Packed444 (Words 0) false);
  (PIX_FMT_NVX2, Enc SemiPlanar Bits10LE false);
  (PIX_FMT_NV12_10BE_8L128, Enc SemiPlanar Bits10BE true)
].
Definition encoding_of (format : Z) : option encoding := assocz format encodings.

Definition half (n : Z) : Z := (n + 1) / 2.

Lemma half_up x : 0 ≤ x < 2 ^ 31 → DIV_ROUND_UP x 2 = half x.
Proof. intros Hx. rewrite DIV_ROUND_UP_spec by lia. unfold half. f_equal. lia. Qed.

Lemma half_le x : 0 ≤ x → 0 ≤ half x ≤ x ∧ x ≤ 2 * half x ≤ x + 1.
Proof. unfold half. intros. dlia. Qed.

Definition planes_of (s : sampling) : Z :=
  match s with Planar => 3 | SemiPlanar | SemiPlanarVU => 2 | _ => 1 end.

(** Samples in a row of plane [i], and rows. *)
Definition row_len (s : sampling) (w i : Z) : Z :=
  match s with
  | Planar => if i =? 0 then w else half w
  | SemiPlanar | SemiPlanarVU => if i =? 0 then w else 2 * half w
  | Packed422 => 2 * w
  | Packed444 => 3 * w
  | Luma => w
  end.
Definition rows (h i : Z) : Z := if i =? 0 then h else half h.

Definition element (s : sampling) (P : picture) (i y k : Z) : Z :=
  match s with
  | Planar => P i k y
  | SemiPlanar => if i =? 0 then P 0 k y else P (1 + k mod 2) (k / 2) y
  | SemiPlanarVU => if i =? 0 then P 0 k y else P (2 - k mod 2) (k / 2) y
  | Packed422 => if k mod 2 =? 0 then P 0 (k / 2) y else P (1 + k / 2 mod 2) (k / 2 / 2) (y / 2)
  | Packed444 => if k mod 3 =? 0 then P 0 (k / 3) y else P (k mod 3) (k / 3 / 2) (y / 2)
  | Luma => P 0 k y
  end.

(** The chroma samples that a format of finer chroma is reduced to. *)
Definition sampled (s : sampling) (y k : Z) : bool :=
  match s with
  | Packed422 => (k mod 2 =? 0) || (y mod 2 =? 0)
  | Packed444 => (k mod 3 =? 0) || ((y mod 2 =? 0) && (k / 3 mod 2 =? 0))
  | _ => true
  end.

(** A value of [n] bytes at [a], low byte first. *)
Definition holds (read : Z → option Z) (a : Z) (n : nat) (v : Z) : Prop :=
  ∀ j, 0 ≤ j < Z.of_nat n → read (a + j) = Some (v / 256 ^ j mod 256).

(** Ten bits from bit [p] on, least or most significant bit first. *)
Definition holds_bits (read : Z → option Z) (be : bool) (p v : Z) : Prop :=
  ∀ j, 0 ≤ j < 10 → ∃ b, read ((p + j) / 8) = Some b ∧ 0 ≤ b < 256 ∧
    Z.testbit b (if be then 7 - (p + j) mod 8 else (p + j) mod 8) = Z.testbit v (if be then 9 - j else j).

Definition stored (st : storage) (read : Z → option Z) (k v : Z) : Prop :=
  match st with
  | Bytes => holds read k 1 (v / 2 ^ 8)
  | Words shift => holds read (2 * k) 2 (v / 2 ^ shift)
  | Bits10LE => holds_bits read false (10 * k) (v / 2 ^ 6)
  | Bits10BE => holds_bits read true (10 * k) (v / 2 ^ 6)
  end.

(** The address of byte [b] of a row; tiles are stored one after the other. *)
Definition byte_addr (tiled : bool) (f : pix_fmt_info) (X : Z → Z) (i y b : Z) : Z :=
  let line := pi_line (plane f i) in
  if tiled then
    let tw := i_tile_ws f in
    let th := i_tile_hs f in
    X i + y / th * (line * th) + (b / tw * (tw * th) + y mod th * tw + b mod tw)
  else X i + y * line + b.

(** The planes at [X] hold the picture [P]: all samples of the format, or those
    a 4:2:0 picture has. *)
Definition encodes (all : bool) (e : encoding) (f : pix_fmt_info) (X : Z → Z) (P : picture) (w h : Z) (m : bmem) : Prop :=
  ∀ i y k, 0 ≤ i < planes_of (e_sampling e) → 0 ≤ y < rows h i → 0 ≤ k < row_len (e_sampling e) w i →
    all || sampled (e_sampling e) y k = true →
    stored (e_storage e) (λ b, m !! byte_addr (e_tiled e) f X i y b) k (element (e_sampling e) P i y k).

(** Bits per sample, and the pictures that can be stored without loss; a format
    without chroma stands for neutral chroma. *)
Definition depth_of (st : storage) : Z :=
  match st with Bytes => 8 | Words shift => 16 - shift | _ => 10 end.
Definition exact (e : encoding) (P : picture) : Prop := 
  ∀ c x y, 0 ≤ P c x y < 2 ^ 16 ∧ P c x y mod 2 ^ (16 - depth_of (e_storage e)) = 0 ∧
    (e_sampling e = Luma → c ≠ 0 → P c x y = 2 ^ 15).

(** The bytes a row takes. *)
Definition row_bytes (e : encoding) (w i : Z) : Z :=
  let n := row_len (e_sampling e) w i in
  match e_storage e with Bytes => n | Words _ => 2 * n | _ => (10 * n + 7) / 8 end.

(** Lines and size of the planes are enough for the picture; tiles are whole. *)
Definition fits (e : encoding) (f : pix_fmt_info) (w h : Z) : Prop :=
  ∀ i, 0 ≤ i < planes_of (e_sampling e) →
    let line := pi_line (plane f i) in
    row_bytes e w i ≤ line ∧
    (if e_tiled e then 0 < i_tile_ws f < 2 ^ 16 ∧ 0 < i_tile_hs f < 2 ^ 16 ∧ line mod i_tile_ws f = 0 ∧
       (rows h i + i_tile_hs f - 1) / i_tile_hs f * (line * i_tile_hs f) ≤ pi_size (plane f i)
     else rows h i * line ≤ pi_size (plane f i)).

Lemma tile_area q Q r th c tw b line : 0 ≤ q < Q → 0 ≤ r < th → 0 < tw → 0 ≤ b < line → line mod tw = 0 → c = b mod tw →
  0 ≤ q * (line * th) ∧ 0 ≤ b / tw * (tw * th) + r * tw + c < line * th ∧
  q * (line * th) + (b / tw * (tw * th) + r * tw + c) < Q * (line * th).
Proof.
  intros Hq Hr Ht Hb Hl ->. apply Z.mod_divide in Hl as [k ->]; [|lia]. pose proof (Z.mod_pos_bound b tw Ht).
  assert (Hk : 0 ≤ b / tw < k) by (split; [apply Z.div_pos; lia|apply Z.div_lt_upper_bound; lia]).
  assert (H1 : 0 ≤ r * tw + b mod tw < tw * th) by nia.
  assert (H2 : 0 ≤ b / tw * (tw * th) ≤ (k - 1) * (tw * th)) by (split; [nia|apply Z.mul_le_mono_nonneg_r; nia]).
  assert (H3 : 0 ≤ b / tw * (tw * th) + r * tw + b mod tw < k * tw * th) by nia.
  split_and!; nia.
Qed.

(** The bytes of the picture are in the planes. *)
Lemma byte_addr_area e f X w h i y b : fits e f w h → 0 ≤ i < planes_of (e_sampling e) → 0 ≤ y < rows h i →
  0 ≤ b < row_bytes e w i → area f X i (byte_addr (e_tiled e) f X i y b).
Proof.
  intros Hf Hi Hy Hb. destruct (Hf i Hi) as [Hl Hs]. unfold area, byte_addr. destruct (e_tiled e); [|nia].
  destruct Hs as (Htw & Hth & Hm & Hs).
  destruct (tile_area (y / i_tile_hs f) ((rows h i + i_tile_hs f - 1) / i_tile_hs f) (y mod i_tile_hs f) (i_tile_hs f)
    (b mod i_tile_ws f) (i_tile_ws f) b (pi_line (plane f i))) as (T1 & T2 & T3); [|apply Z.mod_pos_bound; lia|lia..|done|done|lia].
  split; [apply Z.div_pos; lia|]. apply Z.div_lt_upper_bound; [lia|].
  pose proof (Z.div_mod (rows h i + i_tile_hs f - 1) (i_tile_hs f)).
  pose proof (Z.mod_pos_bound (rows h i + i_tile_hs f - 1) (i_tile_hs f)). lia.
Qed.

(** A buffer whose planes are at [X]. *)
Record buffer_of (b : pitcher_buffer) (f : pix_fmt_info) (N : Z) (X : Z → Z) : Prop := {
  bo_format : pb_format b = Some f;
  bo_planes : has_planes b N X;
  bo_info : ∀ i, 0 ≤ i < N → is_Some (nthz (i_planes f) i);
  bo_line : ∀ i, 0 ≤ i < N → 0 ≤ pi_line (plane f i);
  bo_size : ∀ i, 0 ≤ i < N → 0 ≤ pi_size (plane f i) < 2 ^ 32
}.

Lemma format_of_ok b f N X : buffer_of b f N X → format_of (Some b) = Done f.
Proof. intros []. unfold format_of. cbn. by rewrite bo_format0. Qed.

Lemma plane_stride_ok b f N X i : buffer_of b f N X → 0 ≤ i < N → plane_stride f i = Done (pi_line (plane f i)).
Proof. intros H Hi. destruct (bo_info _ _ _ _ H i Hi) as [p Hp]. unfold plane_stride, loadz, plane. by rewrite Hp. Qed.

Lemma the_plane_ok b f N X i : buffer_of b f N X → 0 ≤ i < N →
  ∃ p, the_plane (Some b) i = Done p ∧ pl_virt p = Some (X i).
Proof. intros H Hi. destruct (bo_planes _ _ _ _ H i Hi) as (p & E & Hp). unfold the_plane. rewrite E. by exists p. Qed.

Lemma line_ok b f N X i y : buffer_of b f N X → 0 ≤ i < N → 0 ≤ y → y * pi_line (plane f i) < 2 ^ 32 →
  pitcher_get_frame_line_vaddr (Some b) i y = Done (Some (X i + y * pi_line (plane f i))).
Proof.
  intros H Hi Hy Hl. destruct (bo_planes _ _ _ _ H i Hi) as (p & E & Hp). pose proof (bo_line _ _ _ _ H i Hi).
  unfold pitcher_get_frame_line_vaddr. rewrite E. cbn [mbind outcome_bind obind of_option Z.eqb negb].
  rewrite (bo_format _ _ _ _ H). cbn [of_option]. rewrite bind_done, (plane_stride_ok _ _ _ _ _ H Hi), bind_done.
  rewrite Hp, u32_small by nia. done.
Qed.

Lemma quotient_ok x d : 0 < d → quotient x d = Done (x / d).
Proof. intros H. unfold quotient. by rewrite (proj2 (Z.eqb_neq d 0)) by lia. Qed.

(** A byte of a value is one of the value cut to its width. *)
Lemma digit_mod v x n : 0 ≤ x < n → v mod 256 ^ n / 256 ^ x mod 256 = v / 256 ^ x mod 256.
Proof.
  intros Hx. replace n with (x + 1 + (n - 1 - x)) by lia. rewrite Z.pow_add_r, Z.pow_add_r, Z.pow_1_r by lia.
  assert (Hp : 0 < 256 ^ x) by (apply Z.pow_pos_nonneg; lia). assert (Hr : 0 < 256 ^ (n - 1 - x)) by (apply Z.pow_pos_nonneg; lia).
  revert Hp Hr. generalize (256 ^ x) (256 ^ (n - 1 - x)). intros p r Hp Hr.
  rewrite (Z.mod_eq v) by lia. generalize (v / (p * 256 * r)). intros q.
  replace (v - p * 256 * r * q) with (v + - (r * q * 256) * p) by lia. rewrite Z.div_add by lia.
  replace (v / p + - (r * q * 256)) with (v / p + - (r * q) * 256) by lia. by rewrite Z.mod_add by lia.
Qed.

(** *** Reading and writing a value *)

Lemma load_le_ok k : ∀ a v m, holds (λ b, m !! b) a k v → 0 ≤ v < 256 ^ Z.of_nat k → load_le k a m = Done v.
Proof.
  induction k as [|k IH]; intros a v m H Hv; cbn [load_le]; [f_equal; cbn in Hv; lia|].
  unfold read_at. pose proof (H 0 ltac:(lia)) as H0. cbn beta in H0. rewrite Z.add_0_r in H0. rewrite H0. cbn [of_option].
  rewrite bind_done, (IH (a + 1) (v / 256)).
  - rewrite bind_done. f_equal. change (256 ^ 0) with 1. rewrite Z.div_1_r. pose proof (Z.div_mod v 256). lia.
  - intros j Hj. replace (a + 1 + j) with (a + (j + 1)) by lia. rewrite H by lia.
    rewrite Z.pow_add_r, Z.pow_1_r, Z.mul_comm, Z.div_div by (try apply Z.pow_pos_nonneg; lia). done.
  - rewrite Nat2Z.inj_succ, Z.pow_succ_r in Hv by lia. split; [apply Z.div_pos; lia|].
    apply Z.div_lt_upper_bound; lia.
Qed.

Lemma store_le_ok k : ∀ a v m, mapped m a (Z.of_nat k) → ∃ m', store_le k a v m = Done m' ∧
  holds (λ b, m' !! b) a k v ∧ (∀ b, ¬ a ≤ b < a + Z.of_nat k → m' !! b = m !! b) ∧
  (∀ b, is_Some (m !! b) → is_Some (m' !! b)).
Proof.
  induction k as [|k IH]; intros a v m Hd; cbn [store_le].
  { exists m. split_and!; try done. intros j Hj. lia. }
  destruct (Hd 0) as [u Hu]; [lia|]. rewrite Z.add_0_r in Hu. unfold write_at. rewrite Hu, bind_done.
  destruct (IH (a + 1) (v / 256) (<[a := v mod 256]> m)) as (m' & E & Ev & Ho & Hs).
  { intros x Hx. apply lookup_insert_is_Some'. right. replace (a + 1 + x) with (a + (x + 1)) by lia. apply Hd. lia. }
  exists m'. split; [exact E|]. split_and!.
  - intros j Hj. destruct (decide (j = 0)) as [->|].
    + rewrite Z.add_0_r, Ho, lookup_insert_eq by lia. change (256 ^ 0) with 1. by rewrite Z.div_1_r.
    + replace (a + j) with (a + 1 + (j - 1)) by lia. rewrite Ev by lia.
      rewrite Z.div_div, <- Z.pow_succ_r by (try apply Z.pow_pos_nonneg; lia). do 4 f_equal. lia.
  - intros b Hb. rewrite Ho by lia. apply lookup_insert_ne. lia.
  - intros b Hb. apply Hs, lookup_insert_is_Some'. auto.
Qed.

(** ** Writing a picture

    The destination's samples are to become [value]; [writes S f] says that
    [f], run on memory that differs from [m0] in the destination only, returns,
    writes inside the destination, puts the samples of [S] and leaves alone those that
    have their value already. *)

Section writing.
Context (dst : pitcher_buffer) (fd : pix_fmt_info) (N : Z) (B : Z → Z) (n : nat) (len : Z → Z) (h : Z).
Context (value : Z → Z → Z → Z) (m0 : bmem).
Context (Hdst : buffer_of dst fd N B).
Context (Hfit : ∀ i, 0 ≤ i < N →
  Z.of_nat n * len i ≤ pi_line (plane fd i) ∧ rows h i * pi_line (plane fd i) ≤ pi_size (plane fd i)).
Context (Hmap : ∀ i a, 0 ≤ i < N → area fd B i a → is_Some (m0 !! a)).
Context (Hapart : ∀ i j, 0 ≤ i < N → 0 ≤ j < N → i ≠ j →
  apart (B i) (pi_size (plane fd i)) (B j) (pi_size (plane fd j))).

Abbreviation line i := (pi_line (plane fd i)).
Abbreviation nz := (Z.of_nat n).
Context (Hn : 0 < nz) (Hh : 0 ≤ h < 2 ^ 31).

Definition inside (a : Z) : Prop := ∃ i, 0 ≤ i < N ∧ area fd B i a.
Definition sample (i y k : Z) : Prop := 0 ≤ i < N ∧ 0 ≤ y < rows h i ∧ 0 ≤ k < len i.
Definition at_ (i y k : Z) : Z := B i + y * line i + nz * k.
Definition there (m : bmem) (i y k : Z) : Prop := holds (λ a, m !! a) (at_ i y k) n (value i y k).

Record framed (m m' : bmem) : Prop := {
  fr_out : ∀ a, ¬ inside a → m' !! a = m !! a;
  fr_dom : ∀ a, is_Some (m !! a) → is_Some (m' !! a)
}.

Record wrote (S : Z → Z → Z → Prop) (m m' : bmem) : Prop := {
  wr_frame : framed m m';
  wr_new : ∀ i y k, sample i y k → S i y k → there m' i y k;
  wr_keep : ∀ i y k, sample i y k → there m i y k → there m' i y k
}.

Definition writes (S : Z → Z → Z → Prop) (f : bmem → outcome bmem) : Prop :=
  ∀ m, framed m0 m → ∃ m', f m = Done m' ∧ wrote S m m'.

Definition nothing (i y k : Z) : Prop := False.
Definition one (i y k i' y' k' : Z) : Prop := i' = i ∧ y' = y ∧ k' = k.
Definition both (S T : Z → Z → Z → Prop) (i y k : Z) : Prop := S i y k ∨ T i y k.
Definition each (c : Z) (S : Z → Z → Z → Z → Prop) (i y k : Z) : Prop := ∃ j, 0 ≤ j < c ∧ S j i y k.

Lemma in_sample i y k : 0 ≤ i < N → 0 ≤ y < rows h i → 0 ≤ k < len i → sample i y k.
Proof. by split. Qed.

Lemma framed_refl m : framed m m.
Proof. by split. Qed.
Lemma framed_trans m1 m2 m3 : framed m1 m2 → framed m2 m3 → framed m1 m3.
Proof. intros [O1 D1] [O2 D2]. split; [intros a Ha; by rewrite O2, O1|auto]. Qed.

Lemma wrote_nothing m : wrote nothing m m.
Proof. split; [apply framed_refl|done|done]. Qed.
Lemma wrote_trans S T m1 m2 m3 : wrote S m1 m2 → wrote T m2 m3 → wrote (both S T) m1 m3.
Proof.
  intros [F1 N1 K1] [F2 N2 K2]. split; [by eapply framed_trans|intros i y k Hb [H|H]; auto|auto].
Qed.

Lemma writes_done : writes nothing Done.
Proof. intros m _. exists m. split; [done|apply wrote_nothing]. Qed.

Lemma writes_weaken S T f : (∀ i y k, sample i y k → T i y k → S i y k) → writes S f → writes T f.
Proof. intros H Hf m Hm. destruct (Hf m Hm) as (m' & E & [F W K]). exists m'. split; [done|]. split; auto. Qed.

Lemma writes_seq S T f g : writes S f → writes T g → writes (both S T) (λ m, m ← f m; g m).
Proof.
  intros Hf Hg m Hm. destruct (Hf m Hm) as (m1 & E1 & W1). rewrite E1, bind_done.
  destruct (Hg m1) as (m2 & E2 & W2); [eapply framed_trans; [done|apply W1]|].
  exists m2. split; [done|]. by eapply wrote_trans.
Qed.

Lemma writes_bind {A} S (o : outcome A) a (f : A → bmem → outcome bmem) :
  o = Done a → writes S (f a) → writes S (λ m, a ← o; f a m).
Proof. intros -> H m Hm. rewrite bind_done. by apply H. Qed.

(** Reading something that the conversion leaves as it is. *)
Lemma writes_read {A} S (o : bmem → outcome A) a (f : A → bmem → outcome bmem) :
  (∀ m, framed m0 m → o m = Done a) → writes S (f a) → writes S (λ m, a ← o m; f a m).
Proof. intros Ho H m Hm. rewrite (Ho m Hm), bind_done. by apply H. Qed.

Lemma writes_if S T (b : bool) f g : (b = true → writes S f) → (b = false → writes T g) →
  writes (if b then S else T) (λ m, if b then f m else g m).
Proof. destruct b; auto. Qed.

Lemma for_up_ok k S body : ∀ i, (∀ j, i ≤ j < i + Z.of_nat k → writes (S j) (body j)) →
  writes (λ a b c, ∃ j, i ≤ j < i + Z.of_nat k ∧ S j a b c) (for_up k i body).
Proof.
  induction k as [|k IH]; intros i Hb; cbn [for_up].
  { eapply writes_weaken; [|apply writes_done]. intros a b c _ (j & Hj & _). lia. }
  eapply writes_weaken; [|apply writes_seq; [apply (Hb i); lia|apply (IH (i + 1)); intros j Hj; apply Hb; lia]].
  intros a b c _ (j & Hj & H). destruct (decide (j = i)) as [->|]; [by left|]. right. exists j. split; [lia|done].
Qed.

Lemma writes_for c S body : (∀ j, 0 ≤ j < c → writes (S j) (body j)) → writes (each c S) (for_ c body).
Proof.
  intros H. eapply writes_weaken; [|apply (for_up_ok (Z.to_nat c) S body 0); intros j Hj; apply H; lia].
  intros i y k _ (j & Hj & Hs). exists j. split; [lia|done].
Qed.

(** *** Bytes and samples *)

(** A value in memory that no write of the conversion reaches. *)
Definition source (a : Z) (k : nat) (v : Z) : Prop :=
  holds (λ b, m0 !! b) a k v ∧ (∀ j, 0 ≤ j < Z.of_nat k → ¬ inside (a + j)) ∧ 0 ≤ v < 256 ^ Z.of_nat k.

Lemma holds_framed a k v m : source a k v → framed m0 m → holds (λ b, m !! b) a k v.
Proof. intros (H & Ha & _) [Ho _] j Hj. rewrite Ho by auto. by apply H. Qed.

Lemma writes_ld S k p i v f : source (p + Z.of_nat k * i) k v → writes S (f v) →
  writes S (λ m, v ← ld k (Some p) i m; f v m).
Proof.
  intros Hs Hf m Hm. unfold ld. cbn [of_option]. rewrite bind_done.
  rewrite (load_le_ok _ _ v); [rewrite bind_done; by apply Hf|by apply holds_framed|apply Hs].
Qed.

Lemma at_area i y k : sample i y k → B i ≤ at_ i y k ∧ at_ i y k + nz ≤ B i + pi_size (plane fd i).
Proof.
  intros (Hi & Hy & Hk). destruct (Hfit i Hi) as [Hl Hs]. pose proof (bo_line _ _ _ _ Hdst i Hi). unfold at_. nia.
Qed.

(** Different samples have their own bytes. *)
Lemma at_inj i y k i' y' k' : sample i y k → sample i' y' k' →
  (i = i' ∧ y = y' ∧ k = k') ∨ apart (at_ i y k) nz (at_ i' y' k') nz.
Proof.
  intros H H'. pose proof (at_area _ _ _ H). pose proof (at_area _ _ _ H').
  destruct H as (Hi & Hy & Hk), H' as (Hi' & Hy' & Hk').
  destruct (decide (i = i')) as [<-|Hne]; [|right; pose proof (Hapart i i' Hi Hi' Hne); unfold apart in *; lia].
  destruct (Hfit i Hi) as [Hl _]. pose proof (bo_line _ _ _ _ Hdst i Hi). unfold apart, at_ in *.
  destruct (Z.lt_trichotomy y y') as [?|[<-|?]]; [right; nia| |right; nia].
  destruct (Z.lt_trichotomy k k') as [?|[<-|?]]; [right; nia|by left|right; nia].
Qed.

Lemma area_inside i a : 0 ≤ i < N → area fd B i a → inside a.
Proof. intros Hi Ha. by exists i. Qed.

(** Bytes of one row that get their values. *)
Lemma wrote_row i y k c m m' : (∀ j, 0 ≤ j < c → sample i y (k + j)) →
  (∀ j, 0 ≤ j < c → there m' i y (k + j)) →
  (∀ b, ¬ at_ i y k ≤ b < at_ i y k + nz * c → m' !! b = m !! b) →
  (∀ b, is_Some (m !! b) → is_Some (m' !! b)) →
  wrote (λ i' y' k', i' = i ∧ y' = y ∧ k ≤ k' < k + c) m m'.
Proof.
  intros Hs Ht Ho Hd. split; [split; [|done]| |].
  - intros a Ha. apply Ho. intros Hb. apply Ha.
    assert (Hc : 0 < c) by nia. pose proof (at_area i y (k + 0) (Hs 0 ltac:(lia))) as A0.
    pose proof (at_area i y (k + (c - 1)) (Hs (c - 1) ltac:(lia))) as A1.
    exists i. split; [apply (Hs 0); lia|]. unfold area, at_ in *. nia.
  - intros i' y' k' _ (-> & -> & Hk). replace k' with (k + (k' - k)) by lia. apply Ht. lia.
  - intros i' y' k' Hs' Hm. destruct (decide (i' = i ∧ y' = y ∧ k ≤ k' < k + c)) as [(-> & -> & Hk)|Hne].
    { replace k' with (k + (k' - k)) by lia. apply Ht. lia. }
    intros j Hj. rewrite Ho; [by apply Hm|]. intros Hb.
    assert (∃ q, 0 ≤ q < c ∧ nz * q ≤ at_ i' y' k' + j - at_ i y k < nz * q + nz) as (q & Hq & Hqb).
    { exists ((at_ i' y' k' + j - at_ i y k) / nz).
      pose proof (Z.div_mod (at_ i' y' k' + j - at_ i y k) nz). pose proof (Z.mod_pos_bound (at_ i' y' k' + j - at_ i y k) nz).
      split; [split; [apply Z.div_pos; lia|apply Z.div_lt_upper_bound; lia]|lia]. }
    destruct (at_inj i' y' k' i y (k + q) Hs' (Hs q Hq)) as [(-> & -> & ->)|Ha]; [apply Hne; lia|].
    unfold apart, at_ in *. nia.
Qed.

Lemma writes_st i y k v : sample i y k → v mod 256 ^ nz = value i y k →
  writes (one i y k) (st n (Some (B i + y * line i)) k v).
Proof.
  intros Hs Hv m Hm. unfold st. cbn [of_option]. rewrite bind_done. fold (at_ i y k).
  pose proof (at_area i y k Hs) as Ha.
  destruct (store_le_ok n (at_ i y k) v m) as (m' & E & Ev & Ho & Hd).
  { intros x Hx. apply (fr_dom _ _ Hm), (Hmap i); [apply Hs|unfold area; lia]. }
  exists m'. split; [exact E|].
  destruct (wrote_row i y k 1 m m') as [F W K]; [intros j Hj; by replace (k + j) with k by lia| |intros b Hb; apply Ho; lia|done|].
  - intros j Hj. replace (k + j) with k by lia. intros x Hx. rewrite Ev by lia. rewrite <- Hv. f_equal.
    symmetry. apply digit_mod. lia.
  - split; [done| |done]. intros i' y' k' Hs' (-> & -> & ->). apply W; [done|lia].
Qed.

(** A row that is copied, and one that is first used as scratch. *)
Definition row (i y i' y' k' : Z) : Prop := i' = i ∧ y' = y.

Lemma dst_line i y : 0 ≤ i < N → 0 ≤ y < rows h i →
  pitcher_get_frame_line_vaddr (Some dst) i y = Done (Some (B i + y * line i)).
Proof.
  intros Hi Hy. destruct (Hfit i Hi) as [_ Hs]. pose proof (bo_size _ _ _ _ Hdst i Hi). pose proof (bo_line _ _ _ _ Hdst i Hi).
  eapply line_ok; [done|done|lia|nia].
Qed.

Lemma row_copied i y k c s m : 0 ≤ i < N → 0 ≤ y < rows h i → 0 ≤ c → 0 ≤ k → k + c ≤ len i → framed m0 m →
  (∀ x, 0 ≤ x < nz * c → is_Some (m0 !! (s + x)) ∧ ¬ inside (s + x)) →
  ∃ m', memcpy (Some (B i + y * line i + nz * k)) (Some s) (nz * c) m = Done m' ∧
    (∀ x, 0 ≤ x < nz * c → m' !! (at_ i y k + x) = m0 !! (s + x)) ∧
    (∀ b, ¬ at_ i y k ≤ b < at_ i y k + nz * c → m' !! b = m !! b) ∧
    (∀ b, is_Some (m !! b) → is_Some (m' !! b)).
Proof.
  intros Hi Hy Hc Hk Hl Hm Hs. fold (at_ i y k).
  assert (Ha : c = 0 ∨ B i ≤ at_ i y k ∧ at_ i y k + nz * c ≤ B i + pi_size (plane fd i)).
  { destruct (decide (c = 0)); [by left|right].
    pose proof (at_area i y k ltac:(split_and!; lia)). pose proof (at_area i y (k + c - 1) ltac:(split_and!; lia)).
    unfold at_ in *. nia. }
  assert (Hap : apart (at_ i y k) (nz * c) s (nz * c)).
  { unfold apart. destruct (decide (at_ i y k + nz * c ≤ s ∨ s + nz * c ≤ at_ i y k)) as [?|Hne]; [done|exfalso].
    destruct (Hs (Z.max s (at_ i y k) - s)) as [_ Hx]; [lia|]. apply Hx. exists i. split; [done|]. unfold area. lia. }
  destruct (memcpy_ok (at_ i y k) s (nz * c) m) as (m' & E & Hc'); [nia|done| | |].
  - intros x Hx. apply (fr_dom _ _ Hm), (Hmap i); [done|]. unfold area. lia.
  - intros x Hx. apply (fr_dom _ _ Hm), Hs, Hx.
  - exists m'. split; [exact E|]. pose proof Hc' as [Li Lo]. split_and!.
    + intros x Hx. replace (at_ i y k + x) with (at_ i y k + 0 * 0 + x) by lia. rewrite Li by lia.
      replace (s + 0 * 0 + x) with (s + x) by lia. apply (fr_out _ _ Hm), Hs, Hx.
    + intros b Hb. apply Lo. intros y' x' Hy' Hx'. lia.
    + intros b Hb. eapply lines_copied_mapped; [exact Hc'| |done]. intros y' x' Hy' Hx'.
      replace (s + y' * 0 + x') with (s + x') by lia. apply (fr_dom _ _ Hm), Hs, Hx'.
Qed.

(** The bytes of samples that lie side by side. *)
Lemma split_byte x c : 0 ≤ x < nz * c → ∃ k j, 0 ≤ k < c ∧ 0 ≤ j < nz ∧ x = nz * k + j.
Proof.
  intros Hx. exists (x / nz), (x mod nz). pose proof (Z.div_mod x nz). pose proof (Z.mod_pos_bound x nz).
  split_and!; [apply Z.div_pos; lia|apply Z.div_lt_upper_bound; lia|lia..].
Qed.

Lemma source_bytes s c u x : (∀ k, 0 ≤ k < c → source (s + nz * k) n (u k)) → 0 ≤ x < nz * c →
  is_Some (m0 !! (s + x)) ∧ ¬ inside (s + x).
Proof.
  intros H Hx. destruct (split_byte x c Hx) as (k & j & Hk & Hj & ->). destruct (H k Hk) as (Hh' & Ha & _).
  rewrite Z.add_assoc. split; [|by apply Ha]. eexists. by apply Hh'.
Qed.

(** Part of a row. *)
Lemma writes_part i y k c s : 0 ≤ i < N → 0 ≤ y < rows h i → 0 ≤ c → 0 ≤ k → k + c ≤ len i →
  (∀ j, 0 ≤ j < c → source (s + nz * j) n (value i y (k + j))) →
  writes (λ i' y' k', i' = i ∧ y' = y ∧ k ≤ k' < k + c) (memcpy (Some (B i + y * line i + nz * k)) (Some s) (nz * c)).
Proof.
  intros Hi Hy Hc Hk Hl Hs m Hm.
  destruct (row_copied i y k c s m Hi Hy Hc Hk Hl Hm (λ x Hx, source_bytes s c _ x Hs Hx)) as (m' & E & Hcp & Ho & Hd).
  exists m'. split; [exact E|]. apply wrote_row; [intros j Hj; split_and!; lia| |done|done].
  intros j Hj q Hq. replace (at_ i y (k + j) + q) with (at_ i y k + (nz * j + q)) by (unfold at_; lia).
  rewrite Hcp by nia. rewrite Z.add_assoc. by apply (Hs j).
Qed.

Lemma writes_memcpy i y s : 0 ≤ i < N → 0 ≤ y < rows h i → 0 ≤ len i →
  (∀ k, 0 ≤ k < len i → source (s + nz * k) n (value i y k)) →
  writes (row i y) (memcpy (Some (B i + y * line i)) (Some s) (nz * len i)).
Proof.
  intros Hi Hy Hl Hs. replace (B i + y * line i) with (B i + y * line i + nz * 0) by lia.
  eapply writes_weaken; [|apply (writes_part i y 0 (len i)); (done || lia)].
  intros i' y' k' (_ & _ & Hk) [-> ->]. split_and!; (done || lia).
Qed.

(** What a copy leaves in a row does not matter if the row is then written. *)
Lemma writes_scratch i y s u g : 0 ≤ i < N → 0 ≤ y < rows h i → 0 ≤ len i →
  (∀ k, 0 ≤ k < len i → source (s + nz * k) n (u k)) → writes (row i y) g →
  writes (row i y) (λ m, m ← memcpy (Some (B i + y * line i)) (Some s) (nz * len i) m; g m).
Proof.
  intros Hi Hy Hl Hs Hg m Hm.
  destruct (row_copied i y 0 (len i) s m Hi Hy Hl ltac:(lia) ltac:(lia) Hm (λ x Hx, source_bytes s (len i) _ x Hs Hx))
    as (m1 & E & _ & Ho & Hd).
  replace (B i + y * line i) with (B i + y * line i + nz * 0) by lia. rewrite E, bind_done.
  assert (Hrow : ∀ b, at_ i y 0 ≤ b < at_ i y 0 + nz * len i → inside b).
  { intros b Hb. assert (Hl0 : 0 < len i) by nia. pose proof (at_area i y 0 ltac:(split_and!; lia)).
    pose proof (at_area i y (len i - 1) ltac:(split_and!; lia)). exists i. split; [done|]. unfold area, at_ in *. nia. }
  assert (F1 : framed m m1) by (split; [intros a Ha; apply Ho; intros Hb; by apply Ha, Hrow|done]).
  destruct (Hg m1) as (m' & E' & [F W K]); [by eapply framed_trans|].
  exists m'. split; [done|]. split; [by eapply framed_trans|done|]. intros i' y' k' Hs' Hm'.
  destruct (decide (i' = i ∧ y' = y)) as [[-> ->]|Hne]; [by apply W|]. apply K; [done|]. intros j Hj.
  rewrite Ho; [by apply Hm'|]. intros Hb.
  destruct (split_byte (at_ i' y' k' + j - at_ i y 0) (len i)) as (q & r & Hq & Hr & Eq); [lia|].
  destruct (at_inj i' y' k' i y q Hs') as [(-> & -> & _)|Ha]; [split_and!; lia|by apply Hne|].
  unfold apart, at_ in *. lia.
Qed.

(** *** Pictures *)

Definition converted (F : bmem → outcome (Z * bmem)) : Prop :=
  ∃ m', F m0 = Done (0, m') ∧ framed m0 m' ∧ ∀ i y k, sample i y k → there m' i y k.

Lemma converted_bind {T} (o : outcome T) a F : o = Done a → converted (F a) → converted (λ m, x ← o; F x m).
Proof. intros ->. done. Qed.

Lemma all_written S g : writes S g → (∀ i y k, sample i y k → S i y k) → converted (λ m, m ← g m; Done (0, m)).
Proof.
  intros Hg HS. destruct (Hg m0 (framed_refl m0)) as (m' & E & [F W _]). exists m'. rewrite E, bind_done. auto.
Qed.

Lemma for_rows_ok f luma chroma T : i_height f = h → (∀ y, 0 ≤ y < h → writes (row 0 y) (luma y)) →
  (∀ y, 0 ≤ y < half h → writes (T y) (chroma y)) →
  (∀ i y k, sample i y k → 0 < i → T y i y k) → converted (for_rows f luma chroma).
Proof.
  intros Hfh Hl Hc HT. unfold for_rows. rewrite Hfh, half_up by lia. pose proof (half_le h ltac:(lia)).
  apply all_written with (S := each h (λ y, both (row 0 y) (if y <? half h then T y else nothing))).
  - apply writes_for. intros y Hy. apply writes_seq; [by apply Hl|].
    apply writes_if; [intros Hlt%Z.ltb_lt; apply Hc; lia|intros _; apply writes_done].
  - intros i y k Hs. pose proof Hs as (Hi & Hy & Hk). exists y. unfold rows in Hy. destruct (Z.eqb_spec i 0) as [->|Hne].
    + split; [done|by left].
    + split; [lia|]. right. rewrite (proj2 (Z.ltb_lt y (half h))) by lia. apply HT; [done|lia].
Qed.

End writing.
