(* ===== verification/Conversions.v ===== *)
(** * The conversions of convert.c deliver the picture

    For each conversion: run on a buffer that holds a picture in the source's
    encoding, it writes the picture in the destination's encoding and nothing
    else.  The first part is shared: the setting ([setup]), reading and writing
    samples in it, rows and whole pictures. *)

From S2P Require Import Prelude Misc Buffer Pixfmt Convert Pixels.
Open Scope Z_scope.

(** ** The conversions *)

Definition scale (st : storage) (v : Z) : Z := v / 2 ^ (16 - depth_of st).
Definition unit_of (st : storage) : nat := match st with Bytes => 1 | _ => 2 end.

(** Samples in whole bytes, row after row. *)
Definition plain (e : encoding) : Prop :=
  e_tiled e = false ∧ (e_storage e = Bytes ∨ ∃ shift, e_storage e = Words shift ∧ 0 ≤ shift ≤ 8).

(** A picture of [w] columns and [h] rows in [src], and a buffer for it. *)
Record setup (es ed : encoding) (src dst : pitcher_buffer) (fs fd : pix_fmt_info) (A B : Z → Z) (P : picture)
    (w h : Z) (m : bmem) : Prop := {
  su_src : buffer_of src fs (planes_of (e_sampling es)) A;
  su_dst : buffer_of dst fd (planes_of (e_sampling ed)) B;
  su_w : i_width fs = w ∧ 0 < w ≤ 2 ^ 14 ∧ w mod 2 = 0;
  su_h : i_height fs = h ∧ 0 < h ≤ 2 ^ 14;
  su_fits_src : fits es fs w h;
  su_fits_dst : fits ed fd w h;
  su_plain : plain ed;
  su_mapped : ∀ i a, 0 ≤ i < planes_of (e_sampling ed) → area fd B i a → is_Some (m !! a);
  su_apart : ∀ i j, 0 ≤ i < planes_of (e_sampling ed) → 0 ≤ j < planes_of (e_sampling ed) → i ≠ j →
    apart (B i) (pi_size (plane fd i)) (B j) (pi_size (plane fd j));
  su_outside : ∀ i a, 0 ≤ i < planes_of (e_sampling es) → area fs A i a →
    ¬ inside fd (planes_of (e_sampling ed)) B a;
  su_shown : encodes false es fs A P w h m;
  su_exact : exact es P
}.

(** The same without a picture: two buffers that hold pictures of [w] columns
    and [h] rows, the destination's planes in memory and apart from each other
    and from the source's. *)
Record room (es ed : encoding) (src dst : pitcher_buffer) (fs fd : pix_fmt_info) (A B : Z → Z) (w h : Z) (m : bmem) : Prop := {
  ro_src : buffer_of src fs (planes_of (e_sampling es)) A;
  ro_dst : buffer_of dst fd (planes_of (e_sampling ed)) B;
  ro_w : i_width fs = w ∧ 0 < w ≤ 2 ^ 14 ∧ w mod 2 = 0;
  ro_h : i_height fs = h ∧ 0 < h ≤ 2 ^ 14;
  ro_fits_src : fits es fs w h;
  ro_fits_dst : fits ed fd w h;
  ro_plain : plain ed;
  ro_mapped : ∀ i a, 0 ≤ i < planes_of (e_sampling ed) → area fd B i a → is_Some (m !! a);
  ro_apart : ∀ i j, 0 ≤ i < planes_of (e_sampling ed) → 0 ≤ j < planes_of (e_sampling ed) → i ≠ j →
    apart (B i) (pi_size (plane fd i)) (B j) (pi_size (plane fd j));
  ro_outside : ∀ i a, 0 ≤ i < planes_of (e_sampling es) → area fs A i a →
    ¬ inside fd (planes_of (e_sampling ed)) B a
}.

Lemma setup_room es ed src dst fs fd A B P w h m : room es ed src dst fs fd A B w h m →
  encodes false es fs A P w h m → exact es P → setup es ed src dst fs fd A B P w h m.
Proof. intros [] Hs He. by constructor. Qed.

(** Memory may have changed, but not shrunk. *)
Lemma room_grow es ed src dst fs fd A B w h m m' : room es ed src dst fs fd A B w h m →
  (∀ a, is_Some (m !! a) → is_Some (m' !! a)) → room es ed src dst fs fd A B w h m'.
Proof. intros [] Hm. constructor; eauto. Qed.

Lemma encodes_all e f X P w h m : encodes true e f X P w h m → encodes false e f X P w h m.
Proof. intros H i y k Hi Hy Hk _. by apply H. Qed.

(** Pictures whose samples are stored as the same values. *)
Lemma stored_eq st read k v v' : scale st v = scale st v' → stored st read k v → stored st read k v'.
Proof.
  unfold scale, stored. destruct st; cbn [depth_of]; intros H.
  - change (16 - 8) with 8 in H. by rewrite H.
  - replace (16 - (16 - shift)) with shift in H by lia. by rewrite H.
  - change (16 - 10) with 6 in H. by rewrite H.
  - change (16 - 10) with 6 in H. by rewrite H.
Qed.

(** The planes are bytes that can be read. *)
Definition readable (f : pix_fmt_info) (N : Z) (X : Z → Z) (m : bmem) : Prop :=
  ∀ i a, 0 ≤ i < N → area f X i a → ∃ b, m !! a = Some b ∧ is_byte b.

(** The conversion succeeds, changes nothing but the destination's planes, and
    these then hold the picture. *)
Definition delivers (ed : encoding) (fd : pix_fmt_info) (B : Z → Z) (P : picture) (w h : Z) (m : bmem)
    (F : bmem → outcome (Z * bmem)) : Prop :=
  ∃ m', F m = Done (0, m') ∧ framed fd (planes_of (e_sampling ed)) B m m' ∧ encodes true ed fd B P w h m'.

Lemma planes_pos s : 0 < planes_of s.
Proof. by destruct s. Qed.

Lemma plain_unit e : plain e → 0 < Z.of_nat (unit_of (e_storage e)).
Proof. by intros [_ [-> |(sh & -> & _)]]. Qed.

Lemma plain_bytes e w i : plain e → row_bytes e w i = Z.of_nat (unit_of (e_storage e)) * row_len (e_sampling e) w i.
Proof. unfold row_bytes. intros [_ [-> |(sh & -> & _)]]; cbn [unit_of]; lia. Qed.

Lemma scale_range e v : plain e → 0 ≤ v < 2 ^ 16 → 0 ≤ scale (e_storage e) v < 256 ^ Z.of_nat (unit_of (e_storage e)).
Proof.
  intros Hp Hr. unfold scale. destruct Hp as [_ [-> |(sh & -> & Hs)]]; cbn [depth_of unit_of].
  - change (2 ^ (16 - 8)) with 256. split; [apply Z.div_pos; lia|apply Z.div_lt_upper_bound; lia].
  - replace (16 - (16 - sh)) with sh by lia. assert (0 < 2 ^ sh) by (apply Z.pow_pos_nonneg; lia).
    change (256 ^ Z.of_nat 2) with (2 ^ 16). split; [apply Z.div_pos; lia|apply Z.div_lt_upper_bound; nia].
Qed.

Lemma stored_plain e (Hp : plain e) read k v :
  stored (e_storage e) read k v ↔
  holds read (Z.of_nat (unit_of (e_storage e)) * k) (unit_of (e_storage e)) (scale (e_storage e) v).
Proof.
  destruct Hp as [_ [-> |(sh & -> & _)]]; unfold stored, scale; cbn [unit_of depth_of].
  - change (Z.of_nat 1) with 1. rewrite Z.mul_1_l. done.
  - by replace (16 - (16 - sh)) with sh by lia.
Qed.

Lemma element_picture s P i y k : 0 ≤ i < planes_of s → ∃ c x y', element s P i y k = P c x y' ∧ (s = Luma → c = 0).
Proof. destruct s; unfold element; intros Hi; repeat case_match; eexists _, _, _; (split; [reflexivity|]); done. Qed.

(** *** Where a sample comes from *)

Lemma semi_0 P y x : element SemiPlanar P 1 y (x * 2) = P 1 x y.
Proof. unfold element. cbn [Z.eqb]. by rewrite Z.mod_mul, Z.div_mul by lia. Qed.
Lemma semi_1 P y x : element SemiPlanar P 1 y (x * 2 + 1) = P 2 x y.
Proof.
  unfold element. cbn [Z.eqb]. rewrite (Z.add_comm (x * 2)), Z.mod_add, Z.div_add by lia. change (1 mod 2) with 1.
  by change (1 / 2) with 0.
Qed.
Lemma semi_vu_0 P y x : element SemiPlanarVU P 1 y (x * 2) = P 2 x y.
Proof. unfold element. cbn [Z.eqb]. by rewrite Z.mod_mul, Z.div_mul by lia. Qed.
Lemma semi_vu_1 P y x : element SemiPlanarVU P 1 y (x * 2 + 1) = P 1 x y.
Proof.
  unfold element. cbn [Z.eqb]. rewrite (Z.add_comm (x * 2)), Z.mod_add, Z.div_add by lia. change (1 mod 2) with 1.
  by change (1 / 2) with 0.
Qed.
Lemma packed_422_0 P y x : element Packed422 P 0 y (x * 2) = P 0 x y.
Proof. unfold element. by rewrite Z.mod_mul, Z.div_mul by lia. Qed.
Lemma packed_422_1 P y x : element Packed422 P 0 y (x * 2 + 1) = element SemiPlanar P 1 (y / 2) x.
Proof.
  unfold element. rewrite (Z.add_comm (x * 2)), Z.mod_add, Z.div_add by lia. change (1 mod 2) with 1. by change (1 / 2) with 0.
Qed.
Lemma packed_444_0 P y x : element Packed444 P 0 y (x * 3) = P 0 x y.
Proof. unfold element. by rewrite Z.mod_mul, Z.div_mul by lia. Qed.
Lemma packed_444_c P y x c : c = 1 ∨ c = 2 → element Packed444 P 0 y (x * 3 + c) = P c (x / 2) (y / 2).
Proof.
  intros Hc. unfold element. rewrite (Z.add_comm (x * 3)), Z.mod_add, Z.div_add by lia.
  destruct Hc as [-> | ->]; cbn; (by change (1 / 3) with 0) || by change (2 / 3) with 0.
Qed.

Lemma sampled_422 y x : sampled Packed422 y (x * 2) = true ∧ (y mod 2 = 0 → sampled Packed422 y (x * 2 + 1) = true).
Proof. unfold sampled. rewrite Z.mod_mul by lia. split; [done|]. intros ->. apply orb_true_r. Qed.
Lemma sampled_444 y x : sampled Packed444 y (x * 3) = true ∧
  (y mod 2 = 0 → x mod 2 = 0 → sampled Packed444 y (x * 3 + 1) = true ∧ sampled Packed444 y (x * 3 + 2) = true).
Proof.
  unfold sampled. rewrite Z.mod_mul by lia. split; [done|]. intros Hy Hx. rewrite !(Z.add_comm (x * 3)), !Z.div_add by lia.
  change (1 / 3) with 0. change (2 / 3) with 0. by rewrite Z.add_0_l, Hy, Hx, !orb_true_r.
Qed.

Section conversions.
Context (es ed : encoding) (src dst : pitcher_buffer) (fs fd : pix_fmt_info) (A B : Z → Z) (P : picture) (w h : Z) (m : bmem).
Context (Hset : setup es ed src dst fs fd A B P w h m).

Abbreviation sn := (unit_of (e_storage es)).
Abbreviation n := (unit_of (e_storage ed)).
Abbreviation SN := (planes_of (e_sampling es)).
Abbreviation N := (planes_of (e_sampling ed)).
Abbreviation slen := (row_len (e_sampling es) w).
Abbreviation len := (row_len (e_sampling ed) w).
Abbreviation su := (λ i y k, scale (e_storage es) (element (e_sampling es) P i y k)).
Abbreviation value := (λ i y k, scale (e_storage ed) (element (e_sampling ed) P i y k)).
Abbreviation sp := (λ i y, A i + y * pi_line (plane fs i)).
Abbreviation sok := (λ y k, sampled (e_sampling es) y k = true).

Lemma set_fit i : 0 ≤ i < N →
  Z.of_nat n * len i ≤ pi_line (plane fd i) ∧ rows h i * pi_line (plane fd i) ≤ pi_size (plane fd i).
Proof.
  intros Hi. destruct (su_fits_dst _ _ _ _ _ _ _ _ _ _ _ _ Hset i Hi) as [H1 H2].
  pose proof (su_plain _ _ _ _ _ _ _ _ _ _ _ _ Hset) as Hp. rewrite (plain_bytes _ _ _ Hp) in H1.
  destruct Hp as [Ht _]. by rewrite Ht in H2.
Qed.

Lemma set_h : 0 ≤ h < 2 ^ 31.
Proof. pose proof (su_h _ _ _ _ _ _ _ _ _ _ _ _ Hset). lia. Qed.

Lemma set_w : 0 ≤ w < 2 ^ 29.
Proof. pose proof (su_w _ _ _ _ _ _ _ _ _ _ _ _ Hset). lia. Qed.

Lemma set_src_format : format_of (Some src) = Done fs.
Proof. eapply format_of_ok, su_src, Hset. Qed.

Lemma set_offset i y : e_tiled es = false → 0 ≤ i < SN → 0 ≤ y < rows h i → 0 ≤ y * pi_line (plane fs i) < 2 ^ 32.
Proof.
  intros Ht Hi Hy. pose proof (su_src _ _ _ _ _ _ _ _ _ _ _ _ Hset) as Hb.
  destruct (su_fits_src _ _ _ _ _ _ _ _ _ _ _ _ Hset i Hi) as [_ Hs]. rewrite Ht in Hs.
  pose proof (bo_size _ _ _ _ Hb i Hi). pose proof (bo_line _ _ _ _ Hb i Hi). nia.
Qed.

Lemma to_offset i y : 0 ≤ i < N → 0 ≤ y < rows h i → 0 ≤ y * pi_line (plane fd i) < 2 ^ 32.
Proof.
  intros Hi Hy. pose proof (su_dst _ _ _ _ _ _ _ _ _ _ _ _ Hset) as Hb. destruct (set_fit i Hi) as [_ Hs].
  pose proof (bo_size _ _ _ _ Hb i Hi). pose proof (bo_line _ _ _ _ Hb i Hi). nia.
Qed.

Lemma set_line i y : e_tiled es = false → 0 ≤ i < SN → 0 ≤ y < rows h i →
  pitcher_get_frame_line_vaddr (Some src) i y = Done (Some (sp i y)).
Proof.
  intros Ht Hi Hy. pose proof (su_src _ _ _ _ _ _ _ _ _ _ _ _ Hset) as Hb.
  eapply line_ok; [done|done|lia|by apply set_offset].
Qed.

Lemma set_element s i y k : 0 ≤ i < planes_of s → 0 ≤ element s P i y k < 2 ^ 16.
Proof.
  intros Hi. destruct (element_picture s P i y k Hi) as (c & x & y' & -> & _). apply (su_exact _ _ _ _ _ _ _ _ _ _ _ _ Hset).
Qed.

Lemma set_source i y k : plain es → 0 ≤ i < SN → 0 ≤ y < rows h i → 0 ≤ k < slen i → sok y k →
  source fd N B m (sp i y + Z.of_nat sn * k) sn (su i y k).
Proof.
  intros Hp Hi Hy Hk Hok. pose proof (proj1 Hp) as Ht.
  pose proof (su_shown _ _ _ _ _ _ _ _ _ _ _ _ Hset i y k Hi Hy Hk) as Hs. cbn [orb] in Hs.
  specialize (Hs Hok). rewrite (stored_plain es Hp), Ht in Hs. split_and!.
  - intros j Hj. rewrite <- Z.add_assoc. by apply Hs.
  - intros j Hj. rewrite <- Z.add_assoc. apply (su_outside _ _ _ _ _ _ _ _ _ _ _ _ Hset i); [done|].
    pose proof (byte_addr_area es fs A w h i y (Z.of_nat sn * k + j) (su_fits_src _ _ _ _ _ _ _ _ _ _ _ _ Hset) Hi Hy) as Ho.
    rewrite Ht in Ho. apply Ho. rewrite (plain_bytes _ _ _ Hp). nia.
  - apply scale_range; [done|by apply set_element].
  - apply scale_range; [done|by apply set_element].
Qed.

Lemma set_delivers F : converted fd N B n len h value m F → delivers ed fd B P w h m F.
Proof.
  intros (m' & E & Hf & Ht). exists m'. split; [done|]. split; [done|]. intros i y k Hi Hy Hk _.
  pose proof (su_plain _ _ _ _ _ _ _ _ _ _ _ _ Hset) as Hp. rewrite (stored_plain ed Hp), (proj1 Hp).
  intros j Hj. cbn [byte_addr]. specialize (Ht i y k). unfold there, at_ in Ht. rewrite <- Ht; [|by split; [|split]|done].
  f_equal. unfold byte_addr. lia.
Qed.

(** [g] takes a sample of the source to one of the destination. *)
Definition carries (g : Z → Z) : Prop :=
  ∀ c x y, g (scale (e_storage es) (P c x y)) mod 256 ^ Z.of_nat n = scale (e_storage ed) (P c x y).

Lemma carried g i y k i' y' k' : carries g → 0 ≤ i < SN →
  element (e_sampling es) P i y k = element (e_sampling ed) P i' y' k' →
  g (su i y k) mod 256 ^ Z.of_nat n = value i' y' k'.
Proof.
  intros Hg Hi He. cbv beta. rewrite <- He. destruct (element_picture (e_sampling es) P i y k Hi) as (c & x & y0 & -> & _). apply Hg.
Qed.

Lemma carries_with g : (∀ v, 0 ≤ v < 2 ^ 16 → v mod 2 ^ (16 - depth_of (e_storage es)) = 0 →
    g (scale (e_storage es) v) mod 256 ^ Z.of_nat n = scale (e_storage ed) v) → carries g.
Proof. intros H c x y. destruct (su_exact _ _ _ _ _ _ _ _ _ _ _ _ Hset c x y) as (H1 & H2 & _). by apply H. Qed.

Lemma carries_id : e_storage es = e_storage ed → carries id.
Proof.
  intros E. apply carries_with. rewrite E. intros v Hv _. apply Z.mod_small.
  apply scale_range; [exact (su_plain _ _ _ _ _ _ _ _ _ _ _ _ Hset)|done].
Qed.

(** From ten or eight bits to sixteen and back. *)
Lemma carries_up shift : (e_storage es = Words 6 ∧ shift = 6 ∨ e_storage es = Bytes ∧ shift = 8) → e_storage ed = Words 0 →
  carries (λ v, Z.shiftl v shift).
Proof.
  intros Hs E. apply carries_with. rewrite E. unfold scale. intros v Hv. cbn [depth_of unit_of].
  change (256 ^ Z.of_nat 2) with (2 ^ 16). change (2 ^ (16 - (16 - 0))) with 1. rewrite Z.div_1_r.
  destruct Hs as [[-> ->]|[-> ->]]; cbn [depth_of]; rewrite Z.shiftl_mul_pow2 by lia;
    [change (16 - (16 - 6)) with 6|change (16 - 8) with 8]; intros Hm; rewrite Z.mod_small; dlia.
Qed.

Lemma carries_down shift : (e_storage ed = Words 6 ∧ shift = 6 ∨ e_storage ed = Bytes ∧ shift = 8) → e_storage es = Words 0 →
  carries (λ v, Z.shiftr v shift).
Proof.
  intros Hs E. apply carries_with. rewrite E. unfold scale. intros v Hv _. cbn [depth_of].
  change (2 ^ (16 - (16 - 0))) with 1. rewrite Z.div_1_r.
  destruct Hs as [[-> ->]|[-> ->]]; cbn [depth_of unit_of]; rewrite Z.shiftr_div_pow2 by lia;
    [change (16 - (16 - 6)) with 6; change (256 ^ Z.of_nat 2) with (2 ^ 16)
    |change (16 - 8) with 8; change (256 ^ Z.of_nat 1) with (2 ^ 8)]; rewrite Z.mod_small; dlia.
Qed.

(** *** Reading and writing in this setting *)
Context (Hpl : plain es).

Abbreviation writer S f := (writes fd N B n len h value m S f).
Abbreviation el := (element (e_sampling es) P).
Abbreviation el' := (element (e_sampling ed) P).
Abbreviation dp := (λ i y, B i + y * pi_line (plane fd i)).

Lemma src_line i y : 0 ≤ i < SN → 0 ≤ y < rows h i → pitcher_get_frame_line_vaddr (Some src) i y = Done (Some (sp i y)).
Proof. apply set_line, Hpl. Qed.

Definition set_dst : buffer_of dst fd N B := su_dst _ _ _ _ _ _ _ _ _ _ _ _ Hset.
Definition set_map : ∀ i a, 0 ≤ i < N → area fd B i a → is_Some (m !! a) := su_mapped _ _ _ _ _ _ _ _ _ _ _ _ Hset.
Definition set_apart := su_apart _ _ _ _ _ _ _ _ _ _ _ _ Hset.
Definition set_unit : 0 < Z.of_nat n := plain_unit _ (su_plain _ _ _ _ _ _ _ _ _ _ _ _ Hset).

Lemma to_line i y : 0 ≤ i < N → 0 ≤ y < rows h i → pitcher_get_frame_line_vaddr (Some dst) i y = Done (Some (dp i y)).
Proof. apply (dst_line dst fd N B n len h); [exact set_dst|exact set_fit]. Qed.

Lemma take_sample S c i y k f : c = sn → 0 ≤ i < SN → 0 ≤ y < rows h i → 0 ≤ k < slen i → sok y k →
  writer S (f (su i y k)) → writer S (λ m, v ← ld c (Some (sp i y)) k m; f v m).
Proof. intros -> Hi Hy Hk Hok. apply writes_ld. by apply set_source. Qed.

Lemma put_sample c i y k v : c = n → 0 ≤ i < N → 0 ≤ y < rows h i → 0 ≤ k < len i → v mod 256 ^ Z.of_nat n = value i y k →
  writer (one i y k) (st c (Some (dp i y)) k v).
Proof.
  intros -> Hi Hy Hk Hv. apply (writes_st dst); [exact set_dst|exact set_fit|exact set_map|exact set_apart|exact set_unit| |done].
  by apply in_sample.
Qed.

(** Copying keeps a sample where source and destination store alike. *)
Lemma same_unit : e_storage es = e_storage ed → sn = n.
Proof. by intros ->. Qed.

Lemma copy_row_ok i y c : e_storage es = e_storage ed → 0 ≤ i < SN → 0 ≤ i < N → 0 ≤ y < rows h i →
  c = Z.of_nat n * len i → 0 ≤ len i ≤ slen i → (∀ k, 0 ≤ k < len i → sok y k ∧ el i y k = el' i y k) →
  writer (row i y) (copy_row (Some src) (Some dst) i c y).
Proof.
  intros E Hi Hi' Hy -> Hl Hv. unfold copy_row.
  eapply writes_bind; [by apply src_line|]. eapply writes_bind; [by apply to_line|].
  apply (writes_memcpy dst); [exact set_dst|exact set_fit|exact set_map|exact set_apart|exact set_unit|done|done|lia|].
  intros k Hk. destruct (Hv k Hk) as [Hok <-]. rewrite <- E. apply set_source; (done || lia).
Qed.

(** The whole row as scratch. *)
Lemma scratch_row_ok i y c g : sn = n → 0 ≤ i < SN → 0 ≤ i < N → 0 ≤ y < rows h i →
  c = Z.of_nat n * len i → 0 ≤ len i ≤ slen i → (∀ k, 0 ≤ k < len i → sok y k) → writer (row i y) g →
  writer (row i y) (λ m, m ← copy_row (Some src) (Some dst) i c y m; g m).
Proof.
  intros E Hi Hi' Hy -> Hl Hv Hg m1 Hm1. unfold copy_row. rewrite src_line, bind_done, to_line, bind_done by done. revert m1 Hm1.
  apply (writes_scratch dst) with (u := su i y); [exact set_dst|exact set_fit|exact set_map|exact set_apart|exact set_unit|done|done|lia| |done].
  intros k Hk. rewrite <- E. apply set_source; (done || lia || auto).
Qed.

Lemma map_row_ok c d g i y x : c = sn → d = n → carries g → 0 ≤ i < SN → 0 ≤ i < N → 0 ≤ y < rows h i →
  x = len i → x ≤ slen i → (∀ k, 0 ≤ k < x → sok y k ∧ el i y k = el' i y k) →
  writer (row i y) (map_row c d g (Some src) (Some dst) i x y).
Proof.
  intros Ec Ed Hg Hi Hi' Hy Hx Hl Hv. unfold map_row.
  eapply writes_bind; [by apply src_line|]. eapply writes_bind; [by apply to_line|].
  eapply writes_weaken; [|apply writes_for with (S := one i y)].
  - intros i' y' k' Hs [-> ->]. exists k'. destruct Hs as (_ & _ & Hk). split; [lia|done].
  - intros k Hk. destruct (Hv k Hk) as [Hok E]. apply take_sample; [done|done|done|lia|done|].
    apply put_sample; [done..|lia|by apply carried].
Qed.

(** Pairs of samples cover a chroma row. *)
Lemma pairs_cover i y i' y' k' : len i = 2 * half w → sample N len h i' y' k' → row i y i' y' k' →
  each (half w) (λ x, both (one i y (x * 2)) (one i y (x * 2 + 1))) i' y' k'.
Proof.
  intros Hl (_ & _ & Hk) [-> ->]. exists (k' / 2). split; [dlia|].
  destruct (decide (k' mod 2 = 0)); [left|right]; split_and!; dlia.
Qed.

Lemma pair_index x : 0 ≤ x < half w → u32 (x * 2) = x * 2 ∧ u32 (x * 2 + 1) = x * 2 + 1.
Proof. pose proof set_w. unfold half. intros. rewrite !u32_small by dlia. done. Qed.

Lemma half_w : DIV_ROUND_UP w 2 = half w.
Proof. pose proof set_w. apply half_up. lia. Qed.

(** Two chroma planes into one. *)
Lemma merge_row_ok c g y : c = sn → sn = n → carries g → 2 < SN → 1 < N → 0 ≤ y < half h → len 1 = 2 * half w →
  half w ≤ slen 1 → half w ≤ slen 2 →
  (∀ x, 0 ≤ x < half w → sok y x ∧ el 1 y x = el' 1 y (x * 2) ∧ el 2 y x = el' 1 y (x * 2 + 1)) →
  writer (row 1 y) (merge_row c g (Some src) (Some dst) w y).
Proof.
  intros -> E Hg Hs2 Hn1 Hy Hl Hl1 Hl2 Hv. unfold merge_row. rewrite half_w.
  eapply writes_bind; [apply src_line; [lia|done]|]. eapply writes_bind; [apply src_line; [lia|done]|].
  eapply writes_bind; [apply to_line; [lia|done]|].
  eapply writes_weaken; [intros i' y' k'; by apply pairs_cover|apply writes_for]. intros x Hx.
  destruct (Hv x Hx) as (Hok & E1 & E2), (pair_index x Hx) as [-> ->].
  apply take_sample; [done|lia|done|lia|done|]. apply writes_seq; [apply put_sample; [done|lia|done|lia|apply carried; (done || lia)]|].
  apply take_sample; [done|lia|done|lia|done|]. apply put_sample; [done|lia|done|lia|apply carried; (done || lia)].
Qed.

(** One chroma plane into two. *)
Lemma split_row_ok c g y : c = sn → sn = n → carries g → 1 < SN → 2 < N → 0 ≤ y < half h → slen 1 = 2 * half w →
  len 1 = half w → len 2 = half w →
  (∀ x, 0 ≤ x < half w → sok y (x * 2) ∧ sok y (x * 2 + 1) ∧ el 1 y (x * 2) = el' 1 y x ∧ el 1 y (x * 2 + 1) = el' 2 y x) →
  writer (both (row 1 y) (row 2 y)) (split_row c g (Some src) (Some dst) w y).
Proof.
  intros -> E Hg Hs2 Hn1 Hy Hl Hl1 Hl2 Hv. unfold split_row. rewrite half_w.
  eapply writes_bind; [apply src_line; [lia|done]|]. eapply writes_bind; [apply to_line; [lia|done]|].
  eapply writes_bind; [apply to_line; [lia|done]|].
  eapply writes_weaken; [|apply writes_for with (S := λ x, both (one 1 y x) (one 2 y x))].
  { intros i' y' k' (_ & _ & Hk) [[-> ->]|[-> ->]]; exists k'; (split; [lia|]); [by left|by right]. }
  intros x Hx. destruct (Hv x Hx) as (Hok1 & Hok2 & E1 & E2), (pair_index x Hx) as [-> ->].
  apply take_sample; [done|lia|done|lia|done|]. apply writes_seq; [apply put_sample; [done|lia|done|lia|apply carried; (done || lia)]|].
  apply take_sample; [done|lia|done|lia|done|]. apply put_sample; [done|lia|done|lia|apply carried; (done || lia)].
Qed.

(** Pairs of one plane into pairs of another, each sample with [g]. *)
Lemma map_pairs_ok c d g i y : c = sn → d = n → carries g → 0 ≤ i < SN → 0 ≤ i < N → 0 ≤ y < rows h i →
  len i = 2 * half w → len i ≤ slen i → (∀ k, 0 ≤ k < len i → sok y k ∧ el i y k = el' i y k) →
  writer (row i y) (map_pairs c d g (Some src) (Some dst) i w y).
Proof.
  intros -> -> Hg Hi Hi' Hy Hl Hs Hv. unfold map_pairs. rewrite half_w.
  eapply writes_bind; [by apply src_line|]. eapply writes_bind; [by apply to_line|].
  eapply writes_weaken; [intros i' y' k'; by apply pairs_cover|apply writes_for]. intros x Hx.
  destruct (pair_index x Hx) as [-> ->].
  destruct (Hv (x * 2)) as [Hok1 E1]; [lia|]. destruct (Hv (x * 2 + 1)) as [Hok2 E2]; [lia|].
  apply take_sample; [done|lia|done|lia|done|]. apply writes_seq; [apply put_sample; [done|lia|done|lia|apply carried; (done || lia)]|].
  apply take_sample; [done|lia|done|lia|done|]. apply put_sample; [done|lia|done|lia|apply carried; (done || lia)].
Qed.

Lemma neutral_row_ok c v y : c = n → 1 < N → 0 ≤ y < half h → len 1 = 2 * half w →
  (∀ k, 0 ≤ k < len 1 → v mod 256 ^ Z.of_nat n = value 1 y k) →
  writer (row 1 y) (neutral_row c v (Some dst) w y).
Proof.
  intros -> Hn1 Hy Hl Hv. unfold neutral_row. rewrite half_w. eapply writes_bind; [apply to_line; [lia|done]|].
  eapply writes_weaken; [intros i' y' k'; by apply pairs_cover|apply writes_for]. intros x Hx.
  destruct (pair_index x Hx) as [-> ->].
  apply writes_seq; (apply put_sample; [done|lia|done|lia|apply Hv; lia]).
Qed.

(** *** Whole pictures *)

Abbreviation delivered F := (delivers ed fd B P w h m F).

Lemma even_w : 2 * half w = w.
Proof. pose proof (su_w _ _ _ _ _ _ _ _ _ _ _ _ Hset). unfold half. dlia. Qed.

Lemma height_ok : i_height fs = h.
Proof. apply (su_h _ _ _ _ _ _ _ _ _ _ _ _ Hset). Qed.
Lemma width_ok : i_width fs = w.
Proof. apply (su_w _ _ _ _ _ _ _ _ _ _ _ _ Hset). Qed.

(** Luma row by row, chroma with the first half of the rows. *)
Lemma picture_rows_ok T luma chroma : (∀ y, 0 ≤ y < h → writer (row 0 y) (luma y)) →
  (∀ y, 0 ≤ y < half h → writer (T y) (chroma y)) →
  (∀ i y k, 0 < i < N → T y i y k) → delivered (for_rows fs luma chroma).
Proof.
  intros Hl Hc HT. apply set_delivers.
  eapply for_rows_ok; [exact set_h|exact height_ok|done|exact Hc|]. intros i y k (Hi & _) Hi0. apply HT. lia.
Qed.

(** One loop over the rows. *)
Lemma lines_loop_ok S body : (∀ y, 0 ≤ y < h → writer (S y) (body y)) →
  (∀ i y k, sample N len h i y k → each h S i y k) →
  delivered (λ m, m ← for_ (i_height fs) body m; Done (0, m)).
Proof.
  intros Hb HS. apply set_delivers. rewrite height_ok.
  eapply all_written; [by apply writes_for|done].
Qed.

(** Pairs in the other order. *)
Lemma swap_row_ok y : sn = 1%nat → n = 1%nat → carries id → 1 < SN → 1 < N → 0 ≤ y < half h →
  len 1 = 2 * half w → slen 1 = 2 * half w →
  (∀ x, 0 ≤ x < half w → sok y (x * 2) ∧ sok y (x * 2 + 1) ∧ el 1 y (x * 2) = el' 1 y (x * 2 + 1) ∧ el 1 y (x * 2 + 1) = el' 1 y (x * 2)) →
  writer (row 1 y) (λ m,
    uv ← pitcher_get_frame_line_vaddr (Some src) 1 y;
    vu ← pitcher_get_frame_line_vaddr (Some dst) 1 y;
    for_ (DIV_ROUND_UP w 2) (λ x m,
      v ← ld 1 uv (u32 (x * 2 + 1)) m;
      m ← st 1 vu (u32 (x * 2)) v m;
      u ← ld 1 uv (u32 (x * 2)) m;
      st 1 vu (u32 (x * 2 + 1)) u m) m).
Proof.
  intros Es Ed Hg Hs2 Hn1 Hy Hl Hsl Hv. rewrite half_w.
  eapply writes_bind; [apply src_line; [lia|done]|]. eapply writes_bind; [apply to_line; [lia|done]|].
  eapply writes_weaken; [intros i' y' k'; by apply pairs_cover|apply writes_for]. intros x Hx.
  destruct (Hv x Hx) as (Hok1 & Hok2 & E1 & E2), (pair_index x Hx) as [-> ->].
  apply take_sample; [done|lia|done|lia|done|]. apply writes_seq; [apply put_sample; [done|lia|done|lia|apply (carried id); (done || lia)]|].
  apply take_sample; [done|lia|done|lia|done|]. apply put_sample; [done|lia|done|lia|apply (carried id); (done || lia)].
Qed.

(** A row of [swc_copy_nv12], whose addresses are computed from the planes. *)
Lemma copy_plane_row_ok i y : e_storage es = e_storage ed → 0 ≤ i < SN → 0 ≤ i < N → 0 ≤ y < rows h i →
  w = Z.of_nat n * len i → 0 ≤ len i ≤ slen i → (∀ k, 0 ≤ k < len i → sok y k ∧ el i y k = el' i y k) →
  writer (row i y) (λ m,
    splane ← the_plane (Some src) i;
    dplane ← the_plane (Some dst) i;
    dline ← line_of (Some dst) i;
    sline ← line_of (Some src) i;
    d ← ptr_add (pl_virt dplane) (u32 (y * dline));
    s ← ptr_add (pl_virt splane) (u32 (y * sline));
    memcpy d s w m).
Proof.
  intros E Hi Hi' Hy Hw Hl Hv. pose proof (su_src _ _ _ _ _ _ _ _ _ _ _ _ Hset) as Hs. pose proof set_dst as Hd.
  destruct (the_plane_ok _ _ _ _ i Hs Hi) as (p & Ep & Hp), (the_plane_ok _ _ _ _ i Hd Hi') as (q & Eq & Hq).
  eapply writes_bind; [exact Ep|]. eapply writes_bind; [exact Eq|].
  eapply writes_bind; [unfold line_of; rewrite (format_of_ok _ _ _ _ Hd); by apply (plane_stride_ok _ _ _ _ _ Hd)|].
  eapply writes_bind; [unfold line_of; rewrite (format_of_ok _ _ _ _ Hs); by apply (plane_stride_ok _ _ _ _ _ Hs)|].
  pose proof (to_offset i y Hi' Hy). pose proof (set_offset i y (proj1 Hpl) Hi Hy). rewrite Hp, Hq, !u32_small by done.
  eapply writes_bind; [done|]. eapply writes_bind; [done|].
  assert (Hm : writer (row i y) (memcpy (Some (dp i y)) (Some (sp i y)) (Z.of_nat n * len i))).
  { apply (writes_memcpy dst); [exact set_dst|exact set_fit|exact set_map|exact set_apart|exact set_unit|done|done|lia|].
    intros k Hk. destruct (Hv k Hk) as [Hok <-]. rewrite <- E. apply set_source; (done || lia). }
  by rewrite <- Hw in Hm.
Qed.

(** *** Packed pictures *)

Lemma below_half y : 0 ≤ y < h → 0 ≤ y / 2 < half h.
Proof. unfold half. intros. dlia. Qed.

(** Chroma is read from the even rows, where it is the picture's. *)
Lemma unpack_422_ok c : c = sn → sn = n → carries id → e_sampling es = Packed422 → e_sampling ed = SemiPlanar →
  delivered (λ m, m ← for_ (i_height fs) (λ y m,
    yuv ← pitcher_get_frame_line_vaddr (Some src) 0 y;
    py ← pitcher_get_frame_line_vaddr (Some dst) 0 y;
    uv ← (if y mod 2 =? 0 then pitcher_get_frame_line_vaddr (Some dst) 1 (y / 2) else Done None);
    for_ w (λ x m,
      v ← ld c yuv (u32 (x * 2)) m;
      m ← st c py x v m;
      if y mod 2 =? 0 then v ← ld c yuv (u32 (x * 2 + 1)) m; st c uv x v m else Done m) m) m; Done (0, m)).
Proof.
  intros -> Ec Hg Es Ed. pose proof even_w. pose proof set_w.
  assert (HSN : SN = 1) by by rewrite Es. assert (HN : N = 2) by by rewrite Ed.
  assert (L0 : len 0 = w) by by rewrite Ed. assert (L1 : len 1 = w) by by rewrite Ed. assert (Ls : slen 0 = 2 * w) by by rewrite Es.
  apply lines_loop_ok with (S := λ y, each w (λ x, both (one 0 y x) (if y mod 2 =? 0 then one 1 (y / 2) x else nothing))).
  - intros y Hy. pose proof (below_half y Hy). eapply writes_bind; [apply src_line; [lia|done]|].
    eapply writes_bind; [apply to_line; [lia|done]|].
    assert (Huv : ∃ p, (if y mod 2 =? 0 then pitcher_get_frame_line_vaddr (Some dst) 1 (y / 2) else Done None) = Done p ∧
      (y mod 2 = 0 → p = Some (dp 1 (y / 2)))).
    { destruct (Z.eqb_spec (y mod 2) 0); [|by exists None]. eexists. split; [apply to_line; [lia|done]|done]. }
    destruct Huv as (p & Ep & Hp). eapply writes_bind; [exact Ep|]. apply writes_for. intros x Hx.
    rewrite !u32_small by lia. destruct (sampled_422 y x) as [S0 S1].
    apply take_sample; [done|lia|done|lia|by rewrite Es|]. apply writes_seq.
    { apply put_sample; [done|lia|done|lia|]. apply (carried id); [done|lia|]. by rewrite Es, Ed, packed_422_0. }
    apply writes_if; [intros Ey%Z.eqb_eq|intros _; apply writes_done]. rewrite (Hp Ey).
    apply take_sample; [done|lia|done|lia|by rewrite Es; apply S1|].
    apply put_sample; [done|lia|done|lia|]. apply (carried id); [done|lia|]. by rewrite Es, Ed, packed_422_1.
  - intros i y k (Hi & Hy & Hk). assert (i = 0 ∨ i = 1) as [-> | ->] by lia; unfold rows, half in Hy; cbn in Hy.
    + exists y. split; [done|]. exists k. split; [lia|by left].
    + exists (y * 2). split; [dlia|]. exists k. split; [lia|]. right. rewrite Z.mod_mul, Z.div_mul by lia. done.
Qed.

Lemma pack_422_ok c : c = sn → sn = n → carries id → e_sampling es = SemiPlanar → e_sampling ed = Packed422 →
  delivered (λ m, m ← for_ (i_height fs) (λ y m,
    py ← pitcher_get_frame_line_vaddr (Some src) 0 y;
    uv ← pitcher_get_frame_line_vaddr (Some src) 1 (y / 2);
    yuv ← pitcher_get_frame_line_vaddr (Some dst) 0 y;
    for_ w (λ x m,
      v ← ld c py x m;
      m ← st c yuv (u32 (x * 2)) v m;
      v ← ld c uv x m;
      st c yuv (u32 (x * 2 + 1)) v m) m) m; Done (0, m)).
Proof.
  intros -> Ec Hg Es Ed. pose proof even_w. pose proof set_w.
  assert (HSN : SN = 2) by by rewrite Es. assert (HN : N = 1) by by rewrite Ed.
  assert (L0 : slen 0 = w) by by rewrite Es. assert (L1 : slen 1 = 2 * half w) by by rewrite Es.
  assert (Ld : len 0 = 2 * w) by by rewrite Ed.
  apply lines_loop_ok with (S := λ y, each w (λ x, both (one 0 y (x * 2)) (one 0 y (x * 2 + 1)))).
  - intros y Hy. pose proof (below_half y Hy). eapply writes_bind; [apply src_line; [lia|done]|].
    eapply writes_bind; [apply src_line; [lia|done]|]. eapply writes_bind; [apply to_line; [lia|done]|].
    apply writes_for. intros x Hx. rewrite !u32_small by lia.
    apply take_sample; [done|lia|done|lia|by rewrite Es|]. apply writes_seq.
    { apply put_sample; [done|lia|done|lia|]. apply (carried id); [done|lia|]. by rewrite Es, Ed, packed_422_0. }
    apply take_sample; [done|lia|done|lia|by rewrite Es|].
    apply put_sample; [done|lia|done|lia|]. apply (carried id); [done|lia|]. by rewrite Es, Ed, packed_422_1.
  - intros i y k (Hi & Hy & Hk). assert (i = 0) as -> by lia. exists y. split; [done|]. exists (k / 2). split; [dlia|].
    destruct (decide (k mod 2 = 0)); [left|right]; split_and!; dlia.
Qed.

(** Chroma is read from one pixel in four. *)
Lemma unpack_444_ok c : c = sn → sn = n → carries id → e_sampling es = Packed444 → e_sampling ed = SemiPlanar →
  delivered (λ m, m ← for_ (i_height fs) (λ y m,
    yuv ← pitcher_get_frame_line_vaddr (Some src) 0 y;
    py ← pitcher_get_frame_line_vaddr (Some dst) 0 y;
    uv ← pitcher_get_frame_line_vaddr (Some dst) 1 (y / 2);
    for_ w (λ x m,
      v ← ld c yuv (u32 (x * 3)) m;
      m ← st c py x v m;
      if (y mod 2 =? 0) && (x mod 2 =? 0) then
        u ← ld c yuv (u32 (x * 3 + 1)) m;
        m ← st c uv x u m;
        v ← ld c yuv (u32 (x * 3 + 2)) m;
        st c uv (u32 (x + 1)) v m
      else Done m) m) m; Done (0, m)).
Proof.
  intros -> Ec Hg Es Ed. pose proof even_w. pose proof set_w.
  assert (HSN : SN = 1) by by rewrite Es. assert (HN : N = 2) by by rewrite Ed.
  assert (L0 : len 0 = w) by by rewrite Ed. assert (L1 : len 1 = w) by by rewrite Ed. assert (Ls : slen 0 = 3 * w) by by rewrite Es.
  apply lines_loop_ok with (S := λ y, each w (λ x, both (one 0 y x)
    (if (y mod 2 =? 0) && (x mod 2 =? 0) then both (one 1 (y / 2) x) (one 1 (y / 2) (x + 1)) else nothing))).
  - intros y Hy. pose proof (below_half y Hy). eapply writes_bind; [apply src_line; [lia|done]|].
    eapply writes_bind; [apply to_line; [lia|done]|]. eapply writes_bind; [apply to_line; [lia|done]|].
    apply writes_for. intros x Hx. rewrite !u32_small by lia. destruct (sampled_444 y x) as [S0 S1].
    apply take_sample; [done|lia|done|lia|by rewrite Es|]. apply writes_seq.
    { apply put_sample; [done|lia|done|lia|]. apply (carried id); [done|lia|]. by rewrite Es, Ed, packed_444_0. }
    apply writes_if; [intros Eyx|intros _; apply writes_done]. zbool. destruct S1 as [S1 S2]; [done..|].
    assert (Hx2 : x = x / 2 * 2) by dlia.
    apply take_sample; [done|lia|done|lia|by rewrite Es|]. apply writes_seq.
    { apply put_sample; [done|lia|done|lia|]. apply (carried id); [done|lia|]. rewrite Es, Ed, packed_444_c by auto.
      rewrite Hx2 at 2. by rewrite semi_0. }
    apply take_sample; [done|lia|done|lia|by rewrite Es|].
    apply put_sample; [done|lia|done|dlia|]. apply (carried id); [done|lia|]. rewrite Es, Ed, packed_444_c by auto.
    rewrite Hx2 at 2. by rewrite semi_1.
  - intros i y k (Hi & Hy & Hk). assert (i = 0 ∨ i = 1) as [-> | ->] by lia; unfold rows, half in *; cbn in Hy.
    + exists y. split; [done|]. exists k. split; [lia|by left].
    + exists (y * 2). split; [dlia|]. exists (k / 2 * 2). split; [dlia|]. right. rewrite !Z.mod_mul, Z.div_mul by lia.
      cbn. destruct (decide (k mod 2 = 0)); [left|right]; split_and!; dlia.
Qed.

Lemma pack_444_ok c : c = sn → sn = n → carries id → e_sampling es = SemiPlanar → e_sampling ed = Packed444 →
  delivered (λ m, m ← for_ (i_height fs) (λ y m,
    py ← pitcher_get_frame_line_vaddr (Some src) 0 y;
    uv ← pitcher_get_frame_line_vaddr (Some src) 1 (y / 2);
    yuv ← pitcher_get_frame_line_vaddr (Some dst) 0 y;
    for_ w (λ x m,
      v ← ld c py x m;
      m ← st c yuv (u32 (x * 3)) v m;
      u ← ld c uv (x / 2 * 2) m;
      m ← st c yuv (u32 (x * 3 + 1)) u m;
      v ← ld c uv (x / 2 * 2 + 1) m;
      st c yuv (u32 (x * 3 + 2)) v m) m) m; Done (0, m)).
Proof.
  intros -> Ec Hg Es Ed. pose proof even_w. pose proof set_w.
  assert (HSN : SN = 2) by by rewrite Es. assert (HN : N = 1) by by rewrite Ed.
  assert (L0 : slen 0 = w) by by rewrite Es. assert (L1 : slen 1 = 2 * half w) by by rewrite Es.
  assert (Ld : len 0 = 3 * w) by by rewrite Ed.
  apply lines_loop_ok with (S := λ y, each w (λ x,
    both (one 0 y (x * 3)) (both (one 0 y (x * 3 + 1)) (one 0 y (x * 3 + 2))))).
  - intros y Hy. pose proof (below_half y Hy). eapply writes_bind; [apply src_line; [lia|done]|].
    eapply writes_bind; [apply src_line; [lia|done]|]. eapply writes_bind; [apply to_line; [lia|done]|].
    apply writes_for. intros x Hx. rewrite !u32_small by lia.
    apply take_sample; [done|lia|done|lia|by rewrite Es|]. apply writes_seq.
    { apply put_sample; [done|lia|done|lia|]. apply (carried id); [done|lia|]. by rewrite Es, Ed, packed_444_0. }
    apply take_sample; [done|lia|done|dlia|by rewrite Es|]. apply writes_seq.
    { apply put_sample; [done|lia|done|lia|]. apply (carried id); [done|lia|]. by rewrite Es, Ed, packed_444_c, semi_0 by auto. }
    apply take_sample; [done|lia|done|dlia|by rewrite Es|].
    apply put_sample; [done|lia|done|lia|]. apply (carried id); [done|lia|]. by rewrite Es, Ed, packed_444_c, semi_1 by auto.
  - intros i y k (Hi & Hy & Hk). assert (i = 0) as -> by lia. exists y. split; [done|]. exists (k / 3). split; [dlia|].
    assert (k mod 3 = 0 ∨ k mod 3 = 1 ∨ k mod 3 = 2) as [?|[?|?]] by dlia; [left|right; left|right; right]; split_and!; dlia.
Qed.
End conversions.

(** ** The catalogue *)

Lemma plain_bytes_enc s : plain (Enc s Bytes false).
Proof. split; [done|]. by left. Qed.
Lemma plain_words_enc s shift : 0 ≤ shift ≤ 8 → plain (Enc s (Words shift) false).
Proof. split; [done|]. right. by exists shift. Qed.

(** Facts about the shape of two encodings. *)
Ltac shape := cbn [e_sampling e_storage e_tiled planes_of row_len unit_of rows element sampled Z.eqb].

Section catalogue.
Context (src dst : pitcher_buffer) (fs fd : pix_fmt_info) (A B : Z → Z) (P : picture) (w h : Z) (m : bmem).
Abbreviation from es ed := (setup es ed src dst fs fd A B P w h m).
Abbreviation gives ed F := (delivers ed fd B P w h m (F (Some src) (Some dst))).

(** [F] starts with reading the source's format. *)
Lemma with_format {ed} (F : pix_fmt_info → bmem → outcome (Z * bmem)) es : from es ed →
  delivers ed fd B P w h m (F fs) → delivers ed fd B P w h m (λ m, f ← format_of (Some src); F f m).
Proof. intros H. unfold delivers. by rewrite (set_src_format _ _ _ _ _ _ _ _ _ _ _ _ H). Qed.

Lemma with_to_format {ed} (F : pix_fmt_info → bmem → outcome (Z * bmem)) es : from es ed →
  delivers ed fd B P w h m (F fd) → delivers ed fd B P w h m (λ m, f ← format_of (Some dst); F f m).
Proof. intros H. unfold delivers. by rewrite (format_of_ok _ _ _ _ (su_dst _ _ _ _ _ _ _ _ _ _ _ _ H)). Qed.

Lemma with_assert {ed} b (F : bmem → outcome (Z * bmem)) : b = true →
  delivers ed fd B P w h m F → delivers ed fd B P w h m (λ m, _ ← assert_ b; F m).
Proof. by intros ->. Qed.

Ltac start H :=
  apply (with_format _ _ H); pose proof (even_w _ _ _ _ _ _ _ _ _ _ _ _ H); pose proof (set_w _ _ _ _ _ _ _ _ _ _ _ _ H);
  rewrite ?(width_ok _ _ _ _ _ _ _ _ _ _ _ _ H).
Ltac side := first [shape; first [done | lia]
  | eapply carries_id; [eassumption|done] | eapply carries_up; [eassumption|by auto|done]
  | eapply carries_down; [eassumption|by auto|done]
  | apply plain_bytes_enc | apply plain_words_enc; lia].
(** Each row lemma, with the encodings of [H]. *)
Ltac by_rows H U L C :=
  eapply picture_rows_ok with (T := U);
  [exact H|intros y Hy; eapply L; [exact H|..]|intros y Hy; eapply C; [exact H|..]|intros i y k Hi; cbn in Hi]; try side.

Lemma swc_unpack_i420_ok : from (Enc Planar Bytes false) (Enc SemiPlanar Bytes false) →
  gives (Enc SemiPlanar Bytes false) swc_unpack_i420.
Proof.
  intros H. start H. by_rows H (row 1) copy_row_ok merge_row_ok; [|split; lia].
  intros x Hx. cbn [e_sampling]. by rewrite semi_0, semi_1.
Qed.

Lemma swc_pack_i420_ok : from (Enc SemiPlanar Bytes false) (Enc Planar Bytes false) →
  gives (Enc Planar Bytes false) swc_pack_i420.
Proof.
  intros H. start H. by_rows H (λ y, both (row 1 y) (row 2 y)) copy_row_ok split_row_ok.
  - intros x Hx. cbn [e_sampling]. by rewrite semi_0, semi_1.
  - unfold both, row. lia.
Qed.

Lemma swc_unpack_i420_10le_ok : from (Enc Planar (Words 6) false) (Enc SemiPlanar (Words 0) false) →
  gives (Enc SemiPlanar (Words 0) false) swc_unpack_i420_10le.
Proof.
  intros H. start H. by_rows H (row 1) map_row_ok merge_row_ok; [|split; lia].
  intros x Hx. cbn [e_sampling]. by rewrite semi_0, semi_1.
Qed.

Lemma swc_pack_i420_10le_ok : from (Enc SemiPlanar (Words 0) false) (Enc Planar (Words 6) false) →
  gives (Enc Planar (Words 6) false) swc_pack_i420_10le.
Proof.
  intros H. start H. by_rows H (λ y, both (row 1 y) (row 2 y)) map_row_ok split_row_ok.
  - intros x Hx. cbn [e_sampling]. by rewrite semi_0, semi_1.
  - unfold both, row. lia.
Qed.

Lemma swc_unpack_nv12_10le_ok : from (Enc SemiPlanar (Words 6) false) (Enc SemiPlanar (Words 0) false) →
  gives (Enc SemiPlanar (Words 0) false) swc_unpack_nv12_10le.
Proof. intros H. start H. by_rows H (row 1) map_row_ok map_row_ok. split; lia. Qed.

Lemma swc_copy_p0xx_ok : from (Enc SemiPlanar (Words 0) false) (Enc SemiPlanar (Words 0) false) →
  gives (Enc SemiPlanar (Words 0) false) swc_copy_p0xx.
Proof. 
  intros H. start H. rewrite u32_small by lia. by_rows H (row 1) copy_row_ok copy_row_ok. split; lia.
Qed.

Lemma pitcher_sw_cvrt_8_to_16_ok : i_format fs = PIX_FMT_NV12 → i_format fd = PIX_FMT_P016 →
  from (Enc SemiPlanar Bytes false) (Enc SemiPlanar (Words 0) false) →
  gives (Enc SemiPlanar (Words 0) false) pitcher_sw_cvrt_8_to_16.
Proof.
  intros Es Ed H. start H. apply (with_to_format _ _ H), with_assert; [by rewrite Es|]. apply with_assert; [by rewrite Ed|].
  by_rows H (row 1) map_row_ok map_pairs_ok. split; lia.
Qed.

Lemma pitcher_sw_cvrt_16_to_8_ok : i_format fs = PIX_FMT_P016 → i_format fd = PIX_FMT_NV12 →
  from (Enc SemiPlanar (Words 0) false) (Enc SemiPlanar Bytes false) →
  gives (Enc SemiPlanar Bytes false) pitcher_sw_cvrt_16_to_8.
Proof.
  intros Es Ed H. start H. apply (with_to_format _ _ H), with_assert; [by rewrite Es|]. apply with_assert; [by rewrite Ed|].
  by_rows H (row 1) map_row_ok map_pairs_ok. split; lia.
Qed.

Lemma swc_unpack_nv21_ok : from (Enc SemiPlanarVU Bytes false) (Enc SemiPlanar Bytes false) →
  gives (Enc SemiPlanar Bytes false) swc_unpack_nv21.
Proof.
  intros H. start H. by_rows H (row 1) copy_row_ok swap_row_ok; [|split; lia].
  intros x Hx. cbn [e_sampling]. by rewrite semi_0, semi_1, semi_vu_0, semi_vu_1.
Qed.

Lemma swc_pack_nv21_ok : from (Enc SemiPlanar Bytes false) (Enc SemiPlanarVU Bytes false) →
  gives (Enc SemiPlanarVU Bytes false) swc_pack_nv21.
Proof.
  intros H. start H. by_rows H (row 1) copy_row_ok swap_row_ok; [|split; lia].
  intros x Hx. cbn [e_sampling]. by rewrite semi_0, semi_1, semi_vu_0, semi_vu_1.
Qed.

Lemma swc_copy_nv12_ok : from (Enc SemiPlanar Bytes false) (Enc SemiPlanar Bytes false) →
  gives (Enc SemiPlanar Bytes false) swc_copy_nv12.
Proof. intros H. start H. by_rows H (row 1) copy_plane_row_ok copy_plane_row_ok. split; lia. Qed.

(** Neutral chroma is what [exact] gives a picture without any. *)
Lemma swc_unpack_gray_ok : from (Enc Luma Bytes false) (Enc SemiPlanar Bytes false) →
  gives (Enc SemiPlanar Bytes false) swc_unpack_gray.
Proof.
  intros H. start H. by_rows H (row 1) copy_row_ok neutral_row_ok; [|split; lia].
  intros k Hk. unfold element. cbn [e_sampling Z.eqb].
  destruct (su_exact _ _ _ _ _ _ _ _ _ _ _ _ H (1 + k mod 2) (k / 2) y) as (_ & _ & E). rewrite E by (done || dlia). done.
Qed.

Lemma swc_unpack_y16_ok : from (Enc Luma (Words 0) false) (Enc SemiPlanar (Words 0) false) →
  gives (Enc SemiPlanar (Words 0) false) swc_unpack_y16.
Proof.
  intros H. start H. rewrite u32_small by lia. by_rows H (row 1) copy_row_ok neutral_row_ok; [|split; lia].
  intros k Hk. unfold element. cbn [e_sampling Z.eqb].
  destruct (su_exact _ _ _ _ _ _ _ _ _ _ _ _ H (1 + k mod 2) (k / 2) y) as (_ & _ & E). rewrite E by (done || dlia). done.
Qed.

Lemma luma_rows st c : plain (Enc Luma st false) → from (Enc SemiPlanar st false) (Enc Luma st false) →
  c = Z.of_nat (unit_of st) * w →
  delivers (Enc Luma st false) fd B P w h m (λ m, m ← for_ (i_height fs) (copy_row (Some src) (Some dst) 0 c) m; Done (0, m)).
Proof.
  intros Hp H Hc. pose proof (set_w _ _ _ _ _ _ _ _ _ _ _ _ H). eapply lines_loop_ok with (S := row 0); [exact H| |].
  - intros y Hy. eapply copy_row_ok; [exact H|by destruct Hp|shape; (done || lia)..|done].
  - intros i y k ([Hi0 Hi] & Hy & Hk). cbn in Hi. assert (i = 0) as -> by lia. exists y. by split.
Qed.

Lemma swc_pack_gray_ok : from (Enc SemiPlanar Bytes false) (Enc Luma Bytes false) →
  gives (Enc Luma Bytes false) swc_pack_gray.
Proof. intros H. start H. apply luma_rows; [apply plain_bytes_enc|done|side]. Qed.

Lemma swc_pack_y16_ok : from (Enc SemiPlanar (Words 0) false) (Enc Luma (Words 0) false) →
  gives (Enc Luma (Words 0) false) swc_pack_y16.
Proof. intros H. start H. rewrite u32_small by lia. apply luma_rows; [by apply plain_words_enc|done|side]. Qed.

Lemma swc_pack_nv12_10le_ok : from (Enc SemiPlanar (Words 0) false) (Enc SemiPlanar (Words 6) false) →
  gives (Enc SemiPlanar (Words 6) false) swc_pack_nv12_10le.
Proof.
  intros H. start H. rewrite u32_small by lia. by_rows H (row 1) scratch_row_ok map_row_ok; [|split; lia].
  eapply map_row_ok; [exact H|..]; side.
Qed.

(** Packed formats of bytes and of words. *)
Abbreviation packs st F s s' := (plain (Enc s' st false) → from (Enc s st false) (Enc s' st false) →
  gives (Enc s' st false) (F (unit_of st))).

Lemma unpack_422_gives st : packs st unpack_422 Packed422 SemiPlanar.
Proof.
  intros Hp H. start H. eapply unpack_422_ok; [exact H|by destruct Hp|done|done| |done|done]. by eapply carries_id.
Qed.
Lemma pack_422_gives st : packs st pack_422 SemiPlanar Packed422.
Proof.
  intros Hp H. start H. eapply pack_422_ok; [exact H|by destruct Hp|done|done| |done|done]. by eapply carries_id.
Qed.
Lemma unpack_444_gives st : packs st unpack_444 Packed444 SemiPlanar.
Proof.
  intros Hp H. start H. eapply unpack_444_ok; [exact H|by destruct Hp|done|done| |done|done]. by eapply carries_id.
Qed.
Lemma pack_444_gives st : packs st pack_444 SemiPlanar Packed444.
Proof.
  intros Hp H. start H. eapply pack_444_ok; [exact H|by destruct Hp|done|done| |done|done]. by eapply carries_id.
Qed.
End catalogue.

(** ** Samples of ten bits *)

Lemma bytes_from_ok n : ∀ p m g, (∀ x, 0 ≤ x < Z.of_nat n → m !! (p + x) = Some (g x)) →
  bytes_from n p m = g <$> seqZ 0 (Z.of_nat n).
Proof.
  induction n as [|n IH]; intros p m g H; cbn [bytes_from]; [done|].
  pose proof (H 0 ltac:(lia)) as H0. rewrite Z.add_0_r in H0. rewrite H0.
  rewrite (IH (p + 1) m (λ x, g (x + 1))) by (intros x Hx; rewrite <- Z.add_assoc, (Z.add_comm 1); apply H; lia).
  rewrite (seqZ_cons 0 (Z.of_nat (S n))) by lia. cbn. f_equal. change (Z.succ 0) with (0 + 1).
  replace (Z.pred (Z.of_nat (S n))) with (Z.of_nat n) by lia. rewrite <- (fmap_add_seqZ 1 0), <- list_fmap_compose.
  apply list_fmap_ext. intros j x _. cbn. f_equal. lia.
Qed.

Lemma byte_at_fmap g n x : 0 ≤ x < n → byte_at (g <$> seqZ 0 n) x = g x.
Proof.
  intros Hx. unfold byte_at. rewrite nthz_lookup by lia. rewrite list_lookup_fmap, lookup_seqZ_lt by lia. cbn. f_equal. lia.
Qed.

Lemma bits_10 v e : 0 ≤ v → 0 ≤ e < 2 ^ 10 → (∀ j, 0 ≤ j < 10 → Z.testbit v j = Z.testbit e j) →
  (∀ j, 10 ≤ j → Z.testbit v j = false) → v = e.
Proof.
  intros Hv He Hlo Hhi. apply Z.bits_inj'. intros j Hj. destruct (decide (j < 10)); [by apply Hlo; lia|].
  rewrite Hhi by lia. symmetry. eapply testbit_small; [exact He|lia].
Qed.

(** Ten bits of a row, low bits first. *)
Lemma get_bits_10 data g n nr e : data = g <$> seqZ 0 n → (∀ x, 0 ≤ x < n → is_byte (g x)) → 0 ≤ n < 2 ^ 32 →
  0 ≤ nr → nr + 10 ≤ 8 * n → nr < 2 ^ 32 → 0 ≤ e < 2 ^ 10 →
  holds_bits (λ b, Some (g b)) false nr e → pitcher_get_bits_val_le data n nr 10 = Done e.
Proof.
  intros -> Hg Hn Hnr Hend Hnr2 He Hb. unfold pitcher_get_bits_val_le.
  assert (Hz : zlen (g <$> seqZ 0 n) = n) by (unfold zlen; rewrite length_fmap, length_seqZ; lia).
  pose proof (Z.div_mod nr 8 ltac:(lia)) as Hd. pose proof (Z.mod_pos_bound nr 8 ltac:(lia)).
  destruct (get_bits_loop_spec (g <$> seqZ 0 n) n (Z.to_nat 10) (nr / 8) (nr mod 8) 0 0 10) as (v & E & Hv & Hbits);
    rewrite ?Hz; first [lia | dlia | idtac].
  { apply Forall_fmap, Forall_forall. intros x Hx%elem_of_seqZ. apply Hg. lia. }
  rewrite E. f_equal. apply bits_10; [done|done| |].
  - intros j Hj. rewrite Hbits, Z.bits_0, orb_false_l by lia. bd.
    replace (8 * (nr / 8) + nr mod 8 + (j - 0)) with (nr + j) by lia.
    destruct (Hb j Hj) as (b & [= <-] & _ & E'). rewrite <- E'. rewrite bool_decide_true by dlia.
    unfold bit_le. by rewrite byte_at_fmap by dlia.
  - intros j Hj. rewrite Hbits, Z.bits_0, orb_false_l by lia. by bd.
Qed.

Lemma scale_10 v : 0 ≤ v < 2 ^ 16 → 0 ≤ v / 2 ^ 6 < 2 ^ 10.
Proof. intros. split; [apply Z.div_pos; lia|apply Z.div_lt_upper_bound; lia]. Qed.

Lemma up_10 v : 0 ≤ v < 2 ^ 16 → v mod 2 ^ 6 = 0 → Z.shiftl (v / 2 ^ 6) 6 = v.
Proof. intros Hv Hm. rewrite Z.shiftl_mul_pow2 by lia. dlia. Qed.

(** Ten bits of a row, high bits first: they are in two bytes. *)
Lemma get_10BE_pos_ok x : 0 ≤ x < 2 ^ 20 → let r := (10 * x) mod 8 in
  get_10BE_pos x = Done (10 * x / 8, 10 * x / 8 + 1, 8 - r, 2 + r, Z.ones (8 - r), Z.ones (2 + r)) ∧ 0 ≤ r ≤ 6.
Proof.
  intros Hx r. assert (Hr : r = 0 ∨ r = 2 ∨ r = 4 ∨ r = 6) by (unfold r; dlia). split; [|lia].
  unfold get_10BE_pos. rewrite u32_small, s32_small by lia. rewrite Z.quot_div_nonneg, Z.rem_mod_nonneg by lia.
  fold r. replace (10 - (8 - r)) with (2 + r) by lia. unfold shl.
  destruct Hr as [-> |[-> |[-> | ->]]]; reflexivity.
Qed.

Lemma ten_bits_be b0 b1 r e : is_byte b0 → is_byte b1 → 0 ≤ r ≤ 6 → 0 ≤ e < 2 ^ 10 →
  (∀ j, 0 ≤ j < 8 - r → Z.testbit b0 (7 - r - j) = Z.testbit e (9 - j)) →
  (∀ j, 8 - r ≤ j < 10 → Z.testbit b1 (15 - r - j) = Z.testbit e (9 - j)) →
  Z.lor (Z.shiftl (Z.land b0 (Z.ones (8 - r))) (2 + r)) (Z.land (Z.shiftr b1 (8 - (2 + r))) (Z.ones (2 + r))) = e.
Proof.
  intros H0 H1 Hr He Hb0 Hb1. apply bits_10; [|done| |].
  - apply Z.lor_nonneg. split; [apply Z.shiftl_nonneg|]; apply Z.land_nonneg; right; rewrite Z.ones_equiv; pose proof (Z.pow_pos_nonneg 2 (8 - r)); pose proof (Z.pow_pos_nonneg 2 (2 + r)); lia.
  - intros j Hj. rewrite Z.lor_spec, Z.shiftl_spec, !Z.land_spec, Z.shiftr_spec by lia.
    destruct (decide (2 + r ≤ j)).
    + rewrite (Z.ones_spec_high (2 + r)), andb_false_r, orb_false_r, Z.ones_spec_low, andb_true_r by lia.
      specialize (Hb0 (9 - j) ltac:(lia)). replace (9 - (9 - j)) with j in Hb0 by lia. rewrite <- Hb0. f_equal. lia.
    + rewrite (Z.testbit_neg_r _ (j - (2 + r))), andb_false_l, orb_false_l, Z.ones_spec_low, andb_true_r by lia.
      specialize (Hb1 (9 - j) ltac:(lia)). replace (9 - (9 - j)) with j in Hb1 by lia. rewrite <- Hb1. f_equal. lia.
  - intros j Hj. rewrite Z.lor_spec, Z.shiftl_spec, !Z.land_spec by lia.
    by rewrite !Z.ones_spec_high, !andb_false_r by lia.
Qed.

Lemma get_u8 a mask shift m v : m !! a = Some v → 0 ≤ shift < 32 →
  GET_U8_BITS (Some a) mask shift m = Done (Z.land (Z.shiftr v shift) mask).
Proof.
  intros E Hs. unfold GET_U8_BITS, ld, shr. cbn [of_option]. rewrite bind_done. cbn [load_le Z.of_nat].
  rewrite Z.mul_0_r, Z.add_0_r. unfold read_at. rewrite E. cbn [of_option]. rewrite !bind_done.
  rewrite bind_defined_true by (apply andb_true_iff; rewrite Z.leb_le, Z.ltb_lt; lia). rewrite bind_done. f_equal. f_equal. f_equal. lia.
Qed.

Lemma tile_pos a offset ts tw y x : 0 < tw → 0 ≤ x < 2 ^ 32 → 0 ≤ ts → 0 ≤ y → ts * (x / tw) + tw * y + x mod tw < 2 ^ 32 →
  TILE_POS_TO_ADDR (Some a) offset ts tw y x = Done (Some (a + offset + (ts * (x / tw) + tw * y + x mod tw))).
Proof.
  intros Ht Hx Hts Hy Hb. pose proof (Z.mod_pos_bound x tw Ht). assert (0 ≤ x / tw) by (apply Z.div_pos; lia).
  assert (0 ≤ ts * (x / tw)) by nia. assert (0 ≤ tw * y) by nia.
  unfold TILE_POS_TO_ADDR, quotient. rewrite (u32_small x) by lia. rewrite (proj2 (Z.eqb_neq tw 0)) by lia.
  cbn [negb defined]. rewrite !bind_done. cbn [ptr_add of_option obind]. rewrite bind_done.
  rewrite (u32_small (ts * _)), (u32_small (tw * y)) by lia. rewrite (u32_small (ts * (x / tw) + tw * y)) by lia. by rewrite u32_small by lia.
Qed.

Section ten_bits.
Context (src dst : pitcher_buffer) (fs fd : pix_fmt_info) (A B : Z → Z) (P : picture) (w h : Z) (m : bmem).
Abbreviation W := (Enc SemiPlanar (Words 0) false).

Section little_endian.
Abbreviation L := (Enc SemiPlanar Bits10LE false).
Context (H : setup L W src dst fs fd A B P w h m).
Context (Hbytes : readable fs 2 A m).

Lemma bits_row_ok i y : 0 ≤ i < 2 → 0 ≤ y < rows h i →
  writes fd 2 B 2 (row_len SemiPlanar w) h (λ i y k, scale (Words 0) (element SemiPlanar P i y k)) m (row i y)
    (unpack_bits_row (Some src) (Some dst) fs i y).
Proof.
  intros Hi Hy. pose proof (su_src _ _ _ _ _ _ _ _ _ _ _ _ H) as Hs. cbn in Hs.
  pose proof (set_w _ _ _ _ _ _ _ _ _ _ _ _ H) as Hw. pose proof (even_w _ _ _ _ _ _ _ _ _ _ _ _ H) as He.
  destruct (su_w _ _ _ _ _ _ _ _ _ _ _ _ H) as (Ew & Hw14 & _).
  destruct (su_fits_src _ _ _ _ _ _ _ _ _ _ _ _ H i Hi) as [Hl Hsz]. unfold row_bytes in Hl. cbn in Hl, Hsz.
  assert (Hlen : row_len SemiPlanar w i = w) by (unfold row_len; destruct (i =? 0); lia). cbn in Hlen. rewrite Hlen in Hl.
  pose proof (bo_size _ _ _ _ Hs i Hi) as Hsize. pose proof (bo_line _ _ _ _ Hs i Hi) as Hline.
  unfold unpack_bits_row. rewrite Ew. eapply writes_bind; [apply (to_line _ _ _ _ _ _ _ _ _ _ _ _ H); done|].
  eapply writes_bind; [apply (set_line _ _ _ _ _ _ _ _ _ _ _ _ H); done|].
  eapply writes_bind; [by apply (plane_stride_ok _ _ _ _ _ Hs)|].
  eapply writes_weaken; [|apply writes_for with (S := one i y)].
  { intros i' y' k' (_ & _ & Hk) [-> ->]. exists k'. cbn in Hk. split; [cbn in *; lia|done]. }
  intros k Hk m1 Hm1. cbn [of_option]. rewrite bind_done, u32_small by lia.
  set (p := A i + y * pi_line (plane fs i)). set (g := λ x, default 0 (m !! (p + x))).
  assert (Hg : ∀ x, 0 ≤ x < pi_line (plane fs i) → m !! (p + x) = Some (g x) ∧ m1 !! (p + x) = Some (g x) ∧ is_byte (g x)).
  { intros x Hx. assert (Ha : area fs A i (p + x)) by (unfold area, p; nia).
    destruct (Hbytes i _ Hi Ha) as (b & Eb & Hb). unfold g. rewrite Eb.
    rewrite (fr_out _ _ _ _ _ Hm1) by (apply (su_outside _ _ _ _ _ _ _ _ _ _ _ _ H i _ Hi Ha)). done. }
  assert (Hsh : holds_bits (λ b, Some (g b)) false (10 * k) (element SemiPlanar P i y k / 2 ^ 6)).
  { intros j Hj. destruct (su_shown _ _ _ _ _ _ _ _ _ _ _ _ H i y k Hi Hy ltac:(cbn; lia) eq_refl j Hj) as (b & Eb & Hb).
    cbn in Eb. fold p in Eb. exists b. split; [|done]. rewrite <- Eb. symmetry. apply Hg. dlia. }
  pose proof (set_element _ _ _ _ _ _ _ _ _ _ _ _ H SemiPlanar i y k Hi) as Hel.
  assert (Hex : element SemiPlanar P i y k mod 2 ^ 6 = 0).
  { destruct (element_picture SemiPlanar P i y k Hi) as (c & x & y' & -> & _). apply (su_exact _ _ _ _ _ _ _ _ _ _ _ _ H c x y'). }
  rewrite (bytes_from_ok (Z.to_nat (pi_line (plane fs i))) p m1 g), Z2Nat.id by (lia || intros x Hx; apply Hg; lia).
  rewrite (get_bits_10 _ g (pi_line (plane fs i)) (k * 10) (element SemiPlanar P i y k / 2 ^ 6)), bind_done; try done; try lia.
  - apply (put_sample _ _ _ _ _ _ _ _ _ _ _ _ H); [done|done|done|cbn; lia| |done]. rewrite up_10 by done. unfold scale.
    change (2 ^ (16 - depth_of (e_storage W))) with 1. rewrite Z.div_1_r, u32_small by lia. apply Z.mod_small, Hel.
  - intros x Hx. by apply Hg.
  - nia.
  - dlia.
  - by apply scale_10.
  - by rewrite Z.mul_comm.
Qed.

Lemma swc_unpack_nvx2_ok : delivers W fd B P w h m (swc_unpack_nvx2 (Some src) (Some dst)).
Proof.
  apply (with_format _ _ _ _ _ _ _ _ _ _ _ _ H). eapply picture_rows_ok with (T := row 1); [exact H| | |].
  - intros y Hy. by apply bits_row_ok.
  - intros y Hy. by apply bits_row_ok.
  - intros i y k Hi. cbn in Hi. split; lia.
Qed.
End little_endian.
Section big_endian.
Abbreviation T := (Enc SemiPlanar Bits10BE true).
Context (H : setup T W src dst fs fd A B P w h m).
Context (Hbytes : readable fs 2 A m).
Abbreviation tw := (i_tile_ws fs).
Abbreviation th := (i_tile_hs fs).
Abbreviation sline i := (pi_line (plane fs i)).

Lemma get_10BE_ok i y k m1 : 0 ≤ i < 2 → 0 ≤ y < rows h i → 0 ≤ k < w → framed fd 2 B m m1 →
  get_10BE (Some (A i)) (y / th * (sline i * th)) (tw * th) tw (y mod th) k m1
  = Done (element SemiPlanar P i y k / 2 ^ 6).
Proof.
  intros Hi Hy Hk Hm1. destruct (su_w _ _ _ _ _ _ _ _ _ _ _ _ H) as (_ & Hw14 & _).
  pose proof (even_w _ _ _ _ _ _ _ _ _ _ _ _ H) as He.
  pose proof (su_fits_src _ _ _ _ _ _ _ _ _ _ _ _ H) as Hfit. destruct (Hfit i Hi) as [Hl (Htw & Hth & Hdiv & Hsz)].
  pose proof (bo_size _ _ _ _ (su_src _ _ _ _ _ _ _ _ _ _ _ _ H) i Hi) as Hsize.
  assert (Hlen : row_len SemiPlanar w i = w) by (unfold row_len; destruct (i =? 0); lia).
  assert (Hrow : row_bytes T w i = (10 * w + 7) / 8) by (unfold row_bytes; cbn [e_storage e_sampling]; by rewrite Hlen).
  (* A byte of the row, as the code addresses it. *)
  assert (Hb : ∀ b, 0 ≤ b < row_bytes T w i →
    TILE_POS_TO_ADDR (Some (A i)) (y / th * (sline i * th)) (tw * th) tw (y mod th) b = Done (Some (byte_addr true fs A i y b)) ∧
    ∃ v, m1 !! byte_addr true fs A i y b = Some v ∧ is_byte v ∧ m !! byte_addr true fs A i y b = Some v).
  { intros b Hb. pose proof (byte_addr_area T fs A w h i y b Hfit Hi Hy Hb) as Ha. split.
    - rewrite tile_pos; [unfold byte_addr; do 2 f_equal; lia|lia|rewrite Hrow in Hb; dlia|nia|apply Z.mod_pos_bound; lia|].
      unfold area, byte_addr in Ha. cbn [e_tiled] in Ha. assert (0 ≤ y / th * (sline i * th)) by (apply Z.mul_nonneg_nonneg; [apply Z.div_pos; lia|nia]). lia.
    - destruct (Hbytes i _ Hi Ha) as (v & Ev & Hv). exists v.
      rewrite (fr_out _ _ _ _ _ Hm1) by (apply (su_outside _ _ _ _ _ _ _ _ _ _ _ _ H i _ Hi Ha)). done. }
  destruct (get_10BE_pos_ok k) as [E Hr]; [lia|]. unfold get_10BE. rewrite E, bind_done. cbv beta iota.
  set (r := (10 * k) mod 8) in *. assert (Hd : 10 * k = 8 * (10 * k / 8) + r) by (unfold r; dlia).
  destruct (Hb (10 * k / 8)) as (-> & b0 & E0 & H0 & E0'); [dlia|].
  destruct (Hb (10 * k / 8 + 1)) as (-> & b1 & E1 & H1 & E1'); [dlia|].
  rewrite !bind_done, (get_u8 _ (Z.ones (8 - r)) 0 m1 b0 E0), bind_done by lia. unfold shl.
  rewrite bind_defined_true by (apply andb_true_iff; rewrite Z.leb_le, Z.ltb_lt; lia). rewrite bind_done.
  rewrite (get_u8 _ _ _ m1 b1 E1), bind_done, Z.shiftr_0_r by lia.
  pose proof (scale_10 _ (set_element _ _ _ _ _ _ _ _ _ _ _ _ H SemiPlanar i y k Hi)) as Hel.
  assert (Hk' : 0 ≤ k < row_len SemiPlanar w i) by (rewrite Hlen; lia).
  pose proof (su_shown _ _ _ _ _ _ _ _ _ _ _ _ H i y k Hi Hy Hk' eq_refl) as Hsh. cbn [e_storage e_sampling e_tiled stored] in Hsh.
  rewrite (ten_bits_be b0 b1 r (element SemiPlanar P i y k / 2 ^ 6)); try done.
  - f_equal. apply u16_small. lia.
  - intros j Hj. destruct (Hsh j ltac:(lia)) as (b & Eb & _ & <-). cbv beta in Eb.
    replace ((10 * k + j) / 8) with (10 * k / 8) in Eb by dlia. rewrite E0' in Eb. injection Eb as <-. f_equal. dlia.
  - intros j Hj. destruct (Hsh j ltac:(lia)) as (b & Eb & _ & <-). cbv beta in Eb.
    replace ((10 * k + j) / 8) with (10 * k / 8 + 1) in Eb by dlia. rewrite E1' in Eb. injection Eb as <-. f_equal. dlia.
Qed.

(** The ten bits as a sample of sixteen. *)
Lemma ten_sixteen i y k : 0 ≤ i < 2 → Z.shiftl (element SemiPlanar P i y k / 2 ^ 6) 6 mod 256 ^ Z.of_nat 2
  = scale (Words 0) (element SemiPlanar P i y k).
Proof.
  intros Hi. pose proof (set_element _ _ _ _ _ _ _ _ _ _ _ _ H SemiPlanar i y k Hi) as Hel.
  assert (Hex : element SemiPlanar P i y k mod 2 ^ 6 = 0).
  { destruct (element_picture SemiPlanar P i y k Hi) as (c & x & y' & -> & _). apply (su_exact _ _ _ _ _ _ _ _ _ _ _ _ H c x y'). }
  rewrite up_10 by done. unfold scale. change (2 ^ (16 - depth_of (Words 0))) with 1. rewrite Z.div_1_r. apply Z.mod_small, Hel.
Qed.

Lemma plane_start i : 0 ≤ i < 2 → pitcher_get_frame_line_vaddr (Some src) i 0 = Done (Some (A i)).
Proof.
  intros Hi. rewrite (line_ok _ _ _ _ _ _ (su_src _ _ _ _ _ _ _ _ _ _ _ _ H)) by (done || lia). by rewrite Z.mul_0_l, Z.add_0_r.
Qed.

Lemma tile_offset i y : 0 ≤ i < 2 → 0 ≤ y < rows h i →
  u32 (y / th * u32 (sline i * th)) = y / th * (sline i * th) ∧ 0 < th ∧ u32 (tw * th) = tw * th.
Proof.
  intros Hi Hy. pose proof (su_fits_src _ _ _ _ _ _ _ _ _ _ _ _ H) as Hfit. destruct (Hfit i Hi) as [Hl (Htw & Hth & Hdiv & Hsz)].
  pose proof (bo_size _ _ _ _ (su_src _ _ _ _ _ _ _ _ _ _ _ _ H) i Hi) as Hsize.
  pose proof (bo_line _ _ _ _ (su_src _ _ _ _ _ _ _ _ _ _ _ _ H) i Hi) as Hline.
  assert (Hq : 0 ≤ y / th < (rows h i + th - 1) / th).
  { split; [apply Z.div_pos; lia|]. apply Z.div_lt_upper_bound; [lia|].
    pose proof (Z.div_mod (rows h i + th - 1) th). pose proof (Z.mod_pos_bound (rows h i + th - 1) th). lia. }
  assert (0 ≤ sline i * th) by nia. assert (sline i * th < 2 ^ 32) by nia.
  rewrite (u32_small (sline i * th)), !u32_small by nia. split_and!; (done || lia).
Qed.

Lemma swc_unpack_nv12_10be_8l128_ok : delivers W fd B P w h m (swc_unpack_nv12_10be_8l128 (Some src) (Some dst)).
Proof.
  pose proof (set_w _ _ _ _ _ _ _ _ _ _ _ _ H) as Hw. pose proof (even_w _ _ _ _ _ _ _ _ _ _ _ _ H) as He.
  pose proof (set_h _ _ _ _ _ _ _ _ _ _ _ _ H) as Hh. pose proof (su_src _ _ _ _ _ _ _ _ _ _ _ _ H) as Hs.
  apply (with_format _ _ _ _ _ _ _ _ _ _ _ _ H). eapply set_delivers; [exact H|].
  eapply converted_bind; [apply (plane_start 0); lia|]. eapply converted_bind; [apply (plane_start 1); lia|].
  eapply converted_bind; [apply (plane_stride_ok _ _ _ _ 0 Hs); cbn; lia|].
  eapply converted_bind; [apply (plane_stride_ok _ _ _ _ 1 Hs); cbn; lia|].
  rewrite (height_ok _ _ _ _ _ _ _ _ _ _ _ _ H), (width_ok _ _ _ _ _ _ _ _ _ _ _ _ H).
  eapply all_written with (S := each h (λ y, each w (λ x, both (one 0 y x)
    (if (y mod 2 =? 0) && (x mod 2 =? 0) then both (one 1 (y / 2) x) (one 1 (y / 2) (x + 1)) else nothing)))).
  - apply writes_for. intros y Hy. pose proof (below_half h y Hy) as Hy2.
    destruct (tile_offset 0 y) as (Eo & Hth & Ets); [lia|done|]. destruct (tile_offset 1 (y / 2)) as (Eo1 & _ & _); [lia|done|].
    eapply writes_bind; [apply (to_line _ _ _ _ _ _ _ _ _ _ _ _ H); [by cbn|done]|].
    eapply writes_bind; [apply (to_line _ _ _ _ _ _ _ _ _ _ _ _ H); [by cbn|done]|].
    eapply writes_bind; [by apply quotient_ok|]. eapply writes_bind; [by apply quotient_ok|]. cbv zeta. rewrite Eo, Eo1, Ets.
    apply writes_for. intros x Hx. rewrite (u32_small (x + 1)) by lia.
    eapply writes_read; [intros m1 Hm1; apply get_10BE_ok; (done || lia)|]. apply writes_seq.
    { apply (put_sample _ _ _ _ _ _ _ _ _ _ _ _ H); [done|by cbn|done|done|]. by apply (ten_sixteen 0). }
    apply writes_if; [intros Eyx|intros _; apply writes_done]. zbool.
    eapply writes_read; [intros m1 Hm1; apply get_10BE_ok; (done || lia)|].
    eapply writes_read; [intros m1 Hm1; apply get_10BE_ok; (done || dlia)|]. apply writes_seq.
    + apply (put_sample _ _ _ _ _ _ _ _ _ _ _ _ H); [done|by cbn|done|cbn; lia|]. by apply (ten_sixteen 1).
    + apply (put_sample _ _ _ _ _ _ _ _ _ _ _ _ H); [done|by cbn|done|cbn; dlia|]. by apply (ten_sixteen 1).
  - intros i y k (Hi & Hy & Hk). cbn in Hi, Hk. assert (i = 0 ∨ i = 1) as [-> | ->] by lia; cbn in Hk; unfold rows, half in *; cbn in Hy.
    + exists y. split; [done|]. exists k. split; [lia|by left].
    + exists (y * 2). split; [dlia|]. exists (k / 2 * 2). split; [dlia|]. right. rewrite !Z.mod_mul, Z.div_mul by lia.
      cbn. destruct (decide (k mod 2 = 0)); [left|right]; split_and!; dlia.
Qed.
End big_endian.
End ten_bits.

(** ** Tiles of bytes *)

Section tiled.
Context (src dst : pitcher_buffer) (fs fd : pix_fmt_info) (A B : Z → Z) (P : picture) (w h : Z) (m : bmem).
Abbreviation N8 := (Enc SemiPlanar Bytes false).
Abbreviation T8 := (Enc SemiPlanar Bytes true).
Context (H : setup T8 N8 src dst fs fd A B P w h m).
Abbreviation tw := (i_tile_ws fs).
Abbreviation th := (i_tile_hs fs).
Abbreviation sline i := (pi_line (plane fs i)).
Abbreviation dline i := (pi_line (plane fd i)).
Abbreviation value := (λ i y k, scale Bytes (element SemiPlanar P i y k)).
Abbreviation writer S f := (writes fd 2 B 1 (row_len SemiPlanar w) h value m S f).

(** What the format says of the tiles of a plane. *)
Lemma tile_facts i : 0 ≤ i < 2 → 0 < tw ∧ 0 < th ∧ row_len SemiPlanar w i = w ∧ w ≤ sline i ∧
  sline i / tw * (tw * th) = sline i * th ∧ tw * th < 2 ^ 32 ∧
  (∀ q, 0 ≤ q → q * th < rows h i → q * (sline i * th) + sline i * th < 2 ^ 32) ∧ 0 ≤ sline i * th.
Proof.
  intros Hi. destruct (su_fits_src _ _ _ _ _ _ _ _ _ _ _ _ H i Hi) as [Hl (Htw & Hth & Hdiv & Hsz)].
  pose proof (even_w _ _ _ _ _ _ _ _ _ _ _ _ H) as He.
  assert (Hlen : row_len SemiPlanar w i = w) by (unfold row_len; destruct (i =? 0); lia).
  unfold row_bytes in Hl. cbn [e_storage e_sampling] in Hl. rewrite Hlen in Hl.
  pose proof (bo_size _ _ _ _ (su_src _ _ _ _ _ _ _ _ _ _ _ _ H) i Hi) as Hsize.
  pose proof (bo_line _ _ _ _ (su_src _ _ _ _ _ _ _ _ _ _ _ _ H) i Hi) as Hline.
  apply Z.mod_divide in Hdiv as [z Hz]; [|lia].
  split_and!; try (done || lia).
  - rewrite Hz, Z.div_mul by lia. lia.
  - nia.
  - intros q Hq Hq'. assert (q + 1 ≤ (rows h i + th - 1) / th) by (apply Z.div_le_lower_bound; lia).
    assert ((q + 1) * (sline i * th) ≤ (rows h i + th - 1) / th * (sline i * th)) by (apply Z.mul_le_mono_nonneg_r; nia). lia.
Qed.

Lemma tile_source i q r t j : 0 ≤ i < 2 → 0 ≤ q → 0 ≤ r < th → q * th + r < rows h i → 0 ≤ t → 0 ≤ j < tw → t * tw + j < w →
  source fd 2 B m (A i + q * (sline i * th) + t * (tw * th) + r * tw + Z.of_nat 1 * j) 1 (value i (q * th + r) (t * tw + j)).
Proof.
  intros Hi Hq Hr Hy Ht Hj Hk. destruct (tile_facts i Hi) as (Htw & Hth & Hlen & _).
  assert (Ey : (q * th + r) / th = q ∧ (q * th + r) mod th = r).
  { rewrite Z.add_comm, Z.div_add, Z.mod_add, Z.div_small, Z.mod_small by lia. lia. }
  assert (Ek : (t * tw + j) / tw = t ∧ (t * tw + j) mod tw = j).
  { rewrite Z.add_comm, Z.div_add, Z.mod_add, Z.div_small, Z.mod_small by lia. lia. }
  assert (Ea : byte_addr true fs A i (q * th + r) (t * tw + j) = A i + q * (sline i * th) + t * (tw * th) + r * tw + j).
  { unfold byte_addr. destruct Ey as [-> ->], Ek as [-> ->]. lia. }
  assert (Hy' : 0 ≤ q * th + r < rows h i) by nia. assert (Hk' : 0 ≤ t * tw + j < row_len SemiPlanar w i) by (rewrite Hlen; nia).
  pose proof (set_element _ _ _ _ _ _ _ _ _ _ _ _ H SemiPlanar i (q * th + r) (t * tw + j) Hi) as Hel.
  pose proof (scale_range N8 _ (plain_bytes_enc _) Hel) as Hv. cbn [e_storage unit_of] in Hv.
  pose proof (su_shown _ _ _ _ _ _ _ _ _ _ _ _ H i _ _ Hi Hy' Hk' eq_refl) as Hs. cbn [e_storage e_sampling e_tiled stored] in Hs.
  split_and!; [| |apply Hv|apply Hv].
  - intros b Hb. assert (b = 0) as -> by lia. specialize (Hs 0 ltac:(lia)). cbv beta in Hs. rewrite Z.add_0_r, Ea in Hs.
    refine (eq_trans _ Hs). f_equal. lia.
  - intros b Hb. apply (su_outside _ _ _ _ _ _ _ _ _ _ _ _ H i _ Hi).
    pose proof (byte_addr_area T8 fs A w h i _ _ (su_fits_src _ _ _ _ _ _ _ _ _ _ _ _ H) Hi Hy' Hk') as Ha.
    cbn [e_tiled] in Ha. rewrite Ea in Ha. unfold area in *. lia.
Qed.

(** The lines of a tile. *)
Lemma tile_lines_ok i q t x c : 0 ≤ i < 2 → 0 ≤ q → 0 ≤ t → 0 ≤ x ≤ tw → t * tw + x ≤ w → ∀ r, 0 ≤ r → 
  r + Z.of_nat c ≤ th → q * th + r + Z.of_nat c ≤ rows h i →
  writer (λ i' y' k', i' = i ∧ q * th + r ≤ y' < q * th + r + Z.of_nat c ∧ t * tw ≤ k' < t * tw + x)
    (unpack_tile_2_nv12_lines c (Some (A i + q * (sline i * th) + t * (tw * th) + r * tw)) tw x
       (Some (B i + (q * th + r) * dline i)) (dline i) (t * tw)).
Proof.
  intros Hi Hq Ht Hx Hw. destruct (tile_facts i Hi) as (Htw & Hth & Hlen & _).
  induction c as [|c IH]; intros r Hr Hc Hy; cbn [unpack_tile_2_nv12_lines].
  { eapply writes_weaken; [|apply writes_done]. intros i' y' k' _ (_ & Hf & _). lia. }
  assert (Hm : writer (λ i' y' k', i' = i ∧ y' = q * th + r ∧ t * tw ≤ k' < t * tw + x)
    (memcpy (Some (B i + (q * th + r) * dline i + t * tw)) (Some (A i + q * (sline i * th) + t * (tw * th) + r * tw)) x)).
  { pose proof (writes_part dst fd 2 B 1 (row_len SemiPlanar w) h value m (set_dst _ _ _ _ _ _ _ _ _ _ _ _ H)
      (set_fit _ _ _ _ _ _ _ _ _ _ _ _ H) (set_map _ _ _ _ _ _ _ _ _ _ _ _ H) (set_apart _ _ _ _ _ _ _ _ _ _ _ _ H)
      ltac:(lia) i (q * th + r) (t * tw) x (A i + q * (sline i * th) + t * (tw * th) + r * tw)) as Hp.
    replace (Z.of_nat 1 * (t * tw)) with (t * tw) in Hp by lia. replace (Z.of_nat 1 * x) with x in Hp by lia.
    apply Hp; [done|nia|lia|nia|by rewrite Hlen|]. intros j Hj. apply tile_source; (done || lia). }
  cbn [ptr_add of_option obind]. eapply writes_bind; [reflexivity|].
  eapply writes_weaken; [|eapply writes_seq; [exact Hm|]].
  2:{ eapply writes_bind; [reflexivity|]. eapply writes_bind; [reflexivity|].
      replace (A i + q * (sline i * th) + t * (tw * th) + r * tw + tw) with (A i + q * (sline i * th) + t * (tw * th) + (r + 1) * tw) by lia.
      replace (B i + (q * th + r) * dline i + dline i) with (B i + (q * th + (r + 1)) * dline i) by lia. apply IH; lia. }
  intros i' y' k' _ (-> & Hy' & Hk'). destruct (decide (y' = q * th + r)) as [->|]; [by left|right]. split_and!; (done || lia).
Qed.

(** A row of tiles. *)
Lemma tile_row_ok i q c : 0 ≤ i < 2 → 0 ≤ q → 0 ≤ c ≤ th → q * th + c ≤ rows h i → q * th < rows h i →
  ∀ fuel t, 0 ≤ t → w - t * tw ≤ Z.of_nat fuel →
  writer (λ i' y' k', i' = i ∧ q * th ≤ y' < q * th + c ∧ t * tw ≤ k')
    (unpack_tile_row fuel (Some (A i + q * (sline i * th))) tw (tw * th) w c
       (Some (B i + q * th * dline i)) (dline i) 0 (Z.min (t * tw) w) t).
Proof.
  intros Hi Hq Hc Hy Hqh. destruct (tile_facts i Hi) as (Htw & Hth & Hlen & Hws & Hdiv & Hts & Hoff & _).
  pose proof (set_w _ _ _ _ _ _ _ _ _ _ _ _ H) as Hw.
  induction fuel as [|fuel IH]; intros t Ht Hf; cbn [unpack_tile_row];
    destruct (Z.ltb_spec (Z.min (t * tw) w) w) as [Hlt|Hge]; try lia.
  1,3: eapply writes_weaken; [|apply writes_done]; intros i' y' k' (_ & _ & Hk) (-> & _ & Hk'); rewrite Hlen in Hk; lia.
  rewrite Z.min_l in * by lia. rewrite min_Zmin, (u32_small (w - t * tw)) by lia.
  assert (Htt : 0 ≤ tw * th * t < 2 ^ 32).
  { specialize (Hoff q Hq Hqh).
    assert (t ≤ sline i / tw) by (apply Z.div_le_lower_bound; lia). assert (0 ≤ q * (sline i * th)) by nia. nia. }
  eapply writes_bind; [reflexivity|]. cbn [ptr_add of_option obind].
  rewrite (u32_small (tw * th * t)), (u32_small (tw * t)), Z.add_0_l, (u32_small (tw * t)) by lia.
  eapply writes_weaken; [|eapply writes_seq].
  2:{ unfold unpack_tile_2_nv12. replace (tw * t) with (t * tw) by lia.
      pose proof (tile_lines_ok i q t (Z.min tw (w - t * tw)) (Z.to_nat c) Hi Hq Ht ltac:(lia) ltac:(lia) 0) as Hl.
      rewrite Z2Nat.id, Z.mul_0_l, !Z.add_0_r in Hl by lia. replace (tw * th * t) with (t * (tw * th)) by lia. apply Hl; lia. }
  2:{ rewrite (u32_small (t + 1)), u32_small by lia.
      replace (t * tw + Z.min tw (w - t * tw)) with (Z.min ((t + 1) * tw) w) by lia. apply IH; nia. }
  intros i' y' k' (_ & _ & Hk) (-> & Hy' & Hk'). destruct (decide (k' < (t + 1) * tw)); [left|right; split_and!; (done || lia)].
  destruct Hk as [_ Hk]. rewrite Hlen in Hk. split_and!; (done || lia).
Qed.

Lemma tile_rows_ok i Q : 0 ≤ i < 2 → Q = (rows h i + th - 1) / th → ∀ nty q, 0 ≤ q → q + Z.of_nat nty = Q → 
  ∀ s d, (q < Q → s = Some (A i + q * (sline i * th)) ∧ d = Some (B i + q * th * dline i)) →
  writer (λ i' y' k', i' = i ∧ q * th ≤ y') (unpack_tile_rows nty s tw th w (rows h i) (sline i / tw) d (dline i) 0 q).
Proof.
  intros Hi HQ. destruct (tile_facts i Hi) as (Htw & Hth & Hlen & Hws & Hdiv & Hts & Hoff & Hpos).
  pose proof (set_w _ _ _ _ _ _ _ _ _ _ _ _ H) as Hw. pose proof (set_h _ _ _ _ _ _ _ _ _ _ _ _ H) as Hh.
  assert (Hrows : rows h i ≤ h ∧ 0 ≤ rows h i) by (unfold rows; pose proof (half_le h ltac:(lia)); destruct (i =? 0); lia).
  assert (Hend : ∀ q, q < Q ↔ q * th < rows h i).
  { intros q. rewrite HQ. pose proof (Z.div_mod (rows h i + th - 1) th). pose proof (Z.mod_pos_bound (rows h i + th - 1) th). nia. }
  induction nty as [|nty IH]; intros q Hq Hn s d Hsd; cbn [unpack_tile_rows].
  { eapply writes_weaken; [|apply writes_done]. intros i' y' k' (_ & Hy' & _) [-> Hy]. exfalso.
    assert (Hqq : ¬ q < Q) by lia. rewrite Hend in Hqq. lia. }
  destruct Hsd as [-> ->]; [lia|]. assert (Hqh : q * th < rows h i) by (apply Hend; lia). specialize (Hoff q Hq Hqh).
  rewrite (u32_small (tw * th)) by nia. rewrite min_Zmin, (u32_small (th * q)), (u32_small (rows h i - th * q)) by lia.
  set (c := Z.min th (rows h i - th * q)).
  pose proof (to_offset _ _ _ _ _ _ _ _ _ _ _ _ H i (q * th) Hi ltac:(nia)) as Hoffd.
  eapply writes_weaken; [|eapply writes_seq].
  2:{ pose proof (tile_row_ok i q c Hi Hq ltac:(lia) ltac:(lia) Hqh (Z.to_nat w) 0 ltac:(lia) ltac:(lia)) as Hr.
      rewrite Z.mul_0_l, Z.min_l in Hr by lia. exact Hr. }
  2:{ cbn [ptr_add of_option obind]. eapply writes_bind; [reflexivity|]. eapply writes_bind; [reflexivity|].
      apply IH; [lia|lia|]. intros Hq1. assert (Hq1h : (q + 1) * th < rows h i) by (by apply Hend).
      pose proof (to_offset _ _ _ _ _ _ _ _ _ _ _ _ H i ((q + 1) * th) Hi ltac:(nia)) as Hoff1.
      rewrite Hdiv, !u32_small by (nia || (cbn in Hoff1; nia)). split; f_equal; lia. }
  intros i' y' k' (_ & Hy' & Hk') [-> Hy]. destruct (decide (y' < q * th + c)); [left; split_and!; (done || lia)|right; split; [done|lia]].
Qed.

Lemma swc_unpack_tiled_nv12_ok : i_interlaced fs = 0 →
  delivers N8 fd B P w h m (swc_unpack_tiled_nv12 (Some src) (Some dst)).
Proof.
  intros Hi. pose proof (su_src _ _ _ _ _ _ _ _ _ _ _ _ H) as Hs. pose proof (su_dst _ _ _ _ _ _ _ _ _ _ _ _ H) as Hd.
  pose proof (set_h _ _ _ _ _ _ _ _ _ _ _ _ H) as Hh.
  apply (with_format _ _ _ _ _ _ _ _ _ _ _ _ H). cbv zeta. rewrite Hi. cbn [negb Z.eqb].
  rewrite (height_ok _ _ _ _ _ _ _ _ _ _ _ _ H), (width_ok _ _ _ _ _ _ _ _ _ _ _ _ H), half_up by lia.
  assert (Hp : ∀ i hh, 0 ≤ i < 2 → hh = rows h i → writer (λ i' y' k', i' = i) (λ m,
    splane ← the_plane (Some src) i;
    dplane ← the_plane (Some dst) i;
    sl ← line_of (Some src) i;
    ntx ← quotient sl tw;
    _ ← defined (negb (th =? 0));
    dl ← line_of (Some dst) i;
    swc_unpack_tile_2_nv12 (pl_virt splane) tw th w hh ntx (DIV_ROUND_UP hh th) (pl_virt dplane) dl 0 m)).
  { intros i hh Hi' ->. destruct (tile_facts i Hi') as (Htw & Hth & _ & _ & _ & Hts & _).
    destruct (the_plane_ok _ _ _ _ i Hs Hi') as (p & Ep & Hp), (the_plane_ok _ _ _ _ i Hd Hi') as (p' & Ep' & Hp').
    eapply writes_bind; [exact Ep|]. eapply writes_bind; [exact Ep'|].
    eapply writes_bind; [unfold line_of; rewrite (format_of_ok _ _ _ _ Hs); by apply (plane_stride_ok _ _ _ _ _ Hs)|].
    eapply writes_bind; [by apply quotient_ok|]. eapply writes_bind; [by rewrite (proj2 (Z.eqb_neq th 0)) by lia|].
    eapply writes_bind; [unfold line_of; rewrite (format_of_ok _ _ _ _ Hd); by apply (plane_stride_ok _ _ _ _ _ Hd)|].
    assert (Hrows : 0 ≤ rows h i ≤ h) by (unfold rows; pose proof (half_le h ltac:(lia)); destruct (i =? 0); lia).
    destruct (su_fits_src _ _ _ _ _ _ _ _ _ _ _ _ H i Hi') as [_ (_ & Ht16 & _)].
    rewrite DIV_ROUND_UP_spec, Hp, Hp' by lia. unfold swc_unpack_tile_2_nv12.
    assert (0 ≤ (rows h i + th - 1) / th) by (apply Z.div_pos; lia).
    eapply writes_weaken; [|apply (tile_rows_ok i _ Hi' eq_refl _ 0); [lia|lia|]].
    - intros i' y' k' (_ & Hy' & _) ->. split; [done|lia].
    - intros _. rewrite !Z.mul_0_l, !Z.add_0_r. done. }
  eapply set_delivers; [exact H|].
  destruct (Hp 0 h ltac:(lia) eq_refl m (framed_refl _ _ _ _)) as (m1 & E1 & W1).
  destruct (Hp 1 (half h) ltac:(lia) eq_refl m1 (wr_frame _ _ _ _ _ _ _ _ _ _ W1)) as (m2 & E2 & W2).
  exists m2. rewrite E1, bind_done, E2, bind_done. split; [done|].
  pose proof (wrote_trans _ _ _ _ _ _ _ _ _ _ _ _ W1 W2) as [F W _]. split; [done|].
  intros i y k Hsm. apply W; [done|]. destruct Hsm as (Hi' & _). cbn in Hi'. unfold both. lia.
Qed.
End tiled.

(** ** By format *)

Abbreviation N8 := (Enc SemiPlanar Bytes false).
Abbreviation N16 := (Enc SemiPlanar (Words 0) false).

Ltac by_format E :=
  unfold encoding_of in E; apply assocz_in in E; unfold encodings in E; rewrite !elem_of_cons, elem_of_nil in E;
  repeat (destruct E as [[= -> ->]|E]; [try done|]); [..|try done].

Section by_format.
Context (src dst : pitcher_buffer) (fs fd : pix_fmt_info) (A B : Z → Z) (P : picture) (w h : Z) (m : bmem).

Lemma sw_unpack_ok es : encoding_of (i_format fs) = Some es → e_storage es = Bytes → i_format fd = PIX_FMT_NV12 →
  i_interlaced fs = 0 → setup es N8 src dst fs fd A B P w h m →
  delivers N8 fd B P w h m (pitcher_sw_unpack (Some src) (Some dst)).
Proof.
  intros E Hs Ed Hil H. apply (with_to_format _ _ _ _ _ _ _ _ _ _ _ _ H), with_assert; [by rewrite Ed|].
  apply (with_format _ _ _ _ _ _ _ _ _ _ _ _ H). cbv zeta. remember (i_format fs) as f eqn:Ef.
  by_format E.
  - exact (swc_unpack_i420_ok _ _ _ _ _ _ _ _ _ _ H).
  - exact (swc_copy_nv12_ok _ _ _ _ _ _ _ _ _ _ H).
  - exact (swc_unpack_nv21_ok _ _ _ _ _ _ _ _ _ _ H).
  - exact (unpack_422_gives _ _ _ _ _ _ _ _ _ _ Bytes (plain_bytes_enc _) H).
  - exact (unpack_444_gives _ _ _ _ _ _ _ _ _ _ Bytes (plain_bytes_enc _) H).
  - exact (swc_unpack_gray_ok _ _ _ _ _ _ _ _ _ _ H).
  - exact (swc_unpack_tiled_nv12_ok _ _ _ _ _ _ _ _ _ _ H Hil).
Qed.

Lemma sw_pack_ok ed : encoding_of (i_format fd) = Some ed → e_storage ed = Bytes → e_tiled ed = false →
  i_format fs = PIX_FMT_NV12 → setup N8 ed src dst fs fd A B P w h m →
  delivers ed fd B P w h m (pitcher_sw_pack (Some src) (Some dst)).
Proof.
  intros E Hs Ht Es H. apply (with_format _ _ _ _ _ _ _ _ _ _ _ _ H), with_assert; [by rewrite Es|].
  apply (with_to_format _ _ _ _ _ _ _ _ _ _ _ _ H). cbv zeta. remember (i_format fd) as f eqn:Ef.
  by_format E.
  - exact (swc_pack_i420_ok _ _ _ _ _ _ _ _ _ _ H).
  - exact (swc_copy_nv12_ok _ _ _ _ _ _ _ _ _ _ H).
  - exact (swc_pack_nv21_ok _ _ _ _ _ _ _ _ _ _ H).
  - exact (pack_422_gives _ _ _ _ _ _ _ _ _ _ Bytes (plain_bytes_enc _) H).
  - exact (pack_444_gives _ _ _ _ _ _ _ _ _ _ Bytes (plain_bytes_enc _) H).
  - exact (swc_pack_gray_ok _ _ _ _ _ _ _ _ _ _ H).
Qed.

Lemma sw_unpack_16_ok es : encoding_of (i_format fs) = Some es → e_storage es ≠ Bytes → i_format fs ≠ PIX_FMT_P016 →
  i_format fd = PIX_FMT_P016 → (¬ plain es → readable fs (planes_of (e_sampling es)) A m) → setup es N16 src dst fs fd A B P w h m →
  delivers N16 fd B P w h m (pitcher_sw_unpack_16 (Some src) (Some dst)).
Proof.
  intros E Hs Hf Ed Hb H. apply (with_to_format _ _ _ _ _ _ _ _ _ _ _ _ H), with_assert; [by rewrite Ed|].
  apply (with_format _ _ _ _ _ _ _ _ _ _ _ _ H). cbv zeta. remember (i_format fs) as f eqn:Ef.
  assert (Hp : ∀ s, plain (Enc s (Words 0) false)) by (intros s; by apply plain_words_enc).
  by_format E.
  - exact (swc_unpack_i420_10le_ok _ _ _ _ _ _ _ _ _ _ H).
  - exact (swc_unpack_nv12_10le_ok _ _ _ _ _ _ _ _ _ _ H).
  - exact (swc_copy_p0xx_ok _ _ _ _ _ _ _ _ _ _ H).
  - exact (swc_copy_p0xx_ok _ _ _ _ _ _ _ _ _ _ H).
  - exact (swc_unpack_y16_ok _ _ _ _ _ _ _ _ _ _ H).
  - exact (swc_unpack_y16_ok _ _ _ _ _ _ _ _ _ _ H).
  - exact (unpack_422_gives _ _ _ _ _ _ _ _ _ _ (Words 0) (Hp _) H).
  - exact (unpack_444_gives _ _ _ _ _ _ _ _ _ _ (Words 0) (Hp _) H).
  - apply (swc_unpack_nvx2_ok _ _ _ _ _ _ _ _ _ _ H), Hb. by intros [_ [?|(? & ? & _)]].
  - apply (swc_unpack_nv12_10be_8l128_ok _ _ _ _ _ _ _ _ _ _ H), Hb. by intros [? _].
Qed.

Lemma sw_pack_16_ok ed : encoding_of (i_format fd) = Some ed → plain ed → e_storage ed ≠ Bytes → i_format fd ≠ PIX_FMT_P016 →
  i_format fs = PIX_FMT_P016 → setup N16 ed src dst fs fd A B P w h m →
  delivers ed fd B P w h m (pitcher_sw_pack_16 (Some src) (Some dst)).
Proof.
  intros E Hpl Hs Hf Es H. apply (with_format _ _ _ _ _ _ _ _ _ _ _ _ H), with_assert; [by rewrite Es|].
  apply (with_to_format _ _ _ _ _ _ _ _ _ _ _ _ H). cbv zeta. remember (i_format fd) as f eqn:Ef.
  assert (Hp : ∀ s, plain (Enc s (Words 0) false)) by (intros s; by apply plain_words_enc).
  by_format E; try (exfalso; destruct Hpl as [? [?|(? & ? & _)]]; done).
  - exact (swc_pack_i420_10le_ok _ _ _ _ _ _ _ _ _ _ H).
  - exact (swc_pack_nv12_10le_ok _ _ _ _ _ _ _ _ _ _ H).
  - exact (swc_copy_p0xx_ok _ _ _ _ _ _ _ _ _ _ H).
  - exact (swc_copy_p0xx_ok _ _ _ _ _ _ _ _ _ _ H).
  - exact (swc_pack_y16_ok _ _ _ _ _ _ _ _ _ _ H).
  - exact (swc_pack_y16_ok _ _ _ _ _ _ _ _ _ _ H).
  - exact (pack_422_gives _ _ _ _ _ _ _ _ _ _ (Words 0) (Hp _) H).
  - exact (pack_444_gives _ _ _ _ _ _ _ _ _ _ (Words 0) (Hp _) H).
Qed.
End by_format.
