(* ===== verification/Roundtrip.v ===== *)
(** * Packing a picture and unpacking it again

    [pitcher_sw_pack] takes a picture from the intermediate format of eight bits
    (NV12) to a format that is asked for, [pitcher_sw_unpack] takes it back, and
    the functions ending in 16 do the same with P016.  Here the two are run one
    after the other, on a buffer of arbitrary bytes. *)

From S2P Require Import Prelude Misc Buffer Pixfmt Convert Pixels Conversions.
Open Scope Z_scope.

(** The intermediate format, and the conversions from and to it. *)
Definition between (wide : bool) : encoding := if wide then N16 else N8.
Definition pack (wide : bool) : option pitcher_buffer → option pitcher_buffer → bmem → outcome (Z * bmem) :=
  if wide then pitcher_sw_pack_16 else pitcher_sw_pack.
Definition unpack (wide : bool) : option pitcher_buffer → option pitcher_buffer → bmem → outcome (Z * bmem) :=
  if wide then pitcher_sw_unpack_16 else pitcher_sw_unpack.

Definition is_wide (e : encoding) : bool := match e_storage e with Bytes => false | _ => true end.

(** The bits of a sample that a format has no room for. *)
Definition lost (e : encoding) : Z := match e_storage e with Words shift => shift | _ => 0 end.

Lemma between_plain wide : plain (between wide).
Proof. destruct wide; [by apply plain_words_enc|apply plain_bytes_enc]. Qed.
Lemma between_planes wide : planes_of (e_sampling (between wide)) = 2.
Proof. by destruct wide. Qed.
Lemma between_len wide w i : w mod 2 = 0 → row_len (e_sampling (between wide)) w i = w.
Proof.
  intros Hw. assert (E : 2 * half w = w) by (unfold half; dlia).
  destruct wide; cbn [between e_sampling row_len]; by destruct (i =? 0).
Qed.

(** The picture that arbitrary bytes are. *)
Definition picture_in (wide : bool) (f : pix_fmt_info) (A : Z → Z) (m : bmem) : picture := λ c x y,
  let i := if c =? 0 then 0 else 1 in
  let k := if c =? 0 then x else 2 * x + (c - 1) in
  let p := A i + y * pi_line (plane f i) in
  if wide then default 0 (m !! (p + 2 * k)) mod 256 + 256 * (default 0 (m !! (p + 2 * k + 1)) mod 256)
  else 256 * (default 0 (m !! (p + k)) mod 256).

Lemma picture_in_range wide f A m c x y : 0 ≤ picture_in wide f A m c x y < 2 ^ 16 ∧
  picture_in wide f A m c x y mod 2 ^ (16 - depth_of (e_storage (between wide))) = 0.
Proof.
  unfold picture_in. cbv zeta. destruct wide; cbn [between e_storage depth_of].
  - change (2 ^ (16 - (16 - 0))) with 1. rewrite Z.mod_1_r. split; [|done].
    match goal with |- 0 ≤ ?a mod 256 + 256 * (?b mod 256) < _ => pose proof (Z.mod_pos_bound a 256); pose proof (Z.mod_pos_bound b 256) end. lia.
  - change (2 ^ (16 - 8)) with 256. rewrite Z.mul_comm, Z.mod_mul by lia. split; [|done].
    match goal with |- 0 ≤ ?a mod 256 * _ < _ => pose proof (Z.mod_pos_bound a 256) end. lia.
Qed.

Lemma picture_in_exact wide f A m : exact (between wide) (picture_in wide f A m).
Proof. intros c x y. destruct (picture_in_range wide f A m c x y). split_and!; [lia..|by destruct wide]. Qed.

(** Sample [k] of row [y] in plane [i]. *)
Lemma picture_in_element wide f A m i y k : 0 ≤ i < 2 → 0 ≤ k →
  element SemiPlanar (picture_in wide f A m) i y k =
  let p := A i + y * pi_line (plane f i) in
  if wide then default 0 (m !! (p + 2 * k)) mod 256 + 256 * (default 0 (m !! (p + 2 * k + 1)) mod 256)
  else 256 * (default 0 (m !! (p + k)) mod 256).
Proof.
  intros Hi Hk. unfold element, picture_in. destruct (Z.eqb_spec i 0) as [->|Hne]; [done|].
  assert (i = 1) as -> by lia. pose proof (Z.div_mod k 2). pose proof (Z.mod_pos_bound k 2).
  rewrite (proj2 (Z.eqb_neq (1 + k mod 2) 0)) by lia.
  by replace (2 * (k / 2) + (1 + k mod 2 - 1)) with k by lia.
Qed.

(** A sample of the intermediate format in memory. *)
Lemma stored_ld wide p m k v : 0 ≤ v < 2 ^ 16 → stored (e_storage (between wide)) (λ b, m !! (p + b)) k v →
  ld (unit_of (e_storage (between wide))) (Some p) k m = Done (scale (e_storage (between wide)) v).
Proof.
  intros Hv Hs. apply (stored_plain _ (between_plain wide)) in Hs. unfold ld. cbn [of_option]. rewrite bind_done.
  apply load_le_ok; [|apply scale_range; [apply between_plain|done]].
  intros j Hj. rewrite <- (Hs j Hj). f_equal. lia.
Qed.

Section roundtrip.
Context (wide : bool) (e : encoding) (src mid dst : pitcher_buffer) (fs fm fd : pix_fmt_info) (A C B : Z → Z) (w h : Z) (m : bmem).
Abbreviation N := (between wide).
Abbreviation n := (unit_of (e_storage N)).
Abbreviation P := (picture_in wide fs A m).

(** Any bytes are a picture. *)
Lemma picture_in_shown : fits N fs w h → readable fs 2 A m → encodes false N fs A P w h m.
Proof.
  intros Hf Hr i y k Hi Hy Hk _. rewrite between_planes in Hi.
  assert (Hb : ∀ x, 0 ≤ x < row_bytes N w i → ∃ b, m !! (A i + y * pi_line (plane fs i) + x) = Some b ∧ is_byte b).
  { intros x Hx. apply (Hr i); [done|]. pose proof (byte_addr_area N fs A w h i y x Hf) as Ha.
    rewrite between_planes, (proj1 (between_plain wide)) in Ha. by apply Ha. }
  apply (stored_plain _ (between_plain wide)). rewrite (proj1 (between_plain wide)).
  rewrite (plain_bytes _ _ _ (between_plain wide)) in Hb.
  replace (e_sampling N) with SemiPlanar in * by (by destruct wide). rewrite picture_in_element by lia. cbv zeta.
  unfold byte_addr. destruct wide; cbn [between e_storage unit_of] in *.
  - destruct (Hb (2 * k)) as (b0 & E0 & H0); [lia|]. destruct (Hb (2 * k + 1)) as (b1 & E1 & H1); [lia|].
    rewrite Z.add_assoc in E1. rewrite E0, E1. cbn [default from_option]. unfold id, is_byte in *.
    rewrite !(Z.mod_small _ 256) by lia. unfold scale. cbn [depth_of]. change (2 ^ (16 - (16 - 0))) with 1. rewrite Z.div_1_r.
    intros j Hj. assert (j = 0 ∨ j = 1) as [-> | ->] by lia.
    + rewrite Z.add_0_r. change (Z.of_nat 2) with 2. rewrite E0. f_equal. change (256 ^ 0) with 1. dlia.
    + change (Z.of_nat 2) with 2. rewrite (Z.add_assoc _ (2 * k)), E1. f_equal. change (256 ^ 1) with 256. dlia.
  - destruct (Hb k) as (b & E & Hbb); [lia|]. rewrite E. cbn [default from_option]. unfold id, is_byte in *. rewrite Z.mod_small by lia.
    unfold scale. cbn [depth_of]. change (2 ^ (16 - 8)) with 256. intros j Hj. assert (j = 0) as -> by lia.
    rewrite Z.add_0_r. change (Z.of_nat 1) with 1. rewrite Z.mul_1_l, E. f_equal. change (256 ^ 0) with 1. dlia.
Qed.

(** What is left of the picture in the format in between. *)
Definition kept (v : Z) : Z := v / 2 ^ (16 - depth_of (e_storage e)) * 2 ^ (16 - depth_of (e_storage e)).

Context (Hplain : plain e) (Hwide : is_wide e = wide) (Hchroma : e_sampling e ≠ Luma).

Lemma depth_range : 8 ≤ depth_of (e_storage e) ≤ 16.
Proof. destruct Hplain as [_ [-> |(s & -> & Hs)]]; cbn [depth_of]; lia. Qed.

Lemma kept_exact : exact e (λ c x y, kept (P c x y)).
Proof.
  intros c x y. destruct (picture_in_range wide fs A m c x y) as [Hv _]. pose proof depth_range.
  assert (0 < 2 ^ (16 - depth_of (e_storage e))) by (apply pow2_pos; lia). unfold kept. split_and!; [|..|done].
  - apply Z.mul_nonneg_nonneg; [apply Z.div_pos; lia|lia].
  - pose proof (Z.mul_div_le (P c x y) (2 ^ (16 - depth_of (e_storage e)))). lia.
  - by apply Z.mod_mul; lia.
Qed.

Lemma element_kept Q s i y k : element s (λ c x y, kept (Q c x y)) i y k = kept (element s Q i y k).
Proof. destruct s; unfold element; by repeat case_match. Qed.

Lemma scale_kept v : scale (e_storage e) (kept v) = scale (e_storage e) v.
Proof.
  unfold scale, kept. pose proof depth_range. by rewrite Z.div_mul by (pose proof (pow2_pos (16 - depth_of (e_storage e))); lia).
Qed.

(** The format cannot tell them apart. *)
Lemma kept_encodes all Q m1 : encodes all e fm C Q w h m1 ↔ encodes all e fm C (λ c x y, kept (Q c x y)) w h m1.
Proof.
  split; intros He i y k Hi Hy Hk Hs; (eapply stored_eq; [|by apply He]); by rewrite element_kept, scale_kept.
Qed.

(** Bits below the depth of the intermediate format are none. *)
Lemma kept_scale v : 0 ≤ v < 2 ^ 16 → v mod 2 ^ (16 - depth_of (e_storage N)) = 0 →
  scale (e_storage N) (kept v) = scale (e_storage N) v / 2 ^ lost e * 2 ^ lost e.
Proof.
  intros Hv Hm. unfold scale, kept, lost, is_wide in *. destruct Hplain as [_ [E|(s & E & Hs)]]; rewrite E in *; subst wide;
    cbn [between e_storage depth_of] in *.
  - change (16 - 8) with 8 in *. change (2 ^ 0) with 1. by rewrite Z.div_mul, Z.div_1_r, Z.mul_1_r by lia.
  - replace (16 - (16 - s)) with s by lia. change (2 ^ (16 - (16 - 0))) with 1. by rewrite !Z.div_1_r.
Qed.

Lemma pack_delivers Q : setup N e src mid fs fm A C Q w h m → encoding_of (i_format fm) = Some e → i_format fm ≠ PIX_FMT_P016 →
  i_format fs = mid_fmt wide → delivers e fm C Q w h m (pack wide (Some src) (Some mid)).
Proof.
  intros H Ef Hf Es. unfold pack, mid_fmt, between, is_wide in *. destruct wide.
  - eapply sw_pack_16_ok; try done. intros E. by rewrite E in Hwide.
  - eapply sw_pack_ok; try done; [by destruct (e_storage e)|apply Hplain].
Qed.

Lemma unpack_delivers Q m1 : setup e N mid dst fm fd C B Q w h m1 → encoding_of (i_format fm) = Some e →
  i_format fm ≠ PIX_FMT_P016 → i_interlaced fm = 0 → i_format fd = mid_fmt wide →
  delivers N fd B Q w h m1 (unpack wide (Some mid) (Some dst)).
Proof.
  intros H Ef Hf Hi Ed. unfold unpack, mid_fmt, between, is_wide in *. destruct wide.
  - eapply sw_unpack_16_ok; try done. intros E. by rewrite E in Hwide.
  - eapply sw_unpack_ok; try done. by destruct (e_storage e).
Qed.

(** C18: a picture in the intermediate format, NV12 or P016, survives every
    conversion to a format with chroma.  The picture has one field, an even width
    and at most 16384 columns and rows; of an odd width the last chroma sample
    can be lost ([odd_width_loses_sample]).  The format in between keeps whole
    lines (no tiles) of samples as wide as the intermediate ones, and is not P016
    itself, which is not unpacked ([p016_unpack_refused]).  Whatever bytes are in
    the first buffer, [pitcher_sw_pack] (or [pitcher_sw_pack_16]) to a second
    buffer and [pitcher_sw_unpack] ([pitcher_sw_unpack_16]) from it to a third
    both return 0, and each sample of the third buffer is that of the first: all
    its bits where the format in between stores all of them, or, for ten bits in
    16, those ten. *)
Theorem sw_pack_unpack :
  encoding_of (i_format fm) = Some e → i_format fm ≠ PIX_FMT_P016 → i_interlaced fm = 0 →
  i_format fs = mid_fmt wide → i_format fd = mid_fmt wide → 
  room N e src mid fs fm A C w h m → room e N mid dst fm fd C B w h m → readable fs 2 A m →
  ∃ m1 m2, pack wide (Some src) (Some mid) m = Done (0, m1) ∧ unpack wide (Some mid) (Some dst) m1 = Done (0, m2) ∧
    ∀ i y k, 0 ≤ i < 2 → 0 ≤ y < rows h i → 0 ≤ k < w →
      ∃ v, ld n (Some (A i + y * pi_line (plane fs i))) k m = Done v ∧
           ld n (Some (B i + y * pi_line (plane fd i))) k m2 = Done (v / 2 ^ lost e * 2 ^ lost e).
Proof.
  intros Ef Hf Hi Es Ed R1 R2 Hr. pose proof (ro_w _ _ _ _ _ _ _ _ _ _ _ R1) as (_ & _ & Hw).
  pose proof (picture_in_shown (ro_fits_src _ _ _ _ _ _ _ _ _ _ _ R1) Hr) as Hs.
  destruct (pack_delivers _ (setup_room _ _ _ _ _ _ _ _ _ _ _ _ R1 Hs (picture_in_exact _ _ _ _)) Ef Hf Es) as (m1 & E1 & F1 & V1).
  assert (R2' : room e N mid dst fm fd C B w h m1) by (eapply room_grow; [exact R2|apply F1]).
  pose proof (setup_room _ _ _ _ _ _ _ _ _ _ _ _ R2' (proj1 (kept_encodes _ _ _) (encodes_all _ _ _ _ _ _ _ V1)) kept_exact) as S2.
  destruct (unpack_delivers _ _ S2 Ef Hf Hi Ed) as (m2 & E2 & _ & V2).
  exists m1, m2. split; [done|]. split; [done|]. intros i y k Hiy Hy Hk.
  assert (El : ∀ f X Q m', encodes false N f X Q w h m' →
    stored (e_storage N) (λ b, m' !! (X i + y * pi_line (plane f i) + b)) k (element SemiPlanar Q i y k)).
  { intros f X Q m' He. replace SemiPlanar with (e_sampling N) by (by destruct wide).
    pose proof (He i y k) as H. rewrite between_planes, between_len in H by done. unfold byte_addr in H.
    rewrite (proj1 (between_plain wide)) in H. apply H; [done..|by destruct wide]. }
  exists (scale (e_storage N) (element SemiPlanar P i y k)).
  destruct (element_picture SemiPlanar P i y k Hiy) as (c & x & y' & Ep & _).
  destruct (picture_in_range wide fs A m c x y') as [Hv Hm]. split.
  - apply stored_ld; [by rewrite Ep|by apply El].
  - rewrite <- kept_scale, <- element_kept by (by rewrite Ep). apply stored_ld; [|by apply El, encodes_all].
    rewrite element_kept, Ep. apply kept_exact.
Qed.
End roundtrip.

(** ** A picture of 4 by 2 samples, through I420 *)

Definition nv12_small : pix_fmt_info := FmtInfo PIX_FMT_NV12 None 4 2 0 12 2 [PlaneInfo 4 8; PlaneInfo 4 4] 0 0.
Definition i420_small : pix_fmt_info := FmtInfo PIX_FMT_I420 None 4 2 0 12 3 [PlaneInfo 4 8; PlaneInfo 2 2; PlaneInfo 2 2] 0 0.

(** Planes 20 bytes from each other. *)
Definition planes_at (X i : Z) : Z := X + 20 * i.
Definition small_buffer (f : pix_fmt_info) (X : Z) : pitcher_buffer :=
  PBuf (imap (λ i p, Plane (Some (planes_at X (Z.of_nat i))) (pi_size p) 0 0 0 (-1)) (i_planes f)) (Some f) None.
Definition small_memory : bmem := list_to_map ((λ a, (a, a mod 256)) <$> seqZ 0 200).

Lemma small_memory_byte a : 0 ≤ a < 200 → small_memory !! a = Some (a mod 256).
Proof.
  intros Ha. unfold small_memory. apply elem_of_list_to_map_1.
  - rewrite <- list_fmap_compose. change (fst ∘ (λ a0 : Z, (a0, a0 mod 256))) with (@id Z). rewrite list_fmap_id. apply NoDup_seqZ.
  - apply list_elem_of_fmap. exists a. split; [done|]. apply elem_of_seqZ. lia.
Qed.

(** The conditions on small buffers, checked plane by plane. *)
Definition small_ok (e : encoding) (f : pix_fmt_info) : bool :=
  bool_decide (zlen (i_planes f) = planes_of (e_sampling e) ∧ i_num_planes f = planes_of (e_sampling e) ∧
    i_width f = 4 ∧ i_height f = 2 ∧ e_tiled e = false) &&
  forallb (λ i, bool_decide (row_bytes e 4 i ≤ pi_line (plane f i) ∧ 0 ≤ pi_line (plane f i) ∧
    rows 2 i * pi_line (plane f i) ≤ pi_size (plane f i) ∧ 0 ≤ pi_size (plane f i) ≤ 20)) (seqZ 0 (planes_of (e_sampling e))).

Lemma planes_le_3 s : 0 < planes_of s ≤ 3.
Proof. by destruct s. Qed.

Section small.
Context (e : encoding) (f : pix_fmt_info) (Hok : small_ok e f = true).

Lemma small_facts : zlen (i_planes f) = planes_of (e_sampling e) ∧ i_num_planes f = planes_of (e_sampling e) ∧
  i_width f = 4 ∧ i_height f = 2 ∧ e_tiled e = false.
Proof. unfold small_ok in Hok. apply andb_prop in Hok as [H _]. by apply bool_decide_eq_true_1 in H. Qed.

Lemma small_plane i : 0 ≤ i < planes_of (e_sampling e) → row_bytes e 4 i ≤ pi_line (plane f i) ∧ 0 ≤ pi_line (plane f i) ∧
    rows 2 i * pi_line (plane f i) ≤ pi_size (plane f i) ∧ 0 ≤ pi_size (plane f i) ≤ 20.
Proof.
  intros Hi. unfold small_ok in Hok. apply andb_prop in Hok as [_ H]. rewrite forallb_forall in H.
  specialize (H i). rewrite <- list_elem_of_In, elem_of_seqZ in H. specialize (H ltac:(lia)). by apply bool_decide_eq_true_1 in H.
Qed.

Lemma small_buffer_of X : buffer_of (small_buffer f X) f (planes_of (e_sampling e)) (planes_at X).
Proof.
  destruct small_facts as (Hl & Hn & _). pose proof (planes_le_3 (e_sampling e)) as H3. constructor; [done| | | |].
  - intros i Hi. unfold small_buffer, pitcher_get_buffer_plane, pb_count. cbn [pb_format pb_planes].
    rewrite Hn, u32_small, (proj2 (Z.leb_gt _ _)) by lia.
    assert (Hz : zlen (imap (λ i p, Plane (Some (planes_at X (Z.of_nat i))) (pi_size p) 0 0 0 (-1)) (i_planes f)) = planes_of (e_sampling e)).
    { unfold zlen in *. by rewrite length_imap. }
    rewrite Hz, Z.eqb_refl, andb_false_r. unfold loadz. rewrite nthz_lookup, list_lookup_imap by lia.
    destruct (lookup_lt_is_Some_2 (i_planes f) (Z.to_nat i)) as [p Hp]; [unfold zlen in Hl; lia|]. rewrite Hp. cbn.
    eexists. split; [reflexivity|]. cbn. by rewrite Z2Nat.id by lia.
  - intros i Hi. rewrite nthz_lookup by lia. apply lookup_lt_is_Some_2. unfold zlen in Hl. lia.
  - intros i Hi. apply small_plane, Hi.
  - intros i Hi. destruct (small_plane i Hi) as (_ & _ & _ & ?). lia.
Qed.

Lemma small_fits : fits e f 4 2.
Proof. destruct small_facts as (_ & _ & _ & _ & Ht). intros i Hi. rewrite Ht. destruct (small_plane i Hi) as (? & _ & ? & _). by split. Qed.

Lemma small_area X i a : 0 ≤ i < planes_of (e_sampling e) → area f (planes_at X) i a → X ≤ a < X + 60.
Proof.
  intros Hi Ha. destruct (small_plane i Hi) as (_ & _ & _ & ?). pose proof (planes_le_3 (e_sampling e)).
  unfold area, planes_at in Ha. lia.
Qed.
End small.

Lemma small_room es ed fs fd X Y : small_ok es fs = true → small_ok ed fd = true → plain ed → X + 60 ≤ Y → 0 ≤ Y ≤ 140 →
  room es ed (small_buffer fs X) (small_buffer fd Y) fs fd (planes_at X) (planes_at Y) 4 2 small_memory.
Proof.
  intros Hs Hd Hp HX HY. destruct (small_facts es fs Hs) as (_ & _ & W & H & _). constructor.
  - by apply small_buffer_of.
  - by apply small_buffer_of.
  - by rewrite W.
  - by rewrite H.
  - by apply small_fits.
  - by apply small_fits.
  - done.
  - intros i a Hi Ha. pose proof (small_area _ _ Hd Y i a Hi Ha). rewrite small_memory_byte by lia. by eexists.
  - intros i j Hi Hj Hne. destruct (small_plane _ _ Hd i Hi) as (_ & _ & _ & ?), (small_plane _ _ Hd j Hj) as (_ & _ & _ & ?).
    unfold apart, planes_at. lia.
  - intros i a Hi Ha (j & Hj & Hb). pose proof (small_area _ _ Hs X i a Hi Ha). pose proof (small_area _ _ Hd Y j a Hj Hb). lia.
Qed.

Lemma sw_pack_unpack_witness :
  ∃ m1 m2, pack false (Some (small_buffer nv12_small 0)) (Some (small_buffer i420_small 60)) small_memory = Done (0, m1) ∧
    unpack false (Some (small_buffer i420_small 60)) (Some (small_buffer nv12_small 120)) m1 = Done (0, m2) ∧
    ∀ i y k, 0 ≤ i < 2 → 0 ≤ y < rows 2 i → 0 ≤ k < 4 →
      ∃ v, ld 1 (Some (planes_at 0 i + y * pi_line (plane nv12_small i))) k small_memory = Done v ∧
           ld 1 (Some (planes_at 120 i + y * pi_line (plane nv12_small i))) k m2 = Done (v / 2 ^ 0 * 2 ^ 0).
Proof.
  refine (sw_pack_unpack false (Enc Planar Bytes false) (small_buffer nv12_small 0) (small_buffer i420_small 60)
    (small_buffer nv12_small 120) nv12_small i420_small nv12_small (planes_at 0) (planes_at 60) (planes_at 120) 4 2 small_memory
    (plain_bytes_enc _) eq_refl ltac:(done) eq_refl ltac:(done) eq_refl eq_refl eq_refl _ _ _).
  - apply small_room; [reflexivity..|apply plain_bytes_enc|lia|lia].
  - apply small_room; [reflexivity..|apply plain_bytes_enc|lia|lia].
  - intros i a Hi Ha. pose proof (small_area (Enc SemiPlanar Bytes false) nv12_small eq_refl 0 i a Hi Ha).
    exists (a mod 256). split; [apply small_memory_byte; lia|]. unfold is_byte. apply Z.mod_pos_bound. lia.
Defined.

(** ** Where samples are lost

    The theorems ask for an even width.  A chroma row of an odd width has one
    sample pair for the last column, [DIV_ROUND_UP w 2] pairs in all, but
    [swc_copy_nv12] copies [w] bytes: the last V sample stays behind. *)
Definition nv12_odd : pix_fmt_info := FmtInfo PIX_FMT_NV12 None 3 2 0 12 2 [PlaneInfo 3 6; PlaneInfo 4 4] 0 0.

(** The bytes of a row after a conversion that has succeeded. *)
Definition row_after (p n : Z) (o : outcome (Z * bmem)) : option (list (option Z)) :=
  match o with
  | Done (r, m) => if r =? 0 then Some ((λ k, m !! (p + k)) <$> seqZ 0 n) else None
  | _ => None
  end.

Lemma odd_width_loses_sample :
  row_after 20 4 (Done (0, small_memory)) = Some [Some 20; Some 21; Some 22; Some 23] ∧
  row_after 80 4 (swc_copy_nv12 (Some (small_buffer nv12_odd 0)) (Some (small_buffer nv12_odd 60)) small_memory)
    = Some [Some 20; Some 21; Some 22; Some 83].
Proof. vm_compute. by split. Qed.

(** The fields of an interlaced picture in tiles are two blocks, one after the other; their lines
    are put together by a stride of two lines, the second field beginning
    [width] bytes, and not one line, further on.  When the
    lines of the destination are longer than the picture is wide, here 12
    bytes for 8, the lines of the second field do not begin where lines begin. *)
Definition tiled_interlaced : pix_fmt_info :=
  FmtInfo PIX_FMT_NV12_8L128 None 8 4 1 0 2 [PlaneInfo 8 2048; PlaneInfo 8 2048] 8 128.
Definition nv12_aligned : pix_fmt_info := FmtInfo PIX_FMT_NV12 None 8 4 0 0 2 [PlaneInfo 12 48; PlaneInfo 12 24] 0 0.
Definition wide_buffer (f : pix_fmt_info) (X : Z) : pitcher_buffer :=
  PBuf (imap (λ i p, Plane (Some (X + 2048 * Z.of_nat i)) (pi_size p) 0 0 0 (-1)) (i_planes f)) (Some f) None.

(** The lines of the fields, 1 in the first and 2 in the second; the destination is 0. *)
Definition field_lines (p n v : Z) : list (Z * Z) := (λ x, (p + x, v)) <$> seqZ 0 n.
Definition two_fields : bmem :=
  list_to_map (field_lines 0 16 1 ++ field_lines 1024 16 2 ++ field_lines 2048 8 1 ++ field_lines 3072 8 2 ++
    field_lines 4096 48 0 ++ field_lines 6144 24 0).

Lemma second_field_shifted :
  let o := swc_unpack_tiled_nv12 (Some (wide_buffer tiled_interlaced 0)) (Some (wide_buffer nv12_aligned 4096)) two_fields in
  row_after 4096 24 o = Some (Some <$> replicate 8 1 ++ replicate 8 2 ++ replicate 8 0).
Proof. vm_compute. reflexivity. Qed.

(** A frame in NV12 is packed at once, whatever the destination, and a
    frame in P016 for an 8-bit destination is unpacked, but the first step has
    no destination of more than 8 bits and the second no P016 among its
    sources: pairs the context has the widening and narrowing steps for are
    refused. *)
Definition deep_formats : list Z :=
  [PIX_FMT_P010; PIX_FMT_P012; PIX_FMT_P016; PIX_FMT_NV12_10LE; PIX_FMT_I420_10LE; PIX_FMT_Y012; PIX_FMT_Y16; PIX_FMT_Y212;
   PIX_FMT_YUV48_12].

Lemma nv12_to_deep_refused vs vd fs fd m :
  pb_format vs = Some fs → i_format fs = PIX_FMT_NV12 → pb_format vd = Some fd → i_format fd ∈ deep_formats →
  pitcher_sw_pack (Some vs) (Some vd) m = Done (- RET_E_NOT_SUPPORT, m).
Proof.
  intros Es Hs Ed Hd. unfold pitcher_sw_pack, format_of. cbn. rewrite Es, Ed. cbn. rewrite Hs. cbn.
  set_unfold in Hd. by repeat destruct Hd as [->|Hd].
Qed.

Lemma p016_unpack_refused vs vd fs fd m :
  pb_format vs = Some fs → i_format fs = PIX_FMT_P016 → pb_format vd = Some fd → i_format fd = PIX_FMT_P016 →
  pitcher_sw_unpack_16 (Some vs) (Some vd) m = Done (- RET_E_NOT_SUPPORT, m).
Proof.
  intros Es Hs Ed Hd. unfold pitcher_sw_unpack_16, format_of. cbn. rewrite Es, Ed. cbn. by rewrite Hs, Hd.
Qed.
