(* ===== verification/Cvrt.v ===== *)
(** * convert.c: contexts of conversions, and the steps for a pair of formats

    A context names a source and a destination buffer and keeps up to two
    buffers of its own, one per sample width, through which pictures go when
    there is no direct conversion.  The state is the world of Buffer with the
    bytes of memory beside it: the bytes of a block come with its allocation,
    cleared as [pitcher_calloc] does, and go when it is freed. *)

From S2P Require Import Prelude Misc Buffer Pixfmt Convert.
Open Scope Z_scope.

(** The intermediate buffers, with their formats. *)
(* C: pitcher/convert.c sw_cvrt_t 26-31 *)
Record sw_cvrt_t := SwCvrt {
  sc_format : pix_fmt_info;
  sc_mid : option Z;
  sc_format16 : pix_fmt_info;
  sc_mid16 : option Z
}.

(** The two functions of a context are [pitcher_sw_convert_frame] and
    [pitcher_free_sw_convert]. *)
(* C: pitcher/convert.h convert_ctx 23-29 *)
Record convert_ctx := Cvrt {
  cc_src : option Z;
  cc_dst : option Z;
  cc_priv : option Z
}.

(** Bytes, formats of buffers, and the blocks that are contexts. *)
Record cvrt := Env {
  cv_bytes : bmem;
  cv_format : gmap Z pix_fmt_info;
  cv_ctx : gmap Z convert_ctx;
  cv_swc : gmap Z sw_cvrt_t
}.

Definition set_bytes m c := Env m (cv_format c) (cv_ctx c) (cv_swc c).
Definition set_format b f c := Env (cv_bytes c) (<[b := f]> (cv_format c)) (cv_ctx c) (cv_swc c).
Definition set_ctxs l c := Env (cv_bytes c) (cv_format c) l (cv_swc c).
Definition set_swcs l c := Env (cv_bytes c) (cv_format c) (cv_ctx c) l.

(** [memset(&format, 0, sizeof(format))] *)
Definition no_format : pix_fmt_info := FmtInfo 0 None 0 0 0 0 0 (replicate 8 (PlaneInfo 0 0)) 0 0.

Section convert.
Context `{Videodev2}.
Context (alloc : nat → gset Z → option Z).
Abbreviation CM := (M (world cvrt)).

Definition env : CM cvrt := λ w, Done (w_env w, w).
Definition change_env (g : cvrt → cvrt) : CM unit := λ w, Done (tt, World (w_mem w) (w_bufs w) (g (w_env w))).

(** Bytes [p .. p + n - 1]. *)
Definition zero_bytes (p n : Z) (m : bmem) : bmem := list_to_map ((λ x, (p + x, 0)) <$> seqZ 0 n) ∪ m.
Definition drop_bytes (p n : Z) (m : bmem) : bmem := foldr (λ x m, delete (p + x) m) m (seqZ 0 n).

Definition with_bytes (g : Z → Z → bmem → bmem) (plane : pitcher_buf_ref) : CM unit :=
  match pl_virt plane with
  | Some p => change_env (λ c, set_bytes (g p (pl_size plane) (cv_bytes c)) c)
  | None => mret tt
  end.

Definition set_size n p := Plane (pl_virt p) n (pl_phys p) (pl_bytesused p) (pl_offset p) (pl_dmafd p).

(** [arg] is the format. *)
(* C: pitcher/convert.c sw_convert_init_plane *)
Definition sw_convert_init_plane (format : pix_fmt_info) (plane : pitcher_buf_ref) (index : Z) : CM (Z * pitcher_buf_ref) :=
  size ← lift (plane_size format index);
  '(ret, plane) ← pitcher_alloc_plane alloc (set_size size plane) index;
  _ ← (if ret =? RET_OK then with_bytes zero_bytes plane else mret tt);
  mret (ret, plane).

(** The planes' functions: 1 allocates, 2 is [pitcher_free_plane]. *)
Definition cvrt_plane (format : pix_fmt_info) (f : Z) (plane : pitcher_buf_ref) (index : Z) : CM (Z * pitcher_buf_ref) :=
  if f =? 1 then sw_convert_init_plane format plane index
  else _ ← with_bytes drop_bytes plane; pitcher_free_plane plane index.
Definition cvrt_recycle (f b : Z) : CM bool := pitcher_auto_remove_buffer b.

(** Dropping a reference needs no format. *)
Definition put_mid (b : Z) : CM unit := pitcher_put_buffer (cvrt_plane no_format) cvrt_recycle b.

Definition load_ctx (c : Z) : CM convert_ctx := e ← env; lift (of_option (cv_ctx e !! c)).
Definition load_swc (s : Z) : CM sw_cvrt_t := e ← env; lift (of_option (cv_swc e !! s)).
Definition store_swc (s : Z) (x : sw_cvrt_t) : CM unit :=
  e ← env;
  match cv_swc e !! s with
  | Some _ => change_env (set_swcs (<[s := x]> (cv_swc e)))
  | None => lift UB
  end.

(** A buffer as the conversions see it; they do not look at [crop]. *)
Definition view (b : Z) : CM pitcher_buffer :=
  x ← load_buf b; e ← env; mret (PBuf (b_planes x) (cv_format e !! b) None).

Definition format_at (b : Z) : CM pix_fmt_info := v ← view b; lift (of_option (pb_format v)).

(** A conversion of the bytes of [src] to those of [dst]. *)
Definition run_conversion (F : option pitcher_buffer → option pitcher_buffer → bmem → outcome (Z * bmem)) (src dst : Z) : CM Z :=
  s ← view src; d ← view dst; e ← env;
  '(ret, m) ← lift (F (Some s) (Some d) (cv_bytes e));
  _ ← change_env (set_bytes m);
  mret ret.

(** *** The intermediate buffers *)

(** Which of the two: [true] for samples of sixteen bits. *)
Definition mid_of (sixteen : bool) (x : sw_cvrt_t) : option Z := if sixteen then sc_mid16 x else sc_mid x.
Definition set_mid (sixteen : bool) (b : option Z) (x : sw_cvrt_t) : sw_cvrt_t :=
  if sixteen then SwCvrt (sc_format x) (sc_mid x) (sc_format16 x) b else SwCvrt (sc_format x) b (sc_format16 x) (sc_mid16 x).
Definition set_mid_format (sixteen : bool) (f : pix_fmt_info) (x : sw_cvrt_t) : sw_cvrt_t :=
  if sixteen then SwCvrt (sc_format x) (sc_mid x) f (sc_mid16 x) else SwCvrt f (sc_mid x) (sc_format16 x) (sc_mid16 x).

Definition with_size (format width height : Z) : pix_fmt_info :=
  FmtInfo format None width height 0 0 0 (replicate 8 (PlaneInfo 0 0)) 0 0.

(** [desc.plane_size] is not set; the planes get their sizes from
    [sw_convert_init_plane]. *)
Definition mid_desc (format : pix_fmt_info) : pitcher_buffer_desc :=
  Desc (i_num_planes format) (replicate 8 0) 1 2 3.

(* C: pitcher/convert.c pitcher_sw_convert_alloc_mid_buffer *)
Definition alloc_mid (sixteen : bool) (c : Z) : CM Z :=
  ctx ← load_ctx c;
  s ← lift (of_option (cc_priv ctx));
  src ← lift (of_option (cc_src ctx));
  fs ← format_at src;
  let empty := with_size (mid_fmt sixteen) (i_width fs) (i_height fs) in
  '(_, format) ← lift (pitcher_get_pix_fmt_info (Some empty) 0);
  format ← lift (of_option format);
  x ← load_swc s;
  reuse ← match mid_of sixteen x with
    | Some b =>
        v ← view b;
        if pitcher_compare_format (pb_format v) (Some format) =? 0 then mret true
        else _ ← put_mid b; _ ← store_swc s (set_mid sixteen None x); mret false
    | None => mret false
    end;
  if (reuse : bool) then mret 0
  else
    x ← load_swc s;
    _ ← store_swc s (set_mid_format sixteen format x);
    b ← pitcher_new_buffer alloc (cvrt_plane format) (Some (mid_desc format));
    x ← load_swc s;
    _ ← store_swc s (set_mid sixteen b x);
    match b with
    | None => mret (- RET_E_NO_MEMORY)
    | Some b => _ ← change_env (set_format b format); mret 0
    end.

(* C: pitcher/convert.c pitcher_sw_convert_alloc_mid_buffer *)
Definition pitcher_sw_convert_alloc_mid_buffer (c : Z) : CM Z := alloc_mid false c.
(* C: pitcher/convert.c pitcher_sw_convert_alloc_mid16_buffer *)
Definition pitcher_sw_convert_alloc_mid16_buffer (c : Z) : CM Z := alloc_mid true c.

(** *** Frames *)

(** [format->desc->comp[0].depth] *)
Definition depth (f : pix_fmt_info) : outcome Z :=
  d ← of_option (i_desc f); Done (default 0 (snd <$> nthz (fd_comp d) 0)).

(* C: pitcher/convert.c pitcher_sw_convert_check_depth *)
Definition pitcher_sw_convert_check_depth (src dst : Z) : CM bool :=
  fs ← format_at src; src_depth ← lift (depth fs);
  fd ← format_at dst; dst_depth ← lift (depth fd);
  mret ((src_depth =? 8) && (dst_depth =? 8) || (8 <? src_depth) && (8 <? dst_depth)).

(** The buffer to unpack into, after allocating what the pair of formats needs. *)
(* C: pitcher/convert.c pitcher_sw_convert_frame 1109-1140 *)
Definition unpack_target (c src dst s : Z) : CM (Z + Z) :=
  same ← pitcher_sw_convert_check_depth src dst;
  fs ← format_at src;
  fd ← format_at dst;
  let mid_or sixteen ret :=
    if negb (ret =? 0) then mret (inl ret)
    else x ← load_swc s; b ← lift (of_option (mid_of sixteen x)); mret (inr b) in
  if (same : bool) then
    dd ← lift (depth fd);
    if dd =? 8 then
      if negb (i_format fd =? PIX_FMT_NV12) then ret ← pitcher_sw_convert_alloc_mid_buffer c; mid_or false ret
      else mret (inr dst)
    else if negb (i_format fd =? CVRT_MID_FMT16) then ret ← pitcher_sw_convert_alloc_mid16_buffer c; mid_or true ret
    else mret (inr dst)
  else
    ret ← pitcher_sw_convert_alloc_mid_buffer c;
    if negb (ret =? 0) then mret (inl ret)
    else
      ret ← pitcher_sw_convert_alloc_mid16_buffer c;
      ds ← lift (depth fs);
      mid_or (negb (ds =? 8)) ret.

(** From the unpacked picture to the destination. *)
(* C: pitcher/convert.c pitcher_sw_convert_frame 1152-1170 *)
Definition pack_steps (src dst s : Z) : CM Z :=
  same ← pitcher_sw_convert_check_depth src dst;
  fs ← format_at src;
  ds ← lift (depth fs);
  r ← (if (same : bool) then mret (inr src)
       else
         x ← load_swc s;
         other ← lift (of_option (mid_of (ds =? 8) x));
         ret ← run_conversion (if ds =? 8 then pitcher_sw_cvrt_8_to_16 else pitcher_sw_cvrt_16_to_8) src other;
         mret (if negb (ret =? 0) then inl ret else inr other));
  match r with
  | inl ret => mret ret
  | inr src =>
      fs ← format_at src;
      ds ← lift (depth fs);
      run_conversion (if ds =? 8 then pitcher_sw_pack else pitcher_sw_pack_16) src dst
  end.

(* C: pitcher/convert.c pitcher_sw_convert_frame 1109-1170 *)
Definition convert_steps (c src dst s : Z) : CM Z :=
  target ← unpack_target c src dst s;
  match target with
  | inl ret => mret ret
  | inr mid =>
      fs ← format_at src;
      ds ← lift (depth fs);
      ret ← run_conversion (if ds =? 8 then pitcher_sw_unpack else pitcher_sw_unpack_16) src mid;
      if negb (ret =? 0) then mret ret
      else if mid =? dst then mret 0
      else pack_steps mid dst s
  end.

(* C: pitcher/convert.c pitcher_sw_convert_frame *)
Definition pitcher_sw_convert_frame (ctx : option Z) : CM Z :=
  match ctx with
  | None => mret (- RET_E_NULL_POINTER)
  | Some c =>
      x ← load_ctx c;
      match cc_priv x, cc_src x, cc_dst x with
      | Some s, Some src, Some dst =>
          vs ← view src;
          vd ← view dst;
          match pb_format vs, pb_format vd with
          | Some fs, Some fd =>
              if (i_width fd <? i_width fs) || (i_height fd <? i_height fs) then mret (- RET_E_INVAL)
              else if negb (i_interlaced fd =? 0) then mret (- RET_E_NOT_SUPPORT)
              else if negb (i_interlaced fs =? 0) && negb (i_format fs =? PIX_FMT_NV12_8L128) then mret (- RET_E_NOT_SUPPORT)
              else if (i_format fs =? PIX_FMT_NV12) && (i_interlaced fs =? 0) then run_conversion pitcher_sw_pack src dst
              else
                direct ← (if (i_format fs =? CVRT_MID_FMT16) && (i_interlaced fs =? 0)
                          then d ← lift (depth fd); mret (8 <? d) else mret false);
                if (direct : bool) then run_conversion pitcher_sw_pack_16 src dst
                else convert_steps c src dst s
          | _, _ => mret (- RET_E_NULL_POINTER)
          end
      | _, _, _ => mret (- RET_E_NULL_POINTER)
      end
  end.

(** *** Creation and release *)

Definition free_ctx (p : option Z) : CM unit :=
  match p with
  | Some c =>
      _ ← change_env (λ e, set_ctxs (delete c (cv_ctx e)) e);
      on_mem (pitcher_free (Some c))
  | None => mret tt
  end.
Definition free_swc (p : option Z) : CM unit :=
  match p with
  | Some s =>
      _ ← change_env (λ e, set_swcs (delete s (cv_swc e)) e);
      on_mem (pitcher_free (Some s))
  | None => mret tt
  end.
Definition release_mid (b : option Z) : CM unit :=
  match b with Some b => put_mid b | None => mret tt end.

(* C: pitcher/convert.c pitcher_free_sw_convert *)
Definition pitcher_free_sw_convert (ctx : option Z) : CM unit :=
  match ctx with
  | None => mret tt
  | Some c =>
      x ← load_ctx c;
      _ ← change_env (λ e, set_ctxs (<[c := Cvrt (cc_src x) (cc_dst x) None]> (cv_ctx e)) e);
      _ ← match cc_priv x with
          | Some s =>
              y ← load_swc s;
              _ ← release_mid (sc_mid y);
              _ ← store_swc s (set_mid false None y);
              y ← load_swc s;
              _ ← release_mid (sc_mid16 y);
              store_swc s (set_mid true None y)
          | None => mret tt
          end;
      _ ← free_swc (cc_priv x);
      free_ctx (Some c)
  end.

(* C: pitcher/convert.c pitcher_create_sw_convert *)
Definition pitcher_create_sw_convert : CM (option Z) :=
  ctx ← on_mem (_pitcher_calloc alloc);
  match ctx with
  | None => _ ← free_swc None; _ ← free_ctx None; mret None
  | Some c =>
      _ ← change_env (λ e, set_ctxs (<[c := Cvrt None None None]> (cv_ctx e)) e);
      swc ← on_mem (_pitcher_calloc alloc);
      match swc with
      | None => _ ← free_swc None; _ ← free_ctx (Some c); mret None
      | Some s =>
          _ ← change_env (λ e, set_swcs (<[s := SwCvrt no_format None no_format None]> (cv_swc e)) e);
          _ ← change_env (λ e, set_ctxs (<[c := Cvrt None None (Some s)]> (cv_ctx e)) e);
          mret (Some c)
      end
  end.
End convert.
