(* ===== verification/Mids.v ===== *)
(** * The intermediate buffers of a conversion context

    What [pitcher_new_buffer] and [pitcher_put_buffer] do when the planes'
    functions are those of convert.c: planes come with zeroed bytes and go with
    them.  [converter] relates the world to the buffers a context keeps; every
    call keeps it, so that releasing the context gives back exactly what it
    took. *)

From S2P Require Import Prelude Misc Buffer Pixfmt Convert Cvrt.
Open Scope Z_scope.

(** ** The bytes of planes *)

Definition in_plane (p : pitcher_buf_ref) (a : Z) : Prop := ∃ v, pl_virt p = Some v ∧ v ≤ a < v + pl_size p.
Definition in_planes (l : list pitcher_buf_ref) (a : Z) : Prop := ∃ p, p ∈ l ∧ in_plane p a.

#[export] Instance in_plane_dec p a : Decision (in_plane p a).
Proof.
  destruct (pl_virt p) as [v|] eqn:E.
  - destruct (decide (v ≤ a < v + pl_size p)) as [H|H]; [left; by exists v|right]. intros (v' & E' & H'). congruence.
  - right. intros (v & E' & _). congruence.
Defined.
#[export] Instance in_planes_dec l a : Decision (in_planes l a).
Proof.
  destruct (decide (Exists (λ p, in_plane p a) l)) as [H|H]; rewrite list.Exists_exists in H; [by left|by right].
Defined.

Lemma in_planes_nil a : ¬ in_planes [] a.
Proof. intros (p & Hp & _). by apply elem_of_nil in Hp. Qed.
Lemma in_planes_cons p l a : in_planes (p :: l) a ↔ in_plane p a ∨ in_planes l a.
Proof. unfold in_planes. setoid_rewrite elem_of_cons. naive_solver. Qed.

(** Zeroed bytes appear, or bytes go, in the planes; all others stay. *)
Definition grown (l : list pitcher_buf_ref) (m m' : bmem) : Prop :=
  ∀ a, (in_planes l a → m' !! a = Some 0) ∧ (¬ in_planes l a → m' !! a = m !! a).
Definition shrunk (l : list pitcher_buf_ref) (m m' : bmem) : Prop :=
  ∀ a, (in_planes l a → m' !! a = None) ∧ (¬ in_planes l a → m' !! a = m !! a).

Lemma zero_bytes_in p n m a : p ≤ a < p + n → zero_bytes p n m !! a = Some 0.
Proof.
  intros Ha. unfold zero_bytes. apply lookup_union_Some_l, elem_of_list_to_map_1'.
  - intros y Hy. apply list_elem_of_fmap in Hy as (x & [= _ ->] & _). done.
  - apply list_elem_of_fmap. exists (a - p). split; [f_equal; lia|]. apply elem_of_seqZ. lia.
Qed.

Lemma zero_bytes_out p n m a : ¬ p ≤ a < p + n → zero_bytes p n m !! a = m !! a.
Proof.
  intros Ha. unfold zero_bytes. apply lookup_union_r, not_elem_of_list_to_map_1. intros Hin.
  rewrite <- list_fmap_compose in Hin. apply list_elem_of_fmap in Hin as (x & -> & Hx). cbn in Ha. apply elem_of_seqZ in Hx. lia.
Qed.

Lemma drop_bytes_lookup p n m a : drop_bytes p n m !! a = if bool_decide (p ≤ a < p + n) then None else m !! a.
Proof.
  unfold drop_bytes. assert (H : ∀ l, foldr (λ x m, delete (p + x) m) m l !! a = if bool_decide (a - p ∈ l) then None else m !! a).
  { induction l as [|x l IH]; cbn; [done|]. destruct (decide (p + x = a)) as [E|E].
    - rewrite E, lookup_delete_eq, bool_decide_true; [done|]. apply list_elem_of_In. left. lia.
    - rewrite lookup_delete_ne, IH by done.
      rewrite (bool_decide_ext (a - p ∈ l) (a - p ∈ x :: l)); [done|]. rewrite elem_of_cons. split; [auto|intros [?|?]; [lia|done]]. }
  rewrite H. rewrite (bool_decide_ext (a - p ∈ seqZ 0 n) (p ≤ a < p + n)); [done|]. rewrite elem_of_seqZ. lia.
Qed.

(** ** Making and releasing a buffer *)

Section buffers.
Context (alloc : nat → gset Z → option Z).
Context (alloc_fresh : ∀ n X p, alloc n X = Some p → p ∉ X).
Abbreviation live w := (m_live (w_mem w)).
Abbreviation bytes w := (cv_bytes (w_env w)).
Abbreviation CW := (world cvrt).

(** Nothing but the bytes has changed in the environment. *)
Definition only_bytes (w w' : CW) : Prop := ∃ m, w_env w' = set_bytes m (w_env w).

Lemma only_bytes_refl w : only_bytes w w.
Proof. exists (bytes w). by destruct (w_env w). Qed.
Lemma only_bytes_trans w1 w2 w3 : only_bytes w1 w2 → only_bytes w2 w3 → only_bytes w1 w3.
Proof. intros [m1 E1] [m2 E2]. exists m2. by rewrite E2, E1. Qed.
Lemma only_bytes_same w w' : w_env w' = w_env w → only_bytes w w'.
Proof. intros E. exists (bytes w). rewrite E. by destruct (w_env w). Qed.
Lemma only_bytes_rest w w' : only_bytes w w' →
  cv_format (w_env w') = cv_format (w_env w) ∧ cv_ctx (w_env w') = cv_ctx (w_env w) ∧ cv_swc (w_env w') = cv_swc (w_env w).
Proof. by intros [m ->]. Qed.

Lemma with_bytes_ok g p v (w : CW) : pl_virt p = Some v →
  ∃ w', with_bytes g p w = Done (tt, w') ∧ w_bufs w' = w_bufs w ∧ w_mem w' = w_mem w ∧ only_bytes w w' ∧
    bytes w' = g v (pl_size p) (bytes w).
Proof.
  intros E. unfold with_bytes. rewrite E. eexists. split; [reflexivity|]. cbn. split_and!; try done. by eexists.
Qed.

(** [pitcher_calloc] gives what the allocator answers. *)
Lemma calloc_done (w : CW) : ∃ r w', on_mem (_pitcher_calloc alloc) w = Done (r, w') ∧ w_bufs w' = w_bufs w ∧ w_env w' = w_env w ∧
  (∃ n, alloc n (live w) = r) ∧
  match r with Some p => live w' = {[p]} ∪ live w ∧ p ∉ live w | None => live w' = live w end.
Proof.
  unfold on_mem, _pitcher_calloc. erewrite M_bind_done by done. unfold raw_alloc. cbn [m_live m_nalloc].
  destruct (alloc _ _) as [p|] eqn:E; cbn; do 2 eexists; (split; [reflexivity|]); cbn; split_and!; try done; eauto.
Qed.

(** Blocks that were added one by one have what every allocation keeps. *)
Definition by_alloc (X Y : gset Z) : Prop := ∀ Q : gset Z → Prop,
  (∀ n Z p, Q Z → alloc n Z = Some p → Q ({[p]} ∪ Z)) → Q X → Q Y.

Lemma by_alloc_refl X : by_alloc X X.
Proof. by intros Q _. Qed.
Lemma by_alloc_one n X p Y : alloc n X = Some p → by_alloc ({[p]} ∪ X) Y → by_alloc X Y.
Proof. intros E H Q HQ HX. by eapply H, HQ. Qed.

Lemma grown_nil m : grown [] m m.
Proof. intros a. split; [by intros []%in_planes_nil|done]. Qed.
Lemma grown_cons p l m1 m2 m3 : grown [p] m1 m2 → grown l m2 m3 → grown (p :: l) m1 m3.
Proof.
  intros H1 H2 a. specialize (H1 a). specialize (H2 a). rewrite in_planes_cons in *.
  pose proof (in_planes_nil a). destruct (decide (in_planes l a)), (decide (in_plane p a)); split; naive_solver congruence.
Qed.

(** One plane: refused, or a new block. *)
Lemma init_plane_ok format i size (w : CW) : is_Some (nthz (i_planes format) i) →
  let sz := pi_size (plane format i) in
  ∃ r p w', sw_convert_init_plane alloc format (Plane None size 0 0 0 (-1)) i w = Done ((r, p), w') ∧
    w_bufs w' = w_bufs w ∧ only_bytes w w' ∧
    ((r < 0 ∧ live w' = live w ∧ bytes w' = bytes w ∧ (sz ≠ 0 → ∃ n, alloc n (live w) = None)) ∨
     (r = 0 ∧ ∃ v n, alloc n (live w) = Some v ∧ p = Plane (Some v) sz 0 0 0 (-1) ∧ live w' = {[v]} ∪ live w ∧ v ∉ live w ∧ grown [p] (bytes w) (bytes w'))).
Proof.
  intros [q Hq] sz. unfold sw_convert_init_plane.
  assert (Es : plane_size format i = Done sz) by (unfold plane_size, loadz; rewrite Hq; unfold sz, plane; by rewrite Hq).
  erewrite M_bind_done by (unfold lift; rewrite Es; reflexivity). unfold pitcher_alloc_plane. cbn [set_size pl_size].
  destruct (Z.eqb_spec sz 0) as [E0|E0].
  { erewrite M_bind_done by reflexivity. change (- RET_E_INVAL =? RET_OK) with false. cbn iota. erewrite M_bind_done by done.
    do 3 eexists. split; [reflexivity|]. split; [done|]. split; [apply only_bytes_refl|]. left. split_and!; done. }
  destruct (calloc_done w) as (r & w1 & E1 & B1 & N1 & [n Ea] & Hr). destruct r as [v|].
  - erewrite M_bind_done by (erewrite M_bind_done by exact E1; reflexivity). change (RET_OK =? RET_OK) with true. cbn iota.
    set (p := set_virt _ _). destruct (with_bytes_ok zero_bytes p v w1 eq_refl) as (w2 & E2 & B2 & M2 & O2 & Y2).
    erewrite M_bind_done by exact E2. do 3 eexists. split; [reflexivity|]. split; [by rewrite B2|].
    split; [eapply only_bytes_trans; [by apply only_bytes_same|exact O2]|].
    right. split; [done|]. exists v, n. destruct Hr as [Hl Hv]. rewrite M2. split_and!; try done.
    intros a. rewrite Y2, N1. setoid_rewrite in_planes_cons. split.
    + intros [(v' & [= <-] & Ha)|[]%in_planes_nil]. by apply zero_bytes_in.
    + intros Ha. apply zero_bytes_out. intros Hx. apply Ha. left. by exists v.
  - erewrite M_bind_done by (erewrite M_bind_done by exact E1; reflexivity).
    change (- RET_E_NO_MEMORY =? RET_OK) with false. cbn iota. erewrite M_bind_done by done.
    do 3 eexists. split; [reflexivity|]. split; [done|]. split; [by apply only_bytes_same|]. left. rewrite N1. split_and!; try done. by eexists.
Qed.

Lemma virts_nil : virts [] = ∅.
Proof. done. Qed.

Lemma init_planes_cvrt format k : ∀ i w, (∀ j, i ≤ j < i + Z.of_nat k → is_Some (nthz (i_planes format) j)) →
  ∃ l w', init_planes (cvrt_plane alloc format) 1 (replicate k 0) i w = Done (l, w') ∧ w_bufs w' = w_bufs w ∧ only_bytes w w' ∧
    planes_ok l ∧ live w' = virts l ∪ live w ∧ virts l ## live w ∧ by_alloc (live w) (live w') ∧ grown l (bytes w) (bytes w') ∧
    (∀ j p, l !! j = Some p → pl_size p = pi_size (plane format (i + Z.of_nat j))) ∧
    ((∀ n X, is_Some (alloc n X)) → (∀ j, i ≤ j < i + Z.of_nat k → pi_size (plane format j) ≠ 0) → length l = k).
Proof.
  induction k as [|k IH]; intros i w Hf.
  { exists [], w. split; [done|]. split_and!; [done|apply only_bytes_refl|done|by rewrite virts_nil, union_empty_l_L|
      rewrite virts_nil; apply disjoint_empty_l|apply by_alloc_refl|apply grown_nil|done|done]. }
  cbn [replicate init_planes]. destruct (init_plane_ok format i 0 w) as (r & p & w1 & E1 & B1 & O1 & H1); [apply Hf; lia|].
  change (cvrt_plane alloc format 1 (Plane None 0 0 0 0 (-1)) i) with (sw_convert_init_plane alloc format (Plane None 0 0 0 0 (-1)) i).
  erewrite M_bind_done by exact E1. destruct H1 as [(Hr & L1 & Y1 & Hn)|(-> & v & n & Ea & -> & L1 & Hv & Y1)].
  - rewrite (proj2 (Z.ltb_lt r 0)) by lia. exists [], w1. split; [done|]. rewrite L1, Y1.
    split_and!; [done..|by rewrite virts_nil, union_empty_l_L|rewrite virts_nil; apply disjoint_empty_l|apply by_alloc_refl|apply grown_nil|done|].
    intros Ha Hs. destruct Hn as [n Hn]; [apply Hs; lia|]. destruct (Ha n (live w)) as [? E]. by rewrite Hn in E.
  - change (0 <? 0) with false. cbn iota. set (p := Plane (Some v) _ 0 0 0 (-1)) in *.
    destruct (IH (i + 1) w1) as (l & w' & E & B & O & Hp & L & D & A & Y & S & N); [intros j Hj; apply Hf; lia|].
    erewrite M_bind_done by exact E. exists (p :: l), w'. split; [done|].
    rewrite (virts_cons p l v eq_refl), L, L1. rewrite L1 in D. split_and!.
    + by rewrite B.
    + by eapply only_bytes_trans.
    + split; [|done]. exists v. split; [done|]. set_solver.
    + set_solver.
    + set_solver.
    + eapply by_alloc_one; [exact Ea|]. by rewrite <- L1, <- L.
    + by eapply grown_cons.
    + intros [|j] q Hq; cbn in Hq; [injection Hq as <-; cbn; by rewrite Z.add_0_r|].
      rewrite (S _ _ Hq). do 2 f_equal. lia.
    + intros Ha Hs. cbn. f_equal. apply N; [done|]. intros j Hj. apply Hs. lia.
Qed.

(** The planes go one after the other. *)
Lemma uninit_planes_cvrt format l : ∀ i (w : CW), planes_ok l → virts l ⊆ live w →
  ∃ l' w', uninit_planes (cvrt_plane alloc format) 2 l i w = Done (l', w') ∧ w_bufs w' = w_bufs w ∧ only_bytes w w' ∧
    live w' = live w ∖ virts l ∧ shrunk l (bytes w) (bytes w').
Proof.
  induction l as [|p l IH]; intros i w Hok Hl.
  { exists [], w. split; [done|]. rewrite virts_nil, difference_empty_L. split_and!; [done|apply only_bytes_refl|done|].
    intros a. split; [by intros []%in_planes_nil|done]. }
  destruct Hok as [(v & Ev & Hv) Hok]. rewrite (virts_cons _ _ v Ev) in *. cbn [uninit_planes].
  change (cvrt_plane alloc format 2 p i) with (_ ← with_bytes drop_bytes p; pitcher_free_plane (W := cvrt) p i).
  destruct (with_bytes_ok drop_bytes p v w Ev) as (w1 & E1 & B1 & M1 & O1 & Y1).
  unfold pitcher_free_plane at 1. rewrite Ev. destruct (free_ok w1 v) as (w2 & E2 & B2 & N2 & L2); [rewrite M1; set_solver|].
  erewrite M_bind_done by (erewrite M_bind_done by exact E1; erewrite M_bind_done by exact E2; reflexivity).
  rewrite M1 in L2. destruct (IH (i + 1) w2 Hok) as (l' & w' & E & B & O & L & Y); [rewrite L2; set_solver|].
  erewrite M_bind_done by exact E. eexists _, w'. split; [reflexivity|]. split; [by rewrite B, B2|].
  split; [eapply only_bytes_trans; [exact O1|]; eapply only_bytes_trans; [by apply only_bytes_same|done]|].
  split; [rewrite L, L2; set_solver|]. intros a. destruct (Y a) as [Ya Yb]. rewrite in_planes_cons. rewrite N2, Y1, drop_bytes_lookup in Yb.
  assert (Hp : in_plane p a ↔ v ≤ a < v + pl_size p).
  { unfold in_plane. rewrite Ev. split; [by intros (v' & [= <-] & ?)|by exists v]. }
  rewrite Hp. destruct (decide (in_planes l a)); case_bool_decide; tauto.
Qed.

(** A buffer as [pitcher_new_buffer] leaves it, with planes of convert.c. *)
Definition mid_ext (l : list pitcher_buf_ref) : ext_buffer := Ext l 0 0 1 2 3.

Lemma put_mid_ok b l (w : CW) : w_bufs w !! b = Some (mid_ext l) → planes_ok l → virts l ⊆ live w → b ∈ live w → b ∉ virts l →
  ∃ w', put_mid alloc b w = Done (tt, w') ∧ w_bufs w' = delete b (w_bufs w) ∧ live w' = live w ∖ ({[b]} ∪ virts l) ∧
    only_bytes w w' ∧ shrunk l (bytes w) (bytes w').
Proof.
  intros Hb Hok Hl Hbl Hbv. unfold put_mid, pitcher_put_buffer, pitcher_put_obj.
  erewrite M_bind_done by (unfold load_buf; rewrite Hb; reflexivity). change (b_refcount (mid_ext l)) with 1. cbn [Z.eqb].
  erewrite M_bind_done by (unfold store_buf; rewrite Hb; reflexivity). change (1 - 1 =? 0) with true. cbn iota.
  set (w1 := World _ _ _). unfold __release_buffer.
  erewrite M_bind_done by (unfold load_buf, w1; cbn; rewrite lookup_insert_eq; reflexivity).
  erewrite M_bind_done by (unfold store_buf, w1; cbn; rewrite lookup_insert_eq; reflexivity).
  erewrite M_bind_done by reflexivity. cbn iota.
  erewrite M_bind_done by (unfold load_buf; cbn; rewrite lookup_insert_eq; reflexivity).
  set (w2 := World _ _ _). destruct (uninit_planes_cvrt no_format l 0 w2 Hok Hl) as (l' & w3 & E3 & B3 & O3 & L3 & Y3).
  erewrite M_bind_done by exact E3. destruct (free_buf_ok w3 b) as (w4 & E4 & B4 & L4 & N4); [rewrite L3; set_solver|].
  exists w4. split; [exact E4|]. split; [rewrite B4, B3; cbn; by rewrite !delete_insert_eq|].
  split; [rewrite L4, L3; cbn; set_solver|]. split; [|by rewrite N4].
  eapply only_bytes_trans; [exact O3|by apply only_bytes_same].
Qed.

Lemma take_replicate_min k n : take k (replicate n (0 : Z)) = replicate (Nat.min k n) 0.
Proof. revert n. induction k as [|k IH]; intros [|n]; cbn; [done..|]. by rewrite IH. Qed.

(** The planes and the first reference. *)
Lemma first_reference b l (w : CW) : w_bufs w !! b = Some (Ext [] 0 0 0 2 3) →
  (e ← load_buf b; _ ← store_buf b (set_refcount 0 (set_planes l e)); _ ← pitcher_get_obj b; mret (Some b)) w =
  Done (Some b, World (w_mem w) (<[b := mid_ext l]> (w_bufs w)) (w_env w)).
Proof.
  intros Hb. erewrite M_bind_done by (unfold load_buf; rewrite Hb; reflexivity).
  erewrite M_bind_done by (unfold store_buf; rewrite Hb; reflexivity). unfold pitcher_get_obj. erewrite M_bind_done.
  2:{ erewrite M_bind_done by (unfold load_buf; cbn; rewrite lookup_insert_eq; reflexivity).
      unfold store_buf. cbn [w_bufs]. rewrite lookup_insert_eq. reflexivity. }
  cbn. by rewrite insert_insert_eq.
Qed.

(** A new buffer, or nothing; with an allocator that never refuses it has all
    its planes. *)
Lemma new_mid_ok format (w : CW) : (∀ b, is_Some (w_bufs w !! b) → b ∈ live w) → 0 ≤ i_num_planes format ≤ 8 →
  (∀ j, 0 ≤ j < i_num_planes format → is_Some (nthz (i_planes format) j)) →
  ∃ r w', pitcher_new_buffer alloc (cvrt_plane alloc format) (Some (mid_desc format)) w = Done (r, w') ∧ only_bytes w w' ∧
    match r with
    | None => w_bufs w' = w_bufs w ∧ live w' = live w ∧ bytes w' = bytes w
    | Some b => ∃ l, w_bufs w' = <[b := mid_ext l]> (w_bufs w) ∧ live w' = {[b]} ∪ virts l ∪ live w ∧
        b ∉ live w ∧ b ∉ virts l ∧ virts l ## live w ∧ planes_ok l ∧ by_alloc (live w) (live w') ∧ grown l (bytes w) (bytes w') ∧
        (∀ j p, l !! j = Some p → pl_size p = pi_size (plane format (Z.of_nat j)))
    end ∧
    ((∀ n X, is_Some (alloc n X)) → 0 < i_num_planes format →
      (∀ j, 0 ≤ j < i_num_planes format → pi_size (plane format j) ≠ 0) →
      ∃ b l, r = Some b ∧ w_bufs w' !! b = Some (mid_ext l) ∧ length l = Z.to_nat (i_num_planes format)).
Proof.
  intros Hsub Hn Hp. unfold pitcher_new_buffer. cbn [mid_desc d_plane_count d_init_plane d_uninit_plane d_recycle d_plane_size].
  change (1 =? 0) with false. change (2 =? 0) with false. change (3 =? 0) with false. rewrite !orb_false_r.
  destruct (Z.eqb_spec (i_num_planes format) 0) as [E0|E0].
  { exists None, w. split; [done|]. split; [apply only_bytes_refl|]. split; [done|]. lia. }
  rewrite (proj2 (Z.ltb_ge MAX_PLANES _)) by (unfold MAX_PLANES; lia).
  destruct (calloc_done w) as (r & w1 & E1 & B1 & N1 & [n Ea] & Hr). erewrite M_bind_done by exact E1. destruct r as [b|].
  2:{ exists None, w1. split; [done|]. split; [by apply only_bytes_same|]. rewrite B1, N1. split; [done|].
      intros Ha. destruct (Ha n (live w)) as [? E]. by rewrite Ea in E. }
  destruct Hr as [L1 Hb]. assert (Hnb : w_bufs w !! b = None) by (apply eq_None_not_Some; intros ?; by apply Hb, Hsub).
  erewrite M_bind_done by done. set (w2 := World _ _ _). rewrite take_replicate_min.
  replace (Nat.min (Z.to_nat (i_num_planes format)) 8) with (Z.to_nat (i_num_planes format)) by lia.
  destruct (init_planes_cvrt format (Z.to_nat (i_num_planes format)) 0 w2) as (l & w3 & E3 & B3 & O3 & Hok & L3 & D3 & A3 & Y3 & S3 & N3);
    [intros j Hj; apply Hp; lia|].
  erewrite M_bind_done by exact E3. change (live w2) with (live w1) in *. change (w_env w2) with (w_env w1) in Y3. rewrite N1 in Y3.
  assert (O : only_bytes w w3) by (eapply only_bytes_trans; [by apply only_bytes_same|exact O3]). rewrite L1 in *. destruct l as [|p l].
  - destruct (free_buf_ok w3 b) as (w4 & E4 & B4 & L4 & N4); [rewrite L3; set_solver|].
    erewrite M_bind_done by exact E4. exists None, w4. split; [done|].
    split; [eapply only_bytes_trans; [exact O|by apply only_bytes_same]|]. split.
    + rewrite B4, B3, L4, L3, virts_nil, N4. cbn. rewrite B1, delete_insert_id by done. split_and!; [done|set_solver|].
      apply map_eq. intros a. apply Y3, in_planes_nil.
    + intros Ha _ Hs. exfalso. enough (0%nat = Z.to_nat (i_num_planes format)) by lia. apply (N3 Ha). intros j Hj. apply Hs. lia.
  - assert (Elk : w_bufs w3 !! b = Some (Ext [] 0 0 0 2 3)) by (rewrite B3; apply lookup_insert_eq).
    do 2 eexists. split; [exact (first_reference b (p :: l) w3 Elk)|]. split; [exact O|]. split.
    + exists (p :: l). cbn [w_bufs w_mem w_env]. split; [rewrite B3; cbn; by rewrite insert_insert_eq, B1|].
      rewrite L3. split_and!; try done; [set_solver|set_solver|set_solver|].
      eapply by_alloc_one; [exact Ea|]. by rewrite <- L3.
    + intros Ha _ Hs. exists b, (p :: l). cbn [w_bufs]. split; [done|]. rewrite lookup_insert_eq. split; [done|].
      apply N3; [done|]. intros j Hj. apply Hs. lia.
Qed.
End buffers.

(** ** What a context owns *)

(** A buffer of the context; [owns k] is that for eight ([false]) or sixteen
    bits. *)
Record midbuf := MidBuf { mb_addr : Z; mb_planes : list pitcher_buf_ref }.
Abbreviation mids := (bool → option midbuf).

Definition blocks_of (x : option midbuf) : gset Z :=
  match x with Some x => {[mb_addr x]} ∪ virts (mb_planes x) | None => ∅ end.
Definition planes_in (x : option midbuf) : list pitcher_buf_ref := match x with Some x => mb_planes x | None => [] end.
Definition with_mid (x : option midbuf) (B : gmap Z ext_buffer) : gmap Z ext_buffer :=
  match x with Some x => <[mb_addr x := mid_ext (mb_planes x)]> B | None => B end.
Definition owned (o : mids) : gset Z := blocks_of (o false) ∪ blocks_of (o true).
Definition upd_mid (k : bool) (x : option midbuf) (o : mids) : mids := λ k', if Bool.eqb k k' then x else o k'.

Lemma upd_mid_same k x o : upd_mid k x o k = x.
Proof. unfold upd_mid. by rewrite Bool.eqb_reflx. Qed.
Lemma upd_mid_other k x o : upd_mid k x o (negb k) = o (negb k).
Proof. by destruct k. Qed.
Lemma owned_split k o : owned o = blocks_of (o k) ∪ blocks_of (o (negb k)).
Proof. unfold owned. destruct k; cbn; [apply union_comm_L|done]. Qed.

(** A world with the buffers [B] and blocks [L] of others, and those the context
    owns; [converter] says that its structure [s] names them. *)
Record holding (B : gmap Z ext_buffer) (L : gset Z) (o : mids) (w : world cvrt) : Prop := {
  ho_bufs : ∀ k, w_bufs w = with_mid (o k) (with_mid (o (negb k)) B);
  ho_live : m_live (w_mem w) = owned o ∪ L;
  ho_new : owned o ## L;
  ho_two : ∀ k, blocks_of (o k) ## blocks_of (o (negb k));
  ho_planes : ∀ k x, o k = Some x → planes_ok (mb_planes x) ∧ mb_addr x ∉ virts (mb_planes x);
  ho_old : ∀ b, is_Some (B !! b) → b ∈ L
}.
Definition named (s : Z) (o : mids) (w : world cvrt) : Prop :=
  ∃ y, cv_swc (w_env w) !! s = Some y ∧ ∀ k, mid_of k y = mb_addr <$> o k.
Definition converter (B : gmap Z ext_buffer) (L : gset Z) (s : Z) (o : mids) (w : world cvrt) : Prop :=
  holding B L o w ∧ named s o w.

Lemma in_blocks x : mb_addr x ∈ blocks_of (Some x).
Proof. cbn. set_solver. Qed.

Lemma holding_env B L o w w' : w_bufs w' = w_bufs w → w_mem w' = w_mem w → holding B L o w → holding B L o w'.
Proof. intros E1 E2 []. constructor; try done; intros; by rewrite ?E1, ?E2. Qed.

Section holding.
Context (alloc : nat → gset Z → option Z).
Context (alloc_fresh : ∀ n X p, alloc n X = Some p → p ∉ X).
Abbreviation bytes w := (cv_bytes (w_env w)).

Lemma holding_other B L o w k x : holding B L o w → o k = Some x → with_mid (o (negb k)) B !! mb_addr x = None.
Proof.
  intros H E. pose proof (ho_two _ _ _ _ H k) as Ht. pose proof (ho_new _ _ _ _ H) as Hn. rewrite (owned_split k) in Hn.
  rewrite E in *. pose proof (in_blocks x) as Hx. assert (Hb : B !! mb_addr x = None).
  { apply eq_None_not_Some. intros Hs%(ho_old _ _ _ _ H). set_solver. }
  destruct (o (negb k)) as [z|]; cbn [with_mid]; [|done]. pose proof (in_blocks z).
  rewrite lookup_insert_ne; [done|]. intros Ez. rewrite Ez in *. set_solver.
Qed.

Lemma holding_drop B L o w k x : holding B L o w → o k = Some x →
  ∃ w', put_mid alloc (mb_addr x) w = Done (tt, w') ∧ holding B L (upd_mid k None o) w' ∧ only_bytes w w' ∧
    shrunk (mb_planes x) (bytes w) (bytes w').
Proof.
  intros H E. pose proof (holding_other _ _ _ _ _ _ H E) as Hx. pose proof (ho_bufs _ _ _ _ H k) as Hb. rewrite E in Hb. cbn in Hb.
  destruct (ho_planes _ _ _ _ H k x E) as [Hok Hv]. pose proof (ho_live _ _ _ _ H) as Hl. rewrite (owned_split k), E in Hl. cbn [blocks_of] in Hl.
  pose proof (ho_new _ _ _ _ H) as Hn. rewrite (owned_split k), E in Hn. cbn [blocks_of] in Hn.
  pose proof (ho_two _ _ _ _ H k) as Ht. rewrite E in Ht. cbn [blocks_of] in Ht.
  destruct (put_mid_ok alloc alloc_fresh (mb_addr x) (mb_planes x) w) as (w' & Ew & Bw & Lw & O & Y);
    [rewrite Hb; apply lookup_insert_eq|done|set_solver|set_solver|done|].
  exists w'. split; [done|]. split; [|done]. constructor.
  - intros k'. rewrite Bw, Hb, delete_insert_id by done.
    unfold upd_mid. by destruct k, k'; cbn [Bool.eqb negb with_mid] in *; destruct (o _).
  - rewrite (owned_split k), upd_mid_same, upd_mid_other, Lw, Hl. cbn [blocks_of]. set_solver.
  - rewrite (owned_split k), upd_mid_same, upd_mid_other. cbn [blocks_of]. set_solver.
  - intros k'. unfold upd_mid. destruct k, k'; cbn [Bool.eqb negb blocks_of]; set_solver.
  - intros k' y. unfold upd_mid. destruct (Bool.eqb k k'); [done|]. apply (ho_planes _ _ _ _ H).
  - apply (ho_old _ _ _ _ H).
Qed.

Lemma insert_with_mid b e x B : (∀ y, x = Some y → mb_addr y ≠ b) → <[b := e]> (with_mid x B) = with_mid x (<[b := e]> B).
Proof.
  destruct x as [y|]; cbn [with_mid]; [|done]. intros H. apply insert_insert_ne. intros Eb. by apply (H y).
Qed.

(** Enough entries in [planes] for the planes there are. *)
Definition shaped (f : pix_fmt_info) : Prop :=
  0 ≤ i_num_planes f ≤ 8 ∧ ∀ j, 0 ≤ j < i_num_planes f → is_Some (nthz (i_planes f) j).

(** The planes have the sizes of the format. *)
Definition sized (f : pix_fmt_info) (l : list pitcher_buf_ref) : Prop :=
  ∀ j p, l !! j = Some p → pl_size p = pi_size (plane f (Z.of_nat j)).

Lemma holding_bufs_live B L o w b : holding B L o w → is_Some (w_bufs w !! b) → b ∈ m_live (w_mem w).
Proof.
  intros H. rewrite (ho_bufs _ _ _ _ H true), (ho_live _ _ _ _ H). unfold owned.
  destruct (o true) as [x|]; cbn [negb with_mid blocks_of]; destruct (o false) as [y|]; cbn [with_mid blocks_of];
    rewrite ?lookup_insert_is_Some; pose proof (ho_old _ _ _ _ H b); set_solver.
Qed.

Lemma holding_make B L o w k format : holding B L o w → o k = None → shaped format →
  ∃ x w', pitcher_new_buffer alloc (cvrt_plane alloc format) (Some (mid_desc format)) w = Done (mb_addr <$> x, w') ∧
    holding B L (upd_mid k x o) w' ∧ only_bytes w w' ∧ grown (planes_in x) (bytes w) (bytes w') ∧ sized format (planes_in x) ∧
    by_alloc alloc (m_live (w_mem w)) (m_live (w_mem w')) ∧
    ((∀ n X, is_Some (alloc n X)) → 0 < i_num_planes format →
      (∀ j, 0 ≤ j < i_num_planes format → pi_size (plane format j) ≠ 0) →
      ∃ y, x = Some y ∧ length (mb_planes y) = Z.to_nat (i_num_planes format)).
Proof.
  intros H E [Hn Hp]. destruct (new_mid_ok alloc alloc_fresh format w) as (r & w' & Ew & O & Hr & Ha); [|done|done|].
  { intros b. by eapply holding_bufs_live. }
  pose proof (ho_live _ _ _ _ H) as Hl. rewrite (owned_split k), E in Hl. cbn [blocks_of] in Hl. destruct r as [b|].
  - destruct Hr as (l & Bw & Lw & Hb & Hbv & Hvl & Hok & A & Y & S). exists (Some (MidBuf b l)), w'.
    split; [exact Ew|]. split; [|split_and!; try done]. 
    + constructor.
      * intros k'. rewrite Bw, (ho_bufs _ _ _ _ H k), E. cbn [with_mid].
        assert (Hne : ∀ y, o (negb k) = Some y → mb_addr y ≠ b).
        { intros y Ey <-. rewrite Ey in Hl. pose proof (in_blocks y). set_solver. }
        unfold upd_mid. destruct k, k'; cbn [Bool.eqb negb with_mid mb_addr mb_planes] in *; try done; by apply insert_with_mid.
      * rewrite (owned_split k), upd_mid_same, upd_mid_other, Lw, Hl. cbn [blocks_of mb_addr mb_planes]. set_solver.
      * pose proof (ho_new _ _ _ _ H) as Hd. rewrite (owned_split k), E in Hd. cbn [blocks_of] in Hd.
        rewrite (owned_split k), upd_mid_same, upd_mid_other. cbn [blocks_of mb_addr mb_planes]. set_solver.
      * intros k'. unfold upd_mid. destruct k, k'; cbn [Bool.eqb negb blocks_of mb_addr mb_planes] in *; set_solver.
      * intros k' y. unfold upd_mid. destruct (Bool.eqb k k'); [by intros [= <-]|]. apply (ho_planes _ _ _ _ H).
      * apply (ho_old _ _ _ _ H).
    + intros A1 A2 A3. destruct (Ha A1 A2 A3) as (b' & l' & [= <-] & Hb' & Hlen). rewrite Bw, lookup_insert_eq in Hb'.
      injection Hb' as <-. by exists (MidBuf b l).
  - destruct Hr as (Bw & Lw & Yw). exists None, w'. split; [exact Ew|]. split; [|split_and!; try done].
    + destruct H as [H1 H2 H3 H4 H5 H6]. assert (Eo : ∀ k', upd_mid k None o k' = o k').
      { intros k'. unfold upd_mid. destruct (Bool.eqb k k') eqn:Ek; [|done]. apply Bool.eqb_prop in Ek as <-. done. }
      constructor; unfold owned in *; intros; rewrite ?Eo, ?Bw, ?Lw in *; eauto.
    + rewrite Yw. apply grown_nil.
    + rewrite Lw. apply by_alloc_refl.
    + intros A1 A2 A3. destruct (Ha A1 A2 A3) as (b' & l' & ? & _). done.
Qed.
End holding.

(** ** The two allocations *)

Section allocation.
Context `{V : Videodev2}.
Context (alloc : nat → gset Z → option Z).
Context (alloc_fresh : ∀ n X p, alloc n X = Some p → p ∉ X).
Abbreviation bytes w := (cv_bytes (w_env w)).
Abbreviation format_in w b := (cv_format (w_env w) !! b).

Lemma fill_planes_len n d width height al_w al_h alignment : ∀ i s planes planes' s',
  fill_planes n d width height al_w al_h alignment i s planes = Done (planes', s') → zlen planes' = zlen planes.
Proof.
  induction n as [|n IH]; intros i s planes planes' s' E; cbn [fill_planes] in E; [by injection E as <- _|].
  apply bind_done_inv in E as ([[a b] g] & _ & E). apply bind_done_inv in E as (planes1 & E1 & E). apply IH in E. rewrite E.
  unfold storez in E1. destruct (_ && _); [|done]. injection E1 as <-. apply zlen_insert.
Qed.

Lemma with_size_shaped f width height al r g :
  pitcher_get_pix_fmt_info (Some (with_size f width height)) al = Done (r, Some g) → shaped g.
Proof.
  unfold pitcher_get_pix_fmt_info. destruct (_ || _).
  { intros [= _ <-]. split; [by cbn|]. cbn. lia. }
  cbn [with_size i_format i_width i_height i_interlaced i_planes i_size]. destruct (pix_fmt_descriptors f) as [d|] eqn:Ed; [|done].
  cbn [of_option]. rewrite bind_done. destruct (tile_alignment d 0) as [al_w al_h]. intros E.
  apply bind_done_inv in E as ([planes s] & E1 & [= _ <-]). apply fill_planes_len in E1. unfold shaped. cbn [i_num_planes i_planes].
  pose proof (dk_planes d (descriptor_ok _ _ Ed)). split; [lia|]. intros j Hj. rewrite nthz_lookup by lia. apply lookup_lt_is_Some_2.
  unfold zlen in E1. rewrite length_replicate in E1. lia.
Qed.

Lemma converter_ext B L s o o' w : (∀ k, o' k = o k) → converter B L s o w → converter B L s o' w.
Proof.
  intros E [[H1 H2 H3 H4 H5 H6] (y & Ey & Hy)]. split.
  - constructor; unfold owned in *; intros; rewrite ?E in *; eauto.
  - exists y. split; [done|]. intros k. by rewrite E.
Qed.

Lemma upd_mid_id k o k' : upd_mid k (o k) o k' = o k'.
Proof. unfold upd_mid. destruct (Bool.eqb k k') eqn:E; [|done]. by apply Bool.eqb_prop in E as <-. Qed.

Lemma mid_of_set k k' x y : mid_of k' (set_mid k x y) = if Bool.eqb k k' then x else mid_of k' y.
Proof. by destruct k, k'. Qed.
Lemma mid_of_set_format k k' f y : mid_of k' (set_mid_format k f y) = mid_of k' y.
Proof. by destruct k, k'. Qed.

(** Storing the structure of the context. *)
Lemma store_swc_ok s y z (w : world cvrt) : cv_swc (w_env w) !! s = Some y →
  ∃ w', store_swc s z w = Done (tt, w') ∧ w_bufs w' = w_bufs w ∧ w_mem w' = w_mem w ∧
    w_env w' = set_swcs (<[s := z]> (cv_swc (w_env w))) (w_env w).
Proof.
  intros E. unfold store_swc. erewrite M_bind_done by reflexivity. rewrite E. eexists. split; [reflexivity|]. done.
Qed.

Lemma load_swc_ok s y (w : world cvrt) : cv_swc (w_env w) !! s = Some y → load_swc s w = Done (y, w).
Proof. intros E. unfold load_swc. erewrite M_bind_done by reflexivity. by rewrite E. Qed.

Lemma load_ctx_ok c x (w : world cvrt) : cv_ctx (w_env w) !! c = Some x → load_ctx c w = Done (x, w).
Proof. intros E. unfold load_ctx. erewrite M_bind_done by reflexivity. by rewrite E. Qed.

Lemma view_ok b x (w : world cvrt) : w_bufs w !! b = Some x → view b w = Done (PBuf (b_planes x) (format_in w b) None, w).
Proof.
  intros E. unfold view. erewrite M_bind_done by (unfold load_buf; rewrite E; reflexivity). by erewrite M_bind_done by reflexivity.
Qed.

(** Making the buffer of width [k] when there is none. *)
Lemma make_mid B L s o w k format y : holding B L o w → cv_swc (w_env w) !! s = Some y → o k = None →
  (∀ k', k' = negb k → mid_of k' y = mb_addr <$> o k') → shaped format →
  ∃ (x : option midbuf) (w' : world cvrt), (_ ← store_swc s (set_mid_format k format y);
      b ← pitcher_new_buffer alloc (cvrt_plane alloc format) (Some (mid_desc format));
      x ← load_swc s;
      _ ← store_swc s (set_mid k b x);
      match b with
      | None => mret (- RET_E_NO_MEMORY)
      | Some b => _ ← change_env (set_format b format); mret 0
      end) w = Done (if x then 0 else - RET_E_NO_MEMORY, w') ∧
    converter B L s (upd_mid k x o) w' ∧ cv_ctx (w_env w') = cv_ctx (w_env w) ∧
    (∀ b, b ∉ blocks_of x → format_in w' b = format_in w b) ∧
    (∀ x', x = Some x' → format_in w' (mb_addr x') = Some format) ∧
    grown (planes_in x) (bytes w) (bytes w') ∧ sized format (planes_in x) ∧
    by_alloc alloc (m_live (w_mem w)) (m_live (w_mem w')) ∧
    ((∀ n X, is_Some (alloc n X)) → 0 < i_num_planes format →
      (∀ j, 0 ≤ j < i_num_planes format → pi_size (plane format j) ≠ 0) →
      ∃ y, x = Some y ∧ length (mb_planes y) = Z.to_nat (i_num_planes format)).
Proof.
  intros H Ey Eo Hy Hsh. destruct (store_swc_ok s y (set_mid_format k format y) w Ey) as (w1 & E1 & B1 & M1 & N1).
  destruct (holding_make alloc alloc_fresh B L o w1 k format (holding_env _ _ _ _ _ B1 M1 H) Eo Hsh)
    as (x & w2 & E2 & H2 & [m2 O2] & G2 & S2 & A2 & T2).
  assert (Es2 : cv_swc (w_env w2) !! s = Some (set_mid_format k format y)) by (rewrite O2, N1; cbn; apply lookup_insert_eq).
  destruct (store_swc_ok s _ (set_mid k (mb_addr <$> x) (set_mid_format k format y)) w2 Es2) as (w3 & E3 & B3 & M3 & N3).
  pose proof (holding_env _ _ _ _ _ B3 M3 H2) as H3. rewrite M1 in A2. rewrite N1 in G2, O2.
  assert (Hn : ∀ k', mid_of k' (set_mid k (mb_addr <$> x) (set_mid_format k format y)) = mb_addr <$> upd_mid k x o k').
  { intros k'. rewrite mid_of_set, mid_of_set_format. unfold upd_mid. destruct (Bool.eqb k k') eqn:Ek; [done|].
    apply Hy. apply Bool.eqb_false_iff in Ek. by destruct k, k'. }
  exists x. destruct x as [x|]; cbn [fmap option_fmap option_map] in *.
  - eexists. split; [erewrite M_bind_done by exact E1; erewrite M_bind_done by exact E2;
      erewrite M_bind_done by (by apply load_swc_ok); erewrite M_bind_done by exact E3; reflexivity|].
    cbn [w_env w_mem w_bufs set_format cv_ctx cv_format cv_bytes cv_swc]. rewrite N3, O2, M3. rewrite O2 in G2.
    split; [split; [by eapply holding_env; [| |exact H3]|]|].
    { eexists. split; [apply lookup_insert_eq|exact Hn]. }
    split_and!; try done.
    + intros b Hb. apply lookup_insert_ne. intros <-. apply Hb, in_blocks.
    + intros x' [= <-]. apply lookup_insert_eq.
  - exists w3. split; [erewrite M_bind_done by exact E1; erewrite M_bind_done by exact E2;
      erewrite M_bind_done by (by apply load_swc_ok); erewrite M_bind_done by exact E3; reflexivity|].
    rewrite N3, O2, M3. rewrite O2 in G2. split; [split; [exact H3|]|].
    { eexists. rewrite N3. split; [apply lookup_insert_eq|exact Hn]. }
    by split_and!.
Qed.

(** What an allocation leaves alone, and what it gives. *)
Definition made (k : bool) (format : pix_fmt_info) (o : mids) (x : option midbuf) (w w' : world cvrt) : Prop :=
  ∃ m, shrunk (planes_in (o k)) (bytes w) m ∧ grown (planes_in x) m (bytes w') ∧ sized format (planes_in x) ∧
    by_alloc alloc (m_live (w_mem w) ∖ blocks_of (o k)) (m_live (w_mem w')) ∧
    (∀ x', x = Some x' → format_in w' (mb_addr x') = Some format) ∧
    ((∀ n X, is_Some (alloc n X)) → 0 < i_num_planes format →
      (∀ j, 0 ≤ j < i_num_planes format → pi_size (plane format j) ≠ 0) →
      ∃ y, x = Some y ∧ length (mb_planes y) = Z.to_nat (i_num_planes format)).

Definition kept_buffer (format : pix_fmt_info) (x : option midbuf) (w : world cvrt) : Prop :=
  ∃ y, x = Some y ∧ pitcher_compare_format (format_in w (mb_addr y)) (Some format) = 0.

(** The buffer of width [k] is kept when its format is the one asked for, and
    made anew otherwise. *)
Lemma alloc_mid_ok B L s o w k c ctx src fs r format : converter B L s o w →
  cv_ctx (w_env w) !! c = Some ctx → cc_priv ctx = Some s → cc_src ctx = Some src → format_at src w = Done (fs, w) →
  pitcher_get_pix_fmt_info (Some (with_size (mid_fmt k) (i_width fs) (i_height fs))) 0 = Done (r, Some format) →
  ∃ (x : option midbuf) w', alloc_mid alloc k c w = Done (if x then 0 else - RET_E_NO_MEMORY, w') ∧
    converter B L s (upd_mid k x o) w' ∧ cv_ctx (w_env w') = cv_ctx (w_env w) ∧
    (∀ b, b ∉ blocks_of x → format_in w' b = format_in w b) ∧
    ((w' = w ∧ x = o k ∧ kept_buffer format x w) ∨ made k format o x w w').
Proof.
  intros [H (y & Ey & Hy)] Ec Ep Es Ef Eg. pose proof (with_size_shaped _ _ _ _ _ _ Eg) as Hsh. unfold alloc_mid.
  erewrite M_bind_done by (by apply load_ctx_ok). erewrite M_bind_done by (unfold lift; rewrite Ep; reflexivity).
  erewrite M_bind_done by (unfold lift; rewrite Es; reflexivity). erewrite M_bind_done by exact Ef. cbv zeta.
  erewrite M_bind_done by (unfold lift; rewrite Eg; reflexivity). cbn iota.
  erewrite M_bind_done by reflexivity. erewrite M_bind_done by (by apply load_swc_ok). rewrite (Hy k).
  destruct (o k) as [z|] eqn:Eo; cbn [fmap option_fmap option_map].
  2:{ erewrite M_bind_done by reflexivity. cbn iota. erewrite M_bind_done by (by apply load_swc_ok).
      destruct (make_mid B L s o w k format y H Ey Eo (λ k' _, Hy k') Hsh) as (x & w' & E & Hc & Hctx & Hf & Hx & Hg & Hs & Ha & Ht).
      exists x, w'. split_and!; try done. right. exists (bytes w). rewrite Eo. cbn [planes_in blocks_of].
      rewrite difference_empty_L. split_and!; try done. intros a. split; [by intros []%in_planes_nil|done]. }
  assert (Ez : w_bufs w !! mb_addr z = Some (mid_ext (mb_planes z))).
  { rewrite (ho_bufs _ _ _ _ H k), Eo. apply lookup_insert_eq. }
  destruct (Z.eqb_spec (pitcher_compare_format (format_in w (mb_addr z)) (Some format)) 0) as [Hcmp|Hcmp].
  - erewrite M_bind_done.
    2:{ erewrite M_bind_done by (by apply view_ok). cbn [pb_format]. rewrite (proj2 (Z.eqb_eq _ _) Hcmp). reflexivity. }
    cbn iota. exists (Some z), w. split; [done|]. split.
    { apply (converter_ext _ _ _ o); [intros k'; rewrite <- Eo; apply upd_mid_id|]. split; [done|by exists y]. }
    split_and!; try done. left. split_and!; try done. by exists z.
  - destruct (holding_drop alloc alloc_fresh B L o w k z H Eo) as (w1 & E1 & H1 & [m1 O1] & S1).
    assert (Ey1 : cv_swc (w_env w1) !! s = Some y) by (by rewrite O1).
    destruct (store_swc_ok s y (set_mid k None y) w1 Ey1) as (w2 & E2 & B2 & M2 & N2).
    erewrite M_bind_done.
    2:{ erewrite M_bind_done by (by apply view_ok). cbn [pb_format]. rewrite (proj2 (Z.eqb_neq _ _) Hcmp).
        erewrite M_bind_done by exact E1. erewrite M_bind_done by exact E2. reflexivity. }
    assert (Ey2 : cv_swc (w_env w2) !! s = Some (set_mid k None y)) by (rewrite N2; apply lookup_insert_eq).
    cbn iota. erewrite M_bind_done by (by apply load_swc_ok).
    destruct (make_mid B L s (upd_mid k None o) w2 k format (set_mid k None y) (holding_env _ _ _ _ _ B2 M2 H1) Ey2)
      as (x & w' & E & Hc & Hctx & Hf & Hx & Hg & Hs & Ha & Ht); [apply upd_mid_same| |done|].
    { intros k' ->. rewrite mid_of_set, upd_mid_other. rewrite <- Hy. by destruct k. }
    exists x, w'. split; [exact E|]. split.
    { apply (converter_ext _ _ _ (upd_mid k x (upd_mid k None o))); [|done]. intros k'. unfold upd_mid. by destruct (Bool.eqb k k'). }
    rewrite N2, O1 in Hctx, Hf, Hg. split; [done|]. split; [done|]. right. exists m1. rewrite Eo. cbn [planes_in].
    rewrite O1 in S1. split_and!; try done. rewrite M2 in Ha.
    replace (m_live (w_mem w) ∖ blocks_of (Some z)) with (m_live (w_mem w1)); [done|].
    rewrite (ho_live _ _ _ _ H1), (ho_live _ _ _ _ H), !(owned_split k), upd_mid_same, upd_mid_other, Eo.
    pose proof (ho_two _ _ _ _ H k) as Ht2. pose proof (ho_new _ _ _ _ H) as Hn. rewrite (owned_split k), Eo in Hn. rewrite Eo in Ht2.
    cbn [blocks_of] in *. set_solver.
Qed.
End allocation.
