(* ===== verification/Contexts.v ===== *)
(** * The life of a conversion context

    [pitcher_create_sw_convert], any number of frames, [pitcher_free_sw_convert]:
    the intermediate buffers come and go with the formats of the frames, and at
    the end nothing is left.  [steady] is what every step of a frame keeps. *)

From S2P Require Import Prelude Misc Buffer Pixfmt Convert Cvrt Mids.
Open Scope Z_scope.

Section contexts.
Context `{V : Videodev2}.
Context (alloc : nat → gset Z → option Z).
Context (alloc_fresh : ∀ n X p, alloc n X = Some p → p ∉ X).
Abbreviation CM := (M (world cvrt)).
Abbreviation live w := (m_live (w_mem w)).

Section frame.
(** Context [c] with its structure [s]; [B] and [L] belong to others. *)
Context (B : gmap Z ext_buffer) (L : gset Z) (c s : Z) (ctx : convert_ctx).
Context (Hs : cc_priv ctx = Some s).

Definition running (w : world cvrt) : Prop := (∃ o, converter B L s o w) ∧ cv_ctx (w_env w) !! c = Some ctx.
Definition steady {A} (m : CM A) : Prop := ∀ w, running w → ensures m w (λ _, running).

Lemma steady_bind {A A'} (m : CM A) (f : A → CM A') : steady m → (∀ a, steady (f a)) → steady (m ≫= f).
Proof. intros Hm Hf w Hw. apply ensures_bind. eapply ensures_mono; [by apply Hm|]. intros a w' Hw'. by apply Hf. Qed.
Lemma steady_ret {A} (a : A) : steady (mret a).
Proof. intros w Hw. by apply ensures_ret. Qed.
Lemma steady_lift {A} (o : outcome A) : steady (lift o).
Proof. intros w Hw a w' E. destruct o; [|done..]. by injection E as <- <-. Qed.
Lemma steady_view b : steady (view b).
Proof.
  intros w Hw a w' E. unfold view in E. apply M_bind_inv in E as (x & w1 & E1 & E).
  unfold load_buf in E1. destruct (w_bufs w !! b) as [z|]; [|done]. injection E1 as <- <-.
  apply M_bind_inv in E as (e & w2 & Ee & Er). injection Ee as _ <-. injection Er as _ <-. done.
Qed.
Lemma steady_load_swc i : steady (load_swc i).
Proof.
  intros w Hw a w' E. unfold load_swc in E. apply M_bind_inv in E as (e & w2 & Ee & E). injection Ee as <- <-.
  destruct (cv_swc _ !! i); [|done]. by injection E as <- <-.
Qed.
Lemma steady_load_ctx i : steady (load_ctx i).
Proof.
  intros w Hw a w' E. unfold load_ctx in E. apply M_bind_inv in E as (e & w2 & Ee & E). injection Ee as <- <-.
  destruct (cv_ctx _ !! i); [|done]. by injection E as <- <-.
Qed.

Create HintDb steady.
#[local] Hint Resolve steady_ret steady_lift steady_view steady_load_swc steady_load_ctx : steady.

Ltac step_all := cbv zeta; repeat first [by eauto with steady | apply steady_bind | match goal with |- ∀ _, _ => intros ? end | case_match].

Lemma steady_format_at b : steady (format_at b).
Proof. unfold format_at. step_all. Qed.
#[local] Hint Resolve steady_format_at : steady.

Lemma steady_check_depth src dst : steady (pitcher_sw_convert_check_depth src dst).
Proof. unfold pitcher_sw_convert_check_depth. step_all. Qed.
#[local] Hint Resolve steady_check_depth : steady.

(** A conversion changes bytes only. *)
Lemma steady_run F src dst : steady (run_conversion F src dst).
Proof.
  unfold run_conversion. apply steady_bind; [by eauto with steady|intros vs]. apply steady_bind; [by eauto with steady|intros vd].
  intros w Hw. apply ensures_bind. eapply ensures_done; [reflexivity|]. apply ensures_bind. intros [r m] w' E.
  assert (Ew : w' = w) by (unfold lift in E; destruct (F _ _ _); [|done..]; by injection E as _ <-). subst w'.
  intros r' w' E'. apply M_bind_inv in E' as ([] & w2 & E2 & Er). injection E2 as <-. injection Er as _ <-.
  destruct Hw as [(o & H & y & Ey & Hy) Hc]. split; [|done]. exists o. split; [by eapply holding_env; [| |exact H]|]. by exists y.
Qed.
#[local] Hint Resolve steady_run : steady.

Lemma format_at_inv b w f w' : format_at b w = Done (f, w') → w' = w.
Proof.
  intros E. unfold format_at, view in E. apply M_bind_inv in E as (v & w1 & E1 & E).
  apply M_bind_inv in E1 as (x & w2 & E2 & E1). unfold load_buf in E2. destruct (w_bufs w !! b) as [z|]; [|done]. injection E2 as <- <-.
  apply M_bind_inv in E1 as (e & w3 & Ee & Er). injection Ee as _ <-. injection Er as <- <-. destruct (pb_format _); [|done]. by injection E as _ <-.
Qed.

Lemma steady_alloc k : steady (alloc_mid alloc k c).
Proof.
  intros w [(o & H) Hc] r w' E. pose proof E as E'. unfold alloc_mid in E.
  erewrite M_bind_done in E by (by apply load_ctx_ok). rewrite Hs in E. erewrite M_bind_done in E by reflexivity.
  apply M_bind_inv in E as (src & w1 & E1 & E). destruct (cc_src ctx) as [src'|] eqn:Esrc; [|done]. injection E1 as <- <-.
  apply M_bind_inv in E as (fs & w2 & E2 & E). pose proof (format_at_inv _ _ _ _ E2) as ->. cbv zeta in E.
  apply M_bind_inv in E as ([r0 g] & w3 & E3 & E).
  destruct (pitcher_get_pix_fmt_info _ 0) as [[r1 g1]| | |] eqn:Eg; [|done..]. injection E3 as <- <- <-.
  apply M_bind_inv in E as (f & w4 & E4 & _). destruct g1 as [f1|]; [|done].
  destruct (alloc_mid_ok alloc alloc_fresh B L s o w k c ctx src' fs r1 f1 H Hc Hs Esrc E2 Eg) as (x & w5 & E5 & H5 & C5 & _).
  rewrite E5 in E'. injection E' as _ <-. split; [by eexists|]. by rewrite C5.
Qed.
#[local] Hint Resolve steady_alloc : steady.

Lemma steady_target src dst i : steady (unpack_target alloc c src dst i).
Proof. unfold unpack_target, pitcher_sw_convert_alloc_mid_buffer, pitcher_sw_convert_alloc_mid16_buffer. step_all. Qed.
Lemma steady_pack src dst i : steady (pack_steps src dst i).
Proof. unfold pack_steps. step_all. Qed.
#[local] Hint Resolve steady_target steady_pack : steady.

Lemma steady_frame : steady (pitcher_sw_convert_frame alloc (Some c)).
Proof. unfold pitcher_sw_convert_frame, convert_steps. step_all. Qed.
End frame.

(** ** Creation and release *)

Definition no_mids : mids := λ _, None.

Lemma free_ctx_ok c (w : world cvrt) : c ∈ live w → ∃ w', free_ctx (Some c) w = Done (tt, w') ∧ w_bufs w' = w_bufs w ∧
  live w' = live w ∖ {[c]} ∧ w_env w' = set_ctxs (delete c (cv_ctx (w_env w))) (w_env w).
Proof.
  intros Hc. unfold free_ctx. erewrite M_bind_done by reflexivity.
  destruct (free_ok (World (w_mem w) (w_bufs w) (set_ctxs (delete c (cv_ctx (w_env w))) (w_env w))) c Hc) as (w' & E & Hb & He & Hl).
  by exists w'.
Qed.
Lemma free_swc_ok s (w : world cvrt) : s ∈ live w → ∃ w', free_swc (Some s) w = Done (tt, w') ∧ w_bufs w' = w_bufs w ∧
  live w' = live w ∖ {[s]} ∧ w_env w' = set_swcs (delete s (cv_swc (w_env w))) (w_env w).
Proof.
  intros Hs. unfold free_swc. erewrite M_bind_done by reflexivity.
  destruct (free_ok (World (w_mem w) (w_bufs w) (set_swcs (delete s (cv_swc (w_env w))) (w_env w))) s Hs) as (w' & E & Hb & He & Hl).
  by exists w'.
Qed.

(** A new context owns its two blocks and no buffer. *)
Lemma create_ok w : (∀ b, is_Some (w_bufs w !! b) → b ∈ live w) →
  ∃ r w', pitcher_create_sw_convert alloc w = Done (r, w') ∧
    match r with
    | None => w_bufs w' = w_bufs w ∧ live w' = live w
    | Some c => ∃ s, c ∉ live w ∧ s ∉ live w ∧ s ≠ c ∧ converter (w_bufs w) ({[s]} ∪ ({[c]} ∪ live w)) s no_mids w' ∧
        cv_ctx (w_env w') !! c = Some (Cvrt None None (Some s)) ∧ cv_bytes (w_env w') = cv_bytes (w_env w) ∧
        cv_format (w_env w') = cv_format (w_env w)
    end.
Proof.
  intros Hb. unfold pitcher_create_sw_convert. destruct (calloc_done alloc alloc_fresh w) as (r & w1 & E1 & B1 & N1 & _ & Hr).
  erewrite M_bind_done by exact E1. destruct r as [c|]; [|by exists None, w1].
  destruct Hr as [L1 Hc]. erewrite M_bind_done by reflexivity. set (w2 := World _ _ _).
  destruct (calloc_done alloc alloc_fresh w2) as (r & w3 & E3 & B3 & N3 & _ & Hr). erewrite M_bind_done by exact E3.
  change (live w2) with (live w1) in Hr. rewrite L1 in Hr. destruct r as [s|].
  - destruct Hr as [L3 Hs]. erewrite M_bind_done by reflexivity. erewrite M_bind_done by reflexivity. do 2 eexists. split; [reflexivity|].
    exists s. cbn [w_env w_mem w_bufs cv_ctx cv_bytes cv_format cv_swc set_ctxs set_swcs]. rewrite N3. cbn.
    split; [done|]. split; [set_solver|]. split; [set_solver|]. split; [|split_and!; try (by rewrite N1); apply lookup_insert_eq].
    split; [constructor|].
    + intros k. cbn. by rewrite B3, <- B1.
    + cbn [w_mem]. rewrite L3. unfold owned, no_mids. cbn [blocks_of]. set_solver.
    + unfold owned, no_mids. cbn [blocks_of]. set_solver.
    + intros k. cbn. set_solver.
    + done.
    + intros b H. specialize (Hb b H). set_solver.
    + eexists. split; [apply lookup_insert_eq|]. by intros [].
  - erewrite M_bind_done by reflexivity. destruct (free_ctx_ok c w3) as (w4 & E4 & B4 & L4 & _); [rewrite Hr; set_solver|].
    erewrite M_bind_done by exact E4. exists None, w4. split; [done|]. rewrite B4, B3, L4, Hr. split; [done|set_solver].
Qed.

(** Dropping the buffer of width [k], if there is one. *)
Lemma release_ok B L s o w k y : holding B L o w → cv_swc (w_env w) !! s = Some y → mid_of k y = mb_addr <$> o k →
  ∃ w1 w', release_mid alloc (mid_of k y) w = Done (tt, w1) ∧ store_swc s (set_mid k None y) w1 = Done (tt, w') ∧
    holding B L (upd_mid k None o) w' ∧ cv_swc (w_env w') !! s = Some (set_mid k None y) ∧ cv_ctx (w_env w') = cv_ctx (w_env w).
Proof.
  intros H Ey Hk. assert (∃ w1, release_mid alloc (mid_of k y) w = Done (tt, w1) ∧ holding B L (upd_mid k None o) w1 ∧ only_bytes w w1)
    as (w1 & E1 & H1 & O1).
  { rewrite Hk. destruct (o k) as [x|] eqn:Eo; cbn [fmap option_fmap option_map release_mid].
    - destruct (holding_drop alloc alloc_fresh B L o w k x H Eo) as (w1 & E1 & H1 & O1 & _). by exists w1.
    - exists w. split; [done|]. split; [|apply only_bytes_refl]. destruct H as [H1 H2 H3 H4 H5 H6].
      assert (Eu : ∀ k', upd_mid k None o k' = o k') by (intros k'; rewrite <- Eo; apply upd_mid_id).
      constructor; unfold owned in *; intros; rewrite ?Eu in *; eauto. }
  destruct O1 as [m1 O1]. destruct (store_swc_ok s y (set_mid k None y) w1) as (w2 & E2 & B2 & M2 & N2); [by rewrite O1|].
  exists w1, w2. split; [done|]. split; [done|]. split; [by eapply holding_env|]. rewrite N2, O1. cbn. split; [apply lookup_insert_eq|done].
Qed.

(** Everything the context owned is given back. *)
Lemma free_ok_converter B L c s o w ctx : converter B L s o w → cv_ctx (w_env w) !! c = Some ctx → cc_priv ctx = Some s →
  c ∈ L → s ∈ L → c ≠ s →
  ∃ w', pitcher_free_sw_convert alloc (Some c) w = Done (tt, w') ∧ w_bufs w' = B ∧ live w' = L ∖ {[s]} ∖ {[c]} ∧
    cv_ctx (w_env w') !! c = None.
Proof.
  intros [H (y & Ey & Hy)] Ec Ep Hc Hs Hne. unfold pitcher_free_sw_convert. erewrite M_bind_done by (by apply load_ctx_ok).
  erewrite M_bind_done by reflexivity. set (w1 := World _ _ _). rewrite Ep.
  destruct (release_ok B L s o w1 false y (holding_env _ _ _ w w1 eq_refl eq_refl H) Ey (Hy false)) as (w2 & w3 & E2 & E3 & H3 & Ey3 & _).
  destruct (release_ok B L s _ w3 true _ H3 Ey3) as (w4 & w5 & E4 & E5 & H5 & Ey5 & C5).
  { rewrite mid_of_set. cbn [Bool.eqb]. rewrite Hy. done. }
  erewrite M_bind_done.
  2:{ erewrite M_bind_done by (by apply load_swc_ok). erewrite M_bind_done by exact E2. erewrite M_bind_done by exact E3.
      erewrite M_bind_done by (by apply load_swc_ok). erewrite M_bind_done by exact E4. exact E5. }
  pose proof (ho_live _ _ _ _ H5) as L5. unfold owned, upd_mid in L5. cbn in L5. rewrite !union_empty_l_L in L5.
  destruct (free_swc_ok s w5) as (w6 & E6 & B6 & L6 & N6); [by rewrite L5|].
  destruct (free_ctx_ok c w6) as (w7 & E7 & B7 & L7 & N7); [rewrite L6, L5; set_solver|].
  erewrite M_bind_done by exact E6. exists w7. split; [exact E7|]. rewrite B7, B6, L7, L6, L5, N7.
  split; [by rewrite (ho_bufs _ _ _ _ H5 true)|]. split; [done|]. cbn. apply lookup_delete_eq.
Qed.

(** The owner sets the two buffers, and has a frame converted. *)
Definition set_buffers (c : Z) (src dst : option Z) : CM unit :=
  x ← load_ctx c; change_env (λ e, set_ctxs (<[c := Cvrt src dst (cc_priv x)]> (cv_ctx e)) e).

Fixpoint run_frames (c : Z) (frames : list (option Z * option Z)) : CM (list Z) :=
  match frames with
  | [] => mret []
  | (src, dst) :: frames =>
      _ ← set_buffers c src dst;
      r ← pitcher_sw_convert_frame alloc (Some c);
      rs ← run_frames c frames; mret (r :: rs)
  end.

Lemma run_frames_ok B L c s frames : ∀ ctx w, cc_priv ctx = Some s → running B L c s ctx w →
  ensures (run_frames c frames) w (λ _ w', ∃ ctx', cc_priv ctx' = Some s ∧ running B L c s ctx' w').
Proof.
  induction frames as [|[src dst] frames IH]; intros ctx w Hp Hw; cbn [run_frames].
  { apply ensures_ret. by exists ctx. }
  destruct Hw as [(o & H & y & Ey & Hy) Hc]. apply ensures_bind.
  eapply ensures_done; [unfold set_buffers; erewrite M_bind_done by (by apply load_ctx_ok); reflexivity|].
  set (w1 := World _ _ _). set (ctx1 := Cvrt src dst (cc_priv ctx)).
  assert (Hr : running B L c s ctx1 w1).
  { split; [exists o; split; [by eapply holding_env; [| |exact H]|by exists y]|]. cbn. apply lookup_insert_eq. }
  apply ensures_bind. eapply ensures_mono; [by apply (steady_frame B L c s ctx1 Hp)|]. intros r w2 H2.
  apply ensures_bind. eapply ensures_mono; [by apply (IH ctx1)|]. intros rs w3 H3. by apply ensures_ret.
Qed.

(** C17: a conversion context gives back what it takes.  Whatever the allocator
    refuses, [pitcher_create_sw_convert] returns a context or leaves no block
    behind.  After any frames, of any formats and sizes, converted or refused,
    [pitcher_free_sw_convert] returns, and the blocks in use and the buffers are those from before the
    creation: each intermediate buffer has been released once, with all its
    planes. *)
Theorem sw_convert_lifetime frames (w : world cvrt) : (∀ b, is_Some (w_bufs w !! b) → b ∈ live w) →
  ∃ r w1, pitcher_create_sw_convert alloc w = Done (r, w1) ∧
    match r with
    | None => w_bufs w1 = w_bufs w ∧ live w1 = live w
    | Some c => ∀ rs w2, run_frames c frames w1 = Done (rs, w2) →
        ∃ w3, pitcher_free_sw_convert alloc (Some c) w2 = Done (tt, w3) ∧ w_bufs w3 = w_bufs w ∧ live w3 = live w ∧
          cv_ctx (w_env w3) !! c = None
    end.
Proof.
  intros Hb. destruct (create_ok w Hb) as (r & w1 & E1 & H1). exists r, w1. split; [done|]. destruct r as [c|]; [|done].
  destruct H1 as (s & Hc & Hs & Hne & Hcv & Hctx & _). intros rs w2 E2.
  assert (Hr : running (w_bufs w) ({[s]} ∪ ({[c]} ∪ live w)) c s (Cvrt None None (Some s)) w1) by (by split; [exists no_mids|]).
  destruct (run_frames_ok _ _ c s frames (Cvrt None None (Some s)) w1 eq_refl Hr rs w2 E2)
    as (ctx & Hp & (o & Ho) & Hx).
  destruct (free_ok_converter _ _ c s o w2 ctx Ho Hx Hp) as (w3 & E3 & B3 & L3 & C3); [set_solver..|].
  exists w3. split_and!; try done. rewrite L3. set_solver.
Qed.
End contexts.

(** ** A context that is used once, and one that is refused its structure *)

#[local] Existing Instance videodev2_example.

(** Blocks at 1000, 2000, ...; a block that is in use is not given again. *)
Definition spaced_alloc (n : nat) (X : gset Z) : option Z :=
  let p := 1000 * (Z.of_nat n + 1) in if decide (p ∈ X) then None else Some p.
Lemma spaced_alloc_fresh n X p : spaced_alloc n X = Some p → p ∉ X.
Proof. unfold spaced_alloc. case_decide; [done|]. by intros [= <-]. Qed.

(** Two pictures of 4 by 2 samples at 0 and 60: the first of format i420, the
    second of format yuyv. *)
Definition idle_world : world cvrt :=
  World (Mem {[3; 4]} 0 0)
    {[3 := Ext [Plane (Some 0) 8 0 8 0 (-1); Plane (Some 20) 2 0 2 0 (-1); Plane (Some 40) 2 0 2 0 (-1)] 0 0 1 0 0;
      4 := Ext [Plane (Some 60) 16 0 16 0 (-1)] 0 0 1 0 0]}
    (Env (list_to_map ((λ a, (a, a)) <$> seqZ 0 100))
       {[3 := FmtInfo PIX_FMT_I420 (pix_fmt_descriptors PIX_FMT_I420) 4 2 0 12 3 [PlaneInfo 4 8; PlaneInfo 2 2; PlaneInfo 2 2] 0 0;
         4 := FmtInfo PIX_FMT_YUYV (pix_fmt_descriptors PIX_FMT_YUYV) 4 2 0 16 1 [PlaneInfo 8 16] 0 0]} ∅ ∅).

(** A frame without buffers, which is refused, and one that is converted. *)
Definition two_frames : list (option Z * option Z) := [(None, None); (Some 3, Some 4)].

Definition created : outcome (option Z * world cvrt) := pitcher_create_sw_convert spaced_alloc idle_world.
Definition created_world : world cvrt := match created with Done (_, w) => w | _ => idle_world end.
Definition frames_run : outcome (list Z * world cvrt) := run_frames spaced_alloc 1000 two_frames created_world.
Definition run_world : world cvrt := match frames_run with Done (_, w) => w | _ => idle_world end.

(** The second frame has made an intermediate buffer of two planes. *)
Lemma sw_convert_lifetime_witness :
  created = Done (Some 1000, created_world) ∧ frames_run = Done ([- RET_E_NULL_POINTER; 0], run_world) ∧
  size (m_live (w_mem created_world)) = 4%nat ∧ size (m_live (w_mem run_world)) = 7%nat ∧
  ∃ w3, pitcher_free_sw_convert spaced_alloc (Some 1000) run_world = Done (tt, w3) ∧ w_bufs w3 = w_bufs idle_world ∧
    m_live (w_mem w3) = {[3; 4]} ∧ cv_ctx (w_env w3) !! 1000 = None.
Proof.
  assert (Ec : created = Done (Some 1000, created_world)) by (vm_compute; reflexivity).
  assert (Er : frames_run = Done ([- RET_E_NULL_POINTER; 0], run_world)) by (vm_compute; reflexivity).
  split_and!; [exact Ec|exact Er|vm_compute; reflexivity..|].
  destruct (sw_convert_lifetime spaced_alloc spaced_alloc_fresh two_frames idle_world) as (r & w1 & E & H).
  { intros b. cbn [idle_world w_bufs w_mem m_live]. rewrite lookup_insert_is_Some, lookup_singleton_is_Some.
    intros [<-|[_ <-]]; set_solver. }
  unfold created in Ec. rewrite Ec in E. injection E as <- <-. exact (H _ _ Er).
Defined.

(** ** An intermediate buffer with one plane

    [pitcher_new_buffer] is content with the planes it gets.  When the chroma plane is
    refused the luma plane alone is taken for the whole picture, and the chroma
    is looked for behind it, outside of the block. *)
Definition third_refused (n : nat) (X : gset Z) : option Z := if Nat.eqb n 2 then None else Some (1000 * (Z.of_nat n + 1)).

Definition nv12_8x2 : pix_fmt_info :=
  FmtInfo PIX_FMT_NV12 (pix_fmt_descriptors PIX_FMT_NV12) 8 2 0 24 2 ([PlaneInfo 8 16; PlaneInfo 8 8] ++ replicate 6 (PlaneInfo 0 0)) 0 0.

Definition half_made : outcome (option Z * world cvrt) :=
  pitcher_new_buffer third_refused (cvrt_plane third_refused nv12_8x2) (Some (mid_desc nv12_8x2)) (World (Mem ∅ 0 0) ∅ (Env ∅ ∅ ∅ ∅)).

(* what is left: the planes' addresses, the chroma's line 0, and whether the bytes 2015 and 2016 are there *)
Definition half_seen : option (option Z * list (option Z) * outcome (option Z) * bool * bool) :=
  match half_made with
  | Done (r, w) =>
      match w_bufs w !! 1000 with
      | Some x =>
          Some (r, List.map pl_virt (b_planes x),
                pitcher_get_frame_line_vaddr (Some (PBuf (b_planes x) (Some nv12_8x2) None)) 1 0,
                bool_decide (is_Some (cv_bytes (w_env w) !! 2015)), bool_decide (is_Some (cv_bytes (w_env w) !! 2016)))
      | None => None
      end
  | _ => None
  end.

Lemma half_a_buffer : half_seen = Some (Some 1000, [Some 2000], Done (Some 2016), true, false).
Proof. vm_compute. reflexivity. Qed.
