(* ===== verification/Frames.v ===== *)
(** * A frame through a conversion context

    [pitcher_sw_convert_frame] picks the steps for a pair of formats and takes
    the picture through the context's own buffers.  Here the steps are put
    together: for every pair of formats that the function supports, the
    destination then holds the picture of the source, and nothing else has
    changed but the context's buffers. *)

From S2P Require Import Prelude Misc Buffer Pixfmt Convert Pixels Conversions Roundtrip Cvrt Mids.
Open Scope Z_scope.

(** ** The format of the intermediate buffers *)

Section layout.
Context `{V : Videodev2}.

Definition mid_line (k : bool) (w : Z) : Z := (if k then 2 else 1) * w.
Definition mid_size (k : bool) (w h i : Z) : Z := mid_line k w * (if i =? 0 then 2 * half h else half h).
Definition mid_info (k : bool) (w h : Z) : pix_fmt_info :=
  FmtInfo (mid_fmt k) (pix_fmt_descriptors (mid_fmt k)) w h 0 (mid_size k w h 0 + mid_size k w h 1) 2
    ([PlaneInfo (mid_line k w) (mid_size k w h 0); PlaneInfo (mid_line k w) (mid_size k w h 1)] ++ replicate 6 (PlaneInfo 0 0)) 0 0.

(** The pictures that are converted. *)
Definition dimensions (w h : Z) : Prop := 0 < w ≤ 2 ^ 14 ∧ w mod 2 = 0 ∧ 0 < h ≤ 2 ^ 14.

Lemma half_range h : 0 < h ≤ 2 ^ 14 → 0 < half h ≤ 2 ^ 13 ∧ h ≤ 2 * half h ≤ h + 1.
Proof. unfold half. intros. dlia. Qed.

Lemma mid_size_range k w h i : dimensions w h → 0 ≤ i < 2 → 0 < mid_line k w ≤ 2 ^ 15 ∧ 0 < mid_size k w h i ≤ 2 ^ 29.
Proof.
  intros (Hw & _ & Hh) Hi. pose proof (half_range h Hh). unfold mid_size, mid_line. destruct k, (i =? 0); nia.
Qed.

Lemma ALIGN_2 x : 0 ≤ x ≤ 2 ^ 14 → ALIGN x 2 = 2 * half x.
Proof. intros Hx. rewrite ALIGN_up by lia. unfold half. by replace (x + 2 - 1) with (x + 1) by lia. Qed.

Lemma mid_plane_line (k : bool) w : 0 < w ≤ 2 ^ 14 → w mod 2 = 0 →
  ALIGN (Z.shiftr (ALIGN (u32 (w * (if k then 16 else 8))) 8) 3) 1 = mid_line k w.
Proof.
  intros Hw Hm. rewrite u32_small by (destruct k; lia). rewrite (ALIGN_id _ 8), Z.shiftr_div_pow2, (ALIGN_id _ 1) by (try apply Z.mod_1_r; destruct k; dlia).
  change (2 ^ 3) with 8. unfold mid_line. destruct k; dlia.
Qed.

Lemma mid_geometry (k : bool) d w h : pix_fmt_descriptors (mid_fmt k) = Some d → dimensions w h →
  bpp d 0 = (if k then 16 else 8) ∧ bpp d 1 = 2 * (if k then 16 else 8) ∧ fd_num_planes d = 2 ∧ fd_tile_ws d = 0 ∧ fd_tile_hs d = 0 ∧
  tile_alignment d 0 = (2, 2) ∧ plane_geometry d w h 2 2 1 0 = Done (w, 2 * half h, 1) ∧
  plane_geometry d w h 2 2 1 1 = Done (w / 2, half h, 1).
Proof.
  intros Ed (Hw & Hm & Hh). pose proof (half_range h Hh).
  assert (Hd : bpp d 0 = (if k then 16 else 8) ∧ bpp d 1 = 2 * (if k then 16 else 8) ∧ fd_num_planes d = 2 ∧ fd_tile_ws d = 0 ∧
    fd_tile_hs d = 0 ∧ fd_log2_chroma_w d = 1 ∧ fd_log2_chroma_h d = 1).
  { destruct k; unfold mid_fmt in Ed; vm_compute in Ed; injection Ed as <-; by split_and!. }
  destruct Hd as (H0 & H1 & Hn & Hws & Hhs & Hlw & Hlh). split_and!; try done.
  - unfold tile_alignment. by rewrite Hws, Hhs, Hlw, Hlh.
  - unfold plane_geometry. cbn [Z.eqb negb]. cbv zeta. rewrite bind_done, (ALIGN_id w) by done. by rewrite ALIGN_2 by lia.
  - unfold plane_geometry. change (1 =? 0) with false. cbn [negb]. cbv zeta. rewrite H0, H1, Hhs, Hlw, Hlh. cbn [Z.eqb negb].
    rewrite (ALIGN_id w) by done. rewrite ALIGN_2 by lia. rewrite !Z.shiftr_div_pow2 by lia. change (2 ^ 1) with 2.
    rewrite Z.mul_comm, Z.div_mul by lia. destruct k; reflexivity.
Qed.

Lemma mid_layout k w h : dimensions w h →
  pitcher_get_pix_fmt_info (Some (with_size (mid_fmt k) w h)) 0 = Done (0, Some (mid_info k w h)).
Proof.
  intros Hd. pose proof Hd as (Hw & Hm & Hh). pose proof (mid_size_range k w h 0 Hd ltac:(lia)) as [_ S0].
  pose proof (mid_size_range k w h 1 Hd ltac:(lia)) as [_ S1]. unfold mid_info.
  destruct (pix_fmt_descriptors (mid_fmt k)) as [d|] eqn:Ed; [|by destruct k].
  destruct (mid_geometry k d w h Ed Hd) as (B0 & B1 & Hn & Hws & Hhs & Ht & G0 & G1).
  unfold pitcher_get_pix_fmt_info. cbn [with_size i_format i_width i_height i_interlaced i_planes i_size].
  rewrite (proj2 (Z.eqb_neq w 0)), (proj2 (Z.eqb_neq h 0)) by lia.
  replace (PIX_FMT_NB <=? mid_fmt k) with false by (by destruct k). cbn [orb Z.eqb]. rewrite Ed. cbn [of_option]. rewrite bind_done, Ht, Hn.
  change (Z.to_nat 2) with 2%nat. cbn [fill_planes]. rewrite G0, bind_done, B0.
  replace (negb ((if k then 16 else 8) =? 0)) with true by (by destruct k). rewrite mid_plane_line by done.
  rewrite storez_Done, bind_done by done. change (0 + 1) with 1. rewrite G1, bind_done, B1.
  replace (negb (2 * (if k then 16 else 8) =? 0)) with true by (by destruct k).
  replace (w / 2 * (2 * (if k then 16 else 8))) with (w * (if k then 16 else 8)) by (destruct k; dlia).
  rewrite mid_plane_line, storez_Done, bind_done by done. cbn [mbind outcome_bind obind].
  unfold pitcher_fill_plane_desc. cbn [pi_size Z.add]. change (mid_line k w * (2 * half h)) with (mid_size k w h 0).
  change (mid_line k w * half h) with (mid_size k w h 1).
  rewrite !(u32_small (mid_size k w h 1)), !Z.add_0_l, !(u32_small (mid_size k w h 0)), !(u32_small (mid_size k w h 0 + _)) by lia.
  rewrite (proj2 (Z.ltb_lt 0 _)) by lia. by rewrite Hws, Hhs.
Qed.
End layout.

(** ** The intermediate buffers in memory *)

Definition BLOCK : Z := 2 ^ 32.

(** An allocator that does not refuse.  Blocks are given as their addresses
    alone, so they are taken to lie as far from each other, and from memory that is mapped
    by other means ([device]), as the largest size that can be asked for. *)
Class RoomyAlloc (alloc : nat → gset Z → option Z) (device : Z → Prop) : Prop := {
  al_some : ∀ n X, is_Some (alloc n X);
  al_apart : ∀ n X p q, alloc n X = Some p → q ∈ X → apart p BLOCK q BLOCK;
  al_device : ∀ n X p a, alloc n X = Some p → p ≤ a < p + BLOCK → ¬ device a
}.

Lemma al_fresh `{RoomyAlloc} n X p : alloc n X = Some p → p ∉ X.
Proof. intros E Hp. pose proof (al_apart n X p p E Hp) as Ha. unfold apart, BLOCK in Ha. lia. Qed.

Definition addr_of (l : list pitcher_buf_ref) (i : Z) : Z := default 0 (nthz l i ≫= pl_virt).
Definition mine (o : mids) (a : Z) : Prop := ∃ k, in_planes (planes_in (o k)) a.

Section stage.
Context `{V : Videodev2}.
Context (alloc : nat → gset Z → option Z) (device : Z → Prop).
Context `{R : !RoomyAlloc alloc device}.
Abbreviation bytes w := (cv_bytes (w_env w)).
Abbreviation live w := (m_live (w_mem w)).
Abbreviation format_in w b := (cv_format (w_env w) !! b).

(** The buffer [x] has its planes in memory, for pictures of [W] by [H]. *)
Record mid_ready (k : bool) (x : midbuf) (W H : Z) (w : world cvrt) : Prop := {
  mr_dims : dimensions W H;
  mr_format : format_in w (mb_addr x) = Some (mid_info k W H);
  mr_length : length (mb_planes x) = 2%nat;
  mr_sized : sized (mid_info k W H) (mb_planes x);
  mr_bytes : ∀ a, in_planes (mb_planes x) a → is_Some (bytes w !! a)
}.

(** Blocks of the context are apart from all others; what is in memory belongs
    to the context, to the blocks [L] of others, or to a device. *)
Record stage (L : gset Z) (o : mids) (w : world cvrt) : Prop := {
  sg_spread : ∀ p, p ∈ live w → p ∉ L →
    (∀ q, q ∈ live w → q ≠ p → apart p BLOCK q BLOCK) ∧ (∀ a, p ≤ a < p + BLOCK → ¬ device a);
  sg_bytes : ∀ a, is_Some (bytes w !! a) → device a ∨ (∃ p, p ∈ L ∧ p ≤ a < p + BLOCK) ∨ mine o a;
  sg_mids : ∀ k x, o k = Some x → ∃ W H, mid_ready k x W H w
}.

Lemma planes_virt l i p : planes_ok l → l !! i = Some p → ∃ v, pl_virt p = Some v ∧ v ∈ virts l.
Proof.
  revert i. induction l as [|q l IH]; intros i Hok E; [done|]. destruct Hok as [(v & Ev & Hv) Hok].
  rewrite (virts_cons _ _ v Ev). destruct i as [|i]; cbn in E.
  - injection E as <-. exists v. split; [done|]. set_solver.
  - destruct (IH i Hok E) as (u & Eu & Hu). exists u. split; [done|]. set_solver.
Qed.

(** Different planes of one buffer are different blocks. *)
Lemma planes_differ l : ∀ i j p q v, planes_ok l → l !! i = Some p → l !! j = Some q → pl_virt p = Some v → pl_virt q = Some v → i = j.
Proof.
  induction l as [|r l IH]; intros i j p q v Hok Ep Eq Hp Hq; [done|]. destruct Hok as [(u & Eu & Hu) Hok].
  destruct i as [|i], j as [|j]; cbn in Ep, Eq; [done|..].
  - injection Ep as <-. destruct (planes_virt l j q Hok Eq) as (u' & E' & H'). exfalso. apply Hu. congruence.
  - injection Eq as <-. destruct (planes_virt l i p Hok Ep) as (u' & E' & H'). exfalso. apply Hu. congruence.
  - f_equal. by eapply IH.
Qed.

Lemma in_planes_lookup l a : in_planes l a → ∃ i p, l !! i = Some p ∧ in_plane p a.
Proof. intros (p & Hp & Ha). apply list_elem_of_lookup in Hp as [i Hi]. by exists i, p. Qed.

Lemma mid_plane k W H i : 0 ≤ i < 2 → pi_line (plane (mid_info k W H) i) = mid_line k W ∧ pi_size (plane (mid_info k W H) i) = mid_size k W H i.
Proof. intros Hi. assert (i = 0 ∨ i = 1) as [-> | ->] by lia; by split. Qed.

Section one.
Context (k : bool) (x : midbuf) (W H : Z) (w : world cvrt).
Context (Hr : mid_ready k x W H w) (Hok : planes_ok (mb_planes x)).
Abbreviation f := (mid_info k W H).
Abbreviation X := (addr_of (mb_planes x)).

Lemma mid_plane_at i : 0 ≤ i < 2 → ∃ p, nthz (mb_planes x) i = Some p ∧ pl_virt p = Some (X i) ∧ X i ∈ virts (mb_planes x) ∧
  pl_size p = mid_size k W H i.
Proof.
  intros Hi. destruct (lookup_lt_is_Some_2 (mb_planes x) (Z.to_nat i)) as [p Hp]; [rewrite (mr_length _ _ _ _ _ Hr); lia|].
  exists p. rewrite nthz_lookup by lia. split; [done|]. destruct (planes_virt _ _ _ Hok Hp) as (v & Ev & Hv).
  assert (Ex : X i = v) by (unfold addr_of; rewrite nthz_lookup, Hp by lia; cbn; by rewrite Ev).
  rewrite Ex. split; [done|]. split; [done|]. rewrite (mr_sized _ _ _ _ _ Hr _ _ Hp), Z2Nat.id by lia. by apply mid_plane.
Qed.

Lemma mid_view_of : buffer_of (PBuf (mb_planes x) (Some f) None) f 2 X.
Proof.
  pose proof (mr_dims _ _ _ _ _ Hr) as Hd. constructor; [done|..].
  - intros i Hi. destruct (mid_plane_at i Hi) as (p & Ep & Ev & _). exists p. split; [|done].
    unfold pitcher_get_buffer_plane, pb_count. cbn [pb_format pb_planes]. change (i_num_planes f) with 2.
    rewrite u32_small, (proj2 (Z.leb_gt 2 i)) by lia. unfold zlen. rewrite (mr_length _ _ _ _ _ Hr). change (Z.of_nat 2) with 2.
    cbn [Z.eqb negb andb]. unfold loadz. rewrite Ep. done.
  - intros i Hi. assert (i = 0 ∨ i = 1) as [-> | ->] by lia; by eexists.
  - intros i Hi. rewrite (proj1 (mid_plane k W H i Hi)). pose proof (mid_size_range k W H i Hd Hi). lia.
  - intros i Hi. rewrite (proj2 (mid_plane k W H i Hi)). pose proof (mid_size_range k W H i Hd Hi). lia.
Qed.

Lemma mid_fits : fits (between k) f W H.
Proof.
  pose proof (mr_dims _ _ _ _ _ Hr) as (Hw & Hm & Hh). pose proof (half_range H Hh). intros i Hi. rewrite between_planes in Hi.
  rewrite (plain_bytes _ _ _ (between_plain k)), between_len, (proj1 (between_plain k)) by done.
  destruct (mid_plane k W H i Hi) as [-> ->]. unfold mid_size, mid_line, rows. destruct k, (i =? 0); cbn [between e_storage unit_of]; split; nia.
Qed.

Lemma mid_area i a : 0 ≤ i < 2 → area f X i a → in_planes (mb_planes x) a.
Proof.
  intros Hi Ha. destruct (mid_plane_at i Hi) as (p & Ep & Ev & _ & Es). unfold area in Ha. rewrite (proj2 (mid_plane k W H i Hi)) in Ha.
  exists p. split; [apply list_elem_of_lookup; rewrite nthz_lookup in Ep by lia; by eexists|]. exists (X i). rewrite Es. by split.
Qed.

Lemma mid_inside a : inside f 2 X a → in_planes (mb_planes x) a.
Proof. intros (i & Hi & Ha). by eapply mid_area. Qed.

(** A byte of the buffer is one of a block as large as any. *)
Lemma mid_block a : in_planes (mb_planes x) a → ∃ v, v ∈ virts (mb_planes x) ∧ v ≤ a < v + BLOCK.
Proof.
  intros (i & p & Ep & (v & Ev & Ha))%in_planes_lookup. pose proof (lookup_lt_Some _ _ _ Ep) as Hi. rewrite (mr_length _ _ _ _ _ Hr) in Hi.
  destruct (planes_virt _ _ _ Hok Ep) as (u & Eu & Hu). assert (u = v) as -> by congruence. exists v. split; [done|].
  rewrite (mr_sized _ _ _ _ _ Hr _ _ Ep) in Ha. rewrite (proj2 (mid_plane k W H (Z.of_nat i) ltac:(lia))) in Ha.
  pose proof (mid_size_range k W H (Z.of_nat i) (mr_dims _ _ _ _ _ Hr) ltac:(lia)). unfold BLOCK. lia.
Qed.
End one.

(** *** The context's buffers among others *)

Section among.
Context (B : gmap Z ext_buffer) (L : gset Z) (o : mids) (w : world cvrt).
Context (Hh : holding B L o w) (Hg : stage L o w).

Lemma mid_virt k x v : o k = Some x → v ∈ virts (mb_planes x) → v ∈ live w ∧ v ∉ L ∧ v ∈ blocks_of (o k).
Proof.
  clear Hg. intros E Hv. pose proof (ho_live _ _ _ _ Hh) as Hl. pose proof (ho_new _ _ _ _ Hh) as Hn. rewrite (owned_split k), E in Hl, Hn.
  cbn [blocks_of] in Hl, Hn. rewrite E. cbn [blocks_of]. set_solver.
Qed.

Lemma mine_block k x a : o k = Some x → in_planes (mb_planes x) a →
  ∃ v, v ∈ live w ∧ v ∉ L ∧ v ∈ blocks_of (o k) ∧ v ≤ a < v + BLOCK.
Proof.
  intros E Ha. destruct (sg_mids _ _ _ Hg k x E) as (W & H & Hr). destruct (ho_planes _ _ _ _ Hh k x E) as [Hok _].
  destruct (mid_block k x W H w Hr Hok a Ha) as (v & Hv & Hb). exists v. destruct (mid_virt k x v E Hv) as (? & ? & ?). done.
Qed.

Lemma blocks_apart p q a : p ∈ live w → p ∉ L → q ∈ live w → p ≤ a < p + BLOCK → q ≤ a < q + BLOCK → q = p.
Proof.
  intros Hp HpL Hq Ha Hb. destruct (decide (q = p)) as [|Hne]; [done|].
  pose proof (proj1 (sg_spread _ _ _ Hg p Hp HpL) q Hq Hne) as Hap. unfold apart in Hap. lia.
Qed.

Lemma mids_apart k a : in_planes (planes_in (o k)) a → ¬ in_planes (planes_in (o (negb k))) a.
Proof.
  intros H1 H2. destruct (o k) as [x|] eqn:E1; [|by apply in_planes_nil in H1].
  destruct (o (negb k)) as [y|] eqn:E2; [|by apply in_planes_nil in H2]. cbn [planes_in] in *.
  destruct (mine_block k x a E1 H1) as (v & Hv & HvL & Hvb & Ha). destruct (mine_block (negb k) y a E2 H2) as (u & Hu & HuL & Hub & Hb).
  pose proof (blocks_apart v u a Hv HvL Hu Ha Hb) as ->. pose proof (ho_two _ _ _ _ Hh k). set_solver.
Qed.

Lemma mid_planes_apart k x W H i j : o k = Some x → mid_ready k x W H w → 0 ≤ i < 2 → 0 ≤ j < 2 → i ≠ j →
  apart (addr_of (mb_planes x) i) (pi_size (plane (mid_info k W H) i)) (addr_of (mb_planes x) j) (pi_size (plane (mid_info k W H) j)).
Proof.
  intros E Hr Hi Hj Hne. destruct (ho_planes _ _ _ _ Hh k x E) as [Hok _].
  destruct (mid_plane_at k x W H w Hr Hok i Hi) as (p & Ep & Ev & Hv & _). destruct (mid_plane_at k x W H w Hr Hok j Hj) as (q & Eq & Eu & Hu & _).
  destruct (mid_virt k x _ E Hv) as (L1 & N1 & _). destruct (mid_virt k x _ E Hu) as (L2 & _).
  rewrite (proj2 (mid_plane k W H i Hi)), (proj2 (mid_plane k W H j Hj)).
  pose proof (mid_size_range k W H i (mr_dims _ _ _ _ _ Hr) Hi). pose proof (mid_size_range k W H j (mr_dims _ _ _ _ _ Hr) Hj).
  assert (Hd : addr_of (mb_planes x) j ≠ addr_of (mb_planes x) i).
  { intros E'. rewrite nthz_lookup in Ep, Eq by lia. rewrite E' in Eu. pose proof (planes_differ _ _ _ _ _ _ Hok Ep Eq Ev Eu). lia. }
  pose proof (proj1 (sg_spread _ _ _ Hg _ L1 N1) _ L2 Hd) as Ha. unfold apart, BLOCK in *. lia.
Qed.
End among.

(** *** Getting a buffer for the frame at hand *)

Lemma spread_alloc (L X Y : gset Z) : by_alloc alloc X Y →
  (∀ p, p ∈ X → p ∉ L → (∀ q, q ∈ X → q ≠ p → apart p BLOCK q BLOCK) ∧ (∀ a, p ≤ a < p + BLOCK → ¬ device a)) →
  ∀ p, p ∈ Y → p ∉ L → (∀ q, q ∈ Y → q ≠ p → apart p BLOCK q BLOCK) ∧ (∀ a, p ≤ a < p + BLOCK → ¬ device a).
Proof.
  intros Ha HX. apply (Ha (λ Z, ∀ p, p ∈ Z → p ∉ L → (∀ q, q ∈ Z → q ≠ p → apart p BLOCK q BLOCK) ∧ (∀ a, p ≤ a < p + BLOCK → ¬ device a)));
    [|exact HX]. clear X Y Ha HX. intros n Z p0 HZ E p Hp HpL. apply elem_of_union in Hp as [->%elem_of_singleton|Hp].
  - split; [|by intros a; apply (al_device n Z)]. intros q [->%elem_of_singleton|Hq]%elem_of_union Hne; [done|]. by apply (al_apart n Z).
  - destruct (HZ p Hp HpL) as [H1 H2]. split; [|done]. intros q [->%elem_of_singleton|Hq]%elem_of_union Hne; [|by apply H1].
    pose proof (al_apart n Z p0 p E Hp). unfold apart in *. lia.
Qed.

(** What is in memory and not the context's stays as it is and stays so. *)
Definition others_kept (o o' : mids) (w w' : world cvrt) : Prop :=
  ∀ a, is_Some (bytes w !! a) → ¬ mine o a → bytes w' !! a = bytes w !! a ∧ ¬ mine o' a.

Lemma others_refl o w : others_kept o o w w.
Proof. by intros a Ha Hm. Qed.

Lemma others_trans o1 o2 o3 w1 w2 w3 : others_kept o1 o2 w1 w2 → others_kept o2 o3 w2 w3 → others_kept o1 o3 w1 w3.
Proof.
  intros H1 H2 a Ha Hm. destruct (H1 a Ha Hm) as [E1 M1]. destruct (H2 a) as [E2 M2]; [by rewrite E1|done|]. by rewrite E2.
Qed.

Section make.
Context (B : gmap Z ext_buffer) (L : gset Z) (o : mids) (w w' : world cvrt) (k : bool) (y : midbuf) (W H : Z).
Context (Hh : holding B L o w) (Hh' : holding B L (upd_mid k (Some y) o) w') (Hg : stage L o w) (Hd : dimensions W H).
Context (Hm : made alloc k (mid_info k W H) o (Some y) w w').
Context (Hf : ∀ b, b ∉ blocks_of (Some y) → format_in w' b = format_in w b).
Abbreviation o' := (upd_mid k (Some y) o).

Lemma made_length : length (mb_planes y) = 2%nat.
Proof.
  destruct Hm as (m & _ & _ & _ & _ & _ & Hl). destruct Hl as (z & [= <-] & E); [apply al_some|cbn; lia| |done].
  intros j Hj. rewrite (proj2 (mid_plane k W H j Hj)). pose proof (mid_size_range k W H j Hd Hj). lia.
Qed.

Lemma made_ready : mid_ready k y W H w'.
Proof.
  pose proof made_length as Hl. destruct Hm as (m & _ & Hgr & Hs & _ & Hx & _).
  constructor; [done|by apply Hx|done|done|]. intros a Ha. exists 0. by apply Hgr.
Qed.

Lemma made_spread p : p ∈ live w' → p ∉ L →
  (∀ q, q ∈ live w' → q ≠ p → apart p BLOCK q BLOCK) ∧ (∀ a, p ≤ a < p + BLOCK → ¬ device a).
Proof.
  destruct Hm as (m & _ & _ & _ & Ha & _). apply (spread_alloc L _ _ Ha). clear p.
  intros p Hp HpL. apply elem_of_difference in Hp as [Hp _]. destruct (sg_spread _ _ _ Hg p Hp HpL) as [H1 H2]. split; [|done].
  intros q [Hq _]%elem_of_difference. by apply H1.
Qed.

(** A byte that was there and is not the context's is in no new plane. *)
Lemma made_fresh a : is_Some (bytes w !! a) → ¬ in_planes (planes_in (o k)) a → ¬ in_planes (mb_planes y) a.
Proof.
  intros Ha Hn Hy. pose proof made_ready as Hr. destruct (ho_planes _ _ _ _ Hh' k y (upd_mid_same _ _ _)) as [Hok _].
  destruct (mid_block k y W H w' Hr Hok a Hy) as (v & Hv & Hb).
  destruct (mid_virt B L o' w' Hh' k y v (upd_mid_same _ _ _) Hv) as (Hvl & HvL & Hvb).
  destruct (made_spread v Hvl HvL) as [Hsp Hdv].
  assert (Hnv : ∀ q, q ∈ live w' → q ≠ v → ¬ q ≤ a < q + BLOCK) by (intros q Hq Hne; specialize (Hsp q Hq Hne); unfold apart in Hsp; lia).
  destruct (sg_bytes _ _ _ Hg a Ha) as [Hdev|[(p & Hp & Hpa)|(k' & Hk')]].
  - by apply (Hdv a).
  - apply (Hnv p); [rewrite (ho_live _ _ _ _ Hh'); set_solver|by intros ->|done].
  - destruct (decide (k' = k)) as [->|Hne]; [done|]. assert (k' = negb k) as -> by (by destruct k, k').
    destruct (o (negb k)) as [x|] eqn:E; [|by apply in_planes_nil in Hk'].
    destruct (mine_block B L o w Hh Hg (negb k) x a E Hk') as (u & Hu & HuL & Hub & Hua).
    assert (Huo : u ∈ blocks_of (o' (negb k))) by (by rewrite upd_mid_other).
    apply (Hnv u); [|intros ->; pose proof (ho_two _ _ _ _ Hh' k); set_solver|done].
    rewrite (ho_live _ _ _ _ Hh'), (owned_split k). set_solver.
Qed.

Lemma made_others : others_kept o o' w w'.
Proof.
  intros a Ha Hn. assert (Hk : ¬ in_planes (planes_in (o k)) a) by (intros ?; apply Hn; by exists k).
  pose proof (made_fresh a Ha Hk) as Hy. destruct Hm as (m & Hs & Hgr & _). split.
  - rewrite (proj2 (Hgr a) Hy). by apply Hs.
  - intros (k' & Hk'). unfold upd_mid in Hk'. destruct (Bool.eqb k k'); [done|]. apply Hn. by exists k'.
Qed.

(** The other buffer is as it was. *)
Lemma made_other x W' H' : o (negb k) = Some x → mid_ready (negb k) x W' H' w → mid_ready (negb k) x W' H' w'.
Proof.
  intros E [R1 R2 R3 R4 R5]. constructor; [done| |done|done|].
  - rewrite Hf; [done|]. pose proof (ho_two _ _ _ _ Hh' k) as Ht. rewrite upd_mid_same, upd_mid_other, E in Ht. pose proof (in_blocks x). set_solver.
  - intros a Ha. specialize (R5 a Ha). assert (Hk : ¬ in_planes (planes_in (o k)) a).
    { intros Hk. apply (mids_apart B L o w Hh Hg k a Hk). by rewrite E. }
    pose proof (made_fresh a R5 Hk) as Hy. destruct Hm as (m & Hs & Hgr & _). by rewrite (proj2 (Hgr a) Hy), (proj2 (Hs a) Hk).
Qed.

Lemma made_stage : stage L o' w'.
Proof.
  pose proof made_ready as Hr. constructor.
  - exact made_spread.
  - intros a Ha. destruct (decide (in_planes (mb_planes y) a)) as [Hy|Hy]; [right; right; exists k; by rewrite upd_mid_same|].
    destruct Hm as (m & Hs & Hgr & _). rewrite (proj2 (Hgr a) Hy) in Ha.
    destruct (decide (in_planes (planes_in (o k)) a)) as [Hk|Hk]; [rewrite (proj1 (Hs a) Hk) in Ha; by destruct Ha|].
    rewrite (proj2 (Hs a) Hk) in Ha. destruct (sg_bytes _ _ _ Hg a Ha) as [|[|(k' & Hk')]]; [auto..|]. right; right. exists k'.
    unfold upd_mid. destruct (Bool.eqb k k') eqn:E; [|done]. by apply Bool.eqb_prop in E as <-.
  - intros k' x E. destruct (Bool.eqb k k') eqn:Ek.
    + apply Bool.eqb_prop in Ek as <-. rewrite upd_mid_same in E. injection E as <-. by exists W, H.
    + assert (k' = negb k) as -> by (by destruct k, k'). rewrite upd_mid_other in E.
      destruct (sg_mids _ _ _ Hg _ _ E) as (W' & H' & Hx). exists W', H'. by apply made_other.
Qed.
End make.

Lemma stage_ext L o o' w : (∀ k, o' k = o k) → stage L o w → stage L o' w.
Proof.
  intros E [H1 H2 H3]. constructor; [done| |].
  - intros a Ha. destruct (H2 a Ha) as [|[|(k & Hk)]]; [auto..|]. right; right. exists k. by rewrite E.
  - intros k x. rewrite E. apply H3.
Qed.

Lemma upd_mid_some k x (o : mids) : o k = Some x → ∀ k', upd_mid k (Some x) o k' = o k'.
Proof. intros E k'. rewrite <- E. apply upd_mid_id. Qed.

(** The buffer of width [k], ready for the size of the source. *)
Lemma alloc_ready B L s o w k c ctx src fs W H : converter B L s o w → stage L o w →
  cv_ctx (w_env w) !! c = Some ctx → cc_priv ctx = Some s → cc_src ctx = Some src → format_at src w = Done (fs, w) →
  i_width fs = W → i_height fs = H → dimensions W H →
  ∃ x w', alloc_mid alloc k c w = Done (0, w') ∧ converter B L s (upd_mid k (Some x) o) w' ∧ stage L (upd_mid k (Some x) o) w' ∧
    cv_ctx (w_env w') = cv_ctx (w_env w) ∧ (∀ b, b ∈ L → format_in w' b = format_in w b) ∧ mid_ready k x W H w' ∧
    others_kept o (upd_mid k (Some x) o) w w' ∧
    (∀ y W' H', o (negb k) = Some y → mid_ready (negb k) y W' H' w → mid_ready (negb k) y W' H' w').
Proof.
  intros Hc Hg Hctx Hp Hs Hf HW HH Hd. pose proof (mid_layout k W H Hd) as Hl. rewrite <- HW, <- HH in Hl at 1.
  destruct (alloc_mid_ok alloc al_fresh B L s o w k c ctx src fs 0 _ Hc Hctx Hp Hs Hf Hl) as (x & w' & E & Hc' & Hx & Hfm & Hcase).
  destruct Hcase as [(-> & Hxo & (y & -> & Hcmp))|Hm].
  - exists y, w. destruct (sg_mids _ _ _ Hg k y (eq_sym Hxo)) as (W' & H' & Hr). split; [exact E|]. split; [done|].
    pose proof (upd_mid_some k y o (eq_sym Hxo)) as Eo. split; [by apply (stage_ext L o)|]. split; [done|]. split; [done|]. split_and!; [|..|done].
    + rewrite (mr_format _ _ _ _ _ Hr) in Hcmp. unfold pitcher_compare_format in Hcmp. cbn [mid_info i_format i_width i_height i_interlaced] in Hcmp.
      rewrite Z.eqb_refl in Hcmp. cbn [negb] in Hcmp. destruct (Z.eqb_spec W' W) as [->|]; [|done].
      destruct (H' =? H) eqn:EH; [|done]. apply Z.eqb_eq in EH. by rewrite EH in Hr.
    + intros a Ha Hn. split; [done|]. intros (k' & Hk'). apply Hn. exists k'. by rewrite Eo in Hk'.
  - destruct x as [y|].
    2:{ exfalso. destruct Hm as (m & _ & _ & _ & _ & _ & Ht). destruct Ht as (? & ? & _); [apply al_some|cbn; lia| |done].
        intros j Hj. rewrite (proj2 (mid_plane k W H j Hj)). pose proof (mid_size_range k W H j Hd Hj). lia. }
    exists y, w'. pose proof (proj1 Hc) as Hh. pose proof (proj1 Hc') as Hh'. split; [exact E|]. split; [done|].
    split; [by eapply (made_stage B)|]. split; [done|]. split.
    { intros b Hb. apply Hfm. intros Hbb. pose proof (ho_new _ _ _ _ Hh') as Hn. rewrite (owned_split k), upd_mid_same in Hn. set_solver. }
    split; [by eapply made_ready|]. split; [by eapply (made_others B L)|]. intros z W' H'. by eapply (made_other B L).
Qed.

(** ** Conversions on the world *)

Definition with_mem (m : bmem) (w : world cvrt) : world cvrt := World (w_mem w) (w_bufs w) (set_bytes m (w_env w)).

Definition same_dom (m m' : bmem) : Prop := ∀ a, is_Some (m' !! a) ↔ is_Some (m !! a).

Lemma converter_mem B L s o m w : converter B L s o w → converter B L s o (with_mem m w).
Proof. intros [H (y & E & Hy)]. split; [by eapply holding_env; [| |exact H]|by exists y]. Qed.

Lemma mid_ready_mem k x W H m w : same_dom (bytes w) m → mid_ready k x W H w → mid_ready k x W H (with_mem m w).
Proof. intros Hd [R1 R2 R3 R4 R5]. constructor; try done. intros a Ha. by apply Hd, R5. Qed.

Lemma stage_mem L o m w : same_dom (bytes w) m → stage L o w → stage L o (with_mem m w).
Proof.
  intros Hd [H1 H2 H3]. constructor; [done| |].
  - intros a Ha. by apply H2, Hd.
  - intros k x E. destruct (H3 k x E) as (W & H & Hr). exists W, H. by apply mid_ready_mem.
Qed.

(** A picture stays when its bytes do. *)
Lemma stored_same st read read' k v n : 0 ≤ k < n →
  (∀ x, 0 ≤ x < (match st with Bytes => n | Words _ => 2 * n | _ => (10 * n + 7) / 8 end) → read' x = read x) →
  stored st read k v → stored st read' k v.
Proof.
  intros Hk Hr. unfold stored. destruct st as [|sh| |].
  - intros H j Hj. rewrite Hr by lia. by apply H.
  - intros H j Hj. rewrite Hr by lia. by apply H.
  - intros H j Hj. rewrite Hr by dlia. by apply H.
  - intros H j Hj. rewrite Hr by dlia. by apply H.
Qed.

Lemma encodes_same all e f X P w h m m' : fits e f w h →
  (∀ i a, 0 ≤ i < planes_of (e_sampling e) → area f X i a → m' !! a = m !! a) →
  encodes all e f X P w h m → encodes all e f X P w h m'.
Proof.
  intros Hf Hm H i y k Hi Hy Hk Hs. eapply stored_same; [exact Hk| |by apply H].
  intros x Hx. apply (Hm i); [done|]. by apply (byte_addr_area e f X w h i y x Hf Hi Hy).
Qed.

(** One conversion that delivers its picture. *)
Lemma run_step F b b' v v' es ed fs fd A X P w h (W : world cvrt) :
  view b W = Done (v, W) → view b' W = Done (v', W) →
  room es ed v v' fs fd A X w h (bytes W) → encodes false es fs A P w h (bytes W) → exact es P →
  (setup es ed v v' fs fd A X P w h (bytes W) → delivers ed fd X P w h (bytes W) (F (Some v) (Some v'))) →
  ∃ m, run_conversion F b b' W = Done (0, with_mem m W) ∧ encodes true ed fd X P w h m ∧
    (∀ a, ¬ inside fd (planes_of (e_sampling ed)) X a → m !! a = bytes W !! a) ∧ same_dom (bytes W) m.
Proof.
  intros Ev Ev' Hr Hs He Hd. destruct (Hd (setup_room _ _ _ _ _ _ _ _ _ _ _ _ Hr Hs He)) as (m & E & [Ho Hi] & Hp).
  exists m. split.
  - unfold run_conversion. erewrite M_bind_done by exact Ev. erewrite M_bind_done by exact Ev'. erewrite M_bind_done by reflexivity.
    erewrite M_bind_done by (unfold lift; rewrite E; reflexivity). reflexivity.
  - split_and!; try done. intros a. split; [|apply Hi]. intros Ha.
    destruct (bytes W !! a) as [z|] eqn:Ez; [by eexists|]. exfalso. rewrite Ho, Ez in Ha; [by destruct Ha|].
    intros (i & Hi' & Ha'). destruct (ro_mapped _ _ _ _ _ _ _ _ _ _ _ Hr i a Hi' Ha') as [z' E']. by rewrite Ez in E'.
Qed.

(** ** A frame *)

(** The depth of a format says which intermediate format it goes through. *)
Lemma depth_format f e : encoding_of (i_format f) = Some e → i_desc f = pix_fmt_descriptors (i_format f) →
  ∃ d, depth f = Done d ∧ (d =? 8) = negb (is_wide e) ∧ (8 <? d) = is_wide e.
Proof.
  unfold depth. intros E ->. remember (i_format f) as g eqn:Eg. clear Eg f. unfold encoding_of in E. apply assocz_in in E.
  unfold encodings in E. rewrite !elem_of_cons, elem_of_nil in E.
  repeat (destruct E as [[= -> ->]|E]; [eexists; split; [reflexivity|by split]|]). done.
Qed.

(** The pairs of formats the function supports: NV12 is only packed to formats
    of eight bits, P016 to the others of more, and unpacked to from those. *)
Definition convertible (f g : Z) (es ed : encoding) : bool :=
  if f =? PIX_FMT_NV12 then negb (is_wide ed)
  else if f =? PIX_FMT_P016 then is_wide ed && negb (g =? PIX_FMT_P016)
  else if g =? PIX_FMT_P016 then is_wide es
  else true.

Section frame.
Context (B : gmap Z ext_buffer) (L : gset Z) (c s bs bd : Z) (vs vd : pitcher_buffer) (es ed : encoding) (fs fd : pix_fmt_info).
Context (A X : Z → Z) (P : picture) (w h : Z).

(** Context [c] with a source that holds the picture and a destination, both
    buffers of others. *)
Record scene (o : mids) (W : world cvrt) : Prop := {
  sn_ctx : cv_ctx (w_env W) !! c = Some (Cvrt (Some bs) (Some bd) (Some s));
  sn_converter : converter B L s o W;
  sn_stage : stage L o W;
  sn_src : ∃ x, B !! bs = Some x ∧ vs = PBuf (b_planes x) (Some fs) None;
  sn_dst : ∃ x, B !! bd = Some x ∧ vd = PBuf (b_planes x) (Some fd) None;
  sn_src_format : format_in W bs = Some fs;
  sn_dst_format : format_in W bd = Some fd;
  sn_src_bytes : readable fs (planes_of (e_sampling es)) A (bytes W);
  sn_src_others : ∀ a, inside fs (planes_of (e_sampling es)) A a → ¬ mine o a;
  sn_dst_others : ∀ a, inside fd (planes_of (e_sampling ed)) X a → ¬ mine o a;
  sn_room : room es ed vs vd fs fd A X w h (bytes W);
  sn_shown : encodes false es fs A P w h (bytes W)
}.

Lemma foreign_view o W b x f v : converter B L s o W → B !! b = Some x → v = PBuf (b_planes x) (Some f) None → format_in W b = Some f →
  view b W = Done (v, W).
Proof.
  intros [H _] Eb -> Ef. rewrite <- Ef. apply view_ok. rewrite (ho_bufs _ _ _ _ H true). pose proof (ho_new _ _ _ _ H) as Hn.
  assert (Hb : b ∈ L) by (apply (ho_old _ _ _ _ H); by eexists).
  assert (Hw : ∀ k Y, Y !! b = Some x → with_mid (o k) Y !! b = Some x).
  { intros k Y EY. destruct (o k) as [z|] eqn:Ez; cbn [with_mid]; [|done]. rewrite lookup_insert_ne; [done|]. intros Ezb.
    rewrite (owned_split k), Ez in Hn. pose proof (in_blocks z) as Hz. rewrite Ezb in Hz. set_solver. }
  by apply Hw, Hw.
Qed.

Lemma src_view o W : scene o W → view bs W = Done (vs, W).
Proof. intros S. destruct (sn_src _ _ S) as (x & E1 & E2). eapply foreign_view; [apply S|done..|apply S]. Qed.
Lemma dst_view o W : scene o W → view bd W = Done (vd, W).
Proof. intros S. destruct (sn_dst _ _ S) as (x & E1 & E2). eapply foreign_view; [apply S|done..|apply S]. Qed.

Lemma view_format b v f W : view b W = Done (v, W) → pb_format v = Some f → format_at b W = Done (f, W).
Proof. intros E Ef. unfold format_at. erewrite M_bind_done by exact E. by rewrite Ef. Qed.
Lemma src_format o W : scene o W → format_at bs W = Done (fs, W).
Proof. intros S. eapply view_format; [by eapply src_view|]. by destruct (sn_src _ _ S) as (x & _ & ->). Qed.
Lemma dst_format o W : scene o W → format_at bd W = Done (fd, W).
Proof. intros S. eapply view_format; [by eapply dst_view|]. by destruct (sn_dst _ _ S) as (x & _ & ->). Qed.

Lemma scene_dims o W : scene o W → dimensions w h ∧ i_width fs = w ∧ i_height fs = h.
Proof.
  intros S. destruct (ro_w _ _ _ _ _ _ _ _ _ _ _ (sn_room _ _ S)) as (? & ? & ?), (ro_h _ _ _ _ _ _ _ _ _ _ _ (sn_room _ _ S)) as (? & ?).
  by split_and!.
Qed.

Lemma mid_view o W k x : converter B L s o W → o k = Some x → mid_ready k x w h W →
  view (mb_addr x) W = Done (PBuf (mb_planes x) (Some (mid_info k w h)) None, W).
Proof.
  intros [H _] E Hr. rewrite <- (mr_format _ _ _ _ _ Hr). apply (view_ok (mb_addr x) (mid_ext (mb_planes x))).
  rewrite (ho_bufs _ _ _ _ H k), E. apply lookup_insert_eq.
Qed.

(** The scene after other bytes have been written. *)
Lemma scene_mem o W m : scene o W → same_dom (bytes W) m →
  (∀ a, inside fs (planes_of (e_sampling es)) A a → m !! a = bytes W !! a) → scene o (with_mem m W).
Proof.
  intros [] Hd Hs. constructor; try done.
  - by apply converter_mem.
  - by apply stage_mem.
  - intros i a Hi Ha. cbn. rewrite Hs by (by exists i). by apply (sn_src_bytes0 i).
  - eapply room_grow; [done|]. intros a. apply Hd.
  - eapply encodes_same; [apply sn_room0| |exact sn_shown0]. intros i a Hi Ha. apply Hs. by exists i.
Qed.

(** The scene with a buffer of the context made ready. *)
Lemma scene_alloc o W k : scene o W → ∃ x W', alloc_mid alloc k c W = Done (0, W') ∧ scene (upd_mid k (Some x) o) W' ∧
  mid_ready k x w h W' ∧ others_kept o (upd_mid k (Some x) o) W W' ∧
  (∀ y W0 H0, o (negb k) = Some y → mid_ready (negb k) y W0 H0 W → mid_ready (negb k) y W0 H0 W').
Proof.
  intros S. destruct (scene_dims o W S) as (Hd & Hw & Hh). pose proof (src_format o W S) as Ef. pose proof (sn_converter _ _ S) as Hc.
  destruct (alloc_ready B L s o W k c _ bs fs w h Hc (sn_stage _ _ S) (sn_ctx _ _ S) eq_refl eq_refl Ef Hw Hh Hd)
    as (x & W' & E & C' & G' & X' & F' & R' & O' & N'). exists x, W'. split; [done|]. split; [|done].
  assert (Hold : ∀ b e, B !! b = Some e → b ∈ L) by (intros b e Eb; apply (ho_old _ _ _ _ (proj1 Hc)); by eexists).
  assert (Hs : ∀ a, inside fs (planes_of (e_sampling es)) A a → bytes W' !! a = bytes W !! a ∧ ¬ mine (upd_mid k (Some x) o) a).
  { intros a Ha. apply O'; [|by apply (sn_src_others _ _ S)]. destruct Ha as (i & Hi & Ha).
    destruct (sn_src_bytes _ _ S i a Hi Ha) as (z & -> & _). by eexists. }
  assert (Ht : ∀ a, inside fd (planes_of (e_sampling ed)) X a → bytes W' !! a = bytes W !! a ∧ ¬ mine (upd_mid k (Some x) o) a).
  { intros a Ha. apply O'; [|by apply (sn_dst_others _ _ S)]. destruct Ha as (i & Hi & Ha).
    by apply (ro_mapped _ _ _ _ _ _ _ _ _ _ _ (sn_room _ _ S) i). }
  destruct S as []. constructor; try done.
  - by rewrite X'.
  - destruct sn_src0 as (z & Ez & _). by rewrite (F' _ (Hold _ _ Ez)).
  - destruct sn_dst0 as (z & Ez & _). by rewrite (F' _ (Hold _ _ Ez)).
  - intros i a Hi Ha. rewrite (proj1 (Hs a (ex_intro _ i (conj Hi Ha)))). by apply (sn_src_bytes0 i).
  - intros a Ha. by apply Hs.
  - intros a Ha. by apply Ht.
  - destruct sn_room0 as []. constructor; try done. intros i a Hi Ha. rewrite (proj1 (Ht a (ex_intro _ i (conj Hi Ha)))). by apply (ro_mapped i).
  - eapply encodes_same; [apply sn_room0| |exact sn_shown0]. intros i a Hi Ha. by apply Hs; exists i.
Qed.

(** *** Where the pictures go *)

Section mid.
Context (o : mids) (W : world cvrt) (k : bool) (x : midbuf).
Context (S : scene o W) (Ex : o k = Some x) (Hr : mid_ready k x w h W).
Abbreviation mv := (PBuf (mb_planes x) (Some (mid_info k w h)) None).
Abbreviation M := (addr_of (mb_planes x)).

Lemma mid_planes_ok : planes_ok (mb_planes x).
Proof. apply (ho_planes _ _ _ _ (proj1 (sn_converter _ _ S)) k x Ex). Qed.

Lemma mid_mine a : inside (mid_info k w h) 2 M a → mine o a.
Proof. intros Ha. exists k. rewrite Ex. exact (mid_inside k x w h W Hr mid_planes_ok a Ha). Qed.

(** What a buffer needs to be a destination. *)
Lemma room_to_mid e v f Y : buffer_of v f (planes_of (e_sampling e)) Y → i_width f = w → i_height f = h → fits e f w h →
  (∀ a, inside f (planes_of (e_sampling e)) Y a → ¬ inside (mid_info k w h) 2 M a) →
  room e (between k) v mv f (mid_info k w h) Y M w h (bytes W).
Proof.
  intros Hb Hw Hh Hf Ho. destruct (scene_dims o W S) as ((Hw1 & Hw2 & Hh1) & _). pose proof mid_planes_ok as Hok.
  constructor; rewrite ?between_planes; try done.
  - by apply (mid_view_of k x w h W).
  - by eapply mid_fits.
  - apply between_plain.
  - intros i a Hi Ha. apply (mr_bytes _ _ _ _ _ Hr). by eapply mid_area.
  - intros i j Hi Hj Hne. by apply (mid_planes_apart B L o W (proj1 (sn_converter _ _ S)) (sn_stage _ _ S) k x w h).
  - intros i a Hi Ha. apply Ho. by exists i.
Qed.

Lemma room_src_mid : room es (between k) vs mv fs (mid_info k w h) A M w h (bytes W).
Proof.
  destruct (scene_dims o W S) as (_ & Hw & Hh). pose proof (sn_room _ _ S) as R0. apply room_to_mid; [apply R0|done|done|apply R0|].
  intros a Ha Hm. by apply (sn_src_others _ _ S a Ha), mid_mine.
Qed.

Lemma room_mid_dst : room (between k) ed mv vd (mid_info k w h) fd M X w h (bytes W).
Proof.
  destruct (scene_dims o W S) as ((Hw1 & Hw2 & Hh1) & _). pose proof (sn_room _ _ S) as []. constructor; rewrite ?between_planes; try done.
  - exact (mid_view_of k x w h W Hr mid_planes_ok).
  - by eapply mid_fits.
  - intros i a Hi Ha Hd. apply (sn_dst_others _ _ S a Hd), mid_mine. by exists i.
Qed.
End mid.

Lemma room_mid_mid o W k x y : scene o W → o k = Some x → mid_ready k x w h W → o (negb k) = Some y → mid_ready (negb k) y w h W →
  room (between k) (between (negb k)) (PBuf (mb_planes x) (Some (mid_info k w h)) None) (PBuf (mb_planes y) (Some (mid_info (negb k) w h)) None)
    (mid_info k w h) (mid_info (negb k) w h) (addr_of (mb_planes x)) (addr_of (mb_planes y)) w h (bytes W).
Proof.
  intros S Ex Hx Ey Hy. pose proof (mid_planes_ok o W k x S Ex) as Hok. pose proof (mid_planes_ok o W _ y S Ey) as Hoky.
  apply (room_to_mid o W (negb k) y S Ey Hy); rewrite ?between_planes; [by apply (mid_view_of k x w h W)|done|done|by eapply mid_fits|].
  intros a Ha%(mid_inside k x w h W Hx Hok) Hb%(mid_inside (negb k) y w h W Hy Hoky).
  apply (mids_apart B L o W (proj1 (sn_converter _ _ S)) (sn_stage _ _ S) k a); [by rewrite Ex|by rewrite Ey].
Qed.

(** *** The steps *)

Context (He : exact es P) (Hes : encoding_of (i_format fs) = Some es) (Hed : encoding_of (i_format fd) = Some ed).
Context (Hds : i_desc fs = pix_fmt_descriptors (i_format fs)) (Hdd : i_desc fd = pix_fmt_descriptors (i_format fd)).
Context (Hil : i_interlaced fs = 0).

(** A picture that can be stored exactly in the source can be in the
    intermediate format of its width. *)
Lemma between_exact k : (k = false → is_wide es = false) → exact (between k) P.
Proof.
  intros Hk c' x y. destruct (He c' x y) as (H1 & H2 & _). split; [done|]. split; [|by destruct k].
  destruct k; cbn [between e_storage depth_of].
  - change (2 ^ (16 - (16 - 0))) with 1. apply Z.mod_1_r.
  - specialize (Hk eq_refl). unfold is_wide in Hk. destruct (e_storage es); done.
Qed.

(** What has been done once the destination is written. *)
Definition result (o : mids) (W : world cvrt) (o' : mids) (W' : world cvrt) : Prop :=
  scene o' W' ∧ encodes true ed fd X P w h (bytes W') ∧
  ∀ a, is_Some (bytes W !! a) → ¬ mine o a → ¬ inside fd (planes_of (e_sampling ed)) X a → bytes W' !! a = bytes W !! a.

Lemma finish o W o1 W1 m : others_kept o o1 W W1 → scene o1 W1 → encodes true ed fd X P w h m →
  (∀ a, ¬ inside fd (planes_of (e_sampling ed)) X a → m !! a = bytes W1 !! a) → same_dom (bytes W1) m → result o W o1 (with_mem m W1).
Proof.
  intros Ho S Hp Hm Hd. split.
  - apply scene_mem; [done|done|]. intros a (i & Hi & Ha). apply Hm. by apply (ro_outside _ _ _ _ _ _ _ _ _ _ _ (sn_room _ _ S) i).
  - split; [done|]. intros a Ha Hn Hi. cbn. rewrite Hm by done. by apply Ho.
Qed.

(** Writing a buffer of the context. *)
Lemma mid_written o W k x m : scene o W → o k = Some x → mid_ready k x w h W → same_dom (bytes W) m →
  (∀ a, ¬ inside (mid_info k w h) 2 (addr_of (mb_planes x)) a → m !! a = bytes W !! a) →
  scene o (with_mem m W) ∧ others_kept o o W (with_mem m W).
Proof.
  intros S Ex Hr Hd Hm. assert (Ho : ∀ a, ¬ mine o a → m !! a = bytes W !! a).
  { intros a Ha. apply Hm. intros Hi. by apply Ha, (mid_mine o W k x S Ex Hr). }
  split; [|by intros a Ha Hn; split; [apply Ho|]].
  apply scene_mem; [done|done|]. intros a Ha. apply Ho. by apply (sn_src_others _ _ S).
Qed.

Lemma src_delivers v f Y m : (is_wide es = true → i_format fs ≠ PIX_FMT_P016) → readable fs (planes_of (e_sampling es)) A m →
  i_format f = mid_fmt (is_wide es) → setup es (between (is_wide es)) vs v fs f A Y P w h m →
  delivers (between (is_wide es)) f Y P w h m (unpack (is_wide es) (Some vs) (Some v)).
Proof.
  intros Hn Hb Ef H. unfold unpack, mid_fmt, between, is_wide in *. destruct (e_storage es) eqn:Es.
  - by apply (sw_unpack_ok vs v fs f A Y P w h m es).
  - apply (sw_unpack_16_ok vs v fs f A Y P w h m es); try done; [by rewrite Es|by apply Hn].
  - apply (sw_unpack_16_ok vs v fs f A Y P w h m es); try done; [by rewrite Es|by apply Hn].
  - apply (sw_unpack_16_ok vs v fs f A Y P w h m es); try done; [by rewrite Es|by apply Hn].
Qed.

Lemma dst_delivers v f Y Q m : i_format fd ≠ PIX_FMT_P016 → plain ed → i_format f = mid_fmt (is_wide ed) →
  setup (between (is_wide ed)) ed v vd f fd Y X Q w h m → delivers ed fd X Q w h m (pack (is_wide ed) (Some v) (Some vd)).
Proof. intros Hn Hp Ef H. by apply (pack_delivers (is_wide ed) ed v vd f fd Y X w h m). Qed.

Lemma check_depth_ok b b' f g d d' W : format_at b W = Done (f, W) → format_at b' W = Done (g, W) → depth f = Done d → depth g = Done d' →
  pitcher_sw_convert_check_depth b b' W = Done ((d =? 8) && (d' =? 8) || (8 <? d) && (8 <? d'), W).
Proof.
  intros E1 E2 E3 E4. unfold pitcher_sw_convert_check_depth. erewrite M_bind_done by exact E1.
  erewrite M_bind_done by (unfold lift; rewrite E3; reflexivity). erewrite M_bind_done by exact E2.
  by erewrite M_bind_done by (unfold lift; rewrite E4; reflexivity).
Qed.

Lemma named_mid o W k x : scene o W → o k = Some x → ∃ y, load_swc s W = Done (y, W) ∧ mid_of k y = Some (mb_addr x).
Proof.
  intros S Ex. destruct (proj2 (sn_converter _ _ S)) as (y & Ey & Hy). exists y. split; [by apply load_swc_ok|]. by rewrite Hy, Ex.
Qed.

(** The buffer to unpack into, and the other one where the widths differ. *)
Record target (o : mids) (W : world cvrt) (x : midbuf) : Prop := {
  tg_mid : o (is_wide es) = Some x;
  tg_ready : mid_ready (is_wide es) x w h W;
  tg_other : is_wide es ≠ is_wide ed → ∃ y, o (negb (is_wide es)) = Some y ∧ mid_ready (negb (is_wide es)) y w h W
}.

(** Its address, read back from the structure. *)
Lemma mid_or o W k x : scene o W → o k = Some x →
  (y ← load_swc s; b ← lift (of_option (mid_of k y)); mret (inr b)) W = Done (inr (mb_addr x) : Z + Z, W).
Proof.
  intros S Ex. destruct (named_mid o W k x S Ex) as (y & E & Ey). erewrite M_bind_done by exact E.
  by erewrite M_bind_done by (unfold lift; rewrite Ey; reflexivity).
Qed.

Lemma target_one o W k : scene o W → is_wide es = k → is_wide ed = k → ∃ o' W' x,
  (ret ← alloc_mid alloc k c;
   if negb (ret =? 0) then mret (inl ret)
   else y ← load_swc s; b ← lift (of_option (mid_of k y)); mret (inr b)) W = Done (inr (mb_addr x) : Z + Z, W') ∧
  scene o' W' ∧ others_kept o o' W W' ∧ target o' W' x.
Proof.
  intros S Ws Wd. destruct (scene_alloc o W k S) as (x & W1 & E1 & S1 & R1 & O1 & _). exists (upd_mid k (Some x) o), W1, x.
  erewrite M_bind_done by exact E1. cbn [Z.eqb negb]. rewrite (mid_or _ _ k x S1 (upd_mid_same _ _ _)). split; [done|].
  split; [done|]. split; [done|]. constructor; rewrite ?Ws, ?Wd; [apply upd_mid_same|done|done].
Qed.

Lemma target_two o W : scene o W → is_wide es ≠ is_wide ed → ∃ o' W' x,
  (ret ← alloc_mid alloc false c;
   if negb (ret =? 0) then mret (inl ret)
   else
     ret ← alloc_mid alloc true c;
     ds ← lift (depth fs);
     if negb (ret =? 0) then mret (inl ret)
     else y ← load_swc s; b ← lift (of_option (mid_of (negb (ds =? 8)) y)); mret (inr b)) W = Done (inr (mb_addr x) : Z + Z, W') ∧
  scene o' W' ∧ others_kept o o' W W' ∧ target o' W' x.
Proof.
  intros S Hne. destruct (depth_format fs es Hes Hds) as (ds & Eds & S8 & _).
  destruct (scene_alloc o W false S) as (x & W1 & E1 & S1 & R1 & O1 & _).
  destruct (scene_alloc _ W1 true S1) as (y & W2 & E2 & S2 & R2 & O2 & K2).
  assert (Rx : mid_ready false x w h W2) by (by apply (K2 x w h)).
  exists (upd_mid true (Some y) (upd_mid false (Some x) o)), W2, (if is_wide es then y else x).
  erewrite M_bind_done by exact E1. cbn [Z.eqb negb]. erewrite M_bind_done by exact E2.
  erewrite M_bind_done by (unfold lift; rewrite Eds; reflexivity). cbn [Z.eqb negb]. rewrite S8, negb_involutive.
  split; [by apply (mid_or _ _ _ _ S2); destruct (is_wide es)|]. split; [done|]. split; [by eapply others_trans|].
  destruct (is_wide es) eqn:Ws; constructor; rewrite ?Ws; try done; intros _; [by exists x|by exists y].
Qed.

Lemma target_ok o W : scene o W →
  (is_wide es = is_wide ed ∧ i_format fd = mid_fmt (is_wide es) ∧ unpack_target alloc c bs bd s W = Done (inr bd, W)) ∨
  ((is_wide es = is_wide ed → i_format fd ≠ mid_fmt (is_wide es)) ∧
   ∃ o' W' x, unpack_target alloc c bs bd s W = Done (inr (mb_addr x), W') ∧ scene o' W' ∧ others_kept o o' W W' ∧ target o' W' x).
Proof.
  intros S. destruct (depth_format fs es Hes Hds) as (ds & Eds & S8 & S9), (depth_format fd ed Hed Hdd) as (dd & Edd & D8 & D9).
  pose proof (src_format o W S) as Ef. pose proof (dst_format o W S) as Eg.
  pose proof (check_depth_ok bs bd fs fd ds dd W Ef Eg Eds Edd) as Ec. rewrite S8, S9, D8, D9 in Ec.
  pose proof (target_one o W) as T1. pose proof (target_two o W S) as T2.
  unfold unpack_target. erewrite M_bind_done by exact Ec. erewrite M_bind_done by exact Ef. erewrite M_bind_done by exact Eg. cbv zeta.
  unfold pitcher_sw_convert_alloc_mid_buffer, pitcher_sw_convert_alloc_mid16_buffer, mid_fmt.
  destruct (is_wide es) eqn:Ws, (is_wide ed) eqn:Wd; cbn [negb andb orb].
  - erewrite M_bind_done by (unfold lift; rewrite Edd; reflexivity). rewrite D8. cbn [negb].
    destruct (Z.eqb_spec (i_format fd) CVRT_MID_FMT16) as [Ei|Ei]; [by left|right]. split; [done|]. by apply (T1 true).
  - right. split; [done|]. by apply T2.
  - right. split; [done|]. by apply T2.
  - erewrite M_bind_done by (unfold lift; rewrite Edd; reflexivity). rewrite D8. cbn [negb].
    destruct (Z.eqb_spec (i_format fd) PIX_FMT_NV12) as [Ei|Ei]; [by left|right]. split; [done|]. by apply (T1 false).
Qed.

(** *** From the intermediate buffer to the destination *)

Definition cvrt_of (wide : bool) : option pitcher_buffer → option pitcher_buffer → bmem → outcome (Z * bmem) :=
  if wide then pitcher_sw_cvrt_16_to_8 else pitcher_sw_cvrt_8_to_16.

Lemma cvrt_delivers k v v' f f' Y Y' Q m : i_format f = mid_fmt k → i_format f' = mid_fmt (negb k) →
  setup (between k) (between (negb k)) v v' f f' Y Y' Q w h m →
  delivers (between (negb k)) f' Y' Q w h m (cvrt_of k (Some v) (Some v')).
Proof. destruct k; intros Ef Ef' H; [by eapply pitcher_sw_cvrt_16_to_8_ok|by eapply pitcher_sw_cvrt_8_to_16_ok]. Qed.

(** The picture as a format of width [k] can hold it; a destination of that
    width holds the same samples. *)
Definition seen (k : bool) : picture := if k then P else λ c x y, kept N8 (P c x y).

Lemma seen_exact k : exact (between k) (seen k).
Proof.
  intros c' x y. destruct (He c' x y) as (H1 & _). destruct k; cbn [seen between e_storage depth_of].
  - split; [done|]. split; [|done]. change (2 ^ (16 - (16 - 0))) with 1. apply Z.mod_1_r.
  - unfold kept. cbn [e_storage depth_of]. change (2 ^ (16 - 8)) with 256. split_and!; [dlia..|apply Z.mod_mul; lia|done].
Qed.

Lemma seen_encodes e f Y all m : plain e → encodes all e f Y P w h m ↔ encodes all e f Y (seen (is_wide e)) w h m.
Proof.
  intros Hp. unfold seen, is_wide. destruct (e_storage e) eqn:Es; [|done..].
  assert (Hk : ∀ v, kept N8 v = kept e v) by (intros v; unfold kept; by rewrite Es).
  rewrite (kept_encodes e f Y w h Hp). split; intros H i y k Hi Hy Hk' Hs; pose proof (H i y k Hi Hy Hk' Hs) as Hv;
    revert Hv; (replace (element (e_sampling e) (λ c x y, kept e (P c x y)) i y k) with
      (element (e_sampling e) (λ c x y, kept N8 (P c x y)) i y k) by (rewrite !element_kept; apply Hk)); done.
Qed.

Lemma depth_mid k : ∃ d, depth (mid_info k w h) = Done d ∧ (d =? 8) = negb k ∧ (8 <? d) = k.
Proof. destruct (depth_format (mid_info k w h) (between k)) as (d & E & D); [by destruct k|done|]. exists d. split; [done|]. by destruct k. Qed.

(** Packing a buffer of the context. *)
Lemma pack_mid o W x : scene o W → o (is_wide ed) = Some x → mid_ready (is_wide ed) x w h W → i_format fd ≠ PIX_FMT_P016 →
  encodes true (between (is_wide ed)) (mid_info (is_wide ed) w h) (addr_of (mb_planes x)) P w h (bytes W) →
  ∃ m, run_conversion (pack (is_wide ed)) (mb_addr x) bd W = Done (0, with_mem m W) ∧ encodes true ed fd X P w h m ∧
    (∀ a, ¬ inside fd (planes_of (e_sampling ed)) X a → m !! a = bytes W !! a) ∧ same_dom (bytes W) m.
Proof.
  intros S Ex Hr Hn Hp. pose proof (ro_plain _ _ _ _ _ _ _ _ _ _ _ (sn_room _ _ S)) as Hpl.
  destruct (run_step (pack (is_wide ed)) (mb_addr x) bd _ _ _ _ _ _ _ _ (seen (is_wide ed)) w h W
    (mid_view o W (is_wide ed) x (sn_converter _ _ S) Ex Hr) (dst_view o W S) (room_mid_dst o W (is_wide ed) x S Ex Hr)) as (m & E & V1 & V2 & V3).
  - apply encodes_all. rewrite seen_encodes in Hp by apply between_plain. by destruct (is_wide ed).
  - apply seen_exact.
  - by apply dst_delivers.
  - exists m. split; [done|]. split; [by apply seen_encodes|done].
Qed.

Lemma pack_steps_ok o W x : scene o W → target o W x → i_format fd ≠ PIX_FMT_P016 →
  encodes true (between (is_wide es)) (mid_info (is_wide es) w h) (addr_of (mb_planes x)) P w h (bytes W) →
  ∃ W', pack_steps (mb_addr x) bd s W = Done (0, W') ∧ result o W o W'.
Proof.
  intros S [Ex Hr Ho] Hn Hp. destruct (depth_format fd ed Hed Hdd) as (dd & Edd & D8 & D9), (depth_mid (is_wide es)) as (dm & Edm & M8 & M9).
  pose proof (mid_view o W _ x (sn_converter _ _ S) Ex Hr) as Vx. pose proof (view_format _ _ _ _ Vx eq_refl) as Fx.
  pose proof (check_depth_ok (mb_addr x) bd _ fd dm dd W Fx (dst_format o W S) Edm Edd) as Ec. rewrite M8, M9, D8, D9 in Ec.
  unfold pack_steps. erewrite M_bind_done by exact Ec. erewrite M_bind_done by exact Fx.
  erewrite M_bind_done by (unfold lift; rewrite Edm; reflexivity). rewrite M8.
  destruct (decide (is_wide es = is_wide ed)) as [Ew|Ew].
  - replace (negb (is_wide es) && negb (is_wide ed) || is_wide es && is_wide ed) with true by (rewrite Ew; by destruct (is_wide ed)).
    erewrite M_bind_done by reflexivity. cbn iota. erewrite M_bind_done by exact Fx.
    erewrite M_bind_done by (unfold lift; rewrite Edm; reflexivity). rewrite M8. rewrite Ew in *.
    destruct (pack_mid o W x S Ex Hr Hn Hp) as (m & E & V1 & V2 & V3). exists (with_mem m W).
    replace (if negb (is_wide ed) then pitcher_sw_pack else pitcher_sw_pack_16) with (pack (is_wide ed)) by (by destruct (is_wide ed)).
    split; [done|]. by apply finish; [apply others_refl|..].
  - replace (negb (is_wide es) && negb (is_wide ed) || is_wide es && is_wide ed) with false by (by destruct (is_wide es), (is_wide ed)).
    destruct (Ho Ew) as (y & Ey & Hy). assert (Ed : negb (is_wide es) = is_wide ed) by (by destruct (is_wide es), (is_wide ed)).
    destruct (named_mid o W _ y S Ey) as (z & Ez & Ezy).
    pose proof (mid_view o W _ y (sn_converter _ _ S) Ey Hy) as Vy.
    destruct (run_step (cvrt_of (is_wide es)) (mb_addr x) (mb_addr y) _ _ _ _ _ _ _ _ P w h W Vx Vy (room_mid_mid o W _ x y S Ex Hr Ey Hy))
      as (m & E & V1 & V2 & V3); [by apply encodes_all|apply between_exact; by destruct (is_wide es)|by apply cvrt_delivers|].
    rewrite between_planes in V2. destruct (mid_written o W _ y m S Ey Hy V3 V2) as [S1 O1].
    assert (Hy1 : mid_ready (is_wide ed) y w h (with_mem m W)) by (rewrite <- Ed; by apply mid_ready_mem).
    assert (Ey1 : o (is_wide ed) = Some y) by (by rewrite <- Ed). rewrite Ed in V1.
    destruct (pack_mid o (with_mem m W) y S1 Ey1 Hy1 Hn V1) as (m2 & E2 & U1 & U2 & U3). exists (with_mem m2 (with_mem m W)).
    erewrite M_bind_done.
    2:{ erewrite M_bind_done by exact Ez. erewrite M_bind_done by (unfold lift; rewrite Ezy; reflexivity).
        erewrite M_bind_done by (instantiate (1 := with_mem m W); instantiate (1 := 0); rewrite <- E; by destruct (is_wide es)). reflexivity. }
    cbn [Z.eqb negb]. destruct (depth_mid (is_wide ed)) as (dy & Edy & Y8 & _).
    pose proof (view_format _ _ _ _ (mid_view o (with_mem m W) _ y (sn_converter _ _ S1) Ey1 Hy1) eq_refl) as Fy.
    erewrite M_bind_done by exact Fy. erewrite M_bind_done by (unfold lift; rewrite Edy; reflexivity). rewrite Y8.
    replace (if negb (is_wide ed) then pitcher_sw_pack else pitcher_sw_pack_16) with (pack (is_wide ed)) by (by destruct (is_wide ed)).
    split; [done|]. by eapply finish.
Qed.

(** Through the context's buffers, or straight to a destination in the
    intermediate format. *)
Lemma convert_steps_ok o W : scene o W → (is_wide es = true → i_format fs ≠ PIX_FMT_P016) →
  (i_format fd = PIX_FMT_P016 → is_wide es = true) →
  ∃ o' W', convert_steps alloc c bs bd s W = Done (0, W') ∧ result o W o' W'.
Proof.
  intros S Hs Hd. destruct (depth_format fs es Hes Hds) as (ds & Eds & S8 & _). unfold convert_steps.
  assert (Hu : (if ds =? 8 then pitcher_sw_unpack else pitcher_sw_unpack_16) = unpack (is_wide es)) by (rewrite S8; by destruct (is_wide es)).
  destruct (target_ok o W S) as [(Ew & Ef & E)|(Hf & o1 & W1 & x & E & S1 & O1 & T1)]; erewrite M_bind_done by exact E; cbn iota.
  - erewrite M_bind_done by (by eapply src_format). erewrite M_bind_done by (unfold lift; rewrite Eds; reflexivity). rewrite Hu.
    assert (Eed : ed = between (is_wide es)) by (rewrite Ef in Hed; destruct (is_wide es); by injection Hed).
    pose proof (sn_room _ _ S) as R0. rewrite Eed in R0.
    destruct (run_step (unpack (is_wide es)) bs bd _ _ _ _ _ _ _ _ P w h W (src_view o W S) (dst_view o W S) R0 (sn_shown _ _ S) He) as (m & E1 & V1 & V2 & V3).
    { by apply src_delivers; [|apply (sn_src_bytes _ _ S)|]. }
    erewrite M_bind_done by exact E1. cbn [Z.eqb negb]. rewrite Z.eqb_refl. exists o, (with_mem m W). split; [done|].
    apply finish; [apply others_refl|done|by rewrite Eed|by rewrite Eed|done].
  - erewrite M_bind_done by (by eapply src_format). erewrite M_bind_done by (unfold lift; rewrite Eds; reflexivity). rewrite Hu.
    pose proof T1 as [Ex Hr _].
    destruct (run_step (unpack (is_wide es)) bs (mb_addr x) _ _ _ _ _ _ _ _ P w h W1 (src_view o1 W1 S1)
      (mid_view o1 W1 _ x (sn_converter _ _ S1) Ex Hr) (room_src_mid o1 W1 _ x S1 Ex Hr) (sn_shown _ _ S1) He) as (m & E1 & V1 & V2 & V3).
    { by apply src_delivers; [|apply (sn_src_bytes _ _ S1)|]. }
    erewrite M_bind_done by exact E1. cbn [Z.eqb negb]. rewrite between_planes in V2.
    destruct (mid_written o1 W1 _ x m S1 Ex Hr V3 V2) as [S2 O2].
    assert (Hne : (mb_addr x =? bd) = false).
    { apply Z.eqb_neq. intros Exb. destruct (sn_dst _ _ S1) as (z & Ez & _). pose proof (ho_new _ _ _ _ (proj1 (sn_converter _ _ S1))) as Hn.
      pose proof (ho_old _ _ _ _ (proj1 (sn_converter _ _ S1)) bd (ex_intro _ z Ez)) as Hb. rewrite (owned_split (is_wide es)), Ex in Hn.
      pose proof (in_blocks x). set_solver. }
    rewrite Hne. assert (T2 : target o1 (with_mem m W1) x).
    { destruct T1 as [T1 T2 T3]. constructor; [done|by apply mid_ready_mem|]. intros Hw. destruct (T3 Hw) as (y & Ey & Hy).
      exists y. split; [done|by apply mid_ready_mem]. }
    destruct (pack_steps_ok o1 (with_mem m W1) x S2 T2) as (W2 & E2 & S3 & P3 & F3); [|exact V1|].
    { intros Efd. specialize (Hd Efd). apply Hf; [|by rewrite Hd].
      rewrite Efd in Hed. vm_compute in Hed. injection Hed as <-. by rewrite Hd. }
    exists o1, W2. split; [done|]. split; [done|]. split; [done|]. intros a Ha Hn Hi.
    destruct (O1 a Ha Hn) as [A1 A2]. destruct (O2 a) as [B1 B2]; [by rewrite A1|done|].
    rewrite F3 by (rewrite ?B1, ?A1; done). by rewrite B1, A1.
Qed.

(** C16: a frame through a conversion context.  For the pairs of formats the
    function supports, sources and destinations of one field (any of the
    modelled formats, tiled and ten-bit ones included; even widths up to 16384) and a
    destination at least as large, [pitcher_sw_convert_frame] returns 0 and
    the destination's planes hold the source's picture, sample for sample: chroma reduced to, or
    repeated from, 4:2:0, neutral chroma for a source without, and the most
    significant bits where the destination has fewer.  The intermediate
    buffers are made, kept or replaced as the sizes ask for, by an allocator that
    does not refuse and keeps blocks apart ([RoomyAlloc]).  No other byte
    of memory changes, so that the source still shows its picture, and the context is
    ready for the next frame. *)
Theorem sw_convert_frame_delivers o W : scene o W →
  i_interlaced fd = 0 → i_width fs ≤ i_width fd → i_height fs ≤ i_height fd →
  convertible (i_format fs) (i_format fd) es ed = true →
  ∃ o' W', pitcher_sw_convert_frame alloc (Some c) W = Done (0, W') ∧ scene o' W' ∧ encodes true ed fd X P w h (bytes W') ∧
    ∀ a, is_Some (bytes W !! a) → ¬ mine o a → ¬ inside fd (planes_of (e_sampling ed)) X a → bytes W' !! a = bytes W !! a.
Proof.
  intros S Hdl Hw Hh Hc. unfold pitcher_sw_convert_frame. erewrite M_bind_done by (apply load_ctx_ok, S). cbn [cc_priv cc_src cc_dst].
  erewrite M_bind_done by (by eapply src_view). erewrite M_bind_done by (by eapply dst_view).
  destruct (sn_src _ _ S) as (xs & _ & Evs), (sn_dst _ _ S) as (xd & _ & Evd). rewrite Evs, Evd. cbn [pb_format].
  rewrite (proj2 (Z.ltb_ge _ _) Hw), (proj2 (Z.ltb_ge _ _) Hh), Hdl, Hil. cbn [orb andb Z.eqb negb]. rewrite !andb_true_r.
  destruct (depth_format fd ed Hed Hdd) as (dd & Edd & _ & D9). unfold convertible in Hc.
  pose proof (sn_room _ _ S) as R0. pose proof (ro_plain _ _ _ _ _ _ _ _ _ _ _ R0) as Hpl.
  assert (Hdirect : ∀ k, i_format fs = mid_fmt k → is_wide ed = k → i_format fd ≠ PIX_FMT_P016 →
    ∃ o' W', run_conversion (pack k) bs bd W = Done (0, W') ∧ result o W o' W').
  { intros k Ef Ek Hn. assert (Ees : es = between (is_wide ed)) by (rewrite Ek; rewrite Ef in Hes; destruct k; by injection Hes).
    rewrite <- Ek in *. destruct (run_step (pack (is_wide ed)) bs bd _ _ _ _ _ _ _ _ P w h W (src_view o W S) (dst_view o W S) R0 (sn_shown _ _ S) He)
      as (m & E & V1 & V2 & V3); [intros H; rewrite Ees in H; by eapply dst_delivers|].
    exists o, (with_mem m W). split; [done|]. by apply finish; [apply others_refl|..]. }
  destruct (Z.eqb_spec (i_format fs) PIX_FMT_NV12) as [Ef|Ef].
  { apply (Hdirect false Ef); [by destruct (is_wide ed)|]. intros Efd. rewrite Efd in Hed. vm_compute in Hed. by injection Hed as <-. }
  unfold CVRT_MID_FMT16. destruct (Z.eqb_spec (i_format fs) PIX_FMT_P016) as [Ef16|Ef16].
  - apply andb_prop in Hc as [Hc1 Hc2]. erewrite M_bind_done.
    2:{ erewrite M_bind_done by (unfold lift; rewrite Edd; reflexivity). rewrite D9, Hc1. reflexivity. }
    cbn iota. apply (Hdirect true); [done|done|]. intros Efd. by rewrite Efd in Hc2.
  - erewrite M_bind_done by reflexivity. cbn iota. apply convert_steps_ok; [done|done|].
    intros Efd. rewrite Efd in Hc. exact Hc.
Qed.
End frame.
End stage.

(** ** A picture of 4 by 2 samples from I420 to YUYV *)

#[local] Existing Instance videodev2_example.

Definition far_alloc (n : nat) (X : gset Z) : option Z := Some (2 ^ 33 + foldr Z.max 0 (elements X)).
Definition low (a : Z) : Prop := 0 ≤ a < 200.

Lemma foldr_max_le l q : q ∈ l → q ≤ foldr Z.max 0 l.
Proof. induction l as [|x l IH]; [by intros ?%elem_of_nil|]. cbn. intros [->|H]%elem_of_cons; [lia|]. specialize (IH H). lia. Qed.
Lemma foldr_max_nonneg l : 0 ≤ foldr Z.max 0 l.
Proof. induction l; cbn; lia. Qed.

#[local] Instance far_alloc_roomy : RoomyAlloc far_alloc low.
Proof.
  constructor.
  - intros n X. by eexists.
  - intros n X p q [= <-] Hq. pose proof (foldr_max_le (elements X) q) as H. rewrite elem_of_elements in H. specialize (H Hq).
    unfold apart, BLOCK. lia.
  - intros n X p a [= <-] Ha [H1 H2]. pose proof (foldr_max_nonneg (elements X)). lia.
Qed.

Definition i420_4x2 : pix_fmt_info :=
  FmtInfo PIX_FMT_I420 (pix_fmt_descriptors PIX_FMT_I420) 4 2 0 12 3 [PlaneInfo 4 8; PlaneInfo 2 2; PlaneInfo 2 2] 0 0.
Definition yuyv_4x2 : pix_fmt_info := FmtInfo PIX_FMT_YUYV (pix_fmt_descriptors PIX_FMT_YUYV) 4 2 0 16 1 [PlaneInfo 8 16] 0 0.
Definition small_bufs : gmap Z ext_buffer :=
  <[1002 := Ext (pb_planes (small_buffer i420_4x2 0)) 0 0 1 0 0]> (<[1003 := Ext (pb_planes (small_buffer yuyv_4x2 60)) 0 0 1 0 0]> ∅).
Definition small_live : gset Z := {[1000; 1001; 1002; 1003]}.
Definition small_world : world cvrt :=
  World (Mem small_live 4 4) small_bufs
    (Env small_memory (<[1002 := i420_4x2]> (<[1003 := yuyv_4x2]> ∅)) {[1000 := Cvrt (Some 1002) (Some 1003) (Some 1001)]}
       {[1001 := SwCvrt no_format None no_format None]}).
Definition small_picture : picture := λ c x y, 256 * ((20 * c + y * (if c =? 0 then 4 else 2) + x) mod 256).

Lemma small_shown : encodes false (Enc Planar Bytes false) i420_4x2 (planes_at 0) small_picture 4 2 small_memory.
Proof.
  intros i y k Hi Hy Hk _ j Hj. cbn [e_tiled e_sampling byte_addr element] in *. cbn [planes_of rows row_len] in *.
  assert (Hl : pi_line (plane i420_4x2 i) = if i =? 0 then 4 else 2).
  { assert (i = 0 ∨ i = 1 ∨ i = 2) as [-> |[-> | ->]] by lia; done. }
  rewrite Hl. unfold small_picture, planes_at. change (half 2) with 1 in *. change (half 4) with 2 in *.
  assert (j = 0) as -> by lia. unfold rows in Hy. change (half 2) with 1 in *.
  rewrite Z.add_0_r, small_memory_byte; [|destruct (i =? 0); lia]. f_equal. change (2 ^ 8) with 256. change (256 ^ 0) with 1.
  rewrite (Z.mul_comm 256), Z.div_mul, Z.div_1_r, Z.mod_mod by lia. done.
Qed.

Lemma no_mids_mine a : ¬ mine (λ _, None) a.
Proof. intros (k & Hk). by apply in_planes_nil in Hk. Qed.

Lemma small_stage : stage low small_live (λ _, None) small_world.
Proof.
  constructor; [by intros p Hp Hn| |done]. intros a Ha. left. unfold low. destruct (decide (0 ≤ a < 200)) as [|Hn]; [done|].
  exfalso. revert Ha. cbn. unfold small_memory. rewrite not_elem_of_list_to_map_1; [by intros []|].
  intros Hin. apply list_elem_of_fmap in Hin as ([z v] & -> & Hz). apply list_elem_of_fmap in Hz as (z' & [= -> _] & Hz%elem_of_seqZ). cbn in Hn. lia.
Qed.

Lemma small_converter : converter small_bufs small_live 1001 (λ _, None) small_world.
Proof.
  split.
  - constructor; try done; try set_solver. intros b. unfold small_bufs, small_live. rewrite !lookup_insert_is_Some, lookup_empty.
    intros [<-|[_ [<-|[_ []]]]]; set_solver.
  - exists (SwCvrt no_format None no_format None). split; [done|]. by intros [].
Qed.

Lemma small_scene : scene low small_bufs small_live 1000 1001 1002 1003 (small_buffer i420_4x2 0) (small_buffer yuyv_4x2 60)
  (Enc Planar Bytes false) (Enc Packed422 Bytes false) i420_4x2 yuyv_4x2 (planes_at 0) (planes_at 60) small_picture 4 2 (λ _, None) small_world.
Proof.
  constructor; try reflexivity.
  - exact small_converter.
  - exact small_stage.
  - by eexists.
  - by eexists.
  - intros i a Hi Ha. pose proof (small_area (Enc Planar Bytes false) i420_4x2 eq_refl 0 i a Hi Ha).
    exists (a mod 256). split; [apply small_memory_byte; lia|]. unfold is_byte. apply Z.mod_pos_bound. lia.
  - intros a _. apply no_mids_mine.
  - intros a _. apply no_mids_mine.
  - apply small_room; [reflexivity..|apply plain_bytes_enc|lia|lia].
  - exact small_shown.
Qed.

Lemma small_exact : exact (Enc Planar Bytes false) small_picture.
Proof.
  intros c x y. unfold small_picture. pose proof (Z.mod_pos_bound (20 * c + y * (if c =? 0 then 4 else 2) + x) 256).
  split; [lia|]. split; [|done]. cbn [e_storage depth_of]. change (2 ^ (16 - 8)) with 256. rewrite Z.mul_comm. apply Z.mod_mul. lia.
Qed.

Lemma sw_convert_frame_delivers_witness : ∃ o' W',
  pitcher_sw_convert_frame far_alloc (Some 1000) small_world = Done (0, W') ∧
  scene low small_bufs small_live 1000 1001 1002 1003 (small_buffer i420_4x2 0) (small_buffer yuyv_4x2 60)
    (Enc Planar Bytes false) (Enc Packed422 Bytes false) i420_4x2 yuyv_4x2 (planes_at 0) (planes_at 60) small_picture 4 2 o' W' ∧
  encodes true (Enc Packed422 Bytes false) yuyv_4x2 (planes_at 60) small_picture 4 2 (cv_bytes (w_env W')) ∧
  ∀ a, is_Some (small_memory !! a) → ¬ mine (λ _, None) a → ¬ inside yuyv_4x2 1 (planes_at 60) a →
    cv_bytes (w_env W') !! a = small_memory !! a.
Proof.
  refine (sw_convert_frame_delivers far_alloc low small_bufs small_live 1000 1001 1002 1003 (small_buffer i420_4x2 0) (small_buffer yuyv_4x2 60)
    (Enc Planar Bytes false) (Enc Packed422 Bytes false) i420_4x2 yuyv_4x2 (planes_at 0) (planes_at 60) small_picture 4 2
    small_exact eq_refl eq_refl eq_refl eq_refl eq_refl (λ _, None) small_world small_scene eq_refl _ _ eq_refl); cbn; lia.
Defined.
