(* ===== verification/Kmp.v ===== *)
(** * parse.c: the string search of Knuth, Morris and Pratt

    [get_kmp_next] computes the table of longest borders, [kmp_search] finds the
    first occurrence of a pattern with it.  A [char] matters only up to equality
    here, so strings are lists of numbers. *)

From S2P Require Import Prelude.

(** The loop on [j] and [k]; either [j] grows or [k] falls. *)
(* C: pitcher/parse.c get_kmp_next 34-42 *)
Fixpoint kmp_next_loop (fuel : nat) (p : list Z) (size j k : Z) (next : list Z) : outcome (list Z) :=
  if j <? size - 1 then
    match fuel with
    | O => NoFuel
    | S fuel =>
        eq ← (if k =? -1 then Done true else pj ← loadz p j; pk ← loadz p k; Done (pj =? pk));
        if (eq : bool) then
          next ← storez next (j + 1) (k + 1);
          kmp_next_loop fuel p size (j + 1) (k + 1) next
        else k ← loadz next k; kmp_next_loop fuel p size j k next
    end
  else Done next.

(* C: pitcher/parse.c get_kmp_next *)
Definition get_kmp_next (p next : list Z) (size : Z) : outcome (list Z) :=
  next ← storez next 0 (-1);
  kmp_next_loop (Z.to_nat (2 * size)) p size 0 (-1) next.

(* C: pitcher/parse.c kmp_search 50-57 *)
Fixpoint kmp_search_loop (fuel : nat) (s : list Z) (s_len : Z) (p : list Z) (p_len : Z) (next : list Z) (i j : Z)
    : outcome (Z * Z) :=
  if (i <? s_len) && (j <? p_len) then
    match fuel with
    | O => NoFuel
    | S fuel =>
        eq ← (if j =? -1 then Done true else si ← loadz s i; pj ← loadz p j; Done (si =? pj));
        if (eq : bool) then kmp_search_loop fuel s s_len p p_len next (i + 1) (j + 1)
        else j ← loadz next j; kmp_search_loop fuel s s_len p p_len next i j
    end
  else Done (i, j).

(* C: pitcher/parse.c kmp_search *)
Definition kmp_search (s : list Z) (s_len : Z) (p : list Z) (p_len : Z) (next : list Z) : outcome Z :=
  '(i, j) ← kmp_search_loop (Z.to_nat (2 * s_len + 1)) s s_len p p_len next 0 0;
  Done (if j =? p_len then i - j else -1).

(** ** Borders *)

(** The first [k] items of [p] are the last [k] of its first [j]. *)
Definition border (p : list Z) (k j : Z) : Prop :=
  0 ≤ k < j ∧ ∀ t, 0 ≤ t < k → byte_at p t = byte_at p (j - k + t).

(** The entry for [j]: the longest border, or -1 before the start. *)
Definition is_next (p : list Z) (j k : Z) : Prop :=
  if j =? 0 then k = -1 else border p k j ∧ ∀ k', k < k' → ¬ border p k' j.

Definition next_upto (p next : list Z) (n : Z) : Prop := ∀ j, 0 ≤ j < n → is_next p j (byte_at next j).

Lemma border_border p k k' j : border p k j → border p k' j → k' < k → border p k' k.
Proof.
  intros [Hk H] [Hk' H'] Hlt. split; [lia|]. intros t Ht.
  rewrite H', (H (k - k' + t)) by lia. f_equal. lia.
Qed.

Lemma border_snoc p k j : border p k j → byte_at p j = byte_at p k → border p (k + 1) (j + 1).
Proof.
  intros [Hk H] E. split; [lia|]. intros t Ht. destruct (decide (t = k)) as [->|].
  - rewrite <- E. f_equal. lia.
  - rewrite H by lia. f_equal. lia.
Qed.

Lemma border_unsnoc p k j : 0 < k → border p k (j + 1) → k - 1 = j ∨ border p (k - 1) j ∧ byte_at p (k - 1) = byte_at p j.
Proof.
  intros Hk0 [Hk H]. destruct (decide (k - 1 = j)); [by left|right]. split.
  - split; [lia|]. intros t Ht. rewrite H by lia. f_equal. lia.
  - rewrite H by lia. f_equal. lia.
Qed.

Lemma is_next_range p j k : 0 ≤ j → is_next p j k → -1 ≤ k < j.
Proof. unfold is_next. intros Hj. destruct (Z.eqb_spec j 0); [lia|]. intros [[? _] _]. lia. Qed.

(** No border of [j] longer than [k] can be extended by [x]. *)
Definition no_longer (p : list Z) (k j x : Z) : Prop := ∀ k', k < k' → border p k' j → byte_at p k' ≠ x.

(** Falling back to the next border keeps what is known. *)
Lemma no_longer_fall p k j x k1 : 0 ≤ k → border p k j ∨ k = j → no_longer p k j x → byte_at p k ≠ x → is_next p k k1 →
  (k1 = -1 ∨ border p k1 j) ∧ no_longer p k1 j x.
Proof.
  intros Hk Hb Hn Hx Hk1. unfold is_next in Hk1.
  assert (Hsub : ∀ k', border p k' j → k' < k → border p k' k).
  { intros k' Hk' Hlt. destruct Hb as [Hb| ->]; [by eapply border_border|done]. }
  assert (Hmid : ∀ k', k1 < k' → k' < k → ¬ border p k' j).
  { intros k' H1 H2 Hb'. apply Hsub in Hb'; [|done]. destruct (Z.eqb_spec k 0) as [->|]; [destruct Hb'; lia|].
    by apply (proj2 Hk1 k'). }
  split.
  - destruct (Z.eqb_spec k 0) as [->|]; [by left|]. right. destruct Hk1 as [[Hk1 H1] _].
    destruct Hb as [[Hkj H]| ->]; [|by split]. split; [lia|]. intros t Ht. rewrite H1, H by lia. f_equal. lia.
  - intros k' Hk' Hb'. destruct (decide (k' = k)) as [->|]; [done|]. destruct (decide (k < k')); [by apply Hn|].
    exfalso. apply (Hmid k'); (done || lia).
Qed.

Lemma kmp_next_loop_ok p size fuel : ∀ j k next, size ≤ zlen p → size ≤ zlen next →
  0 ≤ j < size → next_upto p next (j + 1) → (k = -1 ∨ border p k j) → no_longer p k j (byte_at p j) →
  2 * (size - j) + k < Z.of_nat fuel →
  ∃ next', kmp_next_loop fuel p size j k next = Done next' ∧ zlen next' = zlen next ∧ next_upto p next' size.
Proof.
  induction fuel as [|fuel IH]; intros j k next Hp Hn Hj Hup Hk Hno Hf.
  { destruct Hk as [|[? _]]; lia. }
  assert (Hk1 : -1 ≤ k < j ∨ k = -1) by (destruct Hk as [|[? _]]; lia).
  cbn [kmp_next_loop]. destruct (Z.ltb_spec j (size - 1)) as [Hj1|Hj1].
  2:{ exists next. split_and!; try done. intros t Ht. apply Hup. lia. }
  assert (Hcmp : (if k =? -1 then Done true else pj ← loadz p j; pk ← loadz p k; Done (pj =? pk))
    = Done ((k =? -1) || (byte_at p j =? byte_at p k))).
  { destruct (Z.eqb_spec k (-1)); [done|]. rewrite !loadz_Done by lia. done. }
  rewrite Hcmp, bind_done. destruct ((k =? -1) || (byte_at p j =? byte_at p k)) eqn:Em.
  - rewrite storez_Done by lia. rewrite bind_done.
    assert (Hb : border p (k + 1) (j + 1)).
    { apply orb_true_iff in Em. rewrite !Z.eqb_eq in Em. destruct Em as [->|Em]; [split; [lia|intros; lia]|].
      destruct Hk as [->|Hk]; [split; [lia|intros; lia]|]. by apply border_snoc. }
    assert (Hmax : ∀ k', k + 1 < k' → ¬ border p k' (j + 1)).
    { intros k' Hk' Hb'. apply border_unsnoc in Hb' as Hb2; [|lia]. destruct Hb2 as [E|[Hb2 E]].
      - destruct Hb'. lia.
      - apply (Hno (k' - 1)); [lia|done|done]. }
    destruct (IH (j + 1) (k + 1) (<[Z.to_nat (j + 1) := k + 1]> next)) as (next' & E & Hl & Hup');
      rewrite ?zlen_insert; [done|done|lia| |by right| |lia|].
    + intros t Ht. rewrite byte_at_insert by lia. case_decide as Ht'; [|apply Hup; lia].
      subst t. unfold is_next. rewrite (proj2 (Z.eqb_neq _ _)) by lia. by split.
    + intros k' Hk' Hb'. by destruct (Hmax k').
    + exists next'. rewrite zlen_insert in Hl. by split_and!.
  - apply orb_false_iff in Em. rewrite !Z.eqb_neq in Em. destruct Em as [Hk0 Hx]. destruct Hk as [|Hk]; [done|].
    assert (Hkr : 0 ≤ k < j) by (destruct Hk; lia).
    rewrite loadz_Done by lia. rewrite bind_done. pose proof (Hup k ltac:(lia)) as Hnk.
    destruct (no_longer_fall p k j (byte_at p j) _ ltac:(lia) ltac:(by left) Hno ltac:(done) Hnk) as [Hk' Hno'].
    pose proof (is_next_range p k _ ltac:(lia) Hnk). apply IH; (done || lia).
Qed.

Lemma get_kmp_next_ok p next size : 0 < size → size ≤ zlen p → size ≤ zlen next →
  ∃ next', get_kmp_next p next size = Done next' ∧ zlen next' = zlen next ∧ next_upto p next' size.
Proof.
  intros Hs Hp Hn. unfold get_kmp_next. rewrite storez_Done by lia. rewrite bind_done.
  destruct (kmp_next_loop_ok p size (Z.to_nat (2 * size)) 0 (-1) (<[Z.to_nat 0 := -1]> next)) as (next' & E & Hl & Hup);
    rewrite ?zlen_insert in *; try done; try lia.
  - intros j Hj. assert (j = 0) as -> by lia. rewrite byte_at_insert by lia. by rewrite decide_True.
  - intros k' Hk' [? _]. lia.
  - by exists next'.
Qed.

(** ** The search *)

(** The pattern occurs at [i]. *)
Definition occurs_at (s : list Z) (s_len : Z) (p : list Z) (p_len i : Z) : Prop :=
  0 ≤ i ≤ s_len - p_len ∧ ∀ t, 0 ≤ t < p_len → byte_at s (i + t) = byte_at p t.

(** What the reference search says: the first occurrence, or -1. *)
Definition first_occurrence (s : list Z) (s_len : Z) (p : list Z) (p_len r : Z) : Prop :=
  occurs_at s s_len p p_len r ∧ (∀ i, i < r → ¬ occurs_at s s_len p p_len i) ∨
  r = -1 ∧ ∀ i, ¬ occurs_at s s_len p p_len i.

Section search.
Context (s : list Z) (s_len : Z) (p : list Z) (p_len : Z) (next : list Z).
Context (Hs : 0 ≤ s_len ≤ zlen s) (Hp : 0 < p_len ≤ zlen p) (Hnx : p_len ≤ zlen next) (Hup : next_upto p next p_len).

(** [j] items match before [i], and there is no occurrence before [i - j]. *)
Definition searched (i j : Z) : Prop :=
  0 ≤ i ≤ s_len ∧ -1 ≤ j ≤ p_len ∧ j ≤ i ∧ (∀ t, 0 ≤ t < j → byte_at s (i - j + t) = byte_at p t) ∧
  ∀ pos, pos < i - j → ¬ occurs_at s s_len p p_len pos.

(** An occurrence that starts inside the matched part is a border of it. *)
Lemma occurrence_border i j pos : searched i j → j < p_len → i - j < pos < i → occurs_at s s_len p p_len pos →
  border p (i - pos) j.
Proof.
  intros (Hi & Hj & Hji & Hm & _) Hjp Hpos [_ Ho]. split; [lia|]. intros t Ht.
  rewrite <- Ho by lia. rewrite <- Hm by lia. f_equal. lia.
Qed.

Lemma searched_fall i j : searched i j → i < s_len → 0 ≤ j < p_len → byte_at s i ≠ byte_at p j → searched i (byte_at next j).
Proof.
  intros Hsr Hi Hj Hx. pose proof Hsr as (Hi0 & _ & Hji & Hm & Hno).
  pose proof (Hup j Hj) as Hk. pose proof (is_next_range _ _ _ (proj1 Hj) Hk) as Hr. split_and!; try lia.
  - intros t Ht. unfold is_next in Hk. destruct (Z.eqb_spec j 0); [lia|]. destruct Hk as [[_ Hb] _].
    rewrite Hb by lia. rewrite <- Hm by lia. f_equal. lia.
  - intros pos Hpos Ho. destruct (Z.lt_trichotomy pos (i - j)) as [H|[->|H]].
    + by apply (Hno pos).
    + apply Hx. rewrite <- (proj2 Ho j) by lia. f_equal. lia.
    + unfold is_next in Hk. destruct (decide (pos < i)) as [Hlt|Hge].
      * pose proof (occurrence_border i j pos Hsr ltac:(lia) ltac:(lia) Ho) as Hb.
        destruct (Z.eqb_spec j 0) as [->|]; [destruct Hb; lia|]. apply (proj2 Hk (i - pos)); [lia|done].
      * destruct (Z.eqb_spec j 0) as [E|]; [|destruct Hk as [[? _] _]; lia]. assert (pos = i) as -> by lia. subst j.
        apply Hx. rewrite <- (proj2 Ho 0) by lia. f_equal. lia.
Qed.

Lemma searched_step i j : searched i j → i < s_len → j < p_len → j = -1 ∨ byte_at s i = byte_at p j → searched (i + 1) (j + 1).
Proof.
  intros (Hi0 & Hj0 & Hji & Hm & Hno) Hi Hj Hx. split_and!; try lia.
  - intros t Ht. destruct (decide (t = j)) as [->|].
    + destruct Hx as [->|Hx]; [lia|]. rewrite <- Hx. f_equal. lia.
    + rewrite <- Hm by lia. f_equal. lia.
  - intros pos Hpos. apply Hno. lia.
Qed.

Lemma kmp_search_loop_ok fuel : ∀ i j, searched i j → 2 * (s_len - i) + j < Z.of_nat fuel →
  ∃ i' j', kmp_search_loop fuel s s_len p p_len next i j = Done (i', j') ∧ searched i' j' ∧ (s_len ≤ i' ∨ p_len ≤ j').
Proof.
  induction fuel as [|fuel IH]; intros i j Hsr Hf; pose proof Hsr as (Hi0 & Hj0 & Hji & _).
  - assert (i = s_len ∧ j = -1) as [-> ->] by lia. exists s_len, (-1). cbn [kmp_search_loop].
    rewrite (proj2 (Z.ltb_ge _ _)) by lia. split_and!; try done. left. lia.
  - cbn [kmp_search_loop]. destruct ((i <? s_len) && (j <? p_len)) eqn:E.
    2:{ exists i, j. split_and!; try done. apply andb_false_iff in E. rewrite !Z.ltb_ge in E. lia. }
    apply andb_true_iff in E. rewrite !Z.ltb_lt in E. destruct E as [Hi Hj].
    assert (Hcmp : (if j =? -1 then Done true else si ← loadz s i; pj ← loadz p j; Done (si =? pj))
      = Done ((j =? -1) || (byte_at s i =? byte_at p j))).
    { destruct (Z.eqb_spec j (-1)); [done|]. rewrite !loadz_Done by lia. done. }
    rewrite Hcmp, bind_done. destruct ((j =? -1) || (byte_at s i =? byte_at p j)) eqn:Em.
    + apply orb_true_iff in Em. rewrite !Z.eqb_eq in Em. apply IH; [by apply searched_step|lia].
    + apply orb_false_iff in Em. rewrite !Z.eqb_neq in Em. destruct Em as [Hj1 Hx].
      rewrite loadz_Done by lia. rewrite bind_done. pose proof (is_next_range p j _ ltac:(lia) (Hup j ltac:(lia))).
      apply IH; [apply searched_fall; (done || lia)|lia].
Qed.

Lemma kmp_search_ok : ∃ r, kmp_search s s_len p p_len next = Done r ∧ first_occurrence s s_len p p_len r.
Proof.
  unfold kmp_search. destruct (kmp_search_loop_ok (Z.to_nat (2 * s_len + 1)) 0 0) as (i & j & E & Hsr & Hend).
  { split_and!; try lia. intros pos Hpos [? _]. lia. }
  { lia. }
  rewrite E, bind_done. eexists. split; [reflexivity|]. destruct Hsr as (Hi & Hj & Hji & Hm & Hno).
  destruct (Z.eqb_spec j p_len) as [->|Hne].
  - left. split; [split; [lia|]|done]. intros t Ht. by apply Hm.
  - right. split; [done|]. intros pos Ho. apply (Hno pos); [|done]. destruct Ho as [? _]. destruct Hend; lia.
Qed.
End search.

(** The search of Knuth, Morris and Pratt is the naive one.  For a pattern
    that is not empty and arrays as long as announced, [get_kmp_next] then
    [kmp_search] end without an access out of bounds, and the result is the
    first position at which the pattern occurs, or -1 when it occurs nowhere. *)
Theorem kmp_first_occurrence s s_len p p_len next :
  0 ≤ s_len ≤ zlen s → 0 < p_len ≤ zlen p → p_len ≤ zlen next →
  ∃ next' r, get_kmp_next p next p_len = Done next' ∧ kmp_search s s_len p p_len next' = Done r ∧
    first_occurrence s s_len p p_len r.
Proof.
  intros Hs Hp Hn. destruct (get_kmp_next_ok p next p_len) as (next' & E & Hl & Hup); [lia..|].
  destruct (kmp_search_ok s s_len p p_len next') as (r & E' & Hr); [lia|lia|lia|done|]. by exists next', r.
Qed.

Lemma kmp_first_occurrence_witness :
  ∃ next' r, get_kmp_next [1; 2; 1; 3] [0; 0; 0; 0] 4 = Done next' ∧
    kmp_search [1; 2; 1; 2; 1; 3; 1] 7 [1; 2; 1; 3] 4 next' = Done r ∧
    first_occurrence [1; 2; 1; 2; 1; 3; 1] 7 [1; 2; 1; 3] 4 r.
Proof. apply kmp_first_occurrence; by vm_compute. Defined.
