(* ===== verification/ParseTable.v ===== *)
(** * parse.c: the table of parsers

    [parse_handler_table] (as built without RV_PARSE: rv_parse is not in the
    repository), the lookups in it, and [pitcher_parse], which runs the parser of
    the file's format.  The only state the parsers share is the static pointer of
    h264_parse.c, threaded through as [sps_ptr]. *)

From S2P Require Import Prelude Parser Codecs H264 Pixfmt.

(** The functions of the table. *)
Inductive handler :=
  | H_h264 | H_h265 | H_jpeg | H_h263 | H_spk | H_mpeg4 | H_mpeg2 | H_xvid | H_avs | H_vp8 | H_vp9
  | H_vc1l | H_vc1g | H_vp6 | H_divx.

(* C: pitcher/parse.c parse_handler 23-26 *)
Record parse_handler := Handler { ph_format : Z; handle_parse : option handler }.

(* C: pitcher/parse.c parse_handler_table 199-251 *)
Definition parse_handler_table : list parse_handler := [
  Handler PIX_FMT_H264 (Some H_h264);
  Handler PIX_FMT_H265 (Some H_h265);
  Handler PIX_FMT_JPEG (Some H_jpeg);
  Handler PIX_FMT_H263 (Some H_h263);
  Handler PIX_FMT_SPK (Some H_spk);
  Handler PIX_FMT_MPEG4 (Some H_mpeg4);
  Handler PIX_FMT_MPEG2 (Some H_mpeg2);
  Handler PIX_FMT_XVID (Some H_xvid);
  Handler PIX_FMT_AVS (Some H_avs);
  Handler PIX_FMT_VP8 (Some H_vp8);
  Handler PIX_FMT_VP9 (Some H_vp9);
  Handler PIX_FMT_VC1L (Some H_vc1l);
  Handler PIX_FMT_VC1G (Some H_vc1g);
  Handler PIX_FMT_VP6 (Some H_vp6);
  Handler PIX_FMT_DIVX (Some H_divx);
  Handler 0 None
].

(* C: pitcher/parse.c find_handler *)
Definition find_handler (fmt : Z) : option parse_handler :=
  List.find (λ h, ph_format h =? fmt) parse_handler_table.

(* C: pitcher/parse.c is_support_parser *)
Definition is_support_parser (fmt : Z) : bool :=
  match find_handler fmt with None => false | Some _ => true end.

Section parse.
(** The allocators of frames and of the private data of a parser, whether
    [char] is signed, and the bound for the loops of the ivf and rcv parsers. *)
Context (calloc_ok : nat → bool) (priv_ok cs : bool) (fuel : nat).

Definition call_parser (h : handler) (psps : sps_ptr) (p : option pitcher_parser)
    : outcome (Z * option pitcher_parser * sps_ptr) :=
  let stateless m := '(ret, p) ← m; Done (ret, p, psps) in
  match h with
  | H_h264 => h264_parse calloc_ok priv_ok psps p
  | H_h265 => stateless (h265_parse calloc_ok priv_ok p)
  | H_jpeg => stateless (jpeg_parse calloc_ok p)
  | H_h263 => stateless (h263_parse calloc_ok p)
  | H_spk => stateless (spk_parse calloc_ok p)
  | H_mpeg4 => stateless (mpeg4_parse calloc_ok p)
  | H_mpeg2 => stateless (mpeg2_parse calloc_ok p)
  | H_xvid => stateless (xvid_parse calloc_ok p)
  | H_avs => stateless (avs_parse calloc_ok p)
  | H_vp8 => stateless (vp8_parse calloc_ok cs fuel p)
  | H_vp9 => stateless (vp9_parse calloc_ok cs fuel p)
  | H_vc1l => stateless (vc1l_parse calloc_ok cs fuel p)
  | H_vc1g => stateless (vc1g_parse calloc_ok p)
  | H_vp6 => stateless (vp6_parse calloc_ok cs p)
  | H_divx => stateless (divx_parse calloc_ok p)
  end.

(** Calling a NULL pointer is undefined. *)
(* C: pitcher/parse.c pitcher_parse *)
Definition pitcher_parse (psps : sps_ptr) (p : option pitcher_parser)
    : outcome (Z * option pitcher_parser * sps_ptr) :=
  match p with
  | None => Done (- RET_E_INVAL, None, psps)
  | Some parser =>
      match find_handler (p_format parser) with
      | None => Done (- RET_E_NOT_SUPPORT, p, psps)
      | Some handler => h ← of_option (handle_parse handler); call_parser h psps p
      end
  end.

(** What the table is meant to be: one parser for each coded format, but none
    for RealVideo and none for raw pictures. *)
Definition parser_of (fmt : Z) : option handler :=
  if fmt =? PIX_FMT_H264 then Some H_h264 else if fmt =? PIX_FMT_H265 then Some H_h265
  else if fmt =? PIX_FMT_VP8 then Some H_vp8 else if fmt =? PIX_FMT_VP9 then Some H_vp9
  else if fmt =? PIX_FMT_VP6 then Some H_vp6 else if fmt =? PIX_FMT_VC1L then Some H_vc1l
  else if fmt =? PIX_FMT_VC1G then Some H_vc1g else if fmt =? PIX_FMT_XVID then Some H_xvid
  else if fmt =? PIX_FMT_DIVX then Some H_divx else if fmt =? PIX_FMT_MPEG4 then Some H_mpeg4
  else if fmt =? PIX_FMT_MPEG2 then Some H_mpeg2 else if fmt =? PIX_FMT_H263 then Some H_h263
  else if fmt =? PIX_FMT_AVS then Some H_avs else if fmt =? PIX_FMT_SPK then Some H_spk
  else if fmt =? PIX_FMT_JPEG then Some H_jpeg else None.

Lemma find_handler_eq fmt : find_handler fmt =
  match parser_of fmt with
  | Some h => Some (Handler fmt (Some h))
  | None => if fmt =? 0 then Some (Handler 0 None) else None
  end.
Proof.
  unfold find_handler, parser_of, parse_handler_table. cbn [List.find ph_format]. rewrite !(Z.eqb_sym _ fmt).
  repeat (match goal with |- context [fmt =? ?c] => destruct (Z.eqb_spec fmt c) as [->|] end; [reflexivity|]).
  reflexivity.
Qed.

(** [pitcher_parse] runs the parser of the format, if there is one.  A coded
    format other than RealVideo goes to its own parser, whose result and effects
    are those of the call; any other format is refused and nothing changes;
    except that format 0, which is [PIX_FMT_I420] and not a sentinel, is
    reported as supported and its NULL handler is called. *)
Theorem pitcher_parse_dispatch psps p :
  match parser_of (p_format p) with
  | Some h => is_support_parser (p_format p) = true ∧ pitcher_parse psps (Some p) = call_parser h psps (Some p)
  | None =>
      if p_format p =? PIX_FMT_I420 then is_support_parser (p_format p) = true ∧ pitcher_parse psps (Some p) = UB
      else is_support_parser (p_format p) = false ∧
        pitcher_parse psps (Some p) = Done (- RET_E_NOT_SUPPORT, Some p, psps)
  end ∧ pitcher_parse psps None = Done (- RET_E_INVAL, None, psps).
Proof.
  split; [|done]. unfold is_support_parser, pitcher_parse. rewrite find_handler_eq.
  destruct (parser_of (p_format p)) as [h|]; [done|]. change PIX_FMT_I420 with 0. by destruct (p_format p =? 0).
Qed.
End parse.
