(* ===== verification/Unit.v ===== *)
(** * unit.c: the units of a pipeline

    A unit owns a queue of idle buffers, takes buffers from its input pipe and
    pushes them to at most sixteen output pipes; its behaviour is in call-backs,
    here numbered functions that act on the whole state.  As in Pipe.v, a queue
    is away from its unit while it is walked. *)

From S2P Require Import Prelude Queue Buffer Pipe.

(* C: pitcher/unit.c MAX_UNIT_OUTPUT_COUNT 25-27 *)
Definition MAX_UNIT_OUTPUT_COUNT : Z := 16.

(** The call-backs of a unit, by number; 0 is NULL. *)
(* C: pitcher/pitcher.h pitcher_unit_desc 100-112 *)
Record pitcher_unit_desc := UnitDesc {
  ud_init : Z;
  ud_cleanup : Z;
  ud_alloc_buffer : Z;
  ud_start : Z;
  ud_stop : Z;
  ud_check_ready : Z;
  ud_runfunc : Z;
  ud_buffer_count : Z;
  ud_fd : Z;
  ud_events : Z
}.

(* C: pitcher/unit.c pitcher_unit 29-37 *)
Record pitcher_unit (Q : Type) := Unit {
  u_desc : pitcher_unit_desc;
  u_arg : Z;
  u_in : Z;
  u_outs : list Z;
  u_idles : option (Z * Q);
  u_buffer_count : Z;
  u_enable : bool
}.
Arguments Unit {Q}. Arguments u_desc {Q}. Arguments u_arg {Q}. Arguments u_in {Q}. Arguments u_outs {Q}.
Arguments u_idles {Q}. Arguments u_buffer_count {Q}. Arguments u_enable {Q}.

(** The units by address, and the rest of the program's state. *)
Record units (Q E : Type) := Units { e_units : gmap Z (pitcher_unit Q); u_rest : E }.
Arguments Units {Q E}. Arguments e_units {Q E}. Arguments u_rest {Q E}.

Section unit.
Context {Q E : Type} `{QueueOps Q}.
Abbreviation state := (world (pipes Q (units Q E))).
Abbreviation SM := (M (world (pipes Q (units Q E)))).
Context (alloc : nat → gset Z → option Z).
Context (call_plane : Z → pitcher_buf_ref → Z → M (world (pipes Q (units Q E))) (Z * pitcher_buf_ref)).
Context (call_recycle : Z → Z → M (world (pipes Q (units Q E))) bool).
Context (call_notify : Z → Z → M (world (pipes Q (units Q E))) unit).
(** The call-backs of [pitcher_unit_desc]: function and argument; for
    [check_ready] also the flag [is_end]; for [runfunc] the buffer. *)
Context (call_init call_cleanup call_start call_stop : Z → Z → M (world (pipes Q (units Q E))) Z).
Context (call_alloc_buffer : Z → Z → M (world (pipes Q (units Q E))) Z).
Context (call_check_ready : Z → Z → M (world (pipes Q (units Q E))) (Z * Z)).
Context (call_runfunc : Z → Z → Z → M (world (pipes Q (units Q E))) Z).

Definition set_units (f : gmap Z (pitcher_unit Q) → gmap Z (pitcher_unit Q)) (w : state) : state :=
  set_env (λ e, Pipes (e_pipes e) (Units (f (e_units (e_rest e))) (u_rest (e_rest e)))) w.
Definition get_unit (w : state) (u : Z) : option (pitcher_unit Q) := e_units (e_rest (w_env w)) !! u.

(** [assert(unit)], then the structure behind the pointer. *)
Definition load_unit (u : Z) : SM (pitcher_unit Q) := λ w,
  if u =? 0 then Trap else obind (λ x, Done (x, w)) (of_option (get_unit w u)).
Definition store_unit (u : Z) (x : pitcher_unit Q) : SM unit := modify (set_units (insert u x)).

Definition set_u_in p (x : pitcher_unit Q) := Unit (u_desc x) (u_arg x) p (u_outs x) (u_idles x) (u_buffer_count x) (u_enable x).
Definition set_u_outs l (x : pitcher_unit Q) := Unit (u_desc x) (u_arg x) (u_in x) l (u_idles x) (u_buffer_count x) (u_enable x).
Definition set_u_idles (i : option (Z * Q)) (x : pitcher_unit Q) := Unit (u_desc x) (u_arg x) (u_in x) (u_outs x) i (u_buffer_count x) (u_enable x).
Definition set_u_count n (x : pitcher_unit Q) := Unit (u_desc x) (u_arg x) (u_in x) (u_outs x) (u_idles x) n (u_enable x).
Definition set_u_enable b (x : pitcher_unit Q) := Unit (u_desc x) (u_arg x) (u_in x) (u_outs x) (u_idles x) (u_buffer_count x) b.

(** [SAFE_RELEASE(unit->idles, pitcher_destroy_queue)]. *)
Definition release_idles (u : Z) : SM unit :=
  x ← load_unit u;
  match u_idles x with
  | Some q => _ ← store_unit u (set_u_idles None x); delete_queue q
  | None => mret tt
  end.

(** [SAFE_RELEASE(unit, pitcher_free)]. *)
Definition free_unit (u : Z) : SM unit :=
  _ ← modify (set_units (delete u)); on_mem (pitcher_free (Some u)).

(* C: pitcher/unit.c pitcher_new_unit *)
Definition pitcher_new_unit (desc : option pitcher_unit_desc) (arg : Z) : SM Z :=
  match desc with
  | None => mret 0
  | Some desc =>
      if (ud_check_ready desc =? 0) || (ud_runfunc desc =? 0) then mret 0
      else
        u ← on_mem (_pitcher_calloc alloc);
        match u with
        | None => mret 0
        | Some u =>
            _ ← store_unit u (Unit desc arg 0 (replicate (Z.to_nat MAX_UNIT_OUTPUT_COUNT) 0) None 0 false);
            q ← new_queue alloc;
            x ← load_unit u;
            _ ← store_unit u (set_u_idles q x);
            let error := _ ← release_idles u; _ ← free_unit u; mret 0 in
            match q with
            | None => error
            | Some _ =>
                ret ← (if negb (ud_init desc =? 0) then call_init (ud_init desc) arg else mret 0);
                if ret <? 0 then error else mret u
            end
        end
  end.

(* C: pitcher/unit.c __clear_buffer *)
Definition __clear_buffer (item : Z) (w : state) : outcome (bool * state) :=
  obind (λ '(_, w), Done (true, w)) ((if item =? 0 then mret tt else put_buffer call_plane call_recycle item) w).

(* C: pitcher/unit.c __del_buffer_func *)
Definition __del_buffer_func (item : Z) (w : state) : outcome (bool * state) :=
  obind (λ '(_, w), Done (true, w)) ((if item =? 0 then mret tt else put_buffer call_plane call_recycle item) w).

(** Emptying the idle queue with a call-back. *)
Definition clear_idles (func : Z → state → outcome (bool * state)) (u : Z) : SM unit :=
  x ← load_unit u;
  match u_idles x with
  | None => mret tt
  | Some (a, q) =>
      _ ← store_unit u (set_u_idles None x);
      q ← (λ w, queue_clear (Some func) q w);
      x ← load_unit u;
      store_unit u (set_u_idles (Some (a, q)) x)
  end.

(* C: pitcher/unit.c pitcher_del_unit *)
Definition pitcher_del_unit (u : Z) : SM unit :=
  if u =? 0 then mret tt
  else
    x ← load_unit u;
    _ ← (if negb (ud_cleanup (u_desc x) =? 0) then call_cleanup (ud_cleanup (u_desc x)) (u_arg x) else mret 0);
    _ ← clear_idles __clear_buffer u;
    _ ← release_idles u;
    free_unit u.

(* C: pitcher/unit.c pitcher_set_unit_input *)
Definition pitcher_set_unit_input (u p : Z) : SM Z :=
  x ← load_unit u; _ ← store_unit u (set_u_in p x); mret RET_OK.

(** The slot of the first free output. *)
Fixpoint add_output (outs : list Z) (p : Z) : option (list Z) :=
  match outs with
  | [] => None
  | o :: outs => if o =? 0 then Some (p :: outs) else cons o <$> add_output outs p
  end.

(* C: pitcher/unit.c pitcher_add_unit_output *)
Definition pitcher_add_unit_output (u p : Z) : SM Z :=
  x ← load_unit u;
  if bool_decide (p ∈ u_outs x) then mret RET_OK
  else match add_output (u_outs x) p with
       | Some outs => _ ← store_unit u (set_u_outs outs x); mret RET_OK
       | None => mret (- RET_E_FULL)
       end.

(* C: pitcher/unit.c pitcher_rm_unit_output *)
Definition pitcher_rm_unit_output (u p : Z) : SM Z :=
  x ← load_unit u;
  _ ← store_unit u (set_u_outs (List.map (λ o, if o =? p then 0 else o) (u_outs x)) x);
  mret RET_OK.

(** The buffers of a unit, made one by one; how many there were is counted.
    Whether the queue takes a buffer is not looked at. *)
(* C: pitcher/unit.c __alloc_buffer 155-160 *)
Fixpoint alloc_buffers (n : nat) (u : Z) (i : Z) : SM Z :=
  match n with
  | O => mret i
  | S n =>
      x ← load_unit u;
      b ← call_alloc_buffer (ud_alloc_buffer (u_desc x)) (u_arg x);
      if b =? 0 then mret i
      else
        x ← load_unit u;
        '(a, q) ← lift (of_option (u_idles x));
        '(_, q) ← lift (queue_push_back q b);
        _ ← store_unit u (set_u_idles (Some (a, q)) x);
        alloc_buffers n u (i + 1)
  end.

(* C: pitcher/unit.c __alloc_buffer *)
Definition __alloc_buffer (u : Z) : SM Z :=
  x ← load_unit u;
  if ud_buffer_count (u_desc x) =? 0 then mret RET_OK
  else if ud_alloc_buffer (u_desc x) =? 0 then mret (- RET_E_NOSYS)
  else
    i ← alloc_buffers (Z.to_nat (ud_buffer_count (u_desc x))) u 0;
    x ← load_unit u;
    _ ← store_unit u (set_u_count i x);
    if i =? 0 then mret (- RET_E_NO_MEMORY) else mret RET_OK.

(* C: pitcher/unit.c __free_buffer *)
Definition __free_buffer (u : Z) : SM Z :=
  x ← load_unit u;
  if u_buffer_count x =? 0 then mret RET_OK
  else _ ← clear_idles __del_buffer_func u; mret RET_OK.

(* C: pitcher/unit.c __clear_input_buffer *)
Definition __clear_input_buffer (u : Z) : SM Z :=
  x ← load_unit u;
  if u_in x =? 0 then mret RET_OK else pitcher_pipe_clear call_plane call_recycle (u_in x).

(* C: pitcher/unit.c pitcher_unit_start *)
Definition pitcher_unit_start (u : Z) : SM Z :=
  _ ← load_unit u;
  ret ← __alloc_buffer u;
  if ret <? 0 then mret ret
  else
    x ← load_unit u;
    ret ← (if negb (ud_start (u_desc x) =? 0) then call_start (ud_start (u_desc x)) (u_arg x) else mret RET_OK);
    if ret <? 0 then _ ← __free_buffer u; mret ret
    else x ← load_unit u; _ ← store_unit u (set_u_enable true x); mret ret.

(* C: pitcher/unit.c pitcher_unit_stop *)
Definition pitcher_unit_stop (u : Z) : SM Z :=
  x ← load_unit u;
  ret ← (if negb (ud_stop (u_desc x) =? 0) then call_stop (ud_stop (u_desc x)) (u_arg x) else mret RET_OK);
  if ret <? 0 then mret ret
  else
    x ← load_unit u;
    _ ← store_unit u (set_u_enable false x);
    ret ← __free_buffer u;
    _ ← __clear_input_buffer u;
    mret ret.

(** The result and the flag stored through [is_end]. *)
(* C: pitcher/unit.c pitcher_unit_check_ready *)
Definition pitcher_unit_check_ready (u : Z) : SM (Z * Z) :=
  x ← load_unit u;
  _ ← lift (assert_ (negb (ud_check_ready (u_desc x) =? 0)));
  call_check_ready (ud_check_ready (u_desc x)) (u_arg x).

(* C: pitcher/unit.c pitcher_unit_run *)
Definition pitcher_unit_run (u : Z) : SM Z :=
  x ← load_unit u;
  _ ← lift (assert_ (negb (ud_runfunc (u_desc x) =? 0)));
  if negb (u_enable x) then mret (- RET_E_NOT_READY)
  else
    buffer ← (if negb (u_in x =? 0) then pitcher_pipe_pop (u_in x) else mret 0);
    ret ← call_runfunc (ud_runfunc (u_desc x)) (u_arg x) buffer;
    _ ← (if buffer =? 0 then mret tt else put_buffer call_plane call_recycle buffer);
    mret ret.

(** [assert(unit && unit->idles)]. *)
Definition load_idles (u : Z) : SM (pitcher_unit Q * (Z * Q)) :=
  x ← load_unit u;
  match u_idles x with Some q => mret (x, q) | None => lift Trap end.

(* C: pitcher/unit.c pitcher_is_unit_idle_empty *)
Definition pitcher_is_unit_idle_empty (u : Z) : SM bool :=
  '(_, (_, q)) ← load_idles u; lift (queue_is_empty q).

(* C: pitcher/unit.c pitcher_get_unit_idle_buffer *)
Definition pitcher_get_unit_idle_buffer (u : Z) : SM Z :=
  '(x, (a, q)) ← load_idles u;
  '(ret, item, q) ← lift (queue_pop q);
  _ ← store_unit u (set_u_idles (Some (a, q)) x);
  if ret <? 0 then mret 0 else lift (of_option item).

(* C: pitcher/unit.c pitcher_put_unit_buffer_idle *)
Definition pitcher_put_unit_buffer_idle (u buffer : Z) : SM unit :=
  '(x, (a, q)) ← load_idles u;
  if negb (u_enable x) then mret tt
  else if buffer =? 0 then mret tt
  else
    _ ← pitcher_get_buffer buffer;
    '(_, q) ← lift (queue_push_back q buffer);
    store_unit u (set_u_idles (Some (a, q)) x).

(** Slot [i] and the ones after it; the structure is read at each turn. *)
(* C: pitcher/unit.c pitcher_unit_push_back_output 343-347 *)
Fixpoint push_outputs (n : nat) (u i buffer : Z) : SM unit :=
  match n with
  | O => mret tt
  | S n =>
      x ← load_unit u;
      o ← lift (loadz (u_outs x) i);
      _ ← (if o =? 0 then mret 0 else pitcher_pipe_push_back call_notify o buffer);
      push_outputs n u (i + 1) buffer
  end.

(* C: pitcher/unit.c pitcher_unit_push_back_output *)
Definition pitcher_unit_push_back_output (u buffer : Z) : SM unit :=
  _ ← load_unit u;
  if buffer =? 0 then mret tt else push_outputs (Z.to_nat MAX_UNIT_OUTPUT_COUNT) u 0 buffer.

(* C: pitcher/unit.c pitcher_get_unit_source *)
Definition pitcher_get_unit_source (u : Z) : SM Z := x ← load_unit u; mret (u_in x).
End unit.
