(* ===== verification/Loop.v ===== *)
(** * loop.c: the polling loop of pitcher

    A loop calls timer tasks whose interval has passed and the owners of file
    descriptors that are ready or have waited long enough.  Loops, their nodes,
    the tasks and the descriptors they refer to live in a store; the clock,
    epoll and the threads are the system's ([LoopOs]).  A queue is away from its
    loop while it is walked: a call-back that came back to it is undefined here,
    which says nothing about what the C code does then. *)

From S2P Require Import Prelude Queue Buffer Pipe.

(** ** Queues inside other structures *)

(** A pointer to a queue: NULL, a queue that is being walked, or the queue at
    address [a]. *)
Inductive queue_ref (Q : Type) := QNull | QAway | QHere (a : Z) (q : Q).
Arguments QNull {Q}. Arguments QAway {Q}. Arguments QHere {Q}.

(** ** Data *)

(* C: pitcher/loop.c LOOP_TIMEOUT_DEFAULT 28-28 *)
Definition LOOP_TIMEOUT_DEFAULT : Z := 1.
(** [__SIGRTMIN] is 32. *)
(* C: pitcher/loop.c SIG_TERM_LOOP 29-29 *)
Definition SIG_TERM_LOOP : Z := 32 + 256.
(* C: pitcher/pitcher_def.h NSEC_PER_MSEC 114-116 *)
Definition NSEC_PER_MSEC : Z := 1000000.

Definition EPOLL_CTL_ADD : Z := 1.
Definition EPOLL_CTL_DEL : Z := 2.
Definition F_GETFD : Z := 1.
Definition FD_CLOEXEC : Z := 1.

(** Call-backs are numbers; 0 is NULL. *)
(* C: pitcher/loop.h pitcher_poll_fd 25-31 *)
Record pitcher_poll_fd := PollFd {
  pf_func : Z;
  pf_fd : Z;
  pf_events : Z;
  pf_timeout : Z;
  pf_priv : Z
}.

(* C: pitcher/loop.h pitcher_timer_task 33-38 *)
Record pitcher_timer_task := TimerTask {
  tt_func : Z;
  tt_priv : Z;
  tt_interval : Z;
  tt_times : Z
}.

(* C: pitcher/loop.c pitcher_loop_t 31-43 *)
Record pitcher_loop_t (Q : Type) := LoopT {
  lp_epoll_fd : Z;
  lp_running : Z;
  lp_pools : queue_ref Q;
  lp_tasks : queue_ref Q;
  lp_timeout : Z;
  lp_tid : Z;
  lp_tv : Z;
  lp_left_time : Z
}.
Arguments LoopT {Q}. Arguments lp_epoll_fd {Q}. Arguments lp_running {Q}. Arguments lp_pools {Q}.
Arguments lp_tasks {Q}. Arguments lp_timeout {Q}. Arguments lp_tid {Q}. Arguments lp_tv {Q}. Arguments lp_left_time {Q}.

(* C: pitcher/loop.c pitcher_loop_node 45-51 *)
Record pitcher_loop_node := LoopNode {
  n_key : Z;
  n_tv : Z;
  n_timeout : Z;
  n_times : Z;
  n_loop : Z
}.

(** The loops, nodes, tasks and descriptors by address, and the state of the
    system. *)
Record loops (Q O : Type) := Loops {
  ls_loops : gmap Z (pitcher_loop_t Q);
  ls_nodes : gmap Z pitcher_loop_node;
  ls_tasks : gmap Z pitcher_timer_task;
  ls_pfds : gmap Z pitcher_poll_fd;
  ls_os : O
}.
Arguments Loops {Q O}. Arguments ls_loops {Q O}. Arguments ls_nodes {Q O}. Arguments ls_tasks {Q O}.
Arguments ls_pfds {Q O}. Arguments ls_os {Q O}.

(** ** The system

    An event is its set of conditions and the pointer registered with the
    descriptor. *)
Class LoopOs (O : Type) := {
  os_time : O → Z * O;
  os_epoll_create : Z → O → Z * O;
  os_epoll_ctl : Z → Z → Z → option (Z * Z) → O → Z * O;
  os_epoll_wait : Z → Z → Z → O → Z * list (Z * Z) * O;
  os_fcntl : Z → Z → Z → O → Z * O;
  os_close : Z → O → O;
  os_gettid : O → Z * O;
  os_kill : Z → Z → O → O;
  os_usleep : Z → O → O
}.

(** A state that has loops in it. *)
Class HasLoops (Q O E : Type) := {
  the_loops : E → loops Q O;
  put_loops : loops Q O → E → E;
  the_put x e : the_loops (put_loops x e) = x;
  put_put x y e : put_loops x (put_loops y e) = put_loops x e;
  put_the e : put_loops (the_loops e) e = e
}.

(** A state that is nothing but loops. *)
#[export] Instance loops_has_loops Q O : HasLoops Q O (loops Q O) := {
  the_loops e := e;
  put_loops x _ := x;
  the_put _ _ := eq_refl;
  put_put _ _ _ := eq_refl;
  put_the _ := eq_refl
}.

(** ** Operations *)

Section loop.
Context {Q O E : Type} `{!QueueOps Q} `{!LoopOs O} `{!HasLoops Q O E}.
Abbreviation state := (world (pipes Q E)).
Abbreviation SM := (M (world (pipes Q E))).
Context (alloc : nat → gset Z → option Z).
(** A task's function, and a descriptor's with the events; the answer is what
    they store through [del]. *)
Context (call_task : Z → Z → M (world (pipes Q E)) Z).
Context (call_poll : Z → Z → Z → M (world (pipes Q E)) Z).

Definition loops_of (w : state) : loops Q O := the_loops (e_rest (w_env w)).
Definition on_loops (f : loops Q O → loops Q O) (w : state) : state :=
  set_env (λ e, Pipes (e_pipes e) (put_loops (f (the_loops (e_rest e))) (e_rest e))) w.

Definition set_loops (f : gmap Z (pitcher_loop_t Q) → gmap Z (pitcher_loop_t Q)) (x : loops Q O) := Loops (f (ls_loops x)) (ls_nodes x) (ls_tasks x) (ls_pfds x) (ls_os x).
Definition set_nodes f (x : loops Q O) := Loops (ls_loops x) (f (ls_nodes x)) (ls_tasks x) (ls_pfds x) (ls_os x).
Definition set_tasks f (x : loops Q O) := Loops (ls_loops x) (ls_nodes x) (f (ls_tasks x)) (ls_pfds x) (ls_os x).
Definition set_pfds f (x : loops Q O) := Loops (ls_loops x) (ls_nodes x) (ls_tasks x) (f (ls_pfds x)) (ls_os x).
Definition set_os (o : O) (x : loops Q O) := Loops (ls_loops x) (ls_nodes x) (ls_tasks x) (ls_pfds x) o.

(** A call of the system. *)
Definition sys {A} (f : O → A * O) : SM A := λ w,
  let '(a, o) := f (ls_os (loops_of w)) in Done (a, on_loops (set_os o) w).

(** [assert(loop)], then the structure. *)
Definition load_loop (l : Z) : SM (pitcher_loop_t Q) := λ w,
  if l =? 0 then Trap else obind (λ x, Done (x, w)) (of_option (ls_loops (loops_of w) !! l)).
Definition store_loop (l : Z) (x : pitcher_loop_t Q) : SM unit := modify (on_loops (set_loops (insert l x))).
Definition load_node (n : Z) : SM pitcher_loop_node := λ w,
  obind (λ x, Done (x, w)) (of_option (ls_nodes (loops_of w) !! n)).
Definition store_node (n : Z) (x : pitcher_loop_node) : SM unit := modify (on_loops (set_nodes (insert n x))).
Definition load_task (t : Z) : SM pitcher_timer_task := λ w,
  obind (λ x, Done (x, w)) (of_option (ls_tasks (loops_of w) !! t)).
Definition store_task (t : Z) (x : pitcher_timer_task) : SM unit := modify (on_loops (set_tasks (insert t x))).
Definition load_pfd (p : Z) : SM pitcher_poll_fd := λ w,
  obind (λ x, Done (x, w)) (of_option (ls_pfds (loops_of w) !! p)).
Definition store_pfd (p : Z) (x : pitcher_poll_fd) : SM unit := modify (on_loops (set_pfds (insert p x))).

Definition set_running r (x : pitcher_loop_t Q) := LoopT (lp_epoll_fd x) r (lp_pools x) (lp_tasks x) (lp_timeout x) (lp_tid x) (lp_tv x) (lp_left_time x).
Definition set_epoll_fd fd (x : pitcher_loop_t Q) := LoopT fd (lp_running x) (lp_pools x) (lp_tasks x) (lp_timeout x) (lp_tid x) (lp_tv x) (lp_left_time x).
Definition set_pools (q : queue_ref Q) (x : pitcher_loop_t Q) := LoopT (lp_epoll_fd x) (lp_running x) q (lp_tasks x) (lp_timeout x) (lp_tid x) (lp_tv x) (lp_left_time x).
Definition set_task_queue (q : queue_ref Q) (x : pitcher_loop_t Q) := LoopT (lp_epoll_fd x) (lp_running x) (lp_pools x) q (lp_timeout x) (lp_tid x) (lp_tv x) (lp_left_time x).
Definition set_loop_time t (x : pitcher_loop_t Q) := LoopT (lp_epoll_fd x) (lp_running x) (lp_pools x) (lp_tasks x) t (lp_tid x) (lp_tv x) (lp_left_time x).
Definition set_tid t (x : pitcher_loop_t Q) := LoopT (lp_epoll_fd x) (lp_running x) (lp_pools x) (lp_tasks x) (lp_timeout x) t (lp_tv x) (lp_left_time x).
Definition set_clock left tv (x : pitcher_loop_t Q) := LoopT (lp_epoll_fd x) (lp_running x) (lp_pools x) (lp_tasks x) (lp_timeout x) (lp_tid x) tv left.
Definition set_left_time left (x : pitcher_loop_t Q) := set_clock left (lp_tv x) x.

Definition set_n_tv v (x : pitcher_loop_node) := LoopNode (n_key x) v (n_timeout x) (n_times x) (n_loop x).
Definition set_n_timeout v (x : pitcher_loop_node) := LoopNode (n_key x) (n_tv x) v (n_times x) (n_loop x).
Definition set_n_times v (x : pitcher_loop_node) := LoopNode (n_key x) (n_tv x) (n_timeout x) v (n_loop x).

Definition change_loop (l : Z) (f : pitcher_loop_t Q → pitcher_loop_t Q) : SM unit :=
  x ← load_loop l; store_loop l (f x).
Definition change_node (n : Z) (f : pitcher_loop_node → pitcher_loop_node) : SM unit :=
  x ← load_node n; store_node n (f x).

(** [SAFE_RELEASE(node, pitcher_free)]. *)
Definition free_node (n : Z) : SM unit :=
  _ ← modify (on_loops (set_nodes (delete n))); on_mem (pitcher_free (Some n)).

(** Walking a queue that sits in a structure: [q] reads it, [put] stores it. *)
Definition walk_queue (q : SM (queue_ref Q)) (put : queue_ref Q → SM unit)
    (walk : Q → state → outcome (Q * state)) : SM unit :=
  r ← q;
  match r with
  | QNull => mret tt
  | QAway => lift UB
  | QHere a q => _ ← put QAway; q ← (λ w, walk q w); put (QHere a q)
  end.

Definition push_queue (q : SM (queue_ref Q)) (put : queue_ref Q → SM unit) (item : Z) : SM Z :=
  r ← q;
  match r with
  | QNull => mret (- RET_E_NULL_POINTER)
  | QAway => lift UB
  | QHere a q => '(ret, q) ← lift (queue_push_back q item); _ ← put (QHere a q); mret ret
  end.

(** [SAFE_RELEASE(queue, pitcher_destroy_queue)]. *)
Definition release_queue (q : SM (queue_ref Q)) (put : queue_ref Q → SM unit) : SM unit :=
  r ← q;
  match r with
  | QNull => mret tt
  | QAway => lift UB
  | QHere a q => _ ← delete_queue (a, q); put QNull
  end.

Definition make_queue : SM (queue_ref Q) :=
  q ← new_queue alloc; mret (match q with Some (a, q) => QHere a q | None => QNull end).

Definition get_pools l : SM (queue_ref Q) := x ← load_loop l; mret (lp_pools x).
Definition put_pools l q : SM unit := change_loop l (set_pools q).
Definition get_tasks l : SM (queue_ref Q) := x ← load_loop l; mret (lp_tasks x).
Definition put_tasks l q : SM unit := change_loop l (set_task_queue q).

(* C: pitcher/loop.c __set_loop_status *)
Definition __set_loop_status (l status : Z) : SM unit := change_loop l (set_running status).

(* C: pitcher/loop.c __set_loop_timeout *)
Definition __set_loop_timeout (l timeout : Z) : SM unit := change_loop l (set_loop_time timeout).

(* C: pitcher/loop.c __free_poll_node *)
Definition __free_poll_node (node : Z) : SM unit :=
  if node =? 0 then mret tt
  else
    x ← load_node node;
    _ ← (if negb (n_loop x =? 0) && negb (n_key x =? 0) then
           loop ← load_loop (n_loop x);
           pfd ← load_pfd (n_key x);
           _ ← sys (os_epoll_ctl (lp_epoll_fd loop) EPOLL_CTL_DEL (pf_fd pfd) None);
           mret tt
         else mret tt);
    free_node node.

(* C: pitcher/loop.c __del_task *)
Definition __del_task (key item : Z) : SM bool :=
  if item =? 0 then mret true
  else
    node ← load_node item;
    if negb (key =? 0) && negb (n_key node =? key) then mret false
    else _ ← free_node item; mret true.

(* C: pitcher/loop.c __del_poll *)
Definition __del_poll (key item : Z) : SM bool :=
  if item =? 0 then mret true
  else
    node ← load_node item;
    if negb (key =? 0) && negb (n_key node =? key) then mret false
    else _ ← __free_poll_node item; mret true.

(** Whole milliseconds since the node was last looked at. *)
(* C: pitcher/loop.c __timer_func 130-130 *)
Definition delta (tv : Z) (node : pitcher_loop_node) : Z := u64 (tv - n_tv node) / NSEC_PER_MSEC.

(* C: pitcher/loop.c __timer_func 145-147 *)
Definition lower_left_time (l item : Z) : SM unit :=
  node ← load_node item;
  loop ← load_loop l;
  if n_timeout node <? lp_left_time loop then store_loop l (set_left_time (n_timeout node) loop) else mret tt.

(* C: pitcher/loop.c __timer_func *)
Definition __timer_func (l item : Z) : SM bool :=
  if l =? 0 then mret false
  else if item =? 0 then mret true
  else
    node ← load_node item;
    if n_key node =? 0 then _ ← free_node item; mret true
    else
      let key := n_key node in
      task ← load_task key;
      loop ← load_loop l;
      let delta := delta (lp_tv loop) node in
      _ ← store_node item (set_n_tv (lp_tv loop) node);
      is_del ←
        (if (tt_interval task =? 0) || (n_timeout node <=? delta) then
           _ ← change_node item (set_n_timeout (tt_interval task));
           _ ← change_node item (λ n, if 0 <? n_times n then set_n_times (n_times n - 1) n else n);
           if tt_func task =? 0 then mret 0 else call_task (tt_func task) key
         else _ ← change_node item (λ n, set_n_timeout (u32 (n_timeout n - delta)) n); mret 0);
      dead ← (if negb (is_del =? 0) then mret true else node ← load_node item; mret (n_times node =? 0));
      if (dead : bool) then _ ← free_node item; mret true
      else _ ← lower_left_time l item; mret false.

(* C: pitcher/loop.c __process_timer *)
Definition __process_timer (l : Z) : SM Z :=
  _ ← walk_queue (get_tasks l) (put_tasks l) (queue_enumerate (__timer_func l)); mret RET_OK.

(* C: pitcher/loop.c __epoll_func *)
Definition __epoll_func (l item : Z) : SM bool :=
  if l =? 0 then mret false
  else if item =? 0 then mret true
  else
    node ← load_node item;
    if n_key node =? 0 then _ ← free_node item; mret true
    else
      let key := n_key node in
      pfd ← load_pfd key;
      loop ← load_loop l;
      let delta := delta (lp_tv loop) node in
      _ ← store_node item (set_n_tv (lp_tv loop) node);
      is_del ←
        (if n_timeout node <=? delta then
           _ ← change_node item (set_n_timeout (pf_timeout pfd));
           if pf_func pfd =? 0 then mret 0 else call_poll (pf_func pfd) key 0
         else _ ← change_node item (λ n, set_n_timeout (u32 (n_timeout n - delta)) n); mret 0);
      if negb (is_del =? 0) then _ ← __free_poll_node item; mret true
      else _ ← lower_left_time l item; mret false.

(* C: pitcher/loop.c __process_poll 202-202 *)
Definition ECOUNT : Z := 3.

(** The events [epoll_wait] returned, in order; [n] of them are looked at. *)
(* C: pitcher/loop.c __process_poll 209-225 *)
Fixpoint process_events (n : nat) (l i : Z) (events : list (Z * Z)) : SM unit :=
  match n with
  | 0%nat => mret tt
  | S n =>
      '(revents, item) ← lift (loadz events i);
      _ ← (if item =? 0 then mret tt
           else
             node ← load_node item;
             if n_key node =? 0 then mret tt
             else
               let key := n_key node in
               pfd ← load_pfd key;
               is_del ← (if pf_func pfd =? 0 then mret 0 else call_poll (pf_func pfd) key revents);
               if negb (is_del =? 0)
               then walk_queue (get_pools l) (put_pools l) (queue_enumerate (__del_poll key))
               else mret tt);
      process_events n l (i + 1) events
  end.

(* C: pitcher/loop.c __process_poll *)
Definition __process_poll (l : Z) : SM Z :=
  _ ← walk_queue (get_pools l) (put_pools l) (queue_enumerate (__epoll_func l));
  loop ← load_loop l;
  '(nfds, events) ← sys (os_epoll_wait (lp_epoll_fd loop) ECOUNT (s32 (lp_left_time loop)));
  _ ← process_events (Z.to_nat nfds) l 0 events;
  mret RET_OK.

(* C: pitcher/loop.c __pre_process *)
Definition __pre_process (l : Z) : SM Z :=
  _ ← change_loop l (λ x, set_left_time (lp_timeout x) x);
  tv ← sys os_time;
  _ ← change_loop l (λ x, set_clock (lp_left_time x) tv x);
  mret RET_OK.

(* C: pitcher/loop.c __post_process *)
Definition __post_process (l : Z) : SM Z := mret RET_OK.

(** [SAFE_CLOSE(loop->epoll_fd, close); SAFE_RELEASE(loop, pitcher_free)] and
    what comes before them. *)
Definition free_loop (l : Z) : SM unit :=
  _ ← release_queue (get_pools l) (put_pools l);
  _ ← release_queue (get_tasks l) (put_tasks l);
  loop ← load_loop l;
  _ ← (if 0 <=? lp_epoll_fd loop then sys (λ o, (tt, os_close (lp_epoll_fd loop) o)) else mret tt);
  _ ← modify (on_loops (set_loops (delete l)));
  on_mem (pitcher_free (Some l)).

(** The result of the first [fcntl] is the command of the second, as it is
    written. *)
(* C: pitcher/loop.c pitcher_open_loop *)
Definition pitcher_open_loop : SM Z :=
  loop ← on_mem (_pitcher_calloc alloc);
  match loop with
  | None => mret 0
  | Some l =>
      let error := _ ← free_loop l; mret 0 in
      _ ← store_loop l (LoopT (-1) 0 QNull QNull 0 0 0 0);
      fd ← sys (os_epoll_create 1);
      _ ← change_loop l (set_epoll_fd fd);
      if fd =? 0 then error
      else
        flags ← sys (os_fcntl fd F_GETFD 0);
        let flags := Z.lor (u32 flags) FD_CLOEXEC in
        ret ← sys (os_fcntl fd (s32 flags) 0);
        if ret =? -1 then error
        else
          q ← make_queue;
          _ ← put_pools l q;
          match q with
          | QNull => error
          | _ =>
              q ← make_queue;
              _ ← put_tasks l q;
              match q with
              | QNull => error
              | _ =>
                  _ ← __set_loop_status l 0;
                  _ ← __set_loop_timeout l LOOP_TIMEOUT_DEFAULT;
                  mret l
              end
          end
  end.

(** [assert(loop); assert(loop->epoll_fd >= 0)]. *)
Definition assert_loop (l : Z) : SM (pitcher_loop_t Q) :=
  x ← load_loop l; _ ← lift (assert_ (0 <=? lp_epoll_fd x)); mret x.

(* C: pitcher/loop.c pitcher_close_loop *)
Definition pitcher_close_loop (l : Z) : SM unit :=
  loop ← assert_loop l;
  _ ← lift (assert_ (lp_running loop =? 0));
  _ ← walk_queue (get_tasks l) (put_tasks l) (queue_clear (Some (__del_task 0)));
  _ ← walk_queue (get_pools l) (put_pools l) (queue_clear (Some (__del_poll 0)));
  free_loop l.

(* C: pitcher/loop.c pitcher_loop_start *)
Definition pitcher_loop_start (l : Z) : SM Z :=
  _ ← assert_loop l; _ ← __set_loop_status l 1; mret RET_OK.

(* C: pitcher/loop.c pitcher_loop_stop *)
Definition pitcher_loop_stop (l : Z) : SM Z :=
  loop ← assert_loop l;
  _ ← __set_loop_status l 0;
  _ ← (if lp_tid loop =? 0 then mret tt
       else
         tid ← sys os_gettid;
         if lp_tid loop =? tid then mret tt
         else sys (λ o, (tt, os_kill (lp_tid loop) SIG_TERM_LOOP o)));
  mret RET_OK.

(** One turn of the loop. *)
(* C: pitcher/loop.c pitcher_loop_run 336-341 *)
Definition loop_turn (l : Z) : SM unit :=
  _ ← __pre_process l;
  _ ← __process_timer l;
  _ ← __process_poll l;
  _ ← __post_process l;
  mret tt.

(* C: pitcher/loop.c pitcher_loop_run 336-341 *)
Fixpoint loop_turns (fuel : nat) (l : Z) : SM unit :=
  loop ← load_loop l;
  if lp_running loop =? 0 then mret tt
  else match fuel with
       | 0%nat => lift NoFuel
       | S fuel => _ ← loop_turn l; loop_turns fuel l
       end.

(* C: pitcher/loop.c pitcher_loop_run *)
Definition pitcher_loop_run (fuel : nat) (l : Z) : SM Z :=
  _ ← assert_loop l;
  tid ← sys os_gettid;
  _ ← change_loop l (set_tid tid);
  _ ← sys (λ o, (tt, os_usleep 1000 o));
  _ ← loop_turns fuel l;
  _ ← change_loop l (set_tid 0);
  mret RET_OK.

(* C: pitcher/loop.c pitcher_loop_add_poll_fd *)
Definition pitcher_loop_add_poll_fd (l fd : Z) : SM Z :=
  loop ← assert_loop l;
  if fd =? 0 then mret (- RET_E_INVAL)
  else
    pfd ← load_pfd fd;
    if (pf_func pfd =? 0) || (pf_fd pfd <? 0) || (pf_events pfd =? 0) then mret (- RET_E_INVAL)
    else
      let pfd := if pf_timeout pfd =? 0
        then PollFd (pf_func pfd) (pf_fd pfd) (pf_events pfd) LOOP_TIMEOUT_DEFAULT (pf_priv pfd) else pfd in
      _ ← store_pfd fd pfd;
      node ← on_mem (_pitcher_calloc alloc);
      match node with
      | None => mret (- RET_E_NO_MEMORY)
      | Some node =>
          tv ← sys os_time;
          _ ← store_node node (LoopNode fd tv (pf_timeout pfd) 0 l);
          ret ← sys (os_epoll_ctl (lp_epoll_fd loop) EPOLL_CTL_ADD (pf_fd pfd) (Some (pf_events pfd, node)));
          if ret <? 0 then _ ← free_node node; mret (- RET_E_INVAL)
          else
            ret ← push_queue (get_pools l) (put_pools l) node;
            if ret <? 0 then _ ← free_node node; mret ret
            else mret RET_OK
      end.

(* C: pitcher/loop.c pitcher_loop_del_poll_fd *)
Definition pitcher_loop_del_poll_fd (l fd : Z) : SM Z :=
  _ ← assert_loop l;
  _ ← walk_queue (get_pools l) (put_pools l) (queue_enumerate (__del_poll fd));
  mret RET_OK.

(* C: pitcher/loop.c pitcher_loop_add_task *)
Definition pitcher_loop_add_task (l task : Z) : SM Z :=
  _ ← assert_loop l;
  if task =? 0 then mret (- RET_E_INVAL)
  else
    t ← load_task task;
    if tt_func t =? 0 then mret (- RET_E_INVAL)
    else
      node ← on_mem (_pitcher_calloc alloc);
      match node with
      | None => mret (- RET_E_NO_MEMORY)
      | Some node =>
          let t := if tt_interval t =? 0
            then TimerTask (tt_func t) (tt_priv t) LOOP_TIMEOUT_DEFAULT (tt_times t) else t in
          _ ← store_task task t;
          tv ← sys os_time;
          _ ← store_node node (LoopNode task tv (tt_interval t) (tt_times t) l);
          ret ← push_queue (get_tasks l) (put_tasks l) node;
          if ret <? 0 then _ ← free_node node; mret ret
          else mret RET_OK
      end.

(* C: pitcher/loop.c pitcher_loop_del_task *)
Definition pitcher_loop_del_task (l task : Z) : SM Z :=
  _ ← assert_loop l;
  _ ← walk_queue (get_tasks l) (put_tasks l) (queue_enumerate (__del_task task));
  mret RET_OK.
End loop.

(** ** The contract of the system

    [os_interest] is the interest list of an epoll instance: what was
    registered for each descriptor. *)
Class LoopOsSpec (O : Type) `{!LoopOs O} := {
  os_interest : Z → O → gmap Z (Z * Z);
  time_ok o : 0 ≤ (os_time o).1 < 2 ^ 64 ∧ ∀ e, os_interest e (os_time o).2 = os_interest e o;
  epoll_create_ok n o : (os_epoll_create n o).1 < 0 ∨
    os_interest (os_epoll_create n o).1 (os_epoll_create n o).2 = ∅;
  fcntl_ok fd c a o : (fd < 0 → (os_fcntl fd c a o).1 = -1) ∧
    ∀ e, os_interest e (os_fcntl fd c a o).2 = os_interest e o;
  epoll_add_ok e fd v o :
    let '(ret, o') := os_epoll_ctl e EPOLL_CTL_ADD fd (Some v) o in
    ret = 0 ∧ os_interest e o !! fd = None ∧ os_interest e o' = <[fd := v]> (os_interest e o) ∨
    ret = -1 ∧ os_interest e o' = os_interest e o;
  epoll_del_ok e fd o :
    os_interest e (os_epoll_ctl e EPOLL_CTL_DEL fd None o).2 = delete fd (os_interest e o);
  epoll_wait_ok e n t o :
    let '(nfds, events, o') := os_epoll_wait e n t o in
    os_interest e o' = os_interest e o ∧ nfds ≤ zlen events ∧
    ∃ fds, NoDup fds ∧ Forall2 (λ fd ev, ∃ v, os_interest e o !! fd = Some (v, ev.2)) fds events;
  gettid_ok o e : os_interest e (os_gettid o).2 = os_interest e o;
  kill_ok t s o e : os_interest e (os_kill t s o) = os_interest e o;
  usleep_ok t o e : os_interest e (os_usleep t o) = os_interest e o
}.

(** ** What a turn does *)

Section turns.
Context {Q O E : Type} `{QueueSpec Q} `{LoopOsSpec O} `{!HasLoops Q O E}.
Abbreviation state := (world (pipes Q E)).
Abbreviation SM := (M (world (pipes Q E))).
Abbreviation live w := (m_live (w_mem w)).
Implicit Types (w : world (pipes Q E)) (l i : Z) (nd : pitcher_loop_node).

Lemma loops_on f w : loops_of (on_loops f w) = f (loops_of w).
Proof. unfold loops_of, on_loops. cbn. apply the_put. Qed.

Lemma on_on_loops f g w : on_loops f (on_loops g w) = on_loops (λ x, f (g x)) w.
Proof. unfold on_loops, set_env. cbn. by rewrite the_put, put_put. Qed.

Lemma load_loop_ok l w x : l ≠ 0 → ls_loops (loops_of w) !! l = Some x → load_loop l w = Done (x, w).
Proof. intros Hl Hx. unfold load_loop. rewrite (proj2 (Z.eqb_neq l 0)), Hx by done. done. Qed.
Lemma load_node_ok i w nd : ls_nodes (loops_of w) !! i = Some nd → load_node i w = Done (nd, w).
Proof. intros Hi. unfold load_node. by rewrite Hi. Qed.

(** The entries of the queues: the node's address and the node. *)
Abbreviation entry := (Z * pitcher_loop_node)%type.

Definition node_ok w (e : entry) : Prop :=
  e.1 ≠ 0 ∧ ls_nodes (loops_of w) !! e.1 = Some e.2 ∧ e.1 ∈ live w ∧ n_key e.2 ≠ 0.
Definition timer_ok w (e : entry) : Prop :=
  node_ok w e ∧ ∃ t, ls_tasks (loops_of w) !! n_key e.2 = Some t ∧ tt_func t ≠ 0.
Definition poll_ok w l (e : entry) : Prop :=
  node_ok w e ∧ n_loop e.2 = l ∧ ∃ p, ls_pfds (loops_of w) !! n_key e.2 = Some p ∧ pf_func p ≠ 0.

(** The loop at [l] with the timers [ts] and the descriptors [ps]; every
    pointer the system holds is that of one of the descriptors' nodes. *)
Record contents w l (x : pitcher_loop_t Q) (ts ps : list entry) : Prop := {
  c_nonnull : l ≠ 0;
  c_loop : ls_loops (loops_of w) !! l = Some x;
  c_timers : Forall (timer_ok w) ts;
  c_polls : Forall (poll_ok w l) ps;
  c_nodup : NoDup (ts ++ ps).*1;
  c_keys : NoDup ((λ e : entry, n_key e.2) <$> ps);
  c_interest fd v : os_interest (lp_epoll_fd x) (ls_os (loops_of w)) !! fd = Some v →
    ∃ nd p, (v.2, nd) ∈ ps ∧ ls_pfds (loops_of w) !! n_key nd = Some p ∧ pf_fd p = fd
}.

(** [w'] is [w] but for the node [i] and what no entry speaks of. *)
Record but_node (i : Z) w w' : Prop := {
  bn_nodes n : n ≠ i → ls_nodes (loops_of w') !! n = ls_nodes (loops_of w) !! n;
  bn_live n : n ≠ i → n ∈ live w → n ∈ live w';
  bn_tasks : ls_tasks (loops_of w') = ls_tasks (loops_of w);
  bn_pfds : ls_pfds (loops_of w') = ls_pfds (loops_of w)
}.

Lemma node_but i w w' e : but_node i w w' → i ≠ e.1 → node_ok w e → node_ok w' e.
Proof. intros [] Hi (H1 & H2 & H3 & H4). split_and!; auto. by rewrite bn_nodes0. Qed.

Lemma timers_but i w w' ts : but_node i w w' → i ∉ ts.*1 → Forall (timer_ok w) ts → Forall (timer_ok w') ts.
Proof.
  intros Hb Hi Hts. apply Forall_forall. intros e He. rewrite Forall_forall in Hts.
  destruct (Hts e He) as [Hn Ht]. split; [|by rewrite (bn_tasks _ _ _ Hb)].
  eapply node_but; [done| |done]. intros ->. apply Hi. by apply list_elem_of_fmap_2.
Qed.

Lemma polls_but i w w' l ps : but_node i w w' → i ∉ ps.*1 → Forall (poll_ok w l) ps → Forall (poll_ok w' l) ps.
Proof.
  intros Hb Hi Hps. apply Forall_forall. intros e He. rewrite Forall_forall in Hps.
  destruct (Hps e He) as (Hn & Hl & Ht). split_and!; [|done|by rewrite (bn_pfds _ _ _ Hb)].
  eapply node_but; [done| |done]. intros ->. apply Hi. by apply list_elem_of_fmap_2.
Qed.

Lemma timers_all w w' ts : (∀ i, but_node i w w') → Forall (timer_ok w) ts → Forall (timer_ok w') ts.
Proof. intros Hb Hts. apply (timers_but (fresh ts.*1) w); [apply Hb|apply infinite_is_fresh|done]. Qed.
Lemma polls_all w w' l ps : (∀ i, but_node i w w') → Forall (poll_ok w l) ps → Forall (poll_ok w' l) ps.
Proof. intros Hb Hps. apply (polls_but (fresh ps.*1) w); [apply Hb|apply infinite_is_fresh|done]. Qed.

Lemma nodup_mid (a b : list entry) i nd c :
  NoDup ((a ++ (i, nd) :: b) ++ c).*1 → i ∉ a.*1 ∧ i ∉ b.*1 ∧ i ∉ c.*1 ∧ NoDup ((a ++ b) ++ c).*1.
Proof.
  intros Hn. assert (Hp : ((a ++ (i, nd) :: b) ++ c).*1 ≡ₚ i :: ((a ++ b) ++ c).*1).
  { rewrite !fmap_app. cbn. by rewrite <- !app_assoc, Permutation_middle. }
  rewrite Hp in Hn. apply NoDup_cons in Hn as [Hi Hn]. rewrite !fmap_app in Hi. split_and!; set_solver.
Qed.

Lemma nodup_mid_poll (a b : list entry) i nd c :
  NoDup (c ++ a ++ (i, nd) :: b).*1 → i ∉ a.*1 ∧ i ∉ b.*1 ∧ i ∉ c.*1 ∧ NoDup (c ++ a ++ b).*1.
Proof.
  intros Hn. assert (Hp : (c ++ a ++ (i, nd) :: b).*1 ≡ₚ ((a ++ (i, nd) :: b) ++ c).*1)
    by (apply fmap_Permutation, Permutation_app_comm).
  rewrite Hp in Hn. destruct (nodup_mid _ _ _ _ _ Hn) as (H1 & H2 & H3 & H4). split_and!; try done.
  assert (Hq : (c ++ a ++ b).*1 ≡ₚ ((a ++ b) ++ c).*1) by (apply fmap_Permutation, Permutation_app_comm).
  by rewrite Hq.
Qed.

(** Writing to a node that is being looked at, with its key kept. *)
Lemma store_timer w l x t1 i nd t2 ps nd' :
  contents w l x (t1 ++ (i, nd) :: t2) ps → n_key nd' = n_key nd →
  contents (on_loops (set_nodes (insert i nd')) w) l x (t1 ++ (i, nd') :: t2) ps.
Proof.
  intros [] Hk. destruct (nodup_mid _ _ _ _ _ c_nodup0) as (H1 & H2 & H3 & H4).
  assert (Hb : but_node i w (on_loops (set_nodes (insert i nd')) w)).
  { split; rewrite ?loops_on; try done. intros n Hn. cbn. by apply lookup_insert_ne. }
  apply Forall_app in c_timers0 as [Ht1 Ht2]. inversion Ht2 as [|? ? [(A1 & A2 & A3 & A4) Ht] Ht2']; subst.
  split; try done; rewrite ?loops_on; try done.
  - apply Forall_app; split; [by eapply timers_but|]. constructor; [|by eapply timers_but].
    split; [|rewrite loops_on; cbn in *; by rewrite Hk]. split_and!; try done; [|cbn in *; by rewrite Hk].
    rewrite loops_on. apply lookup_insert_eq.
  - by eapply polls_but.
  - by rewrite !fmap_app in *.
Qed.

Lemma store_poll w l x ts p1 i nd p2 nd' :
  contents w l x ts (p1 ++ (i, nd) :: p2) → n_key nd' = n_key nd → n_loop nd' = n_loop nd →
  contents (on_loops (set_nodes (insert i nd')) w) l x ts (p1 ++ (i, nd') :: p2).
Proof.
  intros [] Hk Hl. destruct (nodup_mid_poll _ _ _ _ _ c_nodup0) as (H1 & H2 & H3 & H4).
  assert (Hb : but_node i w (on_loops (set_nodes (insert i nd')) w)).
  { split; rewrite ?loops_on; try done. intros n Hn. cbn. by apply lookup_insert_ne. }
  apply Forall_app in c_polls0 as [Ht1 Ht2]. inversion Ht2 as [|? ? ((A1 & A2 & A3 & A4) & A5 & Ht) Ht2']; subst.
  split; try done; rewrite ?loops_on; try done.
  - by eapply timers_but.
  - apply Forall_app; split; [by eapply polls_but|]. constructor; [|by eapply polls_but].
    split; [split_and!; try done; [rewrite loops_on; apply lookup_insert_eq|cbn in *; by rewrite Hk]|].
    rewrite loops_on. cbn in *. by rewrite Hk, Hl.
  - by rewrite !fmap_app in *.
  - by rewrite !fmap_app, !fmap_cons in *; cbn in *; rewrite Hk.
  - intros fd v Hv. destruct (c_interest0 fd v Hv) as (nd1 & p & Hin & Hp).
    apply elem_of_app in Hin as [Hin|[[= -> ->]|Hin]%elem_of_cons].
    + exists nd1, p. split; [set_solver|done].
    + exists nd', p. split; [|by rewrite Hk]. apply elem_of_app. right. left.
    + exists nd1, p. split; [set_solver|done].
Qed.

(** *** What a loop does of its own

    From one call-back to the next only the loop has changed: its record but for
    the epoll descriptor, its nodes, the state of the system, and blocks that
    were nodes have been freed.  Tasks, descriptors, pipes and buffers have
    not. *)
Record own w w' : Prop := {
  own_rest : ∃ y, e_rest (w_env w') = put_loops y (e_rest (w_env w));
  own_tasks : ls_tasks (loops_of w') = ls_tasks (loops_of w);
  own_pfds : ls_pfds (loops_of w') = ls_pfds (loops_of w);
  own_loops k x : ls_loops (loops_of w) !! k = Some x →
    ∃ x', ls_loops (loops_of w') !! k = Some x' ∧ lp_epoll_fd x' = lp_epoll_fd x;
  own_nodes i : is_Some (ls_nodes (loops_of w') !! i) → is_Some (ls_nodes (loops_of w) !! i);
  own_pipes : e_pipes (w_env w') = e_pipes (w_env w);
  own_bufs : w_bufs w' = w_bufs w;
  own_sub a : a ∈ live w' → a ∈ live w;
  own_freed a : a ∈ live w → a ∉ live w' → is_Some (ls_nodes (loops_of w) !! a)
}.

Lemma own_refl w : own w w.
Proof. split; try done; [exists (loops_of w); symmetry; apply put_the|eauto]. Qed.

Lemma own_trans w1 w2 w3 : own w1 w2 → own w2 w3 → own w1 w3.
Proof.
  intros [(y & A0) A1 A2 A3 A4 A5 A6 A7 A8] [(z & B0) B1 B2 B3 B4 B5 B6 B7 B8]. split; try congruence; auto.
  - exists z. by rewrite B0, A0, put_put.
  - intros k x Hx. destruct (A3 k x Hx) as (x' & Hx' & He). destruct (B3 k x' Hx') as (x2 & Hx2 & He2).
    exists x2. split; [done|congruence].
  - intros a Ha Hn. destruct (decide (a ∈ live w2)) as [H2|H2]; auto.
Qed.

(** A change of the loops that changes none of the rest. *)
Lemma own_on f w : ls_tasks (f (loops_of w)) = ls_tasks (loops_of w) → ls_pfds (f (loops_of w)) = ls_pfds (loops_of w) →
  (∀ k x, ls_loops (loops_of w) !! k = Some x →
    ∃ x', ls_loops (f (loops_of w)) !! k = Some x' ∧ lp_epoll_fd x' = lp_epoll_fd x) →
  (∀ i, is_Some (ls_nodes (f (loops_of w)) !! i) → is_Some (ls_nodes (loops_of w) !! i)) → own w (on_loops f w).
Proof. intros H1 H2 H3 H4. split; rewrite ?loops_on; try done. by eexists. Qed.

Lemma own_os o w : own w (on_loops (set_os o) w).
Proof. apply own_on; try done. eauto. Qed.

Lemma own_store i nd nd' w : ls_nodes (loops_of w) !! i = Some nd → own w (on_loops (set_nodes (insert i nd')) w).
Proof.
  intros Hi. apply own_on; try done; [eauto|]. cbn. intros j. destruct (decide (j = i)) as [->|Hne]; [by eexists|].
  by rewrite lookup_insert_ne.
Qed.

Lemma own_loop l x x' w : ls_loops (loops_of w) !! l = Some x → lp_epoll_fd x' = lp_epoll_fd x →
  own w (on_loops (set_loops (insert l x')) w).
Proof.
  intros Hl He. apply own_on; try done. cbn. intros k y Hk. destruct (decide (k = l)) as [->|Hne].
  - exists x'. rewrite lookup_insert_eq. split; [done|congruence].
  - exists y. by rewrite lookup_insert_ne.
Qed.

Lemma own_free i nd w w' : ls_nodes (loops_of w) !! i = Some nd → i ∈ live w → free_node i w = Done (tt, w') → own w w'.
Proof.
  intros Hi Hl. unfold free_node. erewrite M_bind_done by reflexivity.
  destruct (free_ok (on_loops (set_nodes (delete i)) w) i Hl) as (w1 & -> & Hb & He & Hl1). intros [= <-].
  assert (Ho : own w (on_loops (set_nodes (delete i)) w)).
  { apply own_on; try done; [eauto|]. cbn. intros j. rewrite lookup_delete_is_Some. by intros [_ ?]. }
  assert (Hlw : loops_of w1 = loops_of (on_loops (set_nodes (delete i)) w)) by (unfold loops_of; by rewrite He).
  destruct Ho as [A0 A1 A2 A3 A4 A5 A6 A7 A8]. split; rewrite ?Hlw, ?He, ?Hb, ?Hl1; try done.
  - by intros a [? _]%elem_of_difference.
  - cbn. intros a Ha. rewrite elem_of_difference, elem_of_singleton. intros Hn.
    destruct (decide (a = i)) as [->|]; [by eexists|]. exfalso. apply Hn. by split.
Qed.

(** Freeing a node takes its entry away. *)
Lemma free_timer w l x t1 i nd t2 ps :
  contents w l x (t1 ++ (i, nd) :: t2) ps →
  ∃ w', free_node i w = Done (tt, w') ∧ contents w' l x (t1 ++ t2) ps ∧
    w_env w' = w_env (on_loops (set_nodes (delete i)) w) ∧ live w' = live w ∖ {[i]}.
Proof.
  intros []. destruct (nodup_mid _ _ _ _ _ c_nodup0) as (H1 & H2 & H3 & H4).
  apply Forall_app in c_timers0 as [Ht1 Ht2]. inversion Ht2 as [|? ? [(A1 & A2 & A3 & A4) Ht] Ht2']; subst.
  unfold free_node. erewrite M_bind_done by reflexivity.
  destruct (free_ok (on_loops (set_nodes (delete i)) w) i A3) as (w' & E' & _ & He & Hl).
  exists w'. split; [exact E'|]. split; [|done].
  assert (Hlw : loops_of w' = set_nodes (delete i) (loops_of w)) by (unfold loops_of; rewrite He; apply loops_on).
  assert (Hb : but_node i w w').
  { split; rewrite ?Hlw; try done; [|rewrite Hl; cbn; set_solver]. intros n Hn. cbn. by apply lookup_delete_ne. }
  split; rewrite ?Hlw; try done.
  - apply Forall_app; split; by eapply timers_but.
  - by eapply polls_but.
Qed.

Lemma set_loop_contents w l x x' ts ps :
  contents w l x ts ps → lp_epoll_fd x' = lp_epoll_fd x →
  contents (on_loops (set_loops (insert l x')) w) l x' ts ps.
Proof.
  intros [] He. assert (Hb : ∀ i, but_node i w (on_loops (set_loops (insert l x')) w)).
  { intros i. split; by rewrite ?loops_on. }
  split; rewrite ?loops_on; try done.
  - apply lookup_insert_eq.
  - by apply (timers_all w).
  - by apply (polls_all w).
  - by rewrite He.
Qed.

Lemma set_os_contents w l x ts ps o :
  contents w l x ts ps → os_interest (lp_epoll_fd x) o = os_interest (lp_epoll_fd x) (ls_os (loops_of w)) →
  contents (on_loops (set_os o) w) l x ts ps.
Proof.
  intros [] He. assert (Hb : ∀ i, but_node i w (on_loops (set_os o) w)).
  { intros i. split; by rewrite ?loops_on. }
  split; rewrite ?loops_on; try done.
  - by apply (timers_all w).
  - by apply (polls_all w).
  - cbn. by rewrite He.
Qed.

Lemma elem_app_cons {A} (x y : A) a b : x ∈ a ++ y :: b → x ∈ a ++ b ∨ x = y.
Proof. set_solver. Qed.

(** Freeing a descriptor's node also takes it off the interest list. *)
Lemma free_poll w l x ts p1 i nd p2 :
  contents w l x ts (p1 ++ (i, nd) :: p2) →
  ∃ w', __free_poll_node i w = Done (tt, w') ∧ contents w' l x ts (p1 ++ p2) ∧ own w w' ∧
    live w' = live w ∖ {[i]}.
Proof.
  intros Hc. pose proof Hc as []. destruct (nodup_mid_poll _ _ _ _ _ c_nodup0) as (H1 & H2 & H3 & H4).
  apply Forall_app in c_polls0 as [Ht1 Ht2].
  inversion Ht2 as [|? ? ((A1 & A2 & A3 & A4) & A5 & (p & Hp & Hf)) Ht2']; subst. cbn [fst snd] in *.
  unfold __free_poll_node. rewrite (proj2 (Z.eqb_neq i 0)) by done. mstep (load_node_ok i w nd A2).
  rewrite (proj2 (Z.eqb_neq _ 0)), (proj2 (Z.eqb_neq (n_key nd) 0)) by done. cbn [negb andb].
  pose proof (epoll_del_ok (lp_epoll_fd x) (pf_fd p) (ls_os (loops_of w))) as Hdel.
  destruct (os_epoll_ctl _ _ _ _ _) as [r o] eqn:Eo. cbn in Hdel. set (w1 := on_loops (set_os o) w).
  erewrite M_bind_done.
  2:{ mstep (load_loop_ok (n_loop nd) w x c_nonnull0 c_loop0). unfold load_pfd.
      erewrite M_bind_done by (rewrite Hp; reflexivity). unfold sys.
      erewrite M_bind_done by (rewrite Eo; reflexivity). reflexivity. }
  assert (Ho : ∀ w', free_node i w1 = Done (tt, w') → own w w').
  { intros w' E'. eapply own_trans; [apply (own_os o)|]. eapply own_free; [|exact A3|exact E']. unfold w1. rewrite loops_on. exact A2. }
  revert Ho. unfold free_node. erewrite M_bind_done by reflexivity.
  destruct (free_ok (on_loops (set_nodes (delete i)) w1) i A3) as (w' & E' & _ & He & Hl). intros Ho.
  exists w'. split; [exact E'|].
  assert (Hlw : loops_of w' = set_nodes (delete i) (set_os o (loops_of w)))
    by (unfold loops_of; rewrite He; unfold w1; rewrite on_on_loops; apply loops_on).
  assert (Hb : but_node i w w').
  { split; rewrite ?Hlw; try done; [|rewrite Hl; cbn; set_solver]. intros n Hn. cbn. by apply lookup_delete_ne. }
  split; [|split; [by apply Ho|done]].
  split; rewrite ?Hlw; try done.
  - by eapply timers_but.
  - apply Forall_app; split; by eapply polls_but.
  - rewrite fmap_app in *. cbn in c_keys0. apply NoDup_app in c_keys0 as (? & ? & [? ?]%NoDup_cons). apply NoDup_app. set_solver.
  - intros fd v. cbn. rewrite Hdel. intros [Hne Hv]%lookup_delete_Some.
    destruct (c_interest0 fd v Hv) as (nd1 & p' & Hin & Hp' & Hfd). exists nd1, p'. split; [|done].
    destruct (elem_app_cons _ _ _ _ Hin) as [?|[= ? ->]]; [done|]. rewrite Hp in Hp'. by injection Hp' as <-.
Qed.

(** *** The call-backs

    What the loop asks of the functions it is given, as far as they are
    registered with it: in the states of an invariant [inv] of the client's,
    which the loop's own steps keep, they return, with any answer, in such a
    state again, and leave the loop as it was but for starting or stopping it. *)
Context (call_task : Z → Z → M (world (pipes Q E)) Z).
Context (call_poll : Z → Z → Z → M (world (pipes Q E)) Z).

Record Callbacks (l : Z) (inv : state → Prop) : Prop := {
  cb_own w w' : own w w' → inv w → inv w';
  cb_task w x ts ps e t : contents w l x ts ps → inv w → e ∈ ts → ls_tasks (loops_of w) !! n_key e.2 = Some t →
    tt_func t ≠ 0 → ∃ d w' r, call_task (tt_func t) (n_key e.2) w = Done (d, w') ∧
      contents w' l (set_running r x) ts ps ∧ ls_tasks (loops_of w') = ls_tasks (loops_of w) ∧ inv w';
  cb_poll w x ts ps e p ev : contents w l x ts ps → inv w → e ∈ ps → ls_pfds (loops_of w) !! n_key e.2 = Some p →
    pf_func p ≠ 0 → ∃ d w' r, call_poll (pf_func p) (n_key e.2) ev w = Done (d, w') ∧
      contents w' l (set_running r x) ts ps ∧ ls_tasks (loops_of w') = ls_tasks (loops_of w) ∧ inv w'
}.

(** From [w] to [w'] the tasks [k] are called, each with its answer, in order;
    between them the loop does what is its own and functions of descriptors are
    called. *)
Inductive called : list (Z * Z) → state → state → Prop :=
  | called_none w : called [] w w
  | called_own k w w1 w' : own w w1 → called k w1 w' → called k w w'
  | called_task k w w1 w' t tk d :
      ls_tasks (loops_of w) !! t = Some tk → tt_func tk ≠ 0 → call_task (tt_func tk) t w = Done (d, w1) →
      called k w1 w' → called ((t, d) :: k) w w'
  | called_poll k w w1 w' p pf ev d :
      ls_pfds (loops_of w) !! p = Some pf → pf_func pf ≠ 0 → call_poll (pf_func pf) p ev w = Done (d, w1) →
      called k w1 w' → called k w w'.

Lemma called_trans k1 k2 w1 w2 w3 : called k1 w1 w2 → called k2 w2 w3 → called (k1 ++ k2) w1 w3.
Proof. induction 1; intros Hk; cbn; [done|eapply called_own|eapply called_task|eapply called_poll]; eauto. Qed.

(** A stretch of the way in which the tasks [k] are called. *)
Context (l0 : Z) (inv : world (pipes Q E) → Prop) (clients : Callbacks l0 inv).

Record way (k : list (Z * Z)) w w' : Prop := {
  wy_called : called k w w';
  wy_tasks : ls_tasks (loops_of w') = ls_tasks (loops_of w);
  wy_inv : inv w → inv w'
}.

Lemma way_trans k1 k2 w1 w2 w3 : way k1 w1 w2 → way k2 w2 w3 → way (k1 ++ k2) w1 w3.
Proof. intros [A1 A2 A3] [B1 B2 B3]. split; [by eapply called_trans|congruence|auto]. Qed.
Lemma way_next k w1 w2 w3 : way [] w1 w2 → way k w2 w3 → way k w1 w3.
Proof. apply (way_trans []). Qed.
Lemma way_own w w' : own w w' → way [] w w'.
Proof.
  intros Ho. split; [eapply called_own; [exact Ho|constructor]|apply (own_tasks _ _ Ho)|]. by apply (cb_own _ _ clients).
Qed.
Lemma way_refl w : way [] w w.
Proof. apply way_own, own_refl. Qed.

(** *** Timers

    One timer at the time [tv]: is it due, and its node afterwards. *)
Definition tick (ivl tv : Z) (nd : pitcher_loop_node) : bool * pitcher_loop_node :=
  if (ivl =? 0) || (n_timeout nd <=? delta tv nd)
  then (true, LoopNode (n_key nd) tv ivl (if 0 <? n_times nd then n_times nd - 1 else n_times nd) (n_loop nd))
  else (false, LoopNode (n_key nd) tv (u32 (n_timeout nd - delta tv nd)) (n_times nd) (n_loop nd)).

(** Is the timer taken off the loop, after the answer [d]? *)
Definition gone (d : Z) (nd : pitcher_loop_node) : bool := negb (d =? 0) || (n_times nd =? 0).

(** The call of a task that is due, from the calls still to come, and its
    answer; nothing is called when it is not due. *)
Definition take_call (due : bool) (key : Z) (calls : list (Z * Z)) : option (Z * list (Z * Z)) :=
  if due then match calls with (t, d) :: calls => if t =? key then Some (d, calls) else None | [] => None end
  else Some (0, calls).

(** All timers in order, from the calls still to come and the time [left] to
    wait: the timers that remain, the calls that are left for later, the time to
    wait; nothing, when these are not the calls that are made. *)
Fixpoint pass (ivl : Z → Z) (tv left : Z) (calls : list (Z * Z)) (ts : list entry) :
    option (list entry * list (Z * Z) * Z) :=
  match ts with
  | [] => Some ([], calls, left)
  | (i, nd) :: ts =>
      let '(due, nd') := tick (ivl (n_key nd)) tv nd in
      '(d, calls) ← take_call due (n_key nd) calls;
      if gone d nd' then pass ivl tv left calls ts
      else '(ts', calls, left) ← pass ivl tv (Z.min left (n_timeout nd')) calls ts; Some ((i, nd') :: ts', calls, left)
  end.

Definition interval w (t : Z) : Z :=
  match ls_tasks (loops_of w) !! t with Some t => tt_interval t | None => 0 end.

Lemma contents_lookup w l x t1 i nd t2 ps :
  contents w l x (t1 ++ (i, nd) :: t2) ps →
  i ≠ 0 ∧ ls_nodes (loops_of w) !! i = Some nd ∧ n_key nd ≠ 0 ∧
  ∃ t, ls_tasks (loops_of w) !! n_key nd = Some t ∧ tt_func t ≠ 0.
Proof.
  intros []. apply Forall_app in c_timers0 as [_ Ht]. inversion Ht as [|? ? [(A1 & A2 & A3 & A4) A5] _]; subst. done.
Qed.

(** Waiting no longer than the node allows. *)
Lemma lower_left_time_ok w l x ts ps i nd :
  contents w l x ts ps → ls_nodes (loops_of w) !! i = Some nd →
  ∃ w', lower_left_time l i w = Done (tt, w') ∧
    contents w' l (set_left_time (Z.min (lp_left_time x) (n_timeout nd)) x) ts ps ∧ way [] w w'.
Proof.
  intros Hc Hn. unfold lower_left_time.
  mstep (load_node_ok i w nd Hn). mstep (load_loop_ok l w x (c_nonnull _ _ _ _ _ Hc) (c_loop _ _ _ _ _ Hc)).
  destruct (Z.ltb_spec (n_timeout nd) (lp_left_time x)).
  - rewrite Z.min_r by lia. eexists. split; [reflexivity|]. split; [by apply (set_loop_contents w l x)|].
    apply way_own. by apply (own_loop l x); [apply Hc|].
  - rewrite Z.min_l by lia. exists w. split; [done|]. split; [by destruct x|apply way_refl].
Qed.

Lemma change_node_ok w l x t1 i nd t2 ps f :
  contents w l x (t1 ++ (i, nd) :: t2) ps → n_key (f nd) = n_key nd →
  ∃ w', change_node i f w = Done (tt, w') ∧ contents w' l x (t1 ++ (i, f nd) :: t2) ps ∧ way [] w w'.
Proof.
  intros Hc Hk. destruct (contents_lookup _ _ _ _ _ _ _ _ Hc) as (_ & Hn & _).
  eexists. split; [unfold change_node; mstep (load_node_ok i w nd Hn); reflexivity|].
  split; [by eapply store_timer|]. by eapply way_own, own_store.
Qed.

(** The first half of [__timer_func]: the time that has passed is taken off,
    and the task is called when it is due. *)
Definition run_timer (i : Z) (nd : pitcher_loop_node) (t : pitcher_timer_task) (tv : Z) : SM Z :=
  if (tt_interval t =? 0) || (n_timeout nd <=? delta tv nd) then
    _ ← change_node i (set_n_timeout (tt_interval t));
    _ ← change_node i (λ n, if 0 <? n_times n then set_n_times (n_times n - 1) n else n);
    if tt_func t =? 0 then mret 0 else call_task (tt_func t) (n_key nd)
  else _ ← change_node i (λ n, set_n_timeout (u32 (n_timeout n - delta tv nd)) n); mret 0.

Lemma way_task k w w1 w' t tk d : ls_tasks (loops_of w) !! t = Some tk → tt_func tk ≠ 0 → call_task (tt_func tk) t w = Done (d, w1) →
  ls_tasks (loops_of w1) = ls_tasks (loops_of w) → inv w1 → way k w1 w' → way ((t, d) :: k) w w'.
Proof. intros Ht Hf Ec Hk Hi [A1 A2 A3]. split; [by eapply called_task|congruence|auto]. Qed.

Lemma run_timer_ok w x t1 i nd t2 ps t tv :
  contents w l0 x (t1 ++ (i, set_n_tv tv nd) :: t2) ps → inv w →
  ls_tasks (loops_of w) !! n_key nd = Some t → tt_func t ≠ 0 →
  let '(due, nd') := tick (tt_interval t) tv nd in
  ∃ d w' r k, run_timer i nd t tv w = Done (d, w') ∧
    contents w' l0 (set_running r x) (t1 ++ (i, nd') :: t2) ps ∧ way k w w' ∧
    ∀ k', take_call due (n_key nd) (k ++ k') = Some (d, k').
Proof.
  intros Hc Hi Ht Hf. unfold run_timer, tick. destruct (_ || _).
  - destruct (change_node_ok _ _ _ _ _ _ _ _ (set_n_timeout (tt_interval t)) Hc eq_refl) as (w1 & E1 & Hc1 & Hw1).
    mstep E1.
    destruct (change_node_ok _ _ _ _ _ _ _ _
      (λ n, if 0 <? n_times n then set_n_times (n_times n - 1) n else n) Hc1) as (w2 & E2 & Hc2 & Hw2);
      [by destruct (0 <? _)|].
    mstep E2. rewrite (proj2 (Z.eqb_neq (tt_func t) 0)) by done.
    pose proof (way_next _ _ _ _ Hw1 Hw2) as Hw.
    assert (Ht2 : ls_tasks (loops_of w2) !! n_key nd = Some t) by (by rewrite (wy_tasks _ _ _ Hw)).
    set (nd2 := if 0 <? _ then _ else _) in *. assert (Hk2 : n_key nd2 = n_key nd) by (unfold nd2; by destruct (0 <? _)).
    destruct (cb_task _ _ clients w2 x _ ps (i, nd2) t Hc2 (wy_inv _ _ _ Hw Hi)) as (d & w3 & r & E3 & Hc3 & Ht3 & Hi3);
      [apply elem_of_app; right; by left|cbn; by rewrite Hk2|done|]. cbn in E3. rewrite Hk2 in E3.
    exists d, w3, r, [(n_key nd, d)]. split; [done|]. split.
    + unfold nd2 in Hc3. cbn in Hc3. by destruct (0 <? n_times nd).
    + split; [|intros k'; cbn; by rewrite Z.eqb_refl]. apply (way_next _ _ _ _ Hw).
      eapply way_task; [done..|apply way_refl].
  - destruct (change_node_ok _ _ _ _ _ _ _ _ (λ n, set_n_timeout (u32 (n_timeout n - delta tv nd)) n) Hc eq_refl)
      as (w1 & E1 & Hc1 & Hw1).
    mstep E1. exists 0, w1, (lp_running x), []. split_and!; try done. by destruct x.
Qed.

Lemma timer_func_ok w x t1 i nd t2 ps :
  contents w l0 x (t1 ++ (i, nd) :: t2) ps → inv w →
  let '(due, nd') := tick (interval w (n_key nd)) (lp_tv x) nd in
  ∃ d w' r k, __timer_func call_task l0 i w = Done (gone d nd', w') ∧
    contents w' l0 (set_left_time (if gone d nd' then lp_left_time x else Z.min (lp_left_time x) (n_timeout nd')) (set_running r x))
      (t1 ++ (if gone d nd' then [] else [(i, nd')]) ++ t2) ps ∧ way k w w' ∧
    ∀ k', take_call due (n_key nd) (k ++ k') = Some (d, k').
Proof.
  intros Hc Hi. destruct (contents_lookup _ _ _ _ _ _ _ _ Hc) as (Hi0 & Hn & Hk & t & Ht & Hf).
  unfold interval. rewrite Ht. unfold __timer_func.
  rewrite (proj2 (Z.eqb_neq l0 0)) by exact (c_nonnull _ _ _ _ _ Hc). rewrite (proj2 (Z.eqb_neq i 0)) by done.
  mstep (load_node_ok i w nd Hn). rewrite (proj2 (Z.eqb_neq (n_key nd) 0)) by done.
  erewrite M_bind_done by (unfold load_task; rewrite Ht; reflexivity).
  mstep (load_loop_ok l0 w x (c_nonnull _ _ _ _ _ Hc) (c_loop _ _ _ _ _ Hc)).
  erewrite M_bind_done by reflexivity.
  assert (Hw0 : way [] w (on_loops (set_nodes (insert i (set_n_tv (lp_tv x) nd))) w)) by by eapply way_own, own_store.
  pose proof (run_timer_ok _ x t1 i nd t2 ps t (lp_tv x)
    (store_timer _ _ _ _ _ _ _ _ (set_n_tv (lp_tv x) nd) Hc eq_refl) (wy_inv _ _ _ Hw0 Hi)) as Hrun.
  rewrite loops_on in Hrun. specialize (Hrun Ht Hf).
  destruct (tick (tt_interval t) (lp_tv x) nd) as [due nd']. destruct Hrun as (d & w1 & r & k & E1 & Hc1 & Hw1 & Hk1).
  mstep E1. pose proof (way_next _ _ _ _ Hw0 Hw1) as Hw. destruct (contents_lookup _ _ _ _ _ _ _ _ Hc1) as (_ & Hn1 & _).
  erewrite M_bind_done.
  2:{ instantiate (1 := w1). instantiate (1 := gone d nd'). unfold gone. destruct (negb (d =? 0)); [done|].
      by mstep (load_node_ok i w1 nd' Hn1). }
  exists d. destruct (gone d nd') eqn:Eg.
  - assert (Hl : i ∈ live w1).
    { destruct Hc1 as []. apply Forall_app in c_timers0 as [_ Hfa]. by inversion Hfa as [|? ? [(_ & _ & ? & _) _]]. }
    destruct (free_timer _ _ _ _ _ _ _ _ Hc1) as (w2 & E2 & Hc2 & _). mstep E2. exists w2, r, (k ++ []).
    split_and!; [done|by destruct x|eapply way_trans; [exact Hw|by eapply way_own, own_free]|by rewrite app_nil_r].
  - destruct (lower_left_time_ok _ _ _ _ _ i nd' Hc1 Hn1) as (w2 & E2 & Hc2 & Hw2). mstep E2. exists w2, r, (k ++ []).
    split_and!; [done|exact Hc2|by eapply way_trans|by rewrite app_nil_r].
Qed.

Lemma interval_same w w' : ls_tasks (loops_of w') = ls_tasks (loops_of w) → interval w' = interval w.
Proof. unfold interval. by intros ->. Qed.

Lemma enum_timers ps ts : ∀ t1 w x, contents w l0 x (t1 ++ ts) ps → inv w →
  ∃ ts' rest w' r k, enum_list (__timer_func call_task l0) ts.*1 w = Done (ts'.*1, w') ∧
    contents w' l0 (set_left_time rest (set_running r x)) (t1 ++ ts') ps ∧ way k w w' ∧
    ∀ k', pass (interval w) (lp_tv x) (lp_left_time x) (k ++ k') ts = Some (ts', k', rest).
Proof.
  induction ts as [|[i nd] ts IH]; intros t1 w x Hc Hi.
  { exists [], (lp_left_time x), w, (lp_running x), []. split_and!; try done; [by destruct x|apply way_refl]. }
  cbn [pass fmap list_fmap enum_list fst]. pose proof (timer_func_ok _ _ _ _ _ _ _ Hc Hi) as Hf.
  destruct (tick _ _ nd) as [due nd'].
  destruct Hf as (d & w1 & r1 & k1 & E1 & Hc1 & Hw1 & Hk1). rewrite E1, bind_done.
  destruct (gone d nd') eqn:Eg.
  - destruct (IH t1 w1 _ Hc1 (wy_inv _ _ _ Hw1 Hi)) as (ts' & rest & w' & r & k & E' & Hc' & Hw' & Hk').
    cbn [lp_tv lp_left_time set_left_time set_clock set_running] in Hk'.
    rewrite (interval_same w w1) in Hk' by apply Hw1.
    exists ts', rest, w', r, (k1 ++ k). rewrite E', bind_done. split_and!; [done|by destruct x|by eapply way_trans|].
    intros k'. rewrite <- app_assoc, Hk1. cbn. rewrite Eg. apply Hk'.
  - cbn [app] in Hc1. replace (t1 ++ (i, nd') :: ts) with ((t1 ++ [(i, nd')]) ++ ts) in Hc1 by (by rewrite <- app_assoc).
    destruct (IH _ w1 _ Hc1 (wy_inv _ _ _ Hw1 Hi)) as (ts' & rest & w' & r & k & E' & Hc' & Hw' & Hk').
    cbn [lp_tv lp_left_time set_left_time set_clock set_running] in Hk'.
    rewrite (interval_same w w1) in Hk' by apply Hw1.
    exists ((i, nd') :: ts'), rest, w', r, (k1 ++ k). rewrite E', bind_done. split_and!; [done| |by eapply way_trans|].
    + rewrite <- app_assoc in Hc'. by destruct x.
    + intros k'. rewrite <- app_assoc, Hk1. cbn. by rewrite Eg, Hk'.
Qed.

(** The two queues of a loop hold the entries. *)
Definition queued (r : queue_ref Q) (es : list entry) : Prop := ∃ a q, r = QHere a q ∧ holds q es.*1.

Lemma change_loop_ok w l x ts ps f :
  contents w l x ts ps → lp_epoll_fd (f x) = lp_epoll_fd x →
  ∃ w', change_loop l f w = Done (tt, w') ∧ contents w' l (f x) ts ps ∧ way [] w w'.
Proof.
  intros Hc Hf. eexists. split.
  { unfold change_loop. mstep (load_loop_ok l w x (c_nonnull _ _ _ _ _ Hc) (c_loop _ _ _ _ _ Hc)). reflexivity. }
  split; [by apply (set_loop_contents w l x)|]. apply way_own, (own_loop l x); [apply Hc|done].
Qed.

(** All timers of a loop are handled as [pass] says. *)
Lemma process_timer_ok w x ts ps :
  contents w l0 x ts ps → queued (lp_tasks x) ts → inv w →
  ∃ ts' rest w' r q k, __process_timer call_task l0 w = Done (RET_OK, w') ∧ queued q ts' ∧
    contents w' l0 (set_task_queue q (set_left_time rest (set_running r x))) ts' ps ∧ way k w w' ∧
    ∀ k', pass (interval w) (lp_tv x) (lp_left_time x) (k ++ k') ts = Some (ts', k', rest).
Proof.
  intros Hc (a & q & Hq & Hl) Hi. unfold __process_timer, walk_queue, get_tasks, put_tasks.
  destruct (change_loop_ok w l0 x ts ps (set_task_queue QAway) Hc eq_refl) as (w1 & E1 & Hc1 & Hw1).
  destruct (enum_timers ps ts [] w1 _ Hc1 (wy_inv _ _ _ Hw1 Hi)) as (ts' & rest & w2 & r & k & E2 & Hc2 & Hw2 & Hk).
  cbn [lp_tv lp_left_time set_task_queue] in Hk. rewrite (interval_same w w1) in Hk by apply Hw1.
  pose proof (holds_enumerate (__timer_func call_task l0) q ts.*1 w1 Hl) as Hen. rewrite E2 in Hen.
  destruct (queue_enumerate _ _ _) as [[q' w2']| | |] eqn:Eq; try done. destruct Hen as [Hq' ->].
  destruct (change_loop_ok w2 l0 _ ts' ps (set_task_queue (QHere a q')) Hc2 eq_refl) as (w3 & E3 & Hc3 & Hw3).
  exists ts', rest, w3, r, (QHere a q'), (k ++ []). split_and!; [|by exists a, q'|by destruct x| |by rewrite app_nil_r].
  - erewrite M_bind_done; [reflexivity|]. erewrite M_bind_done.
    2:{ mstep (load_loop_ok l0 w x (c_nonnull _ _ _ _ _ Hc) (c_loop _ _ _ _ _ Hc)). reflexivity. }
    rewrite Hq. mstep E1. erewrite M_bind_done by exact Eq. exact E3.
  - eapply way_trans; [by eapply way_next|done].
Qed.

(** *** Descriptors *)

Lemma poll_lookup w l x ts p1 i nd p2 :
  contents w l x ts (p1 ++ (i, nd) :: p2) →
  i ≠ 0 ∧ ls_nodes (loops_of w) !! i = Some nd ∧ n_key nd ≠ 0 ∧
  ∃ p, ls_pfds (loops_of w) !! n_key nd = Some p ∧ pf_func p ≠ 0.
Proof.
  intros []. apply Forall_app in c_polls0 as [_ Ht]. inversion Ht as [|? ? ((A1 & A2 & A3 & A4) & A5 & A6) _]; subst. done.
Qed.

Lemma change_poll_ok w l x ts p1 i nd p2 f :
  contents w l x ts (p1 ++ (i, nd) :: p2) → n_key (f nd) = n_key nd → n_loop (f nd) = n_loop nd →
  ∃ w', change_node i f w = Done (tt, w') ∧ contents w' l x ts (p1 ++ (i, f nd) :: p2) ∧ way [] w w'.
Proof.
  intros Hc Hk Hl. destruct (poll_lookup _ _ _ _ _ _ _ _ Hc) as (_ & Hn & _).
  eexists. split; [unfold change_node; mstep (load_node_ok i w nd Hn); reflexivity|].
  split; [by eapply store_poll|by eapply way_own, own_store].
Qed.

(** The first half of [__epoll_func]. *)
Definition run_poll (i : Z) (nd : pitcher_loop_node) (p : pitcher_poll_fd) (tv : Z) : SM Z :=
  if n_timeout nd <=? delta tv nd then
    _ ← change_node i (set_n_timeout (pf_timeout p));
    if pf_func p =? 0 then mret 0 else call_poll (pf_func p) (n_key nd) 0
  else _ ← change_node i (λ n, set_n_timeout (u32 (n_timeout n - delta tv nd)) n); mret 0.

Lemma way_poll w w1 p pf ev d : ls_pfds (loops_of w) !! p = Some pf → pf_func pf ≠ 0 → call_poll (pf_func pf) p ev w = Done (d, w1) →
  ls_tasks (loops_of w1) = ls_tasks (loops_of w) → inv w1 → way [] w w1.
Proof. intros Hp Hf Ec Hk Hi. split; [eapply called_poll; [done..|constructor]|done|done]. Qed.

Lemma run_poll_ok w x ts p1 i nd p2 p tv :
  contents w l0 x ts (p1 ++ (i, set_n_tv tv nd) :: p2) → inv w →
  ls_pfds (loops_of w) !! n_key nd = Some p → pf_func p ≠ 0 →
  ∃ d w' r nd', run_poll i nd p tv w = Done (d, w') ∧
    contents w' l0 (set_running r x) ts (p1 ++ (i, nd') :: p2) ∧ n_key nd' = n_key nd ∧ way [] w w'.
Proof.
  intros Hc Hi Hp Hf. unfold run_poll. destruct (_ <=? _).
  - destruct (change_poll_ok _ _ _ _ _ _ _ _ (set_n_timeout (pf_timeout p)) Hc eq_refl eq_refl) as (w1 & E1 & Hc1 & Hw1).
    assert (Hp1 : ls_pfds (loops_of w1) !! n_key nd = Some p).
    { unfold change_node in E1. destruct (poll_lookup _ _ _ _ _ _ _ _ Hc) as (_ & Hn & _).
      erewrite M_bind_done in E1 by (by apply load_node_ok). injection E1 as <-. by rewrite loops_on. }
    mstep E1. rewrite (proj2 (Z.eqb_neq (pf_func p) 0)) by done.
    destruct (cb_poll _ _ clients w1 x ts _ (i, set_n_timeout (pf_timeout p) (set_n_tv tv nd)) p 0 Hc1 (wy_inv _ _ _ Hw1 Hi))
      as (d & w2 & r & E2 & Hc2 & Ht2 & Hi2); [apply elem_of_app; right; by left|done|done|]. cbn in E2.
    eexists d, w2, r, _. split; [done|]. split; [exact Hc2|]. split; [done|].
    eapply way_next; [exact Hw1|]. by eapply way_poll.
  - destruct (change_poll_ok _ _ _ _ _ _ _ _ (λ n, set_n_timeout (u32 (n_timeout n - delta tv nd)) n) Hc eq_refl eq_refl)
      as (w1 & E1 & Hc1 & Hw1).
    mstep E1. eexists 0, w1, (lp_running x), _. split; [done|]. split; [by destruct x|]. done.
Qed.

Lemma epoll_func_ok w x ts p1 i nd p2 :
  contents w l0 x ts (p1 ++ (i, nd) :: p2) → inv w →
  ∃ rm w' r rest nd', __epoll_func call_poll l0 i w = Done (rm, w') ∧
    contents w' l0 (set_left_time rest (set_running r x)) ts (p1 ++ (if (rm : bool) then [] else [(i, nd')]) ++ p2) ∧
    way [] w w'.
Proof.
  intros Hc Hi0. destruct (poll_lookup _ _ _ _ _ _ _ _ Hc) as (Hi & Hn & Hk & p & Hp & Hf). unfold __epoll_func.
  rewrite (proj2 (Z.eqb_neq l0 0)) by exact (c_nonnull _ _ _ _ _ Hc). rewrite (proj2 (Z.eqb_neq i 0)) by done.
  mstep (load_node_ok i w nd Hn). rewrite (proj2 (Z.eqb_neq (n_key nd) 0)) by done.
  erewrite M_bind_done by (unfold load_pfd; rewrite Hp; reflexivity).
  mstep (load_loop_ok l0 w x (c_nonnull _ _ _ _ _ Hc) (c_loop _ _ _ _ _ Hc)).
  erewrite M_bind_done by reflexivity.
  assert (Hw0 : way [] w (on_loops (set_nodes (insert i (set_n_tv (lp_tv x) nd))) w)) by by eapply way_own, own_store.
  destruct (run_poll_ok _ x ts p1 i nd p2 p (lp_tv x)
    (store_poll _ _ _ _ _ _ _ _ (set_n_tv (lp_tv x) nd) Hc eq_refl eq_refl) (wy_inv _ _ _ Hw0 Hi0))
    as (d & w1 & r & nd' & E1 & Hc1 & Hk1 & Hw1); [by rewrite loops_on|done|].
  mstep E1. assert (Hw : way [] w w1) by by eapply way_next.
  destruct (d =? 0); cbn [negb].
  - destruct (poll_lookup _ _ _ _ _ _ _ _ Hc1) as (_ & Hn1 & _).
    destruct (lower_left_time_ok _ _ _ _ _ i nd' Hc1 Hn1) as (w2 & E2 & Hc2 & Hw2). mstep E2.
    eexists false, w2, r, _, nd'. split; [done|]. split; [exact Hc2|]. by eapply way_next.
  - destruct (free_poll _ _ _ _ _ _ _ _ Hc1) as (w2 & E2 & Hc2 & Ho2 & _). mstep E2.
    eexists true, w2, r, (lp_left_time x), nd'. split; [done|]. split; [by destruct x|].
    eapply way_next; [exact Hw|by apply way_own].
Qed.

Lemma enum_polls ts ps : ∀ p1 w x, contents w l0 x ts (p1 ++ ps) → inv w →
  ∃ ps' w' r rest, enum_list (__epoll_func call_poll l0) ps.*1 w = Done (ps'.*1, w') ∧
    contents w' l0 (set_left_time rest (set_running r x)) ts (p1 ++ ps') ∧ way [] w w'.
Proof.
  induction ps as [|[i nd] ps IH]; intros p1 w x Hc Hi.
  { exists [], w, (lp_running x), (lp_left_time x). split; [done|]. split; [by destruct x|apply way_refl]. }
  cbn [fmap list_fmap enum_list fst].
  destruct (epoll_func_ok _ _ _ _ _ _ _ Hc Hi) as (rm & w1 & r1 & rest1 & nd' & E1 & Hc1 & Hw1).
  rewrite E1, bind_done. rewrite app_assoc in Hc1.
  destruct (IH _ _ _ Hc1 (wy_inv _ _ _ Hw1 Hi)) as (ps' & w' & r & rest & E' & Hc' & Hw').
  exists ((if rm then [] else [(i, nd')]) ++ ps'), w', r, rest. rewrite E', bind_done. split; [by destruct rm|].
  rewrite <- app_assoc in Hc'. split; [exact Hc'|]. by eapply way_next.
Qed.

(** The entries that stay when those of [key], or all if it is NULL, go. *)
Definition others (key : Z) (es : list entry) : list entry := filter (λ e, key ≠ 0 ∧ n_key e.2 ≠ key) es.

(** The blocks that are left when the entries [es'] remain of [es]. *)
Definition freed (es es' : list entry) w w' : Prop :=
  ∀ i, i ∈ live w' ↔ i ∈ live w ∧ (i ∉ es.*1 ∨ i ∈ es'.*1).

Lemma freed_keep es es' i nd w w' : i ∉ es.*1 → i ∈ live w → freed es es' w w' → freed ((i, nd) :: es) ((i, nd) :: es') w w'.
Proof. intros Hi Hl Hf j. rewrite (Hf j). cbn. rewrite !elem_of_cons. destruct (decide (j = i)) as [->|]; tauto. Qed.
Lemma freed_drop es es' i nd w w1 w' : i ∉ es.*1 → (∀ j, j ∈ es'.*1 → j ∈ es.*1) → live w1 = live w ∖ {[i]} →
  freed es es' w1 w' → freed ((i, nd) :: es) es' w w'.
Proof.
  intros Hi Hs Hl Hf j. rewrite (Hf j), Hl. cbn. rewrite not_elem_of_cons, elem_of_difference, elem_of_singleton.
  destruct (decide (j = i)) as [->|]; [|tauto]. split; [tauto|]. intros [_ [[]|?%Hs]]; done.
Qed.
Lemma others_sub key es j : j ∈ (others key es).*1 → j ∈ es.*1.
Proof. intros (e & -> & He)%list_elem_of_fmap_1. apply list_elem_of_filter in He as [_ He]. by apply list_elem_of_fmap_2. Qed.

Lemma del_cond key nd :
  negb (key =? 0) && negb (n_key nd =? key) = bool_decide (key ≠ 0 ∧ n_key nd ≠ key).
Proof.
  destruct (Z.eqb_spec key 0); cbn [negb andb]; [by rewrite bool_decide_false by tauto|].
  destruct (Z.eqb_spec (n_key nd) key); [by rewrite bool_decide_false by tauto|by rewrite bool_decide_true by tauto].
Qed.

Lemma del_poll_eq key i w nd : i ≠ 0 → ls_nodes (loops_of w) !! i = Some nd →
  __del_poll key i w = if bool_decide (key ≠ 0 ∧ n_key nd ≠ key) then Done (false, w)
    else obind (λ '(_, w'), Done (true, w')) (__free_poll_node i w).
Proof.
  intros Hi Hn. unfold __del_poll. rewrite (proj2 (Z.eqb_neq i 0)) by done. mstep (load_node_ok i w nd Hn).
  rewrite del_cond. by case_bool_decide.
Qed.

Lemma enum_del l x ts key ps : ∀ p1 w, contents w l x ts (p1 ++ ps) →
  ∃ w', enum_list (__del_poll key) ps.*1 w = Done ((others key ps).*1, w') ∧
    contents w' l x ts (p1 ++ others key ps) ∧ own w w' ∧ freed ps (others key ps) w w'.
Proof.
  induction ps as [|[i nd] ps IH]; intros p1 w Hc.
  { exists w. split_and!; try done; [apply own_refl|]. intros i. cbn. rewrite elem_of_nil. tauto. }
  destruct (poll_lookup _ _ _ _ _ _ _ _ Hc) as (Hi & Hn & _). cbn [fmap list_fmap enum_list fst].
  assert (Hni : i ∉ ps.*1 ∧ i ∈ live w).
  { pose proof Hc as []. destruct (nodup_mid_poll _ _ _ _ _ c_nodup0) as (_ & ? & _). split; [done|].
    apply Forall_app in c_polls0 as [_ Hf]. inversion Hf as [|? ? [(_ & _ & ? & _) _]]. done. }
  rewrite (del_poll_eq key i w nd Hi Hn). unfold others. rewrite filter_cons. fold (others key ps).
  case_bool_decide as D; cbn [fst snd].
  - rewrite decide_True by done. rewrite bind_done.
    replace (p1 ++ (i, nd) :: ps) with ((p1 ++ [(i, nd)]) ++ ps) in Hc by (by rewrite <- app_assoc).
    destruct (IH _ _ Hc) as (w' & E' & Hc' & Hs' & Hf'). rewrite E', bind_done.
    exists w'. rewrite <- app_assoc in Hc'. split_and!; [done|exact Hc'|done|]. destruct Hni. by apply freed_keep.
  - rewrite decide_False by done.
    destruct (free_poll _ _ _ _ _ _ _ _ Hc) as (w1 & E1 & Hc1 & Ho1 & Hl1). rewrite E1. cbn [obind].
    rewrite bind_done. destruct (IH _ _ Hc1) as (w' & E' & Hc' & Hs' & Hf'). rewrite E', bind_done.
    exists w'. split_and!; [done|done|by eapply own_trans|].
    eapply freed_drop; [apply Hni|apply others_sub|done|done].
Qed.

(** Walking the queue of descriptors with a function that takes entries off. *)
Lemma walk_pools f w l x ts ps (R : pitcher_loop_t Q → list entry → Prop) :
  contents w l x ts ps → queued (lp_pools x) ps →
  (∀ w1, contents w1 l (set_pools QAway x) ts ps → way [] w w1 →
    ∃ ps' w' x', enum_list f ps.*1 w1 = Done (ps'.*1, w') ∧ contents w' l x' ts ps' ∧
      (∀ q, R (set_pools q x') ps') ∧ way [] w1 w') →
  ∃ ps' w' x', walk_queue (get_pools l) (put_pools l) (queue_enumerate f) w = Done (tt, w') ∧
    contents w' l x' ts ps' ∧ queued (lp_pools x') ps' ∧ R x' ps' ∧ way [] w w'.
Proof.
  intros Hc (a & q & Hq & Hl) Hf. unfold walk_queue, get_pools, put_pools.
  destruct (change_loop_ok w l x ts ps (set_pools QAway) Hc eq_refl) as (w1 & E1 & Hc1 & Hw1).
  destruct (Hf w1 Hc1 Hw1) as (ps' & w2 & x2 & E2 & Hc2 & HR & Hw2).
  pose proof (holds_enumerate f q ps.*1 w1 Hl) as Hen. rewrite E2 in Hen.
  destruct (queue_enumerate _ _ _) as [[q' w2']| | |] eqn:Eq; try done. destruct Hen as [Hq' ->].
  destruct (change_loop_ok w2 l _ ts ps' (set_pools (QHere a q')) Hc2 eq_refl) as (w3 & E3 & Hc3 & Hw3).
  exists ps', w3, (set_pools (QHere a q') x2). split_and!; [|done|by exists a, q'|done|].
  - erewrite M_bind_done.
    2:{ mstep (load_loop_ok l w x (c_nonnull _ _ _ _ _ Hc) (c_loop _ _ _ _ _ Hc)). reflexivity. }
    rewrite Hq. mstep E1. erewrite M_bind_done by exact Eq. exact E3.
  - eapply way_next; [exact Hw1|]. by eapply way_next.
Qed.

(** What walking leaves of the loop's record. *)
Definition same_loop (x x' : pitcher_loop_t Q) : Prop :=
  lp_tasks x' = lp_tasks x ∧ lp_timeout x' = lp_timeout x ∧ lp_epoll_fd x' = lp_epoll_fd x.

Lemma same_loop_trans x1 x2 x3 : same_loop x1 x2 → same_loop x2 x3 → same_loop x1 x3.
Proof. intros (? & ? & ?) (? & ? & ?). split_and!; congruence. Qed.

Lemma entry_split (ps : list entry) i : i ∈ ps.*1 → ∃ p1 nd p2, ps = p1 ++ (i, nd) :: p2.
Proof.
  intros ([i' nd] & -> & Hin)%list_elem_of_fmap_1. apply list_elem_of_split in Hin as (p1 & p2 & ->). eauto.
Qed.

(** Taking [key] away leaves the nodes of the other keys. *)
Lemma others_in w l x ts p1 i nd p2 j :
  contents w l x ts (p1 ++ (i, nd) :: p2) → n_key nd ≠ 0 → j ≠ i → j ∈ (p1 ++ (i, nd) :: p2).*1 →
  j ∈ (others (n_key nd) (p1 ++ (i, nd) :: p2)).*1.
Proof.
  intros [] Hk0 Hj ([j' nd'] & -> & Hin)%list_elem_of_fmap_1. cbn in Hj.
  apply list_elem_of_fmap. exists (j', nd'). split; [done|]. apply list_elem_of_filter. split; [|done]. cbn. split; [done|]. intros Hk.
  apply elem_app_cons in Hin as [Hin|[= ? ?]]; [|done].
  rewrite fmap_app in c_keys0. cbn in c_keys0. rewrite <- Permutation_middle in c_keys0.
  apply NoDup_cons in c_keys0 as [Hnin _]. apply Hnin. rewrite <- fmap_app, <- Hk.
  apply list_elem_of_fmap. by exists (j', nd').
Qed.

(** One event. *)
Definition handle_event (l revents item : Z) : SM unit :=
  if item =? 0 then mret tt
  else
    node ← load_node item;
    if n_key node =? 0 then mret tt
    else
      let key := n_key node in
      pfd ← load_pfd key;
      is_del ← (if pf_func pfd =? 0 then mret 0 else call_poll (pf_func pfd) key revents);
      if negb (is_del =? 0)
      then walk_queue (get_pools l) (put_pools l) (queue_enumerate (__del_poll key))
      else mret tt.

Lemma handle_event_ok w x ts ps revents item :
  contents w l0 x ts ps → queued (lp_pools x) ps → inv w → item ∈ ps.*1 →
  ∃ w' x' ps', handle_event l0 revents item w = Done (tt, w') ∧
    contents w' l0 x' ts ps' ∧ queued (lp_pools x') ps' ∧ same_loop x x' ∧ way [] w w' ∧
    ∀ j, j ≠ item → j ∈ ps.*1 → j ∈ ps'.*1.
Proof.
  intros Hc Hq Hi0 (p1 & nd & p2 & ->)%entry_split.
  destruct (poll_lookup _ _ _ _ _ _ _ _ Hc) as (Hi & Hn & Hk & p & Hp & Hf). unfold handle_event.
  rewrite (proj2 (Z.eqb_neq item 0)) by done. mstep (load_node_ok item w nd Hn).
  rewrite (proj2 (Z.eqb_neq (n_key nd) 0)) by done. cbv zeta.
  erewrite M_bind_done by (unfold load_pfd; rewrite Hp; reflexivity).
  rewrite (proj2 (Z.eqb_neq (pf_func p) 0)) by done.
  destruct (cb_poll _ _ clients w x ts _ (item, nd) p revents Hc Hi0) as (d & w1 & r & E1 & Hc1 & Ht1 & Hi1);
    [apply elem_of_app; right; by left|done|done|]. cbn in E1.
  assert (Hw1 : way [] w w1) by by eapply way_poll.
  mstep E1. destruct (d =? 0); cbn [negb].
  { exists w1, (set_running r x), (p1 ++ (item, nd) :: p2). by destruct x. }
  destruct (walk_pools (__del_poll (n_key nd)) w1 l0 (set_running r x) ts _
    (λ x' ps', same_loop x x' ∧ ps' = others (n_key nd) (p1 ++ (item, nd) :: p2)) Hc1 Hq)
    as (ps' & w2 & x2 & E2 & Hc2 & Hq2 & [Hx ->] & Hw2).
  { intros w3 Hc3 _. destruct (enum_del l0 _ ts (n_key nd) _ [] w3 Hc3) as (w4 & E4 & Hc4 & Ho4 & _).
    eexists _, w4, _. split; [exact E4|]. split; [exact Hc4|]. split; [by destruct x|]. by apply way_own. }
  exists w2, x2, (others (n_key nd) (p1 ++ (item, nd) :: p2)). split_and!; try done.
  - by eapply way_next.
  - intros j Hj Hin. by eapply others_in.
Qed.

Lemma process_events_ok ts n : ∀ w x ps i events evs,
  contents w l0 x ts ps → queued (lp_pools x) ps → inv w → 0 ≤ i → drop (Z.to_nat i) events = evs →
  (n ≤ length evs)%nat → NoDup evs.*2 → Forall (λ ev, ev.2 ∈ ps.*1) evs →
  ∃ w' x' ps', process_events call_poll n l0 i events w = Done (tt, w') ∧
    contents w' l0 x' ts ps' ∧ queued (lp_pools x') ps' ∧ same_loop x x' ∧ way [] w w'.
Proof.
  induction n as [|n IH]; intros w x ps i events evs Hc Hq Hi0 Hi Hd Hn Hnd Hin.
  { exists w, x, ps. split_and!; try done. apply way_refl. }
  destruct evs as [|[re item] evs]; [cbn in Hn; lia|]. cbn [process_events].
  assert (Hl : nthz events i = Some (re, item)).
  { rewrite nthz_lookup by done. rewrite <- (Nat.add_0_r (Z.to_nat i)), <- lookup_drop, Hd. done. }
  erewrite M_bind_done by (unfold loadz; rewrite Hl; reflexivity). fold (handle_event l0 re item).
  inversion Hin as [|? ? Hit Hin']; subst. cbn in Hnd. apply NoDup_cons in Hnd as [Hni Hnd].
  destruct (handle_event_ok w x ts ps re item Hc Hq Hi0 Hit) as (w1 & x1 & ps1 & E1 & Hc1 & Hq1 & Hx1 & Hw1 & Hps1).
  mstep E1. destruct (IH w1 x1 ps1 (i + 1) events evs Hc1 Hq1 (wy_inv _ _ _ Hw1 Hi0))
    as (w' & x' & ps' & E' & Hc' & Hq' & Hx' & Hw').
  - lia.
  - replace (Z.to_nat (i + 1)) with (Z.to_nat i + 1)%nat by lia. rewrite <- drop_drop, Hd. done.
  - cbn in Hn. lia.
  - done.
  - apply Forall_forall. intros ev Hev. rewrite Forall_forall in Hin'. apply Hps1; [|by apply Hin'].
    intros Heq. apply Hni. rewrite <- Heq. by apply list_elem_of_fmap_2.
  - exists w', x', ps'. split_and!; try done; [by eapply same_loop_trans|by eapply way_next].
Qed.

(** The events of one wait speak of different nodes, all of the loop's. *)
Lemma wait_events w l x ts ps fds (evs : list (Z * Z)) :
  contents w l x ts ps → NoDup fds →
  Forall2 (λ fd ev, ∃ v, os_interest (lp_epoll_fd x) (ls_os (loops_of w)) !! fd = Some (v, ev.2)) fds evs →
  NoDup evs.*2 ∧ Forall (λ ev, ev.2 ∈ ps.*1) evs.
Proof.
  intros [] Hnd Hf.
  assert (Hw : ∀ fd v j, os_interest (lp_epoll_fd x) (ls_os (loops_of w)) !! fd = Some (v, j) →
    ∃ nd p, (j, nd) ∈ ps ∧ ls_pfds (loops_of w) !! n_key nd = Some p ∧ pf_fd p = fd).
  { intros fd v j Hv. exact (c_interest0 fd (v, j) Hv). }
  induction Hf as [|fd ev fds evs (v & Hv) Hf IH]; [by split; constructor|].
  apply NoDup_cons in Hnd as [Hfd Hnd]. destruct (IH Hnd) as [IH1 IH2].
  destruct (Hw fd v ev.2 Hv) as (nd & p & Hin & Hp & Hpf). split.
  - cbn. apply NoDup_cons. split; [|done]. intros ([re j] & Ej & Hj)%list_elem_of_fmap_1. cbn in Ej.
    apply list_elem_of_lookup_1 in Hj as (k & Hk). destruct (Forall2_lookup_r _ _ _ _ _ Hf Hk) as (fd' & Hfd' & v' & Hv').
    destruct (Hw fd' v' j Hv') as (nd' & p' & Hin' & Hp' & Hpf').
    assert (nd' = nd) as ->.
    { rewrite fmap_app in c_nodup0. apply NoDup_app in c_nodup0 as (_ & _ & Hnd2).
      apply list_elem_of_lookup in Hin as (a & Ha), Hin' as (b & Hb).
      assert (a = b) as ->. { eapply (NoDup_lookup ps.*1); [done| |]; rewrite list_lookup_fmap; [by rewrite Ha|by rewrite Hb, <- Ej]. }
      rewrite Ha in Hb. by injection Hb. }
    rewrite Hp in Hp'. injection Hp' as <-. apply Hfd. rewrite <- Hpf, Hpf'. by eapply list_elem_of_lookup_2.
  - constructor; [|done]. apply list_elem_of_fmap. by exists (ev.2, nd).
Qed.

(** A loop in order: its contents, and the two queues that hold them. *)
Record loop_ok w l x ts ps : Prop := {
  lo_contents : contents w l x ts ps;
  lo_tasks : queued (lp_tasks x) ts;
  lo_pools : queued (lp_pools x) ps
}.

Lemma process_poll_ok w x ts ps :
  loop_ok w l0 x ts ps → inv w →
  ∃ w' x' ps', __process_poll call_poll l0 w = Done (RET_OK, w') ∧ loop_ok w' l0 x' ts ps' ∧
    same_loop x x' ∧ way [] w w'.
Proof.
  intros [Hc Ht Hp] Hi. unfold __process_poll.
  destruct (walk_pools (__epoll_func call_poll l0) w l0 x ts ps (λ x' _, same_loop x x') Hc Hp)
    as (ps1 & w1 & x1 & E1 & Hc1 & Hq1 & Hx1 & Hw1).
  { intros w1 Hc1 Hw1. destruct (enum_polls ts ps [] w1 _ Hc1 (wy_inv _ _ _ Hw1 Hi)) as (ps' & w2 & r & rest & E2 & Hc2 & Hw2).
    exists ps', w2, (set_left_time rest (set_running r (set_pools QAway x))). split_and!; try done. }
  mstep E1. mstep (load_loop_ok l0 w1 x1 (c_nonnull _ _ _ _ _ Hc1) (c_loop _ _ _ _ _ Hc1)).
  pose proof (epoll_wait_ok (lp_epoll_fd x1) ECOUNT (s32 (lp_left_time x1)) (ls_os (loops_of w1))) as Hw.
  destruct (os_epoll_wait _ _ _ _) as [[nfds evs] o] eqn:Eo. destruct Hw as (Ho & Hn & fds & Hfd & Hf).
  erewrite M_bind_done by (unfold sys; rewrite Eo; reflexivity). cbv beta iota.
  destruct (wait_events _ _ _ _ _ _ _ Hc1 Hfd Hf) as [Hnd Hin].
  assert (Hwo : way [] w1 (on_loops (set_os o) w1)) by apply way_own, own_os.
  destruct (process_events_ok ts (Z.to_nat nfds) _ x1 ps1 0 evs evs (set_os_contents _ _ _ _ _ o Hc1 Ho) Hq1
    (wy_inv _ _ _ Hwo (wy_inv _ _ _ Hw1 Hi)))
    as (w2 & x2 & ps2 & E2 & Hc2 & Hq2 & Hx2 & Hw2); try done; [unfold zlen in Hn; lia|].
  mstep E2. exists w2, x2, ps2. assert (Hx : same_loop x x2) by by eapply same_loop_trans.
  split_and!; try done; [split; try done; by rewrite (proj1 Hx)|].
  eapply way_next; [exact Hw1|]. by eapply way_next.
Qed.

(** *** Turns *)

(** The time the next reading of the clock gives. *)
Definition now w : Z := (os_time (ls_os (loops_of w))).1.

Lemma pre_process_ok w l x ts ps :
  loop_ok w l x ts ps →
  ∃ w', __pre_process l w = Done (RET_OK, w') ∧ loop_ok w' l (set_clock (lp_timeout x) (now w) x) ts ps ∧
    way [] w w'.
Proof.
  intros [Hc Ht Hp]. unfold __pre_process.
  destruct (change_loop_ok w l x ts ps (λ x, set_left_time (lp_timeout x) x) Hc eq_refl) as (w1 & E1 & Hc1 & Hw1).
  mstep E1. assert (Hn : now w1 = now w).
  { unfold change_loop in E1. erewrite M_bind_done in E1 by (apply load_loop_ok; [apply Hc|apply Hc]).
    injection E1 as <-. unfold now. by rewrite loops_on. }
  pose proof (time_ok (ls_os (loops_of w1))) as [_ Ho]. unfold now in Hn at 1.
  destruct (os_time (ls_os (loops_of w1))) as [tv o] eqn:Eo. cbn in Hn, Ho. subst tv.
  erewrite M_bind_done by (unfold sys; rewrite Eo; reflexivity).
  destruct (change_loop_ok _ l _ ts ps (λ x, set_clock (lp_left_time x) (now w) x)
    (set_os_contents _ _ _ _ _ o Hc1 (Ho _)) eq_refl) as (w2 & E2 & Hc2 & Hw2).
  mstep E2. exists w2. split; [done|]. split; [split; try done; by destruct x|].
  eapply way_next; [exact Hw1|]. eapply way_next; [apply way_own, own_os|exact Hw2].
Qed.

Lemma loop_turn_ok w x ts ps :
  loop_ok w l0 x ts ps → inv w →
  ∃ ts' rest w' x' ps' k, loop_turn call_task call_poll l0 w = Done (tt, w') ∧ loop_ok w' l0 x' ts' ps' ∧
    way k w w' ∧ lp_timeout x' = lp_timeout x ∧
    ∀ k', pass (interval w) (now w) (lp_timeout x) (k ++ k') ts = Some (ts', k', rest).
Proof.
  intros Hok Hi. unfold loop_turn. destruct (pre_process_ok w l0 x ts ps Hok) as (w1 & E1 & [Hc1 Ht1 Hp1] & Hw1).
  destruct (process_timer_ok w1 _ ts ps Hc1 Ht1 (wy_inv _ _ _ Hw1 Hi))
    as (ts' & rest & w2 & r & q & k & E2 & Hq2 & Hc2 & Hw2 & Hk).
  cbn [lp_tv lp_left_time set_clock] in Hk. rewrite (interval_same w w1) in Hk by apply Hw1.
  assert (Hok2 : loop_ok w2 l0 (set_task_queue q (set_left_time rest (set_running r (set_clock (lp_timeout x) (now w) x)))) ts' ps).
  { split; try done. }
  pose proof (way_next _ _ _ _ Hw1 Hw2) as Hw.
  destruct (process_poll_ok _ _ _ _ Hok2 (wy_inv _ _ _ Hw Hi)) as (w3 & x3 & ps3 & E3 & Hok3 & Hx3 & Hw3).
  exists ts', rest, w3, x3, ps3, (k ++ []). mstep E1. mstep E2. mstep E3. split_and!; try done.
  - by eapply way_trans.
  - by rewrite (proj1 (proj2 Hx3)).
  - by rewrite app_nil_r.
Qed.

(** Turns one after the other, with the times they read. *)
Inductive turns (l : Z) : list Z → state → state → Prop :=
  | turns_nil w : turns l [] w w
  | turns_cons w w1 w' tvs :
      loop_turn call_task call_poll l w = Done (tt, w1) → turns l tvs w1 w' → turns l (now w :: tvs) w w'.

(** What becomes of the timers [ts] at the readings [tvs], with the calls. *)
Fixpoint passes (ivl : Z → Z) (timeout : Z) (tvs : list Z) (calls : list (Z * Z)) (ts : list entry) :
    option (list entry * list (Z * Z)) :=
  match tvs with
  | [] => Some (ts, calls)
  | tv :: tvs => '(ts', calls, _) ← pass ivl tv timeout calls ts; passes ivl timeout tvs calls ts'
  end.

Lemma turns_passes tvs w w' : turns l0 tvs w w' → ∀ x ts ps, loop_ok w l0 x ts ps → inv w →
  ∃ calls ts' x' ps', loop_ok w' l0 x' ts' ps' ∧ way calls w w' ∧
    ∀ k', passes (interval w) (lp_timeout x) tvs (calls ++ k') ts = Some (ts', k').
Proof.
  induction 1 as [w|w w1 w' tvs E1 _ IH]; intros x ts ps Hok Hi.
  { exists [], ts, x, ps. split_and!; try done. apply way_refl. }
  destruct (loop_turn_ok w x ts ps Hok Hi) as (ts1 & rest & w1' & x1 & ps1 & k & E1' & Hok1 & Hw1 & Hl1 & Hk1).
  rewrite E1 in E1'. injection E1' as <-.
  destruct (IH x1 ts1 ps1 Hok1 (wy_inv _ _ _ Hw1 Hi)) as (calls & ts' & x' & ps' & Hok' & Hw' & Hk').
  rewrite (interval_same w w1), Hl1 in Hk' by apply Hw1.
  exists (k ++ calls), ts', x', ps'. split; [done|]. split; [by eapply way_trans|].
  intros k'. cbn [passes]. rewrite <- app_assoc, Hk1. apply Hk'.
Qed.

(** Any number of turns can be made, with these calls. *)
Lemma turns_made n w x ts ps :
  loop_ok w l0 x ts ps → inv w →
  ∃ tvs calls w' x' ts' ps', length tvs = n ∧ turns l0 tvs w w' ∧ way calls w w' ∧
    passes (interval w) (lp_timeout x) tvs calls ts = Some (ts', []) ∧ loop_ok w' l0 x' ts' ps'.
Proof.
  intros Hok Hi.
  assert (Ht : ∃ tvs w', length tvs = n ∧ turns l0 tvs w w').
  { revert w x ts ps Hok Hi. induction n as [|n IH]; intros w x ts ps Hok Hi; [exists [], w; split; [done|constructor]|].
    destruct (loop_turn_ok w x ts ps Hok Hi) as (ts1 & rest & w1 & x1 & ps1 & k & E1 & Hok1 & Hw1 & _).
    destruct (IH w1 x1 ts1 ps1 Hok1 (wy_inv _ _ _ Hw1 Hi)) as (tvs & w' & Hn & Hr). exists (now w :: tvs), w'.
    split; [by cbn; rewrite Hn|]. by eapply turns_cons. }
  destruct Ht as (tvs & w' & Hn & Hr). destruct (turns_passes tvs w w' Hr x ts ps Hok Hi) as (calls & ts' & x' & ps' & Hok' & Hw & Hk).
  specialize (Hk []). rewrite app_nil_r in Hk. by exists tvs, calls, w', x', ts', ps'.
Qed.

(** C15: a loop keeps going and keeps its timers.  From a loop in order, with
    call-backs that, in the states of an invariant of theirs, return and leave
    the loop alone but for stopping it, any number of turns can be made: no turn
    touches a node that is not the loop's, whatever descriptors are ready, and
    over all turns the tasks are called in the order, at the turns and as often
    as [passes] says, which for every answer keeps the timers that are not used
    up or withdrawn; the loop is in order afterwards and the invariant holds. *)
Theorem loop_turns_refine n w x ts ps :
  loop_ok w l0 x ts ps → inv w →
  ∃ tvs calls w' x' ts' ps', length tvs = n ∧ turns l0 tvs w w' ∧ called calls w w' ∧
    passes (interval w) (lp_timeout x) tvs calls ts = Some (ts', []) ∧ loop_ok w' l0 x' ts' ps' ∧ inv w'.
Proof.
  intros Hok Hi. destruct (turns_made n w x ts ps Hok Hi) as (tvs & calls & w' & x' & ts' & ps' & Hn & Hr & Hw & Hp & Hok').
  exists tvs, calls, w', x', ts', ps'. split_and!; try done; by apply Hw.
Qed.

(** Milliseconds counted over the readings [tvs] of the clock, the last one
    before them being [tv]: what is left of a millisecond at each is lost. *)
Fixpoint elapsed (tv : Z) (tvs : list Z) : Z :=
  match tvs with
  | [] => 0
  | tv' :: tvs => u64 (tv' - tv) / NSEC_PER_MSEC + elapsed tv' tvs
  end.

Lemma delta_nonneg tv nd : 0 ≤ delta tv nd.
Proof. unfold delta, NSEC_PER_MSEC. pose proof (u64_range (tv - n_tv nd)). apply Z.div_pos; lia. Qed.

(** In a pass a timer that is due is called, one that is not is kept. *)
Lemma pass_calls ivl tv ts : ∀ rest calls ts' k' rest',
  pass ivl tv rest calls ts = Some (ts', k', rest') →
  ∃ k, calls = k ++ k' ∧
    ∀ i nd, (i, nd) ∈ ts → n_times nd ≠ 0 →
      if (tick (ivl (n_key nd)) tv nd).1 then n_key nd ∈ k.*1
      else (i, (tick (ivl (n_key nd)) tv nd).2) ∈ ts'.
Proof.
  induction ts as [|[i nd] ts IH]; intros rest calls ts' k' rest'; cbn [pass].
  { intros [= <- <- <-]. exists []. split; [done|]. by intros ? ? ?%elem_of_nil. }
  destruct (tick (ivl (n_key nd)) tv nd) as [due nd'] eqn:Et.
  destruct (take_call due (n_key nd) calls) as [[d calls1]|] eqn:Ek; [|done]. cbn [mbind option_bind].
  assert (Hk1 : ∃ k1, calls = k1 ++ calls1 ∧ (due = true → n_key nd ∈ k1.*1) ∧ (due = false → d = 0)).
  { unfold take_call in Ek. destruct due; [|injection Ek as <- <-; by exists []].
    destruct calls as [|[t d'] calls]; [done|]. destruct (Z.eqb_spec t (n_key nd)) as [->|]; [|done].
    injection Ek as <- <-. exists [(n_key nd, d')]. split_and!; try done. intros _. by left. }
  destruct Hk1 as (k1 & -> & Hdue & Hz). destruct (gone d nd') eqn:Eg.
  - intros Hp. destruct (IH _ _ _ _ _ Hp) as (k & -> & Hin). exists (k1 ++ k). split; [by rewrite app_assoc|].
    intros j nj [[= -> ->]|Hj]%elem_of_cons Hn.
    + rewrite Et. cbn [fst snd]. destruct due; [rewrite fmap_app; apply elem_of_app; auto|].
      exfalso. unfold tick in Et. destruct (_ || _); [done|]. injection Et as <-. unfold gone in Eg. rewrite (Hz eq_refl) in Eg.
      cbn in Eg. by apply Z.eqb_eq in Eg.
    + specialize (Hin j nj Hj Hn). destruct (tick _ _ _).1; [rewrite fmap_app; apply elem_of_app; auto|done].
  - destruct (pass ivl tv _ calls1 ts) as [[[ts1 k2] rest1]|] eqn:Ep; [|done]. cbn. intros [= <- <- <-].
    destruct (IH _ _ _ _ _ Ep) as (k & -> & Hin). exists (k1 ++ k). split; [by rewrite app_assoc|].
    intros j nj [[= -> ->]|Hj]%elem_of_cons Hn.
    + rewrite Et. cbn [fst snd]. destruct due; [rewrite fmap_app; apply elem_of_app; auto|by left].
    + specialize (Hin j nj Hj Hn). destruct (tick _ _ _).1; [rewrite fmap_app; apply elem_of_app; auto|by right].
Qed.

Lemma passes_fire ivl timeout tvs : ∀ calls ts ts' i nd,
  passes ivl timeout tvs calls ts = Some (ts', []) →
  (i, nd) ∈ ts → n_times nd ≠ 0 → 0 ≤ n_timeout nd < 2 ^ 32 → tvs ≠ [] → n_timeout nd ≤ elapsed (n_tv nd) tvs →
  n_key nd ∈ calls.*1.
Proof.
  induction tvs as [|tv tvs IH]; intros calls ts ts' i nd Hp Hin Hn Ht Hne He; [done|]. cbn [passes elapsed] in *.
  fold (delta tv nd) in He. pose proof (delta_nonneg tv nd) as Hd.
  destruct (pass ivl tv timeout calls ts) as [[[ts1 calls1] rest]|] eqn:E1; [|done]. cbn in Hp.
  destruct (pass_calls ivl tv ts _ _ _ _ _ E1) as (k & -> & Hall). specialize (Hall i nd Hin Hn).
  rewrite fmap_app. apply elem_of_app.
  unfold tick in Hall. destruct (_ || _) eqn:Edue; cbn [fst snd] in Hall; [by left|right].
  zbool. assert (Hu : u32 (n_timeout nd - delta tv nd) = n_timeout nd - delta tv nd) by (apply u32_small; lia).
  rewrite Hu in Hall. destruct tvs as [|tv' tvs]; [cbn in He; lia|].
  apply (IH _ _ _ i _ Hp Hall); cbn [n_times n_timeout n_tv] in *; try done; lia.
Qed.

(** C19: every timer fires.  With call-backs that, in the states of an invariant
    of theirs, return and leave the loop alone but for stopping it, once the
    readings of the clock at successive turns add up to the time a timer has
    left, counted in whole milliseconds from reading to reading, its task is
    among the calls [passes] gives for these turns, whatever the other tasks and
    the functions of descriptors answer meanwhile. *)
Theorem timer_fires tvs w w' x ts ps i nd :
  loop_ok w l0 x ts ps → inv w → turns l0 tvs w w' →
  (i, nd) ∈ ts → n_times nd ≠ 0 → 0 ≤ n_timeout nd < 2 ^ 32 → tvs ≠ [] → n_timeout nd ≤ elapsed (n_tv nd) tvs →
  ∃ calls ts', called calls w w' ∧ passes (interval w) (lp_timeout x) tvs calls ts = Some (ts', []) ∧
    n_key nd ∈ calls.*1.
Proof.
  intros Hok Hi Hr Hin Hn Ht Hne He. destruct (turns_passes tvs w w' Hr x ts ps Hok Hi) as (calls & ts' & _ & _ & _ & Hw & Hk).
  specialize (Hk []). rewrite app_nil_r in Hk. exists calls, ts'. split; [apply Hw|]. split; [done|]. by eapply passes_fire.
Qed.

(** Readings less than a millisecond apart. *)
Fixpoint rapid (tv : Z) (tvs : list Z) : Prop :=
  match tvs with
  | [] => True
  | tv' :: tvs => u64 (tv' - tv) < NSEC_PER_MSEC ∧ rapid tv' tvs
  end.

Definition patient (ivl : Z → Z) (e : entry) : Prop :=
  0 < n_timeout e.2 < 2 ^ 32 ∧ n_times e.2 ≠ 0 ∧ ivl (n_key e.2) ≠ 0.

Lemma pass_rapid ivl tv ts calls : ∀ rest,
  Forall (λ e, patient ivl e ∧ delta tv e.2 = 0) ts →
  ∃ rest', pass ivl tv rest calls ts = Some ((λ e : entry, (e.1, set_n_tv tv e.2)) <$> ts, calls, rest').
Proof.
  induction ts as [|[i nd] ts IH]; intros rest Hf; [by exists rest|].
  inversion Hf as [|? ? [(Ht & Hn & Hi) Hd] Hf']; subst. cbn [fst snd] in *. cbn [pass]. unfold tick.
  rewrite Hd, Z.sub_0_r, u32_small, (proj2 (Z.eqb_neq (ivl _) 0)), (proj2 (Z.leb_gt (n_timeout nd) 0)) by lia. cbn [orb].
  unfold take_call, gone. cbn [mbind option_bind]. change (0 =? 0) with true. cbn [negb orb n_times n_timeout].
  rewrite (proj2 (Z.eqb_neq (n_times nd) 0)) by done.
  destruct (IH (Z.min rest (n_timeout nd)) Hf') as (r & ->). by exists r.
Qed.

(** A loop that is kept busy starves its timers: when it turns more than once
    in a millisecond every reading loses its part of one, and however long this
    goes on no timer is called. *)
Theorem timers_starve tvs w w' x ts ps :
  loop_ok w l0 x ts ps → inv w → turns l0 tvs w w' →
  (∀ e, e ∈ ts → patient (interval w) e ∧ rapid (n_tv e.2) tvs) →
  called [] w w'.
Proof.
  intros Hok Hi Hr Hall.
  destruct (turns_passes tvs w w' Hr x ts ps Hok Hi) as (calls & ts' & _ & _ & _ & Hw & Hk).
  specialize (Hk []). rewrite app_nil_r in Hk.
  assert (calls = []) as ->; [|apply Hw]. clear Hok Hr Hw Hi. revert ts Hk Hall.
  generalize (lp_timeout x), (interval w). intros timeout ivl. induction tvs as [|tv tvs IH]; intros ts Hk Hall; [by injection Hk|].
  cbn [passes] in Hk. destruct (pass_rapid ivl tv ts calls timeout) as (rest & Ep).
  { apply Forall_forall. intros e He. destruct (Hall e He) as [Hp [Hd _]]. split; [done|].
    unfold delta. apply Z.div_small. pose proof (u64_range (tv - n_tv e.2)). lia. }
  rewrite Ep in Hk. eapply IH; [exact Hk|].
  intros e ([i nd] & -> & Hin)%list_elem_of_fmap_1. destruct (Hall _ Hin) as [Hp [_ Hrap]]. done.
Qed.

End turns.

(** ** The life of a loop *)

Section lifecycle.
Context {Q O E : Type} `{QueueSpec Q} `{LoopOsSpec O} `{!HasLoops Q O E}.
Abbreviation state := (world (pipes Q E)).
Abbreviation SM := (M (world (pipes Q E))).
Abbreviation live w := (m_live (w_mem w)).
Abbreviation entry := (Z * pitcher_loop_node)%type.
Implicit Types (w : world (pipes Q E)) (l i : Z) (nd : pitcher_loop_node).
Context (alloc : nat → gset Z → option Z).
Context (alloc_fresh : ∀ n X p, alloc n X = Some p → p ∉ X ∧ p ≠ 0).

(** The block of a queue. *)
Definition qblock (r : queue_ref Q) : gset Z := match r with QHere a _ => {[a]} | _ => ∅ end.

(** A queue that can be destroyed. *)
Definition sound w (r : queue_ref Q) : Prop :=
  match r with
  | QNull => True
  | QAway => False
  | QHere a q => a ∈ live w ∧ ∃ es, holds q es
  end.

Lemma release_queue_ok w l x (read : SM (queue_ref Q)) put r x' :
  read w = Done (r, w) → sound w r → (r = QNull → x' = x) → ls_loops (loops_of w) !! l = Some x →
  (∀ w1, loops_of w1 = loops_of w → put QNull w1 = Done (tt, on_loops (set_loops (insert l x')) w1)) →
  ∃ w', release_queue read put w = Done (tt, w') ∧ loops_of w' = set_loops (insert l x') (loops_of w) ∧
    live w' = live w ∖ qblock r.
Proof.
  intros Hg Hs Hn Hx Hp. unfold release_queue. mstep Hg. destruct r as [| |a q]; cbn in Hs |- *; [|done|].
  - rewrite (Hn eq_refl). exists w. split; [done|]. split; [|set_solver].
    unfold set_loops. rewrite insert_id by done. by destruct (loops_of w).
  - destruct Hs as (Ha & es & Hq). unfold delete_queue. cbn [fst snd].
    destruct (free_ok w a Ha) as (w1 & E1 & _ & He1 & Hl1).
    assert (Hw1 : loops_of w1 = loops_of w) by (unfold loops_of; by rewrite He1).
    erewrite M_bind_done.
    2:{ erewrite M_bind_done by (unfold lift; rewrite (holds_destroy q es Hq); reflexivity). exact E1. }
    rewrite (Hp w1 Hw1). eexists. split; [reflexivity|]. rewrite loops_on, Hw1. split; [done|exact Hl1].
Qed.

Lemma load_loop_part {A} l w x (f : pitcher_loop_t Q → A) : l ≠ 0 → ls_loops (loops_of w) !! l = Some x →
  (y ← load_loop l; mret (f y)) w = Done (f x, w).
Proof. intros Hl Hx. by mstep (load_loop_ok l w x Hl Hx). Qed.

Lemma change_loop_eq l w x f : l ≠ 0 → ls_loops (loops_of w) !! l = Some x →
  change_loop l f w = Done (tt, on_loops (set_loops (insert l (f x))) w).
Proof. intros Hl Hx. unfold change_loop. by mstep (load_loop_ok l w x Hl Hx). Qed.

(** The structure of a loop and its queues are given back. *)
Lemma free_loop_ok w l x :
  l ≠ 0 → ls_loops (loops_of w) !! l = Some x → sound w (lp_pools x) → sound w (lp_tasks x) → l ∈ live w →
  qblock (lp_pools x) ## qblock (lp_tasks x) → l ∉ qblock (lp_pools x) ∪ qblock (lp_tasks x) →
  ∃ w', free_loop l w = Done (tt, w') ∧ ls_loops (loops_of w') = delete l (ls_loops (loops_of w)) ∧
    ls_nodes (loops_of w') = ls_nodes (loops_of w) ∧
    live w' = live w ∖ (qblock (lp_pools x) ∪ qblock (lp_tasks x) ∪ {[l]}).
Proof.
  intros Hl Hx Hp Ht HBl Hd Hd'. unfold free_loop.
  destruct (release_queue_ok w l x (get_pools l) (put_pools l) (lp_pools x) (set_pools QNull x))
    as (w1 & E1 & Hw1 & Hl1); try done.
  { by apply load_loop_part. }
  { intros Hr. by destruct x; cbn in *; subst. }
  { intros w1 Hw1. apply change_loop_eq; [done|]. by rewrite Hw1. }
  mstep E1. assert (Hx1 : ls_loops (loops_of w1) !! l = Some (set_pools QNull x)) by (rewrite Hw1; apply lookup_insert_eq).
  destruct (release_queue_ok w1 l (set_pools QNull x) (get_tasks l) (put_tasks l) (lp_tasks x)
    (set_task_queue QNull (set_pools QNull x))) as (w2 & E2 & Hw2 & Hl2); try done.
  { by apply (load_loop_part l w1 (set_pools QNull x) lp_tasks). }
  { destruct (lp_tasks x); [done|done|]. destruct Ht as [Ha He]. split; [|done]. rewrite Hl1. cbn in Hd. set_solver. }
  { intros Hr. by destruct x; cbn in *; subst. }
  { intros w2 Hw2. apply change_loop_eq; [done|]. by rewrite Hw2. }
  mstep E2. mstep (load_loop_ok l w2 _ Hl ltac:(rewrite Hw2; apply lookup_insert_eq)). cbn [lp_epoll_fd set_task_queue set_pools].
  set (w3 := if 0 <=? lp_epoll_fd x then on_loops (set_os (os_close (lp_epoll_fd x) (ls_os (loops_of w2)))) w2 else w2).
  erewrite M_bind_done; [|instantiate (1 := w3); unfold w3; by destruct (0 <=? _)].
  assert (Hw3 : ls_loops (loops_of w3) = ls_loops (loops_of w2) ∧ ls_nodes (loops_of w3) = ls_nodes (loops_of w2) ∧
    live w3 = live w2) by (unfold w3; destruct (0 <=? _); [by rewrite loops_on|done]).
  destruct Hw3 as (A1 & A2 & A3). erewrite M_bind_done by reflexivity.
  destruct (free_ok (on_loops (set_loops (delete l)) w3) l) as (w4 & E4 & _ & He4 & Hl4).
  { change (l ∈ live w3). rewrite A3, Hl2, Hl1. set_solver. }
  exists w4. split; [exact E4|].
  assert (Hw4 : loops_of w4 = set_loops (delete l) (loops_of w3)) by (unfold loops_of; rewrite He4; apply loops_on).
  rewrite Hw4. cbn. rewrite A1, A2, Hw2. cbn. rewrite Hw1. cbn. rewrite !delete_insert_eq. split_and!; [done|done|].
  rewrite Hl4. change (live (on_loops (set_loops (delete l)) w3)) with (live w3). rewrite A3, Hl2, Hl1. set_solver.
Qed.

(** The blocks of a loop. *)
Definition qblocks (x : pitcher_loop_t Q) : gset Z := qblock (lp_pools x) ∪ qblock (lp_tasks x).
Definition nodes_of (es : list entry) : gset Z := list_to_set es.*1.

(** The memory in use is that of a loop in order and [base]. *)
Record alone w l x ts ps (base : gset Z) : Prop := {
  al_ok : loop_ok w l x ts ps;
  al_live : live w = {[l]} ∪ qblocks x ∪ nodes_of (ts ++ ps) ∪ base;
  al_base : {[l]} ∪ qblocks x ∪ nodes_of (ts ++ ps) ## base;
  al_queues : qblock (lp_pools x) ## qblock (lp_tasks x);
  al_loop : l ∉ qblocks x ∪ nodes_of (ts ++ ps);
  al_nodes : qblocks x ## nodes_of (ts ++ ps)
}.

Lemma calloc_fresh w :
  ∃ r w', on_mem (_pitcher_calloc alloc) w = Done (r, w') ∧ loops_of w' = loops_of w ∧
    e_rest (w_env w') = e_rest (w_env w) ∧
    match r with Some p => live w' = {[p]} ∪ live w ∧ p ∉ live w ∧ p ≠ 0 | None => live w' = live w end.
Proof.
  destruct (calloc_ok alloc alloc_fresh w) as (r & w' & Ea & _ & He & Hr).
  exists r, w'. split_and!; [done|unfold loops_of; by rewrite He|by rewrite He|done].
Qed.

Lemma make_queue_ok w :
  ∃ r w', make_queue alloc w = Done (r, w') ∧ loops_of w' = loops_of w ∧ live w' = qblock r ∪ live w ∧
    qblock r ## live w ∧ (r = QNull ∨ queued r []).
Proof.
  destruct (calloc_fresh w) as (r & w1 & E1 & Hw1 & _ & H1). destruct holds_init as [Hi0 (q & Hi1 & Hq)].
  unfold make_queue, new_queue. destruct r as [a|].
  - exists (QHere a q), w1. split.
    { rewrite M_bind_eq. mstep E1. rewrite bool_decide_true by done.
      erewrite M_bind_done by (unfold lift; rewrite Hi1; reflexivity). reflexivity. }
    cbn. destruct H1 as (Hl & Hf & Ha). split_and!; [done|done|set_solver|]. right. by exists a, q.
  - exists QNull, w1. split.
    { rewrite M_bind_eq. mstep E1. rewrite bool_decide_false by (by intros []).
      erewrite M_bind_done by (unfold lift; rewrite Hi0; reflexivity). reflexivity. }
    cbn. split_and!; [done|set_solver|set_solver|by left].
Qed.

(** The failing end of [pitcher_open_loop]. *)
Lemma open_fail w l x (base : gset Z) :
  l ≠ 0 → ls_loops (loops_of w) !! l = Some x → live w = {[l]} ∪ qblocks x ∪ base →
  l ∉ qblocks x ∪ base → qblocks x ## base → qblock (lp_pools x) ## qblock (lp_tasks x) →
  (lp_pools x = QNull ∨ queued (lp_pools x) []) → (lp_tasks x = QNull ∨ queued (lp_tasks x) []) →
  ∃ w', (_ ← free_loop l; mret 0) w = Done (0, w') ∧ live w' = base.
Proof.
  unfold qblocks. intros Hl Hx Hlive Hnl Hb Hd Hp Ht.
  assert (Hs : ∀ r, qblock r ⊆ live w → (r = QNull ∨ queued r []) → sound w r).
  { intros r Hr [->|(a & q & -> & Hq)]; [done|]. split; [set_solver|]. eauto. }
  destruct (free_loop_ok w l x) as (w' & E' & _ & _ & Hl'); try done.
  - apply Hs; [set_solver|done].
  - apply Hs; [set_solver|done].
  - set_solver.
  - set_solver.
  - exists w'. mstep E'. split; [done|]. rewrite Hl', Hlive. set_solver.
Qed.

Lemma get_loop_on l x w : ls_loops (loops_of (on_loops (set_loops (insert l x)) w)) !! l = Some x.
Proof. rewrite loops_on. apply lookup_insert_eq. Qed.

(** Making the two queues, once the descriptor is there. *)
Lemma open_queues w l fd (base : gset Z) :
  l ≠ 0 → 0 ≤ fd → ls_loops (loops_of w) !! l = Some (LoopT fd 0 QNull QNull 0 0 0 0) →
  live w = {[l]} ∪ base → l ∉ base → os_interest fd (ls_os (loops_of w)) = ∅ →
  ∃ r w', (q ← make_queue alloc;
      _ ← put_pools l q;
      match q with
      | QNull => _ ← free_loop l; mret 0
      | _ =>
          q ← make_queue alloc;
          _ ← put_tasks l q;
          match q with
          | QNull => _ ← free_loop l; mret 0
          | _ => _ ← __set_loop_status l 0; _ ← __set_loop_timeout l LOOP_TIMEOUT_DEFAULT; mret l
          end
      end) w = Done (r, w') ∧
    (r = 0 ∧ live w' = base ∨
     ∃ x, r = l ∧ alone w' l x [] [] base ∧ lp_running x = 0 ∧ lp_timeout x = LOOP_TIMEOUT_DEFAULT ∧ lp_epoll_fd x = fd).
Proof.
  intros Hl Hfd Hx Hlive Hnl Hi. unfold put_pools, put_tasks, __set_loop_status, __set_loop_timeout.
  destruct (make_queue_ok w) as (q1 & w1 & E1 & Hw1 & Hl1 & Hd1 & Hq1). mstep E1.
  mstep (change_loop_eq l w1 _ (set_pools q1) Hl ltac:(rewrite Hw1; exact Hx)).
  set (w2 := on_loops _ w1). assert (Hl2 : live w2 = qblock q1 ∪ ({[l]} ∪ base)) by (rewrite <- Hlive; exact Hl1).
  destruct Hq1 as [->|(a & q & -> & Hq)].
  { destruct (open_fail w2 l _ base Hl (get_loop_on _ _ _)) as (w' & E' & Hl');
      [rewrite Hl2; clear; set_solver|clear -Hnl; set_solver|clear; set_solver|clear; set_solver|by left|by left|].
    exists 0, w'. auto. }
  assert (Ha : a ≠ l ∧ a ∉ base) by (rewrite Hlive in Hd1; clear -Hd1; set_solver).
  destruct (make_queue_ok w2) as (q2 & w3 & E3 & Hw3 & Hl3 & Hd3 & Hq2). mstep E3.
  mstep (change_loop_eq l w3 _ (set_task_queue q2) Hl ltac:(rewrite Hw3; apply get_loop_on)).
  set (w4 := on_loops _ w3). assert (Hl4 : live w4 = qblock q2 ∪ live w2) by exact Hl3. rewrite Hl2 in Hl4, Hd3.
  destruct Hq2 as [->|(b & q' & -> & Hq')]; cbn [qblock] in *.
  { destruct (open_fail w4 l _ base Hl (get_loop_on _ _ _)) as (w' & E' & Hl');
      [rewrite Hl4; clear; unfold qblocks; cbn; set_solver|clear -Hnl Ha; unfold qblocks; cbn; set_solver|
       clear -Ha; unfold qblocks; cbn; set_solver|clear; cbn; set_solver|right; by exists a, q|by left|]. exists 0, w'. auto. }
  assert (Hb : b ≠ a ∧ b ≠ l ∧ b ∉ base) by (clear -Hd3; set_solver).
  erewrite M_bind_done by (apply change_loop_eq; [done|apply get_loop_on]).
  erewrite M_bind_done by (apply change_loop_eq; [done|apply get_loop_on]).
  eexists l, _. split; [reflexivity|]. right. exists (LoopT fd 0 (QHere a q) (QHere b q') LOOP_TIMEOUT_DEFAULT 0 0 0).
  split; [done|]. split; [|done].
  split; cbn; [|etrans; [exact Hl4|]; clear; unfold qblocks; cbn; set_solver|clear -Ha Hb Hnl; unfold qblocks; cbn; set_solver|
    clear -Hb; cbn; set_solver|clear -Ha Hb; unfold qblocks; cbn; set_solver|clear; unfold qblocks; cbn; set_solver].
  split; [|by exists b, q'|by exists a, q].
  split; [done|apply get_loop_on|constructor..|]. intros f v. unfold w4, w2. rewrite !loops_on. cbn. rewrite Hw3. unfold w2. rewrite loops_on. cbn.
  by rewrite Hw1, Hi.
Qed.

Lemma sys_ok {A} (f : O → A * O) w a o : f (ls_os (loops_of w)) = (a, o) → sys f w = Done (a, on_loops (set_os o) w).
Proof. intros Ef. unfold sys. by rewrite Ef. Qed.

(** Opening: a loop in order without timers and descriptors, or nothing. *)
Lemma open_loop_ok w :
  ∃ r w', pitcher_open_loop alloc w = Done (r, w') ∧
    (r = 0 ∧ live w' = live w ∨
     ∃ x, r ≠ 0 ∧ alone w' r x [] [] (live w) ∧ lp_running x = 0 ∧ lp_timeout x = LOOP_TIMEOUT_DEFAULT ∧ 0 ≤ lp_epoll_fd x).
Proof.
  unfold pitcher_open_loop. destruct (calloc_fresh w) as (r & w1 & E1 & Hw1 & _ & H1). mstep E1.
  destruct r as [l|]; [|exists 0, w1; auto]. destruct H1 as (Hlive & Hnl & Hl).
  erewrite M_bind_done by reflexivity. set (w2 := on_loops _ w1).
  destruct (os_epoll_create 1 (ls_os (loops_of w2))) as [fd o] eqn:Eo. mstep (sys_ok _ w2 _ _ Eo).
  pose proof (epoll_create_ok 1 (ls_os (loops_of w2))) as Hcr. rewrite Eo in Hcr. cbn in Hcr.
  assert (Hx2 : ls_loops (loops_of (on_loops (set_os o) w2)) !! l = Some (LoopT (-1) 0 QNull QNull 0 0 0 0))
    by (rewrite loops_on; apply get_loop_on).
  mstep (change_loop_eq l _ _ (set_epoll_fd fd) Hl Hx2). set (w3 := on_loops _ (on_loops (set_os o) w2)).
  assert (Hos3 : ls_os (loops_of w3) = o) by (unfold w3; by rewrite !loops_on).
  assert (Hl3 : live w3 = {[l]} ∪ live w) by exact Hlive.
  assert (Hfail : ∀ w4, w_mem w4 = w_mem w3 → ls_loops (loops_of w4) = ls_loops (loops_of w3) →
    ∃ r w', (_ ← free_loop l; mret 0) w4 = Done (r, w') ∧ (r = 0 ∧ live w' = live w ∨
      ∃ x, r ≠ 0 ∧ alone w' r x [] [] (live w) ∧ lp_running x = 0 ∧ lp_timeout x = LOOP_TIMEOUT_DEFAULT ∧ 0 ≤ lp_epoll_fd x)).
  { intros w4 Hm4 Hs4. destruct (open_fail w4 l (LoopT fd 0 QNull QNull 0 0 0 0) (live w) Hl) as (w' & E' & Hl').
    - rewrite Hs4. apply get_loop_on.
    - rewrite Hm4, Hl3. clear. unfold qblocks. cbn. set_solver.
    - clear -Hnl. unfold qblocks. cbn. set_solver.
    - clear. unfold qblocks. cbn. set_solver.
    - clear. cbn. set_solver.
    - by left.
    - by left.
    - exists 0, w'. auto. }
  destruct (Z.eqb_spec fd 0); [by apply Hfail|].
  destruct (os_fcntl fd F_GETFD 0 (ls_os (loops_of w3))) as [flags o1] eqn:Ef. mstep (sys_ok _ w3 _ _ Ef).
  cbv zeta. set (w4 := on_loops (set_os o1) w3). set (c := s32 _).
  destruct (os_fcntl fd c 0 (ls_os (loops_of w4))) as [ret o2] eqn:Ef2. mstep (sys_ok _ w4 _ _ Ef2).
  set (w5 := on_loops (set_os o2) w4).
  assert (Hs5 : ls_loops (loops_of w5) = ls_loops (loops_of w3)) by (unfold w5, w4; by rewrite !loops_on).
  destruct (Z.eqb_spec ret (-1)) as [|Hret]; [by apply Hfail|].
  destruct (fcntl_ok fd F_GETFD 0 (ls_os (loops_of w3))) as [_ Hi1]. rewrite Ef in Hi1.
  destruct (fcntl_ok fd c 0 (ls_os (loops_of w4))) as [Hbad Hi2]. rewrite Ef2 in Hbad, Hi2. cbn [fst snd] in *.
  assert (Hfd : 0 ≤ fd) by lia.
  destruct (open_queues w5 l fd (live w) Hl Hfd) as (r & w' & E' & Hr); try done.
  - rewrite Hs5. apply get_loop_on.
  - unfold w5 at 1. rewrite loops_on. cbn. rewrite Hi2. unfold w4. rewrite loops_on. cbn. rewrite Hi1, Hos3.
    destruct Hcr; [lia|done].
  - exists r, w'. split; [exact E'|]. destruct Hr as [Hr|(x & -> & Ha & H1 & H2 & H3)]; [by left|].
    right. exists x. rewrite H3. auto.
Qed.

(** *** Adding and removing tasks *)

Lemma contents_more w w' l x ts ps :
  contents w l x ts ps → loops_of w' = loops_of w → live w ⊆ live w' → contents w' l x ts ps.
Proof.
  intros [] Hw Hl. assert (Hb : ∀ i, but_node i w w') by (intros i; split; rewrite ?Hw; auto).
  split; rewrite ?Hw; try done; [by apply (timers_all w)|by apply (polls_all w)].
Qed.

Lemma store_task_contents w l x ts ps t tk :
  contents w l x ts ps → tt_func tk ≠ 0 → contents (on_loops (set_tasks (insert t tk)) w) l x ts ps.
Proof.
  intros [] Ht. split; rewrite ?loops_on; try done.
  - apply Forall_forall. intros e He. rewrite Forall_forall in c_timers0. destruct (c_timers0 e He) as [(A1 & A2 & A3 & A4) (tk' & Htk' & Hf)].
    split; [by split_and!; rewrite ?loops_on|]. rewrite loops_on. cbn.
    destruct (decide (n_key e.2 = t)) as [->|Hne]; [exists tk; by rewrite lookup_insert_eq|].
    exists tk'. by rewrite lookup_insert_ne.
  - apply Forall_forall. intros e He. rewrite Forall_forall in c_polls0. destruct (c_polls0 e He) as ((A1 & A2 & A3 & A4) & A5 & A6).
    split; [by split_and!; rewrite ?loops_on|]. by rewrite loops_on.
Qed.

Lemma nodup_snoc (ts ps : list entry) i nd :
  NoDup (ts ++ ps).*1 → i ∉ (ts ++ ps).*1 → NoDup ((ts ++ [(i, nd)]) ++ ps).*1.
Proof.
  intros Hn Hi. assert (Hp : ((ts ++ [(i, nd)]) ++ ps).*1 ≡ₚ i :: (ts ++ ps).*1).
  { rewrite !fmap_app, <- app_assoc. cbn. by rewrite <- Permutation_middle. }
  rewrite Hp. by apply NoDup_cons.
Qed.

Lemma new_timer w l x ts ps i nd tk :
  contents w l x ts ps → i ∉ (ts ++ ps).*1 → i ≠ 0 → i ∈ live w → n_key nd ≠ 0 →
  ls_tasks (loops_of w) !! n_key nd = Some tk → tt_func tk ≠ 0 →
  contents (on_loops (set_nodes (insert i nd)) w) l x (ts ++ [(i, nd)]) ps.
Proof.
  intros [] Hi Hi0 Hl Hk Ht Hf.
  assert (Hb : but_node i w (on_loops (set_nodes (insert i nd)) w)).
  { split; rewrite ?loops_on; try done. intros n Hn. cbn. by apply lookup_insert_ne. }
  rewrite fmap_app, not_elem_of_app in Hi. destruct Hi as [Hi1 Hi2].
  split; rewrite ?loops_on; try done.
  - apply Forall_app. split; [by eapply timers_but|]. apply Forall_singleton. split; [|rewrite loops_on; eauto].
    split_and!; try done. rewrite loops_on. apply lookup_insert_eq.
  - by eapply polls_but.
  - apply nodup_snoc; [done|]. by rewrite fmap_app, not_elem_of_app.
Qed.

(** Pushing a node on the queue of tasks. *)
Lemma push_task w l x ts ts' ps i :
  contents w l x ts' ps → queued (lp_tasks x) ts →
  ∃ ret q w', push_queue (get_tasks l) (put_tasks l) i w = Done (ret, w') ∧
    contents w' l (set_task_queue q x) ts' ps ∧ qblock q = qblock (lp_tasks x) ∧ live w' = live w ∧
    ls_tasks (loops_of w') = ls_tasks (loops_of w) ∧
    (ret = RET_OK ∧ (∃ a q', q = QHere a q' ∧ holds q' (ts.*1 ++ [i])) ∨ ret = - RET_E_NO_MEMORY ∧ queued q ts).
Proof.
  intros Hc (a & q & Hq & Hl). unfold push_queue, get_tasks, put_tasks.
  destruct (holds_push q ts.*1 i Hl) as (ret & q' & Ep & Hr).
  pose proof (change_loop_eq l w x (set_task_queue (QHere a q')) (c_nonnull _ _ _ _ _ Hc) (c_loop _ _ _ _ _ Hc)) as E1.
  exists ret, (QHere a q'), (on_loops (set_loops (insert l (set_task_queue (QHere a q') x))) w). split_and!.
  - erewrite M_bind_done by (by apply (load_loop_part l w x lp_tasks); apply Hc). rewrite Hq.
    erewrite M_bind_done by (unfold lift; rewrite Ep; reflexivity). cbv beta iota. by mstep E1.
  - by apply (set_loop_contents w l x).
  - by rewrite Hq.
  - done.
  - by rewrite loops_on.
  - destruct Hr as [[-> Hh]|[-> Hh]]; [left|right]; (split; [done|]); by exists a, q'.
Qed.

Lemma del_task_eq key i w nd : i ≠ 0 → ls_nodes (loops_of w) !! i = Some nd →
  __del_task key i w = if bool_decide (key ≠ 0 ∧ n_key nd ≠ key) then Done (false, w)
    else obind (λ '(_, w'), Done (true, w')) (free_node i w).
Proof.
  intros Hi Hn. unfold __del_task. rewrite (proj2 (Z.eqb_neq i 0)) by done. mstep (load_node_ok i w nd Hn).
  rewrite del_cond. by case_bool_decide.
Qed.

Lemma enum_del_tasks l x ps key ts : ∀ t1 w, contents w l x (t1 ++ ts) ps →
  ∃ w', enum_list (__del_task key) ts.*1 w = Done ((others key ts).*1, w') ∧
    contents w' l x (t1 ++ others key ts) ps ∧ freed ts (others key ts) w w'.
Proof.
  induction ts as [|[i nd] ts IH]; intros t1 w Hc.
  { exists w. split_and!; try done. intros i. cbn. rewrite elem_of_nil. tauto. }
  destruct (contents_lookup _ _ _ _ _ _ _ _ Hc) as (Hi & Hn & _). cbn [fmap list_fmap enum_list fst].
  assert (Hni : i ∉ ts.*1 ∧ i ∈ live w).
  { pose proof Hc as []. destruct (nodup_mid _ _ _ _ _ c_nodup0) as (_ & ? & _). split; [done|].
    apply Forall_app in c_timers0 as [_ Hf]. inversion Hf as [|? ? [(_ & _ & ? & _) _]]. done. }
  rewrite (del_task_eq key i w nd Hi Hn). unfold others. rewrite filter_cons. fold (others key ts). destruct Hni.
  case_bool_decide as D; cbn [fst snd].
  - rewrite decide_True by done. rewrite bind_done.
    replace (t1 ++ (i, nd) :: ts) with ((t1 ++ [(i, nd)]) ++ ts) in Hc by (by rewrite <- app_assoc).
    destruct (IH _ _ Hc) as (w' & E' & Hc' & Hf'). rewrite E', bind_done.
    exists w'. rewrite <- app_assoc in Hc'. split_and!; [done|exact Hc'|]. by apply freed_keep.
  - rewrite decide_False by done.
    destruct (free_timer _ _ _ _ _ _ _ _ Hc) as (w1 & E1 & Hc1 & He1 & Hl1). rewrite E1. cbn [obind].
    rewrite bind_done. destruct (IH _ _ Hc1) as (w' & E' & Hc' & Hf'). rewrite E', bind_done.
    exists w'. split_and!; [done|done|]. eapply freed_drop; [done|apply others_sub|done|done].
Qed.

Lemma assert_loop_ok w l x ts ps :
  contents w l x ts ps → 0 ≤ lp_epoll_fd x → assert_loop l w = Done (x, w).
Proof.
  intros Hc Hf. unfold assert_loop. mstep (load_loop_ok l w x (c_nonnull _ _ _ _ _ Hc) (c_loop _ _ _ _ _ Hc)).
  rewrite (proj2 (Z.leb_le 0 _)) by done. reflexivity.
Qed.

(** What is left of the blocks of a loop when timers go. *)
Lemma alone_freed w w' l x q ts ts' ps (base : gset Z) :
  alone w l x ts ps base → loop_ok w' l (set_task_queue q x) ts' ps → qblock q = qblock (lp_tasks x) →
  (∀ j, j ∈ ts'.*1 → j ∈ ts.*1) → (∃ w1, live w1 = live w ∧ freed ts ts' w1 w') →
  alone w' l (set_task_queue q x) ts' ps base.
Proof.
  intros [Hok Hlive Hb Hq Hl Hn] Hok' Hq' Hs (w1 & Hl1 & Hf).
  assert (Hnd : ∀ j, j ∈ ts.*1 → j ∉ ps.*1).
  { destruct Hok as [[] _ _]. intros j. rewrite fmap_app in c_nodup0. apply NoDup_app in c_nodup0. naive_solver. }
  unfold nodes_of, qblocks in *. cbn [lp_pools lp_tasks set_task_queue] in *.
  assert (Hnodes : ∀ t j, j ∈ (list_to_set (t ++ ps).*1 : gset Z) ↔ j ∈ t.*1 ∨ j ∈ ps.*1)
    by (intros t j; rewrite elem_of_list_to_set, fmap_app; apply elem_of_app).
  assert (Eb : qblocks (set_task_queue q x) = qblock (lp_pools x) ∪ qblock (lp_tasks x))
    by (unfold qblocks; cbn; by rewrite Hq').
  split; try done; rewrite ?Eb; unfold nodes_of; cbn [lp_pools lp_tasks set_task_queue]; rewrite ?Hq'; try done.
  - apply set_eq. intros j. rewrite (Hf j), Hl1, Hlive, !elem_of_union, !Hnodes.
    specialize (Hb j). specialize (Hn j). rewrite !elem_of_union, !Hnodes in Hb. rewrite !elem_of_union, !Hnodes in Hn.
    rewrite !not_elem_of_union, Hnodes in Hl. rewrite elem_of_singleton in *. specialize (Hs j). specialize (Hnd j).
    destruct (decide (j ∈ ts.*1)), (decide (j ∈ ts'.*1)), (decide (j = l)); subst; tauto.
  - intros j. specialize (Hb j). specialize (Hs j). rewrite !elem_of_union, !Hnodes in *. tauto.
  - rewrite !not_elem_of_union, !Hnodes in *. specialize (Hs l). tauto.
  - intros j. specialize (Hn j). specialize (Hs j). rewrite !elem_of_union, !Hnodes in *. tauto.
Qed.

Definition task_there w t : Prop := t ≠ 0 ∧ ∃ tk, ls_tasks (loops_of w) !! t = Some tk ∧ tt_func tk ≠ 0.

(** Putting a node on the queue, or freeing it when the queue refuses. *)
Lemma queue_task w l x ts ps base i nd tk :
  alone w l x ts ps base → 0 ≤ lp_epoll_fd x → n_key nd ≠ 0 → i ≠ 0 → i ∉ live w →
  ∀ w0, loops_of w0 = set_nodes (insert i nd) (loops_of w) → live w0 = {[i]} ∪ live w →
  ls_tasks (loops_of w) !! n_key nd = Some tk → tt_func tk ≠ 0 →
  ∃ ret q w', (ret ← push_queue (get_tasks l) (put_tasks l) i;
               if ret <? 0 then _ ← free_node i; mret ret else mret RET_OK) w0 = Done (ret, w') ∧
    ls_tasks (loops_of w') = ls_tasks (loops_of w) ∧
    (ret = RET_OK ∧ alone w' l (set_task_queue q x) (ts ++ [(i, nd)]) ps base ∨
     ret = - RET_E_NO_MEMORY ∧ alone w' l (set_task_queue q x) ts ps base).
Proof.
  intros Ha Hfd Hk Hi Hni w0 Hw0 Hl0 Ht Hf. pose proof Ha as [[Hc Hqt Hqp] Hlive Hb Hq Hl Hn].
  assert (Hnin : i ∉ (ts ++ ps).*1).
  { intros Hin. apply Hni. rewrite Hlive. unfold nodes_of. rewrite !elem_of_union, elem_of_list_to_set. tauto. }
  assert (Hc0 : contents w0 l x (ts ++ [(i, nd)]) ps).
  { apply (contents_more (on_loops (set_nodes (insert i nd)) (World (w_mem w0) (w_bufs w) (w_env w)))); [|by rewrite loops_on|done].
    apply (new_timer _ _ _ _ _ _ _ tk); try done; [|by cbn; rewrite Hl0; apply elem_of_union_l, elem_of_singleton].
    apply (contents_more w); [done|done|]. cbn. rewrite Hl0. apply union_subseteq_r. }
  destruct (push_task w0 l x ts _ ps i Hc0 Hqt) as (ret & q & w1 & E1 & Hc1 & Hqb & Hl1 & Ht1 & Hret).
  exists ret, q. mstep E1. assert (Hts : ls_tasks (loops_of w1) = ls_tasks (loops_of w)) by (rewrite Ht1, Hw0; done).
  destruct Hret as [[-> (a & q' & -> & Hh)]|[-> Hq1]].
  - exists w1. split; [done|]. split; [done|]. left. split; [done|].
    unfold nodes_of, qblocks in *. cbn [lp_pools lp_tasks set_task_queue].
    assert (Hnd : (list_to_set ((ts ++ [(i, nd)]) ++ ps).*1 : gset Z) = {[i]} ∪ list_to_set (ts ++ ps).*1).
    { rewrite !fmap_app. cbn. rewrite !list_to_set_app_L. cbn. clear. set_solver. }
    assert (Hib : i ≠ l ∧ i ∉ qblock (lp_pools x) ∪ qblock (lp_tasks x) ∧ i ∉ base)
      by (rewrite Hlive in Hni; clear -Hni; set_solver).
    split; unfold nodes_of, qblocks; cbn [lp_pools lp_tasks set_task_queue]; rewrite ?Hqb, ?Hnd; try done.
    + split; [done| |done]. exists a, q'. split; [done|]. by rewrite fmap_app.
    + rewrite Hl1, Hl0, Hlive. clear. set_solver.
    + clear -Hb Hib. set_solver.
    + clear -Hl Hib. set_solver.
    + clear -Hn Hib. set_solver.
  - change (- RET_E_NO_MEMORY <? 0) with true. cbv iota.
    destruct (free_timer _ _ _ _ _ _ _ _ Hc1) as (w2 & E2 & Hc2 & He2 & Hl2). rewrite app_nil_r in Hc2. mstep E2.
    exists w2. split; [done|].
    assert (Hw2 : loops_of w2 = set_nodes (delete i) (loops_of w1)) by (unfold loops_of; rewrite He2; apply loops_on).
    split; [by rewrite Hw2|]. right. split; [done|]. apply (alone_freed w _ l x q ts ts ps base Ha); try done.
    exists w. split; [done|]. intros j. rewrite Hl2, Hl1, Hl0, elem_of_difference, elem_of_union, elem_of_singleton.
    destruct (decide (j ∈ ts.*1)), (decide (j = i)) as [->|]; tauto.
Qed.

Lemma add_task_ok w l x ts ps base t :
  alone w l x ts ps base → 0 ≤ lp_epoll_fd x → task_there w t →
  ∃ ret q w', pitcher_loop_add_task alloc l t w = Done (ret, w') ∧
    (∀ t', task_there w t' → task_there w' t') ∧
    (ret = RET_OK ∧ (∃ i nd, n_key nd = t ∧ n_timeout nd ≠ 0 ∧ alone w' l (set_task_queue q x) (ts ++ [(i, nd)]) ps base) ∨
     ret = - RET_E_NO_MEMORY ∧ alone w' l (set_task_queue q x) ts ps base).
Proof.
  intros Ha Hfd (Ht0 & tk & Htk & Hf). unfold pitcher_loop_add_task.
  mstep (assert_loop_ok w l x ts ps (lo_contents _ _ _ _ _ (al_ok _ _ _ _ _ _ Ha)) Hfd).
  rewrite (proj2 (Z.eqb_neq t 0)) by done. erewrite M_bind_done by (unfold load_task; rewrite Htk; reflexivity).
  rewrite (proj2 (Z.eqb_neq (tt_func tk) 0)) by done.
  destruct (calloc_fresh w) as (r & w1 & E1 & Hw1 & _ & H1). mstep E1. destruct r as [i|].
  2:{ exists (- RET_E_NO_MEMORY), (lp_tasks x), w1. split; [done|]. split; [by unfold task_there; rewrite Hw1|].
      right. split; [done|]. destruct Ha as [[]]. destruct x. split; try done; [|by rewrite H1].
      split; try done. eapply contents_more; [done|done|by rewrite H1]. }
  destruct H1 as (Hl1 & Hi1 & Hi0). set (tk' := if tt_interval tk =? 0 then _ else tk).
  assert (Hf' : tt_func tk' ≠ 0) by (unfold tk'; by destruct (_ =? 0)).
  assert (Hv : tt_interval tk' ≠ 0) by (unfold tk', LOOP_TIMEOUT_DEFAULT; destruct (Z.eqb_spec (tt_interval tk) 0); [cbn; lia|done]).
  erewrite M_bind_done by reflexivity. set (w2 := on_loops _ w1).
  destruct (os_time (ls_os (loops_of w2))) as [tv o] eqn:Eo. mstep (sys_ok _ w2 _ _ Eo).
  erewrite M_bind_done by reflexivity. set (nd := LoopNode t tv (tt_interval tk') (tt_times tk') l).
  (* the state but for the new node *)
  set (w3 := on_loops (set_os o) (on_loops (set_tasks (insert t tk')) w)).
  assert (Ha3 : alone w3 l x ts ps base).
  { destruct Ha as [[Hc Hqt Hqp]]. split; try done. split; try done.
    apply set_os_contents; [by apply store_task_contents|]. rewrite loops_on.
    pose proof (time_ok (ls_os (loops_of w2))) as [_ Ho]. rewrite Eo in Ho. cbn in Ho. rewrite Ho.
    unfold w2. rewrite loops_on. cbn. by rewrite Hw1. }
  assert (Hl3 : loops_of (on_loops (set_nodes (insert i nd)) (on_loops (set_os o) w2)) = set_nodes (insert i nd) (loops_of w3)).
  { unfold w2, w3. rewrite !loops_on. by rewrite Hw1. }
  assert (Ht3 : ls_tasks (loops_of w3) = <[t := tk']> (ls_tasks (loops_of w))) by (unfold w3; by rewrite !loops_on).
  destruct (queue_task w3 l x ts ps base i nd tk' Ha3 Hfd Ht0 Hi0 Hi1 _ Hl3 Hl1) as (ret & q & w' & E' & Ht' & Hr);
    [rewrite Ht3; apply lookup_insert_eq|done|].
  exists ret, q, w'. split; [exact E'|]. split.
  { intros t' (Ht'0 & k & Hk & Hkf). split; [done|]. rewrite Ht', Ht3. destruct (decide (t' = t)) as [->|].
    - rewrite lookup_insert_eq. eauto.
    - rewrite lookup_insert_ne by done. eauto. }
  destruct Hr as [[-> Ha']|[-> Ha']]; [left|by right]. split; [done|]. by exists i, nd.
Qed.

Lemma free_node_tasks i w w' : free_node i w = Done (tt, w') → ls_tasks (loops_of w') = ls_tasks (loops_of w).
Proof.
  unfold free_node, on_mem. erewrite M_bind_done by reflexivity. intros E'.
  destruct (pitcher_free _ _) as [[[] m]| | |]; cbn in E'; try done. injection E' as <-. unfold loops_of at 1. cbn. by rewrite the_put.
Qed.

Lemma enum_del_keep_tasks key items : ∀ w rs w', enum_list (__del_task key) items w = Done (rs, w') →
  ls_tasks (loops_of w') = ls_tasks (loops_of w).
Proof.
  induction items as [|i items IH]; intros w rs w'; [by intros [= _ <-]|]. cbn [enum_list].
  intros ([d w1] & E1 & E2)%bind_done_inv. apply bind_done_inv in E2 as ([rs' w2] & E2 & [= _ <-]).
  rewrite (IH _ _ _ E2). unfold __del_task in E1. destruct (i =? 0); [by injection E1 as _ <-|].
  apply M_bind_inv in E1 as (nd & w3 & En & E1). unfold load_node in En. destruct (_ !! i); [|done]. injection En as _ <-.
  destruct (_ && _); [by injection E1 as _ <-|]. apply M_bind_inv in E1 as ([] & w3 & Ef & [= _ <-]). by eapply free_node_tasks.
Qed.

(** Emptying or thinning out the queue of tasks. *)
Lemma walk_del_tasks key (walk : Q → state → outcome (Q * state)) w l x ts ps base :
  (∀ q es w1 rs w2, holds q es.*1 → enum_list (__del_task key) es.*1 w1 = Done (rs, w2) → rs = (others key es).*1 →
     ∃ q', walk q w1 = Done (q', w2) ∧ holds q' (others key es).*1) →
  alone w l x ts ps base →
  ∃ q w', walk_queue (get_tasks l) (put_tasks l) walk w = Done (tt, w') ∧
    ls_tasks (loops_of w') = ls_tasks (loops_of w) ∧
    alone w' l (set_task_queue q x) (others key ts) ps base.
Proof.
  intros Hwalk Ha. pose proof (al_ok _ _ _ _ _ _ Ha) as [Hc (a & q & Hq & Hh) Hp].
  pose proof (c_nonnull _ _ _ _ _ Hc) as Hl. pose proof (c_loop _ _ _ _ _ Hc) as Hx.
  unfold walk_queue, get_tasks, put_tasks. erewrite M_bind_done by (by apply (load_loop_part l w x lp_tasks)). rewrite Hq.
  mstep (change_loop_eq l w x (set_task_queue QAway) Hl Hx).
  pose proof (set_loop_contents w l x (set_task_queue QAway x) ts ps Hc eq_refl) as Hc1. set (w1 := on_loops _ w) in *.
  destruct (enum_del_tasks l _ ps key ts [] w1 Hc1) as (w2 & E2 & Hc2 & Hf2).
  destruct (Hwalk q ts w1 _ w2 Hh E2 eq_refl) as (q' & Ew & Hh').
  erewrite M_bind_done by exact Ew. set (x' := set_task_queue (QHere a q') x).
  exists (QHere a q'), (on_loops (set_loops (insert l x')) w2). cbn [app] in Hc2.
  assert (E3 : change_loop l (set_task_queue (QHere a q')) w2 = Done (tt, on_loops (set_loops (insert l x')) w2)).
  { by rewrite (change_loop_eq l w2 _ (set_task_queue (QHere a q')) Hl (c_loop _ _ _ _ _ Hc2)). }
  split; [exact E3|]. split.
  { rewrite loops_on. cbn. rewrite (enum_del_keep_tasks _ _ _ _ _ E2). unfold w1. by rewrite loops_on. }
  eapply alone_freed; [exact Ha| |by rewrite Hq|apply others_sub|by exists w1]. split; [|by exists a, q'|exact Hp].
  by apply (set_loop_contents w2 l (set_task_queue QAway x) x').
Qed.

Lemma del_task_ok w l x ts ps base t :
  alone w l x ts ps base → 0 ≤ lp_epoll_fd x →
  ∃ q w', pitcher_loop_del_task l t w = Done (RET_OK, w') ∧ ls_tasks (loops_of w') = ls_tasks (loops_of w) ∧
    alone w' l (set_task_queue q x) (others t ts) ps base.
Proof.
  intros Ha Hfd. unfold pitcher_loop_del_task.
  mstep (assert_loop_ok w l x ts ps (lo_contents _ _ _ _ _ (al_ok _ _ _ _ _ _ Ha)) Hfd).
  destruct (walk_del_tasks t (queue_enumerate (__del_task t)) w l x ts ps base) as (q & w' & E' & H'); [|done|].
  - intros q es w1 rs w2 Hh Hen ->. pose proof (holds_enumerate (__del_task t) q es.*1 w1 Hh) as Hr. rewrite Hen in Hr.
    destruct (queue_enumerate _ _ _) as [[q' w2']| | |]; try done. destruct Hr as [? ->]. by exists q'.
  - exists q, w'. by mstep E'.
Qed.

Lemma others_null es : others 0 es = [].
Proof. unfold others. induction es as [|e es IH]; [done|]. rewrite filter_cons, decide_False by tauto. done. Qed.

(** Emptying the queue of descriptors. *)
Lemma clear_pools_ok w l x ps base :
  alone w l x [] ps base →
  ∃ q w', walk_queue (get_pools l) (put_pools l) (queue_clear (Some (__del_poll 0))) w = Done (tt, w') ∧
    contents w' l (set_pools q x) [] [] ∧ queued q [] ∧ qblock q = qblock (lp_pools x) ∧
    live w' = live w ∖ nodes_of ps.
Proof.
  intros Ha. pose proof (al_ok _ _ _ _ _ _ Ha) as [Hc Ht (a & q & Hq & Hh)].
  pose proof (c_nonnull _ _ _ _ _ Hc) as Hl. pose proof (c_loop _ _ _ _ _ Hc) as Hx.
  unfold walk_queue, get_pools, put_pools. erewrite M_bind_done by (by apply (load_loop_part l w x lp_pools)). rewrite Hq.
  mstep (change_loop_eq l w x (set_pools QAway) Hl Hx).
  pose proof (set_loop_contents w l x (set_pools QAway x) [] ps Hc eq_refl) as Hc1. set (w1 := on_loops _ w) in *.
  destruct (enum_del l _ [] 0 ps [] w1 Hc1) as (w2 & E2 & Hc2 & _ & Hf2).
  pose proof (holds_clear (__del_poll 0) q ps.*1 w1 Hh) as Hr. rewrite E2 in Hr.
  destruct (queue_clear _ _ _) as [[q' w2']| | |] eqn:Ec; try done. destruct Hr as [Hq' ->].
  erewrite M_bind_done by exact Ec. rewrite others_null in Hc2, Hf2. cbn [app] in Hc2.
  exists (QHere a q'), (on_loops (set_loops (insert l (set_pools (QHere a q') x))) w2).
  split; [by rewrite (change_loop_eq l w2 _ (set_pools (QHere a q')) Hl (c_loop _ _ _ _ _ Hc2))|].
  split; [by apply (set_loop_contents w2 l (set_pools QAway x))|]. split; [by exists a, q'|]. split; [done|].
  apply set_eq. intros j. change (j ∈ live w2 ↔ j ∈ live w ∖ nodes_of ps). rewrite (Hf2 j), elem_of_difference.
  unfold nodes_of. rewrite elem_of_list_to_set. cbn. rewrite elem_of_nil. change (live w1) with (live w). tauto.
Qed.

Lemma queued_sound w r es : queued r es → qblock r ⊆ live w → sound w r.
Proof. intros (a & q & -> & Hq) Hl. split; [apply Hl; cbn; by apply elem_of_singleton|eauto]. Qed.

Lemma close_loop_ok w l x ts ps base :
  alone w l x ts ps base → 0 ≤ lp_epoll_fd x → lp_running x = 0 →
  ∃ w', pitcher_close_loop l w = Done (tt, w') ∧ live w' = base.
Proof.
  intros Ha Hfd Hr. unfold pitcher_close_loop.
  mstep (assert_loop_ok w l x ts ps (lo_contents _ _ _ _ _ (al_ok _ _ _ _ _ _ Ha)) Hfd).
  rewrite Hr. erewrite M_bind_done by reflexivity.
  destruct (walk_del_tasks 0 (queue_clear (Some (__del_task 0))) w l x ts ps base) as (q & w1 & E1 & _ & Ha1); [|done|].
  { intros q es w1 rs w2 Hh Hen ->. pose proof (holds_clear (__del_task 0) q es.*1 w1 Hh) as Hcl. rewrite Hen in Hcl.
    destruct (queue_clear _ _ _) as [[q' w2']| | |]; try done. destruct Hcl as [? ->]. exists q'. by rewrite others_null. }
  mstep E1. rewrite others_null in Ha1.
  destruct (clear_pools_ok w1 l _ ps base Ha1) as (q' & w2 & E2 & Hc2 & Hq2 & Hqb2 & Hl2). mstep E2.
  destruct Ha1 as [[_ Hqt _] Hlive Hb Hq Hl Hn]. cbn [app] in *. unfold qblocks in *. cbn [lp_pools lp_tasks set_task_queue] in *.
  destruct (free_loop_ok w2 l _ (c_nonnull _ _ _ _ _ Hc2) (c_loop _ _ _ _ _ Hc2)) as (w3 & E3 & _ & _ & Hl3);
    cbn [lp_pools lp_tasks set_task_queue set_pools]; rewrite ?Hqb2.
  - apply (queued_sound _ _ []); [done|]. rewrite Hqb2, Hl2, Hlive. clear -Hn. set_solver.
  - apply (queued_sound _ _ []); [done|]. rewrite Hl2, Hlive. clear -Hn. set_solver.
  - rewrite Hl2, Hlive. clear -Hl. set_solver.
  - done.
  - clear -Hl. set_solver.
  - exists w3. split; [exact E3|]. cbn [lp_pools lp_tasks set_task_queue set_pools] in Hl3. rewrite Hl3, Hqb2, Hl2, Hlive.
    clear -Hb Hl Hn. set_solver.
Qed.

(** What a program does with the tasks of a loop, and what it may see: an added
    task is kept unless memory is refused; removing one removes it as often as
    it was added, and removing NULL removes all. *)
Inductive task_op := TAdd (t : Z) | TDel (t : Z).

Fixpoint run_tasks (l : Z) (ops : list task_op) : SM (list Z) :=
  match ops with
  | [] => mret []
  | op :: ops =>
      r ← (match op with TAdd t => pitcher_loop_add_task alloc l t | TDel t => pitcher_loop_del_task l t end);
      rs ← run_tasks l ops;
      mret (r :: rs)
  end.

Fixpoint task_contract (ks : list Z) (ops : list task_op) (rs : list Z) : option (list Z) :=
  match ops, rs with
  | [], [] => Some ks
  | TAdd t :: ops, r :: rs =>
      if r =? RET_OK then task_contract (ks ++ [t]) ops rs
      else if r =? - RET_E_NO_MEMORY then task_contract ks ops rs else None
  | TDel t :: ops, r :: rs =>
      if r =? RET_OK then task_contract (filter (λ k, t ≠ 0 ∧ k ≠ t) ks) ops rs else None
  | _, _ => None
  end.

Abbreviation keys ts := ((λ e : Z * pitcher_loop_node, n_key e.2) <$> ts).

Lemma keys_others t ts : keys (others t ts) = filter (λ k, t ≠ 0 ∧ k ≠ t) (keys ts).
Proof.
  unfold others. induction ts as [|e ts IH]; [done|].
  change (keys (e :: ts)) with (n_key e.2 :: keys ts). rewrite !filter_cons.
  destruct (decide (t ≠ 0 ∧ n_key e.2 ≠ t)) as [D|D]; [|exact IH].
  change (n_key e.2 :: keys (filter (λ e : entry, t ≠ 0 ∧ n_key e.2 ≠ t) ts) = n_key e.2 :: filter (λ k, t ≠ 0 ∧ k ≠ t) (keys ts)).
  by f_equal.
Qed.

Lemma run_tasks_ok l ops : ∀ w x ts ps base,
  alone w l x ts ps base → 0 ≤ lp_epoll_fd x → (∀ t, TAdd t ∈ ops → task_there w t) →
  ∃ rs q w' ts', run_tasks l ops w = Done (rs, w') ∧ task_contract (keys ts) ops rs = Some (keys ts') ∧
    alone w' l (set_task_queue q x) ts' ps base.
Proof.
  induction ops as [|op ops IH]; intros w x ts ps base Ha Hfd Hops.
  { exists [], (lp_tasks x), w, ts. split_and!; try done. by destruct x. }
  assert (Hstep : ∃ r q w1 ts1, (match op with TAdd t => pitcher_loop_add_task alloc l t | TDel t => pitcher_loop_del_task l t end) w
      = Done (r, w1) ∧ alone w1 l (set_task_queue q x) ts1 ps base ∧ (∀ t, task_there w t → task_there w1 t) ∧
      ∀ rs, task_contract (keys ts) (op :: ops) (r :: rs) = task_contract (keys ts1) ops rs).
  { destruct op as [t|t].
    - destruct (add_task_ok w l x ts ps base t Ha Hfd (Hops t (list_elem_of_here _ _))) as (r & q & w1 & E1 & Ht1 & Hr).
      destruct Hr as [(-> & i & nd & Hk & _ & Ha1)|[-> Ha1]].
      + exists RET_OK, q, w1, (ts ++ [(i, nd)]). split_and!; try done. intros rs. cbn. by rewrite fmap_app, <- Hk.
      + by exists (- RET_E_NO_MEMORY), q, w1, ts.
    - destruct (del_task_ok w l x ts ps base t Ha Hfd) as (q & w1 & E1 & Ht1 & Ha1).
      exists RET_OK, q, w1, (others t ts). split; [done|]. split; [done|]. split.
      + unfold task_there. by rewrite Ht1.
      + intros rs. cbn [task_contract]. change (RET_OK =? RET_OK) with true. cbv iota. by rewrite keys_others. }
  destruct Hstep as (r & q & w1 & ts1 & E1 & Ha1 & Ht1 & Hc).
  destruct (IH w1 _ ts1 ps base Ha1 Hfd) as (rs & q' & w' & ts' & E' & Hrs & Ha').
  { intros t Ht. apply Ht1, Hops. by right. }
  exists (r :: rs), q', w', ts'. cbn [run_tasks]. mstep E1. mstep E'. split; [done|]. split; [by rewrite Hc|].
  by destruct x.
Qed.

(** Computations that leave the tasks alone. *)
Create HintDb keep.

Definition keeps_tasks {A} (m : SM A) : Prop :=
  ∀ w a w', m w = Done (a, w') → ls_tasks (loops_of w') = ls_tasks (loops_of w).

Lemma keeps_bind {A B} (m : SM A) (f : A → SM B) : keeps_tasks m → (∀ a, keeps_tasks (f a)) → keeps_tasks (m ≫= f).
Proof. intros Hm Hf w b w' (a & w1 & E1 & E2)%M_bind_inv. by rewrite (Hf _ _ _ _ E2), (Hm _ _ _ E1). Qed.
Lemma keeps_ret {A} (a : A) : keeps_tasks (mret a).
Proof. by intros w b w' [= _ <-]. Qed.
Lemma keeps_lift {A} (o : outcome A) : keeps_tasks (lift o).
Proof. intros w b w'. unfold lift. destruct o; by intros [= _ <-]. Qed.
Lemma keeps_sys {A} (f : O → A * O) : keeps_tasks (sys f).
Proof. intros w b w'. unfold sys. destruct (f _). intros [= _ <-]. by rewrite loops_on. Qed.
Lemma keeps_mem {A} (m : M mem A) : keeps_tasks (on_mem m).
Proof. intros w b w'. unfold on_mem. destruct (m (w_mem w)) as [[? ?]| | |]; by intros [= _ <-]. Qed.
Lemma keeps_set_loops f : keeps_tasks (modify (on_loops (set_loops f))).
Proof. intros w b w' [= _ <-]. by rewrite loops_on. Qed.
Lemma keeps_store l x : keeps_tasks (store_loop l x).
Proof. apply keeps_set_loops. Qed.
Lemma keeps_load l : keeps_tasks (load_loop l).
Proof. intros w b w'. unfold load_loop. destruct (l =? 0); [done|]. by destruct (_ !! l); intros [= _ <-]. Qed.
Lemma keeps_change l f : keeps_tasks (change_loop l f).
Proof. apply keeps_bind; [apply keeps_load|]. intros x. apply keeps_set_loops. Qed.
#[local] Hint Resolve keeps_ret keeps_lift keeps_sys keeps_mem keeps_set_loops keeps_store keeps_load keeps_change : keep.

Ltac keep := repeat first
  [ apply keeps_bind; [|intros ?] | progress auto with keep
  | match goal with |- keeps_tasks (match ?x with _ => _ end) => destruct x end ].

Lemma open_keeps : keeps_tasks (pitcher_open_loop alloc).
Proof.
  unfold pitcher_open_loop, free_loop, release_queue, get_pools, put_pools, get_tasks, put_tasks, delete_queue,
    make_queue, new_queue, __set_loop_status, __set_loop_timeout. cbv zeta. keep.
Qed.

(** C21: the life of a loop.  [pitcher_open_loop] gives a loop in order or
    leaves nothing behind; after any additions and removals of tasks the loop
    holds the tasks that [task_contract] says, in order, and
    [pitcher_close_loop] then frees every block taken since: loop, queues and
    nodes. *)
Theorem loop_lifecycle w ops :
  (∀ t, TAdd t ∈ ops → task_there w t) →
  ∃ l w1, pitcher_open_loop alloc w = Done (l, w1) ∧
    (l = 0 ∧ live w1 = live w ∨
     l ≠ 0 ∧ ∃ rs w2 x ts w3, run_tasks l ops w1 = Done (rs, w2) ∧ loop_ok w2 l x ts [] ∧
       task_contract [] ops rs = Some (keys ts) ∧
       pitcher_close_loop l w2 = Done (tt, w3) ∧ live w3 = live w).
Proof.
  intros Hops. destruct (open_loop_ok w) as (l & w1 & E1 & H1). exists l, w1. split; [done|].
  destruct H1 as [H1|(x & Hl & Ha & Hr & _ & Hfd)]; [by left|right]. split; [done|].
  destruct (run_tasks_ok l ops w1 x [] [] _ Ha Hfd) as (rs & q & w2 & ts & E2 & Hc & Ha2).
  { intros t Ht. unfold task_there. rewrite (open_keeps _ _ _ E1). by apply Hops. }
  destruct (close_loop_ok w2 l _ ts [] _ Ha2 Hfd Hr) as (w3 & E3 & Hl3).
  exists rs, w2, (set_task_queue q x), ts, w3. split_and!; try done. apply Ha2.
Qed.
End lifecycle.

(** ** Witnesses

    A system whose clock ticks once a millisecond and whose first descriptor is
    always ready; without descriptors it waits for the time given. *)
Record flat_os := FlatOs { fo_clock : Z; fo_next : Z; fo_epolls : gmap Z (gmap Z (Z * Z)) }.

Definition fo_interest (e : Z) (o : flat_os) : gmap Z (Z * Z) := default ∅ (fo_epolls o !! e).
Definition fo_set (e : Z) (m : gmap Z (Z * Z)) (o : flat_os) : flat_os :=
  FlatOs (fo_clock o) (fo_next o) (<[e := m]> (fo_epolls o)).

#[export] Instance flat_loop_os : LoopOs flat_os := {
  os_time o := (u64 (fo_clock o), FlatOs (fo_clock o + NSEC_PER_MSEC) (fo_next o) (fo_epolls o));
  os_epoll_create _ o := (fo_next o, FlatOs (fo_clock o) (fo_next o + 1) (<[fo_next o := ∅]> (fo_epolls o)));
  os_epoll_ctl e op fd v o :=
    match v with
    | Some v => match fo_interest e o !! fd with
                | Some _ => (-1, o)
                | None => (0, fo_set e (<[fd := v]> (fo_interest e o)) o)
                end
    | None => (0, fo_set e (delete fd (fo_interest e o)) o)
    end;
  os_epoll_wait e _ t o :=
    match map_to_list (fo_interest e o) with
    | [] => (0, [], FlatOs (fo_clock o + Z.max 0 t * NSEC_PER_MSEC) (fo_next o) (fo_epolls o))
    | (_, v) :: _ => (1, [v], o)
    end;
  os_fcntl fd _ _ o := (if fd <? 0 then -1 else 0, o);
  os_close _ o := o;
  os_gettid o := (1, o);
  os_kill _ _ o := o;
  os_usleep _ o := o
}.

#[export] Instance flat_loop_os_spec : LoopOsSpec flat_os.
Proof.
  refine {| os_interest := fo_interest |}; try done.
  - intros o. split; [apply u64_range|done].
  - intros n o. right. unfold fo_interest. cbn. by rewrite lookup_insert_eq.
  - intros fd c a o. split; [|done]. intros Hfd. cbn. by rewrite (proj2 (Z.ltb_lt fd 0)).
  - intros e fd v o. cbn. destruct (fo_interest e o !! fd) eqn:E; [by right|]. left.
    split_and!; [done|done|]. unfold fo_interest at 1. cbn. by rewrite lookup_insert_eq.
  - intros e fd o. cbn. unfold fo_interest at 1. cbn. by rewrite lookup_insert_eq.
  - intros e n t o. cbn. destruct (map_to_list (fo_interest e o)) as [|[fd v] k] eqn:E.
    + split_and!; [done|done|]. exists []. split; constructor.
    + split_and!; [done|done|]. exists [fd]. split; [apply NoDup_singleton|]. constructor; [|constructor].
      exists v.1. destruct v. apply elem_of_map_to_list. rewrite E. by left.
Defined.

(** Loops with a record of the calls beside them. *)
Definition logged (Q : Type) : Type := loops Q flat_os * list Z.
#[export] Instance logged_has_loops Q : HasLoops Q flat_os (logged Q) := {
  the_loops e := e.1;
  put_loops x e := (x, e.2);
  the_put _ _ := eq_refl;
  put_put _ _ _ := eq_refl;
  put_the e := match e with (x, h) => eq_refl end
}.

Definition log_task {Q} (f t : Z) : M (world (pipes Q (logged Q))) Z := λ w,
  Done (0, set_env (λ e, Pipes (e_pipes e) ((e_rest e).1, (e_rest e).2 ++ [t])) w).
Definition log_poll {Q} (f p ev : Z) : M (world (pipes Q (logged Q))) Z := mret 0.

#[local] Instance loop_queue_ops : QueueOps (list Z) := list_queue_ops.
#[local] Instance loop_queue_spec : QueueSpec (list Z) := list_queue_spec.

Lemma set_running_id {Q} (x : pitcher_loop_t Q) : set_running (lp_running x) x = x.
Proof. by destruct x. Qed.

Abbreviation logs := (world (pipes (list Z) (logged (list Z)))).

(** The record of the calls. *)
Definition the_log (w : logs) : list Z := (e_rest (w_env w)).2.

(** Functions that only keep a record meet what the loop asks of them. *)
Lemma log_callbacks l : Callbacks (Q := list Z) (O := flat_os) log_task log_poll l (λ _, True).
Proof.
  split; [done| |].
  - intros w x ts ps e t Hc _ _ _ _. eexists 0, _, (lp_running x). split; [reflexivity|]. rewrite set_running_id.
    split; [|done]. by apply (contents_more w).
  - intros w x ts ps e p ev Hc _ _ _ _. exists 0, w, (lp_running x). by rewrite set_running_id.
Qed.

Lemma called_log k (w w' : logs) : called (Q := list Z) (O := flat_os) log_task log_poll k w w' → the_log w' = the_log w ++ k.*1.
Proof.
  induction 1 as [w|k w w1 w' Ho _ IH|k w w1 w' t tk d _ _ E _ IH|k w w1 w' p pf ev d _ _ E _ IH].
  - by rewrite app_nil_r.
  - rewrite IH. destruct (own_rest _ _ Ho) as (y & Hy). unfold the_log. by rewrite Hy.
  - injection E as <- <-. rewrite IH. unfold the_log. cbn. by rewrite <- app_assoc.
  - by injection E as <- <-.
Qed.

(** A loop at 1 with a timer of two milliseconds (node 4, task 7) and the
    descriptor 9 (node 5, owner 8). *)
Definition loop_example : world (pipes (list Z) (logged (list Z))) :=
  World (Mem {[1; 2; 3; 4; 5]} 5 5) ∅ (Pipes ∅
    (Loops {[1 := LoopT 6 1 (QHere 2 [5]) (QHere 3 [4]) 1 0 0 0]}
       {[4 := LoopNode 7 0 2 (-1) 1; 5 := LoopNode 8 0 1 0 1]}
       {[7 := TimerTask 1 0 2 (-1)]} {[8 := PollFd 1 9 1 1 0]}
       (FlatOs NSEC_PER_MSEC 7 {[6 := {[9 := (1, 5)]}]}), [])).

Lemma loop_example_ok :
  loop_ok loop_example 1 (LoopT 6 1 (QHere 2 [5]) (QHere 3 [4]) 1 0 0 0)
    [(4, LoopNode 7 0 2 (-1) 1)] [(5, LoopNode 8 0 1 0 1)].
Proof.
  split; [|by exists 3, [4]|by exists 2, [5]]. split; try done.
  - constructor; [|constructor]. split; [by split_and!|]. by exists (TimerTask 1 0 2 (-1)).
  - constructor; [|constructor]. split; [by split_and!|]. split; [done|]. by exists (PollFd 1 9 1 1 0).
  - by apply (bool_decide_unpack _).
  - by apply (bool_decide_unpack _).
  - intros fd v. change (os_interest _ _) with ({[9 := (1, 5)]} : gmap Z (Z * Z)).
    intros [<- <-]%lookup_singleton_Some. exists (LoopNode 8 0 1 0 1), (PollFd 1 9 1 1 0). split_and!; [by left|done|done].
Qed.

Abbreviation example_turns := (turns (Q := list Z) (O := flat_os) (E := logged (list Z)) log_task log_poll 1).

Lemma loop_turns_refine_witness :
  ∃ tvs calls w' ts', length tvs = 3%nat ∧ example_turns tvs loop_example w' ∧
    passes (interval loop_example) 1 tvs calls [(4, LoopNode 7 0 2 (-1) 1)] = Some (ts', []) ∧ the_log w' = calls.*1.
Proof.
  destruct (loop_turns_refine log_task log_poll 1 (λ _, True) (log_callbacks 1) 3 loop_example _ _ _ loop_example_ok I)
    as (tvs & calls & w' & x' & ts' & ps' & Hn & Hr & Hk & Hp & _).
  exists tvs, calls, w', ts'. split; [exact Hn|]. split; [exact Hr|]. split; [exact Hp|exact (called_log _ _ _ Hk)].
Defined.

Lemma timer_fires_witness :
  ∃ tvs w', example_turns tvs loop_example w' ∧ 7 ∈ the_log w'.
Proof.
  assert (Ht : ∃ tv1 tv2 w', example_turns [tv1; tv2] loop_example w' ∧ tv1 = NSEC_PER_MSEC ∧ tv2 = 2 * NSEC_PER_MSEC).
  { do 3 eexists. split; [eapply turns_cons; [vm_compute; reflexivity|];
      eapply turns_cons; [vm_compute; reflexivity|]; apply turns_nil|]. by vm_compute. }
  destruct Ht as (tv1 & tv2 & w' & Ht & -> & ->). exists [NSEC_PER_MSEC; 2 * NSEC_PER_MSEC], w'.
  destruct (timer_fires (Q := list Z) (O := flat_os) (E := logged (list Z)) log_task log_poll 1 (λ _, True) (log_callbacks 1)
    _ loop_example w' _ _ _ 4 (LoopNode 7 0 2 (-1) 1) loop_example_ok I Ht) as (calls & ts' & Hk & _ & Hin);
    [by left|discriminate|by vm_compute|discriminate|by vm_compute|].
  split; [exact Ht|]. rewrite (called_log _ _ _ Hk). exact Hin.
Defined.

(** Before there is a loop: the task 7. *)
Definition task_example : world (pipes (list Z) (logged (list Z))) :=
  World (Mem ∅ 0 0) ∅ (Pipes ∅ (Loops ∅ ∅ {[7 := TimerTask 1 0 0 (-1)]} ∅ (FlatOs 0 6 ∅), [])).

Lemma loop_lifecycle_witness :
  ∃ l w1, pitcher_open_loop calloc_pipe task_example = Done (l, w1) ∧
    (l = 0 ∧ m_live (w_mem w1) = ∅ ∨
     l ≠ 0 ∧ ∃ rs w2 ts w3, run_tasks calloc_pipe l [TAdd 7; TDel 7; TAdd 7] w1 = Done (rs, w2) ∧
       task_contract [] [TAdd 7; TDel 7; TAdd 7] rs = Some ((λ e : Z * pitcher_loop_node, n_key e.2) <$> ts) ∧
       pitcher_close_loop l w2 = Done (tt, w3) ∧ m_live (w_mem w3) = ∅).
Proof.
  destruct (loop_lifecycle (Q := list Z) (O := flat_os) calloc_pipe calloc_pipe_fresh task_example [TAdd 7; TDel 7; TAdd 7])
    as (l & w1 & E1 & H1).
  { intros t Ht. assert (t = 7) as -> by (rewrite !elem_of_cons, elem_of_nil in Ht; naive_solver).
    split; [done|]. by exists (TimerTask 1 0 0 (-1)). }
  exists l, w1. split; [done|]. destruct H1 as [H1|(Hl & rs & w2 & x & ts & w3 & E2 & _ & Hc & E3 & Hw)]; [by left|right].
  split; [done|]. exists rs, w2, ts, w3. exact (conj E2 (conj Hc (conj E3 Hw))).
Defined.

(** A queue that has no memory for another node. *)
Definition full_queue_ops : QueueOps (list Z) :=
  let '(Build_QueueOps _ a b c d e f g h i) := list_queue_ops in
  Build_QueueOps _ a b (λ q _, Done (- RET_E_NO_MEMORY, q)) d e f (λ W, g W) (λ W, h W) (λ W, i W).

(** A descriptor the kernel registers but the queue refuses: the node is freed,
    and the kernel will give its address with the next event. *)
Lemma add_poll_refused_dangles :
  let w := World (Mem {[1; 2; 3]} 3 3) ∅ (Pipes ∅
    (Loops {[1 := LoopT 6 1 (QHere 2 []) (QHere 3 []) 1 0 0 0]} ∅ ∅ {[8 := PollFd 1 9 1 1 0]} (FlatOs 0 7 {[6 := ∅]}))) in
  match pitcher_loop_add_poll_fd (Q := list Z) (QueueOps0 := full_queue_ops) (λ _ _, Some 4) 1 8 w with
  | Done (ret, w') => ret = - RET_E_NO_MEMORY ∧ 4 ∉ m_live (w_mem w') ∧
      fo_interest 6 (ls_os (loops_of w')) !! 9 = Some (1, 4)
  | _ => False
  end.
Proof. vm_compute. by split_and!. Qed.

(** The descriptor of a loop is not closed on exec: what the second [fcntl] is
    given as its command is the value that sets the flag. *)
Lemma open_loop_flags : F_GETFD = FD_CLOEXEC.
Proof. done. Qed.
