(* ===== verification/Core.v ===== *)
(** * core.c: contexts, channels and their connections

    A context owns channels, the pipes between them and a loop.  A channel is a
    unit with a number and a state; numbers come from a bitmap, and all channels
    of the program are on one list.  The structures embedded in another one are
    known by its address: the timer task of a context is the task of that
    address, the descriptor of a channel likewise.  As in Loop.v a queue is away
    from its context while it is walked. *)

From S2P Require Import Prelude Dlist Queue Buffer Pipe Unit Loop.

(** ** Numbers *)

(* C: pitcher/core.c chn_bitmap 57-57 *)
Definition CHN_WORDS : Z := 256.
(* C: pitcher/core.c __get_chnno 62-62 *)
Definition BITS_PER_LONG : Z := 64.

(** The first clear bit from [j] on. *)
(* C: pitcher/core.c __get_chnno 69-74 *)
Fixpoint find_bit (n : nat) (word j : Z) : option Z :=
  match n with
  | 0%nat => None
  | S n => if negb (Z.land word (u64 (Z.shiftl 1 j)) =? 0) then find_bit n word (j + 1) else Some j
  end.

(** The words from index [i] on: the number found, and the words with its bit
    set; -1 when there is none. *)
(* C: pitcher/core.c __get_chnno *)
Fixpoint __get_chnno (bitmap : list Z) (i : Z) : Z * list Z :=
  match bitmap with
  | [] => (-1, [])
  | word :: bitmap =>
      if word =? u64 (Z.lnot 0) then let '(r, b) := __get_chnno bitmap (i + 1) in (r, word :: b)
      else
        match find_bit (Z.to_nat BITS_PER_LONG) word 0 with
        | Some j => (s32 (u32 (i * BITS_PER_LONG + j)), Z.lor word (u64 (Z.shiftl 1 j)) :: bitmap)
        | None => let '(r, b) := __get_chnno bitmap (i + 1) in (r, word :: b)
        end
  end.

(* C: pitcher/core.c __put_chnno *)
Definition __put_chnno (chnno : Z) (bitmap : list Z) : list Z :=
  let i := chnno / BITS_PER_LONG in
  let j := chnno mod BITS_PER_LONG in
  if CHN_WORDS <=? i then bitmap
  else <[Z.to_nat i := Z.land (default 0 (bitmap !! Z.to_nat i)) (u64 (Z.lnot (u64 (Z.shiftl 1 j))))]> bitmap.

(** ** Data *)

(* C: pitcher/pitcher.h PITCHER_STATE_STOPPED 25-30 *)
Definition PITCHER_STATE_STOPPED : Z := 0.
Definition PITCHER_STATE_STOPPING : Z := 1.
Definition PITCHER_STATE_ACTIVE : Z := 2.
Definition PITCHER_STATE_UNKNOWN : Z := 3.

Definition POLLERR : Z := 8.

(** The functions core.c gives to others, by number. *)
Definition TIMER_FUNC : Z := 1.
Definition POLL_FUNC : Z := 1.
Definition NOTIFY_FUNC : Z := 1.

(* C: pitcher/core.c pitcher_core 29-36 *)
Record pitcher_core (Q : Type) := CoreT {
  cr_pipes : queue_ref Q;
  cr_chns : queue_ref Q;
  cr_loop : Z;
  cr_total_count : Z;
  cr_enable_count : Z
}.
Arguments CoreT {Q}. Arguments cr_pipes {Q}. Arguments cr_chns {Q}. Arguments cr_loop {Q}.
Arguments cr_total_count {Q}. Arguments cr_enable_count {Q}.

(** The name, which is only printed, is left out. *)
(* C: pitcher/core.c pitcher_chn 38-49 *)
Record pitcher_chn := Chn {
  ch_chnno : Z;
  ch_error : Z;
  ch_unit : Z;
  ch_state : Z;
  ch_core : Z;
  ch_ignore_pollerr : Z;
  ch_preferred_fourcc : Z
}.

(* C: pitcher/core.c connect_t 51-55 *)
Record connect_t := Connect { ct_src : Z; ct_dst : Z; ct_priv : Z }.

(** The contexts and channels by address, the two statics of the file (the list
    head is at [co_head]), the loops, and the rest of the program's state. *)
Record cores (Q O F : Type) := Cores {
  co_cores : gmap Z (pitcher_core Q);
  co_chns : gmap Z pitcher_chn;
  co_bitmap : list Z;
  co_list : heap;
  co_head : Z;
  co_loops : loops Q O;
  co_rest : F
}.
Arguments Cores {Q O F}. Arguments co_cores {Q O F}. Arguments co_chns {Q O F}. Arguments co_bitmap {Q O F}.
Arguments co_list {Q O F}. Arguments co_head {Q O F}. Arguments co_loops {Q O F}. Arguments co_rest {Q O F}.

#[export] Instance cores_has_loops Q O F : HasLoops Q O (units Q (cores Q O F)) := {
  the_loops e := co_loops (u_rest e);
  put_loops x e := Units (e_units e) (let c := u_rest e in
    Cores (co_cores c) (co_chns c) (co_bitmap c) (co_list c) (co_head c) x (co_rest c));
  the_put _ _ := eq_refl;
  put_put _ _ _ := eq_refl;
  put_the e := match e with Units u (Cores a b c d f g h) => eq_refl end
}.

(** ** Operations *)

Section core.
Context {Q O F : Type} `{!QueueOps Q} `{!LoopOs O}.
Abbreviation state := (world (pipes Q (units Q (cores Q O F)))).
Abbreviation SM := (M (world (pipes Q (units Q (cores Q O F))))).
Context (alloc : nat → gset Z → option Z).
Context (call_plane : Z → pitcher_buf_ref → Z → M (world (pipes Q (units Q (cores Q O F)))) (Z * pitcher_buf_ref)).
Context (call_recycle : Z → Z → M (world (pipes Q (units Q (cores Q O F)))) bool).
(** What the pipes' notifications and the units' call-backs do. *)
Context (call_notify : Z → Z → M (world (pipes Q (units Q (cores Q O F)))) unit).
Context (call_init call_cleanup call_start call_stop : Z → Z → M (world (pipes Q (units Q (cores Q O F)))) Z).
Context (call_alloc_buffer : Z → Z → M (world (pipes Q (units Q (cores Q O F)))) Z).
Context (call_check_ready : Z → Z → M (world (pipes Q (units Q (cores Q O F)))) (Z * Z)).
Context (call_runfunc : Z → Z → Z → M (world (pipes Q (units Q (cores Q O F)))) Z).

Definition cores_of (w : state) : cores Q O F := u_rest (e_rest (w_env w)).
Definition on_cores (f : cores Q O F → cores Q O F) (w : state) : state :=
  set_env (λ e, Pipes (e_pipes e) (Units (e_units (e_rest e)) (f (u_rest (e_rest e))))) w.

Definition set_core_map (f : gmap Z (pitcher_core Q) → gmap Z (pitcher_core Q)) (c : cores Q O F) :=
  Cores (f (co_cores c)) (co_chns c) (co_bitmap c) (co_list c) (co_head c) (co_loops c) (co_rest c).
Definition set_chns (f : gmap Z pitcher_chn → gmap Z pitcher_chn) (c : cores Q O F) :=
  Cores (co_cores c) (f (co_chns c)) (co_bitmap c) (co_list c) (co_head c) (co_loops c) (co_rest c).
Definition set_bitmap (b : list Z) (c : cores Q O F) :=
  Cores (co_cores c) (co_chns c) b (co_list c) (co_head c) (co_loops c) (co_rest c).
Definition set_list (h : heap) (c : cores Q O F) :=
  Cores (co_cores c) (co_chns c) (co_bitmap c) h (co_head c) (co_loops c) (co_rest c).

(** [assert(core)], then the structure. *)
Definition load_core (a : Z) : SM (pitcher_core Q) := λ w,
  if a =? 0 then Trap else obind (λ x, Done (x, w)) (of_option (co_cores (cores_of w) !! a)).
Definition store_core (a : Z) (x : pitcher_core Q) : SM unit := modify (on_cores (set_core_map (insert a x))).
Definition load_chn (a : Z) : SM pitcher_chn := λ w,
  obind (λ x, Done (x, w)) (of_option (co_chns (cores_of w) !! a)).
Definition store_chn (a : Z) (x : pitcher_chn) : SM unit := modify (on_cores (set_chns (insert a x))).

Definition set_pipes q (x : pitcher_core Q) := CoreT q (cr_chns x) (cr_loop x) (cr_total_count x) (cr_enable_count x).
Definition set_chn_queue q (x : pitcher_core Q) := CoreT (cr_pipes x) q (cr_loop x) (cr_total_count x) (cr_enable_count x).
Definition set_loop_ptr l (x : pitcher_core Q) := CoreT (cr_pipes x) (cr_chns x) l (cr_total_count x) (cr_enable_count x).
Definition set_counts t e (x : pitcher_core Q) := CoreT (cr_pipes x) (cr_chns x) (cr_loop x) t e.
Definition set_error e (x : pitcher_chn) := Chn (ch_chnno x) e (ch_unit x) (ch_state x) (ch_core x) (ch_ignore_pollerr x) (ch_preferred_fourcc x).
Definition set_state s (x : pitcher_chn) := Chn (ch_chnno x) (ch_error x) (ch_unit x) s (ch_core x) (ch_ignore_pollerr x) (ch_preferred_fourcc x).
Definition set_ignore i (x : pitcher_chn) := Chn (ch_chnno x) (ch_error x) (ch_unit x) (ch_state x) (ch_core x) i (ch_preferred_fourcc x).
Definition set_fourcc f (x : pitcher_chn) := Chn (ch_chnno x) (ch_error x) (ch_unit x) (ch_state x) (ch_core x) (ch_ignore_pollerr x) f.

Definition change_core (a : Z) (f : pitcher_core Q → pitcher_core Q) : SM unit := x ← load_core a; store_core a (f x).
Definition change_chn (a : Z) (f : pitcher_chn → pitcher_chn) : SM unit := x ← load_chn a; store_chn a (f x).

Definition get_cpipes a : SM (queue_ref Q) := x ← load_core a; mret (cr_pipes x).
Definition put_cpipes a q : SM unit := change_core a (set_pipes q).
Definition get_cchns a : SM (queue_ref Q) := x ← load_core a; mret (cr_chns x).
Definition put_cchns a q : SM unit := change_core a (set_chn_queue q).

(** Walking a queue with an argument of the walker's own. *)
Definition enumerate_with {A} (q : SM (queue_ref Q)) (put : queue_ref Q → SM unit)
    (func : Z → A → SM (bool * A)) (arg : A) : SM A :=
  r ← q;
  match r with
  | QNull => mret arg
  | QAway => lift UB
  | QHere a q =>
      _ ← put QAway;
      '(q, arg) ← (λ w, obind (λ '(q, (arg, w)), Done ((q, arg), w))
        (queue_enumerate (λ item '(arg, w), obind (λ '((del, arg), w), Done (del, (arg, w))) (func item arg w)) q (arg, w)));
      _ ← put (QHere a q);
      mret arg
  end.

Definition on_list {A} (m : M heap A) : SM A := λ w,
  obind (λ '(a, h), Done (a, on_cores (set_list h) w)) (m (co_list (cores_of w))).

Definition put_chnno (chnno : Z) : SM unit :=
  w ← get; modify (on_cores (set_bitmap (__put_chnno chnno (co_bitmap (cores_of w))))).
Definition get_chnno : SM Z :=
  w ← get;
  let '(r, b) := __get_chnno (co_bitmap (cores_of w)) 0 in
  _ ← modify (on_cores (set_bitmap b));
  mret r.

Definition del_unit (u : Z) : SM unit := pitcher_del_unit call_plane call_recycle call_cleanup u.

(** The structure goes with what is embedded in it. *)
(* C: pitcher/core.c __free_chn *)
Definition __free_chn (chn : Z) : SM unit :=
  if chn =? 0 then mret tt
  else
    _ ← on_list (list_del_init chn);
    x ← load_chn chn;
    _ ← put_chnno (ch_chnno x);
    _ ← (if ch_unit x =? 0 then mret tt else del_unit (ch_unit x));
    _ ← modify (on_cores (set_chns (delete chn)));
    _ ← modify (on_loops (set_pfds (delete chn)));
    on_mem (pitcher_free (Some chn)).

(** The argument is the number, if any. *)
(* C: pitcher/core.c __del_chn_func *)
Definition __del_chn_func (arg : option Z) (item : Z) : SM bool :=
  if item =? 0 then mret false
  else
    x ← load_chn item;
    match arg with
    | Some chnno => if negb (ch_chnno x =? chnno) then mret false else _ ← __free_chn item; mret true
    | None => _ ← __free_chn item; mret true
    end.

(** The ends of the pipe are handed to functions that take units. *)
(* C: pitcher/core.c __disconnect *)
Definition __disconnect (ct : option connect_t) (pipe : Z) : SM bool :=
  if pipe =? 0 then mret false
  else
    src ← pitcher_get_pipe_src pipe;
    dst ← pitcher_get_pipe_dst pipe;
    let keep := match ct with
                | Some ct => negb (src =? ct_src ct) || negb (dst =? ct_dst ct)
                | None => false
                end in
    if keep then mret false
    else
      _ ← pitcher_set_unit_input dst 0;
      _ ← pitcher_rm_unit_output src pipe;
      _ ← pitcher_del_pipe call_plane call_recycle pipe;
      mret true.

Definition walk_pipes a (func : Z → SM bool) : SM unit :=
  walk_queue (get_cpipes a) (put_cpipes a) (queue_enumerate func).
Definition walk_chns a (func : Z → SM bool) : SM unit :=
  walk_queue (get_cchns a) (put_cchns a) (queue_enumerate func).

(* C: pitcher/core.c pitcher_release *)
Definition pitcher_release (core : Z) : SM Z :=
  if core =? 0 then mret RET_OK
  else
    x ← load_core core;
    _ ← (if cr_loop x =? 0 then mret tt
         else _ ← pitcher_close_loop (cr_loop x); change_core core (set_loop_ptr 0));
    _ ← walk_pipes core (__disconnect None);
    _ ← release_queue (get_cpipes core) (put_cpipes core);
    _ ← walk_chns core (__del_chn_func None);
    _ ← release_queue (get_cchns core) (put_cchns core);
    _ ← modify (on_cores (set_core_map (delete core)));
    _ ← modify (on_loops (set_tasks (delete core)));
    _ ← on_mem (pitcher_free (Some core));
    mret RET_OK.

(** The result of the first [pitcher_calloc] is not looked at. *)
(* C: pitcher/core.c pitcher_init *)
Definition pitcher_init : SM Z :=
  core ← on_mem (_pitcher_calloc alloc);
  match core with
  | None => lift UB
  | Some core =>
      _ ← store_core core (CoreT QNull QNull 0 0 0);
      _ ← store_task core (TimerTask 0 0 0 0);
      q ← make_queue alloc;
      _ ← put_cchns core q;
      match q with
      | QNull => mret 0
      | _ =>
          q ← make_queue alloc;
          _ ← put_cpipes core q;
          match q with
          | QNull => _ ← pitcher_release core; mret 0
          | _ =>
              l ← pitcher_open_loop alloc;
              _ ← change_core core (set_loop_ptr l);
              if l =? 0 then _ ← pitcher_release core; mret 0 else mret core
          end
      end
  end.

(** [list_for_each_entry] over the list of all channels. *)
(* C: pitcher/core.c __find_chn 196-199 *)
Fixpoint find_from (fuel : nat) (chnno pos : Z) : SM Z := λ w,
  if pos =? co_head (cores_of w) then Done (0, w)
  else
    match fuel with
    | 0%nat => NoFuel
    | S fuel =>
        (chn ← load_chn pos;
         if chnno =? ch_chnno chn then mret pos
         else next ← on_list (load_next pos); find_from fuel chnno next) w
    end.

(** The list has no more members than there are channels. *)
(* C: pitcher/core.c __find_chn *)
Definition __find_chn (chnno : Z) : SM Z :=
  w ← get;
  first ← on_list (load_next (co_head (cores_of w)));
  find_from (size (co_chns (cores_of w))) chnno first.

(* C: pitcher/core.c __set_chn_status *)
Definition __set_chn_status (chn state : Z) : SM unit :=
  if state <? PITCHER_STATE_UNKNOWN then change_chn chn (set_state state) else mret tt.

(* C: pitcher/core.c __find_source_chn *)
Definition __find_source_chn (pipe : Z) (ct : connect_t) : SM (bool * connect_t) :=
  if (pipe =? 0) || (ct_dst ct =? 0) then mret (false, ct)
  else
    dst ← pitcher_get_pipe_dst pipe;
    if dst =? ct_dst ct then src ← pitcher_get_pipe_src pipe; mret (false, Connect src (ct_dst ct) (ct_priv ct))
    else mret (false, ct).

(* C: pitcher/core.c __find_sink_chn *)
Definition __find_sink_chn (pipe : Z) (ct : connect_t) : SM (bool * connect_t) :=
  if (pipe =? 0) || (ct_src ct =? 0) then mret (false, ct)
  else
    src ← pitcher_get_pipe_src pipe;
    if src =? ct_src ct then dst ← pitcher_get_pipe_dst pipe; mret (false, Connect (ct_src ct) dst (ct_priv ct))
    else mret (false, ct).

(* C: pitcher/core.c __find_alive_sink_chn *)
Definition __find_alive_sink_chn (pipe : Z) (ct : connect_t) : SM (bool * connect_t) :=
  if (pipe =? 0) || (ct_src ct =? 0) then mret (false, ct)
  else
    src ← pitcher_get_pipe_src pipe;
    if src =? ct_src ct then
      dst ← pitcher_get_pipe_dst pipe;
      x ← load_chn dst;
      if negb (ch_state x =? PITCHER_STATE_STOPPED) then mret (false, Connect (ct_src ct) dst (ct_priv ct))
      else mret (false, ct)
    else mret (false, ct).

(** The channel at the other end, looked for with [find] over the pipes of the
    channel's context; [connect] is the search's start. *)
Definition get_other (chnno : Z) (connect : Z → connect_t) (find : Z → connect_t → SM (bool * connect_t))
    (other : connect_t → Z) : SM Z :=
  chn ← __find_chn chnno;
  if chn =? 0 then mret 0
  else
    x ← load_chn chn;
    c ← load_core (ch_core x);
    match cr_chns c, cr_pipes c with
    | QNull, _ | _, QNull => mret 0
    | _, _ =>
        ct ← enumerate_with (get_cpipes (ch_core x)) (put_cpipes (ch_core x)) find (connect chn);
        mret (other ct)
    end.

(* C: pitcher/core.c __get_source_chn *)
Definition __get_source_chn (chnno : Z) : SM Z :=
  get_other chnno (λ chn, Connect 0 chn 0) __find_source_chn ct_src.
(* C: pitcher/core.c __get_sink_chn *)
Definition __get_sink_chn (chnno : Z) : SM Z :=
  get_other chnno (λ chn, Connect chn 0 0) __find_sink_chn ct_dst.
(* C: pitcher/core.c __get_alive_sink_chn *)
Definition __get_alive_sink_chn (chnno : Z) : SM Z :=
  get_other chnno (λ chn, Connect chn 0 0) __find_alive_sink_chn ct_dst.

Definition unit_start (u : Z) : SM Z := pitcher_unit_start call_plane call_recycle call_start call_alloc_buffer u.
Definition unit_stop (u : Z) : SM Z := pitcher_unit_stop call_plane call_recycle call_stop u.
Definition unit_check_ready (u : Z) : SM (Z * Z) := pitcher_unit_check_ready call_check_ready u.
Definition unit_run (u : Z) : SM Z := pitcher_unit_run call_plane call_recycle call_runfunc u.

(** Has the channel a descriptor to poll? *)
Definition polls (chn : Z) : SM bool := p ← load_pfd chn; mret (negb (pf_func p =? 0)).

(* C: pitcher/core.c __start_chn *)
Definition __start_chn (chn : Z) : SM bool :=
  if chn =? 0 then mret false
  else
    x ← load_chn chn;
    if ch_state x =? PITCHER_STATE_ACTIVE then mret false
    else
      ret ← unit_start (ch_unit x);
      _ ← (if ret =? 0 then
             _ ← __set_chn_status chn PITCHER_STATE_ACTIVE;
             p ← polls chn;
             if (p : bool) then
               c ← load_core (ch_core x); _ ← pitcher_loop_add_poll_fd alloc (cr_loop c) chn; mret tt
             else mret tt
           else mret tt);
      x ← load_chn chn;
      _ ← (if ch_state x =? PITCHER_STATE_ACTIVE
           then change_core (ch_core x) (λ c, set_counts (cr_total_count c) (u32 (cr_enable_count c + 1)) c)
           else mret tt);
      _ ← change_core (ch_core x) (λ c, set_counts (u32 (cr_total_count c + 1)) (cr_enable_count c) c);
      mret false.

(* C: pitcher/core.c __stop_chn *)
Definition __stop_chn (chn : Z) : SM bool :=
  if chn =? 0 then mret false
  else
    x ← load_chn chn;
    if ch_state x =? PITCHER_STATE_STOPPED then mret false
    else
      p ← polls chn;
      _ ← (if (p : bool) then c ← load_core (ch_core x); _ ← pitcher_loop_del_poll_fd (cr_loop c) chn; mret tt else mret tt);
      _ ← unit_stop (ch_unit x);
      _ ← __set_chn_status chn PITCHER_STATE_STOPPED;
      mret false.

(* C: pitcher/core.c pitcher_start_chn *)
Definition pitcher_start_chn (chnno : Z) : SM Z :=
  chn ← __find_chn chnno;
  if chn =? 0 then mret 0 else _ ← __start_chn chn; mret 0.

(* C: pitcher/core.c pitcher_stop_chn *)
Definition pitcher_stop_chn (chnno : Z) : SM Z :=
  chn ← __find_chn chnno;
  if chn =? 0 then mret 0 else _ ← __stop_chn chn; mret 0.

(* C: pitcher/core.c __start_sink_chn *)
Definition __start_sink_chn (pipe : Z) (ct : connect_t) : SM (bool * connect_t) :=
  if (pipe =? 0) || (ct_src ct =? 0) then mret (false, ct)
  else
    src ← pitcher_get_pipe_src pipe;
    if negb (src =? ct_src ct) then mret (false, ct)
    else
      dst ← pitcher_get_pipe_dst pipe;
      let ct := Connect (ct_src ct) dst (ct_priv ct) in
      if dst =? 0 then mret (false, ct)
      else
        x ← load_chn dst;
        _ ← (if ch_state x =? PITCHER_STATE_STOPPED then pitcher_start_chn (ch_chnno x) else mret 0);
        mret (false, ct).

(* C: pitcher/core.c __process_chn_active *)
Definition __process_chn_active (chn : Z) : SM Z :=
  if chn =? 0 then mret (- RET_E_NULL_POINTER)
  else
    x ← load_chn chn;
    if negb (ch_state x =? PITCHER_STATE_ACTIVE) then mret RET_OK
    else
      '(ready, is_end) ← unit_check_ready (ch_unit x);
      _ ← (if negb (ready =? 0) then unit_run (ch_unit x) else mret 0);
      _ ← (if negb (is_end =? 0) then __set_chn_status chn PITCHER_STATE_STOPPING else mret tt);
      mret RET_OK.

(* C: pitcher/core.c __process_chn_stopping *)
Definition __process_chn_stopping (chn : Z) : SM Z :=
  if chn =? 0 then mret (- RET_E_NULL_POINTER)
  else
    x ← load_chn chn;
    if negb (ch_state x =? PITCHER_STATE_STOPPING) then mret RET_OK
    else
      dst ← __get_alive_sink_chn (ch_chnno x);
      if negb (dst =? 0) then mret RET_OK
      else
        _ ← unit_stop (ch_unit x);
        _ ← __set_chn_status chn PITCHER_STATE_STOPPED;
        mret RET_OK.

(* C: pitcher/core.c __process_chn_run *)
Definition __process_chn_run (chn : Z) : SM Z :=
  if chn =? 0 then mret (- RET_E_NULL_POINTER)
  else
    x ← load_chn chn;
    _ ← (if ch_state x =? PITCHER_STATE_ACTIVE then __process_chn_active chn
         else if ch_state x =? PITCHER_STATE_STOPPING then __process_chn_stopping chn
         else mret RET_OK);
    mret RET_OK.

(** The argument counts the channels that are not stopped. *)
(* C: pitcher/core.c __run_chn *)
Definition __run_chn (chn count : Z) : SM (bool * Z) :=
  if chn =? 0 then mret (false, count)
  else
    x ← load_chn chn;
    if ch_state x =? PITCHER_STATE_STOPPED then mret (false, count)
    else
      _ ← __process_chn_run chn;
      x ← load_chn chn;
      mret (false, if negb (ch_state x =? PITCHER_STATE_STOPPED) then u32 (count + 1) else count).

(** The task of a context; the answer is what is stored through [del]. *)
(* C: pitcher/core.c __timer_func *)
Definition __timer_func (core : Z) : SM Z :=
  count ← enumerate_with (get_cchns core) (put_cchns core) __run_chn 0;
  if count =? 0 then
    c ← load_core core;
    _ ← pitcher_loop_stop (cr_loop c);
    mret 1
  else mret 0.

(* C: pitcher/core.c __poll_func *)
Definition __poll_func (chn events : Z) : SM Z :=
  _ ← lift (assert_ (negb (chn =? 0)));
  x ← load_chn chn;
  _ ← (if ch_state x =? PITCHER_STATE_STOPPED then mret tt
       else
         p ← load_pfd chn;
         _ ← (if negb (Z.land (pf_events p) events =? 0) || (events =? 0)
              then __process_chn_run chn else mret 0);
         x ← load_chn chn;
         if negb (Z.land events POLLERR =? 0) && (ch_state x =? PITCHER_STATE_ACTIVE) && (ch_ignore_pollerr x =? 0)
         then change_chn chn (set_error 1) else mret tt);
  x ← load_chn chn;
  mret (if ch_state x =? PITCHER_STATE_STOPPED then 1 else 0).

Definition is_null (q : queue_ref Q) : bool := match q with QNull => true | _ => false end.

(** [pitcher_queue_is_empty]: the error code of a NULL queue is not 0. *)
Definition queue_empty (q : SM (queue_ref Q)) : SM bool :=
  r ← q;
  match r with QNull => mret true | QAway => lift UB | QHere _ q => lift (queue_is_empty q) end.

(* C: pitcher/core.c pitcher_start *)
Definition pitcher_start (core : Z) : SM Z :=
  c ← load_core core;
  if (cr_loop c =? 0) || is_null (cr_chns c) then mret (- RET_E_INVAL)
  else
    e ← queue_empty (get_cchns core);
    if (e : bool) then mret (- RET_E_EMPTY)
    else
      _ ← change_core core (set_counts 0 0);
      _ ← walk_chns core __start_chn;
      c ← load_core core;
      _ ← (if cr_enable_count c <? cr_total_count c then walk_chns core __stop_chn else mret tt);
      _ ← store_task core (TimerTask TIMER_FUNC 0 0 (-1));
      c ← load_core core;
      _ ← pitcher_loop_add_task alloc (cr_loop c) core;
      pitcher_loop_start (cr_loop c).

(** The functions a loop is given: those of this file, or others. *)
Context (other_task : Z → Z → M (world (pipes Q (units Q (cores Q O F)))) Z).
Context (other_poll : Z → Z → Z → M (world (pipes Q (units Q (cores Q O F)))) Z).
Definition call_task (f t : Z) : SM Z := if f =? TIMER_FUNC then __timer_func t else other_task f t.
Definition call_poll (f p events : Z) : SM Z := if f =? POLL_FUNC then __poll_func p events else other_poll f p events.

(* C: pitcher/core.c pitcher_run *)
Definition pitcher_run (fuel : nat) (core : Z) : SM Z :=
  c ← load_core core;
  if (cr_loop c =? 0) || is_null (cr_chns c) then mret (- RET_E_INVAL)
  else pitcher_loop_run call_task call_poll fuel (cr_loop c).

(* C: pitcher/core.c pitcher_stop *)
Definition pitcher_stop (core : Z) : SM Z :=
  c ← load_core core;
  if (cr_loop c =? 0) || is_null (cr_chns c) then mret (- RET_E_INVAL)
  else
    _ ← pitcher_loop_stop (cr_loop c);
    _ ← walk_chns core __stop_chn;
    mret RET_OK.

(** A description without a descriptor leaves [pfd] zero. *)
(* C: pitcher/core.c pitcher_register_chn *)
Definition pitcher_register_chn (core : Z) (desc : option pitcher_unit_desc) (arg : Z) : SM Z :=
  c ← load_core core;
  chnno ← get_chnno;
  if chnno <? 0 then mret (- RET_E_FULL)
  else if is_null (cr_chns c) then mret (- RET_E_INVAL)
  else
    chn ← on_mem (_pitcher_calloc alloc);
    match chn with
    | None => mret (- RET_E_NO_MEMORY)
    | Some chn =>
        u ← pitcher_new_unit alloc call_init desc arg;
        if u =? 0 then _ ← on_mem (pitcher_free (Some chn)); mret (- RET_E_INVAL)
        else
          d ← lift (of_option desc);
          _ ← store_pfd chn
            (if (0 <=? ud_fd d) && negb (ud_events d =? 0) then PollFd POLL_FUNC (ud_fd d) (ud_events d) 0 0
             else PollFd 0 0 0 0 0);
          _ ← store_chn chn (Chn chnno 0 u 0 core 0 0);
          _ ← __set_chn_status chn PITCHER_STATE_STOPPED;
          _ ← modify (on_cores (λ c, set_list (Heap (<[chn := 0]> (h_next (co_list c))) (<[chn := 0]> (h_prev (co_list c)))) c));
          w ← get;
          _ ← on_list (list_add_tail chn (co_head (cores_of w)));
          _ ← push_queue (get_cchns core) (put_cchns core) chn;
          mret chnno
    end.

(* C: pitcher/core.c pitcher_unregister_chn *)
Definition pitcher_unregister_chn (chnno : Z) : SM Z :=
  chn ← __find_chn chnno;
  if chn =? 0 then mret (- RET_E_NOT_FOUND)
  else
    x ← load_chn chn;
    c ← load_core (ch_core x);
    _ ← lift (assert_ (negb (is_null (cr_chns c))));
    _ ← walk_chns (ch_core x) (__del_chn_func (Some chnno));
    mret RET_OK.

(* C: pitcher/core.c pitcher_connect *)
Definition pitcher_connect (src dst : Z) : SM Z :=
  schn ← __find_chn src;
  dchn ← __find_chn dst;
  if (schn =? 0) || (dchn =? 0) then mret (- RET_E_INVAL)
  else
    s ← load_chn schn;
    d ← load_chn dchn;
    if negb (ch_core s =? ch_core d) then mret (- RET_E_NOT_MATCH)
    else
      c ← load_core (ch_core s);
      if is_null (cr_chns c) || is_null (cr_pipes c) then mret (- RET_E_INVAL)
      else
        pipe ← pitcher_get_unit_source (ch_unit d);
        psrc ← (if pipe =? 0 then mret schn else pitcher_get_pipe_src pipe);
        if negb (psrc =? schn) then mret (- RET_E_INVAL)
        else
          pipe ← pitcher_new_pipe alloc;
          match pipe with
          | None => mret (- RET_E_NO_MEMORY)
          | Some pipe =>
              _ ← pitcher_set_pipe_src pipe schn;
              _ ← pitcher_set_pipe_dst pipe dchn;
              _ ← pitcher_set_pipe_notify pipe NOTIFY_FUNC;
              _ ← pitcher_set_unit_input (ch_unit d) pipe;
              _ ← pitcher_add_unit_output (ch_unit s) pipe;
              _ ← push_queue (get_cpipes (ch_core s)) (put_cpipes (ch_core s)) pipe;
              mret RET_OK
          end.

(** The two channels of a command and their context, or why it is refused. *)
Definition find_pair (src dst : Z) : SM (Z + (connect_t * Z)) :=
  s ← __find_chn src;
  d ← __find_chn dst;
  if (s =? 0) || (d =? 0) then mret (inl (- RET_E_INVAL))
  else
    x ← load_chn s;
    y ← load_chn d;
    if negb (ch_core x =? ch_core y) then mret (inl (- RET_E_NOT_MATCH))
    else
      c ← load_core (ch_core x);
      if is_null (cr_chns c) || is_null (cr_pipes c) then mret (inl (- RET_E_INVAL))
      else mret (inr (Connect s d 0, ch_core x)).

(* C: pitcher/core.c pitcher_disconnect *)
Definition pitcher_disconnect (src dst : Z) : SM Z :=
  p ← find_pair src dst;
  match p with
  | inl ret => mret ret
  | inr (ct, core) => _ ← walk_pipes core (__disconnect (Some ct)); mret 0
  end.

(* C: pitcher/core.c __get_pipe *)
Definition __get_pipe (pipe : Z) (ct : connect_t) : SM (bool * connect_t) :=
  if pipe =? 0 then mret (false, ct)
  else
    src ← pitcher_get_pipe_src pipe;
    if negb (src =? ct_src ct) then mret (false, ct)
    else
      dst ← pitcher_get_pipe_dst pipe;
      if negb (dst =? ct_dst ct) then mret (false, ct)
      else mret (false, Connect (ct_src ct) (ct_dst ct) pipe).

(* C: pitcher/core.c pitcher_set_skip *)
Definition pitcher_set_skip (src dst numerator denominator : Z) : SM Z :=
  p ← find_pair src dst;
  match p with
  | inl ret => mret ret
  | inr (ct, core) =>
      ct ← enumerate_with (get_cpipes core) (put_cpipes core) __get_pipe ct;
      if ct_priv ct =? 0 then mret (- RET_E_NOT_MATCH)
      else pitcher_set_pipe_skip (ct_priv ct) (if denominator <? numerator then denominator else numerator) denominator
  end.

(** A function of the channel with a number, or [none] without one. *)
Definition with_chn {A} (chnno : Z) (none : A) (f : Z → pitcher_chn → SM A) : SM A :=
  chn ← __find_chn chnno;
  if chn =? 0 then mret none else x ← load_chn chn; f chn x.

(* C: pitcher/core.c pitcher_poll_idle_buffer *)
Definition pitcher_poll_idle_buffer (chnno : Z) : SM bool :=
  with_chn chnno false (λ _ x, e ← pitcher_is_unit_idle_empty (ch_unit x); mret (negb e)).
(* C: pitcher/core.c pitcher_get_idle_buffer *)
Definition pitcher_get_idle_buffer (chnno : Z) : SM Z :=
  with_chn chnno 0 (λ _ x, pitcher_get_unit_idle_buffer (ch_unit x)).
(* C: pitcher/core.c pitcher_put_buffer_idle *)
Definition pitcher_put_buffer_idle (chnno buffer : Z) : SM unit :=
  with_chn chnno tt (λ _ x, pitcher_put_unit_buffer_idle (ch_unit x) buffer).
(* C: pitcher/core.c pitcher_push_back_output *)
Definition pitcher_push_back_output (chnno buffer : Z) : SM unit :=
  with_chn chnno tt (λ chn x,
    if buffer =? 0 then mret tt
    else
      _ ← load_core (ch_core x);
      _ ← enumerate_with (get_cpipes (ch_core x)) (put_cpipes (ch_core x)) __start_sink_chn (Connect chn 0 0);
      pitcher_unit_push_back_output call_notify (ch_unit x) buffer).
(* C: pitcher/core.c pitcher_get_status *)
Definition pitcher_get_status (chnno : Z) : SM Z := with_chn chnno 0 (λ _ x, mret (ch_state x)).
(* C: pitcher/core.c pitcher_is_active *)
Definition pitcher_is_active (chnno : Z) : SM bool :=
  with_chn chnno false (λ _ x, mret (ch_state x =? PITCHER_STATE_ACTIVE)).
(* C: pitcher/core.c pitcher_is_error *)
Definition pitcher_is_error (chnno : Z) : SM Z := with_chn chnno 0 (λ _ x, mret (ch_error x)).
(* C: pitcher/core.c pitcher_set_error *)
Definition pitcher_set_error (chnno : Z) : SM unit := with_chn chnno tt (λ chn _, change_chn chn (set_error 1)).
(* C: pitcher/core.c pitcher_set_ignore_pollerr *)
Definition pitcher_set_ignore_pollerr (chnno ignore : Z) : SM unit :=
  with_chn chnno tt (λ chn _, change_chn chn (set_ignore ignore)).
(* C: pitcher/core.c pitcher_set_preferred_fourcc *)
Definition pitcher_set_preferred_fourcc (chnno fourcc : Z) : SM unit :=
  with_chn chnno tt (λ chn _, change_chn chn (set_fourcc fourcc)).
(* C: pitcher/core.c pitcher_get_preferred_fourcc *)
Definition pitcher_get_preferred_fourcc (chnno : Z) : SM Z := with_chn chnno 0 (λ _ x, mret (ch_preferred_fourcc x)).
(* C: pitcher/core.c pitcher_chn_poll_input *)
Definition pitcher_chn_poll_input (chnno : Z) : SM bool :=
  with_chn chnno false (λ _ x,
    pipe ← pitcher_get_unit_source (ch_unit x);
    if pipe =? 0 then mret false else pitcher_pipe_poll pipe).

(** The number of the channel found, or an error. *)
Definition number_of (chn : Z) : SM Z :=
  if chn =? 0 then mret (- RET_E_NOT_FOUND) else x ← load_chn chn; mret (s32 (ch_chnno x)).
(* C: pitcher/core.c pitcher_get_source *)
Definition pitcher_get_source (chnno : Z) : SM Z := chn ← __get_source_chn chnno; number_of chn.
(* C: pitcher/core.c pitcher_get_sink *)
Definition pitcher_get_sink (chnno : Z) : SM Z := chn ← __get_sink_chn chnno; number_of chn.
End core.

(** ** Channel numbers *)

Definition word (w : Z) : Prop := 0 ≤ w < 2 ^ 64.
Definition bitmap_ok (b : list Z) : Prop := zlen b = CHN_WORDS ∧ Forall word b.

(** Number [n] is taken. *)
Definition used (b : list Z) (n : Z) : Prop :=
  0 ≤ n ∧ ∃ w, nthz b (n / BITS_PER_LONG) = Some w ∧ Z.testbit w (n mod BITS_PER_LONG) = true.

Lemma used_nil n : ¬ used [] n.
Proof. intros (Hn & w & Hw & _). apply nthz_Some in Hw. unfold zlen in Hw. cbn in Hw. lia. Qed.

Lemma used_cons w b n :
  used (w :: b) n ↔ 0 ≤ n < 64 ∧ Z.testbit w n = true ∨ 64 ≤ n ∧ used b (n - 64).
Proof.
  unfold used, BITS_PER_LONG. destruct (decide (0 ≤ n)) as [Hn|Hn]; [|split; [tauto|lia]].
  destruct (decide (n < 64)) as [H|H].
  - rewrite (Z.div_small n), (Z.mod_small n) by lia. cbn. split; [intros (_ & ? & [= <-] & ?); tauto|].
    intros [[_ ?]|]; [|lia]. split; [done|]. eauto.
  - assert (Ed : n / 64 = 1 + (n - 64) / 64) by dlia. assert (Em : n mod 64 = (n - 64) mod 64) by dlia.
    rewrite Ed, Em, !nthz_lookup by dlia. replace (Z.to_nat (1 + (n - 64) / 64)) with (S (Z.to_nat ((n - 64) / 64))) by dlia.
    cbn. split; [intros (_ & ?); right; split_and!; try done; lia|]. intros [|(_ & _ & ?)]; [lia|done].
Qed.

Lemma bit_clear w j : 0 ≤ j < 64 → (Z.land w (u64 (Z.shiftl 1 j)) =? 0) = negb (Z.testbit w j).
Proof.
  intros Hj. rewrite Z.shiftl_mul_pow2, Z.mul_1_l by lia.
  assert (0 < 2 ^ j < 2 ^ 64) by (split; [apply pow2_pos; lia|apply Z.pow_lt_mono_r; lia]).
  rewrite u64_small, land_pow2 by lia. destruct (Z.testbit w j); [|done]. cbn [negb]. apply Z.eqb_neq. lia.
Qed.

Lemma find_bit_ok n : ∀ w j, 0 ≤ j → j + Z.of_nat n ≤ 64 →
  match find_bit n w j with
  | Some k => j ≤ k < j + Z.of_nat n ∧ Z.testbit w k = false ∧ ∀ m, j ≤ m < k → Z.testbit w m = true
  | None => ∀ m, j ≤ m < j + Z.of_nat n → Z.testbit w m = true
  end.
Proof.
  induction n as [|n IH]; intros w j Hj Hn; cbn [find_bit]; [lia|].
  rewrite bit_clear, negb_involutive by lia. destruct (Z.testbit w j) eqn:E.
  - specialize (IH w (j + 1) ltac:(lia) ltac:(lia)). destruct (find_bit n w (j + 1)) as [k|].
    + destruct IH as (H1 & H2 & H3). split_and!; [lia|lia|done|]. intros m Hm.
      destruct (decide (m = j)) as [->|]; [done|]. apply H3. lia.
    + intros m Hm. destruct (decide (m = j)) as [->|]; [done|]. apply IH. lia.
  - split_and!; [lia|lia|done|]. intros m Hm. lia.
Qed.

Lemma set_bit w j m : 0 ≤ j < 64 → 0 ≤ m →
  Z.testbit (Z.lor w (u64 (Z.shiftl 1 j))) m = Z.testbit w m || (m =? j).
Proof.
  intros Hj Hm. rewrite Z.shiftl_mul_pow2, Z.mul_1_l by lia.
  assert (0 < 2 ^ j < 2 ^ 64) by (split; [apply pow2_pos; lia|apply Z.pow_lt_mono_r; lia]).
  rewrite u64_small, Z.lor_spec, Z.pow2_bits_eqb by lia. by rewrite (Z.eqb_sym j m).
Qed.

Lemma clear_bit w j m : word w → 0 ≤ j < 64 → 0 ≤ m →
  Z.testbit (Z.land w (u64 (Z.lnot (u64 (Z.shiftl 1 j))))) m = Z.testbit w m && negb (m =? j).
Proof.
  intros Hw Hj Hm. rewrite Z.shiftl_mul_pow2, Z.mul_1_l by lia.
  assert (0 < 2 ^ j < 2 ^ 64) by (split; [apply pow2_pos; lia|apply Z.pow_lt_mono_r; lia]).
  rewrite (u64_small (2 ^ j)), Z.land_spec by lia. unfold u64 at 1. rewrite testbit_mod_pow2 by lia.
  rewrite Z.lnot_spec, Z.pow2_bits_eqb, (Z.eqb_sym j m) by lia. case_bool_decide; [done|].
  by rewrite (testbit_small w 64 m) by (done || lia).
Qed.

Lemma full_word w m : (w =? u64 (Z.lnot 0)) = true → 0 ≤ m < 64 → Z.testbit w m = true.
Proof.
  intros ->%Z.eqb_eq Hm. change (u64 (Z.lnot 0)) with (Z.ones 64). apply Z.ones_spec_low. lia.
Qed.

Lemma word_lor w j : word w → 0 ≤ j < 64 → word (Z.lor w (u64 (Z.shiftl 1 j))).
Proof. intros Hw Hj. apply lor_lt_pow2; [lia|done|apply u64_range]. Qed.

(** The answer [r] to a search of the words [b], the first of which has index
    [i], and the words afterwards. *)
Definition found (i : Z) (b : list Z) (r : Z) (b' : list Z) : Prop :=
  zlen b' = zlen b ∧ Forall word b' ∧
  (r = -1 ∧ b' = b ∧ (∀ n, 0 ≤ n < 64 * zlen b → used b n) ∨
   ∃ n0, r = i * 64 + n0 ∧ 0 ≤ n0 < 64 * zlen b ∧ ¬ used b n0 ∧ (∀ n, 0 ≤ n < n0 → used b n) ∧
     ∀ n, used b' n ↔ used b n ∨ n = n0).

Lemma found_skip i w b r b' :
  word w → (∀ m, 0 ≤ m < 64 → Z.testbit w m = true) → found (i + 1) b r b' → found i (w :: b) r (w :: b').
Proof.
  intros Hw Hfull (Hz & Hb' & IH). unfold found. rewrite !zlen_cons, Hz. pose proof (zlen_nonneg b).
  split; [done|]. split; [by constructor|].
  destruct IH as [(-> & -> & Hall)|(n0 & -> & Hn0 & Hnu & Hlow & Hiff)]; [left|right].
  - split_and!; try done. intros n Hn. apply used_cons. destruct (decide (n < 64)); [left; split; [lia|apply Hfull; lia]|].
    right. split; [lia|]. apply Hall. lia.
  - exists (n0 + 64). split_and!; try lia.
    + rewrite used_cons. intros [|[_ Hu]]; [lia|]. apply Hnu. by replace (n0 + 64 - 64) with n0 in Hu by lia.
    + intros n Hn. apply used_cons. destruct (decide (n < 64)); [left; split; [lia|apply Hfull; lia]|].
      right. split; [lia|]. apply Hlow. lia.
    + intros n. rewrite !used_cons, Hiff. split; [intros [|[? [|]]]; [tauto|tauto|right; lia]|].
      intros [[|]| ->]; [tauto|tauto|]. right. split; [lia|]. right. lia.
Qed.

Lemma get_chnno_ok b : ∀ i, Forall word b → 0 ≤ i → i + zlen b ≤ CHN_WORDS →
  found i b (__get_chnno b i).1 (__get_chnno b i).2.
Proof.
  induction b as [|w b IH]; intros i Hf Hi Hl; cbn [__get_chnno].
  { split_and!; try done. left. split_and!; try done. intros n. unfold zlen. cbn. lia. }
  inversion Hf as [|? ? Hw Hf']; subst. rewrite zlen_cons in *. pose proof (zlen_nonneg b).
  specialize (IH (i + 1) Hf' ltac:(lia) ltac:(lia)). destruct (__get_chnno b (i + 1)) as [r b'] eqn:Er. cbn [fst snd] in IH.
  destruct (w =? u64 (Z.lnot 0)) eqn:Ew; [apply found_skip; [done|intros m Hm; by apply full_word|done]|].
  pose proof (find_bit_ok (Z.to_nat BITS_PER_LONG) w 0 ltac:(lia) ltac:(unfold BITS_PER_LONG; lia)) as Hb.
  unfold CHN_WORDS in Hl. destruct (find_bit _ w 0) as [k|].
  2:{ apply found_skip; [done| |done]. intros m Hm. apply Hb. unfold BITS_PER_LONG. lia. }
  destruct Hb as (Hk & Hkf & Hkt). unfold BITS_PER_LONG in *. unfold found. cbn [fst snd]. rewrite !zlen_cons.
  assert (Hk64 : 0 ≤ k < 64) by lia. split; [done|]. split; [constructor; [by apply word_lor|done]|].
  right. exists k. split_and!; try lia.
  - rewrite u32_small, s32_small by lia. lia.
  - rewrite used_cons, Hkf. intros [[_ ?]|]; [done|lia].
  - intros n Hn. apply used_cons. left. split; [lia|]. apply Hkt. lia.
  - intros n. rewrite !used_cons. destruct (decide (0 ≤ n < 64)) as [Hn|Hn].
    + rewrite set_bit by lia. rewrite orb_true_iff, Z.eqb_eq. split; [intros [[_ [|]]|]; [tauto|tauto|lia]|].
      intros [[|]| ->]; [tauto|lia|tauto].
    + split; [intros [|]; [lia|tauto]|]. intros [[|]|]; [lia|tauto|lia].
Qed.

Lemma used_put b c n : bitmap_ok b → 0 ≤ c → used (__put_chnno c b) n ↔ used b n ∧ n ≠ c.
Proof.
  intros [Hl Hf] Hc. unfold __put_chnno, CHN_WORDS in *.
  destruct (Z.leb_spec 256 (c / BITS_PER_LONG)) as [H|H].
  - split; [|tauto]. intros Hu. split; [done|]. intros ->. destruct Hu as (_ & w & Hw & _). apply nthz_Some in Hw. lia.
  - unfold used, BITS_PER_LONG in *. destruct (decide (0 ≤ n)) as [Hn|]; [|tauto].
    assert (Hlt : (Z.to_nat (c / 64) < length b)%nat) by (unfold zlen in Hl; dlia).
    destruct (lookup_lt_is_Some_2 b _ Hlt) as [w0 Hw0]. rewrite Hw0. change (default 0 (Some w0)) with w0.
    assert (Hword : word w0) by (eapply Forall_lookup_1; [exact Hf|exact Hw0]).
    rewrite !nthz_lookup by dlia. destruct (decide (n / 64 = c / 64)) as [E|E].
    + rewrite E, list_lookup_insert_eq, Hw0 by done.
      assert (Hmod : n ≠ c ↔ (n mod 64 =? c mod 64) = false) by (rewrite Z.eqb_neq; dlia).
      rewrite Hmod. split.
      * intros (_ & w & [= <-] & Ht). rewrite clear_bit in Ht by (done || dlia).
        apply andb_true_iff in Ht as [Ht Hm%negb_true_iff]. split; [|done]. split; [done|]. eauto.
      * intros [(_ & w & [= <-] & Ht) Hm]. split; [done|]. eexists. split; [done|].
        rewrite clear_bit by (done || dlia). by rewrite Ht, Hm.
    + rewrite list_lookup_insert_ne by dlia. assert (n ≠ c) by (intros ->; done). tauto.
Qed.

Lemma put_bitmap_ok b c : bitmap_ok b → 0 ≤ c → bitmap_ok (__put_chnno c b).
Proof.
  intros [Hl Hf] Hc. unfold __put_chnno. destruct (_ <=? _); [done|]. split; [by rewrite zlen_insert|].
  apply Forall_insert; [done|]. apply bits_lt_pow2; [lia|apply Z.land_nonneg; right; apply u64_range|].
  intros i Hi. rewrite Z.land_spec. by rewrite (testbit_small _ 64 i (u64_range _) Hi), andb_false_r.
Qed.

(** Requests and returns of numbers, with the answers. *)
Inductive chnno_op := GetNo | PutNo (c : Z).

Fixpoint run_chnno (ops : list chnno_op) (b : list Z) : list Z * list Z :=
  match ops with
  | [] => ([], b)
  | GetNo :: ops => let '(r, b) := __get_chnno b 0 in let '(rs, b) := run_chnno ops b in (r :: rs, b)
  | PutNo c :: ops => run_chnno ops (__put_chnno c b)
  end.

(** The same on a set of numbers. *)
Inductive numbers : (Z → Prop) → list chnno_op → list Z → (Z → Prop) → Prop :=
  | no_nil T T' : (∀ n, T n ↔ T' n) → numbers T [] [] T'
  | no_get T n ops rs T' :
      0 ≤ n < 64 * CHN_WORDS → ¬ T n → (∀ m, 0 ≤ m < n → T m) →
      numbers (λ m, T m ∨ m = n) ops rs T' → numbers T (GetNo :: ops) (n :: rs) T'
  | no_full T ops rs T' :
      (∀ m, 0 ≤ m < 64 * CHN_WORDS → T m) → numbers T ops rs T' → numbers T (GetNo :: ops) (-1 :: rs) T'
  | no_put T c ops rs T' : numbers (λ m, T m ∧ m ≠ c) ops rs T' → numbers T (PutNo c :: ops) rs T'.

Lemma numbers_ext ops : ∀ T1 T2 rs T', (∀ n, T1 n ↔ T2 n) → numbers T1 ops rs T' → numbers T2 ops rs T'.
Proof.
  induction ops as [|op ops IH]; intros T1 T2 rs T' He Hn; inversion Hn; subst.
  - apply no_nil. intros n. rewrite <- He. auto.
  - apply no_get; [done|by rewrite <- He|intros m Hm; apply He; auto|]. eapply IH; [|done]. intros m. cbn. by rewrite He.
  - apply no_full; [intros m Hm; apply He; auto|]. by eapply IH.
  - apply no_put. eapply IH; [|done]. intros m. cbn. by rewrite He.
Qed.

(** C22: channel numbers.  Whatever channels come and go, the bitmap is the set
    of the numbers in use: a new channel gets the least number below 16384 that
    is free, -1 only when none is, and a number that is given back can be given
    out again; no two channels have the same number. *)
Theorem chnno_least_free ops b :
  bitmap_ok b → (∀ c, PutNo c ∈ ops → 0 ≤ c) →
  numbers (used b) ops (run_chnno ops b).1 (used (run_chnno ops b).2) ∧ bitmap_ok (run_chnno ops b).2.
Proof.
  revert b. induction ops as [|op ops IH]; intros b Hb Hops; [by split; [apply no_nil|]|].
  assert (Hops' : ∀ c, PutNo c ∈ ops → 0 ≤ c) by (intros c Hc; apply Hops; by right).
  destruct op as [|c]; cbn [run_chnno].
  - destruct Hb as [Hl Hf]. pose proof (get_chnno_ok b 0 Hf ltac:(lia) ltac:(lia)) as (Hl' & Hf' & Hr).
    destruct (__get_chnno b 0) as [r b'] eqn:E. cbn [fst snd] in *.
    assert (Hb' : bitmap_ok b') by (split; [congruence|done]). specialize (IH b' Hb' Hops').
    destruct (run_chnno ops b') as [rs b'']. destruct IH as [IH1 IH2]. split; [|done]. cbn [fst snd] in *.
    destruct Hr as [(-> & -> & Hall)|(n0 & -> & Hn0 & Hnu & Hlow & Hiff)].
    + apply no_full; [|done]. by rewrite Hl in Hall.
    + rewrite Hl in Hn0. rewrite Z.mul_0_l, Z.add_0_l. apply no_get; [done|done|done|]. by eapply numbers_ext.
  - assert (Hc : 0 ≤ c) by (apply Hops; by left).
    destruct (IH (__put_chnno c b) (put_bitmap_ok b c Hb Hc) Hops') as [IH1 IH2]. split; [|done].
    apply no_put. eapply numbers_ext; [|exact IH1]. intros n. by apply used_put.
Qed.

Lemma chnno_least_free_witness :
  numbers (used (replicate 256 0)) [GetNo; GetNo; PutNo 0; GetNo] [0; 1; 0]
    (used (run_chnno [GetNo; GetNo; PutNo 0; GetNo] (replicate 256 0)).2).
Proof.
  refine (proj1 (chnno_least_free [GetNo; GetNo; PutNo 0; GetNo] (replicate 256 0) _ _)).
  - split; [done|]. apply Forall_replicate. done.
  - intros c Hc. rewrite !elem_of_cons, elem_of_nil in Hc. destruct Hc as [?|[?|[[= ->]|[?|[]]]]]; done.
Defined.
