(* ===== verification/Drain.v ===== *)
(** * The scheduling of channels: a pipeline drains

    Theorems about core.c, on the definitions of Core: channels are found by
    their number, and a context whose units do not block each other stops by
    itself.  What a context needs of its units is the interface [Draining]; an
    instance with two units on a pipe is at the end. *)

From S2P Require Import Prelude Dlist Queue Buffer Pipe Unit Loop Core.

(** ** Changes of the contexts *)

Section frames.
Context {Q O F : Type} `{!QueueOps Q} `{!LoopOs O}.
Abbreviation state := (world (pipes Q (units Q (cores Q O F)))).
Abbreviation SM := (M (world (pipes Q (units Q (cores Q O F))))).
Implicit Types w : world (pipes Q (units Q (cores Q O F))).

Lemma cores_on f w : cores_of (on_cores f w) = f (cores_of w).
Proof. done. Qed.

Lemma on_on_cores f g w : on_cores f (on_cores g w) = on_cores (λ c, f (g c)) w.
Proof. done. Qed.

Lemma on_cores_id f w : f (cores_of w) = cores_of w → on_cores f w = w.
Proof. intros E. destruct w as [m b [p [u c]]]. cbn in E. unfold on_cores, set_env. cbn. by rewrite E. Qed.

Lemma set_list_id w : on_cores (set_list (co_list (cores_of w))) w = w.
Proof. apply on_cores_id. by destruct (cores_of w). Qed.

Lemma load_chn_ok a w x : co_chns (cores_of w) !! a = Some x → load_chn a w = Done (x, w).
Proof. intros E. unfold load_chn. by rewrite E. Qed.

Lemma load_core_ok c w x : c ≠ 0 → co_cores (cores_of w) !! c = Some x → load_core c w = Done (x, w).
Proof. intros Hc E. unfold load_core. rewrite (proj2 (Z.eqb_neq c 0)), E by done. done. Qed.

Lemma on_list_next a v w : h_next (co_list (cores_of w)) !! a = Some v → on_list (load_next a) w = Done (v, w).
Proof.
  intros E. unfold on_list. rewrite (load_next_ok _ _ _ E). cbn [obind]. by rewrite set_list_id.
Qed.

(** ** Finding a channel by its number *)

(** The list of all channels holds [mem]. *)
Record registered w (mem : list Z) : Prop := {
  rg_ring : ring (co_list (cores_of w)) (co_head (cores_of w)) mem;
  rg_chn a : a ∈ mem → is_Some (co_chns (cores_of w) !! a);
  rg_numbers a b x y : a ∈ mem → b ∈ mem → co_chns (cores_of w) !! a = Some x → co_chns (cores_of w) !! b = Some y →
    ch_chnno x = ch_chnno y → a = b
}.

(** The channel [r] is the one with number [n], or there is none and [r] is 0. *)
Definition is_channel w (mem : list Z) (n r : Z) : Prop :=
  (r ∈ mem ∧ ∃ x, co_chns (cores_of w) !! r = Some x ∧ ch_chnno x = n) ∨
  (r = 0 ∧ ∀ a x, a ∈ mem → co_chns (cores_of w) !! a = Some x → ch_chnno x ≠ n).

Lemma ring_read (h : heap) a l1 x l2 : ring h a (l1 ++ x :: l2) → h_next h !! x = Some (hd a l2) ∧ x ≠ a.
Proof.
  intros Hr. split.
  - apply ring_rotate in Hr. apply ring_next in Hr. rewrite Hr. by destruct l2.
  - apply ring_nodup in Hr as [Hx _]. intros ->. apply Hx. by left.
Qed.

Lemma find_from_ok w mem n l2 : registered w mem → ∀ fuel l1, mem = l1 ++ l2 → (length l2 ≤ fuel)%nat →
  (∀ a x, a ∈ l1 → co_chns (cores_of w) !! a = Some x → ch_chnno x ≠ n) →
  ∃ r, find_from fuel n (hd (co_head (cores_of w)) l2) w = Done (r, w) ∧ is_channel w mem n r.
Proof.
  intros Hg. induction l2 as [|a l2 IH]; intros fuel l1 -> Hf Hno; cbn [hd].
  - exists 0. split; [destruct fuel; cbn [find_from]; by rewrite Z.eqb_refl|]. right. split; [done|].
    rewrite app_nil_r. exact Hno.
  - destruct fuel as [|fuel]; [cbn in Hf; lia|]. cbn [find_from].
    destruct (ring_read _ _ _ _ _ (rg_ring _ _ Hg)) as [Hnext Hne]. rewrite (proj2 (Z.eqb_neq _ _) Hne).
    destruct (rg_chn _ _ Hg a) as [x Hx]; [set_solver|]. mstep (load_chn_ok _ _ _ Hx).
    destruct (Z.eqb_spec n (ch_chnno x)) as [->|Hn].
    + exists a. split; [done|]. left. split; [set_solver|]. eauto.
    + mstep (on_list_next _ _ _ Hnext). destruct (IH fuel (l1 ++ [a])) as (r & E & Hr).
      * by rewrite <- app_assoc.
      * cbn in Hf. lia.
      * intros b y [Hb|Hb]%elem_of_app Hy; [by apply (Hno b)|]. apply list_elem_of_singleton in Hb as ->. congruence.
      * exists r. split; [|done]. exact E.
Qed.

Lemma members_bound w mem : registered w mem → (length mem ≤ size (co_chns (cores_of w)))%nat.
Proof.
  intros Hg. pose proof (rg_ring _ _ Hg) as [Hnd _]. apply NoDup_cons in Hnd as [_ Hnd].
  rewrite <- size_dom, <- (size_list_to_set (C := gset Z) mem Hnd). apply subseteq_size.
  intros a Ha. apply elem_of_list_to_set in Ha. apply elem_of_dom. by apply (rg_chn _ _ Hg).
Qed.

Lemma find_chn_ok w mem n : registered w mem → ∃ r, __find_chn n w = Done (r, w) ∧ is_channel w mem n r.
Proof.
  intros Hg. unfold __find_chn. erewrite M_bind_done by reflexivity.
  mstep (on_list_next _ _ _ (ring_next _ _ _ (rg_ring _ _ Hg))).
  apply (find_from_ok w mem n mem Hg _ []); [done|by apply members_bound|]. intros a x []%elem_of_nil.
Qed.

Lemma find_member w mem a x : registered w mem → a ∈ mem → a ≠ 0 → co_chns (cores_of w) !! a = Some x →
  __find_chn (ch_chnno x) w = Done (a, w).
Proof.
  intros Hg Ha Hn Hx. destruct (find_chn_ok w mem (ch_chnno x) Hg) as (r & E & Hr). rewrite E.
  destruct Hr as [(Hm & y & Hy & Hyn)|(-> & Hno)]; [|by destruct (Hno a x Ha Hx)].
  by rewrite (rg_numbers _ _ Hg r a y x Hm Ha Hy Hx Hyn).
Qed.
End frames.

(** ** What a context needs of its units *)

Section drain.
Context {Q O F : Type} `{QueueSpec Q} `{!LoopOs O}.
Abbreviation state := (world (pipes Q (units Q (cores Q O F)))).
Abbreviation SM := (M (world (pipes Q (units Q (cores Q O F))))).
Implicit Types (w : world (pipes Q (units Q (cores Q O F)))) (a b c l u v : Z).
Context (call_plane : Z → pitcher_buf_ref → Z → M (world (pipes Q (units Q (cores Q O F)))) (Z * pitcher_buf_ref)).
Context (call_recycle : Z → Z → M (world (pipes Q (units Q (cores Q O F)))) bool).
Context (call_stop : Z → Z → M (world (pipes Q (units Q (cores Q O F)))) Z).
Context (call_check_ready : Z → Z → M (world (pipes Q (units Q (cores Q O F)))) (Z * Z)).
Context (call_runfunc : Z → Z → Z → M (world (pipes Q (units Q (cores Q O F)))) Z).
Abbreviation check := (unit_check_ready call_check_ready).
Abbreviation run := (unit_run call_plane call_recycle call_runfunc).
Abbreviation stop := (unit_stop call_plane call_recycle call_stop).

(** The state of a channel; one that does not exist is stopped. *)
Definition status w a : Z := from_option ch_state PITCHER_STATE_STOPPED (co_chns (cores_of w) !! a).

(** What a unit leaves of the contexts, the loops and the ends of pipes. *)
Record calm w w' : Prop := {
  cm_cores : co_cores (cores_of w') = co_cores (cores_of w);
  cm_list : co_list (cores_of w') = co_list (cores_of w);
  cm_head : co_head (cores_of w') = co_head (cores_of w);
  cm_loops : ls_loops (co_loops (cores_of w')) = ls_loops (co_loops (cores_of w));
  cm_chns a x : co_chns (cores_of w) !! a = Some x → ∃ x', co_chns (cores_of w') !! a = Some x' ∧
    ch_chnno x' = ch_chnno x ∧ ch_unit x' = ch_unit x ∧ ch_state x' = ch_state x ∧ ch_core x' = ch_core x;
  cm_none a : co_chns (cores_of w) !! a = None → co_chns (cores_of w') !! a = None;
  cm_pipes p x : get_pipe w p = Some x → ∃ x', get_pipe w' p = Some x' ∧ pp_src x' = pp_src x ∧ pp_dst x' = pp_dst x
}.

(** One turn of an active unit; the answer says that its input has ended. *)
Definition turn u : SM Z :=
  '(ready, is_end) ← check u;
  _ ← (if negb (ready =? 0) then run u else mret 0);
  mret is_end.

(** A change of the contexts that is not seen by loops and units. *)
Definition bookkeeping (f : cores Q O F → cores Q O F) : Prop :=
  ∀ x, co_rest (f x) = co_rest x ∧ co_loops (f x) = co_loops x.

(** The units of the channels [cs] (channel and unit) are [Draining]: their
    functions return and leave the contexts alone; [work] is what they have
    left to do, which never grows; a unit that is [able] gets on with it when
    its turn comes, and stays able until then; and as long as a channel is
    active, one of the active channels is able.  [fit], [work] and [able] are
    about the units and their pipes; [able] may look at the states of channels,
    which is how a sink sees that its source has stopped, and [fit] may rely on
    what a unit had when its channel was made active. *)
Record Draining (cs : list (Z * Z)) (fit : state → Prop) (work : state → nat) (able : Z → state → Prop) : Prop := {
  dr_turn a u w : (a, u) ∈ cs → fit w → status w a = PITCHER_STATE_ACTIVE → ∃ e w', turn u w = Done (e, w') ∧ fit w' ∧ calm w w' ∧
    (work w' ≤ work w)%nat ∧ (able u w → e ≠ 0 ∨ (work w' < work w)%nat) ∧
    (∀ v, v ≠ u → able v w → work w' = work w → able v w');
  dr_stop a u w : (a, u) ∈ cs → fit w → status w a = PITCHER_STATE_STOPPING → ∃ e w', stop u w = Done (e, w') ∧ fit w' ∧ calm w w' ∧
    (work w' ≤ work w)%nat;
  dr_alive w a u : fit w → (a, u) ∈ cs → status w a = PITCHER_STATE_ACTIVE →
    ∃ b v, (b, v) ∈ cs ∧ status w b = PITCHER_STATE_ACTIVE ∧ able v w;
  dr_fit f w : bookkeeping f →
    (∀ b, status (on_cores f w) b = status w b ∨ status (on_cores f w) b < PITCHER_STATE_ACTIVE) →
    fit w → fit (on_cores f w);
  dr_work f w : bookkeeping f → work (on_cores f w) = work w;
  dr_able f u w : able u w → able u (on_cores (set_core_map f) w)
}.

(** ** A context *)

(** A pipe of the context and the channels at its ends. *)
Abbreviation link := (Z * (Z * Z))%type.

(** The context [c] with the loop [l], the channels [cs], the pipes [ps] and,
    at its queue of channels, [r]. *)
Record context_ok c l (cs : list (Z * Z)) (ps : list link) (r : queue_ref Q) w : Prop := {
  cx_nonnull : c ≠ 0 ∧ l ≠ 0;
  cx_core : ∃ x a q, co_cores (cores_of w) !! c = Some x ∧ cr_chns x = r ∧ cr_loop x = l ∧
    cr_pipes x = QHere a q ∧ holds q ps.*1;
  cx_chns a u : (a, u) ∈ cs → a ≠ 0 ∧ ∃ x, co_chns (cores_of w) !! a = Some x ∧ ch_unit x = u ∧ ch_core x = c ∧
    0 ≤ ch_state x < PITCHER_STATE_UNKNOWN;
  cx_distinct : NoDup cs.*1 ∧ NoDup cs.*2;
  cx_pipes p s d : (p, (s, d)) ∈ ps → p ≠ 0 ∧ d ∈ cs.*1 ∧
    ∃ x, get_pipe w p = Some x ∧ pp_src x = s ∧ pp_dst x = d;
  cx_list : ∃ mem, registered w mem ∧ ∀ a, a ∈ cs.*1 → a ∈ mem;
  cx_loop : ∃ x, ls_loops (co_loops (cores_of w)) !! l = Some x ∧ 0 ≤ lp_epoll_fd x
}.

Lemma status_of w a x : co_chns (cores_of w) !! a = Some x → status w a = ch_state x.
Proof. unfold status. by intros ->. Qed.

Lemma calm_status w w' a : calm w w' → status w' a = status w a.
Proof.
  intros Hc. unfold status. destruct (co_chns (cores_of w) !! a) as [x|] eqn:E.
  - destruct (cm_chns _ _ Hc a x E) as (x' & -> & _ & _ & Es & _). exact Es.
  - by rewrite (cm_none _ _ Hc a E).
Qed.

Lemma calm_registered w w' mem : calm w w' → registered w mem → registered w' mem.
Proof.
  intros Hc Hg. assert (Hback : ∀ a x', a ∈ mem → co_chns (cores_of w') !! a = Some x' →
    ∃ x, co_chns (cores_of w) !! a = Some x ∧ ch_chnno x' = ch_chnno x).
  { intros a x' Ha Hx'. destruct (rg_chn _ _ Hg a Ha) as [x Hx].
    destruct (cm_chns _ _ Hc a x Hx) as (y & Hy & En & _). exists x. split; [done|]. congruence. }
  split.
  - rewrite (cm_list _ _ Hc), (cm_head _ _ Hc). apply (rg_ring _ _ Hg).
  - intros a Ha. destruct (rg_chn _ _ Hg a Ha) as [x Hx]. destruct (cm_chns _ _ Hc a x Hx) as (y & Hy & _). eauto.
  - intros a b x y Ha Hb Hx Hy E. destruct (Hback a x Ha Hx) as (x0 & Hx0 & Ex), (Hback b y Hb Hy) as (y0 & Hy0 & Ey).
    apply (rg_numbers _ _ Hg a b x0 y0 Ha Hb Hx0 Hy0). congruence.
Qed.

Lemma calm_context c l cs ps r w w' : calm w w' → context_ok c l cs ps r w → context_ok c l cs ps r w'.
Proof.
  intros Hc Hx. destruct Hx as [Hn Hcore Hch Hd Hp (mem & Hg & Hm) Hl]. split; [done| | |done| | |].
  - by rewrite (cm_cores _ _ Hc).
  - intros a u Ha. destruct (Hch a u Ha) as (Hna & x & Hx & Hu & Hcx & Hs). split; [done|].
    destruct (cm_chns _ _ Hc a x Hx) as (y & Hy & _ & Eu & Es & Ec). exists y. rewrite Eu, Es, Ec. done.
  - intros p s d Hin. destruct (Hp p s d Hin) as (Hnp & Hdin & x & Hx & Hs & Hd').
    destruct (cm_pipes _ _ Hc p x Hx) as (y & Hy & Es & Ed). split_and!; [done|done|]. exists y. split_and!; congruence.
  - exists mem. split; [by apply calm_registered with w|done].
  - by rewrite (cm_loops _ _ Hc).
Qed.

(** Only the record of the context itself is replaced. *)
Lemma core_context c l cs ps r r' w x x' :
  context_ok c l cs ps r w → co_cores (cores_of w) !! c = Some x →
  cr_chns x' = r' → cr_loop x' = l → (∃ a q, cr_pipes x' = QHere a q ∧ holds q ps.*1) →
  context_ok c l cs ps r' (on_cores (set_core_map (insert c x')) w).
Proof.
  intros [Hn _ Hch Hd Hp (mem & [Hg1 Hg2 Hg3] & Hm) Hl] Hx Hr Hlp (a & q & Hq & Hh).
  split; try done.
  - exists x', a, q. split_and!; try done. cbn. apply lookup_insert_eq.
  - exists mem. split; [by split|done].
Qed.

Lemma chn_registered w mem a x x' :
  registered w mem → co_chns (cores_of w) !! a = Some x → ch_chnno x' = ch_chnno x →
  registered (on_cores (set_chns (insert a x')) w) mem.
Proof.
  intros Hg Hx En. assert (Hback : ∀ b y', co_chns (cores_of (on_cores (set_chns (insert a x')) w)) !! b = Some y' →
    ∃ y, co_chns (cores_of w) !! b = Some y ∧ ch_chnno y' = ch_chnno y).
  { intros b y'. cbn. destruct (decide (b = a)) as [->|Hne].
    - rewrite lookup_insert_eq. intros [= <-]. eauto.
    - rewrite lookup_insert_ne by done. eauto. }
  split; [apply (rg_ring _ _ Hg)| |].
  - intros b Hb. cbn. destruct (decide (b = a)) as [->|Hne]; [rewrite lookup_insert_eq; eauto|].
    rewrite lookup_insert_ne by done. by apply (rg_chn _ _ Hg).
  - intros b d y z Hb Hd Hy Hz E. destruct (Hback b y Hy) as (y0 & Hy0 & Ey), (Hback d z Hz) as (z0 & Hz0 & Ez).
    apply (rg_numbers _ _ Hg b d y0 z0 Hb Hd Hy0 Hz0). congruence.
Qed.

(** A channel of the context changes its state. *)
Lemma set_status_ok c l cs ps r w a u s :
  context_ok c l cs ps r w → (a, u) ∈ cs → 0 ≤ s < PITCHER_STATE_UNKNOWN →
  ∃ f, __set_chn_status a s w = Done (tt, on_cores (set_chns f) w) ∧
    context_ok c l cs ps r (on_cores (set_chns f) w) ∧
    status (on_cores (set_chns f) w) a = s ∧
    (∀ b, b ≠ a → status (on_cores (set_chns f) w) b = status w b).
Proof.
  intros Hx Ha Hs. destruct (cx_chns _ _ _ _ _ _ Hx a u Ha) as (Hna & x & Hl & Hu & Hc & Hst).
  exists (insert a (set_state s x)). split_and!.
  - unfold __set_chn_status. rewrite (proj2 (Z.ltb_lt s _)) by lia. unfold change_chn.
    by mstep (load_chn_ok _ _ _ Hl).
  - destruct Hx as [Hn Hcore Hch Hd Hp (mem & Hg & Hm) Hlo]. split; try done.
    + intros b v Hb. cbn. destruct (decide (b = a)) as [->|Hne].
      * rewrite lookup_insert_eq. destruct (Hch a v Hb) as (_ & y & Hy & Hv & Hcy & _).
        assert (y = x) as -> by congruence. split; [done|]. exists (set_state s x). split_and!; cbn; try done; lia.
      * rewrite lookup_insert_ne by done. by apply Hch.
    + exists mem. split; [|done]. by apply chn_registered with x.
  - unfold status. cbn. by rewrite lookup_insert_eq.
  - intros b Hb. unfold status. cbn. by rewrite lookup_insert_ne.
Qed.

(** ** Channels that wait for the ones behind them *)

Lemma context_load c l cs ps r w : context_ok c l cs ps r w →
  ∃ x, load_core c w = Done (x, w) ∧ co_cores (cores_of w) !! c = Some x ∧ cr_chns x = r ∧ cr_loop x = l ∧
    ∃ a q, cr_pipes x = QHere a q ∧ holds q ps.*1.
Proof.
  intros Hx. destruct (cx_core _ _ _ _ _ _ Hx) as (x & a & q & Hl & Hr & Hlo & Hp & Hh). exists x. split_and!; eauto.
  apply load_core_ok; [apply (cx_nonnull _ _ _ _ _ _ Hx)|done].
Qed.

Lemma change_core_ok c l cs ps r w x f : context_ok c l cs ps r w → co_cores (cores_of w) !! c = Some x →
  change_core c f w = Done (tt, on_cores (set_core_map (insert c (f x))) w).
Proof.
  intros Hx Hl. unfold change_core. mstep (load_core_ok c w x (proj1 (cx_nonnull _ _ _ _ _ _ Hx)) Hl). done.
Qed.

Lemma core_twice c (x y : pitcher_core Q) w :
  on_cores (set_core_map (insert c y)) (on_cores (set_core_map (insert c x)) w) = on_cores (set_core_map (insert c y)) w.
Proof. unfold on_cores, set_env, set_core_map. cbn. by rewrite insert_insert_eq. Qed.

(** The last of the channels behind [s] that is not stopped, or [d]. *)
Fixpoint last_alive w (s : Z) (ps : list link) (d : Z) : Z :=
  match ps with
  | [] => d
  | (_, (s', d')) :: ps =>
      last_alive w s ps (if (s' =? s) && negb (status w d' =? PITCHER_STATE_STOPPED) then d' else d)
  end.

Lemma last_alive_ext w w' s ps : (∀ b, status w b = status w' b) → ∀ d, last_alive w s ps d = last_alive w' s ps d.
Proof. intros E. induction ps as [|[p [s' d']] ps IH]; intros d; cbn [last_alive]; [done|]. by rewrite E, IH. Qed.

Lemma last_alive_zero w s ps : (∀ p s' d, (p, (s', d)) ∈ ps → d ≠ 0) → ∀ d,
  last_alive w s ps d = 0 ↔ d = 0 ∧ ∀ p d', (p, (s, d')) ∈ ps → status w d' = PITCHER_STATE_STOPPED.
Proof.
  induction ps as [|[p [s' d']] ps IH]; intros Hne d; cbn [last_alive].
  { split; [intros ->; split; [done|]; intros ? ? []%elem_of_nil|by intros [-> _]]. }
  assert (Hd' : d' ≠ 0) by (apply (Hne p s'); by left).
  rewrite IH by (intros p0 s0 d0 Hin; apply (Hne p0 s0); by right).
  destruct (Z.eqb_spec s' s) as [->|Hs]; cbn [andb].
  - destruct (Z.eqb_spec (status w d') PITCHER_STATE_STOPPED) as [Hst|Hst]; cbn [negb].
    + split; intros [-> Ha]; (split; [done|]); intros p0 d0.
      * intros [[= -> ->]|Hin]%elem_of_cons; [done|by apply (Ha p0)].
      * intros Hin. apply (Ha p0). by right.
    + split; [by intros [? _]|]. intros [_ Ha]. exfalso. apply Hst, (Ha p). by left.
  - split; intros [-> Ha]; (split; [done|]); intros p0 d0.
    + intros [[= _ ? _]|Hin]%elem_of_cons; [done|by apply (Ha p0)].
    + intros Hin. apply (Ha p0). by right.
Qed.

(** A pipe with its ends. *)
Definition link_ok w (e : link) : Prop :=
  e.1 ≠ 0 ∧ is_Some (co_chns (cores_of w) !! e.2.2) ∧
  ∃ x, get_pipe w e.1 = Some x ∧ pp_src x = e.2.1 ∧ pp_dst x = e.2.2.

Lemma context_links c l cs ps r w : context_ok c l cs ps r w → Forall (link_ok w) ps.
Proof.
  intros Hx. apply Forall_forall. intros [p [s d]] Hin. destruct (cx_pipes _ _ _ _ _ _ Hx p s d Hin) as (Hp & Hd & Hpi).
  apply list_elem_of_fmap in Hd as ([b v] & -> & Hb). split_and!; [done| |done].
  destruct (cx_chns _ _ _ _ _ _ Hx b v Hb) as (_ & x & Hl & _). by exists x.
Qed.

Lemma find_alive_ok w p s' d' s d : link_ok w (p, (s', d')) → s ≠ 0 →
  __find_alive_sink_chn p (Connect s d 0) w =
    Done (false, Connect s (if (s' =? s) && negb (status w d' =? PITCHER_STATE_STOPPED) then d' else d) 0, w).
Proof.
  intros (Hp & [x Hl] & pi & Hpi & Es & Ed) Hs. cbn [fst snd] in *.
  unfold __find_alive_sink_chn. rewrite (proj2 (Z.eqb_neq p 0)) by done. cbn [ct_src ct_dst ct_priv orb].
  rewrite (proj2 (Z.eqb_neq s 0)) by done. unfold pitcher_get_pipe_src, pitcher_get_pipe_dst.
  erewrite M_bind_done by (mstep (load_pipe_ok p w pi Hp Hpi); reflexivity). rewrite Es.
  destruct (Z.eqb_spec s' s) as [->|]; [|done]. cbn [andb].
  erewrite M_bind_done by (mstep (load_pipe_ok p w pi Hp Hpi); reflexivity). rewrite Ed.
  mstep (load_chn_ok _ _ _ Hl). rewrite (status_of _ _ _ Hl). by destruct (negb _).
Qed.

Lemma enum_alive s w ps : s ≠ 0 → Forall (link_ok w) ps → ∀ d,
  enum_list (λ item '(arg, w), obind (λ '((del, arg), w), Done (del, (arg, w))) (__find_alive_sink_chn item arg w))
    ps.*1 (Connect s d 0, w) = Done (ps.*1, (Connect s (last_alive w s ps d) 0, w)).
Proof.
  intros Hs. induction 1 as [|[p [s' d']] ps Hp Hps IH]; intros d; [done|].
  cbn [fmap list_fmap enum_list fst last_alive]. rewrite (find_alive_ok w p s' d' s d Hp Hs).
  cbn [obind mbind outcome_bind]. by rewrite IH.
Qed.

(** The search is done with the queue of pipes away; it comes back as it was. *)
Lemma search_pipes c l cs ps r w a : context_ok c l cs ps r w → a ≠ 0 →
  ∃ f, enumerate_with (get_cpipes c) (put_cpipes c) __find_alive_sink_chn (Connect a 0 0) w =
      Done (Connect a (last_alive w a ps 0) 0, on_cores (set_core_map f) w) ∧
    context_ok c l cs ps r (on_cores (set_core_map f) w).
Proof.
  intros Hx Hna. destruct (context_load _ _ _ _ _ _ Hx) as (k & Ek & Hk & Hkr & Hkl & pa & pq & Hkp & Hh).
  unfold enumerate_with, get_cpipes, put_cpipes. erewrite M_bind_done by (mstep Ek; reflexivity). rewrite Hkp.
  mstep (change_core_ok c l cs ps r w k (set_pipes QAway) Hx Hk).
  set (w1 := on_cores _ w).
  pose proof (holds_enumerate (λ item '(arg, w), obind (λ '((del, arg), w), Done (del, (arg, w)))
    (__find_alive_sink_chn item arg w)) pq ps.*1 (Connect a 0 0, w1) Hh) as He.
  rewrite (enum_alive a w1 ps Hna) in He by exact (context_links _ _ _ _ _ _ Hx).
  destruct (queue_enumerate _ _ _) as [[q' [arg' w']]| | |] eqn:Eq; try done. destruct He as [Hq' [= -> ->]].
  exists (insert c (set_pipes (QHere pa q') k)). split.
  - erewrite M_bind_done by (rewrite Eq; reflexivity). rewrite <- (core_twice c (set_pipes QAway k)). fold w1.
    rewrite (last_alive_ext w1 w) by done. unfold change_core. erewrite M_bind_done; [reflexivity|].
    mstep (load_core_ok c w1 (set_pipes QAway k) (proj1 (cx_nonnull _ _ _ _ _ _ Hx)) (lookup_insert_eq _ _ _)). done.
  - eapply core_context; [exact Hx|exact Hk|done|done|by exists pa, q'].
Qed.

Lemma alive_sink_ok c l cs ps r w a u x : context_ok c l cs ps r w → (a, u) ∈ cs →
  (r ≠ QNull) → co_chns (cores_of w) !! a = Some x →
  ∃ f, __get_alive_sink_chn (ch_chnno x) w = Done (last_alive w a ps 0, on_cores (set_core_map f) w) ∧
    context_ok c l cs ps r (on_cores (set_core_map f) w).
Proof.
  intros Hx Ha Hr Hl. destruct (cx_chns _ _ _ _ _ _ Hx a u Ha) as (Hna & x' & Hl' & _ & Hc & _).
  assert (x' = x) as -> by congruence. destruct (cx_list _ _ _ _ _ _ Hx) as (mem & Hg & Hm).
  unfold __get_alive_sink_chn, get_other.
  mstep (find_member w mem a x Hg (Hm a (list_elem_of_fmap_2 fst cs (a, u) Ha)) Hna Hl).
  rewrite (proj2 (Z.eqb_neq a 0) Hna). mstep (load_chn_ok _ _ _ Hl). rewrite Hc.
  destruct (context_load _ _ _ _ _ _ Hx) as (k & Ek & Hk & Hkr & Hkl & pa & pq & Hkp & Hh).
  mstep Ek. rewrite Hkr, Hkp. destruct (search_pipes c l cs ps r w a Hx Hna) as (f & E & Hf).
  exists f. split; [|done]. destruct r; [done|..]; by mstep E.
Qed.

(** ** The turn of a channel *)

Section ticks.
Context (c l : Z) (cs : list (Z * Z)) (ps : list link).
Context (fit : world (pipes Q (units Q (cores Q O F))) → Prop).
Context (work : world (pipes Q (units Q (cores Q O F))) → nat).
Context (able : Z → world (pipes Q (units Q (cores Q O F))) → Prop).
Context (units_drain : Draining cs fit work able).

(** The channel makes progress when its turn comes. *)
Definition ripe w (e : Z * Z) : Prop :=
  status w e.1 = PITCHER_STATE_ACTIVE ∧ able e.2 w ∨
  status w e.1 = PITCHER_STATE_STOPPING ∧ ∀ p d, (p, (e.1, d)) ∈ ps → status w d = PITCHER_STATE_STOPPED.

(** The turn of the channel [a] with the unit [u] took [w] to [w']. *)
Record stepped (r : queue_ref Q) a u w w' : Prop := {
  st_context : context_ok c l cs ps r w';
  st_fit : fit w';
  st_others b : b ≠ a → status w' b = status w b;
  st_down : status w' a ≤ status w a;
  st_work : (work w' ≤ work w)%nat;
  st_still v : status w' a = status w a → work w' = work w → v ≠ u → able v w → able v w';
  st_ripe : ripe w (a, u) → status w' a < status w a ∨ (work w' < work w)%nat
}.

Lemma active_eq a u x w e w1 : a ≠ 0 → co_chns (cores_of w) !! a = Some x → ch_unit x = u →
  ch_state x = PITCHER_STATE_ACTIVE → turn u w = Done (e, w1) →
  __process_chn_active call_plane call_recycle call_check_ready call_runfunc a w =
    ((if negb (e =? 0) then __set_chn_status a PITCHER_STATE_STOPPING else mret tt) ≫= λ _, mret RET_OK) w1.
Proof.
  intros Ha Hx Hu Hs Ht. unfold __process_chn_active. rewrite (proj2 (Z.eqb_neq a 0) Ha).
  mstep (load_chn_ok _ _ _ Hx). rewrite Hs, Z.eqb_refl. cbn [negb]. rewrite Hu.
  unfold turn in Ht. apply M_bind_inv in Ht as ([ready e'] & w2 & E1 & Ht).
  apply M_bind_inv in Ht as (b & w3 & E2 & Ht). injection Ht as -> ->.
  rewrite (M_bind_done _ _ _ _ _ E1). cbv beta iota. by rewrite (M_bind_done _ _ _ _ _ E2).
Qed.

(** The channel [a] leaves the active state. *)
Lemma lower_fit f w w' a s : fit w → bookkeeping f → w' = on_cores f w →
  s < PITCHER_STATE_ACTIVE → status w' a = s → (∀ b, b ≠ a → status w' b = status w b) → fit w'.
Proof.
  intros Hf Hr -> Hs Ha Hb. apply (dr_fit _ _ _ _ units_drain); [done| |done]. intros b.
  destruct (decide (b = a)) as [->|Hne]; [right; lia|left; auto].
Qed.

(** Bookkeeping in the contexts does not matter to the units. *)
Lemma core_fit f w : fit w → fit (on_cores (set_core_map f) w).
Proof. intros Hf. apply (dr_fit _ _ _ _ units_drain); [done| |done]. intros b. by left. Qed.

Lemma active_ok r a u w : context_ok c l cs ps r w → fit w → (a, u) ∈ cs → status w a = PITCHER_STATE_ACTIVE →
  ∃ w', __process_chn_active call_plane call_recycle call_check_ready call_runfunc a w = Done (RET_OK, w') ∧
    stepped r a u w w'.
Proof.
  intros Hx Hf Ha Hs. destruct (cx_chns _ _ _ _ _ _ Hx a u Ha) as (Hna & x & Hl & Hu & _ & _).
  destruct (dr_turn _ _ _ _ units_drain a u w Ha Hf Hs) as (e & w1 & Et & Hf1 & Hc & Hw & Hab & Hkeep).
  rewrite (active_eq a u x w e w1 Hna Hl Hu); [|by rewrite (status_of _ _ _ Hl) in Hs|done].
  pose proof (calm_context _ _ _ _ _ _ _ Hc Hx) as Hx1. destruct (Z.eqb_spec e 0) as [->|He]; cbn [negb].
  - exists w1. split; [done|]. split; try done.
    + intros b _. by apply calm_status.
    + by rewrite (calm_status _ _ a Hc).
    + intros v _ Hw' Hv Hav. by apply Hkeep.
    + intros [[_ Hau]|[Hst _]]; [|cbn [fst] in Hst; by rewrite Hs in Hst]. destruct (Hab Hau); [done|by right].
  - destruct (set_status_ok _ _ _ _ _ w1 a u PITCHER_STATE_STOPPING Hx1 Ha ltac:(done)) as (f & E & Hx2 & Hsa & Hso).
    eexists. split; [by mstep E|]. split; try done.
    + apply (lower_fit (set_chns f) w1 _ a PITCHER_STATE_STOPPING); done.
    + intros b Hb. rewrite Hso by done. by apply calm_status.
    + rewrite Hsa, Hs. done.
    + rewrite (dr_work _ _ _ _ units_drain) by done. done.
    + intros v Hst. rewrite Hsa, Hs in Hst. done.
    + intros _. left. rewrite Hsa, Hs. done.
Qed.

Lemma stopping_ok r a u w : context_ok c l cs ps r w → fit w → (a, u) ∈ cs → r ≠ QNull →
  status w a = PITCHER_STATE_STOPPING →
  ∃ w', __process_chn_stopping call_plane call_recycle call_stop a w = Done (RET_OK, w') ∧ stepped r a u w w'.
Proof.
  intros Hx Hf Ha Hr Hs. destruct (cx_chns _ _ _ _ _ _ Hx a u Ha) as (Hna & x & Hl & Hu & _ & _).
  unfold __process_chn_stopping. rewrite (proj2 (Z.eqb_neq a 0) Hna). mstep (load_chn_ok _ _ _ Hl).
  rewrite <- (status_of _ _ _ Hl), Hs, Z.eqb_refl. cbn [negb].
  destruct (alive_sink_ok _ _ _ _ _ _ a u x Hx Ha Hr Hl) as (f & E & Hx1). mstep E. clear E. set (w1 := on_cores _ w) in *.
  assert (Hf1 : fit w1) by by apply core_fit.
  assert (Hw1 : work w1 = work w) by by apply (dr_work _ _ _ _ units_drain).
  assert (Hne : ∀ p s d, (p, (s, d)) ∈ ps → d ≠ 0).
  { intros p s d Hin. destruct (cx_pipes _ _ _ _ _ _ Hx p s d Hin) as (_ & Hd & _).
    apply list_elem_of_fmap in Hd as ([b v] & -> & Hb). by destruct (cx_chns _ _ _ _ _ _ Hx b v Hb). }
  pose proof (last_alive_zero w a ps Hne 0) as Hz.
  destruct (Z.eqb_spec (last_alive w a ps 0) 0) as [Hd|Hd]; cbn [negb].
  - destruct (dr_stop _ _ _ _ units_drain a u w1 Ha Hf1 Hs) as (e & w2 & Es & Hf2 & Hc & Hw).
    rewrite Hu. mstep Es. pose proof (calm_context _ _ _ _ _ _ _ Hc Hx1) as Hx2.
    destruct (set_status_ok _ _ _ _ _ w2 a u PITCHER_STATE_STOPPED Hx2 Ha ltac:(done)) as (g & E & Hx3 & Hsa & Hso).
    eexists. split; [by mstep E|]. split; try done.
    + apply (lower_fit (set_chns g) w2 _ a PITCHER_STATE_STOPPED); done.
    + intros b Hb. rewrite Hso by done. exact (calm_status _ _ b Hc).
    + rewrite Hsa, Hs. done.
    + rewrite (dr_work _ _ _ _ units_drain) by done. lia.
    + intros v Hst. rewrite Hsa, Hs in Hst. done.
    + intros _. left. rewrite Hsa, Hs. done.
  - exists w1. split; [done|]. split; try done.
    + lia.
    + intros v _ _ _ Hav. by apply (dr_able _ _ _ _ units_drain).
    + intros [[Hst _]|[_ Hall]]; [cbn [fst] in Hst; by rewrite Hs in Hst|]. destruct Hd. by apply Hz.
Qed.

Abbreviation run_chn := (__run_chn call_plane call_recycle call_stop call_check_ready call_runfunc).

Lemma context_status r w a u : context_ok c l cs ps r w → (a, u) ∈ cs → 0 ≤ status w a < PITCHER_STATE_UNKNOWN.
Proof.
  intros Hx Ha. destruct (cx_chns _ _ _ _ _ _ Hx a u Ha) as (_ & x & Hl & _ & _ & Hs). by rewrite (status_of _ _ _ Hl).
Qed.

Lemma stepped_same r a u w : context_ok c l cs ps r w → fit w → ¬ ripe w (a, u) → stepped r a u w w.
Proof. intros Hx Hf Hr. by split. Qed.

Lemma process_chn_run_ok r a u w : context_ok c l cs ps r w → fit w → (a, u) ∈ cs → r ≠ QNull →
  ∃ w', __process_chn_run call_plane call_recycle call_stop call_check_ready call_runfunc a w = Done (RET_OK, w') ∧
    stepped r a u w w'.
Proof.
  intros Hx Hf Ha Hr. destruct (cx_chns _ _ _ _ _ _ Hx a u Ha) as (Hna & x & Hl & _).
  unfold __process_chn_run. rewrite (proj2 (Z.eqb_neq a 0) Hna). mstep (load_chn_ok _ _ _ Hl).
  rewrite <- (status_of _ _ _ Hl).
  destruct (Z.eqb_spec (status w a) PITCHER_STATE_ACTIVE) as [Hs|H2].
  { destruct (active_ok r a u w Hx Hf Ha Hs) as (w' & E & Hw'). exists w'. split; [by mstep E|done]. }
  destruct (Z.eqb_spec (status w a) PITCHER_STATE_STOPPING) as [Hs|H1].
  { destruct (stopping_ok r a u w Hx Hf Ha Hr Hs) as (w' & E & Hw'). exists w'. split; [by mstep E|done]. }
  exists w. split; [done|]. apply stepped_same; [done|done|]. by intros [[? _]|[? _]].
Qed.

Lemma run_chn_ok r a u w n : context_ok c l cs ps r w → fit w → (a, u) ∈ cs → r ≠ QNull →
  ∃ w', run_chn a n w = Done ((false, if status w' a =? PITCHER_STATE_STOPPED then n else u32 (n + 1)), w') ∧
    stepped r a u w w'.
Proof.
  intros Hx Hf Ha Hr. destruct (cx_chns _ _ _ _ _ _ Hx a u Ha) as (Hna & x & Hl & _).
  unfold __run_chn. rewrite (proj2 (Z.eqb_neq a 0) Hna). mstep (load_chn_ok _ _ _ Hl).
  rewrite <- (status_of _ _ _ Hl).
  destruct (Z.eqb_spec (status w a) PITCHER_STATE_STOPPED) as [Hs|H0].
  { exists w. rewrite Hs. split; [done|]. apply stepped_same; [done|done|].
    intros [[Hr' _]|[Hr' _]]; cbn [fst] in Hr'; by rewrite Hs in Hr'. }
  destruct (process_chn_run_ok r a u w Hx Hf Ha Hr) as (w' & E & Hw'). exists w'. split; [|done].
  mstep E. destruct (cx_chns _ _ _ _ _ _ (st_context _ _ _ _ _ Hw') a u Ha) as (_ & y & Hy & _).
  mstep (load_chn_ok _ _ _ Hy). rewrite <- (status_of _ _ _ Hy). by destruct (_ =? _).
Qed.

(** Nothing has grown, and something has become less. *)
Definition below w w' : Prop := (∀ b, status w' b ≤ status w b) ∧ (work w' ≤ work w)%nat.
Definition less w w' : Prop := (work w' < work w)%nat ∨ ∃ e, e ∈ cs ∧ status w' e.1 < status w e.1.

Lemma below_trans w1 w2 w3 : below w1 w2 → below w2 w3 → below w1 w3.
Proof. intros [H1 H2] [H3 H4]. split; [|lia]. intros b. specialize (H1 b). specialize (H3 b). lia. Qed.

Lemma less_below w1 w2 w3 : less w1 w2 → below w2 w3 → less w1 w3.
Proof. intros [H1|(e & He & H1)] [H3 H4]; [left; lia|right]. exists e. split; [done|]. specialize (H3 e.1). lia. Qed.

Lemma below_less w1 w2 w3 : below w1 w2 → less w2 w3 → less w1 w3.
Proof. intros [H3 H4] [H1|(e & He & H1)]; [left; lia|right]. exists e. split; [done|]. specialize (H3 e.1). lia. Qed.

Lemma stepped_below r a u w w' : stepped r a u w w' → below w w'.
Proof.
  intros Hs. split; [|apply Hs]. intros b. destruct (decide (b = a)) as [->|Hb]; [apply Hs|].
  by rewrite (st_others _ _ _ _ _ Hs b Hb).
Qed.

(** A channel that is ripe stays ripe until its turn, unless another makes
    progress. *)
Lemma stepped_ripe r a u w w' e : stepped r a u w w' → (a, u) ∈ cs → e.2 ≠ u → ripe w e →
  less w w' ∨ ripe w' e.
Proof.
  intros Hs Ha He Hr. destruct (decide (status w' a = status w a)) as [Es|Es].
  2:{ left. right. exists (a, u). split; [done|]. pose proof (st_down _ _ _ _ _ Hs). cbn. lia. }
  destruct (decide (work w' = work w)) as [Ew|Ew].
  2:{ left. left. pose proof (st_work _ _ _ _ _ Hs). lia. }
  right. assert (Hall : ∀ b, status w' b = status w b).
  { intros b. destruct (decide (b = a)) as [->|Hb]; [done|]. by apply Hs. }
  destruct Hr as [[H1 H2]|[H1 H2]]; [left|right]; rewrite Hall; (split; [done|]).
  - by apply (st_still _ _ _ _ _ Hs).
  - intros p d Hin. rewrite Hall. by apply (H2 p).
Qed.

Abbreviation counting := (λ item '(arg, w), obind (λ '((del, arg), w), Done (del, (arg, w))) (run_chn item arg w)).

(** The turns of the channels [es] took [w] to [w'] and the count from [n] to
    [n']. *)
Record passed (r : queue_ref Q) (es : list (Z * Z)) n w n' w' : Prop := {
  pa_context : context_ok c l cs ps r w';
  pa_fit : fit w';
  pa_below : below w w';
  pa_others b : b ∉ es.*1 → status w' b = status w b;
  pa_count : n ≤ n' ≤ n + zlen es;
  pa_none e : n' = n → e ∈ es → status w' e.1 = PITCHER_STATE_STOPPED;
  pa_some : n' ≠ n → ∃ e, e ∈ es ∧ status w e.1 ≠ PITCHER_STATE_STOPPED;
  pa_ripe e : e ∈ es → ripe w e → less w w'
}.

Lemma passed_cons r a u es n w w1 n' w' : (a, u) ∈ cs → NoDup (a :: es.*1) → NoDup (u :: es.*2) →
  stepped r a u w w1 →
  passed r es (if status w1 a =? PITCHER_STATE_STOPPED then n else n + 1) w1 n' w' →
  passed r ((a, u) :: es) n w n' w'.
Proof.
  intros Ha [Hna Hnd]%NoDup_cons [Hnu _]%NoDup_cons Hs [Hc Hf Hb Ho Hn Hz Hsm Hr]. pose proof (stepped_below _ _ _ _ _ Hs) as Hb1.
  assert (Hsame : ∀ e, e ∈ es → status w1 e.1 = status w e.1).
  { intros e He. apply (st_others _ _ _ _ _ Hs). intros <-. apply Hna. by apply list_elem_of_fmap_2. }
  split; [done|done|by apply below_trans with w1| | | | |].
  - intros b [Hba Hbe]%not_elem_of_cons. rewrite Ho by done. by apply (st_others _ _ _ _ _ Hs).
  - rewrite zlen_cons. destruct (_ =? _); lia.
  - intros e En He. destruct (Z.eqb_spec (status w1 a) PITCHER_STATE_STOPPED) as [Hst|]; [|lia].
    apply elem_of_cons in He as [->|He]; [|by apply Hz]. cbn [fst]. by rewrite Ho.
  - intros En. destruct (Z.eqb_spec (status w1 a) PITCHER_STATE_STOPPED) as [Hst|Hst].
    + destruct (Hsm En) as (e & He & Hne). exists e. split; [by right|]. by rewrite <- Hsame.
    + exists (a, u). split; [by left|]. cbn [fst]. pose proof (st_down _ _ _ _ _ Hs).
      pose proof (context_status _ _ _ _ (st_context _ _ _ _ _ Hs) Ha). unfold PITCHER_STATE_STOPPED in *. lia.
  - intros e He Hripe. apply elem_of_cons in He as [->|He].
    + apply less_below with w1; [|done]. destruct (st_ripe _ _ _ _ _ Hs Hripe); [right; by exists (a, u)|by left].
    + destruct (stepped_ripe r a u w w1 e Hs Ha) as [Hl|Hl]; [|done|by apply less_below with w1|].
      * intros <-. apply Hnu. by apply list_elem_of_fmap_2.
      * apply below_less with w1; [done|]. by apply (Hr e).
Qed.

Lemma enum_run r es : r ≠ QNull → ∀ n w, context_ok c l cs ps r w → fit w → (∀ e, e ∈ es → e ∈ cs) →
  NoDup es.*1 → NoDup es.*2 → 0 ≤ n → n + zlen es < 2 ^ 32 →
  ∃ n' w', enum_list counting es.*1 (n, w) = Done (es.*1, (n', w')) ∧ passed r es n w n' w'.
Proof.
  intros Hr. induction es as [|[a u] es IH]; intros n w Hx Hf Hsub H1 H2 Hn Hlen.
  { exists n, w. split; [done|]. split; try done; try (unfold zlen; cbn; lia); intros; exfalso; by eapply not_elem_of_nil. }
  rewrite zlen_cons in Hlen. pose proof (zlen_nonneg es).
  assert (Ha : (a, u) ∈ cs) by (apply Hsub; by left).
  destruct (run_chn_ok r a u w n Hx Hf Ha Hr) as (w1 & E & Hs).
  cbn [fmap list_fmap fst snd] in H1, H2. rewrite u32_small in E by lia.
  destruct (IH (if status w1 a =? PITCHER_STATE_STOPPED then n else n + 1) w1) as (n' & w' & E' & Hp).
  - apply Hs.
  - apply Hs.
  - intros e He. apply Hsub. by right.
  - by apply NoDup_cons in H1 as [_ ?].
  - by apply NoDup_cons in H2 as [_ ?].
  - destruct (_ =? _); lia.
  - destruct (_ =? _); lia.
  - exists n', w'. split; [|by apply passed_cons with w1].
    cbn [fmap list_fmap enum_list fst]. rewrite E. cbn [obind mbind outcome_bind]. by rewrite E'.
Qed.

(** Pipes go from lower to higher channels, in some order of the channels. *)
Definition acyclic : Prop := ∃ rank : Z → nat, ∀ p s d, (p, (s, d)) ∈ ps → (rank s < rank d)%nat.

(** Of channels that are stopping, the one that is last in the order. *)
Lemma last_stopping w (rank : Z → nat) (es : list (Z * Z)) (e : Z * Z) : e ∈ es → status w e.1 = PITCHER_STATE_STOPPING →
  ∃ m, m ∈ es ∧ status w m.1 = PITCHER_STATE_STOPPING ∧
    ∀ k, k ∈ es → status w k.1 = PITCHER_STATE_STOPPING → (rank k.1 ≤ rank m.1)%nat.
Proof.
  revert e. induction es as [|b es IH]; intros e; [by intros []%elem_of_nil|].
  intros He Hs. destruct (decide (Exists (λ e, status w e.1 = PITCHER_STATE_STOPPING) es)) as [(e' & He' & Hs')%Exists_exists|Hno].
  - destruct (IH e' He' Hs') as (m & Hm & Hms & Hmax).
    destruct (decide (status w b.1 = PITCHER_STATE_STOPPING ∧ (rank m.1 < rank b.1)%nat)) as [[Hb Hlt]|Hnb].
    + exists b. split_and!; [by left|done|]. intros d [->|Hd]%elem_of_cons Hds; [done|]. specialize (Hmax d Hd Hds). lia.
    + exists m. split_and!; [by right|done|]. intros d [->|Hd]%elem_of_cons Hds; [|by apply Hmax].
      destruct (decide (rank m.1 < rank b.1)%nat); [tauto|lia].
  - assert (Hn : ∀ d, d ∈ es → status w d.1 = PITCHER_STATE_STOPPING → False) by (intros d ? ?; apply Hno, Exists_exists; eauto).
    apply elem_of_cons in He as [->|He]; [|by destruct (Hn e)]. exists b. split_and!; [by left|done|].
    intros d [->|Hd]%elem_of_cons Hds; [done|by destruct (Hn d)].
Qed.

(** Someone makes progress, unless all have stopped. *)
Lemma ripe_exists r w e : acyclic → context_ok c l cs ps r w → fit w → e ∈ cs →
  status w e.1 ≠ PITCHER_STATE_STOPPED → ∃ m, m ∈ cs ∧ ripe w m.
Proof.
  intros [rank Hrank] Hx Hf He Hs. destruct (decide (Exists (λ e, status w e.1 = PITCHER_STATE_ACTIVE) cs)) as [([a u] & Ha & Hst)%Exists_exists|Hno].
  - destruct (dr_alive _ _ _ _ units_drain w a u Hf Ha Hst) as (b & v & Hb & Hbs & Hv).
    exists (b, v). split; [done|]. by left.
  - assert (Hstop : ∀ k, k ∈ cs → status w k.1 ≠ PITCHER_STATE_STOPPED → status w k.1 = PITCHER_STATE_STOPPING).
    { intros [b v] Hb Hbs. cbn [fst] in *. pose proof (context_status _ _ _ _ Hx Hb).
      assert (Hact : status w b ≠ PITCHER_STATE_ACTIVE) by (intros E; apply Hno; rewrite Exists_exists; exists (b, v); done).
      cbn [fst] in *. unfold PITCHER_STATE_STOPPED, PITCHER_STATE_STOPPING, PITCHER_STATE_ACTIVE, PITCHER_STATE_UNKNOWN in *. lia. }
    destruct (last_stopping w rank cs e He (Hstop e He Hs)) as (m & Hm & Hms & Hmax).
    exists m. split; [done|]. right. split; [done|]. intros p d Hin.
    destruct (decide (status w d = PITCHER_STATE_STOPPED)) as [|Hd]; [done|]. exfalso.
    destruct (cx_pipes _ _ _ _ _ _ Hx p _ _ Hin) as (_ & Hdin & _). apply list_elem_of_fmap in Hdin as (b & -> & Hb).
    specialize (Hmax b Hb (Hstop b Hb Hd)). specialize (Hrank p _ _ Hin). lia.
Qed.

(** ** The task of the context *)

Abbreviation timer_func := (Core.__timer_func call_plane call_recycle call_stop call_check_ready call_runfunc).

(** All channels have stopped, and so has the loop. *)
Definition drained w : Prop :=
  (∀ e, e ∈ cs → status w e.1 = PITCHER_STATE_STOPPED) ∧
  ∃ x, ls_loops (co_loops (cores_of w)) !! l = Some x ∧ lp_running x = 0.

(** The loop is told to stop; of the system, at most the identity of the thread
    is asked for and a signal sent. *)
Lemma loop_stop_ok w x : l ≠ 0 → ls_loops (co_loops (cores_of w)) !! l = Some x → 0 ≤ lp_epoll_fd x →
  ∃ o, pitcher_loop_stop l w = Done (RET_OK, on_loops (λ y, set_os o (set_loops (insert l (set_running 0 x)) y)) w) ∧
    ∀ P : O → Prop, P (ls_os (co_loops (cores_of w))) → (∀ o, P o → P (os_gettid o).2) →
      (∀ t s o, P o → P (os_kill t s o)) → P o.
Proof.
  intros Hl Hx Hfd. unfold pitcher_loop_stop, assert_loop.
  assert (El : load_loop l w = Done (x, w)) by by apply load_loop_ok.
  erewrite M_bind_done.
  2:{ mstep El. erewrite M_bind_done by (rewrite (proj2 (Z.leb_le _ _) Hfd); reflexivity). reflexivity. }
  unfold __set_loop_status. erewrite M_bind_done; [|unfold change_loop; mstep El; reflexivity].
  set (w1 := on_loops _ w). set (o0 := ls_os (co_loops (cores_of w))).
  destruct (lp_tid x =? 0).
  { exists o0. split; [|by intros P]. erewrite M_bind_done by reflexivity. f_equal. }
  rewrite M_bind_eq, M_bind_eq.
  change (sys os_gettid w1) with (let (tid, o) := os_gettid o0 in Done (tid, on_loops (set_os o) w1)).
  assert (Hg : ∀ P : O → Prop, P o0 → (∀ o, P o → P (os_gettid o).2) → P (os_gettid o0).2) by auto.
  destruct (os_gettid o0) as [tid o]. cbn [obind snd] in *. destruct (lp_tid x =? tid).
  - exists o. split; [done|]. intros P H1 H2 _. by apply Hg.
  - exists (os_kill (lp_tid x) SIG_TERM_LOOP o). split; [done|]. intros P H1 H2 H3. by apply H3, Hg.
Qed.

Lemma all_turns qa q w : context_ok c l cs ps (QHere qa q) w → holds q cs.*1 → fit w → zlen cs < 2 ^ 32 →
  ∃ n q' w', enumerate_with (get_cchns c) (put_cchns c) run_chn 0 w = Done (n, w') ∧
    holds q' cs.*1 ∧ passed (QHere qa q') cs 0 w n w'.
Proof.
  intros Hx Hq Hf Hlen. destruct (context_load _ _ _ _ _ _ Hx) as (k & Ek & Hk & Hkr & Hkl & Hkp).
  unfold enumerate_with, get_cchns, put_cchns. erewrite M_bind_done by (mstep Ek; reflexivity). rewrite Hkr.
  mstep (change_core_ok c l cs ps _ w k (set_chn_queue QAway) Hx Hk). set (w1 := on_cores _ w).
  assert (Hx1 : context_ok c l cs ps QAway w1) by (eapply core_context; [exact Hx|exact Hk|done|done|done]).
  assert (Hf1 : fit w1) by by apply core_fit.
  destruct (cx_distinct _ _ _ _ _ _ Hx) as [Hd1 Hd2].
  destruct (enum_run QAway cs ltac:(done) 0 w1 Hx1 Hf1 ltac:(done) Hd1 Hd2 ltac:(done) Hlen) as (n & w2 & E & Hp).
  pose proof (holds_enumerate counting q cs.*1 (0, w1) Hq) as He. rewrite E in He.
  destruct (queue_enumerate _ _ _) as [[q' [n' w']]| | |] eqn:Eq; try done. destruct He as [Hq' [= -> ->]].
  destruct (context_load _ _ _ _ _ _ (pa_context _ _ _ _ _ _ Hp)) as (k2 & Ek2 & Hk2 & _ & Hkl2 & Hkp2).
  exists n, q'. eexists. split_and!; [|done|].
  - erewrite M_bind_done by (rewrite Eq; reflexivity). cbv beta iota.
    mstep (change_core_ok c l cs ps _ w2 k2 (set_chn_queue (QHere qa q')) (pa_context _ _ _ _ _ _ Hp) Hk2). reflexivity.
  - destruct Hp as [Hc2 Hf2 Hb Ho Hn Hz Hs Hr]. assert (Hw0 : work w1 = work w) by by apply (dr_work _ _ _ _ units_drain).
    set (w3 := on_cores _ w2). assert (Hw3 : work w3 = work w2) by by apply (dr_work _ _ _ _ units_drain).
    unfold below, less in *. rewrite Hw0 in *. split; try done.
    + eapply core_context; [exact Hc2|exact Hk2|done|done|done].
    + by apply core_fit.
    + unfold below. by rewrite Hw3.
    + intros e He Hr'. unfold less. rewrite Hw3. apply (Hr e He).
      destruct Hr' as [[H1 H2]|Hr']; [left|by right]. split; [done|]. by apply (dr_able _ _ _ _ units_drain).
Qed.

(** One call of the task: the end, or some progress. *)
Lemma tick_ok qa q w : context_ok c l cs ps (QHere qa q) w → holds q cs.*1 → fit w → acyclic → zlen cs < 2 ^ 32 →
  (∃ w', timer_func c w = Done (1, w') ∧ drained w') ∨
  (∃ q' w', timer_func c w = Done (0, w') ∧ context_ok c l cs ps (QHere qa q') w' ∧ holds q' cs.*1 ∧ fit w' ∧
    below w w' ∧ less w w').
Proof.
  intros Hx Hq Hf Hac Hlen. destruct (all_turns qa q w Hx Hq Hf Hlen) as (n & q' & w1 & E & Hq' & Hp).
  unfold Core.__timer_func. pose proof (pa_context _ _ _ _ _ _ Hp) as Hx1. destruct (Z.eqb_spec n 0) as [->|Hn].
  - left. destruct (context_load _ _ _ _ _ _ Hx1) as (k & Ek & _ & _ & Hkl & _).
    destruct (cx_loop _ _ _ _ _ _ Hx1) as (x & Hl & Hfd).
    destruct (loop_stop_ok w1 x (proj2 (cx_nonnull _ _ _ _ _ _ Hx)) Hl Hfd) as (o & Es & _).
    eexists. split; [mstep E; rewrite Z.eqb_refl; mstep Ek; rewrite Hkl; mstep Es; reflexivity|]. split.
    + intros e He. exact (pa_none _ _ _ _ _ _ Hp e eq_refl He).
    + exists (set_running 0 x). split; [apply lookup_insert_eq|done].
  - right. exists q', w1. split_and!; [mstep E; by rewrite (proj2 (Z.eqb_neq n 0))|done|done|apply Hp|apply Hp|].
    destruct (pa_some _ _ _ _ _ _ Hp Hn) as (e & He & Hs).
    destruct (ripe_exists _ w e Hac Hx Hf He Hs) as (m & Hm & Hr). by apply (pa_ripe _ _ _ _ _ _ Hp m).
Qed.

(** At most [n] calls of the task, as the loop makes them until it asks to be
    deleted. *)
Fixpoint ticks (n : nat) : SM Z :=
  match n with
  | 0%nat => mret 0
  | S n => del ← timer_func c; if del =? 0 then ticks n else mret del
  end.

(** What is left to do: of the units, and the states the channels have to go
    through. *)
Definition total w : nat := work w + sum_list_with (λ e, Z.to_nat (status w e.1)) cs.

Lemma sum_below w w' (es : list (Z * Z)) : (∀ b, status w' b ≤ status w b) →
  (sum_list_with (λ e, Z.to_nat (status w' e.1)) es ≤ sum_list_with (λ e, Z.to_nat (status w e.1)) es)%nat.
Proof. intros Hb. induction es as [|e es IH]; cbn; [done|]. specialize (Hb e.1). lia. Qed.

Lemma sum_less w w' (es : list (Z * Z)) e : (∀ b, status w' b ≤ status w b) → e ∈ es → 0 ≤ status w' e.1 < status w e.1 →
  (sum_list_with (λ e, Z.to_nat (status w' e.1)) es < sum_list_with (λ e, Z.to_nat (status w e.1)) es)%nat.
Proof.
  intros Hb He Hs. induction es as [|k es IH]; [by apply not_elem_of_nil in He|]. cbn.
  pose proof (sum_below w w' es Hb). pose proof (Hb k.1). apply elem_of_cons in He as [->|He]; [lia|]. specialize (IH He). lia.
Qed.

Lemma total_less r w w' : context_ok c l cs ps r w' → below w w' → less w w' → (total w' < total w)%nat.
Proof.
  intros Hx [Hb Hw] Hl. unfold total. pose proof (sum_below w w' cs Hb). destruct Hl as [Hl|([a u] & He & Hs)]; [lia|].
  pose proof (context_status _ _ _ _ Hx He). pose proof (sum_less w w' cs (a, u) Hb He ltac:(cbn [fst] in *; lia)). lia.
Qed.

(** C13: a pipeline drains.  In a context whose pipes form no cycle and whose
    units do not block each other (the interface [Draining]: what an able unit
    has left to do decreases with its turn, and some active unit is able), the
    timer task of the context ends by itself: after at most as many calls as
    there is work left and states to go through, every channel has stopped, the
    task asks to be deleted, and the loop has been told to stop. *)
Theorem core_drains qa q w n :
  context_ok c l cs ps (QHere qa q) w → holds q cs.*1 → fit w → acyclic → zlen cs < 2 ^ 32 →
  (total w < n)%nat → ∃ w', ticks n w = Done (1, w') ∧ drained w'.
Proof.
  revert q w. induction n as [|n IH]; intros q w Hx Hq Hf Hac Hlen Hn; [lia|]. cbn [ticks].
  destruct (tick_ok qa q w Hx Hq Hf Hac Hlen) as [(w' & E & Hd)|(q' & w' & E & Hx' & Hq' & Hf' & Hb & Hl)].
  - exists w'. split; [|done]. by mstep E.
  - pose proof (total_less _ _ _ Hx' Hb Hl). destruct (IH q' w' Hx' Hq' Hf' Hac Hlen ltac:(lia)) as (w2 & E2 & Hd).
    exists w2. split; [|done]. by mstep E.
Qed.
End ticks.
End drain.

(** ** An instance

    A source that has some frames left, kept in the rest of the state, and a
    sink that ends when its source is no longer active; a pipe between them. *)
Abbreviation ex_state := (world (pipes (list Z) (units (list Z) (cores (list Z) flat_os nat)))).

Definition ex_plane (f : Z) (r : pitcher_buf_ref) (arg : Z) : M ex_state (Z * pitcher_buf_ref) := mret (0, r).
Definition ex_recycle (f b : Z) : M ex_state bool := mret true.
Definition ex_stop (f arg : Z) : M ex_state Z := mret 0.
Definition frames (w : ex_state) : nat := co_rest (cores_of w).
Definition set_frames (n : nat) (c : cores (list Z) flat_os nat) : cores (list Z) flat_os nat :=
  Cores (co_cores c) (co_chns c) (co_bitmap c) (co_list c) (co_head c) (co_loops c) n.

Definition ex_check (f arg : Z) : M ex_state (Z * Z) := λ w,
  Done (if f =? 1 then (if decide (frames w = 0%nat) then (0, 1) else (1, 0))
        else (if status w 20 =? PITCHER_STATE_ACTIVE then (1, 0) else (0, 1)), w).
Definition ex_run (f arg b : Z) : M ex_state Z := λ w,
  Done (0, if f =? 2 then on_cores (λ c, set_frames (pred (co_rest c)) c) w else w).

Definition ex_source (enable : bool) : pitcher_unit (list Z) :=
  Unit (UnitDesc 0 0 0 0 0 1 2 0 (-1) 0) 0 0 (30 :: replicate 15 0) None 0 enable.
Definition ex_sink (enable : bool) : pitcher_unit (list Z) :=
  Unit (UnitDesc 0 0 0 0 0 3 4 0 (-1) 0) 0 30 (replicate 16 0) None 0 enable.
Definition ex_pipe : pitcher_pipe (list Z) := Pipe 20 21 (Some (40, [])) 0 0 0 0.

Definition ex_fit (w : ex_state) : Prop :=
  ∃ e1 e2, e_units (e_rest (w_env w)) = {[10 := ex_source e1; 11 := ex_sink e2]} ∧
    e_pipes (w_env w) = {[30 := ex_pipe]} ∧ (status w 20 = PITCHER_STATE_ACTIVE → e1 = true).
Definition ex_able (u : Z) (w : ex_state) : Prop := u = 11 → status w 20 ≠ PITCHER_STATE_ACTIVE.

Definition ex_cs : list (Z * Z) := [(20, 10); (21, 11)].
Definition ex_ps : list (Z * (Z * Z)) := [(30, (20, 21))].

Definition ex_world : ex_state :=
  World (Mem ∅ 0 0) ∅ (Pipes {[30 := ex_pipe]} (Units {[10 := ex_source true; 11 := ex_sink true]}
    (Cores {[1 := CoreT (QHere 41 [30]) (QHere 42 [20; 21]) 2 2 2]}
       {[20 := Chn 0 0 10 2 1 0 0; 21 := Chn 1 0 11 2 1 0 0]} []
       (Heap {[60 := 20; 20 := 21; 21 := 60]} {[60 := 21; 20 := 60; 21 := 20]}) 60
       (Loops {[2 := LoopT 6 1 QNull QNull 1 0 0 0]} ∅ {[1 := TimerTask 1 0 1 (-1)]} ∅ (FlatOs 0 7 ∅)) 3%nat))).

#[local] Existing Instance list_queue_ops.
#[local] Existing Instance list_queue_spec.

Lemma calm_refl (w : ex_state) : calm w w.
Proof. split; eauto 10. Qed.
Lemma load_unit_ok {Q E} u (w : world (pipes Q (units Q E))) x : u ≠ 0 → get_unit w u = Some x → load_unit u w = Done (x, w).
Proof. intros Hu Hx. unfold load_unit. rewrite (proj2 (Z.eqb_neq u 0)), Hx by done. done. Qed.

Lemma ex_check_ok u f (w : ex_state) x : u ≠ 0 → get_unit w u = Some x → ud_check_ready (u_desc x) = f → f ≠ 0 →
  unit_check_ready ex_check u w = ex_check f (u_arg x) w.
Proof.
  intros Hu Hx <- Hf. unfold unit_check_ready, pitcher_unit_check_ready. mstep (load_unit_ok u w x Hu Hx).
  by rewrite (proj2 (Z.eqb_neq _ 0) Hf).
Qed.

Lemma ex_fit_frames w n : ex_fit w → ex_fit (on_cores (set_frames n) w).
Proof. intros (e1 & e2 & HU & HP & Hs). by exists e1, e2. Qed.

Lemma frames_calm n (w : ex_state) : calm w (on_cores (set_frames n) w).
Proof. split; cbn; eauto 10. Qed.

(** The source gives out a frame; it has nothing to take from a pipe. *)
Lemma ex_turn_source w : ex_fit w → status w 20 = PITCHER_STATE_ACTIVE →
  ∃ e, turn ex_plane ex_recycle ex_check ex_run 10 w = Done (e, on_cores (set_frames (pred (frames w))) w) ∧
    (e ≠ 0 ∨ (pred (frames w) < frames w)%nat) ∧ (frames w = 0%nat → e ≠ 0).
Proof.
  intros (e1 & e2 & HU & HP & Hs) Ha. assert (e1 = true) as -> by auto.
  assert (Hu : get_unit w 10 = Some (ex_source true)) by (unfold get_unit; by rewrite HU).
  unfold turn. destruct (decide (frames w = 0%nat)) as [E|E].
  - exists 1. split; [|by split; [left|]].
    erewrite M_bind_done.
    2:{ rewrite (ex_check_ok 10 1 w _ ltac:(done) Hu eq_refl ltac:(done)). unfold ex_check. cbn [Z.eqb Pos.eqb].
        rewrite decide_True by done. reflexivity. }
    rewrite E. transitivity (Done (1, w)); [reflexivity|]. f_equal. f_equal. symmetry. apply on_cores_id.
    unfold frames in E. cbn [pred]. rewrite <- E. by destruct (cores_of w).
  - exists 0. split; [|split; [right; lia|done]].
    erewrite M_bind_done.
    2:{ rewrite (ex_check_ok 10 1 w _ ltac:(done) Hu eq_refl ltac:(done)). unfold ex_check. cbn [Z.eqb Pos.eqb].
        rewrite decide_False by done. reflexivity. }
    cbv beta iota. erewrite M_bind_done; [reflexivity|]. cbn [negb Z.eqb]. unfold unit_run, pitcher_unit_run.
    mstep (load_unit_ok 10 w _ ltac:(done) Hu). reflexivity.
Qed.

(** The pipe is empty. *)
Lemma ex_pop (w : ex_state) : e_pipes (w_env w) = {[30 := ex_pipe]} → pitcher_pipe_pop 30 w = Done (0, w).
Proof. destruct w as [m b [P U]]. cbn. by intros ->. Qed.

Lemma ex_clear (w : ex_state) : e_pipes (w_env w) = {[30 := ex_pipe]} →
  pitcher_pipe_clear ex_plane ex_recycle 30 w = Done (RET_OK, w).
Proof. destruct w as [m b [P U]]. cbn. by intros ->. Qed.

Lemma ex_turn_sink w : ex_fit w →
  ∃ e, turn ex_plane ex_recycle ex_check ex_run 11 w = Done (e, w) ∧ (status w 20 ≠ PITCHER_STATE_ACTIVE → e ≠ 0).
Proof.
  intros (e1 & e2 & HU & HP & Hs).
  assert (Hu : get_unit w 11 = Some (ex_sink e2)) by (unfold get_unit; by rewrite HU).
  unfold turn. destruct (Z.eqb_spec (status w 20) PITCHER_STATE_ACTIVE) as [E|E].
  - exists 0. split; [|done]. erewrite M_bind_done.
    2:{ rewrite (ex_check_ok 11 3 w _ ltac:(done) Hu eq_refl ltac:(done)). unfold ex_check. cbn [Z.eqb Pos.eqb].
        rewrite E, Z.eqb_refl. reflexivity. }
    cbv beta iota. cbn [negb Z.eqb]. destruct e2; (erewrite M_bind_done; [reflexivity|]); unfold unit_run, pitcher_unit_run;
    mstep (load_unit_ok 11 w _ ltac:(done) Hu); [|reflexivity].
    erewrite M_bind_done by reflexivity. cbn [u_in u_enable ex_sink negb Z.eqb]. mstep (ex_pop w HP). reflexivity.
  - exists 1. split; [|done]. erewrite M_bind_done.
    2:{ rewrite (ex_check_ok 11 3 w _ ltac:(done) Hu eq_refl ltac:(done)). unfold ex_check. cbn [Z.eqb Pos.eqb].
        rewrite (proj2 (Z.eqb_neq _ _) E). reflexivity. }
    reflexivity.
Qed.

(** Stopping a unit disables it and empties its pipe. *)
Lemma ex_stop_source w : ex_fit w → status w 20 = PITCHER_STATE_STOPPING →
  ∃ w', unit_stop ex_plane ex_recycle ex_stop 10 w = Done (0, w') ∧ ex_fit w' ∧ calm w w' ∧ frames w' = frames w ∧
    cores_of w' = cores_of w ∧ w_mem w' = w_mem w.
Proof.
  intros (e1 & e2 & HU & HP & Hs) Hst.
  assert (Hu : get_unit w 10 = Some (ex_source e1)) by (unfold get_unit; by rewrite HU).
  exists (set_units (insert 10 (ex_source false)) w). split; [|split; [|split; [split; cbn; eauto 10|done]]].
  - unfold unit_stop, pitcher_unit_stop. mstep (load_unit_ok 10 w _ ltac:(done) Hu).
    erewrite M_bind_done by reflexivity. change (RET_OK <? 0) with false. cbv iota.
    mstep (load_unit_ok 10 w _ ltac:(done) Hu). erewrite M_bind_done by reflexivity.
    unfold __free_buffer, __clear_input_buffer.
    set (w1 := set_units _ w). assert (Hu1 : get_unit w1 10 = Some (ex_source false)) by apply lookup_insert_eq.
    erewrite M_bind_done; [|mstep (load_unit_ok 10 w1 _ ltac:(done) Hu1); reflexivity].
    erewrite M_bind_done; [|mstep (load_unit_ok 10 w1 _ ltac:(done) Hu1); reflexivity]. reflexivity.
  - exists false, e2. split_and!; [|done|].
    + change (e_units _) with (<[10 := ex_source false]> (e_units (e_rest (w_env w)))). by rewrite HU, insert_insert_eq.
    + intros E. change (status w 20 = PITCHER_STATE_ACTIVE) in E. by rewrite Hst in E.
Qed.

Lemma ex_stop_sink w : ex_fit w →
  ∃ w', unit_stop ex_plane ex_recycle ex_stop 11 w = Done (0, w') ∧ ex_fit w' ∧ calm w w' ∧ frames w' = frames w ∧
    cores_of w' = cores_of w ∧ w_mem w' = w_mem w.
Proof.
  intros (e1 & e2 & HU & HP & Hs).
  assert (Hu : get_unit w 11 = Some (ex_sink e2)) by (unfold get_unit; by rewrite HU).
  exists (set_units (insert 11 (ex_sink false)) w). split; [|split; [|split; [split; cbn; eauto 10|done]]].
  - unfold unit_stop, pitcher_unit_stop. mstep (load_unit_ok 11 w _ ltac:(done) Hu).
    erewrite M_bind_done by reflexivity. change (RET_OK <? 0) with false. cbv iota.
    mstep (load_unit_ok 11 w _ ltac:(done) Hu). erewrite M_bind_done by reflexivity.
    unfold __free_buffer, __clear_input_buffer.
    set (w1 := set_units _ w). assert (Hu1 : get_unit w1 11 = Some (ex_sink false)) by apply lookup_insert_eq.
    erewrite M_bind_done; [|mstep (load_unit_ok 11 w1 _ ltac:(done) Hu1); reflexivity].
    erewrite M_bind_done; [|mstep (load_unit_ok 11 w1 _ ltac:(done) Hu1); exact (ex_clear w1 HP)]. reflexivity.
  - exists e1, false. split_and!; [|done|done].
    change (e_units _) with (<[11 := ex_sink false]> (e_units (e_rest (w_env w)))).
    rewrite HU. rewrite (insert_insert_ne _ 11 10) by done. by rewrite insert_singleton_eq.
Qed.

Lemma ex_draining : Draining ex_plane ex_recycle ex_stop ex_check ex_run ex_cs ex_fit frames ex_able.
Proof.
  split.
  - intros a u w [[= -> ->]|[[= -> ->]|[]%elem_of_nil]%elem_of_cons]%elem_of_cons Hf Hs.
    + destruct (ex_turn_source w Hf Hs) as (e & E & Hp & Hz). exists e. eexists. split; [exact E|].
      split; [by apply ex_fit_frames|]. split; [apply frames_calm|]. split; [unfold frames at 1; cbn; lia|].
      split; [intros _; exact Hp|]. intros v _ Hv _ ->. by apply Hv.
    + destruct (ex_turn_sink w Hf) as (e & E & Hp). exists e, w. split; [exact E|].
      split_and!; [done|apply calm_refl|done|by intros Ha; left; apply Hp, Ha|done].
  - intros a u w [[= -> ->]|[[= -> ->]|[]%elem_of_nil]%elem_of_cons]%elem_of_cons Hf Hs.
    + destruct (ex_stop_source w Hf Hs) as (w' & E & Hf' & Hc & Hfr & _). exists 0, w'. rewrite Hfr. by split_and!.
    + destruct (ex_stop_sink w Hf) as (w' & E & Hf' & Hc & Hfr & _). exists 0, w'. rewrite Hfr. by split_and!.
  - intros w a u _ Ha Hs. destruct (decide (status w 20 = PITCHER_STATE_ACTIVE)) as [E|E].
    + exists 20, 10. split_and!; [by left|done|by intros [=]].
    + apply elem_of_cons in Ha as [[= -> ->]|Ha]; [done|]. apply list_elem_of_singleton in Ha as [= -> ->].
      exists 21, 11. split_and!; [right; by left|done|by intros _].
  - intros f w Hr Hst (e1 & e2 & HU & HP & Hs). exists e1, e2. split_and!; [done|done|].
    intros E. destruct (Hst 20) as [E'|E']; [by apply Hs; rewrite <- E'|]. rewrite E in E'. done.
  - intros f w Hr. exact (proj1 (Hr _)).
  - by intros f u w Ha.
Qed.

Lemma ex_registered : registered ex_world [20; 21].
Proof.
  split.
  - split; [by apply (bool_decide_unpack _)|]. cbn. repeat split.
  - intros a [->|[->|[]%elem_of_nil]%elem_of_cons]%elem_of_cons; by eexists.
  - intros a b x y [->|[->|[]%elem_of_nil]%elem_of_cons]%elem_of_cons
      [->|[->|[]%elem_of_nil]%elem_of_cons]%elem_of_cons [= <-] [= <-]; done.
Qed.

Lemma ex_context : context_ok 1 2 ex_cs ex_ps (QHere 42 [20; 21]) ex_world.
Proof.
  split.
  - done.
  - exists (CoreT (QHere 41 [30]) (QHere 42 [20; 21]) 2 2 2), 41, [30]. by split_and!.
  - intros a u [[= -> ->]|[[= -> ->]|[]%elem_of_nil]%elem_of_cons]%elem_of_cons; (split; [done|]).
    + by exists (Chn 0 0 10 2 1 0 0).
    + by exists (Chn 1 0 11 2 1 0 0).
  - split; by apply (bool_decide_unpack _).
  - intros p s d [[= -> -> ->]|[]%elem_of_nil]%elem_of_cons. split_and!; [done|right; by left|]. by exists ex_pipe.
  - exists [20; 21]. split; [apply ex_registered|]. by intros a.
  - by exists (LoopT 6 1 QNull QNull 1 0 0 0).
Qed.

Lemma ex_acyclic : acyclic ex_ps.
Proof. exists (λ a, Z.to_nat a). intros p s d [[= -> -> ->]|[]%elem_of_nil]%elem_of_cons. cbn. lia. Qed.

Lemma core_drains_witness :
  ∃ w', ticks ex_plane ex_recycle ex_stop ex_check ex_run 1 8 ex_world = Done (1, w') ∧ drained 2 ex_cs w'.
Proof.
  apply (core_drains ex_plane ex_recycle ex_stop ex_check ex_run 1 2 ex_cs ex_ps ex_fit frames ex_able
    ex_draining 42 [20; 21] ex_world 8 ex_context eq_refl).
  - by exists true, true.
  - exact ex_acyclic.
  - done.
  - by vm_compute; lia.
Defined.

(** ** What the code does not do *)

(** A pipe's ends are channels; [__disconnect] hands them to functions of
    units.  No unit has the address of a channel, so that the connection of two
    channels cannot be undone, and a context with one cannot be released. *)
Lemma disconnect_takes_channels {Q O F} `{!QueueOps Q} call_plane call_recycle p x
    (w : world (pipes Q (units Q (cores Q O F)))) :
  p ≠ 0 → get_pipe w p = Some x → pp_dst x ≠ 0 → get_unit w (pp_dst x) = None →
  __disconnect call_plane call_recycle None p w = UB.
Proof.
  intros Hp Hx Hd Hu. unfold __disconnect. rewrite (proj2 (Z.eqb_neq p 0) Hp).
  unfold pitcher_get_pipe_src, pitcher_get_pipe_dst.
  do 2 erewrite M_bind_done by (mstep (load_pipe_ok p w x Hp Hx); reflexivity). cbv beta iota.
  rewrite M_bind_eq. unfold pitcher_set_unit_input. rewrite M_bind_eq. unfold load_unit.
  by rewrite (proj2 (Z.eqb_neq _ 0) Hd), Hu.
Qed.

(** A channel that cannot be made keeps the number it was given: here without a
    description, when there is memory and a number. *)
Lemma refused_channel_takes_number {Q O F} `{QueueSpec Q} `{!LoopOs O} alloc call_init c k a q arg
    (w : world (pipes Q (units Q (cores Q O F)))) n b :
  (∀ n X p, alloc n X = Some p → p ∉ X ∧ p ≠ 0) →
  c ≠ 0 → co_cores (cores_of w) !! c = Some k → cr_chns k = QHere a q →
  __get_chnno (co_bitmap (cores_of w)) 0 = (n, b) → 0 ≤ n →
  ∃ ret w', pitcher_register_chn alloc call_init c None arg w = Done (ret, w') ∧ ret < 0 ∧
    co_bitmap (cores_of w') = b ∧ m_live (w_mem w') = m_live (w_mem w).
Proof.
  intros Hal Hc Hk Hq Hn Hpos. unfold pitcher_register_chn. mstep (load_core_ok c w k Hc Hk).
  unfold get_chnno. erewrite M_bind_done.
  2:{ erewrite M_bind_done by reflexivity. rewrite Hn. erewrite M_bind_done by reflexivity. reflexivity. }
  rewrite (proj2 (Z.ltb_ge n 0) Hpos), Hq. cbn [is_null]. set (w1 := on_cores _ w).
  destruct (calloc_ok alloc Hal w1) as (r & w2 & E & _ & He & Hr). mstep E.
  assert (Hb : co_bitmap (cores_of w2) = b) by (unfold cores_of; by rewrite He).
  destruct r as [p|]; [|by exists (- RET_E_NO_MEMORY), w2].
  destruct Hr as (Hl & Hf & Hp0). erewrite M_bind_done by reflexivity. rewrite Z.eqb_refl.
  destruct (free_ok w2 p) as (w3 & E3 & _ & He3 & Hl3); [set_solver|].
  exists (- RET_E_INVAL), w3. split; [by mstep E3|]. split; [done|]. split.
  - rewrite <- Hb. unfold cores_of. by rewrite He3.
  - rewrite Hl3, Hl. set_solver.
Qed.
