(* ===== verification/Channels.v ===== *)
(** * The life of channels

    Theorems about core.c and unit.c: making and deleting a unit, registering
    and unregistering a channel.  [registry] is what holds between calls: the
    list of all channels, their numbers, and a context's queue of channels. *)

From S2P Require Import Prelude Dlist Queue Buffer Pipe Unit Loop Core Drain.

Section units.
Context {Q O F : Type} `{QueueSpec Q} `{!LoopOs O}.
Abbreviation state := (world (pipes Q (units Q (cores Q O F)))).
Abbreviation SM := (M (world (pipes Q (units Q (cores Q O F))))).
Abbreviation live w := (m_live (w_mem w)).
Implicit Types (w : world (pipes Q (units Q (cores Q O F)))) (a c p u n : Z).
Context (alloc : nat → gset Z → option Z).
Context (alloc_fresh : ∀ (k : nat) X p, alloc k X = Some p → p ∉ X ∧ p ≠ 0).
Context (call_plane : Z → pitcher_buf_ref → Z → M (world (pipes Q (units Q (cores Q O F)))) (Z * pitcher_buf_ref)).
Context (call_recycle : Z → Z → M (world (pipes Q (units Q (cores Q O F)))) bool).
Context (call_init call_cleanup : Z → Z → M (world (pipes Q (units Q (cores Q O F)))) Z).

Definition units_of w : gmap Z (pitcher_unit Q) := e_units (e_rest (w_env w)).

(** The contexts, channels, units and memory are the same; what the rest of the
    program has may differ. *)
Record untouched w w' : Prop := {
  un_live : live w' = live w;
  un_units : units_of w' = units_of w;
  un_cores : ∃ y, cores_of w' = Cores (co_cores (cores_of w)) (co_chns (cores_of w)) (co_bitmap (cores_of w))
    (co_list (cores_of w)) (co_head (cores_of w)) (co_loops (cores_of w)) y
}.

(** The units' [init] and [cleanup] return and leave all that alone. *)
Context (init_quiet : ∀ f arg w, ∃ ret w', call_init f arg w = Done (ret, w') ∧ untouched w w').
Context (cleanup_quiet : ∀ f arg w, ∃ ret w', call_cleanup f arg w = Done (ret, w') ∧ untouched w w').

(** The contexts are the same up to the rest of the program. *)
Definition same_cores w w' : Prop := ∃ y, cores_of w' =
  Cores (co_cores (cores_of w)) (co_chns (cores_of w)) (co_bitmap (cores_of w))
    (co_list (cores_of w)) (co_head (cores_of w)) (co_loops (cores_of w)) y.

Lemma same_cores_eq w w' : cores_of w' = cores_of w → same_cores w w'.
Proof. intros E. exists (co_rest (cores_of w)). rewrite E. by destruct (cores_of w). Qed.

Lemma same_cores_trans w1 w2 w3 : same_cores w1 w2 → same_cores w2 w3 → same_cores w1 w3.
Proof. intros [y Hy] [z Hz]. exists z. rewrite Hz, Hy. done. Qed.

(** ** Units *)

(** A unit that has just been made: its queue of idle buffers is empty. *)
Definition new_unit w u (d : pitcher_unit_desc) (arg a : Z) : Prop :=
  ∃ q, units_of w !! u = Some (Unit d arg 0 (replicate (Z.to_nat MAX_UNIT_OUTPUT_COUNT) 0) (Some (a, q)) 0 false) ∧ holds q [].

Lemma store_unit_ok u x w :
  store_unit u x w = Done (tt, set_units (insert u x) w) ∧ units_of (set_units (insert u x) w) = <[u := x]> (units_of w) ∧
  live (set_units (insert u x) w) = live w ∧ cores_of (set_units (insert u x) w) = cores_of w.
Proof. done. Qed.

Lemma free_unit_ok u w : u ∈ live w → ∃ w', free_unit u w = Done (tt, w') ∧ live w' = live w ∖ {[u]} ∧
  units_of w' = delete u (units_of w) ∧ cores_of w' = cores_of w.
Proof.
  intros Hu. unfold free_unit. erewrite M_bind_done by reflexivity.
  destruct (free_ok (set_units (delete u) w) u Hu) as (w' & E & _ & He & Hl). exists w'.
  split; [exact E|]. unfold units_of, cores_of. rewrite He. by split_and!.
Qed.

Lemma release_idles_ok u x a q l w : u ≠ 0 → units_of w !! u = Some x → u_idles x = Some (a, q) → holds q l → a ∈ live w →
  ∃ w', release_idles u w = Done (tt, w') ∧ live w' = live w ∖ {[a]} ∧
    units_of w' = <[u := set_u_idles None x]> (units_of w) ∧ cores_of w' = cores_of w.
Proof.
  intros Hu Hx Hi Hq Ha. unfold release_idles. mstep (load_unit_ok u w x Hu Hx). rewrite Hi.
  erewrite M_bind_done by reflexivity. unfold delete_queue. cbn [fst snd].
  set (w1 := set_units _ w). destruct (free_ok w1 a Ha) as (w' & E & _ & He & Hl).
  exists w'. split; [|unfold units_of, cores_of; rewrite He; by split_and!].
  erewrite M_bind_done by (unfold lift; rewrite (holds_destroy q l Hq); reflexivity). exact E.
Qed.

(** The end of a unit whose queue of idle buffers is empty. *)
Lemma release_free_ok u x a q l w : u ≠ 0 → u ≠ a → units_of w !! u = Some x → u_idles x = Some (a, q) →
  holds q l → a ∈ live w → u ∈ live w →
  ∃ w1 w', release_idles u w = Done (tt, w1) ∧ free_unit u w1 = Done (tt, w') ∧ live w' = live w ∖ {[u; a]} ∧
    units_of w' = delete u (units_of w) ∧ cores_of w' = cores_of w.
Proof.
  intros Hu Hne Hx Hi Hq Ha Hl. destruct (release_idles_ok u x a q l w Hu Hx Hi Hq Ha) as (w1 & E1 & Hl1 & Hu1 & Hc1).
  destruct (free_unit_ok u w1) as (w2 & E2 & Hl2 & Hu2 & Hc2); [rewrite Hl1; set_solver|].
  exists w1, w2. split; [done|]. split; [done|]. split_and!; [rewrite Hl2, Hl1; set_solver| |congruence].
  rewrite Hu2, Hu1. apply delete_insert_eq.
Qed.

Lemma new_queue_ok w :
  ∃ r w', new_queue alloc w = Done (r, w') ∧ w_env w' = w_env w ∧
    match r with
    | Some (a, q) => live w' = {[a]} ∪ live w ∧ a ∉ live w ∧ a ≠ 0 ∧ holds q []
    | None => live w' = live w
    end.
Proof.
  destruct (calloc_ok alloc alloc_fresh w) as (r & w1 & E1 & _ & He & H1). destruct holds_init as [Hi0 (q & Hi1 & Hq)].
  unfold new_queue. destruct r as [a|].
  - exists (Some (a, q)), w1. split; [|split; [done|]; by destruct H1 as (? & ? & ?)].
    mstep E1. rewrite bool_decide_true by done. by erewrite M_bind_done by (unfold lift; rewrite Hi1; reflexivity).
  - exists None, w1. split; [|done]. mstep E1. rewrite bool_decide_false by (by intros []).
    by erewrite M_bind_done by (unfold lift; rewrite Hi0; reflexivity).
Qed.

(** A unit [u] has been made, or [u] is 0 and there is nothing new. *)
Definition made w w' d arg u : Prop :=
  u = 0 ∧ live w' = live w ∨
  u ≠ 0 ∧ u ∉ live w ∧ ∃ a, a ∉ live w ∧ u ≠ a ∧ live w' = {[u; a]} ∪ live w ∧ new_unit w' u d arg a.

Lemma init_unit_ok d arg w w1 u a : u ≠ 0 → u ≠ a → u ∉ live w → a ∉ live w → live w1 = {[u; a]} ∪ live w →
  same_cores w w1 → new_unit w1 u d arg a →
  ∃ r w', (ret ← (if negb (ud_init d =? 0) then call_init (ud_init d) arg else mret 0);
    if ret <? 0 then _ ← release_idles u; _ ← free_unit u; mret 0 else mret u) w1 = Done (r, w') ∧
    same_cores w w' ∧ made w w' d arg r.
Proof.
  intros Hu Hua Hfu Hfa Hl1 Hc1 (q & Hx & Hq).
  assert (Hret : ∃ ret w2, (if negb (ud_init d =? 0) then call_init (ud_init d) arg else mret 0) w1 = Done (ret, w2) ∧
    untouched w1 w2).
  { destruct (negb _); [apply init_quiet|]. exists 0, w1. split; [done|]. split; try done. by apply same_cores_eq. }
  destruct Hret as (ret & w2 & E2 & [Hl2 Hu2 Hc2]). mstep E2.
  assert (Hsame : same_cores w w2) by by apply same_cores_trans with w1. rewrite <- Hu2 in Hx. destruct (ret <? 0).
  - destruct (release_free_ok u _ a q [] w2 Hu Hua Hx eq_refl Hq) as (w2' & w3 & E3 & E3' & Hl3 & _ & Hc3);
      [rewrite Hl2, Hl1; set_solver..|].
    exists 0, w3. split; [mstep E3; by mstep E3'|]. split; [by apply same_cores_trans with w2; [|apply same_cores_eq]|].
    left. split; [done|]. rewrite Hl3, Hl2, Hl1. clear - Hfu Hfa. set_solver.
  - exists u, w2. split; [done|]. split; [done|]. right. split; [done|]. split; [done|]. exists a.
    split_and!; [done|done|by rewrite Hl2|]. by exists q.
Qed.

Lemma new_unit_ok d arg w : ud_check_ready d ≠ 0 → ud_runfunc d ≠ 0 →
  ∃ u w', pitcher_new_unit alloc call_init (Some d) arg w = Done (u, w') ∧ same_cores w w' ∧ made w w' d arg u.
Proof.
  intros Hd1 Hd2. unfold pitcher_new_unit. rewrite !(proj2 (Z.eqb_neq _ 0)) by done. cbn [orb].
  destruct (calloc_ok alloc alloc_fresh w) as (r & w1 & E1 & _ & He1 & H1). mstep E1.
  assert (Hc1 : cores_of w1 = cores_of w) by (unfold cores_of; by rewrite He1).
  destruct r as [u|]; [|exists 0, w1; split_and!; [done|by apply same_cores_eq|by left]].
  destruct H1 as (Hl1 & Hfu & Hu). set (x0 := Unit _ _ _ _ _ _ _).
  destruct (store_unit_ok u x0 w1) as (E2 & Hu2 & Hl2 & Hc2). mstep E2. set (w2 := set_units _ w1) in *.
  destruct (new_queue_ok w2) as (r & w3 & E3 & He3 & H3). mstep E3.
  assert (Hu3 : units_of w3 !! u = Some x0) by (unfold units_of; rewrite He3; apply lookup_insert_eq).
  assert (Hc3 : cores_of w3 = cores_of w) by (unfold cores_of; rewrite He3; done).
  mstep (load_unit_ok u w3 x0 Hu Hu3). destruct (store_unit_ok u (set_u_idles r x0) w3) as (E4 & Hu4 & Hl4 & Hc4).
  mstep E4. set (w4 := set_units _ w3) in *.
  assert (Hx4 : units_of w4 !! u = Some (set_u_idles r x0)) by (rewrite Hu4; apply lookup_insert_eq).
  destruct r as [[a q]|].
  - destruct H3 as (Hl3 & Hfa & Ha & Hq). rewrite Hl2, Hl1 in Hfa. apply not_elem_of_union in Hfa as [Hua Hfa].
    apply init_unit_ok with a; [done|set_solver|done|done| |apply same_cores_eq; congruence|by exists q].
    rewrite Hl4, Hl3, Hl2, Hl1. clear. set_solver.
  - assert (Hrel : release_idles u w4 = Done (tt, w4)) by (unfold release_idles; by mstep (load_unit_ok u w4 _ Hu Hx4)).
    assert (Hl : live w4 = {[u]} ∪ live w) by (rewrite Hl4, H3, Hl2, Hl1; done).
    destruct (free_unit_ok u w4) as (w5 & E5 & Hl5 & _ & Hc5); [rewrite Hl; set_solver|].
    exists 0, w5. split; [mstep Hrel; by mstep E5|]. split; [apply same_cores_eq; congruence|].
    left. split; [done|]. rewrite Hl5, Hl. clear - Hfu. set_solver.
Qed.

Lemma clear_idles_ok u x a q w : u ≠ 0 → units_of w !! u = Some x → u_idles x = Some (a, q) → holds q [] →
  ∃ q' w', clear_idles (__clear_buffer call_plane call_recycle) u w = Done (tt, w') ∧ holds q' [] ∧ live w' = live w ∧
    units_of w' = <[u := set_u_idles (Some (a, q')) x]> (units_of w) ∧ cores_of w' = cores_of w.
Proof.
  intros Hu Hx Hi Hq. unfold clear_idles. mstep (load_unit_ok u w x Hu Hx). rewrite Hi.
  erewrite M_bind_done by reflexivity. set (w1 := set_units _ w).
  pose proof (holds_clear (__clear_buffer call_plane call_recycle) q [] w1 Hq) as He. cbn [enum_list] in He.
  destruct (queue_clear _ q w1) as [[q' w']| | |] eqn:E; try done. destruct He as [Hq' ->].
  exists q'. eexists. split.
  - mstep E. mstep (load_unit_ok u w1 (set_u_idles None x) Hu (lookup_insert_eq _ _ _)). reflexivity.
  - split_and!; [done|done| |done]. unfold w1, units_of, set_units. cbn. by rewrite insert_insert_eq.
Qed.

(** Deleting a unit with no buffers. *)
Lemma del_unit_ok u d arg a w : u ≠ 0 → u ≠ a → new_unit w u d arg a → u ∈ live w → a ∈ live w →
  ∃ w', pitcher_del_unit call_plane call_recycle call_cleanup u w = Done (tt, w') ∧ same_cores w w' ∧
    live w' = live w ∖ {[u; a]} ∧ units_of w' = delete u (units_of w).
Proof.
  intros Hu Hua (q & Hx & Hq) Hlu Hla. unfold pitcher_del_unit. rewrite (proj2 (Z.eqb_neq u 0) Hu).
  mstep (load_unit_ok u w _ Hu Hx). cbn [u_desc u_arg].
  assert (Hret : ∃ ret w1, (if negb (ud_cleanup d =? 0) then call_cleanup (ud_cleanup d) arg else mret 0) w = Done (ret, w1) ∧
    untouched w w1).
  { destruct (negb _); [apply cleanup_quiet|]. exists 0, w. split; [done|]. split; try done. by apply same_cores_eq. }
  destruct Hret as (ret & w1 & E1 & [Hl1 Hu1 Hc1]). mstep E1. rewrite <- Hu1 in Hx. set (x := Unit _ _ _ _ _ _ _) in *.
  destruct (clear_idles_ok u x a q w1 Hu Hx eq_refl Hq) as (q' & w2 & E2 & Hq' & Hl2 & Hu2 & Hc2). mstep E2.
  assert (Hx2 : units_of w2 !! u = Some (set_u_idles (Some (a, q')) x)) by (rewrite Hu2; apply lookup_insert_eq).
  destruct (release_free_ok u _ a q' [] w2 Hu Hua Hx2 eq_refl Hq') as (w3 & w4 & E3 & E4 & Hl4 & Hu4 & Hc4);
    [rewrite Hl2, Hl1; done..|].
  exists w4. split; [by mstep E3|]. split_and!.
  - apply same_cores_trans with w1; [done|]. apply same_cores_eq. congruence.
  - by rewrite Hl4, Hl2, Hl1.
  - rewrite Hu4, Hu2, Hu1. apply delete_insert_eq.
Qed.

(** ** The registry *)

(** The list of all channels [mem] and their numbers; the list's head is a
    static object, which no allocation returns. *)
Record registry w (mem : list Z) : Prop := {
  ry_list : registered w mem;
  ry_dom p : is_Some (co_chns (cores_of w) !! p) → p ∈ mem;
  ry_live p : p ∈ co_head (cores_of w) :: mem → p ∈ live w;
  ry_nonnull p : p ∈ mem → p ≠ 0;
  ry_bitmap : bitmap_ok (co_bitmap (cores_of w));
  ry_used p x : co_chns (cores_of w) !! p = Some x → used (co_bitmap (cores_of w)) (ch_chnno x)
}.

(** The channels of the context [c]. *)
Definition owns w c (cs : list Z) : Prop :=
  c ≠ 0 ∧ ∃ k a q, co_cores (cores_of w) !! c = Some k ∧ cr_chns k = QHere a q ∧ holds q cs.

Lemma registered_same w w' mem : co_chns (cores_of w') = co_chns (cores_of w) → co_list (cores_of w') = co_list (cores_of w) →
  co_head (cores_of w') = co_head (cores_of w) → registered w mem → registered w' mem.
Proof. intros E1 E2 E3 [R1 R2 R3]. split; rewrite ?E1, ?E2, ?E3; done. Qed.

Lemma owns_same w w' c cs : co_cores (cores_of w') = co_cores (cores_of w) → owns w c cs → owns w' c cs.
Proof. unfold owns. by intros ->. Qed.

(** The list node of a structure that has just been allocated. *)
Definition zero_node p (h : heap) : heap := Heap (<[p := 0]> (h_next h)) (<[p := 0]> (h_prev h)).

(** A channel is stored and put at the end of the list. *)
Lemma add_channel_ok w mem p x : registered w mem → p ∉ co_head (cores_of w) :: mem →
  (∀ q y, q ∈ mem → co_chns (cores_of w) !! q = Some y → ch_chnno y ≠ ch_chnno x) →
  ∃ w', on_list (list_add_tail p (co_head (cores_of w))) (on_cores (λ y, set_list (zero_node p (co_list y)) y)
      (on_cores (set_chns (insert p x)) w)) = Done (tt, w') ∧
    (∃ h, w' = on_cores (set_list h) (on_cores (set_chns (insert p x)) w)) ∧ registered w' (mem ++ [p]).
Proof.
  intros [Hr Hc Hn] Hp Hfresh. set (w1 := on_cores _ (on_cores _ w)).
  assert (Hr1 : ring (co_list (cores_of w1)) (co_head (cores_of w)) mem).
  { apply (ring_only [p] (co_list (cores_of w))); [done| |intros z Hz ->%list_elem_of_singleton; done].
    intros z Hz. assert (z ≠ p) by (intros ->; apply Hz; by left). cbn. by rewrite !lookup_insert_ne by done. }
  destruct (list_add_tail_ok _ _ mem p Hr1 Hp) as (h' & E & Hr' & _); [split; cbn; rewrite lookup_insert_eq; eauto|].
  unfold on_list. rewrite E. cbn [obind]. eexists. split; [reflexivity|]. split; [by exists h'|]. split.
  - exact Hr'.
  - intros q. cbn. destruct (decide (q = p)) as [->|Hne]; [rewrite lookup_insert_eq; eauto|].
    rewrite lookup_insert_ne by done. intros [Hq|[->|[]%elem_of_nil]%elem_of_cons]%elem_of_app; [by apply Hc|done].
  - intros q1 q2 y1 y2. cbn. rewrite !elem_of_app, !list_elem_of_singleton.
    destruct (decide (q1 = p)) as [->|Hn1], (decide (q2 = p)) as [->|Hn2]; try done;
      rewrite ?lookup_insert_eq, ?(lookup_insert_ne _ p) by done.
    + intros _ [Hq2|?] [= <-] Hy2 E12; [|done]. by destruct (Hfresh q2 y2).
    + intros [Hq1|?] _ Hy1 [= <-] E12; [|done]. by destruct (Hfresh q1 y1).
    + intros [Hq1|?] [Hq2|?] Hy1 Hy2 E12; [|done..]. by apply (Hn q1 q2 y1 y2).
Qed.

(** A queue takes an item, or refuses it. *)
Lemma push_channel_ok w c cs p : owns w c cs →
  ∃ ret g, push_queue (get_cchns c) (put_cchns c) p w = Done (ret, on_cores (set_core_map g) w) ∧
    (owns (on_cores (set_core_map g) w) c (cs ++ [p]) ∨ owns (on_cores (set_core_map g) w) c cs).
Proof.
  intros (Hc & k & a & q & Hk & Hq & Hh). unfold push_queue, get_cchns, put_cchns.
  erewrite M_bind_done by (mstep (load_core_ok c w k Hc Hk); reflexivity). rewrite Hq.
  destruct (holds_push q cs p Hh) as (ret & q' & E & Hq'). erewrite M_bind_done by (unfold lift; rewrite E; reflexivity).
  cbv beta iota. exists ret, (insert c (set_chn_queue (QHere a q') k)). split.
  - erewrite M_bind_done; [reflexivity|]. unfold change_core. by mstep (load_core_ok c w k Hc Hk).
  - assert (Ho : ∀ l, holds q' l → owns (on_cores (set_core_map (insert c (set_chn_queue (QHere a q') k))) w) c l).
    { intros l Hl. split; [done|]. exists (set_chn_queue (QHere a q') k), a, q'. split_and!; [apply lookup_insert_eq|done|done]. }
    destruct Hq' as [[_ Hq']|[_ Hq']]; [left|right]; by apply Ho.
Qed.

(** The channel [p] with number [n] and a new unit [u] is added to the context
    [c]; the queue of the context may refuse it. *)
Record added w w' mem c cs (d : pitcher_unit_desc) arg p n u a : Prop := {
  ad_fresh : p ≠ 0 ∧ u ≠ 0 ∧ NoDup [p; u; a] ∧ (∀ x, x ∈ [p; u; a] → x ∉ live w);
  ad_live : live w' = {[p; u; a]} ∪ live w;
  ad_head : co_head (cores_of w') = co_head (cores_of w);
  ad_chns : co_chns (cores_of w') = <[p := Chn n 0 u 0 c 0 0]> (co_chns (cores_of w));
  ad_registry : registry w' (mem ++ [p]);
  ad_number : ¬ used (co_bitmap (cores_of w)) n;
  ad_used m : used (co_bitmap (cores_of w')) m ↔ used (co_bitmap (cores_of w)) m ∨ m = n;
  ad_unit : new_unit w' u d arg a;
  ad_queue : owns w' c (cs ++ [p]) ∨ owns w' c cs
}.

Definition pfd_of (d : pitcher_unit_desc) : pitcher_poll_fd :=
  if (0 <=? ud_fd d) && negb (ud_events d =? 0) then PollFd POLL_FUNC (ud_fd d) (ud_events d) 0 0
  else PollFd 0 0 0 0 0.

(** The second half of registering, from the unit on. *)
Lemma enroll_ok w mem c cs d p n u : registered w mem → p ∉ co_head (cores_of w) :: mem → owns w c cs →
  (∀ q y, q ∈ mem → co_chns (cores_of w) !! q = Some y → ch_chnno y ≠ n) →
  ∃ w', (_ ← store_pfd p (pfd_of d);
      _ ← store_chn p (Chn n 0 u 0 c 0 0);
      _ ← __set_chn_status p PITCHER_STATE_STOPPED;
      _ ← modify (on_cores (λ y, set_list (Heap (<[p := 0]> (h_next (co_list y))) (<[p := 0]> (h_prev (co_list y)))) y));
      w ← get;
      _ ← on_list (list_add_tail p (co_head (cores_of w)));
      _ ← push_queue (get_cchns c) (put_cchns c) p;
      mret n) w = Done (n, w') ∧
    live w' = live w ∧ units_of w' = units_of w ∧ co_bitmap (cores_of w') = co_bitmap (cores_of w) ∧
    co_head (cores_of w') = co_head (cores_of w) ∧
    co_chns (cores_of w') = <[p := Chn n 0 u 0 c 0 0]> (co_chns (cores_of w)) ∧
    registered w' (mem ++ [p]) ∧ (owns w' c (cs ++ [p]) ∨ owns w' c cs).
Proof.
  intros Hg Hp Ho Hn. erewrite M_bind_done by reflexivity. set (w1 := on_loops _ w).
  erewrite M_bind_done by reflexivity. set (x := Chn n 0 u 0 c 0 0). set (w2 := on_cores _ w1).
  assert (Es : __set_chn_status p PITCHER_STATE_STOPPED w2 = Done (tt, w2)).
  { unfold __set_chn_status. cbn [Z.ltb Z.compare]. unfold change_chn.
    change (PITCHER_STATE_STOPPED <? PITCHER_STATE_UNKNOWN) with true. cbv iota.
    mstep (load_chn_ok p w2 x (lookup_insert_eq _ _ _)). unfold store_chn, modify. f_equal. f_equal.
    apply on_cores_id. unfold w2, set_chns. cbn. by rewrite insert_insert_eq. }
  mstep Es. erewrite M_bind_done by reflexivity. erewrite M_bind_done by reflexivity.
  assert (Hg1 : registered w1 mem) by by apply (registered_same w).
  destruct (add_channel_ok w1 mem p x Hg1 Hp Hn) as (w3 & E3 & (h & ->) & Hg3).
  erewrite M_bind_done by exact E3. set (w4 := on_cores (set_list h) _) in *.
  assert (Ho4 : owns w4 c cs) by by apply (owns_same w).
  destruct (push_channel_ok w4 c cs p Ho4) as (ret & g & E5 & Ho5). mstep E5.
  eexists. split; [reflexivity|]. split_and!; try done. by apply (registered_same w4).
Qed.

Lemma any_unit_ok desc arg w :
  ∃ u w', pitcher_new_unit alloc call_init desc arg w = Done (u, w') ∧ same_cores w w' ∧
    (u = 0 ∧ live w' = live w ∨ u ≠ 0 ∧ ∃ d, desc = Some d ∧ made w w' d arg u).
Proof.
  assert (Hnone : pitcher_new_unit alloc call_init desc arg w = Done (0, w) →
    ∃ u w', pitcher_new_unit alloc call_init desc arg w = Done (u, w') ∧ same_cores w w' ∧
    (u = 0 ∧ live w' = live w ∨ u ≠ 0 ∧ ∃ d, desc = Some d ∧ made w w' d arg u)).
  { intros E. exists 0, w. split_and!; [done|by apply same_cores_eq|by left]. }
  destruct desc as [d|]; [|by apply Hnone].
  destruct (decide (ud_check_ready d = 0 ∨ ud_runfunc d = 0)) as [Hd|Hd].
  - apply Hnone. unfold pitcher_new_unit. by destruct Hd as [-> | ->]; rewrite ?orb_true_r.
  - destruct (new_unit_ok d arg w) as (u & w' & E & Hc & Hm); [tauto..|]. exists u, w'. split_and!; [done|done|].
    destruct (decide (u = 0)) as [->|Hu]; [left; by destruct Hm as [[_ ?]|[? _]]|right]. eauto.
Qed.

Lemma registry_bitmap w w' mem b : registry w mem → cores_of w' = set_bitmap b (cores_of w) → live w' = live w → bitmap_ok b →
  (∀ n, used (co_bitmap (cores_of w)) n → used b n) → registry w' mem.
Proof.
  intros [R1 R2 R3 R4 R5 R6] Ec El Hb Hu. split; rewrite ?Ec, ?El; try done.
  - apply (registered_same w); [by rewrite Ec..|done].
  - intros p x Hx. apply Hu. by apply (R6 p x).
Qed.

Lemma registry_cores w w' mem : registry w mem → same_cores w w' → live w ⊆ live w' → registry w' mem.
Proof.
  intros [R1 R2 R3 R4 R5 R6] [y Ey] El. split; rewrite ?Ey; cbn; try done.
  - apply (registered_same w); [by rewrite Ey..|done].
  - intros p Hp. apply El. by apply R3.
Qed.

Lemma registry_core w f mem : registry w mem → registry (on_cores (set_core_map f) w) mem.
Proof. intros [R1 R2 R3 R4 R5 R6]. split; try done. by apply (registered_same w). Qed.

(** The number of a new channel. *)
Lemma get_number w : bitmap_ok (co_bitmap (cores_of w)) →
  ∃ n b, get_chnno w = Done (n, on_cores (set_bitmap b) w) ∧ bitmap_ok b ∧
    (n = -1 ∧ b = co_bitmap (cores_of w) ∨
     0 ≤ n ∧ ¬ used (co_bitmap (cores_of w)) n ∧ ∀ m, used b m ↔ used (co_bitmap (cores_of w)) m ∨ m = n).
Proof.
  intros [Hl Hf]. pose proof (get_chnno_ok _ 0 Hf ltac:(lia) ltac:(lia)) as (Hl' & Hf' & Hr).
  unfold get_chnno. destruct (__get_chnno _ 0) as [n b] eqn:E. cbn [fst snd] in *. exists n, b.
  split; [erewrite M_bind_done by reflexivity; by rewrite E|]. split; [split; [congruence|done]|].
  destruct Hr as [(-> & -> & _)|(n0 & -> & Hn0 & Hnu & _ & Hiff)]; [by left|right].
  rewrite Z.mul_0_l, Z.add_0_l. split_and!; [lia|done|done].
Qed.

(** The channels, the queue of the context and the memory are as before. *)
Definition unchanged w w' mem c cs : Prop :=
  registry w' mem ∧ owns w' c cs ∧ live w' = live w ∧ co_chns (cores_of w') = co_chns (cores_of w).

Lemma unchanged_same w w1 w' mem c cs : unchanged w w1 mem c cs → same_cores w1 w' → live w' = live w1 → unchanged w w' mem c cs.
Proof.
  intros (Hg & Ho & Hl & Hch) Hs El. split; [apply (registry_cores w1); [done|done|by rewrite El]|].
  destruct Hs as [y Hy]. split; [by apply (owns_same w1); [rewrite Hy|]|]. split; [congruence|by rewrite Hy].
Qed.

Lemma enroll_added w w1 w2 w3 mem c cs d arg p n u : registry w1 mem → owns w1 c cs →
  live w1 = live w → co_chns (cores_of w1) = co_chns (cores_of w) → co_head (cores_of w1) = co_head (cores_of w) →
  ¬ used (co_bitmap (cores_of w)) n → (∀ m, used (co_bitmap (cores_of w1)) m ↔ used (co_bitmap (cores_of w)) m ∨ m = n) →
  (∀ q y, co_chns (cores_of w) !! q = Some y → used (co_bitmap (cores_of w)) (ch_chnno y)) →
  p ≠ 0 → p ∉ live w1 → cores_of w2 = cores_of w1 → live w2 = {[p]} ∪ live w1 → same_cores w2 w3 → u ≠ 0 → made w2 w3 d arg u →
  registered w3 mem ∧ p ∉ co_head (cores_of w3) :: mem ∧ owns w3 c cs ∧
  (∀ q y, q ∈ mem → co_chns (cores_of w3) !! q = Some y → ch_chnno y ≠ n) ∧
  ∀ w', live w' = live w3 → units_of w' = units_of w3 → co_bitmap (cores_of w') = co_bitmap (cores_of w3) →
    co_head (cores_of w') = co_head (cores_of w3) →
    co_chns (cores_of w') = <[p := Chn n 0 u 0 c 0 0]> (co_chns (cores_of w3)) →
    registered w' (mem ++ [p]) → (owns w' c (cs ++ [p]) ∨ owns w' c cs) → ∃ a, added w w' mem c cs d arg p n u a.
Proof.
  intros Hg Ho Hl1 Hch1 Hh1 Hnu Hiff Hused Hp Hpf Hc2 Hl2 [y Hy] Hu [[? _]|(_ & Hfu & a & Hfa & Hua & Hl3 & Hnew)]; [done|].
  pose proof (ry_live _ _ Hg) as Hlive.
  assert (Hch3 : co_chns (cores_of w3) = co_chns (cores_of w)) by (rewrite Hy; cbn; rewrite Hc2; done).
  split_and!.
  - apply (registered_same w1); [by rewrite Hy; cbn; rewrite Hc2..|apply Hg].
  - rewrite Hy. cbn. rewrite Hc2. intros Hin. by apply Hpf, Hlive.
  - apply (owns_same w1); [by rewrite Hy; cbn; rewrite Hc2|done].
  - intros q z _ Hz En. rewrite Hch3 in Hz. apply Hnu. rewrite <- En. by apply (Hused q).
  - intros w' El Eu Eb Eh Ec Hr Hq. exists a. rewrite Hy in Eb, Eh. cbn in Eb, Eh. rewrite Hc2 in Eb, Eh.
    rewrite Hch3 in Ec. rewrite Hl2, Hl1 in *. split; try done.
    + split_and!; [done|done| |].
      * repeat (apply NoDup_cons; split); [set_solver..|apply NoDup_nil_2].
      * intros x. rewrite !elem_of_cons, elem_of_nil. intros [->|[->|[->|[]]]]; set_solver.
    + rewrite El, Hl3. clear. set_solver.
    + congruence.
    + split; [done| | | | |].
      * intros q. rewrite Ec. destruct (decide (q = p)) as [->|Hne]; [set_solver|].
        rewrite lookup_insert_ne by done. intros Hq'. apply elem_of_app. left. apply (ry_dom _ _ Hg). by rewrite Hch1.
      * intros q. rewrite Eh, El, Hl3. intros Hq'. apply elem_of_union. right. apply elem_of_union.
        assert (q = p ∨ q ∈ co_head (cores_of w1) :: mem) as [->|Hin] by set_solver; [left; set_solver|right; by apply Hlive].
      * intros q [Hqm| ->%list_elem_of_singleton]%elem_of_app; [by apply (ry_nonnull _ _ Hg)|done].
      * rewrite Eb. apply Hg.
      * intros q z. rewrite Ec, Eb, Hiff. destruct (decide (q = p)) as [->|Hne].
        { rewrite lookup_insert_eq. intros [= <-]. by right. }
        rewrite lookup_insert_ne by done. intros Hz. left. by apply (Hused q).
    + intros m. by rewrite Eb.
    + destruct Hnew as (q & Hx & Hh). exists q. by rewrite Eu.
Qed.

(** Registering a channel, in all cases. *)
Lemma register_ok w mem c cs desc arg : registry w mem → owns w c cs →
  ∃ ret w', pitcher_register_chn alloc call_init c desc arg w = Done (ret, w') ∧
    (ret < 0 ∧ unchanged w w' mem c cs ∨
     0 ≤ ret ∧ ∃ d p u a, desc = Some d ∧ added w w' mem c cs d arg p ret u a).
Proof.
  intros Hg Ho. pose proof Ho as (Hc & k & ca & cq & Hk & Hkq & _). unfold pitcher_register_chn.
  mstep (load_core_ok c w k Hc Hk). destruct (get_number w (ry_bitmap _ _ Hg)) as (n & b & E1 & Hb & Hn). mstep E1.
  set (w1 := on_cores (set_bitmap b) w).
  assert (Hg1 : registry w1 mem).
  { apply (registry_bitmap w _ mem b); [done..|]. intros m Hm. destruct Hn as [[_ ->]|(_ & _ & Hiff)]; [done|]. apply Hiff. by left. }
  assert (Ho1 : owns w1 c cs) by by apply (owns_same w).
  assert (Href : unchanged w w1 mem c cs) by by split.
  destruct (Z.ltb_spec n 0) as [Hneg|Hpos].
  { exists (- RET_E_FULL), w1. split; [done|]. by left. }
  destruct Hn as [[-> _]|(_ & Hnu & Hiff)]; [done|]. rewrite Hkq. cbn [is_null].
  destruct (calloc_ok alloc alloc_fresh w1) as (r & w2 & E2 & _ & He2 & H2). mstep E2.
  assert (Hc2 : cores_of w2 = cores_of w1) by (unfold cores_of; by rewrite He2).
  destruct r as [p|].
  2:{ exists (- RET_E_NO_MEMORY), w2. split; [done|]. left. split; [done|].
      apply (unchanged_same w w1); [done|by apply same_cores_eq|done]. }
  destruct H2 as (Hl2 & Hpf & Hp). destruct (any_unit_ok desc arg w2) as (u & w3 & E3 & Hs3 & Hu). mstep E3.
  destruct Hu as [[-> Hl3]|(Hu & d & -> & Hm)].
  - rewrite Z.eqb_refl. destruct (free_ok w3 p) as (w4 & E4 & _ & He4 & Hl4); [rewrite Hl3, Hl2; set_solver|].
    exists (- RET_E_INVAL), w4. split; [by mstep E4|]. left. split; [done|]. apply (unchanged_same w w1); [done| |].
    + apply same_cores_trans with w3; [apply same_cores_trans with w2; [by apply same_cores_eq|done]|].
      apply same_cores_eq. unfold cores_of. by rewrite He4.
    + rewrite Hl4, Hl3, Hl2. clear - Hpf. set_solver.
  - rewrite (proj2 (Z.eqb_neq u 0) Hu). erewrite M_bind_done by reflexivity.
    destruct (enroll_added w w1 w2 w3 mem c cs d arg p n u) as (A1 & A2 & A3 & A4 & A5); try done.
    { apply Hg. }
    destruct (enroll_ok w3 mem c cs d p n u A1 A2 A3 A4) as (w' & E & F1 & F2 & F3 & F4 & F5 & F6 & F7).
    exists n, w'. split; [exact E|]. right. split; [done|].
    destruct (A5 w' F1 F2 F3 F4 F5 F6 F7) as (a & Ha). by exists d, p, u, a.
Qed.

(** ** Unregistering *)

Lemma enum_app {W} (f : Z → W → outcome (bool * W)) l1 l2 (w : W) :
  enum_list f (l1 ++ l2) w = obind (λ '(r1, w), obind (λ '(r2, w), Done (r1 ++ r2, w)) (enum_list f l2 w)) (enum_list f l1 w).
Proof.
  revert w. induction l1 as [|x l1 IH]; intros w; cbn [enum_list app obind].
  - by destruct (enum_list f l2 w) as [[r w']| | |].
  - destruct (f x w) as [[del w']| | |]; [|done..]. cbn [obind mbind outcome_bind]. rewrite IH.
    destruct (enum_list f l1 w') as [[r1 w1]| | |]; [|done..]. cbn [obind mbind outcome_bind].
    destruct (enum_list f l2 w1) as [[r2 w2]| | |]; [|done..]. cbn. by destruct del.
Qed.

Abbreviation del_chn := (__del_chn_func call_plane call_recycle call_cleanup).

Lemma enum_others_ok w n cs : (∀ p, p ∈ cs → p ≠ 0 ∧ ∃ x, co_chns (cores_of w) !! p = Some x ∧ ch_chnno x ≠ n) →
  enum_list (del_chn (Some n)) cs w = Done (cs, w).
Proof.
  induction cs as [|p cs IH]; intros Hcs; [done|]. cbn [enum_list].
  destruct (Hcs p) as (Hp & x & Hx & Hn); [by left|].
  assert (E : del_chn (Some n) p w = Done (false, w)).
  { unfold __del_chn_func. rewrite (proj2 (Z.eqb_neq p 0) Hp). mstep (load_chn_ok p w x Hx).
    by rewrite (proj2 (Z.eqb_neq _ _) Hn). }
  rewrite E. cbn [obind mbind outcome_bind]. rewrite IH by (intros q Hq; apply Hcs; by right). done.
Qed.

(** A channel leaves the registry. *)
Lemma registry_del w w' m1 p m2 x : registry w (m1 ++ p :: m2) → co_chns (cores_of w) !! p = Some x →
  ring (co_list (cores_of w')) (co_head (cores_of w')) (m1 ++ m2) →
  co_head (cores_of w') = co_head (cores_of w) → co_chns (cores_of w') = delete p (co_chns (cores_of w)) →
  co_bitmap (cores_of w') = __put_chnno (ch_chnno x) (co_bitmap (cores_of w)) →
  (∀ q, q ∈ co_head (cores_of w) :: m1 ++ m2 → q ∈ live w') → registry w' (m1 ++ m2).
Proof.
  intros [[R1 R2 R3] Rd Rl Rn Rb Ru] Hx Hr Eh Ec Eb El. pose proof (Ru p x Hx) as [Hpos _].
  destruct (ring_nodup _ _ _ _ _ R1) as [Hp _]. assert (Hpm : p ∉ m1 ++ m2) by (intros Hin; apply Hp; by right).
  assert (Hsub : ∀ q, q ∈ m1 ++ m2 → q ∈ m1 ++ p :: m2 ∧ q ≠ p).
  { intros q Hq. split; [|by intros ->]. rewrite elem_of_app in *. rewrite elem_of_cons. tauto. }
  split; [split| | | | |].
  - done.
  - intros q Hq. destruct (Hsub q Hq). rewrite Ec, lookup_delete_ne by done. by apply R2.
  - intros q1 q2 y1 y2 Hq1 Hq2. destruct (Hsub q1 Hq1), (Hsub q2 Hq2). rewrite Ec, !lookup_delete_ne by done. by apply R3.
  - intros q. rewrite Ec. destruct (decide (q = p)) as [->|Hne]; [rewrite lookup_delete_eq; by intros []|].
    rewrite lookup_delete_ne by done. intros Hq. apply Rd in Hq. rewrite elem_of_app, elem_of_cons in Hq.
    rewrite elem_of_app. tauto.
  - by rewrite Eh.
  - intros q Hq. destruct (Hsub q Hq). by apply Rn.
  - rewrite Eb. by apply put_bitmap_ok.
  - intros q y. rewrite Ec, Eb. destruct (decide (q = p)) as [->|Hne]; [by rewrite lookup_delete_eq|].
    rewrite lookup_delete_ne by done. intros Hy. apply used_put; [done|done|]. split; [by apply (Ru q)|].
    intros En. apply Hne, (R3 q p y x); try done; [apply Rd; eauto|apply Rd; eauto].
Qed.

Lemma free_chn_ok w m1 p m2 x d arg a : registry w (m1 ++ p :: m2) → p ≠ 0 → co_chns (cores_of w) !! p = Some x →
  ch_unit x ≠ 0 → NoDup [p; ch_unit x; a] → new_unit w (ch_unit x) d arg a →
  (∀ q, q ∈ [p; ch_unit x; a] → q ∈ live w) → (∀ q, q ∈ [ch_unit x; a] → q ∉ co_head (cores_of w) :: m1 ++ m2) →
  ∃ w', __free_chn call_plane call_recycle call_cleanup p w = Done (tt, w') ∧ registry w' (m1 ++ m2) ∧
    live w' = live w ∖ {[p; ch_unit x; a]} ∧ co_chns (cores_of w') = delete p (co_chns (cores_of w)) ∧
    co_cores (cores_of w') = co_cores (cores_of w) ∧
    co_bitmap (cores_of w') = __put_chnno (ch_chnno x) (co_bitmap (cores_of w)).
Proof.
  intros Hg Hp Hx Hu Hnd Hnew Hin Hout. pose proof (rg_ring _ _ (ry_list _ _ Hg)) as Hr.
  set (u := ch_unit x) in *. assert (Hd : p ≠ u ∧ p ≠ a ∧ u ≠ a).
  { rewrite !NoDup_cons, !elem_of_cons, elem_of_nil in Hnd. clear - Hnd. split_and!; intros ->; tauto. }
  destruct Hd as (Hpu & Hpa & Hua). unfold __free_chn. rewrite (proj2 (Z.eqb_neq p 0) Hp).
  destruct (list_del_init_ok _ _ m1 p m2 Hr) as (h & E1 & Hr1 & _).
  set (w1 := on_cores (set_list h) w).
  erewrite M_bind_done by (unfold on_list; rewrite E1; reflexivity). fold w1.
  assert (Hx1 : co_chns (cores_of w1) !! p = Some x) by done. mstep (load_chn_ok p w1 x Hx1).
  erewrite M_bind_done by reflexivity. set (w2 := on_cores _ w1). rewrite (proj2 (Z.eqb_neq (ch_unit x) 0) Hu).
  destruct (del_unit_ok u d arg a w2 Hu Hua Hnew) as (w3 & E3 & [y Hy] & Hl3 & _).
  { apply Hin. right; left. } { apply Hin. do 2 right; left. }
  unfold del_unit. mstep E3. erewrite M_bind_done by reflexivity. erewrite M_bind_done by reflexivity.
  set (w4 := on_loops _ (on_cores _ w3)).
  assert (Hl4 : live w4 = live w ∖ {[u; a]}) by exact Hl3.
  assert (Hpl : p ∈ live w4) by (rewrite Hl4; pose proof (Hin p ltac:(left)); clear - Hpu Hpa H0; set_solver).
  destruct (free_ok w4 p Hpl) as (w5 & E5 & _ & He5 & Hl5). exists w5. split; [exact E5|].
  assert (Hc5 : cores_of w5 = cores_of w4) by (unfold cores_of; by rewrite He5).
  assert (Hc4 : co_chns (cores_of w4) = delete p (co_chns (cores_of w)) ∧ co_cores (cores_of w4) = co_cores (cores_of w) ∧
    co_bitmap (cores_of w4) = __put_chnno (ch_chnno x) (co_bitmap (cores_of w)) ∧
    co_list (cores_of w4) = h ∧ co_head (cores_of w4) = co_head (cores_of w)).
  { change (cores_of w4) with (let k := cores_of w3 in Cores (co_cores k) (delete p (co_chns k)) (co_bitmap k) (co_list k) (co_head k)
      (set_pfds (delete p) (co_loops k)) (co_rest k)). rewrite Hy. by split_and!. }
  destruct Hc4 as (A1 & A2 & A3 & A4 & A5). rewrite Hc5.
  assert (Hl : live w5 = live w ∖ {[p; u; a]}) by (rewrite Hl5, Hl4; clear; set_solver).
  split_and!; try done. apply (registry_del w w5 m1 p m2 x); rewrite ?Hc5, ?A4, ?A5; try done.
  intros q Hq. rewrite Hl. apply elem_of_difference. split.
  - apply (ry_live _ _ Hg). rewrite elem_of_cons, elem_of_app in *. rewrite elem_of_cons. tauto.
  - assert (q ≠ p). { destruct (ring_nodup _ _ _ _ _ Hr) as [Hpn _]. by intros ->. }
    assert (q ≠ u ∧ q ≠ a) by (split; intros ->; [apply (Hout u)|apply (Hout a)]; done || (clear; set_solver)).
    set_solver.
Qed.

(** Unregistering the channel that was registered last. *)
Lemma unregister_ok w mem c cs p n u d arg a : registry w (mem ++ [p]) → owns w c (cs ++ [p]) → (∀ q, q ∈ cs → q ∈ mem) →
  co_chns (cores_of w) !! p = Some (Chn n 0 u 0 c 0 0) → u ≠ 0 → NoDup [p; u; a] → new_unit w u d arg a →
  (∀ q, q ∈ [p; u; a] → q ∈ live w) → (∀ q, q ∈ [u; a] → q ∉ co_head (cores_of w) :: mem) →
  ∃ w', pitcher_unregister_chn call_plane call_recycle call_cleanup n w = Done (RET_OK, w') ∧ registry w' mem ∧ owns w' c cs ∧
    live w' = live w ∖ {[p; u; a]} ∧ co_chns (cores_of w') = delete p (co_chns (cores_of w)) ∧
    co_bitmap (cores_of w') = __put_chnno n (co_bitmap (cores_of w)).
Proof.
  intros Hg (Hc & k & ca & q & Hk & Hkq & Hq) Hsub Hx Hu Hnd Hnew Hin Hout. pose proof (ry_list _ _ Hg) as Hr.
  assert (Hpm : p ∈ mem ++ [p]) by (apply elem_of_app; right; by left).
  assert (Hp : p ≠ 0) by by apply (ry_nonnull _ _ Hg). unfold pitcher_unregister_chn.
  mstep (find_member w _ p _ Hr Hpm Hp Hx). rewrite (proj2 (Z.eqb_neq p 0) Hp). mstep (load_chn_ok p w _ Hx).
  cbn [ch_core]. mstep (load_core_ok c w k Hc Hk). rewrite Hkq. erewrite M_bind_done by reflexivity.
  unfold walk_chns, walk_queue, get_cchns, put_cchns, change_core. rewrite M_bind_eq.
  erewrite M_bind_done by (mstep (load_core_ok c w k Hc Hk); reflexivity). rewrite Hkq.
  erewrite M_bind_done by (mstep (load_core_ok c w k Hc Hk); reflexivity). set (w1 := on_cores _ w).
  assert (Hnp : p ∉ mem) by (destruct (ring_nodup _ _ _ _ _ (rg_ring _ _ Hr)) as [Hn _]; intros Hi; apply Hn; right;
    apply elem_of_app; by left).
  assert (E1 : enum_list (del_chn (Some n)) cs w1 = Done (cs, w1)).
  { apply enum_others_ok. intros b Hb. specialize (Hsub b Hb).
    assert (Hbm : b ∈ mem ++ [p]) by (apply elem_of_app; by left). split; [by apply (ry_nonnull _ _ Hg)|].
    destruct (rg_chn _ _ Hr b Hbm) as [y Hy]. exists y. split; [exact Hy|]. intros En.
    apply Hnp. rewrite <- (rg_numbers _ _ Hr b p y _ Hbm Hpm Hy Hx En). done. }
  destruct (free_chn_ok w1 mem p [] (Chn n 0 u 0 c 0 0) d arg a) as (w2 & E2 & Hg2 & Hl2 & Hch2 & Hco2 & Hb2); try done.
  { by apply (registry_core w). } { by rewrite app_nil_r. }
  rewrite app_nil_r in Hg2. cbn [ch_unit ch_chnno] in *.
  pose proof (holds_enumerate (del_chn (Some n)) q (cs ++ [p]) w1 Hq) as He. rewrite enum_app, E1 in He. cbn [obind enum_list] in He.
  assert (E3 : del_chn (Some n) p w1 = Done (true, w2)).
  { unfold __del_chn_func. rewrite (proj2 (Z.eqb_neq p 0) Hp). mstep (load_chn_ok p w1 _ Hx).
    rewrite Z.eqb_refl. cbn [negb]. by mstep E2. }
  rewrite E3 in He. cbn in He. rewrite app_nil_r in He. destruct (queue_enumerate _ q w1) as [[q' w2']| | |] eqn:Eq; try done.
  destruct He as [Hq' ->]. erewrite M_bind_done by exact Eq.
  assert (Hk2 : co_cores (cores_of w2) !! c = Some (set_chn_queue QAway k)) by (rewrite Hco2; apply lookup_insert_eq).
  mstep (load_core_ok c w2 _ Hc Hk2). eexists. split; [reflexivity|]. split_and!; try done.
  - by apply (registry_core w2).
  - split; [done|]. eexists _, ca, q'. split_and!; [apply lookup_insert_eq|done|done].
Qed.

Lemma added_outside w w1 mem c cs d arg p n u a : registry w mem → added w w1 mem c cs d arg p n u a →
  co_chns (cores_of w) !! p = None ∧ (∀ q, q ∈ [u; a] → q ∉ co_head (cores_of w1) :: mem) ∧
  live w1 ∖ {[p; u; a]} = live w.
Proof.
  intros Hg [(Hp & Hu & Hnd & Hf) Hl Hh Hch Hg1 _ _ _ _]. split_and!.
  - apply eq_None_not_Some. intros Hs. apply (Hf p); [by left|]. apply (ry_live _ _ Hg). right. by apply (ry_dom _ _ Hg).
  - intros q Hq Hin. rewrite Hh in Hin. apply (Hf q); [by right|]. by apply (ry_live _ _ Hg).
  - rewrite Hl. clear - Hf. assert (p ∉ live w ∧ u ∉ live w ∧ a ∉ live w) by (split_and!; apply Hf; set_solver). set_solver.
Qed.

(** C14: channels come and go.  A request for a channel either is refused, with
    a negative answer and nothing allocated, or gives the channel a number that
    no other has, adds it to the list of all channels and, unless the queue has
    no memory for it, to its context; unregistering that number then restores
    everything: memory, the channels, the list, the context's queue and the
    numbers in use. *)
Theorem channel_lifetime w mem c cs desc arg :
  registry w mem → owns w c cs → (∀ q, q ∈ cs → q ∈ mem) →
  ∃ ret w1, pitcher_register_chn alloc call_init c desc arg w = Done (ret, w1) ∧
    (ret < 0 ∧ unchanged w w1 mem c cs ∨
     0 ≤ ret ∧ ∃ d p u a, desc = Some d ∧ added w w1 mem c cs d arg p ret u a ∧
       (owns w1 c cs ∨
        ∃ w2, pitcher_unregister_chn call_plane call_recycle call_cleanup ret w1 = Done (RET_OK, w2) ∧
          unchanged w w2 mem c cs ∧ ∀ m, used (co_bitmap (cores_of w2)) m ↔ used (co_bitmap (cores_of w)) m)).
Proof.
  intros Hg Ho Hsub. destruct (register_ok w mem c cs desc arg Hg Ho) as (ret & w1 & E & [Hr|(Hret & d & p & u & a & -> & Ha)]).
  { exists ret, w1. split; [done|]. by left. }
  exists ret, w1. split; [done|]. right. split; [done|]. exists d, p, u, a. split; [done|]. split; [done|].
  destruct (added_outside _ _ _ _ _ _ _ _ _ _ _ Hg Ha) as (Hpn & Hout & Hl).
  destruct Ha as [(Hp & Hu & Hnd & Hf) Hl1 Hh Hch Hg1 Hnu Hiff Hnew [Hq|Hq]]; [right|by left].
  destruct (unregister_ok w1 mem c cs p ret u d arg a) as (w2 & E2 & Hg2 & Ho2 & Hl2 & Hch2 & Hb2); try done.
  { rewrite Hch. apply lookup_insert_eq. }
  { intros q Hin. rewrite Hl1. clear - Hin. set_solver. }
  exists w2. split; [done|]. split.
  - split; [done|]. split; [done|]. split; [congruence|]. rewrite Hch2, Hch. by apply delete_insert_id.
  - intros m. rewrite Hb2, used_put by (done || apply (ry_bitmap _ _ Hg1)). rewrite Hiff.
    split; [intros [[|] ?]; done|]. intros Hm. split; [by left|]. by intros ->.
Qed.
End units.

(** ** An instance *)

Abbreviation reg_state := (world (pipes (list Z) (units (list Z) (cores (list Z) flat_os unit)))).

#[local] Existing Instance list_queue_ops.
#[local] Existing Instance list_queue_spec.

(** A context without channels. *)
Definition reg_world : reg_state :=
  World (Mem {[1; 41; 42; 60]} 0 0) ∅ (Pipes ∅ (Units ∅
    (Cores {[1 := CoreT (QHere 41 []) (QHere 42 []) 0 0 0]} ∅ (replicate 256 0) (Heap {[60 := 60]} {[60 := 60]}) 60
       (Loops ∅ ∅ ∅ ∅ (FlatOs 0 7 ∅)) tt))).

Definition reg_plane (f : Z) (r : pitcher_buf_ref) (arg : Z) : M reg_state (Z * pitcher_buf_ref) := mret (0, r).
Definition reg_recycle (f b : Z) : M reg_state bool := mret true.
Definition reg_init (f arg : Z) : M reg_state Z := mret 0.
Definition reg_desc : pitcher_unit_desc := UnitDesc 1 1 0 0 0 1 1 0 5 1.

Lemma reg_init_quiet f arg (w : reg_state) : ∃ ret w', reg_init f arg w = Done (ret, w') ∧ untouched w w'.
Proof. exists 0, w. split; [done|]. split; try done. exists tt. by destruct (cores_of w) as [? ? ? ? ? ? []]. Qed.

Lemma reg_registry : registry reg_world [].
Proof.
  split.
  - split; [|by intros a []%elem_of_nil|by intros a b x y []%elem_of_nil]. split; [by apply (bool_decide_unpack _)|]. cbn. repeat split.
  - by intros p [? ?].
  - intros p ->%list_elem_of_singleton. by apply (bool_decide_unpack _).
  - by intros p []%elem_of_nil.
  - split; [done|]. by apply Forall_replicate.
  - by intros p x [=].
Qed.

Lemma channel_lifetime_witness :
  ∃ ret w1, pitcher_register_chn calloc_pipe reg_init 1 (Some reg_desc) 7 reg_world = Done (ret, w1) ∧
    (ret < 0 ∧ unchanged reg_world w1 [] 1 [] ∨
     0 ≤ ret ∧ ∃ d p u a, Some reg_desc = Some d ∧ added reg_world w1 [] 1 [] d 7 p ret u a ∧
       (owns w1 1 [] ∨
        ∃ w2, pitcher_unregister_chn reg_plane reg_recycle reg_init ret w1 = Done (RET_OK, w2) ∧
          unchanged reg_world w2 [] 1 [] ∧
          ∀ m, used (co_bitmap (cores_of w2)) m ↔ used (co_bitmap (cores_of reg_world)) m)).
Proof.
  apply (channel_lifetime calloc_pipe calloc_pipe_fresh reg_plane reg_recycle reg_init reg_init reg_init_quiet reg_init_quiet
    reg_world [] 1 [] (Some reg_desc) 7 reg_registry); [|by intros q []%elem_of_nil].
  split; [done|]. by exists (CoreT (QHere 41 []) (QHere 42 []) 0 0 0), 42, [].
Defined.
