(* ===== verification/Run.v ===== *)
(** * A pipeline in its loop: pitcher_run returns

    The loop of loop.c with nothing in it but the timer task of a context of
    core.c: the turns of the loop call the task, the task gives every channel
    its turn, and in the end the loop stops.  Put together from Loop and Drain. *)

From S2P Require Import Prelude Dlist Queue Buffer Pipe Unit Loop Core Drain.

(** A system whose [epoll_wait], when no descriptor is registered and no signal
    comes, lasts as long as it was told.  [os_since tv o]: the clock gave [tv]
    not long before [o], so that a later reading differs from it by the time
    that has passed. *)
Class PatientOs (O : Type) `{LoopOsSpec O} := {
  os_since : Z → O → Prop;
  since_time o : os_since (os_time o).1 (os_time o).2;
  since_wait tv o e n t : os_since tv o → os_interest e o = ∅ → 0 ≤ t < 2 ^ 31 →
    (os_epoll_wait e n t o).1.1 ≤ 0 ∧ t * NSEC_PER_MSEC ≤ u64 ((os_time (os_epoll_wait e n t o).2).1 - tv)
}.

Section run.
Context {Q O F : Type} `{QueueSpec Q} `{PatientOs O}.
Abbreviation state := (world (pipes Q (units Q (cores Q O F)))).
Abbreviation SM := (M (world (pipes Q (units Q (cores Q O F))))).
Abbreviation live w := (m_live (w_mem w)).
Implicit Types (w : world (pipes Q (units Q (cores Q O F)))) (c l u node tv : Z).
Context (call_plane : Z → pitcher_buf_ref → Z → M (world (pipes Q (units Q (cores Q O F)))) (Z * pitcher_buf_ref)).
Context (call_recycle : Z → Z → M (world (pipes Q (units Q (cores Q O F)))) bool).
Context (call_stop : Z → Z → M (world (pipes Q (units Q (cores Q O F)))) Z).
Context (call_check_ready : Z → Z → M (world (pipes Q (units Q (cores Q O F)))) (Z * Z)).
Context (call_runfunc : Z → Z → Z → M (world (pipes Q (units Q (cores Q O F)))) Z).
Context (other_task : Z → Z → M (world (pipes Q (units Q (cores Q O F)))) Z).
Context (other_poll : Z → Z → Z → M (world (pipes Q (units Q (cores Q O F)))) Z).
Abbreviation turn := (turn call_plane call_recycle call_check_ready call_runfunc).
Abbreviation stop := (unit_stop call_plane call_recycle call_stop).
Abbreviation timer_func := (Core.__timer_func call_plane call_recycle call_stop call_check_ready call_runfunc).
Abbreviation task_of := (call_task call_plane call_recycle call_stop call_check_ready call_runfunc other_task).
Abbreviation poll_of := (call_poll call_plane call_recycle call_stop call_check_ready call_runfunc other_poll).

Definition lps w : loops Q O := co_loops (cores_of w).

(** ** What the units leave of the loop

    The context [c], its loop [l], and the node of its task. *)
Context (c l node : Z) (cs : list (Z * Z)) (ps : list (Z * (Z * Z))).

Record quiet w w' : Prop := {
  qt_loops : ls_loops (lps w') = ls_loops (lps w);
  qt_nodes : ls_nodes (lps w') = ls_nodes (lps w);
  qt_tasks : ls_tasks (lps w') = ls_tasks (lps w);
  qt_interest e : os_interest e (ls_os (lps w')) = os_interest e (ls_os (lps w));
  qt_since tv : os_since tv (ls_os (lps w)) → os_since tv (ls_os (lps w'));
  qt_live : node ∈ live w → node ∈ live w'
}.

Lemma stays_refl w : quiet w w.
Proof. by split. Qed.

Lemma stays_trans w1 w2 w3 : quiet w1 w2 → quiet w2 w3 → quiet w1 w3.
Proof. intros [A1 A2 A3 A4 A5 A6] [B1 B2 B3 B4 B5 B6]. split; [congruence..|intros e; by rewrite B4|auto|auto]. Qed.

Lemma quiet_eq w w' : lps w' = lps w → live w' = live w → quiet w w'.
Proof. intros E1 E2. split; rewrite ?E1, ?E2; auto. Qed.

Context (fit : world (pipes Q (units Q (cores Q O F))) → Prop).
Context (work : world (pipes Q (units Q (cores Q O F))) → nat).
Context (able : Z → world (pipes Q (units Q (cores Q O F))) → Prop).

(** Units that do not block each other and leave the loop alone; they are not
    affected by what the loop does. *)
Record Standalone : Prop := {
  sa_draining : Draining call_plane call_recycle call_stop call_check_ready call_runfunc cs fit work able;
  sa_turn a u w e w' : (a, u) ∈ cs → fit w → status w a = PITCHER_STATE_ACTIVE → turn u w = Done (e, w') → quiet w w';
  sa_stop a u w e w' : (a, u) ∈ cs → fit w → status w a = PITCHER_STATE_STOPPING → stop u w = Done (e, w') → quiet w w';
  sa_fit f w : fit w → fit (on_loops f w);
  sa_work f w : work (on_loops f w) = work w
}.
Context (units_ok : Standalone).

(** The units still keep their contract when what they leave is remembered. *)
Lemma quiet_draining w0 : Draining call_plane call_recycle call_stop call_check_ready call_runfunc cs
  (λ w, fit w ∧ quiet w0 w) work able.
Proof.
  destruct units_ok as [[D1 D2 D3 D4 D5 D6] S1 S2 _ _]. split.
  - intros a u w Ha [Hf Hq] Hs. destruct (D1 a u w Ha Hf Hs) as (e & w' & E & Hf' & Hc & Hrest).
    exists e, w'. split; [done|]. split; [split; [done|]|by split].
    apply stays_trans with w; [done|]. by apply (S1 a u w e).
  - intros a u w Ha [Hf Hq] Hs. destruct (D2 a u w Ha Hf Hs) as (e & w' & E & Hf' & Hc & Hrest).
    exists e, w'. split; [done|]. split; [split; [done|]|by split].
    apply stays_trans with w; [done|]. by apply (S2 a u w e).
  - intros w a u [Hf _]. by apply D3.
  - intros f w Hb Hs [Hf Hq]. split; [by apply D4|]. apply stays_trans with w; [done|].
    apply quiet_eq; [|done]. exact (proj2 (Hb _)).
  - exact D5.
  - exact D6.
Qed.

Abbreviation total := (total cs work).
Abbreviation context := (context_ok c l cs ps).

Lemma total_loops f w : total (on_loops f w) = total w.
Proof. unfold Drain.total. by rewrite (sa_work units_ok). Qed.

Lemma context_loops r f w : context r w →
  (∃ x, ls_loops (f (lps w)) !! l = Some x ∧ 0 ≤ lp_epoll_fd x) → context r (on_loops f w).
Proof. intros [C1 C2 C3 C4 C5 C6 _] Hl. split; try done. destruct C6 as (mem & [G1 G2 G3] & Hm). exists mem. by split. Qed.

(** The call of the context's task. *)
Definition all_stopped w : Prop := ∀ e, e ∈ cs → status w e.1 = PITCHER_STATE_STOPPED.

Lemma call_ok qa q w : context (QHere qa q) w → holds q cs.*1 → fit w → acyclic ps → zlen cs < 2 ^ 32 →
  (∃ f w', timer_func c w = Done (1, on_loops f w') ∧ all_stopped w' ∧ quiet w w' ∧
     ∃ x o, ls_loops (lps w) !! l = Some x ∧ f (lps w') = set_os o (set_loops (insert l (set_running 0 x)) (lps w')) ∧
       (∀ e, os_interest e o = os_interest e (ls_os (lps w')))) ∨
  (∃ q' w', timer_func c w = Done (0, w') ∧ context (QHere qa q') w' ∧ holds q' cs.*1 ∧ fit w' ∧ quiet w w' ∧
     (total w' < total w)%nat).
Proof.
  intros Hx Hq Hf Hac Hlen.
  destruct (all_turns _ _ _ _ _ c l cs ps _ _ _ (quiet_draining w) qa q w Hx Hq (conj Hf (stays_refl w)) Hlen)
    as (n & q' & w1 & E & Hq' & Hp).
  unfold Core.__timer_func. pose proof (pa_context _ _ _ _ _ _ _ _ _ _ _ _ _ Hp) as Hx1.
  destruct (pa_fit _ _ _ _ _ _ _ _ _ _ _ _ _ Hp) as [Hf1 Hq1]. destruct (Z.eqb_spec n 0) as [->|Hn].
  - left. destruct (context_load _ _ _ _ _ _ Hx1) as (k & Ek & _ & _ & Hkl & _).
    destruct (cx_loop _ _ _ _ _ _ Hx1) as (x & Hl & Hfd).
    destruct (loop_stop_ok l w1 x (proj2 (cx_nonnull _ _ _ _ _ _ Hx)) Hl Hfd) as (o & Es & Ho).
    eexists _, w1. split; [mstep E; rewrite Z.eqb_refl; mstep Ek; rewrite Hkl; mstep Es; reflexivity|].
    split; [intros e He; exact (pa_none _ _ _ _ _ _ _ _ _ _ _ _ _ Hp e eq_refl He)|]. split; [done|].
    exists x, o. split; [|split; [done|]].
    + by rewrite <- (qt_loops _ _ Hq1).
    + intros e. apply (Ho (λ o, os_interest e o = os_interest e (ls_os (lps w1)))); [done| |].
      * intros o' <-. apply gettid_ok.
      * intros t s o' <-. apply kill_ok.
  - right. exists q', w1. split_and!; try done; [mstep E; by rewrite (proj2 (Z.eqb_neq n 0))|].
    destruct (pa_some _ _ _ _ _ _ _ _ _ _ _ _ _ Hp Hn) as (e & He & Hs).
    destruct (ripe_exists _ _ _ _ _ c l cs ps _ _ _ (quiet_draining w) _ w e Hac Hx (conj Hf (stays_refl w)) He Hs)
      as (m & Hm & Hr).
    eapply total_less; [exact Hx1|apply (pa_below _ _ _ _ _ _ _ _ _ _ _ _ _ Hp)|].
    exact (pa_ripe _ _ _ _ _ _ _ _ _ _ _ _ _ Hp m Hm Hr).
Qed.

(** ** The phases of a turn *)

(** What the turn reads: the loop [x], the node [nd] of the task, the task [t];
    nothing is registered with epoll. *)
Record view w (x : pitcher_loop_t Q) (nd : pitcher_loop_node) (t : pitcher_timer_task) : Prop := {
  vw_loop : ls_loops (lps w) !! l = Some x;
  vw_node : ls_nodes (lps w) !! node = Some nd;
  vw_task : ls_tasks (lps w) !! c = Some t;
  vw_interest : os_interest (lp_epoll_fd x) (ls_os (lps w)) = ∅
}.

Lemma quiet_view w w' x nd t : quiet w w' → view w x nd t → view w' x nd t.
Proof. intros [A1 A2 A3 A4 _ _] [B1 B2 B3 B4]. split; rewrite ?A1, ?A2, ?A3, ?A4; done. Qed.

Context (l_nonnull : l ≠ 0) (c_nonnull : c ≠ 0) (node_nonnull : node ≠ 0).

Lemma loop_changes w x f : ls_loops (lps w) !! l = Some x →
  change_loop l f w = Done (tt, on_loops (set_loops (insert l (f x))) w).
Proof. intros Hx. by apply change_loop_eq. Qed.

(** What the clock shows. *)
Definition clock w : Z := (os_time (ls_os (lps w))).1.

Lemma pre_ok w x nd t : view w x nd t →
  ∃ f, __pre_process l w = Done (RET_OK, on_loops f w) ∧
    view (on_loops f w) (set_clock (lp_timeout x) (clock w) x) nd t ∧
    os_since (clock w) (ls_os (lps (on_loops f w))).
Proof.
  intros [V1 V2 V3 V4]. unfold __pre_process, clock. mstep (loop_changes w x (λ x, set_left_time (lp_timeout x) x) V1).
  set (w1 := on_loops _ w). pose proof (time_ok (ls_os (lps w))) as [_ Hi]. pose proof (since_time (ls_os (lps w))) as Hs.
  rewrite M_bind_eq. change (sys os_time w1) with (let (tv, o) := os_time (ls_os (lps w)) in Done (tv, on_loops (set_os o) w1)).
  destruct (os_time (ls_os (lps w))) as [tv o]. cbn [obind fst snd] in *.
  set (w2 := on_loops _ w1). assert (Hx2 : ls_loops (lps w2) !! l = Some (set_left_time (lp_timeout x) x)) by apply lookup_insert_eq.
  mstep (loop_changes w2 _ (λ x, set_clock (lp_left_time x) tv x) Hx2).
  eexists (λ y, set_loops _ (set_os o (set_loops _ y))). split; [reflexivity|]. split; [split|].
  - apply lookup_insert_eq.
  - exact V2.
  - exact V3.
  - exact (eq_trans (Hi _) V4).
  - exact Hs.
Qed.

(** The node after its timer has been looked at. *)
Definition seen tv (nd : pitcher_loop_node) : pitcher_loop_node := LoopNode c tv 1 (-1) (n_loop nd).

(** The timer of the context: every millisecond, for ever. *)
Definition context_timer (nd : pitcher_loop_node) (t : pitcher_timer_task) : Prop :=
  n_key nd = c ∧ n_timeout nd = 1 ∧ n_times nd = -1 ∧ tt_func t = TIMER_FUNC ∧ tt_interval t = 1.

(** What follows the call of a task. *)
Definition after_call : SM bool :=
  is_del ← timer_func c;
  dead ← (if negb (is_del =? 0) then mret true else nd ← load_node node; mret (n_times nd =? 0));
  if (dead : bool) then _ ← free_node node; mret true
  else _ ← lower_left_time l node; mret false.

Lemma lower_ok w x nd t : view w x nd t → n_timeout nd = 1 → lp_left_time x = 1 → lower_left_time l node w = Done (tt, w).
Proof.
  intros [V1 V2 _ _] Hn Hx. unfold lower_left_time. mstep (load_node_ok node w nd V2).
  mstep (load_loop_ok l w x l_nonnull V1). by rewrite Hn, Hx.
Qed.

Lemma insert_view w x nd nd' t : view w x nd t → view (on_loops (set_nodes (insert node nd')) w) x nd' t.
Proof. intros [V1 V2 V3 V4]. split; try done. apply lookup_insert_eq. Qed.

(** The node's turn: early or late. *)
Lemma node_turn_eq w x nd t : view w x nd t → context_timer nd t →
  Loop.__timer_func task_of l node w =
    (_ ← store_node node (set_n_tv (lp_tv x) nd);
     is_del ← (if 1 <=? delta (lp_tv x) nd then
         _ ← change_node node (set_n_timeout 1);
         _ ← change_node node (λ n, if 0 <? n_times n then set_n_times (n_times n - 1) n else n);
         timer_func c
       else _ ← change_node node (λ n, set_n_timeout (u32 (n_timeout n - delta (lp_tv x) nd)) n); mret 0);
     dead ← (if negb (is_del =? 0) then mret true else nd ← load_node node; mret (n_times nd =? 0));
     if (dead : bool) then _ ← free_node node; mret true else _ ← lower_left_time l node; mret false) w.
Proof.
  intros [V1 V2 V3 V4] (Hk & Ht & Hn & Hfn & Hiv).
  assert (Et : load_task c w = Done (t, w)).
  { unfold load_task. change (loops_of w) with (lps w). by rewrite V3. }
  unfold Loop.__timer_func at 1. rewrite (proj2 (Z.eqb_neq l 0)), (proj2 (Z.eqb_neq node 0)) by done.
  mstep (load_node_ok node w nd V2). rewrite Hk, (proj2 (Z.eqb_neq c 0)) by done.
  mstep Et. mstep (load_loop_ok l w x l_nonnull V1). by rewrite Hiv, Ht, Hfn.
Qed.

Lemma change_node_at w nd f : ls_nodes (lps w) !! node = Some nd →
  change_node node f w = Done (tt, on_loops (set_nodes (insert node (f nd))) w).
Proof. intros Hn. unfold change_node. by mstep (load_node_ok node w nd Hn). Qed.

Lemma node_turn w x nd t : view w x nd t → context_timer nd t → lp_left_time x = 1 →
  ∃ f, view (on_loops f w) x (seen (lp_tv x) nd) t ∧ (∀ y, ls_os (f y) = ls_os y) ∧
    Loop.__timer_func task_of l node w =
      if 1 <=? delta (lp_tv x) nd then after_call (on_loops f w) else Done (false, on_loops f w).
Proof.
  intros Hv Hn Hl. rewrite (node_turn_eq w x nd t Hv Hn). destruct Hn as (Hk & Ht & Hn & _ & _).
  set (dl := delta (lp_tv x) nd). assert (Hdl : 0 ≤ dl) by apply delta_nonneg. clearbody dl.
  destruct nd as [key tv0 to tm lp]. cbn in Hk, Ht, Hn. subst key to tm.
  erewrite M_bind_done by reflexivity. set (nd1 := set_n_tv _ _). set (w1 := on_loops _ w).
  assert (Hv1 : view w1 x nd1 t) by exact (insert_view _ _ _ _ _ Hv). destruct (Z.leb_spec 1 dl) as [Hd|Hd].
  - rewrite M_bind_assoc. rewrite (M_bind_done _ _ _ _ _ (change_node_at w1 nd1 _ (vw_node _ _ _ _ Hv1))).
    pose proof (insert_view _ _ _ (set_n_timeout 1 nd1) _ Hv1) as Hv2. set (w2 := on_loops _ w1) in *.
    rewrite M_bind_assoc. rewrite (M_bind_done _ _ _ _ _ (change_node_at w2 _ _ (vw_node _ _ _ _ Hv2))).
    exists (λ y, set_nodes (insert node (seen (lp_tv x) (LoopNode c tv0 1 (-1) lp)))
      (set_nodes (insert node (set_n_timeout 1 nd1)) (set_nodes (insert node nd1) y))).
    split; [exact (insert_view w2 x _ _ t Hv2)|]. split; [done|reflexivity].
  - assert (dl = 0) as -> by lia.
    pose proof (insert_view _ _ _ (set_n_timeout (u32 (n_timeout nd1 - 0)) nd1) _ Hv1) as Hv2.
    rewrite M_bind_assoc. rewrite (M_bind_done _ _ _ _ _ (change_node_at w1 nd1 _ (vw_node _ _ _ _ Hv1))).
    set (w2 := on_loops _ w1) in *. erewrite M_bind_done by reflexivity.
    erewrite M_bind_done.
    2:{ rewrite Z.eqb_refl. cbn [negb]. mstep (load_node_ok node w2 _ (vw_node _ _ _ _ Hv2)). reflexivity. }
    cbn [n_times set_n_timeout set_n_tv nd1 Z.eqb].
    exists (λ y, set_nodes (insert node (set_n_timeout (u32 (n_timeout nd1 - 0)) nd1)) (set_nodes (insert node nd1) y)).
    split; [exact Hv2|]. split; [done|]. by mstep (lower_ok w2 x _ t Hv2 eq_refl Hl).
Qed.

(** The loop [x] has been told to stop, with its channels. *)
Record stopped w w' (x : pitcher_loop_t Q) : Prop := {
  sp_channels : all_stopped w';
  sp_loop : ls_loops (lps w') !! l = Some (set_running 0 x);
  sp_interest e : os_interest e (ls_os (lps w')) = os_interest e (ls_os (lps w))
}.

(** The pipeline goes on. *)
Record going qa w w' : Prop := {
  go_context : ∃ q, context (QHere qa q) w' ∧ holds q cs.*1;
  go_fit : fit w';
  go_live : node ∈ live w';
  go_since tv : os_since tv (ls_os (lps w)) → os_since tv (ls_os (lps w'));
  go_total : (total w' ≤ total w)%nat
}.

Lemma after_call_ok qa q w x nd t : view w x nd t → n_times nd = -1 → n_timeout nd = 1 → lp_left_time x = 1 →
  node ∈ live w → context (QHere qa q) w → holds q cs.*1 → fit w → acyclic ps → zlen cs < 2 ^ 32 →
  (∃ w', after_call w = Done (true, w') ∧ stopped w w' x) ∨
  (∃ w', after_call w = Done (false, w') ∧ view w' x nd t ∧ going qa w w' ∧ (total w' < total w)%nat).
Proof.
  intros Hv Ht Hto Hlt Hlive Hx Hq Hf Hac Hlen. unfold after_call.
  destruct (call_ok qa q w Hx Hq Hf Hac Hlen) as [(f & w1 & E & Hs & Hq1 & x1 & o & Hx1 & Ef & Ho)|(q' & w1 & E & Hx1 & Hq' & Hf1 & Hq1 & Htot)].
  - left. mstep E. erewrite M_bind_done by reflexivity. unfold free_node. rewrite M_bind_assoc.
    erewrite M_bind_done by reflexivity. set (w2 := on_loops _ (on_loops f w1)).
    destruct (free_ok w2 node) as (w3 & E3 & _ & He3 & _); [apply (qt_live _ _ Hq1), Hlive|].
    exists w3. split; [by mstep E3|]. assert (Hc3 : cores_of w3 = cores_of w2) by (unfold cores_of; by rewrite He3).
    assert (Hl3 : lps w3 = set_nodes (delete node) (f (lps w1))) by (unfold lps; by rewrite Hc3).
    assert (x1 = x) as -> by (pose proof (vw_loop _ _ _ _ Hv); congruence). split.
    + intros e He. unfold status. rewrite Hc3. exact (Hs e He).
    + rewrite Hl3, Ef. apply lookup_insert_eq.
    + intros e. rewrite Hl3, Ef. cbn. rewrite Ho. apply (qt_interest _ _ Hq1).
  - right. mstep E. pose proof (quiet_view _ _ _ _ _ Hq1 Hv) as Hv1. exists w1. split; [|split_and!; try done].
    + erewrite M_bind_done.
      2:{ rewrite Z.eqb_refl. cbn [negb]. mstep (load_node_ok node w1 nd (vw_node _ _ _ _ Hv1)). reflexivity. }
      rewrite Ht. cbn [Z.eqb]. by mstep (lower_ok w1 x nd t Hv1 Hto Hlt).
    + split; [by exists q'|done|by apply (qt_live _ _ Hq1)|apply (qt_since _ _ Hq1)|lia].
Qed.

Lemma going_loops qa q f w : context (QHere qa q) w → holds q cs.*1 → fit w → node ∈ live w →
  (∃ x, ls_loops (f (lps w)) !! l = Some x ∧ 0 ≤ lp_epoll_fd x) →
  (∀ tv, os_since tv (ls_os (lps w)) → os_since tv (ls_os (f (lps w)))) → going qa w (on_loops f w).
Proof.
  intros Hx Hq Hf Hl Hlx Hs. split; [exists q; split; [by apply context_loops|done]|by apply (sa_fit units_ok)|done|done|].
  by rewrite total_loops.
Qed.

Lemma going_trans qa w1 w2 w3 : going qa w1 w2 → going qa w2 w3 → going qa w1 w3.
Proof. intros [_ _ _ A4 A5] [B1 B2 B3 B4 B5]. split; [done..|auto|lia]. Qed.

(** The turn of the node within a walk of the tasks. *)
Lemma node_ok qa q w x nd t : view w x nd t → context_timer nd t → lp_left_time x = 1 → node ∈ live w →
  context (QHere qa q) w → holds q cs.*1 → fit w → acyclic ps → zlen cs < 2 ^ 32 →
  (∃ w', Loop.__timer_func task_of l node w = Done (true, w') ∧ stopped w w' x) ∨
  (∃ w', Loop.__timer_func task_of l node w = Done (false, w') ∧ view w' x (seen (lp_tv x) nd) t ∧ going qa w w' ∧
     (1 ≤ delta (lp_tv x) nd → (total w' < total w)%nat)).
Proof.
  intros Hv Hn Hl Hlive Hx Hq Hf Hac Hlen. destruct (node_turn w x nd t Hv Hn Hl) as (f & Hv1 & Ho & E).
  assert (Hg : going qa w (on_loops f w)).
  { apply going_loops with q; try done; [|intros tv; by rewrite Ho].
    exists x. split; [apply (vw_loop _ _ _ _ Hv1)|]. destruct (cx_loop _ _ _ _ _ _ Hx) as (x' & Hx' & Hfd).
    pose proof (vw_loop _ _ _ _ Hv). assert (x' = x) as -> by (unfold lps in *; congruence). done. }
  destruct (go_context _ _ _ Hg) as (q1 & Hx1 & Hq1). rewrite E. destruct (Z.leb_spec 1 (delta (lp_tv x) nd)) as [Hd|Hd].
  - destruct (after_call_ok qa q1 (on_loops f w) x (seen (lp_tv x) nd) t Hv1 eq_refl eq_refl Hl Hlive Hx1 Hq1
      (go_fit _ _ _ Hg) Hac Hlen) as [(w' & E' & [S1 S2 S3])|(w' & E' & Hv' & Hg' & Ht)].
    + left. exists w'. split; [done|]. split; [done|done|]. intros e. rewrite S3. change (lps (on_loops f w)) with (f (lps w)).
      by rewrite Ho.
    + right. exists w'. split_and!; [done|done|by apply going_trans with (on_loops f w)|]. intros _.
      by rewrite total_loops in Ht.
  - right. exists (on_loops f w). split_and!; [done|done|done|lia].
Qed.

(** The context stays one when its loop keeps its descriptor. *)
Lemma view_context r w x x' nd t f : context r w → view w x nd t → ls_loops (f (lps w)) !! l = Some x' →
  lp_epoll_fd x' = lp_epoll_fd x → context r (on_loops f w).
Proof.
  intros Hx Hv Hl Hfd. apply context_loops; [done|]. exists x'. split; [done|]. rewrite Hfd.
  destruct (cx_loop _ _ _ _ _ _ Hx) as (x0 & Hx0 & Hfd0). pose proof (vw_loop _ _ _ _ Hv) as Hl0. unfold lps in Hl0.
  assert (x0 = x) as -> by congruence. done.
Qed.

Lemma going_at qa q w : context (QHere qa q) w → holds q cs.*1 → fit w → node ∈ live w → going qa w w.
Proof. intros Hx Hq Hf Hl. split; try done. by exists q. Qed.

(** A queue of the loop is put in its place. *)
Lemma put_going qa w x nd t f : going qa w w → view w x nd t → lp_epoll_fd (f x) = lp_epoll_fd x →
  let w' := on_loops (set_loops (insert l (f x))) w in going qa w w' ∧ view w' (f x) nd t.
Proof.
  intros Hg [V1 V2 V3 V4] Hfd w'. destruct (go_context _ _ _ Hg) as (q & Hx & Hq). split.
  - split; [|by apply (sa_fit units_ok), Hg|apply Hg|done|unfold w'; by rewrite total_loops].
    exists q. split; [|done]. apply (view_context _ w x (f x) nd t); [done|by split|apply lookup_insert_eq|done].
  - split; [apply lookup_insert_eq|done|done|by rewrite Hfd].
Qed.

Lemma going_self qa w w' : going qa w w' → going qa w' w'.
Proof. intros [A1 A2 A3 A4 A5]. by split. Qed.

(** The loop has stopped, but for the rest of the turn. *)
Record halted w' (x : pitcher_loop_t Q) : Prop := {
  ha_channels : all_stopped w';
  ha_loop : ls_loops (lps w') !! l = Some x;
  ha_running : lp_running x = 0;
  ha_interest : os_interest (lp_epoll_fd x) (ls_os (lps w')) = ∅
}.

Lemma timer_phase qa w x nd t ta tq : view w x nd t → context_timer nd t → lp_left_time x = 1 →
  lp_tasks x = QHere ta tq → holds tq [node] → going qa w w → acyclic ps → zlen cs < 2 ^ 32 →
  ∃ w', __process_timer task_of l w = Done (RET_OK, w') ∧
    ((∃ x', halted w' x' ∧ lp_pools x' = lp_pools x) ∨
     (∃ tq', holds tq' [node] ∧ view w' (set_task_queue (QHere ta tq') x) (seen (lp_tv x) nd) t ∧ going qa w w' ∧
        (1 ≤ delta (lp_tv x) nd → (total w' < total w)%nat))).
Proof.
  intros Hv Hn Hl Ht Htq Hg Hac Hlen. unfold __process_timer, walk_queue, get_tasks, put_tasks. rewrite M_bind_assoc, M_bind_assoc.
  mstep (load_loop_ok l w x l_nonnull (vw_loop _ _ _ _ Hv)). erewrite M_bind_done by reflexivity. rewrite Ht.
  destruct (put_going qa w x nd t (set_task_queue QAway) Hg Hv eq_refl) as [Hg1 Hv1].
  rewrite M_bind_assoc. rewrite (M_bind_done _ _ _ _ _ (loop_changes w x (set_task_queue QAway) (vw_loop _ _ _ _ Hv))).
  set (w1 := on_loops _ w) in *. destruct (go_context _ _ _ Hg1) as (q & Hx & Hq).
  pose proof (holds_enumerate (Loop.__timer_func task_of l) tq [node] w1 Htq) as He. cbn [enum_list] in He.
  destruct (node_ok qa q w1 _ nd t Hv1 Hn Hl (go_live _ _ _ Hg1) Hx Hq (go_fit _ _ _ Hg1) Hac Hlen)
    as [(w2 & E & [S1 S2 S3])|(w2 & E & Hv2 & Hg2 & Htot)]; rewrite E in He; cbn in He;
    destruct (queue_enumerate _ tq w1) as [[tq' w2']| | |] eqn:Eq; try done; destruct He as [Htq' ->]; rewrite M_bind_assoc;
    rewrite (M_bind_done _ _ _ _ _ Eq).
  - rewrite (M_bind_done _ _ _ _ _ (loop_changes w2 _ (set_task_queue (QHere ta tq')) S2)). eexists. split; [reflexivity|]. left.
    exists (set_task_queue (QHere ta tq') (set_running 0 (set_task_queue QAway x))). split; [|done]. split; try done.
    + apply lookup_insert_eq.
    + exact (eq_trans (S3 _) (vw_interest _ _ _ _ Hv1)).
  - rewrite (M_bind_done _ _ _ _ _ (loop_changes w2 _ (set_task_queue (QHere ta tq')) (vw_loop _ _ _ _ Hv2))).
    eexists. split; [reflexivity|]. right. exists tq'. split; [done|].
    destruct (put_going qa w2 _ _ t (set_task_queue (QHere ta tq')) (going_self _ _ _ Hg2) Hv2 eq_refl) as [Hg3 Hv3].
    split; [exact Hv3|]. split; [eapply going_trans; [exact Hg1|]; eapply going_trans; [exact Hg2|exact Hg3]|].
    intros Hd. rewrite total_loops. specialize (Htot Hd). unfold w1 in Htot. by rewrite total_loops in Htot.
Qed.

(** Waiting: nothing can be reported. *)
Lemma poll_phase w x pa pq : ls_loops (lps w) !! l = Some x → lp_pools x = QHere pa pq → holds pq [] →
  os_interest (lp_epoll_fd x) (ls_os (lps w)) = ∅ →
  ∃ f pq', __process_poll poll_of l w = Done (RET_OK, on_loops f w) ∧ holds pq' [] ∧
    f (lps w) = set_os (ls_os (f (lps w))) (set_loops (insert l (set_pools (QHere pa pq') x)) (lps w)) ∧
    os_interest (lp_epoll_fd x) (ls_os (f (lps w))) = ∅ ∧
    (∀ tv, os_since tv (ls_os (lps w)) → lp_left_time x = 1 → NSEC_PER_MSEC ≤ u64 (clock (on_loops f w) - tv)).
Proof.
  intros Hx Hp Hpq Hi. unfold __process_poll, walk_queue, get_pools, put_pools. rewrite M_bind_assoc, M_bind_assoc.
  mstep (load_loop_ok l w x l_nonnull Hx). erewrite M_bind_done by reflexivity. rewrite Hp, M_bind_assoc.
  rewrite (M_bind_done _ _ _ _ _ (loop_changes w x (set_pools QAway) Hx)). set (w1 := on_loops _ w).
  pose proof (holds_enumerate (__epoll_func poll_of l) pq [] w1 Hpq) as He. cbn [enum_list] in He.
  destruct (queue_enumerate _ pq w1) as [[pq' w1']| | |] eqn:Eq; try done. destruct He as [Hpq' ->].
  rewrite M_bind_assoc, (M_bind_done _ _ _ _ _ Eq).
  rewrite (M_bind_done _ _ _ _ _ (loop_changes w1 _ (set_pools (QHere pa pq')) (lookup_insert_eq _ _ _))).
  set (w2 := on_loops _ w1). set (x2 := set_pools (QHere pa pq') (set_pools QAway x)).
  assert (Hx2 : ls_loops (lps w2) !! l = Some x2) by apply lookup_insert_eq.
  mstep (load_loop_ok l w2 x2 l_nonnull Hx2). rewrite M_bind_eq.
  change (sys (os_epoll_wait (lp_epoll_fd x2) ECOUNT (s32 (lp_left_time x2))) w2) with
    (let '(r, o) := os_epoll_wait (lp_epoll_fd x) ECOUNT (s32 (lp_left_time x)) (ls_os (lps w)) in Done (r, on_loops (set_os o) w2)).
  pose proof (epoll_wait_ok (lp_epoll_fd x) ECOUNT (s32 (lp_left_time x)) (ls_os (lps w))) as Hw.
  pose proof (λ tv, since_wait tv (ls_os (lps w)) (lp_epoll_fd x) ECOUNT 1) as Hsince.
  assert (Hone : lp_left_time x = 1 → s32 (lp_left_time x) = 1) by by intros ->.
  destruct (os_epoll_wait _ _ (s32 _) _) as [[nfds evs] o] eqn:Eo. destruct Hw as (Ho & Hn & fds & _ & Hf).
  assert (Hnil : evs = []). { destruct Hf as [|fd ev fds evs (v & Hv) _]; [done|]. by rewrite Hi in Hv. }
  subst evs. assert (Z.to_nat nfds = 0%nat) as Hz by (unfold zlen in Hn; cbn in Hn; lia).
  cbn [obind]. rewrite Hz. erewrite M_bind_done by reflexivity.
  exists (λ y, set_os o (set_loops (insert l x2) (set_loops (insert l (set_pools QAway x)) y))), pq'.
  split; [reflexivity|]. split; [done|]. split; [|split; [exact (eq_trans Ho Hi)|]].
  - unfold set_os, set_loops. cbn. by rewrite insert_insert_eq.
  - intros tv Hs Hl1. specialize (Hsince tv Hs Hi ltac:(lia)). rewrite <- (Hone Hl1), Eo in Hsince. rewrite Hone in Hsince by done.
    destruct Hsince as [_ Hsince]. rewrite Z.mul_1_l in Hsince. exact Hsince.
Qed.

(** ** Turns *)

(** A loop that is about to take a turn. *)
Record waiting qa w (x : pitcher_loop_t Q) (nd : pitcher_loop_node) (t : pitcher_timer_task) : Prop := {
  wt_view : view w x nd t;
  wt_timer : context_timer nd t;
  wt_running : lp_running x = 1 ∧ lp_timeout x = 1;
  wt_tasks : ∃ ta tq, lp_tasks x = QHere ta tq ∧ holds tq [node];
  wt_pools : ∃ pa pq, lp_pools x = QHere pa pq ∧ holds pq [];
  wt_going : going qa w w
}.

(** Its timer is due. *)
Definition due w (nd : pitcher_loop_node) : Prop := NSEC_PER_MSEC ≤ u64 (clock w - n_tv nd).

Lemma due_delta w nd : due w nd → 1 ≤ delta (clock w) nd.
Proof. unfold due, delta. intros Hd. apply Z.div_le_lower_bound; [done|]. by rewrite Z.mul_1_r. Qed.

Lemma pre_going qa w x nd t : going qa w w → view w x nd t →
  ∃ f, __pre_process l w = Done (RET_OK, on_loops f w) ∧ going qa (on_loops f w) (on_loops f w) ∧
    view (on_loops f w) (set_clock (lp_timeout x) (clock w) x) nd t ∧ os_since (clock w) (ls_os (lps (on_loops f w))).
Proof.
  intros Hg Hv. destruct (pre_ok w x nd t Hv) as (f & E & Hv1 & Hs). exists f. split; [done|]. split; [|done].
  destruct (go_context _ _ _ Hg) as (q & Hx & Hq). apply going_at with q; [|done|by apply (sa_fit units_ok), Hg|apply Hg].
  eapply view_context; [done|done|apply (vw_loop _ _ _ _ Hv1)|done].
Qed.

(** The end of a turn of a pipeline that goes on: the loop has waited. *)
Lemma wait_going qa w x nd t ta tq pa pq tv : view w x nd t → context_timer nd t → going qa w w →
  lp_running x = 1 → lp_timeout x = 1 → lp_left_time x = 1 → lp_tasks x = QHere ta tq → holds tq [node] →
  lp_pools x = QHere pa pq → holds pq [] → os_since tv (ls_os (lps w)) → n_tv nd = tv →
  ∃ f x', __process_poll poll_of l w = Done (RET_OK, on_loops f w) ∧ waiting qa (on_loops f w) x' nd t ∧ due (on_loops f w) nd.
Proof.
  intros Hv Hn Hg Hr Hto Hl Ht Htq Hp Hpq Hs Htv.
  destruct (poll_phase w x pa pq (vw_loop _ _ _ _ Hv) Hp Hpq (vw_interest _ _ _ _ Hv)) as (f & pq' & E & Hpq' & Ef & Hi & Hdue).
  exists f, (set_pools (QHere pa pq') x). split; [done|].
  assert (Hv' : view (on_loops f w) (set_pools (QHere pa pq') x) nd t).
  { destruct Hv as [V1 V2 V3 V4]. split; change (lps (on_loops f w)) with (f (lps w)); [rewrite Ef..|exact Hi].
    - apply lookup_insert_eq.
    - exact V2.
    - exact V3. }
  split; [|unfold due; rewrite Htv; by apply Hdue]. split; [done|done|done|by exists ta, tq|by exists pa, pq'|].
  destruct (go_context _ _ _ Hg) as (q & Hx & Hq). apply going_at with q; [|done|by apply (sa_fit units_ok), Hg|apply Hg].
  eapply view_context; [done|done|apply (vw_loop _ _ _ _ Hv')|done].
Qed.

Lemma turn_ok qa w x nd t : waiting qa w x nd t → acyclic ps → zlen cs < 2 ^ 32 →
  ∃ w', loop_turn task_of poll_of l w = Done (tt, w') ∧
    ((∃ x', all_stopped w' ∧ ls_loops (lps w') !! l = Some x' ∧ lp_running x' = 0) ∨
     (∃ x' nd', waiting qa w' x' nd' t ∧ due w' nd' ∧ (total w' ≤ total w)%nat ∧ (due w nd → (total w' < total w)%nat))).
Proof.
  intros [Hv Hn [Hr1 Hr2] (ta & tq & Ht & Htq) (pa & pq & Hp & Hpq) Hg] Hac Hlen. unfold loop_turn.
  destruct (pre_going qa w x nd t Hg Hv) as (f & E1 & Hg1 & Hv1 & Hs1). mstep E1. set (w1 := on_loops f w) in *.
  set (x1 := set_clock (lp_timeout x) (clock w) x) in *.
  destruct (timer_phase qa w1 x1 nd t ta tq Hv1 Hn Hr2 Ht Htq Hg1 Hac Hlen) as (w2 & E2 & Hcase). mstep E2.
  destruct Hcase as [(x2 & [A1 A2 A3 A4] & Hp2)|(tq' & Htq' & Hv2 & Hg2 & Htot)].
  - destruct (poll_phase w2 x2 pa pq A2 (eq_trans Hp2 Hp) Hpq A4) as (g & pq' & E3 & _ & Eg & _). mstep E3.
    eexists. split; [reflexivity|]. left. exists (set_pools (QHere pa pq') x2). split_and!; [exact A1| |done].
    change (lps (on_loops g w2)) with (g (lps w2)). rewrite Eg. apply lookup_insert_eq.
  - assert (Hn' : context_timer (seen (clock w) nd) t) by (destruct Hn as (N1 & N2 & N3 & N4 & N5); by split_and!).
    destruct (wait_going qa w2 _ _ t ta tq' pa pq (clock w) Hv2 Hn' (going_self _ _ _ Hg2) Hr1 Hr2 Hr2 eq_refl Htq' Hp Hpq
      (go_since _ _ _ Hg2 _ Hs1) eq_refl) as (g & x3 & E3 & Hw3 & Hd3).
    mstep E3. eexists. split; [reflexivity|]. right. exists x3, (seen (clock w) nd). pose proof (go_total _ _ _ Hg2) as Hle.
    unfold w1 in Htot, Hle. rewrite total_loops in Htot, Hle. rewrite total_loops.
    split; [done|]. split; [done|]. split; [done|]. intros Hd. apply Htot. by apply due_delta.
Qed.

(** Turn after turn, each with less left to do. *)
Lemma due_turns qa n : ∀ w x nd t, waiting qa w x nd t → due w nd → acyclic ps → zlen cs < 2 ^ 32 → (total w < n)%nat →
  ∃ w' x', loop_turns task_of poll_of n l w = Done (tt, w') ∧ all_stopped w' ∧
    ls_loops (lps w') !! l = Some x' ∧ lp_running x' = 0.
Proof.
  induction n as [|n IH]; intros w x nd t Hw Hd Hac Hlen Hn; [lia|]. cbn [loop_turns].
  mstep (load_loop_ok l w x l_nonnull (vw_loop _ _ _ _ (wt_view _ _ _ _ _ Hw))).
  rewrite (proj1 (wt_running _ _ _ _ _ Hw)). cbn [Z.eqb].
  destruct (turn_ok qa w x nd t Hw Hac Hlen) as (w1 & E & [(x1 & Hs & Hl1 & Hr)|(x1 & nd1 & Hw1 & Hd1 & Hle & Hlt)]); mstep E.
  - exists w1, x1. split; [|done]. destruct n; cbn [loop_turns]; mstep (load_loop_ok l w1 x1 l_nonnull Hl1); by rewrite Hr.
  - apply (IH w1 x1 nd1 t Hw1 Hd1 Hac Hlen). specialize (Hlt Hd). lia.
Qed.

Lemma loop_turns_ok qa n w x nd t : waiting qa w x nd t → acyclic ps → zlen cs < 2 ^ 32 → (S (total w) < n)%nat →
  ∃ w' x', loop_turns task_of poll_of n l w = Done (tt, w') ∧ all_stopped w' ∧
    ls_loops (lps w') !! l = Some x' ∧ lp_running x' = 0.
Proof.
  intros Hw Hac Hlen Hn. destruct n as [|n]; [lia|]. cbn [loop_turns].
  mstep (load_loop_ok l w x l_nonnull (vw_loop _ _ _ _ (wt_view _ _ _ _ _ Hw))).
  rewrite (proj1 (wt_running _ _ _ _ _ Hw)). cbn [Z.eqb].
  destruct (turn_ok qa w x nd t Hw Hac Hlen) as (w1 & E & [(x1 & Hs & Hl1 & Hr)|(x1 & nd1 & Hw1 & Hd1 & Hle & Hlt)]); mstep E.
  - exists w1, x1. split; [|done]. destruct n; cbn [loop_turns]; mstep (load_loop_ok l w1 x1 l_nonnull Hl1); by rewrite Hr.
  - apply (due_turns qa n w1 x1 nd1 t Hw1 Hd1 Hac Hlen). lia.
Qed.

(** Entering the loop: the thread's number is noted. *)
Lemma enter_ok qa w x nd t : waiting qa w x nd t →
  ∃ f tid, (_ ← assert_loop l; tid ← sys os_gettid; _ ← change_loop l (set_tid tid); sys (λ o, (tt, os_usleep 1000 o))) w =
      Done (tt, on_loops f w) ∧ waiting qa (on_loops f w) (set_tid tid x) nd t.
Proof.
  intros [Hv Hn Hr Ht Hp Hg]. destruct (go_context _ _ _ Hg) as (q & Hx & Hq). pose proof Hv as [V1 V2 V3 V4].
  destruct (cx_loop _ _ _ _ _ _ Hx) as (x0 & Hx0 & Hfd). unfold lps in V1. assert (x0 = x) as -> by congruence.
  unfold assert_loop. erewrite M_bind_done.
  2:{ mstep (load_loop_ok l w x l_nonnull V1). erewrite M_bind_done by (rewrite (proj2 (Z.leb_le _ _) Hfd); reflexivity). reflexivity. }
  rewrite M_bind_eq. pose proof (gettid_ok (ls_os (lps w)) (lp_epoll_fd x)) as Hgt.
  change (sys os_gettid w) with (let (tid, o) := os_gettid (ls_os (lps w)) in Done (tid, on_loops (set_os o) w)).
  destruct (os_gettid (ls_os (lps w))) as [tid o]. cbn [obind snd] in *.
  mstep (loop_changes (on_loops (set_os o) w) x (set_tid tid) V1).
  pose proof (usleep_ok 1000 o (lp_epoll_fd x)) as Hus.
  exists (λ y, set_os (os_usleep 1000 o) (set_loops (insert l (set_tid tid x)) (set_os o y))), tid. split; [reflexivity|].
  set (w1 := on_loops _ w). assert (Hv1 : view w1 (set_tid tid x) nd t).
  { split; [apply lookup_insert_eq|exact V2|exact V3|]. cbn. by rewrite Hus, Hgt. }
  split; try done. apply going_at with q; [|done|by apply (sa_fit units_ok), Hg|apply Hg].
  eapply view_context; [done|exact Hv|apply (vw_loop _ _ _ _ Hv1)|done].
Qed.

(** C12: pitcher_run returns.  A loop whose only work is the timer task of a
    context, on a system that waits as long as it is told; the context's pipes
    form no cycle, its units do not block each other and leave the loop alone.
    Then pitcher_run needs at most two turns more than there is work left and
    states to go through: it returns RET_OK, all channels have stopped, and the
    loop is not running. *)
Theorem run_drains qa fuel w x nd t : waiting qa w x nd t → acyclic ps → zlen cs < 2 ^ 32 → (S (total w) < fuel)%nat →
  ∃ w', pitcher_run call_plane call_recycle call_stop call_check_ready call_runfunc other_task other_poll fuel c w =
    Done (RET_OK, w') ∧ drained l cs w'.
Proof.
  intros Hw Hac Hlen Hn. destruct (go_context _ _ _ (wt_going _ _ _ _ _ Hw)) as (q & Hx & Hq).
  destruct (context_load _ _ _ _ _ _ Hx) as (k & Ek & _ & Hkr & Hkl & _).
  destruct (enter_ok qa w x nd t Hw) as (f & tid & E1 & Hw1).
  assert (Hn1 : (S (total (on_loops f w)) < fuel)%nat) by by rewrite total_loops.
  destruct (loop_turns_ok qa fuel _ _ nd t Hw1 Hac Hlen Hn1) as (w2 & x2 & E2 & Hs & Hl2 & Hr2).
  eexists. split.
  - unfold pitcher_run. mstep Ek. rewrite Hkl, Hkr, (proj2 (Z.eqb_neq l 0) l_nonnull). cbn [orb is_null].
    unfold pitcher_loop_run. apply M_bind_inv in E1 as (? & ? & F1 & E1). apply M_bind_inv in E1 as (? & ? & F2 & E1).
    apply M_bind_inv in E1 as (? & ? & F3 & F4). mstep F1. mstep F2. mstep F3. mstep F4. mstep E2. mstep (loop_changes w2 x2 (set_tid 0) Hl2). reflexivity.
  - split; [exact Hs|]. exists (set_tid 0 x2). split; [apply lookup_insert_eq|exact Hr2].
Qed.
End run.

(** ** An instance

    The source and the sink of Drain, in a loop at 2 with the node 50. *)
#[export] Program Instance flat_patient : PatientOs flat_os := {
  os_since tv o := ∃ k, tv = u64 k ∧ k ≤ fo_clock o < k + 2 ^ 62
}.
Next Obligation. intros o. exists (fo_clock o). split; [done|]. cbn. unfold NSEC_PER_MSEC. lia. Qed.
Next Obligation.
  intros tv o e n t (k & -> & Hk) Hi Ht. cbn in Hi |- *. rewrite Hi, map_to_list_empty. cbn. split; [lia|].
  unfold u64. rewrite <- Zminus_mod. unfold NSEC_PER_MSEC in *. rewrite Z.mod_small; lia.
Qed.

#[local] Existing Instance list_queue_ops.
#[local] Existing Instance list_queue_spec.

Definition run_loops : loops (list Z) flat_os :=
  Loops {[2 := LoopT 6 1 (QHere 44 []) (QHere 43 [50]) 1 0 0 0]} {[50 := LoopNode 1 0 1 (-1) 2]}
    {[1 := TimerTask TIMER_FUNC 0 1 (-1)]} ∅ (FlatOs 0 7 ∅).
Definition run_world : ex_state :=
  World (Mem {[1; 2; 10; 11; 20; 21; 30; 40; 41; 42; 43; 44; 50]} 0 0) ∅ (w_env (on_loops (λ _, run_loops) ex_world)).

Lemma ex_standalone : Standalone ex_plane ex_recycle ex_stop ex_check ex_run 50 ex_cs ex_fit frames ex_able.
Proof.
  split.
  - exact ex_draining.
  - intros a u w e w' [[= -> ->]|[[= -> ->]|[]%elem_of_nil]%elem_of_cons]%elem_of_cons Hf Hs E.
    + destruct (ex_turn_source w Hf Hs) as (e' & E' & _). rewrite E in E'. injection E' as _ ->. by apply quiet_eq.
    + destruct (ex_turn_sink w Hf) as (e' & E' & _). rewrite E in E'. injection E' as _ ->. apply stays_refl.
  - intros a u w e w' [[= -> ->]|[[= -> ->]|[]%elem_of_nil]%elem_of_cons]%elem_of_cons Hf Hs E.
    + destruct (ex_stop_source w Hf Hs) as (w2 & E' & _ & _ & _ & Hc & Hm). rewrite E in E'. injection E' as _ ->.
      apply quiet_eq; [unfold lps; by rewrite Hc|by rewrite Hm].
    + destruct (ex_stop_sink w Hf) as (w2 & E' & _ & _ & _ & Hc & Hm). rewrite E in E'. injection E' as _ ->.
      apply quiet_eq; [unfold lps; by rewrite Hc|by rewrite Hm].
  - intros f w Hf. exact Hf.
  - by intros f w.
Qed.

Lemma run_waiting : waiting 1 2 50 ex_cs ex_ps ex_fit frames 42 run_world
  (LoopT 6 1 (QHere 44 []) (QHere 43 [50]) 1 0 0 0) (LoopNode 1 0 1 (-1) 2) (TimerTask TIMER_FUNC 0 1 (-1)).
Proof.
  split.
  - by split.
  - by split_and!.
  - done.
  - by exists 43, [50].
  - by exists 44, [].
  - apply going_at with [20; 21].
    + destruct ex_context as [C1 C2 C3 C4 C5 (mem & [G1 G2 G3] & Hm) _]. split; try done.
      * exists mem. by split.
      * by exists (LoopT 6 1 (QHere 44 []) (QHere 43 [50]) 1 0 0 0).
    + done.
    + by exists true, true.
    + by apply (bool_decide_unpack _).
Qed.

Definition no_task (f t : Z) : M ex_state Z := mret 0.
Definition no_poll (f p events : Z) : M ex_state Z := mret 0.

Lemma run_drains_witness :
  ∃ w', pitcher_run ex_plane ex_recycle ex_stop ex_check ex_run no_task no_poll 9 1 run_world = Done (RET_OK, w') ∧
    drained 2 ex_cs w'.
Proof.
  apply (run_drains ex_plane ex_recycle ex_stop ex_check ex_run no_task no_poll 1 2 50 ex_cs ex_ps ex_fit frames ex_able
    ex_standalone ltac:(done) ltac:(done) ltac:(done) 42 9 run_world _ _ _ run_waiting ex_acyclic ltac:(done)).
  by vm_compute; lia.
Defined.
