(* ===== verification/Turns.v ===== *)
(** * A context's pipeline in a loop with descriptors

    What loop.c asks of its call-backs ([Loop.Callbacks]) is met by those of
    core.c: the timer task of a context and the function of its channels'
    descriptors, for units that keep their contract [Drain.Draining] and leave
    the loop alone.  So the turns of the loop call them as [Loop.passes] says,
    with any descriptors registered and any of them ready. *)

From S2P Require Import Prelude Dlist Queue Buffer Pipe Unit Loop Core Drain.

Section turns.
Context {Q O F : Type} `{QueueSpec Q} `{LoopOsSpec O}.
Abbreviation state := (world (pipes Q (units Q (cores Q O F)))).
Abbreviation SM := (M (world (pipes Q (units Q (cores Q O F))))).
Abbreviation live w := (m_live (w_mem w)).
Implicit Types (w : world (pipes Q (units Q (cores Q O F)))) (c l a u : Z).
Context (call_plane : Z → pitcher_buf_ref → Z → M (world (pipes Q (units Q (cores Q O F)))) (Z * pitcher_buf_ref)).
Context (call_recycle : Z → Z → M (world (pipes Q (units Q (cores Q O F)))) bool).
Context (call_stop : Z → Z → M (world (pipes Q (units Q (cores Q O F)))) Z).
Context (call_check_ready : Z → Z → M (world (pipes Q (units Q (cores Q O F)))) (Z * Z)).
Context (call_runfunc : Z → Z → Z → M (world (pipes Q (units Q (cores Q O F)))) Z).
Context (other_task : Z → Z → M (world (pipes Q (units Q (cores Q O F)))) Z).
Context (other_poll : Z → Z → Z → M (world (pipes Q (units Q (cores Q O F)))) Z).
Abbreviation turn := (turn call_plane call_recycle call_check_ready call_runfunc).
Abbreviation stop := (unit_stop call_plane call_recycle call_stop).
Abbreviation timer_func := (Core.__timer_func call_plane call_recycle call_stop call_check_ready call_runfunc).
Abbreviation poll_func := (Core.__poll_func call_plane call_recycle call_stop call_check_ready call_runfunc).
Abbreviation task_of := (call_task call_plane call_recycle call_stop call_check_ready call_runfunc other_task).
Abbreviation poll_of := (call_poll call_plane call_recycle call_stop call_check_ready call_runfunc other_poll).

Abbreviation lps w := (co_loops (cores_of w)).

(** What the units leave of the loops: all but the system's own state, where
    the registered descriptors stay. *)
Record tame w w' : Prop := {
  tm_loops : ls_loops (lps w') = ls_loops (lps w);
  tm_nodes : ls_nodes (lps w') = ls_nodes (lps w);
  tm_tasks : ls_tasks (lps w') = ls_tasks (lps w);
  tm_pfds : ls_pfds (lps w') = ls_pfds (lps w);
  tm_interest e : os_interest e (ls_os (lps w')) = os_interest e (ls_os (lps w));
  tm_live i : is_Some (ls_nodes (lps w) !! i) → i ∈ live w → i ∈ live w'
}.

Lemma tame_refl w : tame w w.
Proof. by split. Qed.
Lemma tame_trans w1 w2 w3 : tame w1 w2 → tame w2 w3 → tame w1 w3.
Proof.
  intros [A1 A2 A3 A4 A5 A6] [B1 B2 B3 B4 B5 B6]. split; try congruence.
  intros i Hi Hl. apply B6; [by rewrite A2|auto].
Qed.
Lemma tame_eq w w' : lps w' = lps w → live w' = live w → tame w w'.
Proof. intros E1 E2. split; rewrite ?E1, ?E2; auto. Qed.

(** The loop's contents are not touched. *)
Lemma tame_contents w w' l x ts es : tame w w' → contents w l x ts es → contents w' l x ts es.
Proof.
  intros [A1 A2 A3 A4 A5 A6] [C1 C2 C3 C4 C5 C6 C7].
  assert (Hn : ∀ e, node_ok w e → node_ok w' e).
  { intros e (N1 & N2 & N3 & N4). split_and!; [done| | |done].
    - change (ls_nodes (lps w') !! e.1 = Some e.2). by rewrite A2.
    - apply A6; [by eexists|done]. }
  split; [done| | | |done|done|].
  - change (ls_loops (lps w') !! l = Some x). by rewrite A1.
  - apply (Forall_impl _ _ _ C3). intros e [N (t & Ht & Hf)]. split; [auto|]. exists t. split; [|done].
    change (ls_tasks (lps w') !! n_key e.2 = Some t). by rewrite A3.
  - apply (Forall_impl _ _ _ C4). intros e (N & Hl & t & Ht & Hf). split_and!; [auto|done|]. exists t. split; [|done].
    change (ls_pfds (lps w') !! n_key e.2 = Some t). by rewrite A4.
  - intros fd v. change (loops_of w') with (lps w'). rewrite A5, A4. exact (C7 fd v).
Qed.

(** ** Units in a loop *)

Context (c l : Z) (cs : list (Z * Z)) (ps : list (Z * (Z * Z))).
Context (fit : world (pipes Q (units Q (cores Q O F))) → Prop).
Context (work : world (pipes Q (units Q (cores Q O F))) → nat).
Context (able : Z → world (pipes Q (units Q (cores Q O F))) → Prop).

(** Units that do not block each other and leave the loop alone; they are not
    affected by what the loop does. *)
Record Guests : Prop := {
  gu_draining : Draining call_plane call_recycle call_stop call_check_ready call_runfunc cs fit work able;
  gu_turn a u w e w' : (a, u) ∈ cs → fit w → status w a = PITCHER_STATE_ACTIVE → turn u w = Done (e, w') → tame w w';
  gu_stop a u w e w' : (a, u) ∈ cs → fit w → status w a = PITCHER_STATE_STOPPING → stop u w = Done (e, w') → tame w w';
  gu_fit w w' : own w w' → fit w → fit w';
  gu_work w w' : own w w' → work w' = work w
}.
Context (units_ok : Guests).

(** The units still keep their contract when what they leave is remembered. *)
Lemma tame_draining w0 : Draining call_plane call_recycle call_stop call_check_ready call_runfunc cs
  (λ w, fit w ∧ tame w0 w) work able.
Proof.
  destruct units_ok as [[D1 D2 D3 D4 D5 D6] S1 S2 _ _]. split.
  - intros a u w Ha [Hf Hq] Hs. destruct (D1 a u w Ha Hf Hs) as (e & w' & E & Hf' & Hc & Hrest).
    exists e, w'. split; [done|]. split; [split; [done|]|by split].
    apply tame_trans with w; [done|]. by apply (S1 a u w e).
  - intros a u w Ha [Hf Hq] Hs. destruct (D2 a u w Ha Hf Hs) as (e & w' & E & Hf' & Hc & Hrest).
    exists e, w'. split; [done|]. split; [split; [done|]|by split].
    apply tame_trans with w; [done|]. by apply (S2 a u w e).
  - intros w a u [Hf _]. by apply D3.
  - intros f w Hb Hs [Hf Hq]. split; [by apply D4|]. apply tame_trans with w; [done|].
    apply tame_eq; [|done]. exact (proj2 (Hb _)).
  - exact D5.
  - exact D6.
Qed.

Abbreviation total := (total cs work).
Definition all_stopped w : Prop := ∀ e, e ∈ cs → status w e.1 = PITCHER_STATE_STOPPED.

(** The context in its loop: the one task is the context's, the descriptors are
    those of its channels. *)
Record inside w : Prop := {
  in_context : ∃ a q, context_ok c l cs ps (QHere a q) w ∧ holds q cs.*1;
  in_fit : fit w;
  in_tasks t tk : ls_tasks (lps w) !! t = Some tk → tt_func tk ≠ 0 → tt_func tk = TIMER_FUNC ∧ t = c;
  in_pfds p pf : ls_pfds (lps w) !! p = Some pf → pf_func pf ≠ 0 → pf_func pf = POLL_FUNC ∧ p ∈ cs.*1
}.

Lemma own_context r w w' : own w w' → context_ok c l cs ps r w → context_ok c l cs ps r w'.
Proof.
  intros [(y & Hy) _ _ Hl _ Hp _ _ _] [C1 C2 C3 C4 C5 (mem & [G1 G2 G3] & Hm) (x & Hx & Hfd)].
  assert (E1 : co_cores (cores_of w') = co_cores (cores_of w)) by (unfold cores_of; by rewrite Hy).
  assert (E2 : co_chns (cores_of w') = co_chns (cores_of w)) by (unfold cores_of; by rewrite Hy).
  assert (E3 : co_list (cores_of w') = co_list (cores_of w)) by (unfold cores_of; by rewrite Hy).
  assert (E4 : co_head (cores_of w') = co_head (cores_of w)) by (unfold cores_of; by rewrite Hy).
  split; [done|by rewrite E1|by rewrite E2|done| | |].
  - intros p s d Hin. unfold get_pipe. rewrite Hp. by apply C5.
  - exists mem. split; [|done]. split; [by rewrite E3, E4|by rewrite E2|by rewrite E2].
  - destruct (Hl l x Hx) as (x' & Hx' & He). exists x'. by rewrite He.
Qed.

Lemma own_status w w' a : own w w' → status w' a = status w a.
Proof. intros [(y & Hy) _ _ _ _ _ _ _ _]. unfold status, cores_of. by rewrite Hy. Qed.

Lemma own_inside w w' : own w w' → inside w → inside w'.
Proof.
  intros Ho [(a & q & Hx & Hq) Hf Ht Hp]. split.
  - exists a, q. split; [by eapply own_context|done].
  - by eapply (gu_fit units_ok).
  - by rewrite (own_tasks _ _ Ho : ls_tasks (lps w') = ls_tasks (lps w)).
  - by rewrite (own_pfds _ _ Ho : ls_pfds (lps w') = ls_pfds (lps w)).
Qed.

Lemma tame_inside w w' : tame w w' → (∃ a q, context_ok c l cs ps (QHere a q) w' ∧ holds q cs.*1) → fit w' →
  inside w → inside w'.
Proof. intros Ht Hx Hf [_ _ I1 I2]. split; [done|done|by rewrite (tm_tasks _ _ Ht)|by rewrite (tm_pfds _ _ Ht)]. Qed.

(** ** The call-backs of core.c *)

Context (few : zlen cs < 2 ^ 32).

Lemma total_own w w' : own w w' → total w' = total w.
Proof.
  intros Ho. unfold Drain.total. rewrite (gu_work units_ok w w' Ho). f_equal. generalize cs.
  intros es. induction es as [|e es IH]; cbn; [done|]. by rewrite (own_status w w' e.1 Ho), IH.
Qed.

(** The timer task: all have stopped and the loop is told to, or the context
    goes on; with pipes that form no cycle there is less to do then. *)
Lemma timer_call_ok w : inside w →
  (∃ w1 w' x o, timer_func c w = Done (1, w') ∧ w' = on_loops (λ y, set_os o (set_loops (insert l (set_running 0 x)) y)) w1 ∧
     all_stopped w1 ∧ tame w w1 ∧ inside w1 ∧ below work w w1 ∧ ls_loops (lps w1) !! l = Some x ∧
     (∀ e, os_interest e o = os_interest e (ls_os (lps w1)))) ∨
  (∃ w', timer_func c w = Done (0, w') ∧ tame w w' ∧ inside w' ∧ below work w w' ∧
     (acyclic ps → (total w' < total w)%nat)).
Proof.
  intros Hin. pose proof Hin as [(qa & q & Hx & Hq) Hf _ _].
  destruct (all_turns _ _ _ _ _ c l cs ps _ _ _ (tame_draining w) qa q w Hx Hq (conj Hf (tame_refl w)) few)
    as (n & q' & w1 & E1 & Hq' & Hp).
  unfold Core.__timer_func. pose proof (pa_context _ _ _ _ _ _ _ _ _ _ _ _ _ Hp) as Hx1.
  destruct (pa_fit _ _ _ _ _ _ _ _ _ _ _ _ _ Hp) as [Hf1 Hq1].
  assert (Hin1 : inside w1) by (apply (tame_inside w); [done|by exists qa, q'|done|done]).
  pose proof (pa_below _ _ _ _ _ _ _ _ _ _ _ _ _ Hp) as Hb. destruct (Z.eqb_spec n 0) as [->|Hn].
  - left. destruct (context_load _ _ _ _ _ _ Hx1) as (k & Ek & _ & _ & Hkl & _).
    destruct (cx_loop _ _ _ _ _ _ Hx1) as (x & Hl & Hfd).
    destruct (loop_stop_ok l w1 x (proj2 (cx_nonnull _ _ _ _ _ _ Hx)) Hl Hfd) as (o & Es & Ho).
    eexists w1, _, x, o. split; [mstep E1; rewrite Z.eqb_refl; mstep Ek; rewrite Hkl; mstep Es; reflexivity|].
    split; [done|]. split; [intros e He; exact (pa_none _ _ _ _ _ _ _ _ _ _ _ _ _ Hp e eq_refl He)|].
    split_and!; try done. intros e. apply (Ho (λ o, os_interest e o = os_interest e (ls_os (lps w1)))); [done| |].
    + intros o' <-. apply gettid_ok.
    + intros t s o' <-. apply kill_ok.
  - right. exists w1. split_and!; try done; [mstep E1; by rewrite (proj2 (Z.eqb_neq n 0))|]. intros Hac.
    destruct (pa_some _ _ _ _ _ _ _ _ _ _ _ _ _ Hp Hn) as (e & He & Hs).
    destruct (ripe_exists _ _ _ _ _ c l cs ps _ _ _ (tame_draining w) _ w e Hac Hx (conj Hf (tame_refl w)) He Hs)
      as (m & Hm & Hr).
    eapply total_less; [exact Hx1|done|]. exact (pa_ripe _ _ _ _ _ _ _ _ _ _ _ _ _ Hp m Hm Hr).
Qed.

(** What follows a channel's turn when its descriptor has an error. *)
Lemma mark_error_ok w a u : inside w → (a, u) ∈ cs →
  ∃ f, change_chn a (set_error 1) w = Done (tt, on_cores (set_chns f) w) ∧ inside (on_cores (set_chns f) w) ∧
    ∀ b, status (on_cores (set_chns f) w) b = status w b.
Proof.
  intros [(qa & q & Hx & Hq) Hf I1 I2] Ha. destruct (cx_chns _ _ _ _ _ _ Hx a u Ha) as (Hna & x & Hl & Hu & Hc & Hs).
  exists (insert a (set_error 1 x)). split; [unfold change_chn; by mstep (load_chn_ok _ _ _ Hl)|].
  assert (Hst : ∀ b, status (on_cores (set_chns (insert a (set_error 1 x))) w) b = status w b).
  { intros b. unfold status. cbn. destruct (decide (b = a)) as [->|]; [by rewrite lookup_insert_eq, Hl|by rewrite lookup_insert_ne]. }
  split; [|done]. split; [|apply (dr_fit _ _ _ _ _ _ _ _ _ (gu_draining units_ok)); [done|by left|done]|done|done].
  exists qa, q. split; [|done]. destruct Hx as [Hn Hcore Hch Hd Hp (mem & Hg & Hm) Hlo]. split; try done.
  - intros b v Hb. cbn. destruct (decide (b = a)) as [->|Hne].
    + rewrite lookup_insert_eq. destruct (Hch a v Hb) as (_ & y & Hy & Hv & Hcy & Hsy).
      assert (y = x) as -> by congruence. split; [done|]. by exists (set_error 1 x).
    + rewrite lookup_insert_ne by done. by apply Hch.
  - exists mem. split; [|done]. by apply chn_registered with x.
Qed.

(** A channel's turn, with the context as it was. *)
Lemma channel_turn_ok w a u : inside w → (a, u) ∈ cs →
  ∃ w', __process_chn_run call_plane call_recycle call_stop call_check_ready call_runfunc a w = Done (RET_OK, w') ∧
    tame w w' ∧ inside w' ∧ below work w w'.
Proof.
  intros Hin Ha. pose proof Hin as [(qa & q & Hx & Hq) Hf _ _].
  destruct (process_chn_run_ok _ _ _ _ _ c l cs ps _ _ _ (tame_draining w) (QHere qa q) a u w Hx (conj Hf (tame_refl w)) Ha ltac:(done))
    as (w' & E1 & Hs).
  destruct (st_fit _ _ _ _ _ _ _ _ _ _ _ _ Hs) as [Hf' Ht]. pose proof (st_context _ _ _ _ _ _ _ _ _ _ _ _ Hs) as Hx'.
  exists w'. split; [done|]. split; [done|]. split; [apply (tame_inside w); [done|by exists qa, q|done|done]|].
  by eapply stepped_below.
Qed.

(** The function of a channel's descriptor. *)
Lemma poll_call_ok w p ev : inside w → p ∈ cs.*1 → is_Some (ls_pfds (lps w) !! p) →
  ∃ d w', poll_func p ev w = Done (d, w') ∧ tame w w' ∧ inside w' ∧ below work w w'.
Proof.
  intros Hin ([a u] & -> & Ha)%list_elem_of_fmap_1 [pf Hpf]. cbn [fst] in *.
  assert (Hload : ∀ w, inside w → ∃ x, co_chns (cores_of w) !! a = Some x ∧ a ≠ 0).
  { intros w0 [(qa & q & Hx & _) _ _ _]. destruct (cx_chns _ _ _ _ _ _ Hx a u Ha) as (Hna & x & Hl & _). eauto. }
  destruct (Hload w Hin) as (x & Hx & Hna). unfold Core.__poll_func.
  erewrite M_bind_done by (rewrite (proj2 (Z.eqb_neq a 0) Hna); reflexivity). mstep (load_chn_ok _ _ _ Hx).
  assert (Hend : ∀ w1, inside w1 → ∃ d, (x ← load_chn a; mret (if ch_state x =? PITCHER_STATE_STOPPED then 1 else 0)) w1 = Done (d, w1)).
  { intros w1 Hin1. destruct (Hload w1 Hin1) as (y & Hy & _). eexists. by mstep (load_chn_ok _ _ _ Hy). }
  destruct (ch_state x =? PITCHER_STATE_STOPPED).
  { destruct (Hend w Hin) as (d & E1). exists d, w. erewrite M_bind_done by reflexivity. split_and!; [done|apply tame_refl|done|by split]. }
  assert (Hrun : ∃ r w1, (if negb (Z.land (pf_events pf) ev =? 0) || (ev =? 0)
      then __process_chn_run call_plane call_recycle call_stop call_check_ready call_runfunc a else mret 0) w = Done (r, w1) ∧
    tame w w1 ∧ inside w1 ∧ below work w w1).
  { destruct (_ || _).
    - destruct (channel_turn_ok w a u Hin Ha) as (w1 & E1 & H1). by exists RET_OK, w1.
    - exists 0, w. split_and!; [done|apply tame_refl|done|by split]. }
  destruct Hrun as (r & w1 & E1 & Ht1 & Hin1 & Hb1). destruct (Hload w1 Hin1) as (y & Hy & _).
  assert (Hmark : ∃ w2, (if negb (Z.land ev POLLERR =? 0) && (ch_state y =? PITCHER_STATE_ACTIVE) && (ch_ignore_pollerr y =? 0)
      then change_chn a (set_error 1) else mret tt) w1 = Done (tt, w2) ∧ tame w w2 ∧ inside w2 ∧ below work w w2).
  { destruct (_ && _); [|by exists w1].
    destruct (mark_error_ok w1 a u Hin1 Ha) as (f & E2 & Hin2 & Hs2). eexists. split; [exact E2|].
    split; [apply tame_trans with w1; [done|by apply tame_eq]|]. split; [done|].
    apply below_trans with w1; [done|]. split; [intros b; by rewrite Hs2|].
    by rewrite (dr_work _ _ _ _ _ _ _ _ _ (gu_draining units_ok)). }
  destruct Hmark as (w2 & E2 & Ht2 & Hin2 & Hb2). destruct (Hend w2 Hin2) as (d & E3). exists d, w2. split; [|done].
  erewrite M_bind_done; [exact E3|]. erewrite M_bind_done; [|unfold load_pfd; change (loops_of w) with (lps w); rewrite Hpf; reflexivity].
  mstep E1. mstep (load_chn_ok _ _ _ Hy). exact E2.
Qed.

Lemma stopped_contents w x es ts o : contents w l x ts es →
  (∀ e, os_interest e o = os_interest e (ls_os (lps w))) →
  contents (on_loops (λ y, set_os o (set_loops (insert l (set_running 0 x)) y)) w) l (set_running 0 x) ts es.
Proof.
  intros Hc Ho. pose proof (set_loop_contents w l x (set_running 0 x) ts es Hc eq_refl) as Hc1.
  exact (set_os_contents _ l _ ts es o Hc1 (Ho _)).
Qed.

Lemma stop_own w x o : ls_loops (lps w) !! l = Some x →
  own w (on_loops (λ y, set_os o (set_loops (insert l (set_running 0 x)) y)) w).
Proof.
  intros Hx. eapply own_trans; [exact (own_loop l x (set_running 0 x) w Hx eq_refl)|]. exact (own_os o _).
Qed.

(** What happens in a call, as far as the pipeline is concerned. *)
Lemma task_call_ok w t tk : inside w → ls_tasks (lps w) !! t = Some tk → tt_func tk ≠ 0 →
  ∃ d w', task_of (tt_func tk) t w = Done (d, w') ∧ inside w' ∧ ls_tasks (lps w') = ls_tasks (lps w) ∧ below work w w' ∧
    (∀ x ts es, contents w l x ts es → ∃ r, contents w' l (set_running r x) ts es) ∧
    t = c ∧ (d = 0 ∨ d = 1 ∧ all_stopped w') ∧ (acyclic ps → d = 0 → (total w' < total w)%nat).
Proof.
  intros Hin Ht Hf. destruct (in_tasks _ Hin _ _ Ht Hf) as [Ef ->]. unfold call_task. rewrite Ef, Z.eqb_refl.
  destruct (timer_call_ok w Hin) as [(w1 & w' & x & o & E1 & -> & Hs & Hq & Hin1 & Hb & Hx & Ho)|(w' & E1 & Hq & Hin1 & Hb & Hp)].
  - pose proof (stop_own w1 x o Hx) as How. eexists 1, _. split; [exact E1|]. split; [by eapply own_inside|].
    split; [exact (tm_tasks _ _ Hq)|]. split; [split; [exact (proj1 Hb)|rewrite (gu_work units_ok _ _ How); exact (proj2 Hb)]|].
    split; [|split; [done|split; [right; split; [done|exact Hs]|done]]].
    intros x0 ts es Hc. exists 0. pose proof (tame_contents _ _ _ _ _ _ Hq Hc) as Hc1.
    pose proof (c_loop _ _ _ _ _ Hc1 : ls_loops (lps w1) !! l = Some x0) as Hx0. assert (x0 = x) as -> by congruence.
    by apply stopped_contents.
  - exists 0, w'. split; [done|]. split; [done|]. split; [exact (tm_tasks _ _ Hq)|]. split; [done|].
    split; [|split; [done|split; [by left|by intros Hac _; apply Hp]]].
    intros x ts es Hc. exists (lp_running x). rewrite set_running_id. by eapply tame_contents.
Qed.

Lemma poll_call_of w p pf ev : inside w → ls_pfds (lps w) !! p = Some pf → pf_func pf ≠ 0 →
  ∃ d w', poll_of (pf_func pf) p ev w = Done (d, w') ∧ tame w w' ∧ inside w' ∧ below work w w'.
Proof.
  intros Hin Hp Hf. destruct (in_pfds _ Hin _ _ Hp Hf) as [Ef Hcs]. unfold call_poll. rewrite Ef, Z.eqb_refl.
  apply poll_call_ok; [done|done|by eexists].
Qed.

(** core.c's functions are what loop.c asks for. *)
Lemma core_callbacks : Callbacks task_of poll_of l inside.
Proof.
  split.
  - intros w w' Ho. by apply own_inside.
  - intros w x ts es e t Hc Hin _ Ht Hf. destruct (task_call_ok w _ t Hin Ht Hf) as (d & w' & E1 & Hin' & Htk & _ & Hcont & _).
    destruct (Hcont _ _ _ Hc) as (r & Hc'). by exists d, w', r.
  - intros w x ts es e p ev Hc Hin _ Hp Hf. destruct (poll_call_of w _ p ev Hin Hp Hf) as (d & w' & E1 & Hq & Hin' & _).
    exists d, w', (lp_running x). rewrite set_running_id. split_and!; [done|by eapply tame_contents|exact (tm_tasks _ _ Hq)|done].
Qed.

(** The calls that leave a task registered. *)
Definition kept_calls (calls : list (Z * Z)) : nat := length (filter (λ e, e.2 = 0) calls).

Lemma below_stopped w w' : below work w w' → inside w' → all_stopped w → all_stopped w'.
Proof.
  intros [Hb _] Hin Hs [a u] He. pose proof (Hs _ He) as Ha. pose proof (Hb a) as Hba. cbn [fst] in *.
  destruct (in_context _ Hin) as (qa & q & Hx & _). pose proof (context_status _ _ _ _ _ _ _ _ Hx He).
  unfold PITCHER_STATE_STOPPED in *. lia.
Qed.

Lemma below_own w w' : own w w' → below work w w'.
Proof. intros Ho. split; [intros b; by rewrite (own_status w w')|by rewrite (gu_work units_ok w w' Ho)]. Qed.

Lemma below_total w w' : below work w w' → (total w' ≤ total w)%nat.
Proof. intros [Hb Hw]. unfold Drain.total. pose proof (sum_below w w' cs Hb). lia. Qed.

(** Over a stretch of the loop's way. *)
Lemma called_progress calls w w' : acyclic ps → called task_of poll_of calls w w' → inside w →
  inside w' ∧ below work w w' ∧ (kept_calls calls + total w' ≤ total w)%nat ∧
    ∀ t d, (t, d) ∈ calls → t = c ∧ (d = 0 ∨ d = 1 ∧ all_stopped w').
Proof.
  intros Hac Hk.
  induction Hk as [w|k w w1 w' Ho _ IH|k w w1 w' t tk d Ht Hf E1 _ IH|k w w1 w' p pf ev d Hp Hf E1 _ IH]; intros Hin.
  - split_and!; [done|by split|cbn; lia|]. by intros ? ? ?%elem_of_nil.
  - destruct (IH (own_inside _ _ Ho Hin)) as (Hin' & Hb & Hn & Hall).
    rewrite (total_own _ _ Ho) in Hn. split_and!; try done. eapply below_trans; [by apply below_own|done].
  - destruct (task_call_ok w t tk Hin Ht Hf) as (d' & w1' & E1' & Hin1 & _ & Hb1 & _ & -> & Hd & Hless).
    rewrite E1 in E1'. injection E1' as <- <-. destruct (IH Hin1) as (Hin' & Hb & Hn & Hall).
    split_and!; [done|by eapply below_trans| |].
    + pose proof (below_total _ _ Hb1). unfold kept_calls in *. rewrite filter_cons. cbn [snd].
      destruct (decide (d = 0)) as [E0|]; cbn [length]; [specialize (Hless Hac E0)|]; lia.
    + intros t d' [[= -> ->]|Hin2]%elem_of_cons; [|by apply Hall]. split; [done|].
      destruct Hd as [->|[-> Hs]]; [by left|right]. split; [done|]. by eapply below_stopped.
  - destruct (poll_call_of w p pf ev Hin Hp Hf) as (d' & w1' & E1' & _ & Hin1 & Hb1). rewrite E1 in E1'.
    injection E1' as <- <-. destruct (IH Hin1) as (Hin' & Hb & Hn & Hall). pose proof (below_total _ _ Hb1).
    split_and!; [done|by eapply below_trans|lia|done].
Qed.

(** C20: the loop of a pipeline, with descriptors.  A context with the timer task
    of core.c and the descriptors of its channels in a loop; its units do not
    block each other and leave the loop alone, its pipes form no cycle.  Whatever
    descriptors are ready, any number of turns can be made, and core.c's own
    functions are called as [passes] says; no channel ever goes back to an
    earlier state, the task goes on at most as many times as there is work left
    and states to go through, and when it asks to be deleted every channel has
    stopped. *)
Theorem core_turns n w x ts es :
  loop_ok w l x ts es → inside w → acyclic ps →
  ∃ tvs calls w' x' ts' es', length tvs = n ∧ turns task_of poll_of l tvs w w' ∧
    called task_of poll_of calls w w' ∧ passes (interval w) (lp_timeout x) tvs calls ts = Some (ts', []) ∧
    loop_ok w' l x' ts' es' ∧ inside w' ∧ (∀ b, status w' b ≤ status w b) ∧
    (kept_calls calls + total w' ≤ total w)%nat ∧ ∀ t d, (t, d) ∈ calls → t = c ∧ (d = 0 ∨ d = 1 ∧ all_stopped w').
Proof.
  intros Hok Hin Hac.
  destruct (turns_made _ _ l inside core_callbacks n w x ts es Hok Hin) as (tvs & calls & w' & x' & ts' & es' & Hn & Hr & [Hk _ _] & Hp & Hok').
  destruct (called_progress calls w w' Hac Hk Hin) as (Hin' & Hb & Hc & Hall).
  exists tvs, calls, w', x', ts', es'. split_and!; try done. apply Hb.
Qed.
End turns.

(** ** An instance

    The source and the sink of Drain, in a loop at 2 with the task's node 50;
    the source has the descriptor 9, with the node 51. *)
#[local] Existing Instance list_queue_ops.
#[local] Existing Instance list_queue_spec.

Definition turns_loop : pitcher_loop_t (list Z) := LoopT 6 1 (QHere 44 [51]) (QHere 43 [50]) 1 0 0 0.
Definition turns_timer : pitcher_loop_node := LoopNode 1 0 1 (-1) 2.
Definition turns_fd : pitcher_loop_node := LoopNode 20 0 1 0 2.
Definition turns_loops : loops (list Z) flat_os :=
  Loops {[2 := turns_loop]} {[50 := turns_timer; 51 := turns_fd]} {[1 := TimerTask TIMER_FUNC 0 1 (-1)]}
    {[20 := PollFd POLL_FUNC 9 1 1 0]} (FlatOs 0 7 {[6 := {[9 := (1, 51)]}]}).
Definition turns_world : ex_state :=
  World (Mem {[1; 2; 10; 11; 20; 21; 30; 40; 41; 42; 43; 44; 50; 51]} 0 0) ∅ (w_env (on_loops (λ _, turns_loops) ex_world)).

Lemma ex_own_fit (w w' : ex_state) : own w w' → ex_fit w → ex_fit w'.
Proof.
  intros Ho (e1 & e2 & HU & HP & Hs). exists e1, e2. rewrite (own_pipes _ _ Ho), (own_status w w' 20 Ho).
  destruct (own_rest _ _ Ho) as (y & ->). done.
Qed.

Lemma ex_guests : Guests ex_plane ex_recycle ex_stop ex_check ex_run ex_cs ex_fit frames ex_able.
Proof.
  split.
  - exact ex_draining.
  - intros a u w e w' [[= -> ->]|[[= -> ->]|[]%elem_of_nil]%elem_of_cons]%elem_of_cons Hf Hs E.
    + destruct (ex_turn_source w Hf Hs) as (e' & E' & _). rewrite E in E'. injection E' as _ ->. by apply tame_eq.
    + destruct (ex_turn_sink w Hf) as (e' & E' & _). rewrite E in E'. injection E' as _ ->. apply tame_refl.
  - intros a u w e w' [[= -> ->]|[[= -> ->]|[]%elem_of_nil]%elem_of_cons]%elem_of_cons Hf Hs E.
    + destruct (ex_stop_source w Hf Hs) as (w2 & E' & _ & _ & _ & Hc & Hm). rewrite E in E'. injection E' as _ ->.
      apply tame_eq; [by rewrite Hc|by rewrite Hm].
    + destruct (ex_stop_sink w Hf) as (w2 & E' & _ & _ & _ & Hc & Hm). rewrite E in E'. injection E' as _ ->.
      apply tame_eq; [by rewrite Hc|by rewrite Hm].
  - exact ex_own_fit.
  - intros w w' Ho. unfold frames, cores_of. destruct (own_rest _ _ Ho) as (y & ->). done.
Qed.

Lemma turns_loop_ok : loop_ok turns_world 2 turns_loop [(50, turns_timer)] [(51, turns_fd)].
Proof.
  split; [|by exists 43, [50]|by exists 44, [51]]. split; try done.
  - constructor; [|constructor]. split; [by split_and!|]. by exists (TimerTask TIMER_FUNC 0 1 (-1)).
  - constructor; [|constructor]. split; [by split_and!|]. split; [done|]. by exists (PollFd POLL_FUNC 9 1 1 0).
  - by apply (bool_decide_unpack _).
  - by apply (bool_decide_unpack _).
  - intros fd v. change (os_interest _ _) with ({[9 := (1, 51)]} : gmap Z (Z * Z)).
    intros [<- <-]%lookup_singleton_Some. exists turns_fd, (PollFd POLL_FUNC 9 1 1 0). split_and!; [by left|done|done].
Qed.

Lemma turns_inside : inside 1 2 ex_cs ex_ps ex_fit turns_world.
Proof.
  split.
  - exists 42, [20; 21]. split; [|done].
    destruct ex_context as [C1 C2 C3 C4 C5 (mem & [G1 G2 G3] & Hm) _]. split; try done.
    + exists mem. by split.
    + by exists turns_loop.
  - by exists true, true.
  - intros t tk. change (ls_tasks _) with ({[1 := TimerTask TIMER_FUNC 0 1 (-1)]} : gmap Z pitcher_timer_task).
    by intros [<- <-]%lookup_singleton_Some _.
  - intros p pf. change (ls_pfds _) with ({[20 := PollFd POLL_FUNC 9 1 1 0]} : gmap Z pitcher_poll_fd).
    intros [<- <-]%lookup_singleton_Some _. split; [done|]. by left.
Qed.

Definition idle_task (f t : Z) : M ex_state Z := mret 0.
Definition idle_poll (f p events : Z) : M ex_state Z := mret 0.

(** Nine turns, with the source's descriptor ready in each. *)
Lemma core_turns_witness :
  ∃ tvs calls w', length tvs = 9%nat ∧
    turns (call_task ex_plane ex_recycle ex_stop ex_check ex_run idle_task)
      (call_poll ex_plane ex_recycle ex_stop ex_check ex_run idle_poll) 2 tvs turns_world w' ∧
    (kept_calls calls ≤ 7)%nat ∧ (∀ t d, (t, d) ∈ calls → t = 1 ∧ (d = 0 ∨ d = 1 ∧ all_stopped ex_cs w')).
Proof.
  destruct (core_turns ex_plane ex_recycle ex_stop ex_check ex_run idle_task idle_poll 1 2 ex_cs ex_ps ex_fit frames ex_able
    ex_guests ltac:(done) 9 turns_world _ _ _ turns_loop_ok turns_inside ex_acyclic)
    as (tvs & calls & w' & x' & ts' & es' & Hn & Hr & _ & _ & _ & _ & _ & Hk & Hall).
  exists tvs, calls, w'. split; [exact Hn|]. split; [exact Hr|]. split; [|exact Hall].
  change (Drain.total ex_cs frames turns_world) with 7%nat in Hk. lia.
Defined.
