(* ===== verification/Kernel.v ===== *)
(** * The kernel services the test modules of src/module_test/ use

    Nothing here is code of the repository: the Linux kernel is a parameter of
    the drivers.  [Uaccess] is the memory of the calling process as
    copy_from_user and copy_to_user see it, [Kmalloc] the kernel's allocator,
    [Ioctl] the command numbers of <linux/ioctl.h>, [OsDriver] the registration
    of a driver by portable_os.h and [Chrdev] the one of <linux/fs.h> and
    <linux/device.h>.  Each class has an instance the witnesses run on.

    A C structure an ioctl argument points to is a [Record] with a [CStruct]
    instance that gives its layout on the 32-bit ARM of these drivers: the
    width and signedness of each field, padding written out as fields of its
    own.  [encode] and [decode] translate between the record and its bytes. *)

From S2P Require Import Prelude.
From stdpp Require Import list_numbers.

Open Scope Z_scope.

(** ** Layout of C structures *)

(** A field: its size in bytes and whether its type is signed. *)
Record ctype := CType { ct_size : Z; ct_signed : bool }.

Definition uint32_t := CType 4 false.
Definition uint64_t := CType 8 false.
Definition cint := CType 4 true.
Definition cptr := CType 4 false.
Definition ulong := CType 4 false.

Definition ct_bits (t : ctype) : Z := 8 * ct_size t.

(** The value read back from a bit pattern, and the values a field can hold. *)
Definition ct_value (t : ctype) (v : Z) : Z :=
  if ct_signed t && (2 ^ (ct_bits t - 1) <=? v) then v - 2 ^ ct_bits t else v.
Definition ct_range (t : ctype) (v : Z) : Prop :=
  if ct_signed t then - 2 ^ (ct_bits t - 1) ≤ v < 2 ^ (ct_bits t - 1)
  else 0 ≤ v < 2 ^ ct_bits t.

Definition pack1 (t : ctype) (v : Z) : list Z := Z_to_little_endian (ct_size t) 8 v.
Definition unpack1 (t : ctype) (bs : list Z) : Z := ct_value t (little_endian_to_Z 8 bs).

Fixpoint pack (ts : list ctype) (vs : list Z) : list Z :=
  match ts, vs with
  | t :: ts, v :: vs => pack1 t v ++ pack ts vs
  | _, _ => []
  end.

Fixpoint unpack (ts : list ctype) (bs : list Z) : list Z :=
  match ts with
  | [] => []
  | t :: ts =>
      unpack1 t (take (Z.to_nat (ct_size t)) bs) :: unpack ts (drop (Z.to_nat (ct_size t)) bs)
  end.

Definition csize (ts : list ctype) : Z := foldr (λ t n, ct_size t + n) 0 ts.

(** A structure: its fields in order, and the record made of field values. *)
Class CStruct (A : Type) := {
  c_types : list ctype;
  c_fields : A → list Z;
  c_make : list Z → A;
  c_sizes : Forall (λ t, 0 < ct_size t) c_types;
  c_length a : length (c_fields a) = length c_types;
  c_make_fields a : c_make (c_fields a) = a;
  c_fields_make vs : length vs = length c_types → c_fields (c_make vs) = vs
}.
#[global] Hint Mode CStruct ! : typeclass_instances.
Arguments c_types A {_}.

Definition sizeof (A : Type) `{CStruct A} : Z := csize (c_types A).
Definition encode `{CStruct A} (a : A) : list Z := pack (c_types A) (c_fields a).
Definition decode `{CStruct A} (bs : list Z) : A := c_make (unpack (c_types A) bs).
(** Every field within its type. *)
Definition in_range `{CStruct A} (a : A) : Prop := Forall2 ct_range (c_types A) (c_fields a).

Lemma csize_cons t ts : csize (t :: ts) = ct_size t + csize ts.
Proof. done. Qed.
Lemma csize_nonneg ts : Forall (λ t, 0 < ct_size t) ts → 0 ≤ csize ts.
Proof. induction 1; [done|]. rewrite csize_cons. lia. Qed.
#[global] Arguments csize : simpl never.

Lemma length_pack1 t v : 0 < ct_size t → zlen (pack1 t v) = ct_size t.
Proof. intros. unfold zlen, pack1. apply length_Z_to_little_endian. lia. Qed.

Lemma ct_value_mod t v : 0 < ct_size t → ct_range t v → ct_value t (v mod 2 ^ ct_bits t) = v.
Proof.
  unfold ct_value, ct_range, ct_bits. intros Ht Hv.
  assert (Hp : 2 ^ (8 * ct_size t) = 2 * 2 ^ (8 * ct_size t - 1))
    by (rewrite <- Z.pow_succ_r by lia; f_equal; lia).
  pose proof (pow2_pos (8 * ct_size t - 1) ltac:(lia)) as H0.
  destruct (ct_signed t); cbn [andb].
  - destruct (Z.leb_spec 0 v).
    + rewrite Z.mod_small by lia. zcase; lia.
    + replace (v mod _) with (v + 2 ^ (8 * ct_size t)).
      * zcase; lia.
      * rewrite <- (Z_mod_plus_full v 1), Z.mul_1_l, Z.mod_small; lia.
  - by rewrite Z.mod_small by lia.
Qed.

Lemma ct_value_range t x : 0 < ct_size t → 0 ≤ x < 2 ^ ct_bits t → ct_range t (ct_value t x).
Proof.
  unfold ct_value, ct_range, ct_bits. intros Ht Hx.
  assert (Hp : 2 ^ (8 * ct_size t) = 2 * 2 ^ (8 * ct_size t - 1))
    by (rewrite <- Z.pow_succ_r by lia; f_equal; lia).
  destruct (ct_signed t); cbn [andb]; [zcase|]; lia.
Qed.

Lemma ct_value_wrap t x : 0 ≤ ct_size t → 0 ≤ x < 2 ^ ct_bits t → ct_value t x mod 2 ^ ct_bits t = x.
Proof.
  unfold ct_value. intros Ht Hx. destruct (_ && _); [|by rewrite Z.mod_small].
  rewrite <- (Z_mod_plus_full _ 1), Z.mod_small; lia.
Qed.

Lemma unpack1_pack1 t v : 0 < ct_size t → ct_range t v → unpack1 t (pack1 t v) = v.
Proof.
  intros Ht Hv. unfold unpack1, pack1.
  rewrite little_endian_to_Z_to_little_endian, Z.mul_comm by lia. by apply ct_value_mod.
Qed.

Lemma pack1_mod t v : 0 < ct_size t → pack1 t (v mod 2 ^ ct_bits t) = pack1 t v.
Proof.
  intros Ht. unfold pack1, ct_bits.
  rewrite <- (Z_to_little_endian_to_Z (ct_size t) 8 (Z_to_little_endian (ct_size t) 8 v)) at 1.
  - by rewrite little_endian_to_Z_to_little_endian, Z.mul_comm by lia.
  - by rewrite length_Z_to_little_endian by lia.
  - lia.
  - apply Z_to_little_endian_bound; lia.
Qed.

Lemma pack1_unpack1 t bs :
  0 < ct_size t → zlen bs = ct_size t → bytes bs → pack1 t (unpack1 t bs) = bs.
Proof.
  intros Ht Hl Hb. unfold unpack1. rewrite <- pack1_mod by done.
  rewrite ct_value_wrap by first
    [lia|unfold ct_bits; rewrite <- Hl, Z.mul_comm; by apply little_endian_to_Z_bound].
  unfold pack1. unfold zlen in Hl. rewrite <- Hl. by apply Z_to_little_endian_to_Z.
Qed.

Lemma zlen_pack ts vs :
  Forall (λ t, 0 < ct_size t) ts → length vs = length ts → zlen (pack ts vs) = csize ts.
Proof.
  intros Ht. revert vs. induction Ht as [|t ts Ht _ IH]; intros [|v vs] Hl; try done.
  cbn. rewrite zlen_app, length_pack1, IH, csize_cons by (done || (cbn in Hl; lia)). done.
Qed.

Lemma unpack_pack ts vs :
  Forall (λ t, 0 < ct_size t) ts → Forall2 ct_range ts vs → unpack ts (pack ts vs) = vs.
Proof.
  intros Ht Hv. induction Hv as [|t v ts vs Hv _ IH]; [done|]. inversion_clear Ht. cbn.
  assert (Hn : length (pack1 t v) = Z.to_nat (ct_size t)).
  { pose proof (length_pack1 t v ltac:(done)) as Hl. unfold zlen in Hl. lia. }
  rewrite <- Hn, take_app_length, drop_app_length, unpack1_pack1, IH by done. done.
Qed.

Lemma length_unpack ts bs : length (unpack ts bs) = length ts.
Proof. revert bs. induction ts; intros; cbn; auto. Qed.

Lemma bytes_take n bs : bytes bs → bytes (take n bs).
Proof. apply Forall_take. Qed.
Lemma bytes_drop n bs : bytes bs → bytes (drop n bs).
Proof. apply Forall_drop. Qed.

Lemma pack_unpack ts bs :
  Forall (λ t, 0 < ct_size t) ts → zlen bs = csize ts → bytes bs → pack ts (unpack ts bs) = bs.
Proof.
  intros Ht. revert bs. induction Ht as [|t ts Ht Hts IH]; intros bs Hl Hb.
  { destruct bs; [done|]. rewrite zlen_cons in Hl. pose proof (zlen_nonneg bs). unfold csize in Hl. cbn in Hl. lia. }
  pose proof (csize_nonneg ts Hts) as Hc.
  cbn in *. rewrite csize_cons in Hl. unfold zlen in Hl.
  rewrite pack1_unpack1, IH; [apply take_drop|..]; unfold zlen;
    rewrite ?length_take, ?length_drop; auto using bytes_take, bytes_drop; lia.
Qed.

Lemma unpack_range ts bs :
  Forall (λ t, 0 < ct_size t) ts → zlen bs = csize ts → bytes bs → Forall2 ct_range ts (unpack ts bs).
Proof.
  intros Ht. revert bs. induction Ht as [|t ts Ht Hts IH]; intros bs Hl Hb; [constructor|].
  pose proof (csize_nonneg ts Hts) as Hc.
  cbn in *. rewrite csize_cons in Hl. unfold zlen in Hl. constructor.
  - apply ct_value_range; [done|]. unfold ct_bits.
    pose proof (little_endian_to_Z_bound 8 (take (Z.to_nat (ct_size t)) bs) ltac:(lia)
      (bytes_take _ _ Hb)) as Hr.
    rewrite length_take_le in Hr by lia. rewrite Z2Nat.id, Z.mul_comm in Hr by lia. done.
  - apply IH; [unfold zlen; rewrite length_drop; lia|by apply bytes_drop].
Qed.

Lemma pack_bytes ts vs : Forall (λ t, 0 < ct_size t) ts → bytes (pack ts vs).
Proof.
  intros Ht. revert vs. induction Ht as [|t ts Ht _ IH]; intros [|v vs]; try constructor.
  apply Forall_app. split; [|apply IH].
  exact (Z_to_little_endian_bound (ct_size t) 8 v ltac:(lia) ltac:(lia)).
Qed.

Section cstruct.
Context `{CStruct A}.
Implicit Type a : A.

Lemma sizeof_nonneg : 0 ≤ sizeof A.
Proof. apply csize_nonneg, c_sizes. Qed.

Lemma zlen_encode a : zlen (encode a) = sizeof A.
Proof. apply zlen_pack; [apply c_sizes|apply c_length]. Qed.
Lemma bytes_encode a : bytes (encode a).
Proof. apply pack_bytes, c_sizes. Qed.
Lemma decode_encode a : in_range a → decode (encode a) = a.
Proof. intros. unfold decode, encode. by rewrite unpack_pack, c_make_fields by (done || apply c_sizes). Qed.
Lemma encode_decode bs : zlen bs = sizeof A → bytes bs → encode (decode bs : A) = bs.
Proof.
  intros. unfold decode, encode. rewrite c_fields_make by apply length_unpack.
  by apply pack_unpack; [apply c_sizes|..].
Qed.
Lemma decode_range bs : zlen bs = sizeof A → bytes bs → in_range (decode bs : A).
Proof.
  intros. unfold decode, in_range. rewrite c_fields_make by apply length_unpack.
  by apply unpack_range; [apply c_sizes|..].
Qed.
End cstruct.

(** Solves the laws of an instance: the fields are listed, the layout is closed. *)
Ltac cstruct :=
  first
  [ by repeat constructor
  | intros; reflexivity
  | let a := fresh in intros a; by destruct a
  | let vs := fresh "vs" in let Hl := fresh in intros vs Hl;
    repeat (destruct vs as [|? vs]; try discriminate); done ].

(** ** User memory *)

(** [user_byte] is what a byte of the process holds, [None] where it cannot be
    read; [user_writable] says where it can be written.  The two copies return
    how many bytes they did not copy. *)
Class Uaccess (U : Type) := {
  user_byte : U → Z → option Z;
  user_writable : U → Z → bool;
  copy_from_user : U → Z → Z → list Z * Z;
  copy_to_user : U → Z → list Z → U * Z;
  user_byte_range u a b : user_byte u a = Some b → is_byte b;
  (** The destination is filled: with what could be read, then with zeros. *)
  copy_from_user_spec u a n bs k : 0 ≤ n → copy_from_user u a n = (bs, k) →
    zlen bs = n ∧ 0 ≤ k ≤ n ∧
    (∀ i, 0 ≤ i < n - k → nthz bs i = user_byte u (a + i)) ∧
    (∀ i, n - k ≤ i < n → nthz bs i = Some 0) ∧
    ((∀ i, 0 ≤ i < n → is_Some (user_byte u (a + i))) → k = 0);
  copy_to_user_spec u a bs u' k : bytes bs → copy_to_user u a bs = (u', k) →
    0 ≤ k ≤ zlen bs ∧
    (∀ i, 0 ≤ i < zlen bs - k → user_byte u' (a + i) = nthz bs i) ∧
    (∀ x, ¬ (a ≤ x < a + (zlen bs - k)) → user_byte u' x = user_byte u x) ∧
    (∀ x, user_writable u' x = user_writable u x) ∧
    (k = 0 ↔ ∀ i, 0 ≤ i < zlen bs → user_writable u (a + i) = true)
}.
#[global] Hint Mode Uaccess ! : typeclass_instances.

Section uaccess.
Context `{Uaccess U}.
Implicit Type u : U.

(** The process holds [bs] at [a]; it can write the [n] bytes there. *)
Definition user_at u (a : Z) (bs : list Z) : Prop :=
  ∀ i, 0 ≤ i < zlen bs → user_byte u (a + i) = nthz bs i.
Definition writable_at u (a n : Z) : Prop :=
  ∀ i, 0 ≤ i < n → user_writable u (a + i) = true.
(** [u'] is [u] but for the [n] bytes at [a]. *)
Definition user_frame u u' (a n : Z) : Prop :=
  (∀ x, ¬ (a ≤ x < a + n) → user_byte u' x = user_byte u x) ∧
  (∀ x, user_writable u' x = user_writable u x).

Lemma user_frame_refl u a n : user_frame u u a n.
Proof. by split. Qed.

Lemma writable_frame u u' a n b m : user_frame u u' a n → writable_at u b m → writable_at u' b m.
Proof. intros [_ Hf] Hw i Hi. rewrite Hf. by apply Hw. Qed.

(** What is elsewhere is still there. *)
Lemma user_at_frame u u' a n b bs :
  user_frame u u' a n → (b + zlen bs ≤ a ∨ a + n ≤ b) → user_at u b bs → user_at u' b bs.
Proof. intros [Hf _] Hd Hu i Hi. rewrite Hf by lia. by apply Hu. Qed.

Lemma user_frame_trans u1 u2 u3 a n b m c l :
  user_frame u1 u2 a n → user_frame u2 u3 b m →
  c ≤ a → a + n ≤ c + l → c ≤ b → b + m ≤ c + l → user_frame u1 u3 c l.
Proof.
  intros [F1 W1] [F2 W2] ????. split; intros x.
  - intros Hx. rewrite F2, F1 by lia. done.
  - by rewrite W2, W1.
Qed.

(** [u'] is [u] but for the [n] bytes at [a] and the [m] bytes at [b]. *)
Definition user_frame2 u u' (a n b m : Z) : Prop :=
  (∀ x, ¬ (a ≤ x < a + n) → ¬ (b ≤ x < b + m) → user_byte u' x = user_byte u x) ∧
  (∀ x, user_writable u' x = user_writable u x).

Lemma user_frame_both u1 u2 u3 a n b m :
  user_frame u1 u2 a n → user_frame u2 u3 b m → user_frame2 u1 u3 a n b m.
Proof.
  intros [H1 W1] [H2 W2]. split; [|intros x; by rewrite W2].
  intros x Ha Hb. by rewrite H2, H1.
Qed.
Lemma writable_frame2 u u' a n b m c l : user_frame2 u u' a n b m → writable_at u c l → writable_at u' c l.
Proof. intros [_ W] Hw i Hi. rewrite W. by apply Hw. Qed.

Lemma user_frame_wider u u' a n c l :
  user_frame u u' a n → c ≤ a → a + n ≤ c + l → user_frame u u' c l.
Proof. intros [F W] ??. split; [|done]. intros x Hx. apply F. lia. Qed.

Lemma user_at_bytes u a bs : user_at u a bs → bytes bs.
Proof.
  intros Hu. apply Forall_lookup_2. intros i b Hb. pose proof (lookup_lt_Some _ _ _ Hb) as Hlt.
  eapply (user_byte_range u (a + Z.of_nat i)). rewrite Hu by (unfold zlen; lia).
  by rewrite nthz_lookup, Nat2Z.id by lia.
Qed.

(** What the process holds at a place is one string of bytes. *)
Lemma user_at_inj u a bs bs' : zlen bs = zlen bs' → user_at u a bs → user_at u a bs' → bs = bs'.
Proof.
  intros Hl H1 H2. apply list_eq_byte_at; [done|]. intros i Hi. unfold byte_at.
  by rewrite <- H1, <- H2 by lia.
Qed.

Lemma copy_from_user_len u a n bs k : 0 ≤ n → copy_from_user u a n = (bs, k) → zlen bs = n.
Proof. intros Hn E. by apply copy_from_user_spec in E as (? & _). Qed.

Lemma copy_from_user_all u a bs : user_at u a bs → copy_from_user u a (zlen bs) = (bs, 0).
Proof.
  intros Hu. destruct (copy_from_user u a (zlen bs)) as [bs' k] eqn:E.
  apply copy_from_user_spec in E as (Hl & Hk & Hb & _ & H0); [|apply zlen_nonneg].
  assert (k = 0) as ->.
  { apply H0. intros i Hi. rewrite Hu by done. destruct (nthz_in_range bs i Hi) as [b ->]. done. }
  f_equal. apply list_eq. intros i. destruct (decide (Z.of_nat i < zlen bs)).
  - specialize (Hb (Z.of_nat i) ltac:(lia)). rewrite Hu in Hb by lia.
    rewrite !nthz_lookup, !Nat2Z.id in Hb by lia. done.
  - unfold zlen in *. by rewrite (lookup_ge_None_2 bs'), (lookup_ge_None_2 bs) by lia.
Qed.

(** A copy that left nothing out read what is there. *)
Lemma copy_from_user_zero u a n bs :
  0 ≤ n → copy_from_user u a n = (bs, 0) → zlen bs = n ∧ user_at u a bs.
Proof.
  intros Hn E. apply copy_from_user_spec in E as (Hl & _ & Hb & _); [|done].
  split; [done|]. intros i Hi. symmetry. apply Hb. lia.
Qed.

(** Bytes that come from the process are bytes, also where zeros stand in. *)
Lemma copy_from_user_bytes u a n bs k : 0 ≤ n → copy_from_user u a n = (bs, k) → bytes bs.
Proof.
  intros Hn E. apply copy_from_user_spec in E as (Hl & Hk & Hb & Hz & _); [|done].
  apply Forall_lookup_2. intros i b Hi. pose proof (lookup_lt_Some _ _ _ Hi) as Hlt.
  assert (Hn' : nthz bs (Z.of_nat i) = Some b) by (rewrite nthz_lookup, Nat2Z.id; [done|lia]).
  unfold zlen in *. destruct (decide (Z.of_nat i < n - k)).
  - rewrite Hb in Hn' by lia. by eapply user_byte_range.
  - rewrite Hz in Hn' by lia. injection Hn' as <-. unfold is_byte. lia.
Qed.

(** A byte of the [n] at [a] cannot be read. *)
Definition unreadable u (a n : Z) : Prop := ∃ i, 0 ≤ i < n ∧ user_byte u (a + i) = None.

Lemma copy_from_user_fault u a n bs k :
  0 ≤ n → unreadable u a n → copy_from_user u a n = (bs, k) → 0 < k.
Proof.
  intros Hn (i & Hi & Hb) E. pose proof (copy_from_user_spec _ _ _ _ _ Hn E) as (Hl & Hk & _).
  destruct (decide (k = 0)) as [->|]; [|lia].
  destruct (copy_from_user_zero _ _ _ _ Hn E) as [Hz Hu]. rewrite <- Hz in Hi.
  destruct (nthz_in_range bs i Hi) as [b Hx]. rewrite (Hu i Hi), Hx in Hb. done.
Qed.

Lemma copy_to_user_all u a bs :
  bytes bs → writable_at u a (zlen bs) →
  ∃ u', copy_to_user u a bs = (u', 0) ∧ user_at u' a bs ∧ user_frame u u' a (zlen bs).
Proof.
  intros Hb Hw. destruct (copy_to_user u a bs) as [u' k] eqn:E.
  pose proof (copy_to_user_spec _ _ _ _ _ Hb E) as (Hk & Hc & Hf & Hw' & H0).
  assert (k = 0) as -> by by apply H0.
  exists u'. split; [done|]. split; [intros i Hi; apply Hc; lia|].
  split; [|done]. intros x Hx. apply Hf. lia.
Qed.

Lemma copy_to_user_frame u a bs u' k :
  bytes bs → copy_to_user u a bs = (u', k) → user_frame u u' a (zlen bs).
Proof.
  intros Hb E. pose proof (copy_to_user_spec _ _ _ _ _ Hb E) as (Hk & _ & Hf & Hw & _).
  split; [|done]. intros x Hx. apply Hf. lia.
Qed.

(** A copy out leaves something out exactly when a byte cannot be written. *)
Lemma copy_to_user_zero u a bs u' k :
  bytes bs → copy_to_user u a bs = (u', k) → k = 0 ↔ writable_at u a (zlen bs).
Proof. intros Hb E. by apply (copy_to_user_spec _ _ _ _ _ Hb E). Qed.
End uaccess.

(** ** The kernel's heap and the state of a driver *)

(** What the allocator answers to the [n]-th request, of [size] bytes: NULL, or
    a block with the bytes that happen to be in it. *)
Class Kmalloc := {
  kmalloc_answer : nat → Z → option (list Z);
  kmalloc_size n size bs : 0 ≤ size → kmalloc_answer n size = Some bs → zlen bs = size ∧ bytes bs
}.

(** The memory of the process, the live blocks of the heap by their number, and
    whatever the driver and the hardware keep. *)
Record kstate (U G : Type) := KState {
  k_user : U;
  k_heap : gmap nat (list Z);
  k_count : nat;
  k_dev : G
}.
Arguments KState {U G}. Arguments k_user {U G}. Arguments k_heap {U G}.
Arguments k_count {U G}. Arguments k_dev {U G}.

Section kernel.
Context {U G : Type} `{Uaccess U} `{Kmalloc}.
Abbreviation KM := (M (kstate U G)).
Implicit Type s : kstate U G.

Definition set_user (u : U) s : kstate U G := KState u (k_heap s) (k_count s) (k_dev s).
Definition set_heap (h : gmap nat (list Z)) s : kstate U G := KState (k_user s) h (k_count s) (k_dev s).
Definition set_dev (g : G) s : kstate U G := KState (k_user s) (k_heap s) (k_count s) g.

Definition from_user (a n : Z) : KM (list Z * Z) :=
  λ s, Done (copy_from_user (k_user s) a n, s).
Definition to_user (a : Z) (bs : list Z) : KM Z :=
  λ s, let '(u, k) := copy_to_user (k_user s) a bs in Done (k, set_user u s).

(** copy_from_user(&x, a, sizeof(x)) and copy_to_user(a, &x, sizeof(x)). *)
Definition get_struct (A : Type) `{CStruct A} (a : Z) : KM (A * Z) :=
  '(bs, k) ← from_user a (sizeof A); mret (decode bs, k).
Definition put_struct `{CStruct A} (a : Z) (x : A) : KM Z := to_user a (encode x).

(** get_user and put_user of a 32-bit value: 0, or non-zero on a fault; the
    value read is then 0. *)
Definition get_user32 (a : Z) : KM (Z * Z) :=
  '(bs, k) ← from_user a 4;
  mret (if k =? 0 then little_endian_to_Z 8 bs else 0, k).
Definition put_user32 (a v : Z) : KM Z := to_user a (pack1 uint32_t v).

(** A call of the hardware's driver, on the state [k_dev]. *)
Definition dev {R} (f : G → R * G) : KM R :=
  λ s, let '(r, g) := f (k_dev s) in Done (r, set_dev g s).

Definition kmalloc (size : Z) : KM (option nat) := λ s,
  match kmalloc_answer (k_count s) size with
  | None => Done (None, KState (k_user s) (k_heap s) (S (k_count s)) (k_dev s))
  | Some bs =>
      Done (Some (k_count s),
        KState (k_user s) (<[k_count s := bs]> (k_heap s)) (S (k_count s)) (k_dev s))
  end.

Definition kfree (p : option nat) : KM unit := λ s,
  match p with
  | None => Done (tt, s)
  | Some b =>
      match k_heap s !! b with
      | Some _ => Done (tt, set_heap (delete b (k_heap s)) s)
      | None => UB
      end
  end.

(** The [n] bytes from offset [off] of a block, and a store there. *)
Definition slice (l : list Z) (off n : Z) : option (list Z) :=
  if (0 <=? off) && (0 <=? n) && (off + n <=? zlen l)
  then Some (take (Z.to_nat n) (drop (Z.to_nat off) l)) else None.
Definition splice (l : list Z) (off : Z) (bs : list Z) : option (list Z) :=
  if (0 <=? off) && (off + zlen bs <=? zlen l)
  then Some (take (Z.to_nat off) l ++ bs ++ drop (Z.to_nat off + length bs) l) else None.

Definition load_block (b : nat) (off n : Z) : KM (list Z) := λ s,
  match k_heap s !! b ≫= λ l, slice l off n with
  | Some bs => Done (bs, s)
  | None => UB
  end.
Definition store_block (b : nat) (off : Z) (bs : list Z) : KM unit := λ s,
  match k_heap s !! b ≫= λ l, splice l off bs with
  | Some l => Done (tt, set_heap (<[b := l]> (k_heap s)) s)
  | None => UB
  end.

(** *** What they do *)

Lemma get_struct_all `{CStruct A} a (x : A) s :
  in_range x → user_at (k_user s) a (encode x) → get_struct A a s = Done ((x, 0), s).
Proof.
  intros Hr Hu. unfold get_struct, from_user. rewrite M_bind_eq. cbn.
  rewrite <- (zlen_encode x), copy_from_user_all by done. cbn. by rewrite decode_encode.
Qed.

Lemma get_struct_any A `{CStruct A} a s :
  ∃ (x : A) k, get_struct A a s = Done ((x, k), s) ∧ in_range x ∧
    (k = 0 → user_at (k_user s) a (encode x)) ∧ 0 ≤ k.
Proof.
  unfold get_struct, from_user. rewrite M_bind_eq. cbn.
  destruct (copy_from_user (k_user s) a (sizeof A)) as [bs k] eqn:E. cbn.
  pose proof (sizeof_nonneg (A := A)) as Hs.
  pose proof (copy_from_user_len _ _ _ _ _ Hs E) as Hl.
  pose proof (copy_from_user_bytes _ _ _ _ _ Hs E) as Hb.
  exists (decode bs), k. split; [done|]. split; [by apply decode_range|]. split.
  - intros ->. rewrite encode_decode by done. by apply (copy_from_user_zero _ _ _ _ Hs E).
  - apply (copy_from_user_spec _ _ _ _ _ Hs) in E as (_ & ? & _). lia.
Qed.

Lemma get_struct_fault A `{CStruct A} a s :
  unreadable (k_user s) a (sizeof A) →
  ∃ (x : A) k, get_struct A a s = Done ((x, k), s) ∧ in_range x ∧ 0 < k.
Proof.
  intros Hf. unfold get_struct, from_user. rewrite M_bind_eq. cbn.
  destruct (copy_from_user (k_user s) a (sizeof A)) as [bs k] eqn:E. cbn.
  pose proof (sizeof_nonneg (A := A)) as Hs. eexists _, _. split; [done|].
  split; [|by eapply copy_from_user_fault]. apply decode_range.
  - by eapply copy_from_user_len.
  - by eapply copy_from_user_bytes.
Qed.

Lemma to_user_all a bs s :
  bytes bs → writable_at (k_user s) a (zlen bs) →
  ∃ u, to_user a bs s = Done (0, set_user u s) ∧ user_at u a bs ∧
    user_frame (k_user s) u a (zlen bs).
Proof.
  intros Hb Hw. destruct (copy_to_user_all _ _ _ Hb Hw) as (u & E & Hu & Hf).
  exists u. split; [|done]. unfold to_user. by rewrite E.
Qed.

Lemma to_user_any a bs s :
  bytes bs →
  ∃ u k, to_user a bs s = Done (k, set_user u s) ∧ user_frame (k_user s) u a (zlen bs) ∧
    (k = 0 ↔ writable_at (k_user s) a (zlen bs)) ∧ 0 ≤ k.
Proof.
  intros Hb. unfold to_user. destruct (copy_to_user (k_user s) a bs) as [u k] eqn:E.
  exists u, k. split; [done|]. split; [by eapply copy_to_user_frame|].
  split; [by eapply copy_to_user_zero|].
  apply (copy_to_user_spec _ _ _ _ _ Hb) in E as (? & _). lia.
Qed.

Lemma put_struct_all `{CStruct A} a (x : A) s :
  writable_at (k_user s) a (sizeof A) →
  ∃ u, put_struct a x s = Done (0, set_user u s) ∧ user_at u a (encode x) ∧
    user_frame (k_user s) u a (sizeof A).
Proof. rewrite <- (zlen_encode x). apply to_user_all, bytes_encode. Qed.

Lemma put_struct_any `{CStruct A} a (x : A) s :
  ∃ u k, put_struct a x s = Done (k, set_user u s) ∧ user_frame (k_user s) u a (sizeof A) ∧
    (k = 0 ↔ writable_at (k_user s) a (sizeof A)) ∧ 0 ≤ k.
Proof. rewrite <- (zlen_encode x). apply to_user_any, bytes_encode. Qed.

Lemma get_user32_all a v s :
  0 ≤ v < 2 ^ 32 → user_at (k_user s) a (pack1 uint32_t v) → get_user32 a s = Done ((v, 0), s).
Proof.
  intros Hv Hu. unfold get_user32, from_user. rewrite M_bind_eq. cbn.
  rewrite <- (length_pack1 uint32_t v ltac:(done) : zlen _ = 4), copy_from_user_all by done. cbn.
  unfold pack1. rewrite little_endian_to_Z_to_little_endian by done. by rewrite Z.mod_small.
Qed.

Lemma get_user32_any a s :
  ∃ v k, get_user32 a s = Done ((v, k), s) ∧ 0 ≤ v < 2 ^ 32 ∧ 0 ≤ k ∧
    (k = 0 → user_at (k_user s) a (pack1 uint32_t v)).
Proof.
  unfold get_user32, from_user. rewrite M_bind_eq. cbn.
  destruct (copy_from_user (k_user s) a 4) as [bs k] eqn:E. cbn. eexists _, _. split; [done|].
  pose proof (copy_from_user_len _ _ 4 _ _ ltac:(lia) E) as Hl.
  pose proof (copy_from_user_bytes _ _ 4 _ _ ltac:(lia) E) as Hb.
  assert (Hk : 0 ≤ k) by (apply copy_from_user_spec in E as (_ & ? & _); lia).
  pose proof (little_endian_to_Z_bound 8 bs ltac:(lia) Hb) as Hv. unfold zlen in Hl.
  rewrite Hl in Hv. destruct (Z.eqb_spec k 0) as [->|]; [|by split_and!].
  split_and!; [lia..|done|]. intros _. unfold pack1. change (ct_size uint32_t) with 4.
  rewrite <- Hl, Z_to_little_endian_to_Z by done.
  by apply (copy_from_user_zero _ _ 4 _ ltac:(lia) E).
Qed.

Lemma dev_eq {R} (f : G → R * G) s r g :
  f (k_dev s) = (r, g) → dev f s = Done (r, set_dev g s).
Proof. unfold dev. by intros ->. Qed.

(** What the services change when they return. *)
Lemma ensures_get_struct A `{CStruct A} a s (Q : A * Z → kstate U G → Prop) :
  (∀ x k, in_range x → Q (x, k) s) → ensures (get_struct A a) s Q.
Proof.
  intros HQ. destruct (get_struct_any A a s) as (x & k & E & Hr & _). eapply ensures_done; [exact E|auto].
Qed.
Lemma ensures_to_user a bs s (Q : Z → kstate U G → Prop) :
  (∀ u k, Q k (set_user u s)) → ensures (to_user a bs) s Q.
Proof. intros HQ k s'. unfold to_user. destruct (copy_to_user _ _ _) as [u k']. intros [= <- <-]. apply HQ. Qed.
Lemma ensures_put_struct `{CStruct A} a (x : A) s (Q : Z → kstate U G → Prop) :
  (∀ u k, Q k (set_user u s)) → ensures (put_struct a x) s Q.
Proof. apply ensures_to_user. Qed.
Lemma ensures_load_block b off n s (Q : list Z → kstate U G → Prop) :
  (∀ bs, zlen bs = n → Q bs s) → ensures (load_block b off n) s Q.
Proof.
  intros HQ bs s'. unfold load_block, slice. destruct (k_heap s !! b) as [l|]; cbn; [|done].
  destruct (_ && _) eqn:E; [|done]. intros [= <- <-]. apply HQ. zbool. unfold zlen in *.
  rewrite length_take, length_drop. lia.
Qed.
Lemma ensures_store_block b off bs s (Q : unit → kstate U G → Prop) :
  (∀ l l', k_heap s !! b = Some l → zlen l' = zlen l → Q tt (set_heap (<[b := l']> (k_heap s)) s)) →
  ensures (store_block b off bs) s Q.
Proof.
  intros HQ [] s'. unfold store_block, splice. destruct (k_heap s !! b) as [l|] eqn:El; cbn; [|done].
  destruct (_ && _) eqn:E; [|done]. intros [= <-]. eapply HQ; [done|]. zbool.
  unfold zlen in *. rewrite !length_app, length_take, length_drop. lia.
Qed.
Lemma ensures_kmalloc n s (Q : option nat → kstate U G → Prop) :
  0 ≤ n →
  Q None (KState (k_user s) (k_heap s) (S (k_count s)) (k_dev s)) →
  (∀ bs, zlen bs = n →
     Q (Some (k_count s)) (KState (k_user s) (<[k_count s := bs]> (k_heap s)) (S (k_count s)) (k_dev s))) →
  ensures (kmalloc n) s Q.
Proof.
  intros Hn HN HS r s'. unfold kmalloc. destruct (kmalloc_answer (k_count s) n) as [bs|] eqn:E;
    intros [= <- <-]; [|done]. apply HS. by apply (kmalloc_size _ _ _ Hn E).
Qed.
Lemma ensures_kfree b s (Q : unit → kstate U G → Prop) :
  (is_Some (k_heap s !! b) → Q tt (set_heap (delete b (k_heap s)) s)) → ensures (kfree (Some b)) s Q.
Proof.
  intros HQ [] s'. unfold kfree. destruct (k_heap s !! b); [|done]. intros [= <-]. by apply HQ.
Qed.

(** Blocks already in use are below the counter. *)
Definition heap_ok s : Prop := ∀ b l, k_heap s !! b = Some l → (b < k_count s)%nat.

Lemma heap_ok_fresh s : heap_ok s → k_heap s !! k_count s = None.
Proof. intros Hh. destruct (k_heap s !! _) eqn:E; [|done]. apply Hh in E. lia. Qed.

Lemma kmalloc_cases size s :
  0 ≤ size →
  ∃ r s', kmalloc size s = Done (r, s') ∧
    k_user s' = k_user s ∧ k_dev s' = k_dev s ∧ k_count s' = S (k_count s) ∧
    ((r = None ∧ k_heap s' = k_heap s) ∨
     (∃ bs, r = Some (k_count s) ∧ zlen bs = size ∧ bytes bs ∧
        k_heap s' = <[k_count s := bs]> (k_heap s))).
Proof.
  intros Hs. unfold kmalloc. destruct (kmalloc_answer (k_count s) size) as [bs|] eqn:E.
  - destruct (kmalloc_size _ _ _ Hs E). eexists _, _. split; [done|]. cbn.
    split_and!; [done..|right]. by exists bs.
  - eexists _, _. split; [done|]. cbn. split_and!; [done..|]. by left.
Qed.

Lemma kfree_ok b s l :
  k_heap s !! b = Some l → kfree (Some b) s = Done (tt, set_heap (delete b (k_heap s)) s).
Proof. intros Hb. unfold kfree. by rewrite Hb. Qed.

Lemma slice_ok l off n : 0 ≤ off → 0 ≤ n → off + n ≤ zlen l →
  slice l off n = Some (take (Z.to_nat n) (drop (Z.to_nat off) l)) ∧
  zlen (take (Z.to_nat n) (drop (Z.to_nat off) l)) = n.
Proof.
  intros. unfold slice. do 3 (zcase; [|lia]). split; [done|].
  unfold zlen in *. rewrite length_take, length_drop. lia.
Qed.

Lemma slice_all l : slice l 0 (zlen l) = Some l.
Proof.
  destruct (slice_ok l 0 (zlen l)) as [-> _]; [lia|apply zlen_nonneg|lia|].
  f_equal. rewrite drop_0. apply take_ge. unfold zlen. lia.
Qed.

Lemma splice_ok l off bs : 0 ≤ off → off + zlen bs ≤ zlen l →
  ∃ l', splice l off bs = Some l' ∧ zlen l' = zlen l ∧
    slice l' off (zlen bs) = Some bs.
Proof.
  intros H1 H2. unfold splice. do 2 (zcase; [|lia]). eexists. split; [done|].
  assert (Hl : zlen (take (Z.to_nat off) l ++ bs ++ drop (Z.to_nat off + length bs) l) = zlen l).
  { unfold zlen in *. rewrite !length_app, length_take, length_drop. lia. }
  split; [done|]. pose proof (zlen_nonneg bs).
  destruct (slice_ok (take (Z.to_nat off) l ++ bs ++ drop (Z.to_nat off + length bs) l) off (zlen bs))
    as [-> _]; [lia..|]. f_equal. unfold zlen in *. rewrite Nat2Z.id.
  rewrite drop_app_length' by (rewrite length_take; lia). by rewrite take_app_length.
Qed.

Lemma splice_all l bs : zlen bs = zlen l → splice l 0 bs = Some bs.
Proof.
  intros Hl. unfold splice. rewrite Z.add_0_l, Hl, !Z.leb_refl. cbn.
  rewrite drop_ge by (unfold zlen in *; lia). by rewrite app_nil_r.
Qed.

Lemma load_block_ok b off n s l :
  k_heap s !! b = Some l → 0 ≤ off → 0 ≤ n → off + n ≤ zlen l →
  ∃ bs, load_block b off n s = Done (bs, s) ∧ slice l off n = Some bs ∧ zlen bs = n.
Proof.
  intros Hb ???. destruct (slice_ok l off n) as [E Hn]; [done..|].
  eexists. split; [|done]. unfold load_block. rewrite Hb. cbn. by rewrite E.
Qed.

Lemma store_block_ok b off bs s l :
  k_heap s !! b = Some l → 0 ≤ off → off + zlen bs ≤ zlen l →
  ∃ l', store_block b off bs s = Done (tt, set_heap (<[b := l']> (k_heap s)) s) ∧
    zlen l' = zlen l ∧ slice l' off (zlen bs) = Some bs.
Proof.
  intros Hb ??. destruct (splice_ok l off bs) as (l' & E & ? & ?); [done..|].
  exists l'. split; [|done]. unfold store_block. rewrite Hb. cbn. by rewrite E.
Qed.
Lemma kmalloc_some (n : Z) s bs :
  kmalloc_answer (k_count s) n = Some bs →
  kmalloc n s = Done (Some (k_count s), KState (k_user s) (<[k_count s := bs]> (k_heap s)) (S (k_count s)) (k_dev s)).
Proof. unfold kmalloc. by intros ->. Qed.
Lemma kmalloc_none (n : Z) s :
  kmalloc_answer (k_count s) n = None →
  kmalloc n s = Done (None, KState (k_user s) (k_heap s) (S (k_count s)) (k_dev s)).
Proof. unfold kmalloc. by intros ->. Qed.

Lemma heap_ok_fresh_next s : heap_ok s → k_heap s !! k_count s = None ∧ k_heap s !! S (k_count s) = None.
Proof.
  intros Hh. split; [by apply heap_ok_fresh|]. destruct (_ !! S _) eqn:E; [|done]. apply Hh in E. lia.
Qed.

(** *** A request that is one call of the hardware's driver *)

(** The process's request [x] is at [a], and the answer can be put there. *)
Definition request_at {A} `{CStruct A} s (a : Z) (x : A) : Prop :=
  in_range x ∧ user_at (k_user s) a (encode x) ∧ writable_at (k_user s) a (sizeof A).

(** The answer [x] is at [a]: the driver's state is [g] now, and nothing else of
    the process's memory has changed. *)
Definition answers {A} `{CStruct A} s (a : Z) (x : A) (g : G) (o : outcome (Z * kstate U G)) : Prop :=
  ∃ u, o = Done (0, set_user u (set_dev g s)) ∧
    user_at u a (encode x) ∧ user_frame (k_user s) u a (sizeof A).

Lemma put_answers `{CStruct A} a (x : A) s g :
  writable_at (k_user s) a (sizeof A) → answers s a x g (put_struct a x (set_dev g s)).
Proof.
  intros Hw. destruct (put_struct_all a x (set_dev g s) Hw) as (u & E & Hu & Hf). by exists u.
Qed.

Lemma transact_ok {A B} `{CStruct A} a (F : A → KM B) (P : A → B → KM Z) (x x' : A) s b g :
  request_at s a x → F x s = Done (b, set_dev g s) → P x b = put_struct a x' →
  answers s a x' g (('(y, status) ← get_struct A a;
    if status =? 0 then r ← F y; P y r else mret status) s).
Proof.
  intros (Hr & Hu & Hw) EF EP. mstep (get_struct_all a x s Hr Hu). cbv beta iota. cbn [Z.eqb].
  mstep EF. rewrite EP. by apply put_answers.
Qed.

Lemma transact_fault A `{CStruct A} a (F : A → KM Z) s :
  unreadable (k_user s) a (sizeof A) →
  ∃ k, ('(y, status) ← get_struct A a; if status =? 0 then F y else mret status) s = Done (k, s) ∧ 0 < k.
Proof.
  intros Hu. destruct (get_struct_fault A a s Hu) as (x & k & E & _ & Hk). mstep E. cbv beta iota.
  rewrite (proj2 (Z.eqb_neq k 0)) by lia. by exists k.
Qed.
End kernel.

(** Two places of the process that do not overlap. *)
Definition apart (x n y m : Z) : Prop := x + n ≤ y ∨ y + m ≤ x.

(** ** Command numbers, error numbers *)

(** <linux/ioctl.h>: direction, type, number and size packed into 32 bits. *)
Class Ioctl := {
  _IOC_NONE : Z;
  _IOC_WRITE : Z;
  _IOC_READ : Z;
  _IOC : Z → Z → Z → Z → Z;
  _IOC_DIR : Z → Z;
  _IOC_TYPE : Z → Z;
  _IOC_NR : Z → Z;
  _IOC_SIZE : Z → Z;
  ioc_dirs : 0 ≤ _IOC_NONE < 8 ∧ 0 ≤ _IOC_WRITE < 8 ∧ 0 ≤ _IOC_READ < 8;
  ioc_none : Z.land _IOC_NONE _IOC_READ = 0 ∧ Z.land _IOC_NONE _IOC_WRITE = 0;
  ioc_bits : _IOC_READ ≠ 0 ∧ _IOC_WRITE ≠ 0 ∧ Z.land _IOC_READ _IOC_WRITE = 0;
  ioc_fields d t n sz :
    d = _IOC_NONE ∨ d = _IOC_WRITE ∨ d = _IOC_READ ∨ d = Z.lor _IOC_READ _IOC_WRITE →
    0 ≤ t < 256 → 0 ≤ n < 256 → 0 ≤ sz < 2 ^ 13 →
    _IOC_DIR (_IOC d t n sz) = d ∧ _IOC_TYPE (_IOC d t n sz) = t ∧
    _IOC_NR (_IOC d t n sz) = n ∧ _IOC_SIZE (_IOC d t n sz) = sz
}.

Section ioctl.
Context `{Ioctl}.
Definition _IO (t n : Z) : Z := _IOC _IOC_NONE t n 0.
Definition _IOW (t n sz : Z) : Z := _IOC _IOC_WRITE t n sz.
Definition _IOWR (t n sz : Z) : Z := _IOC (Z.lor _IOC_READ _IOC_WRITE) t n sz.

Lemma IO_nr t n : 0 ≤ t < 256 → 0 ≤ n < 256 → _IOC_NR (_IO t n) = n.
Proof. intros. apply ioc_fields; auto; lia. Qed.
Lemma IOW_nr t n sz : 0 ≤ t < 256 → 0 ≤ n < 256 → 0 ≤ sz < 2 ^ 13 → _IOC_NR (_IOW t n sz) = n.
Proof. intros. apply ioc_fields; auto. Qed.
Lemma IOWR_nr t n sz : 0 ≤ t < 256 → 0 ≤ n < 256 → 0 ≤ sz < 2 ^ 13 → _IOC_NR (_IOWR t n sz) = n.
Proof. intros. apply ioc_fields; auto. Qed.
End ioctl.

(** <asm-generic/errno-base.h> as the drivers name them; none is 0. *)
Class Errno := {
  ENOMEM : Z; EFAULT : Z; EINVAL : Z; ENOTTY : Z; EIO : Z; EAGAIN : Z; ESPIPE : Z;
  EBUSY : Z; EBADFD : Z;
  errno_pos : 0 < ENOMEM ∧ 0 < EFAULT ∧ 0 < EINVAL ∧ 0 < ENOTTY ∧ 0 < EIO ∧ 0 < EAGAIN ∧ 0 < ESPIPE;
  errno_small : ENOMEM < 4096 ∧ EFAULT < 4096 ∧ EINVAL < 4096 ∧ ENOTTY < 4096 ∧ EIO < 4096 ∧
    EAGAIN < 4096 ∧ ESPIPE < 4096
}.

(** The codes of portable_os.h; os_copy_from_user and os_copy_to_user make one
    of the number of bytes left out. *)
Class OsError := {
  OS_ERROR_OK_S : Z;
  OS_ERROR_FAIL_S : Z;
  OS_ERROR_NO_MEMORY_S : Z;
  OS_ERROR_BAD_ADDRESS_S : Z;
  os_copy_code : Z → Z;
  os_ok : OS_ERROR_OK_S = 0;
  os_errors : OS_ERROR_FAIL_S ≠ 0 ∧ OS_ERROR_NO_MEMORY_S ≠ 0 ∧ OS_ERROR_BAD_ADDRESS_S ≠ 0;
  os_fail_memory : OS_ERROR_FAIL_S ≠ OS_ERROR_NO_MEMORY_S;
  os_copy_ok k : os_copy_code k = 0 ↔ k = 0
}.

(** ** Registration of a character device *)

(** The majors in use, the classes and the devices of sysfs. *)
Record registry := Registry {
  r_majors : gset Z;
  r_classes : gset Z;
  r_devices : gset (Z * Z)
}.

(** What the kernel answers: register_chrdev a major (if 0 was asked for), 0 or
    a negative error; class_create and device_create a pointer or an error. *)
Class Chrdev := {
  chrdev_answer : registry → Z → Z;
  class_answer : registry → Z + Z;
  device_answer : registry → Z → Z → Z + unit;
  MKDEV : Z → Z → Z;
  chrdev_fresh r m : 0 ≤ chrdev_answer r m →
    if m =? 0 then 0 < chrdev_answer r m ∧ chrdev_answer r m ∉ r_majors r
    else chrdev_answer r m = 0 ∧ m ∉ r_majors r;
  class_fresh r p : class_answer r = inr p → p ∉ r_classes r;
  class_error r e : class_answer r = inl e → e < 0;
  device_fresh r c d : device_answer r c d = inr tt → (c, d) ∉ r_devices r
}.

Section chrdev.
Context `{Chrdev}.
Definition register_chrdev (m : Z) (r : registry) : Z * registry :=
  let a := chrdev_answer r m in
  if a <? 0 then (a, r)
  else (a, Registry ({[if m =? 0 then a else m]} ∪ r_majors r) (r_classes r) (r_devices r)).
Definition unregister_chrdev (m : Z) (r : registry) : registry :=
  Registry (r_majors r ∖ {[m]}) (r_classes r) (r_devices r).
Definition class_create (r : registry) : (Z + Z) * registry :=
  match class_answer r with
  | inl e => (inl e, r)
  | inr p => (inr p, Registry (r_majors r) ({[p]} ∪ r_classes r) (r_devices r))
  end.
Definition class_destroy (p : Z) (r : registry) : registry :=
  Registry (r_majors r) (r_classes r ∖ {[p]}) (r_devices r).
Definition device_create (c d : Z) (r : registry) : (Z + unit) * registry :=
  match device_answer r c d with
  | inl e => (inl e, r)
  | inr _ => (inr tt, Registry (r_majors r) (r_classes r) ({[(c, d)]} ∪ r_devices r))
  end.
Definition device_destroy (c d : Z) (r : registry) : registry :=
  Registry (r_majors r) (r_classes r) (r_devices r ∖ {[(c, d)]}).

Lemma register_unregister m r a r' :
  0 ≤ m → register_chrdev m r = (a, r') → 0 ≤ a →
  let major := if m =? 0 then a else m in
  major ∉ r_majors r ∧ r_majors r' = {[major]} ∪ r_majors r ∧
  unregister_chrdev major r' = r ∧ (m = 0 → 0 < a).
Proof.
  intros Hm. unfold register_chrdev. pose proof (chrdev_fresh r m) as Hf.
  destruct (Z.ltb_spec (chrdev_answer r m) 0); intros [= <- <-] ?; [lia|].
  specialize (Hf ltac:(lia)). destruct (Z.eqb_spec m 0) as [->|]; destruct Hf as [??];
    (split_and!; [done|done| |lia]); unfold unregister_chrdev; cbn; destruct r; cbn in *;
    f_equal; set_solver.
Qed.

Lemma register_failed m r a r' : register_chrdev m r = (a, r') → a < 0 → r' = r.
Proof. unfold register_chrdev. destruct (Z.ltb_spec (chrdev_answer r m) 0); intros [= <- <-] ?; [done|lia]. Qed.

Lemma class_create_destroy r p r' : class_create r = (inr p, r') → class_destroy p r' = r.
Proof.
  unfold class_create. destruct (class_answer r) as [e|q] eqn:E; intros [= <- <-].
  apply class_fresh in E. unfold class_destroy. destruct r; cbn in *. f_equal. set_solver.
Qed.

Lemma device_create_destroy c d r r' : device_create c d r = (inr tt, r') → device_destroy c d r' = r.
Proof.
  unfold device_create. destruct (device_answer r c d) as [e|[]] eqn:E; intros [= <-].
  apply device_fresh in E. unfold device_destroy. destruct r; cbn in *. f_equal. set_solver.
Qed.
End chrdev.

(** Pages, and the part of the process's address space a driver is to map. *)
Class Pages := { PAGE_SHIFT : Z; page_shift : 0 < PAGE_SHIFT < 32 }.

Record vm_area_struct := Vma {
  vm_start : Z;
  vm_end : Z;
  vm_pgoff : Z;
  vm_flags : Z;
  vm_page_prot : Z
}.

(** portable_os.h: a registration handle collects the entry points of a driver
    (of type [F]), and completing it puts the driver in charge of a major; the
    entry points then serve the calls of processes. *)
Inductive os_fn := OS_FN_OPEN | OS_FN_IOCTL | OS_FN_CLOSE | OS_FN_MMAP.
#[export] Instance os_fn_eq_dec : EqDecision os_fn.
Proof. solve_decision. Defined.

Class OsDriver (R F : Type) := {
  os_driver_init_registration : R → R;
  os_driver_add_registration : R → os_fn → F → R;
  os_driver_complete_registration : R → Z → Z * R;
  os_driver_remove_registration : R → Z * R;
  os_unregister_chrdev : Z → R → R;
  os_entry : R → os_fn → option F;
  os_majors : R → gset Z;
  os_driver_get_major : R → Z;
  init_entry r f : os_entry (os_driver_init_registration r) f = None;
  init_majors r : os_majors (os_driver_init_registration r) = os_majors r;
  add_entry r f x g : os_entry (os_driver_add_registration r f x) g =
    if bool_decide (g = f) then Some x else os_entry r g;
  add_majors r f x : os_majors (os_driver_add_registration r f x) = os_majors r;
  (** The result is an error code, and 0 if the major is ours now. *)
  complete_spec r m c r' : os_driver_complete_registration r m = (c, r') →
    (∀ f, os_entry r' f = os_entry r f) ∧
    (c ≠ 0 → os_majors r' = os_majors r) ∧
    (c = 0 → os_majors r' = {[os_driver_get_major r']} ∪ os_majors r ∧
       os_driver_get_major r' ∉ os_majors r ∧
       0 < os_driver_get_major r' ∧ (m ≠ 0 → os_driver_get_major r' = m));
  remove_spec r c r' : os_driver_remove_registration r = (c, r') →
    os_majors r' = os_majors r ∖ {[os_driver_get_major r]};
  unregister_spec m r : os_majors (os_unregister_chrdev m r) = os_majors r ∖ {[m]}
}.
#[global] Hint Mode OsDriver ! - : typeclass_instances.

(** ** An instance of each class, to run the drivers on *)

(** A process whose memory is a finite map, all of it writable; a copy that
    meets an unmapped byte copies nothing. *)
Definition flat_byte (u : gmap Z Z) (a : Z) : option Z := u8 <$> u !! a.
Definition flat_read (u : gmap Z Z) (a n : Z) : option (list Z) :=
  mapM (flat_byte u) (seqZ a n).
Fixpoint flat_write (u : gmap Z Z) (a : Z) (bs : list Z) : gmap Z Z :=
  match bs with
  | [] => u
  | b :: bs => <[a := b]> (flat_write u (a + 1) bs)
  end.
Definition flat_copy_from (u : gmap Z Z) (a n : Z) : list Z * Z :=
  match flat_read u a n with
  | Some bs => (bs, 0)
  | None => (replicate (Z.to_nat n) 0, n)
  end.
Definition flat_copy_to (u : gmap Z Z) (a : Z) (bs : list Z) : gmap Z Z * Z :=
  if forallb (λ x, bool_decide (is_Some (u !! x))) (seqZ a (zlen bs)) then (flat_write u a bs, 0) else (u, zlen bs).

Lemma flat_read_Some u a n bs :
  0 ≤ n → flat_read u a n = Some bs →
  zlen bs = n ∧ ∀ i, 0 ≤ i < n → nthz bs i = flat_byte u (a + i).
Proof.
  intros Hn Hr. apply mapM_Some in Hr. pose proof (Forall2_length _ _ _ Hr) as Hl.
  rewrite length_seqZ in Hl. unfold zlen. split; [lia|]. intros i Hi.
  rewrite nthz_lookup by lia.
  destruct (lookup_lt_is_Some_2 bs (Z.to_nat i)) as [b Hb]; [lia|].
  destruct (Forall2_lookup_r _ _ _ _ _ Hr Hb) as (x & Hx & E).
  apply lookup_seqZ in Hx as [-> _]. rewrite Hb, <- E. do 2 f_equal. lia.
Qed.

Lemma flat_read_None u a n :
  0 ≤ n → flat_read u a n = None → ¬ (∀ i, 0 ≤ i < n → is_Some (flat_byte u (a + i))).
Proof.
  intros Hn Hr Hall. apply eq_None_not_Some in Hr. apply Hr. apply mapM_is_Some_2.
  apply Forall_forall. intros x Hx%elem_of_seqZ. destruct (Hall (x - a) ltac:(lia)) as [b Hb].
  exists b. rewrite <- Hb. f_equal. lia.
Qed.

Lemma flat_write_lookup u a bs x :
  flat_write u a bs !! x = if bool_decide (a ≤ x < a + zlen bs) then nthz bs (x - a) else u !! x.
Proof.
  revert a. induction bs as [|b bs IH]; intros a; cbn [flat_write].
  - unfold zlen. cbn. by rewrite bool_decide_false by lia.
  - rewrite zlen_cons. pose proof (zlen_nonneg bs). destruct (decide (x = a)) as [->|].
    + rewrite lookup_insert_eq, bool_decide_true by lia. by replace (a - a) with 0 by lia.
    + rewrite lookup_insert_ne, IH by done. case_bool_decide.
      * rewrite bool_decide_true, !nthz_lookup by lia.
        replace (Z.to_nat (x - a)) with (S (Z.to_nat (x - (a + 1)))) by lia. done.
      * by rewrite bool_decide_false by lia.
Qed.

#[export] Program Instance flat_uaccess : Uaccess (gmap Z Z) := {
  user_byte := flat_byte;
  user_writable u a := bool_decide (is_Some (u !! a));
  copy_from_user := flat_copy_from;
  copy_to_user := flat_copy_to
}.
Next Obligation.
  unfold flat_byte. intros u a b. destruct (u !! a); intros [= <-]. apply u8_range.
Qed.
Next Obligation.
  unfold flat_copy_from. intros u a n bs k Hn. destruct (flat_read u a n) as [l|] eqn:E; intros [= <- <-].
  - destruct (flat_read_Some _ _ _ _ Hn E) as [Hl Hb]. split_and!; [done|lia|lia|..].
    + intros i Hi. apply Hb. lia.
    + intros i Hi. lia.
    + done.
  - unfold zlen. rewrite length_replicate. split_and!; [lia..| | |].
    + intros i Hi. lia.
    + intros i Hi. rewrite nthz_lookup by lia. apply lookup_replicate_2. lia.
    + intros Hall. by destruct (flat_read_None _ _ _ Hn E).
Qed.
Next Obligation.
  unfold flat_copy_to. intros u a bs u' k Hb.
  destruct (forallb _ _) eqn:E; intros [= <- <-]; pose proof (zlen_nonneg bs) as Hn.
  - pose proof (proj1 (forallb_forall _ _) E) as Hall.
    assert (Hm : ∀ i, 0 ≤ i < zlen bs → is_Some (u !! (a + i))).
    { intros i Hi. assert (Hx : a + i ∈ seqZ a (zlen bs)) by (apply elem_of_seqZ; lia).
      by apply list_elem_of_In, Hall, bool_decide_eq_true in Hx. }
    split_and!; [lia|lia|..].
    + intros i Hi. unfold flat_byte. rewrite flat_write_lookup, bool_decide_true by lia.
      replace (a + i - a) with i by lia. destruct (nthz bs i) as [b|] eqn:Eb; [|done].
      cbn. f_equal. apply u8_small. by apply (nthz_bytes _ _ _ Hb Eb).
    + intros x Hx. unfold flat_byte. by rewrite flat_write_lookup, bool_decide_false by lia.
    + intros x. rewrite flat_write_lookup. destruct (decide (a ≤ x < a + zlen bs)) as [Hx|Hx];
        [rewrite (bool_decide_true _ Hx)|by rewrite (bool_decide_false _ Hx)].
      destruct (nthz_in_range bs (x - a) ltac:(lia)) as [b ->].
      specialize (Hm (x - a) ltac:(lia)). replace (a + (x - a)) with x in Hm by lia.
      by rewrite !bool_decide_true.
    + split; [|done]. intros _ i Hi. apply bool_decide_true. by apply Hm.
  - split_and!; [lia|lia|..]; [intros; lia|done|done|].
    split; [intros H0 i Hi; lia|]. intros Hall. exfalso. rewrite <- not_true_iff_false in E. apply E.
    apply forallb_forall. intros x Hx%list_elem_of_In%elem_of_seqZ. apply bool_decide_eq_true.
    specialize (Hall (x - a) ltac:(lia)). replace (a + (x - a)) with x in Hall by lia.
    by apply bool_decide_eq_true in Hall.
Qed.

(** Memory written with [flat_write] holds what was written. *)
Lemma flat_user_at (u : gmap Z Z) a bs : bytes bs → user_at (flat_write u a bs) a bs.
Proof.
  intros Hb i Hi. cbn. unfold flat_byte. rewrite flat_write_lookup, bool_decide_true by lia.
  replace (a + i - a) with i by lia. destruct (nthz bs i) as [b|] eqn:E; [|done].
  cbn. f_equal. apply u8_small. by apply (nthz_bytes _ _ _ Hb E).
Qed.
Lemma flat_writable_at (u : gmap Z Z) a bs : writable_at (flat_write u a bs) a (zlen bs).
Proof.
  intros i Hi. cbn. rewrite flat_write_lookup, (bool_decide_true (a ≤ a + i < _)) by lia.
  replace (a + i - a) with i by lia. destruct (nthz_in_range bs i Hi) as [b ->]. by apply bool_decide_true.
Qed.
Lemma flat_user_other (u : gmap Z Z) a bs b ks :
  a + zlen bs ≤ b ∨ b + zlen ks ≤ a → user_at u b ks → user_at (flat_write u a bs) b ks.
Proof.
  intros Ho Hu i Hi. rewrite <- (Hu i Hi). cbn. unfold flat_byte.
  by rewrite flat_write_lookup, bool_decide_false by lia.
Qed.
Lemma flat_writable_other (u : gmap Z Z) a bs b n : writable_at u b n → writable_at (flat_write u a bs) b n.
Proof.
  intros Hu i Hi. pose proof (Hu i Hi) as Hw. cbn in *. apply bool_decide_eq_true. apply bool_decide_eq_true in Hw.
  rewrite flat_write_lookup. case_bool_decide; [|done]. apply nthz_in_range. lia.
Qed.

Lemma flat_read_bytes u a n bs : flat_read u a n = Some bs → bytes bs.
Proof.
  intros Hr%mapM_Some. apply Forall_lookup_2. intros i b Hb.
  destruct (Forall2_lookup_r _ _ _ _ _ Hr Hb) as (x & _ & E). unfold flat_byte in E.
  destruct (u !! x); [|done]. injection E as <-. apply u8_range.
Qed.
Lemma flat_read_write u a bs : bytes bs → flat_read (flat_write u a bs) a (zlen bs) = Some bs.
Proof.
  intros Hb. pose proof (zlen_nonneg bs) as Hn. pose proof (flat_user_at u a bs Hb) as Hu.
  destruct (flat_read _ _ _) as [l|] eqn:E.
  - destruct (flat_read_Some _ _ _ _ Hn E) as [Hl Hi]. f_equal. apply list_eq_byte_at; [done|].
    intros i Hlt. unfold byte_at. rewrite Hi by lia. specialize (Hu i ltac:(lia)). cbn in Hu. by rewrite Hu.
  - destruct (flat_read_None _ _ _ Hn E). intros i Hi. specialize (Hu i Hi). cbn in Hu. rewrite Hu.
    destruct (nthz_in_range bs i Hi) as [b ->]. done.
Qed.

(** An allocator that never refuses and clears its blocks. *)
#[export] Program Instance zero_kmalloc : Kmalloc := {
  kmalloc_answer _ size := Some (replicate (Z.to_nat size) 0)
}.
Next Obligation.
  intros n size bs Hs [= <-]. unfold zlen. rewrite length_replicate. split; [lia|].
  apply Forall_replicate. unfold is_byte. lia.
Qed.

(** The encoding of <asm-generic/ioctl.h>. *)
#[export] Program Instance asm_generic_ioctl : Ioctl := {
  _IOC_NONE := 0; _IOC_WRITE := 1; _IOC_READ := 2;
  _IOC d t n sz := n + 2 ^ 8 * t + 2 ^ 16 * sz + 2 ^ 30 * d;
  _IOC_DIR c := c / 2 ^ 30;
  _IOC_TYPE c := c / 2 ^ 8 mod 2 ^ 8;
  _IOC_NR c := c mod 2 ^ 8;
  _IOC_SIZE c := c / 2 ^ 16 mod 2 ^ 14
}.
Next Obligation. lia. Qed.
Next Obligation. done. Qed.
Next Obligation. done. Qed.
Next Obligation.
  intros d t n sz _ Ht Hn Hs. change (2 ^ 8) with 256. change (2 ^ 16) with 65536.
  change (2 ^ 30) with 1073741824. change (2 ^ 14) with 16384. change (2 ^ 13) with 8192 in Hs.
  split_and!; [dlia| |dlia|].
  - replace ((n + _ + _ + _) / 256) with (t + 256 * sz + 4194304 * d) by dlia. dlia.
  - replace ((n + _ + _ + _) / 65536) with (sz + 16384 * d) by dlia. dlia.
Qed.

#[export] Program Instance linux_errno : Errno := {
  ENOMEM := 12; EFAULT := 14; EINVAL := 22; ENOTTY := 25; EIO := 5; EAGAIN := 11; ESPIPE := 29;
  EBUSY := 16; EBADFD := 77
}.
Next Obligation. lia. Qed.
Next Obligation. lia. Qed.

#[export] Program Instance os_error_example : OsError := {
  OS_ERROR_OK_S := 0; OS_ERROR_FAIL_S := -1; OS_ERROR_NO_MEMORY_S := -2;
  OS_ERROR_BAD_ADDRESS_S := -3; os_copy_code k := if k =? 0 then 0 else -3
}.
Next Obligation. done. Qed.
Next Obligation. lia. Qed.
Next Obligation. lia. Qed.
Next Obligation. intros k. cbn. zcase; lia. Qed.

(** A kernel that has one major, one class and one device to give. *)
#[export] Program Instance chrdev_example : Chrdev := {
  chrdev_answer r m := if bool_decide (r_majors r = ∅) then if m =? 0 then 254 else 0 else -16;
  class_answer r := if bool_decide (r_classes r = ∅) then inr 1 else inl (-12);
  device_answer r _ _ := if bool_decide (r_devices r = ∅) then inr tt else inl (-12);
  MKDEV major minor := 2 ^ 20 * major + minor
}.
Next Obligation.
  intros r m. cbn. case_bool_decide as E; [|lia]. rewrite E.
  destruct (Z.eqb_spec m 0); intros; (split; [lia|set_solver]).
Qed.
Next Obligation. intros r p. cbn. case_bool_decide as E; [|done]. intros _. rewrite E. set_solver. Qed.
Next Obligation. intros r e. cbn. case_bool_decide; [done|]. intros [= <-]. lia. Qed.
Next Obligation. intros r c d. cbn. case_bool_decide as E; [|done]. intros _. rewrite E. set_solver. Qed.

#[export] Program Instance pages_example : Pages := { PAGE_SHIFT := 12 }.
Next Obligation. lia. Qed.

(** Handles that keep the entry points in a function; one major is free. *)
Record os_handle (F : Type) := OsHandle {
  oh_entry : os_fn → option F;
  oh_major : Z;
  oh_majors : gset Z
}.
Arguments OsHandle {F}. Arguments oh_entry {F}. Arguments oh_major {F}. Arguments oh_majors {F}.

#[export] Program Instance os_driver_example F : OsDriver (os_handle F) F := {
  os_driver_init_registration r := OsHandle (λ _, None) (oh_major r) (oh_majors r);
  os_driver_add_registration r f x :=
    OsHandle (λ g, if bool_decide (g = f) then Some x else oh_entry r g) (oh_major r) (oh_majors r);
  os_driver_complete_registration r m :=
    let major := if m =? 0 then 254 else m in
    if (0 <? major) && bool_decide (major ∉ oh_majors r)
    then (0, OsHandle (oh_entry r) major ({[major]} ∪ oh_majors r)) else (-1, r);
  os_driver_remove_registration r := (0, OsHandle (oh_entry r) (oh_major r) (oh_majors r ∖ {[oh_major r]}));
  os_unregister_chrdev m r := OsHandle (oh_entry r) (oh_major r) (oh_majors r ∖ {[m]});
  os_entry := oh_entry;
  os_majors := oh_majors;
  os_driver_get_major := oh_major
}.
Next Obligation. done. Qed.
Next Obligation. done. Qed.
Next Obligation. done. Qed.
Next Obligation. done. Qed.
Next Obligation.
  intros F r m c r'. cbn. set (major := if m =? 0 then 254 else m).
  destruct (Z.ltb_spec 0 major) as [Hp|Hp]; cbn; [case_bool_decide as Hn|]; intros [= <- <-]; cbn;
    (split_and!; try done). intros _. split_and!; try done. intros Hm. unfold major. by zcase.
Qed.
Next Obligation. intros F r c r'. cbn. by intros [= <- <-]. Qed.
Next Obligation. done. Qed.

(** A cipher for the examples. *)
Definition xor_bytes (bs : list Z) : list Z := (λ b, u8 (Z.lxor b 90)) <$> bs.

Lemma xor_bytes_twice bs : bytes bs → xor_bytes (xor_bytes bs) = bs.
Proof.
  induction 1 as [|b bs Hb _ IH]; [done|]. unfold xor_bytes in *. cbn. f_equal; [|exact IH].
  assert (Hall : forallb (λ b, u8 (Z.lxor (u8 (Z.lxor b 90)) 90) =? b) (seqZ 0 256) = true) by by vm_compute.
  apply Z.eqb_eq. apply (proj1 (forallb_forall _ _) Hall b). apply list_elem_of_In, elem_of_seqZ.
  unfold is_byte in Hb. lia.
Qed.
Lemma bytes_xor bs : bytes (xor_bytes bs).
Proof. apply Forall_fmap, Forall_forall. intros b _. apply u8_range. Qed.
Lemma zlen_xor bs : zlen (xor_bytes bs) = zlen bs.
Proof. unfold zlen, xor_bytes. by rewrite length_fmap. Qed.
