(* ===== verification/Memalloc.v ===== *)
(** * memalloc.c: linear memory for the video encoder

    The module hands physically contiguous blocks to processes: an ioctl takes a
    block from the DMA allocator and puts it on [heap_list], another gives it
    back, mmap maps it, and what is left goes when the device is closed for the
    last time, on a reset, or when the module is unloaded.  [memalloc] is what the
    module and the DMA allocator keep; the process's memory is the [k_user] of
    the kernel state. *)

From S2P Require Import Prelude Kernel.
From stdpp Require Import list_numbers.

Open Scope Z_scope.

(** An entry of [heap_list]; the links are the list's. *)
(* C: module_test/memalloc.c allocation 44-49 *)
Record allocation := Allocation { phys_addr : Z; cpu_addr : Z; size : Z }.

(** A live block of the DMA allocator: size, virtual and bus address. *)
Abbreviation block := (Z * Z * Z)%type.
Definition block_of (e : allocation) : block := (size e, cpu_addr e, phys_addr e).

(** The statics of the module; the entries kzalloc made, by their number; the
    blocks in use; the mappings made of them (start, page frame, size). *)
(* C: module_test/memalloc.c memalloc_major 38-52 *)
Record memalloc := Memalloc {
  memalloc_major : Z;
  memalloc_class : Z;
  open_count : Z;
  heap_list : list nat;
  mem_lock : bool;
  m_entries : gmap nat allocation;
  m_requests : nat;
  m_dma : list block;
  m_maps : list (Z * Z * Z);
  m_reg : registry
}.

(* C: module_test/memalloc.h MEMALLOC_IOC_MAGIC 30-31 *)
Definition MEMALLOC_IOC_MAGIC : Z := 107.
(* C: module_test/memalloc.h MEMALLOC_IOC_MAXNR 45-45 *)
Definition MEMALLOC_IOC_MAXNR : Z := 3.

(** What of <linux/mm.h> the module uses, and the answers of the allocators.
    PAGE_ALIGN is asked of a u32. *)
Class Mm `{Pages} := {
  PAGE_ALIGN : Z → Z;
  VM_RESERVED : Z;
  pgprot_noncached : Z → Z;
  access_ok : ∀ {U} `{Uaccess U}, U → Z → Z → bool;
  kzalloc_ok : nat → bool;
  dma_answer : list block → Z → option (Z * Z);
  remap_answer : list (Z * Z * Z) → Z → Z → Z → Z → Z;
  page_align x : 0 ≤ x ≤ 2 ^ 32 - 2 ^ PAGE_SHIFT →
    x ≤ PAGE_ALIGN x < x + 2 ^ PAGE_SHIFT ∧ (2 ^ PAGE_SHIFT | PAGE_ALIGN x);
  page_align_range x : 0 ≤ PAGE_ALIGN x < 2 ^ 32;
  access_ok_mapped {U} `{Uaccess U} (u : U) a bs : user_at u a bs → access_ok u a (zlen bs) = true;
  (** A block has an address, and no live block has its bus address. *)
  dma_fresh live n cpu phys : dma_answer live n = Some (cpu, phys) →
    0 < cpu < 2 ^ 32 ∧ 0 ≤ phys < 2 ^ 32 ∧ ∀ b, b ∈ live → b.2 ≠ phys
}.

Section memalloc.
Context {U : Type} `{Uaccess U} `{Ioctl} `{Errno} `{Chrdev} `{Mm}.
Abbreviation KM := (M (kstate U memalloc)).

(* C: module_test/memalloc.h MEMALLOC_IOCXGETBUFFER 41-41 *)
Definition MEMALLOC_IOCXGETBUFFER : Z := _IOWR MEMALLOC_IOC_MAGIC 1 4.
(* C: module_test/memalloc.h MEMALLOC_IOCSFREEBUFFER 42-42 *)
Definition MEMALLOC_IOCSFREEBUFFER : Z := _IOW MEMALLOC_IOC_MAGIC 2 4.
(* C: module_test/memalloc.h MEMALLOC_IOCHARDRESET 43-43 *)
Definition MEMALLOC_IOCHARDRESET : Z := _IO MEMALLOC_IOC_MAGIC 3.

(** ** Updates of the state *)
Definition set_open_count n (m : memalloc) : memalloc :=
  Memalloc (memalloc_major m) (memalloc_class m) n (heap_list m) (mem_lock m) (m_entries m)
    (m_requests m) (m_dma m) (m_maps m) (m_reg m).
Definition set_heap_list l (m : memalloc) : memalloc :=
  Memalloc (memalloc_major m) (memalloc_class m) (open_count m) l (mem_lock m) (m_entries m)
    (m_requests m) (m_dma m) (m_maps m) (m_reg m).
Definition set_mem_lock b (m : memalloc) : memalloc :=
  Memalloc (memalloc_major m) (memalloc_class m) (open_count m) (heap_list m) b (m_entries m)
    (m_requests m) (m_dma m) (m_maps m) (m_reg m).
Definition set_entries es (m : memalloc) : memalloc :=
  Memalloc (memalloc_major m) (memalloc_class m) (open_count m) (heap_list m) (mem_lock m) es
    (m_requests m) (m_dma m) (m_maps m) (m_reg m).
Definition set_requests n (m : memalloc) : memalloc :=
  Memalloc (memalloc_major m) (memalloc_class m) (open_count m) (heap_list m) (mem_lock m) (m_entries m)
    n (m_dma m) (m_maps m) (m_reg m).
Definition set_dma l (m : memalloc) : memalloc :=
  Memalloc (memalloc_major m) (memalloc_class m) (open_count m) (heap_list m) (mem_lock m) (m_entries m)
    (m_requests m) l (m_maps m) (m_reg m).
Definition set_maps l (m : memalloc) : memalloc :=
  Memalloc (memalloc_major m) (memalloc_class m) (open_count m) (heap_list m) (mem_lock m) (m_entries m)
    (m_requests m) (m_dma m) l (m_reg m).
Definition set_reg major class r (m : memalloc) : memalloc :=
  Memalloc major class (open_count m) (heap_list m) (mem_lock m) (m_entries m)
    (m_requests m) (m_dma m) (m_maps m) r.

Definition st : KM memalloc := λ s, Done (k_dev s, s).
Definition upd (f : memalloc → memalloc) : KM unit := λ s, Done (tt, set_dev (f (k_dev s)) s).

(** ** The allocators *)
Definition kzalloc : KM (option nat) :=
  m ← st;
  let p := m_requests m in
  _ ← upd (set_requests (S p));
  if kzalloc_ok p then _ ← upd (λ m, set_entries (<[p := Allocation 0 0 0]> (m_entries m)) m); mret (Some p)
  else mret None.

Definition load_entry (p : nat) : KM allocation :=
  m ← st; lift (of_option (m_entries m !! p)).
Definition store_entry (p : nat) (e : allocation) : KM unit :=
  upd (λ m, set_entries (<[p := e]> (m_entries m)) m).
Definition kfree_entry (p : nat) : KM unit :=
  _ ← load_entry p; upd (λ m, set_entries (delete p (m_entries m)) m).

(** The address is 0 when there is no memory; [phys] is then as it was. *)
Definition dma_alloc_coherent (n phys : Z) : KM (Z * Z) :=
  m ← st;
  match dma_answer (m_dma m) n with
  | Some (cpu, phys) => _ ← upd (λ m, set_dma ((n, cpu, phys) :: m_dma m) m); mret (cpu, phys)
  | None => mret (0, phys)
  end.

Fixpoint remove_block (b : block) (l : list block) : option (list block) :=
  match l with
  | [] => None
  | c :: l => if decide (b = c) then Some l else cons c <$> remove_block b l
  end.

(** Giving back what is not in use is not defined. *)
Definition dma_free_coherent (b : block) : KM unit :=
  m ← st;
  l ← lift (of_option (remove_block b (m_dma m)));
  upd (set_dma l).

Definition list_del (p : nat) : KM unit :=
  upd (λ m, set_heap_list (filter (λ q, q ≠ p) (heap_list m)) m).

(** ** The operations of memalloc.c *)

(* C: module_test/memalloc.c memalloc_free_buffers 67-78 *)
Fixpoint free_all (fuel : nat) : KM unit :=
  match fuel with
  | O => lift NoFuel
  | S fuel =>
      m ← st;
      match heap_list m with
      | [] => mret tt
      | ptr :: _ =>
          entry ← load_entry ptr;
          _ ← dma_free_coherent (block_of entry);
          _ ← list_del ptr;
          _ ← kfree_entry ptr;
          free_all fuel
      end
  end.

(* C: module_test/memalloc.c memalloc_free_buffers *)
Definition memalloc_free_buffers : KM unit :=
  m ← st; free_all (S (length (heap_list m))).

(* C: module_test/memalloc.c FindEntryByBus 334-341 *)
Fixpoint find_entry (phys : Z) (l : list nat) : KM (option nat) :=
  match l with
  | [] => mret None
  | p :: l =>
      entry ← load_entry p;
      if phys_addr entry =? phys then mret (Some p) else find_entry phys l
  end.

(* C: module_test/memalloc.c FindEntryByBus *)
Definition FindEntryByBus (phys : Z) : KM (option nat) :=
  m ← st; find_entry phys (heap_list m).

(** The result, and what [*phys_addr] is then. *)
(* C: module_test/memalloc.c AllocMemory *)
Definition AllocMemory (phys n : Z) : KM (Z * Z) :=
  entry ← kzalloc;
  match entry with
  | None => mret (- ENOMEM, phys)
  | Some p =>
      let n := PAGE_ALIGN n in
      '(cpu, bus) ← dma_alloc_coherent n 0;
      _ ← store_entry p (Allocation bus cpu 0);
      if cpu =? 0 then mret (- ENOMEM, 0)
      else
        _ ← store_entry p (Allocation bus cpu n);
        _ ← upd (λ m, set_heap_list (heap_list m ++ [p]) m);
        mret (0, bus)
  end.

(* C: module_test/memalloc.c FreeMemory *)
Definition FreeMemory (phys : Z) : KM Z :=
  entry ← FindEntryByBus phys;
  match entry with
  | None => mret (- EINVAL)
  | Some p =>
      e ← load_entry p;
      _ ← list_del p;
      _ ← dma_free_coherent (block_of e);
      _ ← kfree_entry p;
      mret 0
  end.

(** An entry that was found is mapped if it has the size of the area: the result,
    and the area the process is to see. *)
(* C: module_test/memalloc.c MapBuffer 301-318 *)
Definition map_found (vma : vm_area_struct) (p : nat) : KM (Z * vm_area_struct) :=
  let start := u32 (vm_start vma) in
  let n := u32 (vm_end vma - vm_start vma) in
  e ← load_entry p;
  if negb (n =? size e) then mret (- EINVAL, vma)
  else
    let vma := Vma (vm_start vma) (vm_end vma) (vm_pgoff vma)
      (Z.lor (vm_flags vma) VM_RESERVED) (pgprot_noncached (vm_page_prot vma)) in
    let pfn := Z.shiftr (phys_addr e) PAGE_SHIFT in
    m ← st;
    if remap_answer (m_maps m) start pfn n (vm_page_prot vma) =? 0 then
      _ ← upd (λ m, set_maps ((start, pfn, n) :: m_maps m) m);
      mret (0, vma)
    else mret (- EAGAIN, vma).

(* C: module_test/memalloc.c MapBuffer *)
Definition MapBuffer (vma : vm_area_struct) : KM (Z * vm_area_struct) :=
  let offset := u32 (Z.shiftl (vm_pgoff vma) PAGE_SHIFT) in
  entry ← FindEntryByBus offset;
  match entry with
  | None => mret (- EINVAL, vma)
  | Some p => map_found vma p
  end.

Definition spin_lock : KM unit :=
  m ← st; _ ← lift (assert_ (negb (mem_lock m))); upd (set_mem_lock true).
Definition spin_unlock : KM unit := upd (set_mem_lock false).

(* C: module_test/memalloc.c memalloc_mmap *)
Definition memalloc_mmap (vma : vm_area_struct) : KM (Z * vm_area_struct) :=
  _ ← spin_lock;
  r ← MapBuffer vma;
  _ ← spin_unlock;
  mret r.

(* C: module_test/memalloc.c memalloc_ioctl *)
Definition memalloc_ioctl (cmd arg : Z) : KM Z :=
  if negb (_IOC_TYPE cmd =? MEMALLOC_IOC_MAGIC) then mret (- ENOTTY)
  else if MEMALLOC_IOC_MAXNR <? _IOC_NR cmd then mret (- ENOTTY)
  else
    u ← (λ s, Done (k_user s, s));
    let err :=
      if negb (Z.land (_IOC_DIR cmd) _IOC_READ =? 0) then negb (access_ok u arg (_IOC_SIZE cmd))
      else if negb (Z.land (_IOC_DIR cmd) _IOC_WRITE =? 0) then negb (access_ok u arg (_IOC_SIZE cmd))
      else false in
    if err then mret (- EFAULT)
    else if cmd =? MEMALLOC_IOCHARDRESET then
      _ ← memalloc_free_buffers; mret 0
    else if cmd =? MEMALLOC_IOCXGETBUFFER then
      '(n, _) ← get_user32 arg;
      '(retval, phys) ← AllocMemory 0 n;
      _ ← put_user32 arg phys;
      mret retval
    else if cmd =? MEMALLOC_IOCSFREEBUFFER then
      '(phys, _) ← get_user32 arg;
      FreeMemory phys
    else mret (- EINVAL).

(* C: module_test/memalloc.c memalloc_open *)
Definition memalloc_open : KM Z :=
  _ ← upd (λ m, set_open_count (s32 (open_count m + 1)) m); mret 0.

(* C: module_test/memalloc.c memalloc_release *)
Definition memalloc_release : KM Z :=
  _ ← upd (λ m, set_open_count (s32 (open_count m - 1)) m);
  m ← st;
  _ ← (if open_count m =? 0 then memalloc_free_buffers else mret tt);
  mret 0.

(** The registry part of the state. *)
Definition reg_step {R} (f : registry → R * registry) : KM R := λ s,
  let m := k_dev s in
  let '(r, g) := f (m_reg m) in
  Done (r, set_dev (set_reg (memalloc_major m) (memalloc_class m) g m) s).
Definition reg_do (f : registry → registry) : KM unit := reg_step (λ r, (tt, f r)).

(** The kernels from 2.6.26 on: the device is made by device_create. *)
(* C: module_test/memalloc.c memalloc_init *)
Definition memalloc_init : KM Z :=
  m ← st;
  result ← reg_step (register_chrdev (memalloc_major m));
  if result <=? 0 then mret (- EIO)
  else
    _ ← upd (λ m, set_reg result (memalloc_class m) (m_reg m) m);
    c ← reg_step class_create;
    match c with
    | inl e =>
        _ ← upd (λ m, set_reg (memalloc_major m) e (m_reg m) m);
        m ← st;
        _ ← reg_do (unregister_chrdev (memalloc_major m));
        mret (- EIO)
    | inr c =>
        _ ← upd (λ m, set_reg (memalloc_major m) c (m_reg m) m);
        m ← st;
        d ← reg_step (device_create (memalloc_class m) (MKDEV (memalloc_major m) 0));
        match d with
        | inl _ =>
            _ ← reg_do (class_destroy (memalloc_class m));
            _ ← reg_do (unregister_chrdev (memalloc_major m));
            mret (- EIO)
        | inr _ => mret 0
        end
    end.

(* C: module_test/memalloc.c memalloc_cleanup *)
Definition memalloc_cleanup : KM unit :=
  m ← st;
  _ ← reg_do (device_destroy (memalloc_class m) (MKDEV (memalloc_major m) 0));
  _ ← reg_do (class_destroy (memalloc_class m));
  _ ← reg_do (unregister_chrdev (memalloc_major m));
  memalloc_free_buffers.
End memalloc.

(** ** The abstract state: the allocations in the order they were made *)

Section memalloc_proofs.
Context {U : Type} `{Uaccess U} `{Ioctl} `{Errno} `{Chrdev} `{Mm}.
Abbreviation KM := (M (kstate U memalloc)).
Implicit Types (s : kstate U memalloc) (m : memalloc) (es : list allocation).

(** [es] is what is on [heap_list], and exactly that is allocated. *)
Record holds m es : Prop := Holds {
  h_list : Forall2 (λ p e, m_entries m !! p = Some e) (heap_list m) es;
  h_nodup : NoDup (heap_list m);
  h_dma : m_dma m ≡ₚ (block_of <$> es);
  h_fresh : ∀ p, is_Some (m_entries m !! p) → (p < m_requests m)%nat;
  h_phys : NoDup (phys_addr <$> es);
  h_u32 : Forall (λ e, 0 ≤ phys_addr e < 2 ^ 32 ∧ 0 ≤ size e < 2 ^ 32) es
}.

(** What the operations on [heap_list] leave alone. *)
Definition same_statics m m' : Prop :=
  memalloc_major m' = memalloc_major m ∧ memalloc_class m' = memalloc_class m ∧
  open_count m' = open_count m ∧ mem_lock m' = mem_lock m ∧ m_maps m' = m_maps m ∧ m_reg m' = m_reg m.

Lemma same_statics_trans m1 m2 m3 : same_statics m1 m2 → same_statics m2 m3 → same_statics m1 m3.
Proof. unfold same_statics. naive_solver congruence. Qed.

Lemma load_entry_ok p e s :
  m_entries (k_dev s) !! p = Some e → load_entry p s = Done (e, s).
Proof. intros He. unfold load_entry, st. rewrite M_bind_eq. cbn. by rewrite He. Qed.

Lemma remove_block_ok b l k :
  l ≡ₚ b :: k → ∃ l', remove_block b l = Some l' ∧ l' ≡ₚ k.
Proof.
  revert k. induction l as [|c l IH]; intros k Hp.
  { by apply Permutation_nil_cons in Hp. }
  cbn. destruct (decide (b = c)) as [<-|Hne].
  { exists l. split; [done|]. by apply Permutation_cons_inv in Hp. }
  assert (Hc : c ∈ b :: k) by (rewrite <- Hp; by left).
  apply elem_of_cons in Hc as [->|Hc]; [done|].
  apply elem_of_Permutation in Hc as [k' Hk]. rewrite Hk in Hp.
  assert (Hl : l ≡ₚ b :: k').
  { apply (Permutation_cons_inv (a := c)). rewrite Hp. apply Permutation_swap. }
  destruct (IH _ Hl) as (l' & -> & Hl'). exists (c :: l'). split; [done|]. by rewrite Hl', Hk.
Qed.

Lemma filter_ne_head (p : nat) (l : list nat) : p ∉ l → filter (λ q, q ≠ p) l = l.
Proof.
  induction l as [|q l IH]; [done|]. intros [??]%not_elem_of_cons.
  rewrite filter_cons_True, IH by done. done.
Qed.

Lemma filter_ne_middle (p : nat) (l1 l2 : list nat) :
  NoDup (l1 ++ p :: l2) → filter (λ q, q ≠ p) (l1 ++ p :: l2) = l1 ++ l2.
Proof.
  intros Hn. apply NoDup_app in Hn as (_ & Hd & Hn2). apply NoDup_cons in Hn2 as [Hp2 _].
  rewrite filter_app, filter_cons_False by auto. rewrite !filter_ne_head; [done..|].
  intros Hp. eapply Hd; [done|by left].
Qed.

(** Entries elsewhere on the list are not touched. *)
Lemma entries_delete (h : gmap nat allocation) q l es :
  q ∉ l → Forall2 (λ p e, h !! p = Some e) l es → Forall2 (λ p e, delete q h !! p = Some e) l es.
Proof.
  intros Hq. induction 1; [constructor|]. apply not_elem_of_cons in Hq as [??].
  constructor; [by rewrite lookup_delete_ne|by auto].
Qed.
Lemma entries_insert (h : gmap nat allocation) q x l es :
  q ∉ l → Forall2 (λ p e, h !! p = Some e) l es → Forall2 (λ p e, <[q := x]> h !! p = Some e) l es.
Proof.
  intros Hq. induction 1; [constructor|]. apply not_elem_of_cons in Hq as [??].
  constructor; [by rewrite lookup_insert_ne|by auto].
Qed.

(** Taking an entry off the list, its block and itself out of use. *)
Lemma drop_entry_ok s es1 e es2 l1 p l2 :
  holds (k_dev s) (es1 ++ e :: es2) → heap_list (k_dev s) = l1 ++ p :: l2 → length l1 = length es1 →
  let m := k_dev s in
  ∃ l, remove_block (block_of e) (m_dma m) = Some l ∧ m_entries m !! p = Some e ∧
    let m' := set_entries (delete p (m_entries m)) (set_heap_list (l1 ++ l2) (set_dma l m)) in
    filter (λ q, q ≠ p) (heap_list m) = l1 ++ l2 ∧
    holds m' (es1 ++ es2) ∧ same_statics m m'.
Proof.
  intros [Hl Hn Hd Hf Hp Hu] El Hlen m. subst m. rewrite El in *.
  apply Forall2_app_inv in Hl as [Hl1 Hl2]; [|done]. inversion Hl2 as [|???? He Hl2']; subst.
  rewrite fmap_app, fmap_cons, <- Permutation_middle in Hd.
  destruct (remove_block_ok _ _ _ Hd) as (l & Hr & Hl'). exists l.
  split; [done|]. split; [done|]. split; [by apply filter_ne_middle|].
  split; [|by split_and!].
  pose proof Hn as Hn'. apply NoDup_app in Hn' as (Hn1 & Hd12 & [Hpl2 Hn2]%NoDup_cons).
  assert (Hpl1 : p ∉ l1) by (intros Hin; eapply Hd12; [done|by left]).
  split; cbn; try done.
  - by apply Forall2_app; apply entries_delete.
  - rewrite <- Permutation_middle in Hn. by apply NoDup_cons in Hn as [_ ?].
  - by rewrite Hl', fmap_app.
  - intros q [x Hx]. apply lookup_delete_Some in Hx as [_ Hx]. apply Hf. by eexists.
  - rewrite fmap_app, fmap_cons, <- Permutation_middle in Hp.
    rewrite fmap_app. by apply NoDup_cons in Hp as [_ ?].
  - apply Forall_app in Hu as [? [_ ?]%Forall_cons]. by apply Forall_app.
Qed.

Lemma st_ok s : st s = Done (k_dev s, s).
Proof. done. Qed.
Lemma upd_ok f s : upd f s = Done (tt, set_dev (f (k_dev s)) s).
Proof. done. Qed.
Lemma dma_free_ok b s l :
  remove_block b (m_dma (k_dev s)) = Some l →
  dma_free_coherent b s = Done (tt, set_dev (set_dma l (k_dev s)) s).
Proof. intros E. unfold dma_free_coherent. mstep st_ok. rewrite M_bind_eq. by rewrite E. Qed.
Lemma kfree_entry_ok p e s :
  m_entries (k_dev s) !! p = Some e →
  kfree_entry p s = Done (tt, set_dev (set_entries (delete p (m_entries (k_dev s))) (k_dev s)) s).
Proof. intros E. unfold kfree_entry. by mstep load_entry_ok. Qed.
Lemma unlist_ok p s :
  list_del p s = Done (tt, set_dev (set_heap_list (filter (λ q, q ≠ p) (heap_list (k_dev s))) (k_dev s)) s).
Proof. done. Qed.

Lemma free_all_ok fuel s es :
  holds (k_dev s) es → (length es < fuel)%nat →
  ∃ m', free_all fuel s = Done (tt, set_dev m' s) ∧ holds m' [] ∧ same_statics (k_dev s) m'.
Proof.
  revert s es. induction fuel as [|fuel IH]; intros s es Hh Hf; [lia|].
  cbn [free_all]. mstep st_ok.
  pose proof (h_list _ _ Hh) as Hl. destruct (heap_list (k_dev s)) as [|p l] eqn:El.
  - inversion Hl; subst. exists (k_dev s). split; [by destruct s|]. split; [done|by split_and!].
  - inversion Hl as [|? e ? es' He Hl']; subst.
    destruct (drop_entry_ok s [] e es' [] p l Hh El eq_refl) as (d & Hd & _ & Hfl & Hh' & Hs).
    mstep load_entry_ok; [|done].
    mstep dma_free_ok; [|done]. mstep unlist_ok. mstep (kfree_entry_ok p e); [|cbn; by rewrite El in *].
    edestruct (IH (set_dev _ s) es' Hh') as (m' & E & Hm' & Hs'); [cbn in Hf; lia|].
    exists m'. split; [|split; [done|by eapply same_statics_trans]].
    etrans; [|exact E]. unfold set_dev. cbn in *. by rewrite Hfl.
Qed.

Lemma memalloc_free_buffers_ok s es :
  holds (k_dev s) es →
  ∃ m', memalloc_free_buffers s = Done (tt, set_dev m' s) ∧ holds m' [] ∧ same_statics (k_dev s) m'.
Proof.
  intros Hh. unfold memalloc_free_buffers, st. rewrite M_bind_eq. cbn [obind].
  eapply free_all_ok; [done|]. rewrite (Forall2_length _ _ _ (h_list _ _ Hh)). lia.
Qed.

(** The first entry with the address, or none. *)
Lemma find_entry_ok phys l es s :
  Forall2 (λ p e, m_entries (k_dev s) !! p = Some e) l es →
  (find_entry phys l s = Done (None, s) ∧ phys ∉ phys_addr <$> es) ∨
  (∃ l1 p l2 es1 e es2, find_entry phys l s = Done (Some p, s) ∧ l = l1 ++ p :: l2 ∧
     es = es1 ++ e :: es2 ∧ length l1 = length es1 ∧ phys_addr e = phys).
Proof.
  induction 1 as [|p e l es He Hl IH]; cbn [find_entry].
  { left. split; [done|]. apply not_elem_of_nil. }
  mstep load_entry_ok; [|done]. destruct (Z.eqb_spec (phys_addr e) phys) as [E|E].
  { right. by exists [], p, l, [], e, es. }
  destruct IH as [[-> Hn]|(l1 & q & l2 & es1 & x & es2 & -> & -> & -> & Hlen & Hx)].
  - left. split; [done|]. rewrite fmap_cons. by apply not_elem_of_cons.
  - right. exists (p :: l1), q, l2, (e :: es1), x, es2. cbn. split_and!; auto.
Qed.

Lemma FindEntryByBus_ok phys s es :
  holds (k_dev s) es →
  (FindEntryByBus phys s = Done (None, s) ∧ phys ∉ phys_addr <$> es) ∨
  (∃ l1 p l2 es1 e es2, FindEntryByBus phys s = Done (Some p, s) ∧
     heap_list (k_dev s) = l1 ++ p :: l2 ∧
     es = es1 ++ e :: es2 ∧ length l1 = length es1 ∧ phys_addr e = phys).
Proof. intros Hh. unfold FindEntryByBus, st. rewrite M_bind_eq. by apply find_entry_ok, h_list. Qed.

Lemma FreeMemory_ok phys s es :
  holds (k_dev s) es →
  (phys ∉ phys_addr <$> es ∧ FreeMemory phys s = Done (- EINVAL, s)) ∨
  (∃ es1 e es2 m', es = es1 ++ e :: es2 ∧ phys_addr e = phys ∧
     FreeMemory phys s = Done (0, set_dev m' s) ∧ holds m' (es1 ++ es2) ∧ same_statics (k_dev s) m').
Proof.
  intros Hh. unfold FreeMemory. rewrite M_bind_eq.
  destruct (FindEntryByBus_ok phys s es Hh)
    as [[-> Hn]|(l1 & p & l2 & es1 & e & es2 & -> & El & -> & Hlen & He)]; [by left|right].
  destruct (drop_entry_ok s es1 e es2 l1 p l2 Hh El Hlen) as (d & Hd & Hp & Hfl & Hh' & Hs).
  exists es1, e, es2. eexists. split; [done|]. split; [done|]. split; [|split; [exact Hh'|exact Hs]].
  cbn [obind]. mstep load_entry_ok; [|done].
  mstep unlist_ok. mstep dma_free_ok; [|done]. mstep (kfree_entry_ok p e); [|done].
  unfold set_dev. cbn. by rewrite Hfl.
Qed.

(** The allocation a request of [n] bytes leads to, if the allocators agree. *)
Definition answered m (n : Z) : option allocation :=
  if kzalloc_ok (m_requests m) then
    match dma_answer (m_dma m) (PAGE_ALIGN n) with
    | Some (cpu, phys) => Some (Allocation phys cpu (PAGE_ALIGN n))
    | None => None
    end
  else None.

Lemma holds_request m es x :
  holds m es →
  holds (set_entries (<[m_requests m := x]> (m_entries m)) (set_requests (S (m_requests m)) m)) es.
Proof.
  intros [Hl Hn Hd Hf Hp Hu]. split; cbn; try done.
  - apply entries_insert; [|done]. intros Hin.
    apply list_elem_of_lookup_1 in Hin as [i Hi]. destruct (Forall2_lookup_l _ _ _ _ _ Hl Hi) as (e & _ & He).
    pose proof (Hf (m_requests m) ltac:(by eexists)). lia.
  - intros p [y [[<- _]|[_ Hy]]%lookup_insert_Some]; [lia|]. pose proof (Hf p ltac:(by eexists)). lia.
Qed.

Lemma holds_requests m es : holds m es → holds (set_requests (S (m_requests m)) m) es.
Proof.
  intros [Hl Hn Hd Hf Hp Hu]. split; cbn; try done. intros p Hq. pose proof (Hf p Hq). lia.
Qed.

Lemma kzalloc_eq s :
  let m := k_dev s in let p := m_requests m in
  kzalloc s =
    if kzalloc_ok p
    then Done (Some p, set_dev (set_entries (<[p := Allocation 0 0 0]> (m_entries m)) (set_requests (S p) m)) s)
    else Done (None, set_dev (set_requests (S p) m) s).
Proof. unfold kzalloc. mstep st_ok. mstep upd_ok. by destruct (kzalloc_ok _). Qed.

Lemma dma_alloc_eq n q s :
  dma_alloc_coherent n q s =
    match dma_answer (m_dma (k_dev s)) n with
    | Some (cpu, phys) => Done ((cpu, phys), set_dev (set_dma ((n, cpu, phys) :: m_dma (k_dev s)) (k_dev s)) s)
    | None => Done ((0, q), s)
    end.
Proof. unfold dma_alloc_coherent. mstep st_ok. by destruct (dma_answer _ _) as [[??]|]. Qed.

(** The list with one more allocation at its end. *)
Lemma holds_snoc m es cpu phys n :
  holds m es → dma_answer (m_dma m) n = Some (cpu, phys) → 0 ≤ n < 2 ^ 32 →
  let p := m_requests m in let e := Allocation phys cpu n in
  holds (set_heap_list (heap_list m ++ [p])
    (set_entries (<[p := e]> (m_entries m)) (set_dma ((n, cpu, phys) :: m_dma m) (set_requests (S p) m))))
    (es ++ [e]) ∧ phys ∉ phys_addr <$> es.
Proof.
  intros Hh Hd Hn p e. destruct (dma_fresh _ _ _ _ Hd) as (_ & Hphys & Hfr).
  assert (Hnew : phys ∉ phys_addr <$> es).
  { intros (x & -> & Hx)%list_elem_of_fmap. apply (Hfr (block_of x)); [|done].
    rewrite (h_dma _ _ Hh). by apply list_elem_of_fmap_2. }
  assert (Hp : p ∉ heap_list m).
  { intros (i & Hi)%list_elem_of_lookup_1.
    destruct (Forall2_lookup_l _ _ _ _ _ (h_list _ _ Hh) Hi) as (x & _ & Hx).
    pose proof (h_fresh _ _ Hh p ltac:(by eexists)). unfold p in *. lia. }
  pose proof (holds_request _ _ e Hh) as [Hl Hnd Hdm Hf Hph Hu]. split; [|done]. split; cbn in *.
  - apply Forall2_app; [done|]. constructor; [|done]. by rewrite lookup_insert_eq.
  - apply NoDup_app. split; [done|]. split; [|apply NoDup_singleton].
    intros q Hq ->%list_elem_of_singleton. done.
  - rewrite fmap_app. cbn. rewrite Hdm. apply Permutation_cons_append.
  - done.
  - rewrite fmap_app. apply NoDup_app. split; [done|]. split; [|apply NoDup_singleton].
    intros q Hq ->%list_elem_of_singleton. done.
  - apply Forall_app. split; [done|]. by apply Forall_singleton.
Qed.

(** A refusal leaves the allocations as they are; the address is 0 unless it
    was the entry that was refused. *)
Lemma AllocMemory_ok phys n s es :
  holds (k_dev s) es →
  ∃ m', same_statics (k_dev s) m' ∧
    match answered (k_dev s) n with
    | Some e =>
        AllocMemory phys n s = Done ((0, phys_addr e), set_dev m' s) ∧ holds m' (es ++ [e]) ∧
        phys_addr e ∉ phys_addr <$> es
    | None => ∃ q, (q = 0 ∨ q = phys) ∧ AllocMemory phys n s = Done ((- ENOMEM, q), set_dev m' s) ∧
        holds m' es
    end.
Proof.
  intros Hh. unfold AllocMemory, answered. rewrite M_bind_eq, kzalloc_eq.
  destruct (kzalloc_ok _) eqn:Ek; cbn [obind].
  - rewrite M_bind_eq, dma_alloc_eq.
    destruct (dma_answer (m_dma (k_dev s)) (PAGE_ALIGN n)) as [[cpu bus]|] eqn:Ed; cbn in *; rewrite Ed;
      cbn [obind]; mstep upd_ok.
    + destruct (dma_fresh _ _ _ _ Ed) as (Hc & _). rewrite (proj2 (Z.eqb_neq cpu 0)) by lia.
      mstep upd_ok. mstep upd_ok.
      destruct (holds_snoc _ _ _ _ _ Hh Ed (page_align_range n)) as [Hs Hnew].
      eexists. split; [|split; [|split; [exact Hs|exact Hnew]]]; [by split_and!|].
      unfold set_dev. cbn. by rewrite !insert_insert_eq.
    + eexists. split; [|exists 0; split; [by left|split; [reflexivity|]]]; [by split_and!|].
      cbn. rewrite insert_insert_eq. by apply (holds_request _ _ (Allocation 0 0 0)) || by apply holds_request.
  - eexists. split; [|exists phys; split; [by right|split; [done|by apply holds_requests]]]. by split_and!.
Qed.

(** ** The ioctl *)

(** The 32-bit word at [a]: 0 where it cannot be read. *)
Definition word_at (u : U) (a v : Z) : Prop :=
  0 ≤ v < 2 ^ 32 ∧ (user_at u a (pack1 uint32_t v) ∨ (v = 0 ∧ ∀ w, 0 ≤ w < 2 ^ 32 → ¬ user_at u a (pack1 uint32_t w))).

(** What is asked of the process's memory before a command is looked at. *)
Definition checked (u : U) (cmd arg : Z) : Prop :=
  Z.land (_IOC_DIR cmd) _IOC_READ ≠ 0 ∨ Z.land (_IOC_DIR cmd) _IOC_WRITE ≠ 0 →
  access_ok u arg (_IOC_SIZE cmd) = true.

(** The number is one of the module's. *)
Definition ours (cmd : Z) : Prop := _IOC_TYPE cmd = MEMALLOC_IOC_MAGIC ∧ _IOC_NR cmd ≤ MEMALLOC_IOC_MAXNR.

(** What a command that has passed the checks answers and makes of the allocations. *)
Inductive served m (u : U) (cmd arg : Z) es : Z → list allocation → Prop :=
  | served_reset : cmd = MEMALLOC_IOCHARDRESET → served m u cmd arg es 0 []
  | served_get n e : cmd = MEMALLOC_IOCXGETBUFFER → word_at u arg n →
      answered m n = Some e → phys_addr e ∉ phys_addr <$> es → served m u cmd arg es 0 (es ++ [e])
  | served_enomem n : cmd = MEMALLOC_IOCXGETBUFFER → word_at u arg n →
      answered m n = None → served m u cmd arg es (- ENOMEM) es
  | served_free es1 e es2 : cmd = MEMALLOC_IOCSFREEBUFFER →
      word_at u arg (phys_addr e) → es = es1 ++ e :: es2 → served m u cmd arg es 0 (es1 ++ es2)
  | served_not_ours phys : cmd = MEMALLOC_IOCSFREEBUFFER →
      word_at u arg phys → phys ∉ phys_addr <$> es → served m u cmd arg es (- EINVAL) es
  | served_einval : cmd ≠ MEMALLOC_IOCHARDRESET → cmd ≠ MEMALLOC_IOCXGETBUFFER →
      cmd ≠ MEMALLOC_IOCSFREEBUFFER → served m u cmd arg es (- EINVAL) es.

(** An ioctl: the number first, then the process's memory, then the command. *)
Inductive ioctl_spec m (u : U) (cmd arg : Z) es : Z → list allocation → Prop :=
  | ioctl_enotty : ¬ ours cmd → ioctl_spec m u cmd arg es (- ENOTTY) es
  | ioctl_efault : ours cmd → ¬ checked u cmd arg → ioctl_spec m u cmd arg es (- EFAULT) es
  | ioctl_served r es' : ours cmd → checked u cmd arg → served m u cmd arg es r es' → ioctl_spec m u cmd arg es r es'.

Lemma get_user32_word a s :
  ∃ v k, get_user32 a s = Done ((v, k), s) ∧ word_at (k_user s) a v.
Proof.
  destruct (get_user32_any a s) as (v & k & E & Hv & Hk & Hu). exists v, k. split; [done|].
  split; [done|]. destruct (decide (k = 0)) as [->|Hne]; [by left; apply Hu|right].
  assert (Hno : ∀ w, 0 ≤ w < 2 ^ 32 → ¬ user_at (k_user s) a (pack1 uint32_t w)).
  { intros w Hw Hat. rewrite (get_user32_all _ _ _ Hw Hat) in E. by injection E. }
  split; [|done]. clear Hu. unfold get_user32, from_user in E. rewrite M_bind_eq in E. cbn in E.
  destruct (copy_from_user (k_user s) a 4) as [bs k']. cbn in E. injection E as <- <-.
  by destruct (Z.eqb_spec k' 0).
Qed.

Lemma put_user32_any a v s :
  ∃ u k, put_user32 a v s = Done (k, set_user u s) ∧ user_frame (k_user s) u a 4 ∧
    (writable_at (k_user s) a 4 → user_at u a (pack1 uint32_t v)).
Proof.
  unfold put_user32.
  assert (Hb : bytes (pack1 uint32_t v)) by exact (Z_to_little_endian_bound 4 8 v ltac:(lia) ltac:(lia)).
  destruct (to_user_any a (pack1 uint32_t v) s Hb) as (u & k & E & Hf & Hk & _). exists u, k.
  split; [done|]. split; [done|]. intros Hw.
  destruct (to_user_all a (pack1 uint32_t v) s Hb Hw) as (u' & E' & Hu' & _).
  rewrite E in E'. by injection E' as -> ->.
Qed.

(** The test the code makes is [checked]. *)
Lemma checked_test (u : U) cmd arg :
  (if (if negb (Z.land (_IOC_DIR cmd) _IOC_READ =? 0) then negb (access_ok u arg (_IOC_SIZE cmd))
       else if negb (Z.land (_IOC_DIR cmd) _IOC_WRITE =? 0) then negb (access_ok u arg (_IOC_SIZE cmd))
       else false) then ¬ checked u cmd arg else checked u cmd arg).
Proof.
  unfold checked. repeat (zcase; cbn [negb]); destruct (access_ok u arg _); cbn; tauto || naive_solver.
Qed.

(** What one of its outcomes amounts to. *)
Definition ioctl_outcome cmd arg s es (o : outcome (Z * kstate U memalloc)) : Prop :=
  ∃ r u m' es', o = Done (r, set_user u (set_dev m' s)) ∧
    ioctl_spec (k_dev s) (k_user s) cmd arg es r es' ∧ holds m' es' ∧ same_statics (k_dev s) m' ∧
    user_frame (k_user s) u arg 4 ∧
    (cmd ≠ MEMALLOC_IOCXGETBUFFER → u = k_user s) ∧
    (∀ e, r = 0 → es' = es ++ [e] → writable_at (k_user s) arg 4 → user_at u arg (pack1 uint32_t (phys_addr e))).

Lemma same_statics_refl m : same_statics m m.
Proof. by split_and!. Qed.

(** An outcome that changes nothing. *)
Lemma ioctl_unchanged cmd arg s es r :
  holds (k_dev s) es → ioctl_spec (k_dev s) (k_user s) cmd arg es r es →
  ioctl_outcome cmd arg s es (Done (r, s)).
Proof.
  intros Hh Hs. exists r, (k_user s), (k_dev s), es. split; [by destruct s|].
  split_and!; [done|done|apply same_statics_refl|apply user_frame_refl|done|].
  intros e _ Hl. apply (f_equal length) in Hl. rewrite length_app in Hl. cbn in Hl. lia.
Qed.

Lemma ioctl_get_ok cmd arg s es :
  holds (k_dev s) es → cmd = MEMALLOC_IOCXGETBUFFER → ours cmd → checked (k_user s) cmd arg →
  ioctl_outcome cmd arg s es
    (('(n, _) ← get_user32 arg;
      '(retval, phys) ← AllocMemory 0 n;
      _ ← put_user32 arg phys;
      mret retval) s).
Proof.
  intros Hh Hc Hn' Hck. destruct (get_user32_word arg s) as (n & k & E & Hn). mstep E.
  destruct (AllocMemory_ok 0 n s es Hh) as (m' & Hs & Ha).
  destruct (answered (k_dev s) n) as [e|] eqn:Ea.
  - destruct Ha as (EA & Hh' & Hnew). mstep EA.
    destruct (put_user32_any arg (phys_addr e) (set_dev m' s)) as (u & k' & EP & Hf & Hw). mstep EP.
    exists 0, u, m', (es ++ [e]). split; [done|]. split; [apply ioctl_served; [done..|]; by eapply served_get|].
    split_and!; try done. intros x _ Hx. by apply app_inj_2 in Hx as [_ [= <-]].
  - destruct Ha as (q & Hq & EA & Hh'). mstep EA.
    destruct (put_user32_any arg q (set_dev m' s)) as (u & k' & EP & Hf & Hw). mstep EP.
    exists (- ENOMEM), u, m', es. split; [done|]. split; [apply ioctl_served; [done..|]; by eapply served_enomem|].
    split_and!; try done. intros x Hz. pose proof errno_pos. lia.
Qed.

Lemma ioctl_free_ok cmd arg s es :
  holds (k_dev s) es → cmd = MEMALLOC_IOCSFREEBUFFER → cmd ≠ MEMALLOC_IOCXGETBUFFER →
  ours cmd → checked (k_user s) cmd arg →
  ioctl_outcome cmd arg s es (('(phys, _) ← get_user32 arg; FreeMemory phys) s).
Proof.
  intros Hh Hc Hne Ho Hck. destruct (get_user32_word arg s) as (n & k & E & Hn). mstep E.
  destruct (FreeMemory_ok n s es Hh) as [[Hni EF]|(es1 & e & es2 & m' & -> & <- & EF & Hh' & Hs)]; rewrite EF.
  - apply ioctl_unchanged; [done|]. apply ioctl_served; [done..|]. by eapply served_not_ours.
  - exists 0, (k_user s), m', (es1 ++ es2). split; [by destruct s|]. split; [apply ioctl_served; [done..|]; by eapply served_free|].
    split_and!; [done|done|apply user_frame_refl|done|]. intros x _ Hl. apply (f_equal length) in Hl.
    rewrite !length_app in Hl. cbn in Hl. lia.
Qed.

Lemma memalloc_ioctl_ok cmd arg s es :
  holds (k_dev s) es → ioctl_outcome cmd arg s es (memalloc_ioctl cmd arg s).
Proof.
  intros Hh. unfold memalloc_ioctl.
  destruct (Z.eqb_spec (_IOC_TYPE cmd) MEMALLOC_IOC_MAGIC) as [Ht|Ht]; cbn [negb].
  2: { apply ioctl_unchanged; [done|]. apply ioctl_enotty. by intros [? _]. }
  destruct (Z.ltb_spec MEMALLOC_IOC_MAXNR (_IOC_NR cmd)).
  { apply ioctl_unchanged; [done|]. apply ioctl_enotty. intros [_ ?]. lia. }
  assert (Ho : ours cmd) by (split; [done|lia]).
  rewrite M_bind_eq. cbn [obind]. pose proof (checked_test (k_user s) cmd arg) as Hck.
  destruct (if negb (_ =? 0) then _ else _).
  { apply ioctl_unchanged; [done|]. by apply ioctl_efault. }
  destruct (Z.eqb_spec cmd MEMALLOC_IOCHARDRESET) as [Hr|Hr].
  { destruct (memalloc_free_buffers_ok s es Hh) as (m' & E & Hh' & Hs). mstep E.
    exists 0, (k_user s), m', []. split; [by destruct s|]. split; [apply ioctl_served; [done..|]; by apply served_reset|].
    split_and!; [done|done|apply user_frame_refl|done|]. intros e _ Hl. by destruct es. }
  destruct (Z.eqb_spec cmd MEMALLOC_IOCXGETBUFFER) as [Hg|Hg]; [by apply ioctl_get_ok|].
  destruct (Z.eqb_spec cmd MEMALLOC_IOCSFREEBUFFER) as [Hf|Hf]; [by apply ioctl_free_ok|].
  apply ioctl_unchanged; [done|]. apply ioctl_served; [done..|]. by apply served_einval.
Qed.

(** ** mmap *)

(** Bus address and size the process asks for. *)
Definition map_offset (vma : vm_area_struct) : Z := u32 (Z.shiftl (vm_pgoff vma) PAGE_SHIFT).
Definition map_size (vma : vm_area_struct) : Z := u32 (vm_end vma - vm_start vma).

Lemma map_offset_pages vma : Z.shiftl (Z.shiftr (map_offset vma) PAGE_SHIFT) PAGE_SHIFT = map_offset vma.
Proof.
  pose proof page_shift. rewrite Z.shiftl_mul_pow2, Z.shiftr_div_pow2 by lia.
  rewrite Z.mul_comm. symmetry. apply Z_div_exact_full_2; [pose proof (pow2_pos PAGE_SHIFT); lia|].
  unfold map_offset, u32. rewrite Z.shiftl_mul_pow2 by lia.
  apply Z.mod_divide; [pose proof (pow2_pos PAGE_SHIFT); lia|].
  rewrite Z.mod_eq by lia. apply Z.divide_sub_r; [apply Z.divide_factor_r|].
  apply Z.divide_mul_l. exists (2 ^ (32 - PAGE_SHIFT)). rewrite <- Z.pow_add_r by lia. f_equal. lia.
Qed.

(** The area that would be mapped is [e], and the kernel maps it. *)
Definition mappable m (vma : vm_area_struct) (e : allocation) : Prop :=
  phys_addr e = map_offset vma ∧ size e = map_size vma ∧
  remap_answer (m_maps m) (u32 (vm_start vma)) (Z.shiftr (phys_addr e) PAGE_SHIFT) (size e)
    (pgprot_noncached (vm_page_prot vma)) = 0.

Lemma nodup_fmap_eq {A B} (f : A → B) (l : list A) x y :
  NoDup (f <$> l) → x ∈ l → y ∈ l → f x = f y → x = y.
Proof.
  intros Hn (i & Hi)%list_elem_of_lookup_1 (j & Hj)%list_elem_of_lookup_1 E.
  assert (i = j) as ->.
  { eapply (NoDup_lookup _ i j (f x) Hn); rewrite list_lookup_fmap; [by rewrite Hi|by rewrite Hj, E]. }
  congruence.
Qed.

Lemma MapBuffer_ok vma s es :
  holds (k_dev s) es →
  (∃ e vma', e ∈ es ∧ mappable (k_dev s) vma e ∧
     vma' = Vma (vm_start vma) (vm_end vma) (vm_pgoff vma) (Z.lor (vm_flags vma) VM_RESERVED)
       (pgprot_noncached (vm_page_prot vma)) ∧
     MapBuffer vma s = Done ((0, vma'), set_dev (set_maps
       ((u32 (vm_start vma), Z.shiftr (phys_addr e) PAGE_SHIFT, size e) :: m_maps (k_dev s)) (k_dev s)) s)) ∨
  (∃ r vma', (r = - EINVAL ∨ r = - EAGAIN) ∧ (∀ e, e ∈ es → ¬ mappable (k_dev s) vma e) ∧
     MapBuffer vma s = Done ((r, vma'), s)).
Proof.
  intros Hh. unfold MapBuffer. rewrite M_bind_eq.
  destruct (FindEntryByBus_ok (map_offset vma) s es Hh)
    as [[E Hn]|(l1 & p & l2 & es1 & e & es2 & E & El & -> & Hlen & He)];
    unfold map_offset in E; rewrite E; cbn [obind].
  { right. eexists _, _. split; [by left|]. split; [|done]. intros e Hin (Hp & _). apply Hn.
    rewrite <- Hp. by apply list_elem_of_fmap_2. }
  destruct (drop_entry_ok s es1 e es2 l1 p l2 Hh El Hlen) as (_ & _ & Hp & _).
  unfold map_found. mstep load_entry_ok; [|done].
  assert (Hin : e ∈ es1 ++ e :: es2) by (apply elem_of_app; right; by left).
  assert (Huniq : ∀ x, x ∈ es1 ++ e :: es2 → mappable (k_dev s) vma x → x = e).
  { intros x Hx (Hpx & _). eapply nodup_fmap_eq; [apply (h_phys _ _ Hh)|done|done|congruence]. }
  fold (map_size vma). destruct (Z.eqb_spec (map_size vma) (size e)) as [Hs|Hs]; cbn [negb].
  2: { right. eexists _, _. split; [by left|]. split; [|done].
       intros x Hx Hm. pose proof (Huniq x Hx Hm) as ->. by destruct Hm as (_ & ? & _). }
  mstep st_ok. cbn [vm_page_prot]. rewrite Hs.
  destruct (Z.eqb_spec (remap_answer (m_maps (k_dev s)) (u32 (vm_start vma))
    (Z.shiftr (phys_addr e) PAGE_SHIFT) (size e) (pgprot_noncached (vm_page_prot vma))) 0) as [Hr|Hr].
  - left. exists e. eexists. split; [done|]. split; [by split_and!|]. split; [done|]. by mstep upd_ok.
  - right. eexists _, _. split; [by right|]. split; [|done].
    intros x Hx Hm. pose proof (Huniq x Hx Hm) as ->. by destruct Hm as (_ & _ & ?).
Qed.

Lemma holds_same m m' es :
  holds m es →
  heap_list m' = heap_list m → m_entries m' = m_entries m → m_requests m' = m_requests m →
  m_dma m' = m_dma m → holds m' es.
Proof. intros [Hl Hn Hd Hf Hp Hu] E1 E2 E3 E4. split; by rewrite ?E1, ?E2, ?E3, ?E4. Qed.

Lemma memalloc_mmap_ok vma s es :
  holds (k_dev s) es → mem_lock (k_dev s) = false →
  (∃ e vma', e ∈ es ∧ mappable (k_dev s) vma e ∧
     vma' = Vma (vm_start vma) (vm_end vma) (vm_pgoff vma) (Z.lor (vm_flags vma) VM_RESERVED)
       (pgprot_noncached (vm_page_prot vma)) ∧
     memalloc_mmap vma s = Done ((0, vma'), set_dev (set_maps
       ((u32 (vm_start vma), Z.shiftr (phys_addr e) PAGE_SHIFT, size e) :: m_maps (k_dev s)) (k_dev s)) s)) ∨
  (∃ r vma', (r = - EINVAL ∨ r = - EAGAIN) ∧ (∀ e, e ∈ es → ¬ mappable (k_dev s) vma e) ∧
     memalloc_mmap vma s = Done ((r, vma'), s)).
Proof.
  intros Hh Hk. unfold memalloc_mmap, spin_lock. rewrite M_bind_eq. mstep st_ok. rewrite Hk.
  cbn [assert_ negb]. rewrite M_bind_eq. cbn [obind lift]. rewrite upd_ok. cbn [obind].
  assert (Hl : holds (k_dev (set_dev (set_mem_lock true (k_dev s)) s)) es) by by apply (holds_same (k_dev s)).
  destruct (MapBuffer_ok vma _ es Hl) as [(e & vma' & He & Hm & Hv & E)|(r & vma' & Hr & Hno & E)];
    mstep E.
  - left. exists e, vma'. split_and!; [done..|]. mstep upd_ok. destruct s as [? ? ? []]; cbn in *. by subst.
  - right. exists r, vma'. split_and!; [done..|]. mstep upd_ok. destruct s as [? ? ? []]; cbn in *. by subst.
Qed.

(** ** Sessions *)

(** What processes can make the module do: the kernel calls ioctl and mmap on
    an open file only, and release once for each open.  Between the calls they
    write their own memory. *)
Inductive memalloc_step : kstate U memalloc → kstate U memalloc → Prop :=
  | step_open s r s' : open_count (k_dev s) < 2 ^ 31 - 1 →
      memalloc_open s = Done (r, s') → memalloc_step s s'
  | step_ioctl s cmd arg r s' : 0 < open_count (k_dev s) →
      memalloc_ioctl cmd arg s = Done (r, s') → memalloc_step s s'
  | step_mmap s vma r s' : 0 < open_count (k_dev s) →
      memalloc_mmap vma s = Done (r, s') → memalloc_step s s'
  | step_release s r s' : 0 < open_count (k_dev s) →
      memalloc_release s = Done (r, s') → memalloc_step s s'
  | step_user s u : memalloc_step s (set_user u s).

(** Nothing is allocated while the device is not open. *)
Definition session s es : Prop :=
  holds (k_dev s) es ∧ mem_lock (k_dev s) = false ∧ 0 ≤ open_count (k_dev s) < 2 ^ 31 ∧
  (open_count (k_dev s) = 0 → es = []).

Lemma memalloc_release_ok s es :
  session s es → 0 < open_count (k_dev s) →
  ∃ m' es', memalloc_release s = Done (0, set_dev m' s) ∧ session (set_dev m' s) es' ∧
    open_count m' = open_count (k_dev s) - 1 ∧ (es' = es ∨ es' = [] ∧ open_count m' = 0).
Proof.
  intros (Hh & Hk & Hc & Hz) Hpos. unfold memalloc_release. mstep upd_ok. mstep st_ok.
  rewrite s32_small by lia. cbn [open_count set_open_count k_dev set_dev].
  assert (Hh' : holds (set_open_count (open_count (k_dev s) - 1) (k_dev s)) es) by by apply (holds_same (k_dev s)).
  destruct (Z.eqb_spec (open_count (k_dev s) - 1) 0) as [E|E].
  - destruct (memalloc_free_buffers_ok (set_dev (set_open_count (open_count (k_dev s) - 1) (k_dev s)) s) es Hh')
      as (m' & EF & Hm' & (Hs1 & Hs2 & Hs3 & Hs4 & Hs5 & Hs6)). cbn in *. mstep EF. exists m', []. split; [done|].
    rewrite <- Hs3, E in *. split; [|lia || auto]. unfold session. cbn. rewrite Hs3, Hs4. split_and!; (done || lia).
  - eexists _, es. split; [done|]. cbn. split; [|auto].
    unfold session. cbn. split_and!; [done|done|lia..].
Qed.

Lemma session_step s es s' :
  session s es → memalloc_step s s' → ∃ es', session s' es'.
Proof.
  intros Hse Hst. pose proof Hse as (Hh & Hk & Hc & Hz).
  destruct Hst as [s r s' Hlt E|s cmd arg r s' Hpos E|s vma r s' Hpos E|s r s' Hpos E|s u].
  - unfold memalloc_open in E. rewrite M_bind_eq, upd_ok in E. injection E as _ <-. exists es.
    rewrite s32_small by lia. split_and!; cbn; try (done || lia). by apply (holds_same (k_dev s)).
  - destruct (memalloc_ioctl_ok cmd arg s es Hh)
      as (r' & u & m' & es' & E' & _ & Hh' & (Hs1 & Hs2 & Hs3 & Hs4 & _) & _).
    rewrite E in E'. injection E' as -> ->. exists es'. unfold session. cbn.
    rewrite Hs3, Hs4. split_and!; (done || lia).
  - destruct (memalloc_mmap_ok vma s es Hh Hk) as [(e & v' & _ & _ & _ & E')|(r' & v' & _ & _ & E')];
      rewrite E in E'; injection E' as _ ->; [|by exists es]. exists es.
    split_and!; cbn; try (done || lia). by apply (holds_same (k_dev s)).
  - destruct (memalloc_release_ok s es Hse Hpos) as (m' & es' & E' & Hse' & _).
    rewrite E in E'. injection E' as _ ->. by exists es'.
  - by exists es.
Qed.

Lemma session_steps s es s' : session s es → rtc memalloc_step s s' → ∃ es', session s' es'.
Proof.
  intros Hs Hr. revert es Hs. induction Hr as [s|s s1 s' Hs1 _ IH]; intros es Hs; [by exists es|].
  destruct (session_step _ _ _ Hs Hs1) as (es1 & Hes1). by eapply IH.
Qed.

Lemma holds_dma_nil m : holds m [] → m_dma m = [] ∧ heap_list m = [].
Proof.
  intros [Hl _ Hd _ _ _]. cbn in Hd. apply Permutation_nil_r in Hd. inversion Hl. by split.
Qed.

Lemma reg_do_ok f s :
  reg_do f s = Done (tt, set_dev (set_reg (memalloc_major (k_dev s)) (memalloc_class (k_dev s))
    (f (m_reg (k_dev s))) (k_dev s)) s).
Proof. done. Qed.

Lemma reg_step_ok {R} (f : registry → R * registry) s r g :
  f (m_reg (k_dev s)) = (r, g) →
  reg_step f s = Done (r, set_dev (set_reg (memalloc_major (k_dev s)) (memalloc_class (k_dev s)) g (k_dev s)) s).
Proof. unfold reg_step. by intros ->. Qed.

Lemma memalloc_cleanup_ok s es :
  holds (k_dev s) es →
  ∃ m', memalloc_cleanup s = Done (tt, set_dev m' s) ∧ holds m' [] ∧
    m_reg m' = unregister_chrdev (memalloc_major (k_dev s)) (class_destroy (memalloc_class (k_dev s))
      (device_destroy (memalloc_class (k_dev s)) (MKDEV (memalloc_major (k_dev s)) 0) (m_reg (k_dev s)))).
Proof.
  intros Hh. unfold memalloc_cleanup. mstep st_ok. do 3 mstep reg_do_ok.
  match goal with |- context [memalloc_free_buffers ?s0] => set (s1 := s0) end.
  assert (Hh1 : holds (k_dev s1) es) by (subst s1; by apply (holds_same (k_dev s))).
  destruct (memalloc_free_buffers_ok s1 es Hh1) as (m' & E & Hm' & (_ & _ & _ & _ & _ & Hs)).
  exists m'. split; [done|]. split; [done|]. by rewrite Hs.
Qed.

(** ** Properties *)

(** C1: memalloc.c loses no block: whatever the processes that have the device
    open do, in any order, what is allocated is what is on [heap_list], every
    call returns, nothing is allocated once the last process has closed the
    device, and nothing is once the module is unloaded. *)
Theorem memalloc_no_leak s0 s :
  session s0 [] → rtc memalloc_step s0 s →
  ∃ es, holds (k_dev s) es ∧
    (open_count (k_dev s) = 0 → m_dma (k_dev s) = []) ∧
    (∀ cmd arg, is_done (memalloc_ioctl cmd arg s)) ∧
    (∀ vma, is_done (memalloc_mmap vma s)) ∧
    (0 < open_count (k_dev s) → is_done (memalloc_release s)) ∧
    (∃ s', memalloc_cleanup s = Done (tt, s') ∧ m_dma (k_dev s') = [] ∧ heap_list (k_dev s') = []).
Proof.
  intros Hs0 Hr. destruct (session_steps _ _ _ Hs0 Hr) as (es & Hse).
  pose proof Hse as (Hh & Hk & _ & Hz). exists es. split; [done|]. split_and!.
  - intros E. rewrite (Hz E) in Hh. by apply holds_dma_nil.
  - intros cmd arg. destruct (memalloc_ioctl_ok cmd arg s es Hh) as (r & u & m' & es' & -> & _). by eexists.
  - intros vma. destruct (memalloc_mmap_ok vma s es Hh Hk) as [(? & ? & _ & _ & _ & ->)|(? & ? & _ & _ & ->)];
      by eexists.
  - intros Hpos. destruct (memalloc_release_ok s es Hse Hpos) as (m' & es' & -> & _). by eexists.
  - destruct (memalloc_cleanup_ok s es Hh) as (m' & E & Hm' & _). eexists. split; [done|]. by apply holds_dma_nil.
Qed.

(** C4: memalloc_ioctl implements the list of allocations: every command, with
    any argument, returns, with the answer and the list [ioctl_spec] gives
    (-ENOTTY exactly for the numbers that are not the module's, then -EFAULT where
    the kernel refuses the argument, then what the command does); it touches no
    memory of the process but the word at the argument, and that word is the new
    block's address when there is one. *)
Theorem memalloc_ioctl_refines cmd arg s es :
  holds (k_dev s) es →
  ∃ r u m' es', memalloc_ioctl cmd arg s = Done (r, set_user u (set_dev m' s)) ∧
    ioctl_spec (k_dev s) (k_user s) cmd arg es r es' ∧ holds m' es' ∧ same_statics (k_dev s) m' ∧
    user_frame (k_user s) u arg 4 ∧
    (cmd ≠ MEMALLOC_IOCXGETBUFFER → u = k_user s) ∧
    (∀ e, r = 0 → es' = es ++ [e] → writable_at (k_user s) arg 4 →
       user_at u arg (pack1 uint32_t (phys_addr e))).
Proof. apply memalloc_ioctl_ok. Qed.

(** C9: mmap maps a block that is allocated, whole, and only that: it succeeds
    exactly when the offset is the bus address of an allocation of the size of
    the area (and the kernel maps it), and the frames mapped are the block's;
    otherwise nothing is mapped.  The lock is free again. *)
Theorem memalloc_mmap_exact vma s es :
  holds (k_dev s) es → mem_lock (k_dev s) = false →
  ∃ r vma' m', memalloc_mmap vma s = Done ((r, vma'), set_dev m' s) ∧
    (r = 0 ↔ ∃ e, e ∈ es ∧ mappable (k_dev s) vma e) ∧
    (r = 0 → ∃ e, e ∈ es ∧ Z.shiftl (Z.shiftr (phys_addr e) PAGE_SHIFT) PAGE_SHIFT = phys_addr e ∧
       m_maps m' = (u32 (vm_start vma), Z.shiftr (phys_addr e) PAGE_SHIFT, size e) :: m_maps (k_dev s) ∧
       vm_page_prot vma' = pgprot_noncached (vm_page_prot vma)) ∧
    (r ≠ 0 → (r = - EINVAL ∨ r = - EAGAIN) ∧ m_maps m' = m_maps (k_dev s)) ∧
    holds m' es ∧ mem_lock m' = false.
Proof.
  intros Hh Hk.
  destruct (memalloc_mmap_ok vma s es Hh Hk) as [(e & v' & He & Hm & -> & E)|(r & v' & Hr & Hno & E)].
  - eexists 0, _, _. split; [exact E|]. split; [split; [by exists e|done]|]. split_and!; try done.
    + intros _. exists e. destruct Hm as (Hp & _ & _). rewrite Hp. split_and!; auto using map_offset_pages.
    + by apply (holds_same (k_dev s)).
  - exists r, v', (k_dev s). split; [by destruct s|]. pose proof errno_pos.
    split; [split; [lia|]|]; [intros (e & He & Hm); by destruct (Hno e He)|]. split_and!; try done. lia.
Qed.

(** C29: memalloc_init leaves no trace when it fails, and memalloc_cleanup
    undoes it when it succeeds: the majors, classes and devices registered are
    then those registered before. *)
Theorem memalloc_init_cleanup s es :
  holds (k_dev s) es → memalloc_major (k_dev s) = 0 →
  ∃ r m', memalloc_init s = Done (r, set_dev m' s) ∧
    (r = 0 ∨ r = - EIO) ∧ holds m' es ∧
    (r ≠ 0 → m_reg m' = m_reg (k_dev s)) ∧
    (r = 0 → m_reg m' ≠ m_reg (k_dev s) ∧
       ∃ s', memalloc_cleanup (set_dev m' s) = Done (tt, s') ∧ m_reg (k_dev s') = m_reg (k_dev s)).
Proof.
  intros Hh Hm. pose proof errno_pos as He. unfold memalloc_init. mstep st_ok. rewrite Hm.
  destruct (register_chrdev 0 (m_reg (k_dev s))) as [a g1] eqn:E1. mstep (reg_step_ok _ _ _ _ E1).
  destruct (Z.leb_spec a 0) as [Ha|Ha].
  { eexists (- EIO), _. split; [done|]. split; [by right|]. split; [by apply (holds_same (k_dev s))|].
    split; [|lia]. intros _. cbn. apply (register_failed _ _ _ _ E1).
    destruct (decide (a < 0)); [done|].
    destruct (register_unregister 0 _ _ _ ltac:(lia) E1) as (_ & _ & _ & Hp); [lia|]. specialize (Hp eq_refl). lia. }
  destruct (register_unregister 0 _ _ _ ltac:(lia) E1) as (Hnew & Hmaj & Hun & _); [lia|]. cbn [Z.eqb] in *.
  mstep upd_ok. cbn [memalloc_class memalloc_major m_reg set_reg k_dev set_dev].
  destruct (class_create g1) as [c g2] eqn:E2. erewrite M_bind_done; [|apply reg_step_ok; exact E2].
  destruct c as [e|c].
  { assert (g2 = g1) as -> by (unfold class_create in E2; destruct (class_answer g1); naive_solver).
    mstep upd_ok. mstep st_ok. mstep reg_do_ok. eexists (- EIO), _. split; [done|]. split; [by right|].
    split; [by apply (holds_same (k_dev s))|]. split; [|lia]. intros _. cbn. exact Hun. }
  pose proof (class_create_destroy _ _ _ E2) as Hcd.
  mstep upd_ok. mstep st_ok. cbn [memalloc_class memalloc_major m_reg set_reg k_dev set_dev].
  destruct (device_create c (MKDEV a 0) g2) as [d g3] eqn:E3. erewrite M_bind_done; [|apply reg_step_ok; exact E3].
  destruct d as [e|[]].
  { assert (g3 = g2) as -> by (unfold device_create in E3; destruct (device_answer g2 _ _); naive_solver).
    do 2 mstep reg_do_ok. eexists (- EIO), _. split; [done|]. split; [by right|].
    split; [by apply (holds_same (k_dev s))|]. split; [|lia]. intros _. cbn. by rewrite Hcd. }
  pose proof (device_create_destroy _ _ _ _ E3) as Hdd.
  eexists 0, _. split; [done|]. split; [by left|]. split; [by apply (holds_same (k_dev s))|].
  split; [done|]. intros _. cbn [m_reg set_reg k_dev set_dev]. split.
  - intros Heq. apply Hnew. rewrite <- Heq.
    assert (Hg : r_majors g3 = r_majors g1).
    { unfold class_create in E2. unfold device_create in E3.
      destruct (class_answer g1); [done|]. injection E2 as _ <-.
      destruct (device_answer _ _ _); [done|]. by injection E3 as <-. }
    rewrite Hg, Hmaj. set_solver.
  - match goal with |- context [memalloc_cleanup ?s0] => set (s1 := s0) end.
    assert (Hh1 : holds (k_dev s1) es) by (subst s1; by apply (holds_same (k_dev s))).
    destruct (memalloc_cleanup_ok s1 es Hh1) as (m' & E & _ & Hr). eexists. split; [exact E|].
    cbn [k_dev set_dev]. rewrite Hr. subst s1. cbn. by rewrite Hdd, Hcd, Hun.
Qed.

(** The commands of the device pass its own test. *)
Lemma getbuffer_type :
  _IOC_TYPE MEMALLOC_IOCXGETBUFFER = MEMALLOC_IOC_MAGIC ∧ _IOC_NR MEMALLOC_IOCXGETBUFFER = 1 ∧
  _IOC_SIZE MEMALLOC_IOCXGETBUFFER = 4.
Proof.
  destruct (ioc_fields (Z.lor _IOC_READ _IOC_WRITE) MEMALLOC_IOC_MAGIC 1 4) as (_ & ? & ? & ?); auto;
    unfold MEMALLOC_IOC_MAGIC; lia.
Qed.
Lemma freebuffer_type :
  _IOC_TYPE MEMALLOC_IOCSFREEBUFFER = MEMALLOC_IOC_MAGIC ∧ _IOC_NR MEMALLOC_IOCSFREEBUFFER = 2 ∧
  _IOC_SIZE MEMALLOC_IOCSFREEBUFFER = 4.
Proof.
  destruct (ioc_fields _IOC_WRITE MEMALLOC_IOC_MAGIC 2 4) as (_ & ? & ? & ?); auto;
    unfold MEMALLOC_IOC_MAGIC; lia.
Qed.
Lemma hardreset_nr : _IOC_NR MEMALLOC_IOCHARDRESET = 3.
Proof.
  destruct (ioc_fields _IOC_NONE MEMALLOC_IOC_MAGIC 3 0) as (_ & ? & ? & ?); auto;
    unfold MEMALLOC_IOC_MAGIC; lia.
Qed.

Lemma word_at_eq (u : U) a v : 0 ≤ v < 2 ^ 32 → user_at u a (pack1 uint32_t v) → ∀ w, word_at u a w → w = v.
Proof.
  intros Hv Hat w [Hw [Hw'|[_ Hno]]]; [|by destruct (Hno v Hv)].
  assert (E : pack1 uint32_t w = pack1 uint32_t v).
  { apply list_eq_byte_at; [by rewrite !length_pack1|]. intros i Hi. unfold byte_at.
    rewrite <- Hw' by done. rewrite <- Hat; [done|]. rewrite length_pack1 in * by done. lia. }
  rewrite <- (unpack1_pack1 uint32_t w), E, unpack1_pack1; done.
Qed.

(** With the commands' numbers known, only some of [ioctl_spec] is left. *)
Lemma ioctl_spec_get m u arg n es r es' :
  0 ≤ n < 2 ^ 32 → user_at u arg (pack1 uint32_t n) →
  ioctl_spec m u MEMALLOC_IOCXGETBUFFER arg es r es' →
  (∃ e, r = 0 ∧ answered m n = Some e ∧ phys_addr e ∉ phys_addr <$> es ∧ es' = es ++ [e]) ∨
  (r = - ENOMEM ∧ answered m n = None ∧ es' = es).
Proof.
  intros Hn Hat Hsp. destruct getbuffer_type as (Ht & Hnr & Hsz).
  pose proof hardreset_nr. destruct freebuffer_type as (_ & Hf & _).
  pose proof (access_ok_mapped _ _ _ Hat) as Hok. rewrite length_pack1 in Hok by done. cbn in Hok.
  inversion Hsp as [Ho|_ Hc|? ? _ _ Hsv]; subst; [|unfold checked in *; rewrite Hsz in *; naive_solver|].
  { destruct Ho. split; [done|]. by rewrite Hnr. }
  inversion Hsv; subst; try congruence.
  - left. erewrite <- (word_at_eq u arg n Hn Hat); [|done]. by exists e.
  - right. by erewrite <- (word_at_eq u arg n Hn Hat).
Qed.

Lemma ioctl_spec_free m u arg e es r es' :
  0 ≤ phys_addr e < 2 ^ 32 → user_at u arg (pack1 uint32_t (phys_addr e)) →
  phys_addr e ∉ phys_addr <$> es →
  ioctl_spec m u MEMALLOC_IOCSFREEBUFFER arg (es ++ [e]) r es' → r = 0 ∧ es' = es.
Proof.
  intros Hn Hat Hnew Hsp. destruct freebuffer_type as (Ht & Hnr & Hsz).
  pose proof hardreset_nr. destruct getbuffer_type as (_ & Hg & _).
  pose proof (access_ok_mapped _ _ _ Hat) as Hok. rewrite length_pack1 in Hok by done. cbn in Hok.
  inversion Hsp as [Ho|_ Hc|? ? _ _ Hsv]; subst; [|unfold checked in *; rewrite Hsz in *; naive_solver|].
  { destruct Ho. split; [done|]. by rewrite Hnr. }
  inversion Hsv as [| | |es1 e' es2 _ Hw Hes|phys _ Hw Hni|]; subst; try congruence.
  - split; [done|]. apply (word_at_eq _ _ _ Hn Hat) in Hw.
    destruct es2 as [|x es2 _] using rev_ind.
    + apply app_inj_2 in Hes as [-> _]; [|done]. by rewrite app_nil_r.
    + rewrite app_comm_cons, app_assoc in Hes. apply app_inj_2 in Hes as [-> _]; [|done].
      destruct Hnew. rewrite <- Hw, fmap_app. apply elem_of_app. right. by left.
  - apply (word_at_eq _ _ _ Hn Hat) in Hw as ->. destruct Hni. rewrite fmap_app. apply elem_of_app. right. by left.
Qed.

(** C28: what one ioctl takes the other gives back: on a word the process can
    read and write, GETBUFFER either refuses with -ENOMEM, and nothing is
    allocated, or leaves the bus address of a new block in the word; FREEBUFFER
    on the same word then succeeds and the allocations are those of before. *)
Theorem memalloc_get_free arg n s es :
  holds (k_dev s) es → 0 ≤ n < 2 ^ 32 →
  user_at (k_user s) arg (pack1 uint32_t n) → writable_at (k_user s) arg 4 →
  ∃ r s', memalloc_ioctl MEMALLOC_IOCXGETBUFFER arg s = Done (r, s') ∧
    match answered (k_dev s) n with
    | None => r = - ENOMEM ∧ holds (k_dev s') es
    | Some e => r = 0 ∧ holds (k_dev s') (es ++ [e]) ∧
        user_at (k_user s') arg (pack1 uint32_t (phys_addr e)) ∧
        ∃ s'', memalloc_ioctl MEMALLOC_IOCSFREEBUFFER arg s' = Done (0, s'') ∧ holds (k_dev s'') es
    end.
Proof.
  intros Hh Hn Hat Hw.
  destruct (memalloc_ioctl_ok MEMALLOC_IOCXGETBUFFER arg s es Hh)
    as (r & u & m' & es' & E & Hsp & Hh' & _ & _ & _ & Hu).
  exists r, (set_user u (set_dev m' s)). split; [done|].
  apply (ioctl_spec_get _ _ _ _ _ _ _ Hn Hat) in Hsp
    as [(e & -> & -> & Hnew & ->)|(-> & -> & ->)]; [|by split].
  specialize (Hu e eq_refl eq_refl Hw). split_and!; try done.
  assert (Hp : 0 ≤ phys_addr e < 2 ^ 32).
  { pose proof (h_u32 _ _ Hh') as Hall. by apply Forall_app in Hall as [_ [[? _] _]%Forall_cons]. }
  destruct (memalloc_ioctl_ok MEMALLOC_IOCSFREEBUFFER arg (set_user u (set_dev m' s)) (es ++ [e]) Hh')
    as (r2 & u2 & m2 & es2 & E2 & Hsp2 & Hh2 & _).
  apply (ioctl_spec_free _ _ _ _ _ _ _ Hp Hu Hnew) in Hsp2 as [-> ->]. by eexists.
Qed.

(** When there is an entry but no block for it, the entry stays behind. *)
Lemma refused_leaks_entry n s es :
  holds (k_dev s) es → kzalloc_ok (m_requests (k_dev s)) = true →
  dma_answer (m_dma (k_dev s)) (PAGE_ALIGN n) = None →
  ∃ m' p, AllocMemory 0 n s = Done ((- ENOMEM, 0), set_dev m' s) ∧ heap_list m' = heap_list (k_dev s) ∧
    m_entries (k_dev s) !! p = None ∧ is_Some (m_entries m' !! p).
Proof.
  intros Hh Hk Hd. unfold AllocMemory. rewrite M_bind_eq, kzalloc_eq. cbn zeta. rewrite Hk. cbn [obind].
  rewrite M_bind_eq, dma_alloc_eq. cbn. rewrite Hd. cbn. eexists _, (m_requests (k_dev s)).
  split; [done|]. split; [done|]. split; [|cbn; rewrite lookup_insert_eq; by eexists].
  apply eq_None_not_Some. intros Hs. pose proof (h_fresh _ _ Hh _ Hs). lia.
Qed.

(** mmap holds the lock while it looks for the entry and maps it, FREEBUFFER does
    not take it: an entry freed by another process in between is read after it
    has been freed. *)
Lemma mmap_free_race vma e s es :
  holds (k_dev s) es → e ∈ es → phys_addr e = map_offset vma →
  ∃ p m', FindEntryByBus (map_offset vma) s = Done (Some p, s) ∧
    FreeMemory (phys_addr e) s = Done (0, set_dev m' s) ∧ map_found vma p (set_dev m' s) = UB.
Proof.
  intros Hh Hin He. rewrite He. destruct (FindEntryByBus_ok (map_offset vma) s es Hh)
    as [[_ Hn]|(l1 & p & l2 & es1 & x & es2 & E & El & -> & Hlen & Hx)].
  { destruct Hn. rewrite <- He. by apply list_elem_of_fmap_2. }
  destruct (drop_entry_ok s es1 x es2 l1 p l2 Hh El Hlen) as (d & Hd & Hp & Hfl & _).
  exists p. eexists. split; [exact E|]. split.
  - unfold FreeMemory. rewrite M_bind_eq, E. cbn [obind]. mstep load_entry_ok; [|done]. mstep unlist_ok. mstep dma_free_ok; [|done].
    mstep (kfree_entry_ok p x); [|done]. reflexivity.
  - unfold map_found, load_entry. rewrite M_bind_eq. mstep st_ok. cbn. by rewrite lookup_delete_eq.
Qed.
End memalloc_proofs.

(** ** An example: one process with the device open *)

(** Blocks are taken upwards, each after those in use. *)
Definition dma_next (live : list block) : Z :=
  foldr (λ b a, Z.max (b.2 + Z.max 4096 b.1.1) a) 4096 live.

Lemma dma_next_above live b : b ∈ live → b.2 < dma_next live.
Proof. induction live; intros Hb; [by apply not_elem_of_nil in Hb|]. apply elem_of_cons in Hb as [->|Hb]; cbn; [lia|]. specialize (IHlive Hb). unfold dma_next in *. lia. Qed.
Lemma dma_next_pos live : 0 < dma_next live.
Proof. unfold dma_next. induction live; cbn; lia. Qed.

#[export] Program Instance mm_example : Mm := {
  PAGE_ALIGN x := u32 (4096 * ((x + 4095) / 4096));
  VM_RESERVED := 524288;
  pgprot_noncached p := Z.lor p 4;
  access_ok _ _ _ _ _ := true;
  kzalloc_ok _ := true;
  dma_answer live n := if dma_next live <? 2 ^ 32 then Some (dma_next live, dma_next live) else None;
  remap_answer _ _ _ _ _ := 0
}.
Next Obligation.
  intros x Hx. cbn in *. change (2 ^ 12) with 4096 in *. change (2 ^ 32) with 4294967296 in *.
  unfold u32. change (2 ^ 32) with 4294967296. rewrite Z.mod_small by dlia. split; [dlia|].
  apply Z.divide_factor_l.
Qed.
Next Obligation. intros x. apply u32_range. Qed.
Next Obligation. done. Qed.
Next Obligation.
  intros live n cpu phys. cbn. pose proof (dma_next_pos live). destruct (Z.ltb_spec (dma_next live) (2 ^ 32)); [|done].
  intros [= <- <-]. split_and!; [lia..|]. intros b Hb. pose proof (dma_next_above _ _ Hb). lia.
Qed.

Definition opened : kstate (gmap Z Z) memalloc :=
  KState (flat_write ∅ 100 (pack1 uint32_t 5000)) ∅ 0
    (Memalloc 254 1 1 [] false ∅ 0 [] [] (Registry {[254]} {[1]} {[(1, 254)]})).

Lemma opened_holds : holds (k_dev opened) [].
Proof. split; cbn; try constructor. intros p [x Hx]. by rewrite lookup_empty in Hx. Qed.
Lemma opened_word : user_at (k_user opened) 100 (pack1 uint32_t 5000).
Proof.
  intros i Hi. change (zlen _) with 4 in Hi.
  assert (i = 0 ∨ i = 1 ∨ i = 2 ∨ i = 3) as [-> | [-> | [-> | ->]]] by lia; reflexivity.
Qed.
Lemma opened_writable : writable_at (k_user opened) 100 4.
Proof. intros i Hi. assert (i = 0 ∨ i = 1 ∨ i = 2 ∨ i = 3) as [-> | [-> | [-> | ->]]] by lia; reflexivity. Qed.

Definition closed : kstate (gmap Z Z) memalloc :=
  set_dev (set_open_count 0 (k_dev opened)) opened.

(** Open, take a block, unload. *)
Lemma memalloc_no_leak_witness :
  session closed [] ∧
  ∃ s, rtc memalloc_step closed s ∧ m_dma (k_dev s) ≠ [] ∧
    ∃ s', memalloc_cleanup s = Done (tt, s') ∧ m_dma (k_dev s') = [].
Proof.
  assert (Hs : session closed []).
  { split_and!; try (done || lia || (cbn; lia)). by apply (holds_same _ _ _ opened_holds). }
  split; [exact Hs|].
  assert (He : ∃ s r r' s', memalloc_open closed = Done (r, s) ∧
    memalloc_ioctl MEMALLOC_IOCXGETBUFFER 100 s = Done (r', s') ∧
    open_count (k_dev s) = 1 ∧ m_dma (k_dev s') ≠ []).
  { eexists _, _, _, _. split; [reflexivity|]. split; [vm_compute; reflexivity|]. by split. }
  destruct He as (s & r & r' & s' & E1 & E2 & C1 & C2).
  assert (Hr : rtc memalloc_step closed s').
  { eapply rtc_l; [eapply step_open; [|exact E1]; cbn; lia|].
    eapply rtc_l; [eapply step_ioctl; [|exact E2]; lia|]. constructor. }
  exists s'. split; [exact Hr|]. split; [exact C2|].
  destruct (memalloc_no_leak closed s' Hs Hr) as (es & _ & _ & _ & _ & _ & s2 & E3 & Hd & _).
  by exists s2.
Defined.

Lemma memalloc_ioctl_refines_witness :
  holds (k_dev opened) [] ∧
  ∃ r u m' es', memalloc_ioctl MEMALLOC_IOCXGETBUFFER 100 opened = Done (r, set_user u (set_dev m' opened)) ∧
    holds m' es'.
Proof.
  split; [exact opened_holds|].
  destruct (memalloc_ioctl_refines MEMALLOC_IOCXGETBUFFER 100 opened [] opened_holds)
    as (r & u & m' & es' & E & _ & Hh & _). by exists r, u, m', es'.
Defined.

Definition vma_example : vm_area_struct := Vma 65536 73728 1 0 0.

Lemma memalloc_mmap_exact_witness :
  let m := set_heap_list [0%nat] (set_entries {[0%nat := Allocation 4096 4096 8192]} (set_requests 1
    (set_dma [(8192, 4096, 4096)] (k_dev opened)))) in
  let s := set_dev m opened in
  holds m [Allocation 4096 4096 8192] ∧ mem_lock m = false ∧
  ∃ vma' m', memalloc_mmap vma_example s = Done ((0, vma'), set_dev m' s) ∧
    m_maps m' = [(65536, 1, 8192)].
Proof.
  intros m s.
  assert (Hh : holds m [Allocation 4096 4096 8192]).
  { split; cbn; [by repeat constructor|apply NoDup_singleton|done| |apply NoDup_singleton|].
    - intros p [x [<- _]%lookup_singleton_Some]. lia.
    - apply Forall_singleton. cbn. lia. }
  split; [exact Hh|]. split; [reflexivity|].
  destruct (memalloc_mmap_exact vma_example s _ Hh eq_refl) as (r & vma' & m' & E & Hr & Hz & _).
  assert (r = 0) as ->.
  { apply Hr. eexists. split; [by left|]. split_and!; reflexivity. }
  exists vma', m'. split; [exact E|]. destruct (Hz eq_refl) as (e & He & _ & -> & _).
  apply list_elem_of_singleton in He as ->. reflexivity.
Defined.

Lemma memalloc_get_free_witness :
  holds (k_dev opened) [] ∧ 0 ≤ 5000 < 2 ^ 32 ∧
  user_at (k_user opened) 100 (pack1 uint32_t 5000) ∧ writable_at (k_user opened) 100 4 ∧
  ∃ r s', memalloc_ioctl MEMALLOC_IOCXGETBUFFER 100 opened = Done (r, s') ∧ r = 0.
Proof.
  split; [exact opened_holds|]. split; [lia|]. split; [exact opened_word|]. split; [exact opened_writable|].
  destruct (memalloc_get_free 100 5000 opened [] opened_holds ltac:(lia) opened_word opened_writable)
    as (r & s' & E & Hr).
  exists r, s'. split; [exact E|]. change (answered _ _) with (Some (Allocation 4096 4096 8192)) in Hr. apply Hr.
Defined.

Lemma memalloc_init_cleanup_witness :
  let s := set_dev (set_reg 0 0 (Registry ∅ ∅ ∅) (k_dev closed)) closed in
  holds (k_dev s) [] ∧ memalloc_major (k_dev s) = 0 ∧
  ∃ r m', memalloc_init s = Done (r, set_dev m' s) ∧ m_reg m' ≠ Registry ∅ ∅ ∅.
Proof.
  intros s. assert (Hh : holds (k_dev s) []) by by apply (holds_same _ _ _ opened_holds).
  split; [exact Hh|]. split; [reflexivity|].
  destruct (memalloc_init_cleanup s [] Hh eq_refl) as (r & m' & E & Hr & _ & _ & H0).
  exists r, m'. split; [exact E|]. assert (Er : r = 0).
  { assert (E' : ∃ t, memalloc_init s = Done (0, t)) by (eexists; vm_compute; reflexivity).
    destruct E' as [t E']. rewrite E in E'. by injection E'. }
  by apply H0.
Defined.
