(* ===== verification/Rng.v ===== *)
(** * rng_test_driver.c and rng_test_driver.h: the test driver of the RNG

    Each open of the device registers a user context with the security API and
    keeps it in the file; ioctls fetch random numbers, add entropy and read and
    write registers; close gives the context back.  The API and the RNG driver
    below it are the class [Shw]. *)

From S2P Require Import Prelude Kernel.
From stdpp Require Import list_numbers.

Open Scope Z_scope.

(** ** The structures of the ioctls *)

(* C: include/rng_test_driver.h rng_test_add_entropy_t 107-111 *)
Record rng_test_add_entropy_t := AddEntropy {
  ae_function_return_code : Z;
  ae_count_bytes : Z;
  ae_entropy : Z
}.
#[export] Program Instance add_entropy_struct : CStruct rng_test_add_entropy_t := {
  c_types := [cint; uint32_t; cptr];
  c_fields a := [ae_function_return_code a; ae_count_bytes a; ae_entropy a];
  c_make vs := AddEntropy (vs !!! 0%nat) (vs !!! 1%nat) (vs !!! 2%nat)
}.
Solve All Obligations with cstruct.

(* C: include/rng_test_driver.h rng_test_get_random_t 118-123 *)
Record rng_test_get_random_t := GetRandom {
  gr_count_bytes : Z;
  gr_random : Z;
  gr_isr_flag : Z;
  gr_function_return_code : Z
}.
#[export] Program Instance get_random_struct : CStruct rng_test_get_random_t := {
  c_types := [cint; cptr; cint; cint];
  c_fields a := [gr_count_bytes a; gr_random a; gr_isr_flag a; gr_function_return_code a];
  c_make vs := GetRandom (vs !!! 0%nat) (vs !!! 1%nat) (vs !!! 2%nat) (vs !!! 3%nat)
}.
Solve All Obligations with cstruct.

(* C: include/rng_test_driver.h rng_test_reg_access_t 130-134 *)
Record rng_test_reg_access_t := RngReg {
  rr_offset : Z;
  rr_data : Z;
  rr_function_return_code : Z
}.
#[export] Program Instance rng_reg_struct : CStruct rng_test_reg_access_t := {
  c_types := [uint32_t; uint32_t; cint];
  c_fields a := [rr_offset a; rr_data a; rr_function_return_code a];
  c_make vs := RngReg (vs !!! 0%nat) (vs !!! 1%nat) (vs !!! 2%nat)
}.
Solve All Obligations with cstruct.

(** ** The RNG driver and the security API *)

(** The RNG's registers, the pool and the users registered are the state [D].
    Reading a register may fail and leave the data alone; get_random says how
    many bytes it wrote to the buffer by writing them. *)
Class ShwApi := {
  RNG_RET_OK : Z;
  FSL_RETURN_OK_S : Z;
  uco_size : Z;
  fsl_shw_uco_init : Z → list Z → list Z;
  uco_nonneg : 0 ≤ uco_size;
  uco_init_length n bs : zlen (fsl_shw_uco_init n bs) = zlen bs
}.
Class Shw (D : Type) `{ShwApi} := {
  shw_users : D → gset nat;
  rng_read_register : Z → Z → D → (Z * Z) * D;
  rng_write_register : Z → Z → D → Z * D;
  fsl_shw_register_user : nat → D → Z * D;
  fsl_shw_deregister_user : nat → D → Z * D;
  fsl_shw_get_random : nat → Z → D → (Z * list Z) * D;
  fsl_shw_add_entropy : nat → Z → list Z → D → Z * D;
  read_users o v d : shw_users (rng_read_register o v d).2 = shw_users d;
  write_users o v d : shw_users (rng_write_register o v d).2 = shw_users d;
  random_users c n d : shw_users (fsl_shw_get_random c n d).2 = shw_users d;
  entropy_users c n bs d : shw_users (fsl_shw_add_entropy c n bs d).2 = shw_users d;
  register_users c d : shw_users (fsl_shw_register_user c d).2 =
    if (fsl_shw_register_user c d).1 =? FSL_RETURN_OK_S then {[c]} ∪ shw_users d else shw_users d;
  deregister_users c d : shw_users (fsl_shw_deregister_user c d).2 = shw_users d ∖ {[c]};
  random_bytes c n d r bs d' : 0 ≤ n → fsl_shw_get_random c n d = ((r, bs), d') →
    bytes bs ∧ zlen bs ≤ n ∧ (r = RNG_RET_OK → zlen bs = n)
}.
#[global] Hint Mode Shw ! - : typeclass_instances.

(** The entry points the driver registers. *)
Inductive rng_entry := rng_test_open_ref | rng_test_ioctl_ref | rng_test_release_ref.

(** The statics, and what the kernel keeps for the driver: the registration,
    the private data of each open file, the hardware. *)
(* C: module_test/rng_test_driver.c rng_test_major_node 42-53 *)
Record rng (R D : Type) := Rng {
  rng_test_major_node : Z;
  rng_device_registered : Z;
  reg_handle : R;
  user_private : gmap nat nat;
  shw : D
}.
Arguments Rng {R D}. Arguments rng_test_major_node {R D}. Arguments rng_device_registered {R D}.
Arguments reg_handle {R D}. Arguments user_private {R D}. Arguments shw {R D}.

(* C: include/rng_test_driver.h RNG_TEST_MAJOR_NODE 50-53 *)
Definition RNG_TEST_MAJOR_NODE : Z := 0.
(* C: include/rng_test_driver.h RNG_TEST_DRIVER_IOCTL_IDENTIFIER 72-74 *)
Definition RNG_TEST_DRIVER_IOCTL_IDENTIFIER : Z := 114.

Section rng.
Context {U R D : Type} `{Uaccess U} `{Kmalloc} `{Ioctl} `{OsError} `{OsDriver R rng_entry} `{Shw D}.
Abbreviation KM := (M (kstate U (rng R D))).

(* C: include/rng_test_driver.h RNG_TEST_READ_REG 82-83 *)
Definition RNG_TEST_READ_REG : Z := _IOWR RNG_TEST_DRIVER_IOCTL_IDENTIFIER 1 (sizeof rng_test_reg_access_t).
(* C: include/rng_test_driver.h RNG_TEST_WRITE_REG 85-86 *)
Definition RNG_TEST_WRITE_REG : Z := _IOWR RNG_TEST_DRIVER_IOCTL_IDENTIFIER 2 (sizeof rng_test_reg_access_t).
(* C: include/rng_test_driver.h RNG_TEST_ADD_ENTROPY 88-89 *)
Definition RNG_TEST_ADD_ENTROPY : Z := _IOWR RNG_TEST_DRIVER_IOCTL_IDENTIFIER 3 (sizeof rng_test_add_entropy_t).
(* C: include/rng_test_driver.h RNG_TEST_GET_RANDOM 91-92 *)
Definition RNG_TEST_GET_RANDOM : Z := _IOWR RNG_TEST_DRIVER_IOCTL_IDENTIFIER 4 (sizeof rng_test_get_random_t).

Definition set_private p (g : rng R D) : rng R D :=
  Rng (rng_test_major_node g) (rng_device_registered g) (reg_handle g) p (shw g).
Definition set_shw d (g : rng R D) : rng R D :=
  Rng (rng_test_major_node g) (rng_device_registered g) (reg_handle g) (user_private g) d.
Definition set_handle b r (g : rng R D) : rng R D :=
  Rng (rng_test_major_node g) b r (user_private g) (shw g).

Definition on_shw {A} (f : D → A * D) : KM A :=
  dev (λ g, let '(a, d) := f (shw g) in (a, set_shw d g)).
Definition on_handle {A} (f : R → A * R) : KM A :=
  dev (λ g, let '(a, r) := f (reg_handle g) in (a, set_handle (rng_device_registered g) r g)).
Definition handle_do (f : R → R) : KM unit := on_handle (λ r, (tt, f r)).

Definition os_dev_get_user_private (filp : nat) : KM (option nat) :=
  λ s, Done (user_private (k_dev s) !! filp, s).
Definition os_dev_set_user_private (filp : nat) (p : option nat) : KM unit :=
  dev (λ g, (tt, set_private (match p with Some c => <[filp := c]> (user_private g) | None => delete filp (user_private g) end) g)).

(** Writing to a buffer that may be NULL: nothing can be written there. *)
Definition store_ptr (p : option nat) (bs : list Z) : KM unit :=
  match p, bs with
  | Some b, _ => store_block b 0 bs
  | None, [] => mret tt
  | None, _ => lift UB
  end.
Definition load_ptr (p : option nat) (n : Z) : KM (list Z) :=
  match p with
  | Some b => load_block b 0 n
  | None => if n =? 0 then mret [] else lift UB
  end.

(** ** The operations of rng_test_driver.c *)

(** The file's number [filp] stands for the file the kernel opened. *)
(* C: module_test/rng_test_driver.c rng_test_open 97-117 *)
Definition rng_test_open (filp : nat) : KM Z :=
  user_ctx ← kmalloc uco_size;
  match user_ctx with
  | None => mret OS_ERROR_NO_MEMORY_S
  | Some c =>
      bs ← load_block c 0 uco_size;
      _ ← store_block c 0 (fsl_shw_uco_init 20 bs);
      ret ← on_shw (fsl_shw_register_user c);
      if negb (ret =? FSL_RETURN_OK_S) then mret OS_ERROR_FAIL_S
      else
        _ ← os_dev_set_user_private filp (Some c);
        mret OS_ERROR_OK_S
  end.

(* C: module_test/rng_test_driver.c rng_test_get_random 219-257 *)
Definition rng_test_get_random (user_ctx : nat) (rng_data : Z) : KM Z :=
  '(gs, k) ← get_struct rng_test_get_random_t rng_data;
  if negb (os_copy_code k =? 0) then mret OS_ERROR_BAD_ADDRESS_S
  else
    data_buffer ← kmalloc (u32 (gr_count_bytes gs));
    let count_words := s32 (u32 (gr_count_bytes gs + 4 - 1) / 4) in
    '(rng_return, bs) ← on_shw (fsl_shw_get_random user_ctx (u32 (4 * count_words)));
    _ ← store_ptr data_buffer bs;
    let gs := GetRandom (gr_count_bytes gs) (gr_random gs) (gr_isr_flag gs) rng_return in
    k ← put_struct rng_data gs;
    code ← (if rng_return =? RNG_RET_OK then
              bs ← load_ptr data_buffer (u32 (gr_count_bytes gs));
              k ← to_user (gr_random gs) bs;
              mret (os_copy_code k)
            else mret (os_copy_code k));
    _ ← kfree data_buffer;
    mret code.

(* C: module_test/rng_test_driver.c rng_test_add_entropy 270-302 *)
Definition rng_test_add_entropy (user_ctx : nat) (rng_data : Z) : KM Z :=
  '(add, k) ← get_struct rng_test_add_entropy_t rng_data;
  if negb (os_copy_code k =? 0) then mret (os_copy_code k)
  else
    entropy ← kmalloc (ae_count_bytes add);
    match entropy with
    | Some b =>
        bs ← load_block b 0 (ae_count_bytes add);
        ret ← on_shw (fsl_shw_add_entropy user_ctx (ae_count_bytes add) bs);
        let add := AddEntropy ret (ae_count_bytes add) (ae_entropy add) in
        k ← put_struct rng_data add;
        _ ← kfree (Some b);
        mret (os_copy_code k)
    | None => mret OS_ERROR_NO_MEMORY_S
    end.

(* C: module_test/rng_test_driver.c rng_test_read_register 322-346 *)
Definition rng_test_read_register (rng_data : Z) : KM Z :=
  '(reg, k) ← get_struct rng_test_reg_access_t rng_data;
  if negb (os_copy_code k =? OS_ERROR_OK_S) then mret (os_copy_code k)
  else
    '(rng_return, data) ← on_shw (rng_read_register (rr_offset reg) (rr_data reg));
    let reg := RngReg (rr_offset reg) data rng_return in
    k ← put_struct rng_data reg;
    mret (os_copy_code k).

(* C: module_test/rng_test_driver.c rng_test_write_register 366-390 *)
Definition rng_test_write_register (rng_data : Z) : KM Z :=
  '(reg, k) ← get_struct rng_test_reg_access_t rng_data;
  if negb (os_copy_code k =? OS_ERROR_OK_S) then mret (os_copy_code k)
  else
    rng_return ← on_shw (rng_write_register (rr_offset reg) (rr_data reg));
    let reg := RngReg (rr_offset reg) (rr_data reg) rng_return in
    k ← put_struct rng_data reg;
    mret (os_copy_code k).

(* C: module_test/rng_test_driver.c rng_test_ioctl 144-177 *)
Definition rng_test_ioctl (filp : nat) (op arg : Z) : KM Z :=
  user_ctx ← os_dev_get_user_private filp;
  if op =? RNG_TEST_GET_RANDOM then
    match user_ctx with Some c => rng_test_get_random c arg | None => mret OS_ERROR_FAIL_S end
  else if op =? RNG_TEST_ADD_ENTROPY then
    match user_ctx with Some c => rng_test_add_entropy c arg | None => mret OS_ERROR_FAIL_S end
  else if op =? RNG_TEST_READ_REG then rng_test_read_register arg
  else if op =? RNG_TEST_WRITE_REG then rng_test_write_register arg
  else mret OS_ERROR_FAIL_S.

(* C: module_test/rng_test_driver.c rng_test_release 188-199 *)
Definition rng_test_release (filp : nat) : KM Z :=
  user_ctx ← os_dev_get_user_private filp;
  _ ← match user_ctx with
      | Some c =>
          _ ← on_shw (fsl_shw_deregister_user c);
          _ ← kfree (Some c);
          os_dev_set_user_private filp None
      | None => mret tt
      end;
  mret OS_ERROR_OK_S.

(* C: module_test/rng_test_driver.c rng_test_setup_user_driver_interaction 410-440 *)
Definition rng_test_setup_user_driver_interaction : KM Z :=
  g ← (λ s, Done (k_dev s, s));
  _ ← handle_do os_driver_init_registration;
  _ ← handle_do (λ r, os_driver_add_registration r OS_FN_OPEN rng_test_open_ref);
  _ ← handle_do (λ r, os_driver_add_registration r OS_FN_IOCTL rng_test_ioctl_ref);
  _ ← handle_do (λ r, os_driver_add_registration r OS_FN_CLOSE rng_test_release_ref);
  code ← on_handle (λ r, os_driver_complete_registration r (rng_test_major_node g));
  _ ← (if negb (code =? OS_ERROR_OK_S) then mret tt
       else dev (λ g, (tt, set_handle 1 (reg_handle g) g)));
  mret code.

(* C: module_test/rng_test_driver.c rng_test_init 71-85 *)
Definition rng_test_init : KM Z := rng_test_setup_user_driver_interaction.

(* C: module_test/rng_test_driver.c rng_test_cleanup 455-470 *)
Definition rng_test_cleanup : KM Z :=
  g ← (λ s, Done (k_dev s, s));
  if negb (rng_device_registered g =? 0) then
    code ← on_handle os_driver_remove_registration;
    _ ← dev (λ g, (tt, set_handle 0 (reg_handle g) g));
    mret code
  else mret OS_ERROR_OK_S.
End rng.

(** ** Contexts *)

Section rng_proofs.
Context {U R D : Type} `{Uaccess U} `{Kmalloc} `{Ioctl} `{OsError} `{OsDriver R rng_entry} `{Shw D}.
Abbreviation KS := (kstate U (rng R D)).
Implicit Type s : KS.

Definition users s : gset nat := shw_users (shw (k_dev s)).
Definition files s : gmap nat nat := user_private (k_dev s).

(** An ioctl leaves the heap, the open files and the users as they were; while
    it runs, its buffer [p] may be on the heap as well. *)
Definition without (p : option nat) (h : gmap nat (list Z)) : gmap nat (list Z) :=
  match p with Some b => delete b h | None => h end.
Definition quiet_but (p : option nat) s s' : Prop :=
  without p (k_heap s') = k_heap s ∧ (k_count s ≤ k_count s')%nat ∧ files s' = files s ∧ users s' = users s.
Definition quiet : KS → KS → Prop := quiet_but None.

Lemma quiet_refl s : quiet s s.
Proof. by split_and!. Qed.

Lemma heap_ok_quiet s s' : heap_ok s → quiet s s' → heap_ok s'.
Proof. intros Hh (E & Hc & _) b l Hb. cbn in E. rewrite E in Hb. apply Hh in Hb. lia. Qed.

Lemma quiet_user p u s s' : quiet_but p s s' → quiet_but p s (set_user u s').
Proof. done. Qed.

Lemma ensures_on_shw {A} (f : D → A * D) p s s' (Q : A → KS → Prop) :
  (∀ d, shw_users (f d).2 = shw_users d) → quiet_but p s s' →
  (∀ s'', quiet_but p s s'' → Q (f (shw (k_dev s'))).1 s'') →
  ensures (on_shw f) s' Q.
Proof.
  intros Hu (Hh & Hc & Hf & Hus) HQ a s''. unfold on_shw, dev. specialize (Hu (shw (k_dev s'))).
  destruct (f (shw (k_dev s'))) as [x d] eqn:E. intros [= <- <-]. apply HQ. split_and!; try done.
  unfold users in *. cbn in *. congruence.
Qed.

Lemma ensures_store_ptr p bs s s' (Q : unit → KS → Prop) :
  quiet_but p s s' → (∀ s'', quiet_but p s s'' → Q tt s'') → ensures (store_ptr p bs) s' Q.
Proof.
  intros (Hh & Hq) HQ. destruct p as [b|]; cbn [store_ptr].
  - apply ensures_store_block. intros l l' _ _. apply HQ. split; [|done]. cbn in *. by rewrite delete_insert_eq.
  - destruct bs; [apply ensures_ret, HQ; by split|]. by intros ? ?.
Qed.

Lemma ensures_load_ptr p n s (Q : list Z → KS → Prop) :
  (∀ bs, Q bs s) → ensures (load_ptr p n) s Q.
Proof.
  intros HQ. destruct p as [b|]; cbn [load_ptr]; [by apply ensures_load_block|].
  destruct (n =? 0); [by apply ensures_ret|]. by intros ? ?.
Qed.

Lemma ensures_free p s s' (Q : unit → KS → Prop) :
  quiet_but p s s' → (∀ s'', quiet s s'' → Q tt s'') → ensures (kfree p) s' Q.
Proof.
  intros Hq HQ. destruct p as [b|].
  - apply ensures_kfree. intros _. by apply HQ.
  - intros [] s''. intros [= <-]. by apply HQ.
Qed.

Lemma ensures_alloc n s (Q : option nat → KS → Prop) :
  0 ≤ n → heap_ok s → (∀ p s', quiet_but p s s' → Q p s') → ensures (kmalloc n) s Q.
Proof.
  intros Hn Hh HQ. apply ensures_kmalloc; [done| |].
  - apply HQ. split_and!; cbn; try done. lia.
  - intros bs _. apply HQ. split_and!; cbn; try done; [|lia].
    apply delete_insert_id. by apply heap_ok_fresh.
Qed.

Lemma get_random_quiet c arg s :
  heap_ok s → ensures (rng_test_get_random c arg) s (λ _ s', quiet s s').
Proof.
  intros Hh. unfold rng_test_get_random. apply ensures_bind, ensures_get_struct. intros gs k _.
  destruct (negb _); [by apply ensures_ret, quiet_refl|].
  apply ensures_bind, ensures_alloc; [apply u32_range|done|]. intros p s1 Hq1. cbv zeta.
  apply ensures_bind. eapply ensures_on_shw; [intros d; apply random_users|exact Hq1|]. intros s2 Hq2.
  destruct (fsl_shw_get_random _ _ _) as [[r bs] d]. cbn [fst].
  apply ensures_bind. eapply ensures_store_ptr; [exact Hq2|]. intros s3 Hq3.
  apply ensures_bind, ensures_put_struct. intros u k'.
  apply ensures_bind.
  assert (Hend : ∀ code s4, quiet_but p s s4 → ensures (_ ← kfree p; mret code) s4 (λ _ : Z, quiet s)).
  { intros code s4 Hq4. apply ensures_bind. eapply ensures_free; [exact Hq4|]. intros s5 Hq5. by apply ensures_ret. }
  destruct (r =? RNG_RET_OK).
  - apply ensures_bind, ensures_load_ptr. intros bs'. apply ensures_bind, ensures_to_user. intros u' k''.
    apply ensures_ret. by apply Hend.
  - apply ensures_ret. by apply Hend.
Qed.

Lemma add_entropy_quiet c arg s :
  heap_ok s → ensures (rng_test_add_entropy c arg) s (λ _ s', quiet s s').
Proof.
  intros Hh. unfold rng_test_add_entropy. apply ensures_bind, ensures_get_struct. intros add k Hr.
  destruct (negb _); [by apply ensures_ret, quiet_refl|].
  apply ensures_bind, ensures_alloc; [|done|]. { by apply Forall2_cons in Hr as [_ [[? _] _]%Forall2_cons]. }
  intros [b|] s1 Hq1; [|by apply ensures_ret].
  apply ensures_bind, ensures_load_block. intros bs _.
  apply ensures_bind. eapply ensures_on_shw; [intros d; apply entropy_users|exact Hq1|]. intros s2 Hq2.
  apply ensures_bind, ensures_put_struct. intros u k'.
  apply ensures_bind. eapply ensures_free; [by apply quiet_user|]. intros s3 Hq3. by apply ensures_ret.
Qed.

Lemma read_register_quiet arg s : ensures (rng_test_read_register arg) s (λ _ s', quiet s s').
Proof.
  unfold rng_test_read_register. apply ensures_bind, ensures_get_struct. intros reg k _.
  destruct (negb _); [by apply ensures_ret, quiet_refl|].
  apply ensures_bind. eapply ensures_on_shw; [intros d; apply read_users|apply quiet_refl|]. intros s2 Hq2.
  destruct (rng_read_register _ _ _) as [[r v] d]. cbn [fst].
  apply ensures_bind, ensures_put_struct. intros u k'. by apply ensures_ret.
Qed.

Lemma write_register_quiet arg s : ensures (rng_test_write_register arg) s (λ _ s', quiet s s').
Proof.
  unfold rng_test_write_register. apply ensures_bind, ensures_get_struct. intros reg k _.
  destruct (negb _); [by apply ensures_ret, quiet_refl|].
  apply ensures_bind. eapply ensures_on_shw; [intros d; apply write_users|apply quiet_refl|]. intros s2 Hq2.
  apply ensures_bind, ensures_put_struct. intros u k'. by apply ensures_ret.
Qed.

Lemma rng_ioctl_quiet filp op arg s :
  heap_ok s → ensures (rng_test_ioctl filp op arg) s (λ _ s', quiet s s').
Proof.
  intros Hh. unfold rng_test_ioctl. apply ensures_bind. eapply ensures_done; [done|].
  destruct (op =? _); [destruct (_ !! filp); [by apply get_random_quiet|by apply ensures_ret, quiet_refl]|].
  destruct (op =? _); [destruct (_ !! filp); [by apply add_entropy_quiet|by apply ensures_ret, quiet_refl]|].
  destruct (op =? _); [apply read_register_quiet|].
  destruct (op =? _); [apply write_register_quiet|]. by apply ensures_ret, quiet_refl.
Qed.

(** The users of the API are the contexts of the open files, each file has one
    of its own, and apart from [n] blocks nothing else is on the heap. *)
Record contexts s (n : nat) : Prop := Contexts {
  ctx_heap : heap_ok s;
  ctx_users : ∀ c, c ∈ users s ↔ ∃ f, files s !! f = Some c;
  ctx_own : ∀ f f' c, files s !! f = Some c → files s !! f' = Some c → f = f';
  ctx_live : ∀ f c, files s !! f = Some c → is_Some (k_heap s !! c);
  ctx_count : size (k_heap s) = (size (files s) + n)%nat
}.

Lemma contexts_quiet s s' n : contexts s n → quiet s s' → contexts s' n.
Proof.
  intros [Hh Hu Ho Hl Hc] Hq. pose proof (heap_ok_quiet _ _ Hh Hq). destruct Hq as (E1 & _ & E2 & E3).
  cbn in E1. split; rewrite ?E1, ?E2, ?E3; done.
Qed.

(** What a process that opens the device may get. *)
Lemma rng_open_ok filp s n :
  contexts s n → files s !! filp = None →
  ensures (rng_test_open filp) s (λ r s',
    contexts s' (if r =? OS_ERROR_FAIL_S then S n else n) ∧
    files s' = (if r =? OS_ERROR_OK_S then <[filp := k_count s]> (files s) else files s)).
Proof.
  intros [Hh Hu Ho Hl Hc] Hf. destruct os_errors as (Hfail & Hmem & _). pose proof os_fail_memory.
  unfold rng_test_open. apply ensures_bind, ensures_kmalloc; [apply uco_nonneg| |].
  { apply ensures_ret. rewrite os_ok. do 2 (rewrite (proj2 (Z.eqb_neq _ _)) by congruence).
    split; [|done]. split; try done. intros b l Hb. apply Hh in Hb. cbn. lia. }
  intros bs Hbs. pose proof (heap_ok_fresh _ Hh) as Hfr.
  apply ensures_bind, ensures_load_block. intros bs' _.
  apply ensures_bind, ensures_store_block. cbn. rewrite lookup_insert_eq. intros l l' [= <-] _.
  rewrite insert_insert_eq.
  apply ensures_bind. intros ret s2. unfold on_shw, dev. cbn.
  pose proof (register_users (k_count s) (shw (k_dev s))) as Hreg.
  destruct (fsl_shw_register_user (k_count s) (shw (k_dev s))) as [r d] eqn:Er. cbn in *. intros [= <- <-].
  assert (Hh' : ∀ g b (l : list Z), <[k_count s := l']> (k_heap s) !! b = Some l →
    (b < k_count (KState (k_user s) (<[k_count s := l']> (k_heap s)) (S (k_count s)) (g : rng R D)))%nat).
  { intros g b l [[<- _]|[_ Hb]]%lookup_insert_Some; cbn; [lia|]. apply Hh in Hb. lia. }
  assert (Hsz : size (<[k_count s := l']> (k_heap s)) = S (size (k_heap s))) by by apply map_size_insert_None.
  destruct (Z.eqb_spec r FSL_RETURN_OK_S) as [->|Hr]; cbn.
  - apply ensures_bind. eapply ensures_done; [done|]. apply ensures_ret. rewrite os_ok.
    rewrite (proj2 (Z.eqb_neq 0 _)) by congruence. cbn. split; [|done].
    split; unfold users, files in *; cbn.
    + intros b l Hb. by apply (Hh' (k_dev s) b l).
    + intros c. rewrite Hreg, elem_of_union, elem_of_singleton, Hu. split.
      * intros [->|[f Hc']]; [exists filp; by rewrite lookup_insert_eq|].
        exists f. rewrite lookup_insert_ne; [done|]. congruence.
      * intros [f [[_ <-]|[_ Hc']]%lookup_insert_Some]; [by left|right; by exists f].
    + assert (Hno : ∀ f, user_private (k_dev s) !! f ≠ Some (k_count s)).
      { intros f Hc'. apply Hl in Hc' as [x Hx]. by rewrite Hfr in Hx. }
      intros f f' c [[<- <-]|[? E1]]%lookup_insert_Some [[<- ?]|[? E2]]%lookup_insert_Some; try naive_solver.
    + intros f c [[_ <-]|[_ E1]]%lookup_insert_Some; [by rewrite lookup_insert_eq|].
      apply Hl in E1. destruct (decide (c = k_count s)) as [->|]; [by rewrite lookup_insert_eq|].
      by rewrite lookup_insert_ne.
    + rewrite Hsz, map_size_insert_None by done. lia.
  - apply ensures_ret. rewrite Z.eqb_refl, os_ok, (proj2 (Z.eqb_neq _ _)) by congruence. split; [|done].
    split; unfold users, files in *; cbn; try done.
    + intros b l Hb. by apply (Hh' (k_dev s) b l).
    + by rewrite Hreg.
    + intros f c E1. apply Hl in E1. destruct (decide (c = k_count s)) as [->|]; [by rewrite lookup_insert_eq|].
      by rewrite lookup_insert_ne.
    + rewrite Hsz. lia.
Qed.

Lemma rng_release_ok filp c s n :
  contexts s n → files s !! filp = Some c →
  ∃ s', rng_test_release filp s = Done (OS_ERROR_OK_S, s') ∧ contexts s' n ∧
    files s' = delete filp (files s) ∧ users s' = users s ∖ {[c]} ∧ k_heap s' = delete c (k_heap s).
Proof.
  intros [Hh Hu Ho Hl Hc] Hf. destruct (Hl _ _ Hf) as [l El].
  unfold rng_test_release. rewrite M_bind_eq. cbn. unfold files in Hf. rewrite Hf.
  unfold on_shw, dev. rewrite !M_bind_eq.
  pose proof (deregister_users c (shw (k_dev s))) as Hd.
  destruct (fsl_shw_deregister_user c (shw (k_dev s))) as [r d]. cbn in *.
  rewrite M_bind_eq. unfold kfree. cbn. rewrite El. cbn. eexists. split; [done|]. split; [|by split_and!].
  split; unfold users, files in *; cbn.
  - intros b x. cbn. intros [_ Hb]%lookup_delete_Some. by apply Hh in Hb.
  - intros x. rewrite Hd, elem_of_difference, elem_of_singleton, Hu. split.
    + intros [[f Hx] Hne]. exists f. rewrite lookup_delete_ne; [done|]. congruence.
    + intros [f [Hne Hx]%lookup_delete_Some]. split; [by exists f|]. intros ->. by destruct Hne; eapply Ho.
  - intros f f' x [_ E1]%lookup_delete_Some [_ E2]%lookup_delete_Some. by eapply Ho.
  - intros f x [Hne E1]%lookup_delete_Some. rewrite lookup_delete_ne; [by eapply Hl|].
    intros <-. destruct Hne. by eapply Ho.
  - rewrite !map_size_delete, El, Hf, Hc.
    assert (0 < size (user_private (k_dev s)))%nat; [|lia].
    apply Nat.neq_0_lt_0, map_size_non_empty_iff. intros E. by rewrite E, lookup_empty in Hf.
Qed.

(** The calls the kernel makes, with the number of opens the API turned down:
    ioctl and close on an open file, open on a new one; processes write their
    own memory in between. *)
Inductive rng_trace (s0 : KS) : nat → KS → Prop :=
  | trace_start : rng_trace s0 0 s0
  | trace_open n s filp r s' : rng_trace s0 n s → files s !! filp = None →
      rng_test_open filp s = Done (r, s') → rng_trace s0 (if r =? OS_ERROR_FAIL_S then S n else n) s'
  | trace_ioctl n s filp op arg r s' : rng_trace s0 n s → is_Some (files s !! filp) →
      rng_test_ioctl filp op arg s = Done (r, s') → rng_trace s0 n s'
  | trace_release n s filp r s' : rng_trace s0 n s → is_Some (files s !! filp) →
      rng_test_release filp s = Done (r, s') → rng_trace s0 n s'
  | trace_user n s u : rng_trace s0 n s → rng_trace s0 n (set_user u s).

Lemma trace_contexts s0 n s : contexts s0 0 → rng_trace s0 n s → contexts s n.
Proof.
  intros Hc. induction 1 as [|n s filp r s' _ IH Hf E|n s filp op arg r s' _ IH _ E|n s filp r s' _ IH [c Hf] E|n s u _ IH].
  - done.
  - by apply (rng_open_ok filp s n IH Hf).
  - eapply contexts_quiet; [exact IH|]. by eapply rng_ioctl_quiet; [apply (ctx_heap _ _ IH)|].
  - destruct (rng_release_ok _ _ _ _ IH Hf) as (s2 & E2 & Hc2 & _). rewrite E in E2. by injection E2 as -> ->.
  - destruct IH. by split.
Qed.

(** C8: the RNG test driver keeps one user of the security API for each open
    file and gives it back on close: whatever calls processes make and however
    they interleave, the users registered are the contexts of the open files,
    each on the heap and no file's but its own, and the heap holds nothing else
    but one block for each open that the API turned down. *)
Theorem rng_contexts_owned s0 n s :
  contexts s0 0 → rng_trace s0 n s →
  (∀ c, c ∈ users s ↔ ∃ f, files s !! f = Some c) ∧
  (∀ f f' c, files s !! f = Some c → files s !! f' = Some c → f = f') ∧
  size (k_heap s) = (size (files s) + n)%nat ∧
  (files s = ∅ → users s = ∅) ∧
  (∀ f, is_Some (files s !! f) → ∃ s', rng_test_release f s = Done (OS_ERROR_OK_S, s') ∧
     files s' = delete f (files s) ∧ size (k_heap s') = (size (files s') + n)%nat).
Proof.
  intros Hc Ht. pose proof (trace_contexts _ _ _ Hc Ht) as Hs. pose proof Hs as [Hh Hu Ho Hl Hn].
  split_and!; try done.
  - intros E. apply set_eq. intros c. rewrite Hu, E. split; [intros [f Hf]; by rewrite lookup_empty in Hf|set_solver].
  - intros f [c Hf]. destruct (rng_release_ok _ _ _ _ Hs Hf) as (s' & E & Hc' & Hf' & _).
    exists s'. split; [done|]. split; [done|]. apply Hc'.
Qed.

(** ** What the ioctls do *)

Lemma rng_nrs :
  _IOC_NR RNG_TEST_READ_REG = 1 ∧ _IOC_NR RNG_TEST_WRITE_REG = 2 ∧
  _IOC_NR RNG_TEST_ADD_ENTROPY = 3 ∧ _IOC_NR RNG_TEST_GET_RANDOM = 4.
Proof.
  split_and!; apply IOWR_nr; unfold RNG_TEST_DRIVER_IOCTL_IDENTIFIER; try lia; split; by vm_compute.
Qed.

(** The handler each command goes to. *)
Lemma rng_ioctl_eq filp arg s :
  rng_test_ioctl filp RNG_TEST_READ_REG arg s = rng_test_read_register arg s ∧
  rng_test_ioctl filp RNG_TEST_WRITE_REG arg s = rng_test_write_register arg s ∧
  (∀ c, files s !! filp = Some c →
     rng_test_ioctl filp RNG_TEST_ADD_ENTROPY arg s = rng_test_add_entropy c arg s ∧
     rng_test_ioctl filp RNG_TEST_GET_RANDOM arg s = rng_test_get_random c arg s).
Proof.
  pose proof rng_nrs as (N1 & N2 & N3 & N4). unfold rng_test_ioctl, files.
  split_and!; [..|intros c Hc; split]; rewrite M_bind_eq; cbn [os_dev_get_user_private obind]; rewrite ?Hc;
    repeat (first [rewrite Z.eqb_refl | rewrite (proj2 (Z.eqb_neq _ _)) by congruence]); done.
Qed.

Lemma on_shw_ok {A} (f : D → A * D) s a d :
  f (shw (k_dev s)) = (a, d) → on_shw f s = Done (a, set_dev (set_shw d (k_dev s)) s).
Proof. unfold on_shw, dev. by intros ->. Qed.

Lemma os_copy_zero : os_copy_code 0 = 0.
Proof. by apply os_copy_ok. Qed.

(** The register ioctls do on the RNG what the structure asks, once, and
    answer with it: the value read (or written) and the driver's return code are
    in the process's structure, nothing else of its memory changes, and the
    ioctl returns 0 whatever the driver said. *)
Theorem rng_register_ioctls filp arg reg s :
  in_range reg → user_at (k_user s) arg (encode reg) →
  writable_at (k_user s) arg (sizeof rng_test_reg_access_t) →
  (∀ ret v d, rng_read_register (rr_offset reg) (rr_data reg) (shw (k_dev s)) = ((ret, v), d) →
     ∃ u, rng_test_ioctl filp RNG_TEST_READ_REG arg s =
         Done (OS_ERROR_OK_S, set_user u (set_dev (set_shw d (k_dev s)) s)) ∧
       user_at u arg (encode (RngReg (rr_offset reg) v ret)) ∧
       user_frame (k_user s) u arg (sizeof rng_test_reg_access_t)) ∧
  (∀ ret d, rng_write_register (rr_offset reg) (rr_data reg) (shw (k_dev s)) = (ret, d) →
     ∃ u, rng_test_ioctl filp RNG_TEST_WRITE_REG arg s =
         Done (OS_ERROR_OK_S, set_user u (set_dev (set_shw d (k_dev s)) s)) ∧
       user_at u arg (encode (RngReg (rr_offset reg) (rr_data reg) ret)) ∧
       user_frame (k_user s) u arg (sizeof rng_test_reg_access_t)).
Proof.
  intros Hr Hat Hw. destruct (rng_ioctl_eq filp arg s) as (-> & -> & _).
  unfold rng_test_read_register, rng_test_write_register.
  split; [intros ret v d E|intros ret d E]; mstep (get_struct_all arg reg s Hr Hat);
    cbv beta iota; rewrite os_copy_zero, os_ok; cbn [negb Z.eqb];
    (erewrite M_bind_done; [|apply on_shw_ok; exact E]); cbv zeta.
  - destruct (put_struct_all arg (RngReg (rr_offset reg) v ret) (set_dev (set_shw d (k_dev s)) s) Hw)
      as (u & EP & Hu & Hf). mstep EP. exists u. by rewrite os_copy_zero.
  - destruct (put_struct_all arg (RngReg (rr_offset reg) (rr_data reg) ret) (set_dev (set_shw d (k_dev s)) s) Hw)
      as (u & EP & Hu & Hf). mstep EP. exists u. by rewrite os_copy_zero.
Qed.

(** C27: a request the driver cannot read has no effect: when a byte of the
    structure is not readable the ioctl returns an error, and neither the RNG,
    the heap nor the process's memory changes; a command it does not know is
    refused in the same way. *)
Theorem rng_ioctl_faults filp c op arg s :
  files s !! filp = Some c →
  (op = RNG_TEST_READ_REG ∨ op = RNG_TEST_WRITE_REG) ∧ unreadable (k_user s) arg (sizeof rng_test_reg_access_t) ∨
  op = RNG_TEST_ADD_ENTROPY ∧ unreadable (k_user s) arg (sizeof rng_test_add_entropy_t) ∨
  op = RNG_TEST_GET_RANDOM ∧ unreadable (k_user s) arg (sizeof rng_test_get_random_t) ∨
  op ∉ [RNG_TEST_READ_REG; RNG_TEST_WRITE_REG; RNG_TEST_ADD_ENTROPY; RNG_TEST_GET_RANDOM] →
  ∃ r, rng_test_ioctl filp op arg s = Done (r, s) ∧ r ≠ OS_ERROR_OK_S.
Proof.
  intros Hf Hop. destruct (rng_ioctl_eq filp arg s) as (ER & EW & Hc). destruct (Hc _ Hf) as [EA EG].
  destruct os_errors as (Hfail & _ & Haddr).
  assert (Hk : ∀ k, 0 < k → os_copy_code k ≠ 0) by (intros k Hk E; apply (os_copy_ok k) in E; lia).
  destruct Hop as [[[-> | ->] Hu]|[[-> Hu]|[[-> Hu]|Hno]]].
  1: rewrite ER; unfold rng_test_read_register.
  2: rewrite EW; unfold rng_test_write_register.
  3: rewrite EA; unfold rng_test_add_entropy.
  4: rewrite EG; unfold rng_test_get_random.
  1-4: destruct (get_struct_fault _ _ _ Hu) as (x & k & E & _ & Hpos); mstep E; specialize (Hk k Hpos);
    cbv beta iota; rewrite os_ok, (proj2 (Z.eqb_neq _ _)) by done; by eexists.
  rewrite !not_elem_of_cons in Hno. destruct Hno as (? & ? & ? & ? & _). exists OS_ERROR_FAIL_S.
  split; [|by rewrite os_ok]. unfold rng_test_ioctl. rewrite M_bind_eq. cbn [os_dev_get_user_private obind].
  do 4 (rewrite (proj2 (Z.eqb_neq _ _)) by done). done.
Qed.

Lemma random_words n : 0 ≤ n < 2 ^ 31 → n mod 4 = 0 → u32 (4 * s32 (u32 (n + 4 - 1) / 4)) = n.
Proof.
  intros Hn Hm. change (2 ^ 31) with 2147483648 in Hn.
  rewrite (u32_small (n + 4 - 1)) by lia. replace ((n + 4 - 1) / 4) with (n / 4) by dlia.
  rewrite s32_small by dlia. replace (4 * (n / 4)) with n by dlia. apply u32_small. lia.
Qed.

(** C5: GET_RANDOM delivers what the RNG gives: for a whole number of words,
    with memory for the buffer and the two places of the process apart, the
    bytes arrive at [random] when the API is content and the return code in the
    structure in any case.  Nothing else changes: not the heap, where the buffer
    is free again, not the driver's state but for the API's own, and not a byte
    of the process outside of the structure and, when the API is content, of the
    bytes asked for. *)
Theorem rng_get_random_delivers filp c arg gs s buf r bs d :
  files s !! filp = Some c → heap_ok s →
  in_range gs → user_at (k_user s) arg (encode gs) →
  writable_at (k_user s) arg (sizeof rng_test_get_random_t) →
  let n := gr_count_bytes gs in
  0 ≤ n → n mod 4 = 0 → writable_at (k_user s) (gr_random gs) n →
  gr_random gs + n ≤ arg ∨ arg + sizeof rng_test_get_random_t ≤ gr_random gs →
  kmalloc_answer (k_count s) n = Some buf →
  fsl_shw_get_random c n (shw (k_dev s)) = ((r, bs), d) →
  ∃ s', rng_test_ioctl filp RNG_TEST_GET_RANDOM arg s = Done (OS_ERROR_OK_S, s') ∧
    k_heap s' = k_heap s ∧ k_dev s' = set_shw d (k_dev s) ∧
    user_at (k_user s') arg (encode (GetRandom n (gr_random gs) (gr_isr_flag gs) r)) ∧
    (r = RNG_RET_OK → user_at (k_user s') (gr_random gs) bs ∧ zlen bs = n ∧
       user_frame2 (k_user s) (k_user s') arg (sizeof rng_test_get_random_t) (gr_random gs) n) ∧
    (r ≠ RNG_RET_OK → user_frame (k_user s) (k_user s') arg (sizeof rng_test_get_random_t)).
Proof.
  intros Hf Hh Hr Hat Hw n Hn0 Hm Hwr Hap Hk Hg.
  assert (Hn : 0 ≤ n < 2 ^ 31) by (apply Forall2_cons in Hr as [[? ?] _]; split; [done|assumption]).
  destruct (rng_ioctl_eq filp arg s) as (_ & _ & Hc). destruct (Hc _ Hf) as [_ ->].
  destruct (random_bytes _ _ _ _ _ _ Hn0 Hg) as (Hb & Hle & Hok).
  destruct (kmalloc_size _ _ _ Hn0 Hk) as [Hbuf _].
  unfold rng_test_get_random. mstep (get_struct_all arg gs s Hr Hat). cbv beta iota.
  rewrite os_copy_zero. cbn [negb Z.eqb]. fold n. rewrite random_words by done.
  rewrite (u32_small n) by lia.
  pose proof (heap_ok_fresh _ Hh) as Hfr.
  set (s1 := KState (k_user s) (<[k_count s := buf]> (k_heap s)) (S (k_count s)) (k_dev s)).
  erewrite M_bind_done; [|unfold kmalloc; rewrite Hk; reflexivity]. fold s1. cbv zeta.
  erewrite M_bind_done; [|apply on_shw_ok; exact Hg]. cbv beta iota.
  destruct (store_block_ok (k_count s) 0 bs (set_dev (set_shw d (k_dev s1)) s1) buf) as (l' & ES & Hl' & Hsl);
    [by apply lookup_insert_eq|lia|lia|]. cbn [store_ptr]. mstep ES.
  match goal with |- context [put_struct arg ?x] => set (gs' := x) end.
  set (s2 := set_heap _ _).
  destruct (put_struct_all arg gs' s2 Hw) as (u & EP & Hu & Hfu). mstep EP.
  set (s3 := set_user u s2).
  assert (Hl3 : k_heap s3 !! k_count s = Some l') by by apply lookup_insert_eq.
  assert (Hfree : delete (k_count s) (k_heap s3) = k_heap s)
    by (cbn; rewrite insert_insert_eq; by apply delete_insert_id).
  destruct (Z.eqb_spec r RNG_RET_OK) as [E|E].
  - specialize (Hok E). rewrite Hok in Hsl.
    destruct (load_block_ok (k_count s) 0 n s3 l' Hl3) as (bs' & EL & Hsl' & _); [lia..|].
    rewrite Hsl in Hsl'. injection Hsl' as <-. cbn [load_ptr gr_count_bytes gs'] in *.
    rewrite (u32_small n) by lia. rewrite M_bind_eq, M_bind_eq, EL. cbn [obind].
    assert (Hwr' : writable_at u (gr_random gs) (zlen bs))
      by (rewrite Hok; eapply writable_frame; [exact Hfu|exact Hwr]).
    destruct (to_user_all (gr_random gs) bs s3 Hb Hwr') as (u' & ET & Hu' & Hfu').
    rewrite M_bind_eq. change (gr_random gs') with (gr_random gs). rewrite ET. cbn [obind mret M_ret].
    mstep (kfree_ok (k_count s) (set_user u' s3) l' Hl3). rewrite os_copy_zero, os_ok.
    eexists. split; [reflexivity|]. cbn. split; [exact Hfree|]. split; [done|].
    split; [refine (user_at_frame _ _ _ _ _ _ Hfu' _ Hu); rewrite zlen_encode, Hok; lia|].
    split; [|by intros []]. intros _. split; [done|]. split; [done|].
    rewrite Hok in Hfu'. exact (user_frame_both _ _ _ _ _ _ _ Hfu Hfu').
  - cbn [obind mret M_ret]. rewrite M_bind_eq. cbn [obind mret M_ret].
    mstep (kfree_ok (k_count s) s3 l' Hl3). rewrite os_copy_zero, os_ok.
    eexists. split; [reflexivity|]. cbn. split; [exact Hfree|]. split; [done|]. by split_and!.
Qed.

(** A count that is no whole number of words: the buffer has the bytes asked
    for, the RNG is asked for the words that hold them and writes past its end. *)
Lemma rng_get_random_overflows filp c arg gs s buf r bs d :
  files s !! filp = Some c → in_range gs → user_at (k_user s) arg (encode gs) →
  let n := gr_count_bytes gs in
  0 < n < 2 ^ 31 - 4 → n mod 4 ≠ 0 → kmalloc_answer (k_count s) n = Some buf →
  fsl_shw_get_random c (4 * ((n + 3) / 4)) (shw (k_dev s)) = ((r, bs), d) → r = RNG_RET_OK →
  rng_test_ioctl filp RNG_TEST_GET_RANDOM arg s = UB.
Proof.
  intros Hf Hr Hat n Hn Hm Hk Hg ->. change (2 ^ 31) with 2147483648 in Hn.
  destruct (rng_ioctl_eq filp arg s) as (_ & _ & Hc). destruct (Hc _ Hf) as [_ ->].
  assert (Hn4 : 0 ≤ 4 * ((n + 3) / 4)) by dlia.
  destruct (random_bytes _ _ _ _ _ _ Hn4 Hg) as (_ & _ & Hok). specialize (Hok eq_refl).
  assert (Hn0 : 0 ≤ n) by lia. destruct (kmalloc_size _ _ _ Hn0 Hk) as [Hbuf _].
  unfold rng_test_get_random. mstep (get_struct_all arg gs s Hr Hat). cbv beta iota.
  rewrite os_copy_zero. cbn [negb Z.eqb]. fold n. rewrite (u32_small n) by lia.
  rewrite (u32_small (n + 4 - 1)) by lia. replace (n + 4 - 1) with (n + 3) by lia.
  rewrite s32_small by dlia. rewrite u32_small by dlia.
  erewrite M_bind_done; [|unfold kmalloc; rewrite Hk; reflexivity]. cbv zeta.
  erewrite M_bind_done; [|apply on_shw_ok; exact Hg]. cbv beta iota.
  rewrite M_bind_eq. cbn [store_ptr]. unfold store_block. cbn. rewrite lookup_insert_eq. cbn.
  unfold splice. destruct (Z.leb_spec (0 + zlen bs) (zlen buf)); [exfalso; dlia|done].
Qed.

(** What ADD_ENTROPY adds is what the allocator left in the buffer: the bytes
    at [entropy] are not looked at. *)
Lemma add_entropy_ignores_process filp c arg add s buf r d :
  files s !! filp = Some c → in_range add → user_at (k_user s) arg (encode add) →
  kmalloc_answer (k_count s) (ae_count_bytes add) = Some buf →
  fsl_shw_add_entropy c (ae_count_bytes add) buf (shw (k_dev s)) = (r, d) →
  ensures (rng_test_ioctl filp RNG_TEST_ADD_ENTROPY arg) s (λ _ s', shw (k_dev s') = d).
Proof.
  intros Hf Hr Hat Hk He. destruct (rng_ioctl_eq filp arg s) as (_ & _ & Hc).
  intros code s'. destruct (Hc _ Hf) as [-> _]. revert code s'.
  change (ensures (rng_test_add_entropy c arg) s (λ _ s', shw (k_dev s') = d)).
  assert (Hn : 0 ≤ ae_count_bytes add) by (apply Forall2_cons in Hr as [_ [[? _] _]%Forall2_cons]; assumption).
  destruct (kmalloc_size _ _ _ Hn Hk) as [Hbuf _].
  unfold rng_test_add_entropy. apply ensures_bind. eapply ensures_done; [by apply get_struct_all|].
  cbv beta iota. rewrite os_copy_zero. cbn [negb Z.eqb]. apply ensures_bind.
  eapply ensures_done; [unfold kmalloc; rewrite Hk; reflexivity|]. apply ensures_bind.
  eapply ensures_done.
  { unfold load_block. cbn. rewrite lookup_insert_eq. cbn. rewrite <- Hbuf, slice_all. reflexivity. }
  apply ensures_bind. eapply ensures_done; [by apply on_shw_ok; cbn|].
  apply ensures_bind, ensures_put_struct. intros u k. apply ensures_bind, ensures_kfree. intros _.
  by apply ensures_ret.
Qed.

(** ** Loading and unloading *)

Lemma handle_do_ok (f : R → R) s :
  handle_do f s = Done (tt, set_dev (set_handle (rng_device_registered (k_dev s)) (f (reg_handle (k_dev s))) (k_dev s)) s).
Proof. done. Qed.

Lemma on_handle_ok {A} (f : R → A * R) s a r :
  f (reg_handle (k_dev s)) = (a, r) →
  on_handle f s = Done (a, set_dev (set_handle (rng_device_registered (k_dev s)) r (k_dev s)) s).
Proof. unfold on_handle, dev. by intros ->. Qed.

Definition majors s : gset Z := os_majors (reg_handle (k_dev s)).
Definition entry s : os_fn → option rng_entry := os_entry (reg_handle (k_dev s)).

(** Loading the module puts its open, ioctl and close in charge of a major
    that was free, and unloading gives exactly that major back, once; when the
    registration fails no major is taken and unloading has nothing to give back. *)
Theorem rng_init_cleanup s :
  rng_device_registered (k_dev s) = 0 →
  ∃ r s', rng_test_init s = Done (r, s') ∧
    (r = OS_ERROR_OK_S →
       entry s' OS_FN_OPEN = Some rng_test_open_ref ∧ entry s' OS_FN_IOCTL = Some rng_test_ioctl_ref ∧
       entry s' OS_FN_CLOSE = Some rng_test_release_ref ∧ entry s' OS_FN_MMAP = None ∧
       (∃ m, 0 < m ∧ m ∉ majors s ∧ majors s' = {[m]} ∪ majors s) ∧
       ∃ c s'', rng_test_cleanup s' = Done (c, s'') ∧ majors s'' = majors s ∧
         rng_test_cleanup s'' = Done (OS_ERROR_OK_S, s'')) ∧
    (r ≠ OS_ERROR_OK_S → majors s' = majors s ∧ rng_test_cleanup s' = Done (OS_ERROR_OK_S, s')).
Proof.
  intros H0f. unfold rng_test_init, rng_test_setup_user_driver_interaction.
  erewrite M_bind_done; [|reflexivity]. do 4 mstep handle_do_ok. rewrite H0f.
  cbn [reg_handle set_handle k_dev set_dev].
  match goal with |- context [(on_handle _ ≫= _) ?s0] => set (s1 := s0) end.
  destruct (os_driver_complete_registration (reg_handle (k_dev s1)) (rng_test_major_node (k_dev s))) as [c r] eqn:E.
  destruct (complete_spec _ _ _ _ E) as (He & Hbad & Hok).
  assert (Hm : os_majors (reg_handle (k_dev s1)) = majors s)
    by (unfold s1, majors; cbn; by rewrite !add_majors, init_majors).
  rewrite Hm in *.
  erewrite M_bind_done; [|apply on_handle_ok; exact E].
  rewrite os_ok. destruct (Z.eqb_spec c 0) as [->|Hc]; cbn [negb].
  - destruct (Hok eq_refl) as (Hmaj & Hnew & Hpos & _).
    erewrite M_bind_done; [|reflexivity]. eexists 0, _. split; [reflexivity|]. split; [|done]. intros _.
    unfold entry, majors at 2. cbn. rewrite !He. unfold s1. cbn. rewrite !add_entry, !init_entry.
    split_and!; [by vm_compute..| |]; [by eexists|].
    unfold rng_test_cleanup. erewrite M_bind_done; [|reflexivity]. cbn [rng_device_registered set_handle k_dev set_dev negb Z.eqb].
    destruct (os_driver_remove_registration r) as [c' r'] eqn:Er.
    erewrite M_bind_done; [|apply on_handle_ok; exact Er]. erewrite M_bind_done; [|reflexivity].
    apply remove_spec in Er. eexists _, _. split; [reflexivity|]. unfold majors. cbn. rewrite Er, Hmaj.
    split; [set_solver|by rewrite os_ok].
  - erewrite M_bind_done; [|reflexivity]. eexists c, _. split; [reflexivity|]. split; [done|]. intros _.
    split; [unfold majors; cbn; by apply Hbad|].
    unfold rng_test_cleanup. rewrite M_bind_eq. cbn. by rewrite os_ok.
Qed.
End rng_proofs.

(** ** An example: an RNG of two registers that counts upwards *)

#[export] Program Instance shw_api_example : ShwApi := {
  RNG_RET_OK := 0; FSL_RETURN_OK_S := 0; uco_size := 8;
  fsl_shw_uco_init n bs := (λ _, n) <$> bs
}.
Next Obligation. lia. Qed.
Next Obligation. intros n bs. unfold zlen. by rewrite length_fmap. Qed.

Record rng_hw := RngHw { hw_regs : gmap Z Z; hw_users : gset nat; hw_next : Z }.

#[export] Program Instance shw_example : Shw rng_hw := {
  shw_users := hw_users;
  rng_read_register o v d := (match hw_regs d !! o with Some x => (0, x) | None => (1, v) end, d);
  rng_write_register o v d :=
    match hw_regs d !! o with
    | Some _ => (0, RngHw (<[o := v]> (hw_regs d)) (hw_users d) (hw_next d))
    | None => (1, d)
    end;
  fsl_shw_register_user c d := (0, RngHw (hw_regs d) ({[c]} ∪ hw_users d) (hw_next d));
  fsl_shw_deregister_user c d := (0, RngHw (hw_regs d) (hw_users d ∖ {[c]}) (hw_next d));
  fsl_shw_get_random c n d :=
    ((0, (λ i, u8 (hw_next d + i)) <$> seqZ 0 n), RngHw (hw_regs d) (hw_users d) (hw_next d + n));
  fsl_shw_add_entropy c n bs d := (0, RngHw (hw_regs d) (hw_users d) (foldr Z.add (hw_next d) bs))
}.
Next Obligation. done. Qed.
Next Obligation. intros o v d. cbn. by destruct (hw_regs d !! o). Qed.
Next Obligation. done. Qed.
Next Obligation. done. Qed.
Next Obligation. done. Qed.
Next Obligation. done. Qed.
Next Obligation.
  intros c n d r bs d' Hn [= <- <- <-]. unfold zlen. rewrite length_fmap, length_seqZ.
  split; [|lia]. apply Forall_fmap, Forall_forall. intros x _. apply u8_range.
Qed.

Definition rng_state : Type := kstate (gmap Z Z) (rng (os_handle rng_entry) rng_hw).

(** Nothing open; a request for the register at 4 in the process's memory. *)
Definition rng_loaded : rng_state :=
  KState (flat_write ∅ 100 (encode (RngReg 4 0 (-1)))) ∅ 0
    (Rng 0 0 (OsHandle (λ _, None) 0 ∅) ∅ (RngHw {[4 := 7]} ∅ 1)).

Lemma rng_loaded_contexts : contexts rng_loaded 0.
Proof.
  split; unfold heap_ok, files, users; cbn.
  - intros b l Hb. by rewrite lookup_empty in Hb.
  - intros c. split; [set_solver|]. intros [f Hf]. by rewrite lookup_empty in Hf.
  - intros f f' c Hf. by rewrite lookup_empty in Hf.
  - intros f c Hf. by rewrite lookup_empty in Hf.
  - reflexivity.
Qed.


Lemma rng_contexts_owned_witness :
  contexts rng_loaded 0 ∧ ∃ s, rng_trace rng_loaded 0 s ∧ files s = {[5%nat := 0%nat]} ∧ users s = {[0%nat]} ∧
    size (k_heap s) = 1%nat.
Proof.
  split; [exact rng_loaded_contexts|].
  assert (Ho : ∃ s, rng_test_open 5 rng_loaded = Done (0, s) ∧ files s = {[5%nat := 0%nat]})
    by (eexists; split; [vm_compute; reflexivity|reflexivity]).
  destruct Ho as (s & E & Hf).
  assert (Ht : rng_trace rng_loaded 0 s)
    by exact (trace_open rng_loaded 0 rng_loaded 5 0 s (trace_start _) eq_refl E).
  exists s. split; [exact Ht|]. split; [exact Hf|].
  destruct (rng_contexts_owned rng_loaded 0 s rng_loaded_contexts Ht) as (Hu & _ & Hs & _).
  split; [|rewrite Hs, Hf; reflexivity].
  apply set_eq. intros c. rewrite Hu, Hf, elem_of_singleton. split.
  - intros [f [_ ->]%lookup_singleton_Some]. reflexivity.
  - intros ->. exists 5%nat. reflexivity.
Defined.

Lemma rng_request_there :
  in_range (RngReg 4 0 (-1)) ∧ user_at (k_user rng_loaded) 100 (encode (RngReg 4 0 (-1))) ∧
  writable_at (k_user rng_loaded) 100 (sizeof rng_test_reg_access_t).
Proof.
  split; [by repeat constructor|]. split.
  - apply flat_user_at, bytes_encode.
  - rewrite <- (zlen_encode (RngReg 4 0 (-1))). apply flat_writable_at.
Qed.

Lemma rng_register_ioctls_witness :
  in_range (RngReg 4 0 (-1)) ∧
  ∃ u, rng_test_ioctl 5 RNG_TEST_READ_REG 100 rng_loaded = Done (0, set_user u rng_loaded) ∧
    user_at u 100 (encode (RngReg 4 7 0)).
Proof.
  destruct rng_request_there as (Hr & Hu & Hw). split; [exact Hr|].
  destruct (rng_register_ioctls 5 100 (RngReg 4 0 (-1)) rng_loaded Hr Hu Hw) as [Hread _].
  destruct (Hread 0 7 (shw (k_dev rng_loaded)) eq_refl) as (u & E & Hu' & _). by exists u.
Defined.

Lemma rng_ioctl_faults_witness :
  let s := set_dev (set_private {[5%nat := 0%nat]} (k_dev rng_loaded)) rng_loaded in
  files s !! 5%nat = Some 0%nat ∧ unreadable (k_user s) 200 (sizeof rng_test_reg_access_t) ∧
  ∃ r, rng_test_ioctl 5 RNG_TEST_READ_REG 200 s = Done (r, s) ∧ r ≠ OS_ERROR_OK_S.
Proof.
  intros s. assert (Hu : unreadable (k_user s) 200 (sizeof rng_test_reg_access_t))
    by (exists 0; split; [split; by vm_compute|reflexivity]).
  split; [reflexivity|]. split; [exact Hu|].
  apply (rng_ioctl_faults 5 0 RNG_TEST_READ_REG 200 s eq_refl). left. split; [left; reflexivity|exact Hu].
Defined.

(** A request for eight bytes, to 64, from the structure at 32. *)
Definition random_request : rng_test_get_random_t := GetRandom 8 64 0 (-1).
Definition rng_asked : rng_state :=
  KState (flat_write (flat_write ∅ 64 (replicate 8 0)) 32 (encode random_request)) ∅ 1
    (Rng 0 0 (OsHandle (λ _, None) 0 ∅) {[5%nat := 0%nat]} (RngHw ∅ {[0%nat]} 1)).

Lemma rng_get_random_delivers_witness :
  files rng_asked !! 5%nat = Some 0%nat ∧ heap_ok rng_asked ∧ in_range random_request ∧
  ∃ s', rng_test_ioctl 5 RNG_TEST_GET_RANDOM 32 rng_asked = Done (0, s') ∧
    user_at (k_user s') 64 [1; 2; 3; 4; 5; 6; 7; 8].
Proof.
  assert (Hh : heap_ok rng_asked) by (intros b l Hb; cbn in Hb; by rewrite lookup_empty in Hb).
  assert (Hr : in_range random_request) by (by repeat constructor).
  assert (Hu : user_at (k_user rng_asked) 32 (encode random_request)) by apply flat_user_at, bytes_encode.
  assert (Hw : writable_at (k_user rng_asked) 32 (sizeof rng_test_get_random_t))
    by (rewrite <- (zlen_encode random_request); apply flat_writable_at).
  assert (Hw2 : writable_at (k_user rng_asked) 64 8).
  { intros i Hi. assert (Hc : i = 0 ∨ i = 1 ∨ i = 2 ∨ i = 3 ∨ i = 4 ∨ i = 5 ∨ i = 6 ∨ i = 7) by lia.
    destruct Hc as [-> | [-> | [-> | [-> | [-> | [-> | [-> | ->]]]]]]]; reflexivity. }
  split; [reflexivity|]. split; [exact Hh|]. split; [exact Hr|].
  destruct (rng_get_random_delivers 5 0 32 random_request rng_asked (replicate 8 0) 0
    [1; 2; 3; 4; 5; 6; 7; 8] (RngHw ∅ {[0%nat]} 9) eq_refl Hh Hr Hu Hw ltac:(cbn; lia) eq_refl Hw2
    ltac:(right; vm_compute; discriminate) eq_refl ltac:(reflexivity))
    as (s' & E & _ & _ & _ & Hok & _).
  exists s'. split; [exact E|]. by apply Hok.
Defined.

Lemma rng_init_cleanup_witness :
  rng_device_registered (k_dev rng_loaded) = 0 ∧
  ∃ s', rng_test_init rng_loaded = Done (0, s') ∧ entry s' OS_FN_OPEN = Some rng_test_open_ref.
Proof.
  split; [reflexivity|]. destruct (rng_init_cleanup rng_loaded eq_refl) as (r & s' & E & Hok & _).
  assert (Er : r = 0).
  { assert (E' : ∃ t, rng_test_init rng_loaded = Done (0, t)) by (eexists; vm_compute; reflexivity).
    destruct E' as [t E']. rewrite E in E'. by injection E'. }
  subst r. exists s'. split; [exact E|]. by apply Hok.
Defined.
