(* ===== verification/Scc.v ===== *)
(** * scc_test_driver.c and scc_test_driver.h: the test driver of the SCC

    Ioctls that pass a process's request on to the driver of the Security
    Controller and bring the answer back: registers, 3DES encryption through
    buffers of the kernel, and key slots.  The SCC driver is the class [Scc]. *)

From S2P Require Import Prelude Kernel.
From stdpp Require Import list_numbers.

Open Scope Z_scope.

(** ** The structures of the ioctls *)

(* C: include/scc_test_driver.h scc_configuration_access 164-172 *)
Record scc_configuration_access := SccConfiguration {
  driver_major_version : Z;
  driver_minor_version : Z;
  scm_version : Z;
  smn_version : Z;
  block_size : Z;
  black_ram_size : Z;
  red_ram_size : Z
}.
#[export] Program Instance scc_configuration_struct : CStruct scc_configuration_access := {
  c_types := [cint; cint; cint; cint; cint; cint; cint];
  c_fields a := [driver_major_version a; driver_minor_version a; scm_version a; smn_version a;
    block_size a; black_ram_size a; red_ram_size a];
  c_make vs := SccConfiguration (vs !!! 0%nat) (vs !!! 1%nat) (vs !!! 2%nat) (vs !!! 3%nat)
    (vs !!! 4%nat) (vs !!! 5%nat) (vs !!! 6%nat)
}.
Solve All Obligations with cstruct.

(* C: include/scc_test_driver.h scc_reg_access 179-183 *)
Record scc_reg_access := SccReg {
  sr_offset : Z;
  sr_data : Z;
  sr_function_return_code : Z
}.
#[export] Program Instance scc_reg_struct : CStruct scc_reg_access := {
  c_types := [uint32_t; uint32_t; cint];
  c_fields a := [sr_offset a; sr_data a; sr_function_return_code a];
  c_make vs := SccReg (vs !!! 0%nat) (vs !!! 1%nat) (vs !!! 2%nat)
}.
Solve All Obligations with cstruct.

(* C: include/scc_test_driver.h scc_encrypt_decrypt 190-207 *)
Record scc_encrypt_decrypt := SccCipher {
  data_in : Z;
  data_in_length : Z;
  data_out : Z;
  data_out_length : Z;
  crypto_mode : Z;
  check_mode : Z;
  init_vector0 : Z;
  init_vector1 : Z;
  wait_mode : Z;
  sc_function_return_code : Z;
  verify_mode : Z
}.
#[export] Program Instance scc_cipher_struct : CStruct scc_encrypt_decrypt := {
  c_types := [cptr; ulong; cptr; ulong; uint32_t; uint32_t; uint32_t; uint32_t; uint32_t; cint; uint32_t];
  c_fields a := [data_in a; data_in_length a; data_out a; data_out_length a; crypto_mode a; check_mode a;
    init_vector0 a; init_vector1 a; wait_mode a; sc_function_return_code a; verify_mode a];
  c_make vs := SccCipher (vs !!! 0%nat) (vs !!! 1%nat) (vs !!! 2%nat) (vs !!! 3%nat) (vs !!! 4%nat)
    (vs !!! 5%nat) (vs !!! 6%nat) (vs !!! 7%nat) (vs !!! 8%nat) (vs !!! 9%nat) (vs !!! 10%nat)
}.
Solve All Obligations with cstruct.

(** No command uses this one. *)
(* C: include/scc_test_driver.h scc_get_black_length_access 212-215 *)
Record scc_get_black_length_access := SccBlackLength {
  bl_value_size_bytes : Z;
  bl_black_size_bytes : Z;
  bl_pad : Z
}.
#[export] Program Instance scc_black_length_struct : CStruct scc_get_black_length_access := {
  c_types := [uint64_t; uint32_t; uint32_t];
  c_fields a := [bl_value_size_bytes a; bl_black_size_bytes a; bl_pad a];
  c_make vs := SccBlackLength (vs !!! 0%nat) (vs !!! 1%nat) (vs !!! 2%nat)
}.
Solve All Obligations with cstruct.

(* C: include/scc_test_driver.h scc_alloc_slot_access 221-226 *)
Record scc_alloc_slot_access := SccAlloc {
  al_value_size_bytes : Z;
  al_slot : Z;
  al_owner_id : Z;
  al_scc_status : Z;
  al_pad : Z
}.
#[export] Program Instance scc_alloc_struct : CStruct scc_alloc_slot_access := {
  c_types := [uint32_t; uint32_t; uint64_t; cint; uint32_t];
  c_fields a := [al_value_size_bytes a; al_slot a; al_owner_id a; al_scc_status a; al_pad a];
  c_make vs := SccAlloc (vs !!! 0%nat) (vs !!! 1%nat) (vs !!! 2%nat) (vs !!! 3%nat) (vs !!! 4%nat)
}.
Solve All Obligations with cstruct.

(* C: include/scc_test_driver.h scc_dealloc_slot_access 232-236 *)
Record scc_dealloc_slot_access := SccDealloc {
  de_slot : Z;
  de_scc_status : Z;
  de_owner_id : Z
}.
#[export] Program Instance scc_dealloc_struct : CStruct scc_dealloc_slot_access := {
  c_types := [uint32_t; cint; uint64_t];
  c_fields a := [de_slot a; de_scc_status a; de_owner_id a];
  c_make vs := SccDealloc (vs !!! 0%nat) (vs !!! 1%nat) (vs !!! 2%nat)
}.
Solve All Obligations with cstruct.

(* C: include/scc_test_driver.h scc_load_slot_access 242-249 *)
Record scc_load_slot_access := SccLoad {
  lo_slot : Z;
  lo_key_is_red : Z;
  lo_owner_id : Z;
  lo_key_data : Z;
  lo_key_data_length : Z;
  lo_scc_status : Z;
  lo_pad : Z
}.
#[export] Program Instance scc_load_struct : CStruct scc_load_slot_access := {
  c_types := [uint32_t; uint32_t; uint64_t; cptr; uint32_t; cint; uint32_t];
  c_fields a := [lo_slot a; lo_key_is_red a; lo_owner_id a; lo_key_data a; lo_key_data_length a;
    lo_scc_status a; lo_pad a];
  c_make vs := SccLoad (vs !!! 0%nat) (vs !!! 1%nat) (vs !!! 2%nat) (vs !!! 3%nat) (vs !!! 4%nat)
    (vs !!! 5%nat) (vs !!! 6%nat)
}.
Solve All Obligations with cstruct.

(* C: include/scc_test_driver.h scc_encrypt_slot_access 254-260 *)
Record scc_encrypt_slot_access := SccEncryptSlot {
  en_slot : Z;
  en_key_data : Z;
  en_owner_id : Z;
  en_key_data_length : Z;
  en_scc_status : Z
}.
#[export] Program Instance scc_encrypt_slot_struct : CStruct scc_encrypt_slot_access := {
  c_types := [uint32_t; cptr; uint64_t; uint32_t; cint];
  c_fields a := [en_slot a; en_key_data a; en_owner_id a; en_key_data_length a; en_scc_status a];
  c_make vs := SccEncryptSlot (vs !!! 0%nat) (vs !!! 1%nat) (vs !!! 2%nat) (vs !!! 3%nat) (vs !!! 4%nat)
}.
Solve All Obligations with cstruct.

(* C: include/scc_test_driver.h scc_get_slot_info_access 266-273 *)
Record scc_get_slot_info_access := SccSlotInfo {
  gi_slot : Z;
  gi_address : Z;
  gi_owner_id : Z;
  gi_value_size_bytes : Z;
  gi_slot_size_bytes : Z;
  gi_scc_status : Z;
  gi_pad : Z
}.
#[export] Program Instance scc_slot_info_struct : CStruct scc_get_slot_info_access := {
  c_types := [uint32_t; uint32_t; uint64_t; uint32_t; uint32_t; cint; uint32_t];
  c_fields a := [gi_slot a; gi_address a; gi_owner_id a; gi_value_size_bytes a; gi_slot_size_bytes a;
    gi_scc_status a; gi_pad a];
  c_make vs := SccSlotInfo (vs !!! 0%nat) (vs !!! 1%nat) (vs !!! 2%nat) (vs !!! 3%nat) (vs !!! 4%nat)
    (vs !!! 5%nat) (vs !!! 6%nat)
}.
Solve All Obligations with cstruct.

(** A value of its own in the process's memory. *)
Record scc_return_word := SccReturn { scc_return : Z }.
#[export] Program Instance scc_return_struct : CStruct scc_return_word := {
  c_types := [cint];
  c_fields a := [scc_return a];
  c_make vs := SccReturn (vs !!! 0%nat)
}.
Solve All Obligations with cstruct.

(** ** The SCC driver *)

(** Its constants; the codes it returns are 0 for success. *)
Class SccApi := {
  SCC_RET_OK : Z;
  SCC_RET_INSUFFICIENT_SPACE : Z;
  SCC_ENCRYPT : Z;
  SCC_DECRYPT : Z;
  SCC_CBC_MODE : Z;
  SMN_STATUS : Z;
  SCC_BASE_ADDR : Z;
  VM_IO : Z;
  try_module_get : Z → bool;
  scc_ret_ok : SCC_RET_OK = 0;
  scc_no_space : SCC_RET_INSUFFICIENT_SPACE ≠ 0
}.

(** The controller: what a call answers and leaves behind.  Values come back
    through pointers when there are some ([Some]); bytes written to a buffer are
    the list, never more than the buffer was said to hold. *)
Class Scc (D : Type) `{SccApi} := {
  scc_get_configuration : D → list Z * D;
  scc_read_register : Z → D → (Z * option Z) * D;
  scc_write_register : Z → Z → D → Z * D;
  scc_crypt : list Z → option (Z * Z) → Z → Z → Z → Z → D → (Z * list Z * Z) * D;
  scc_zeroize_memories : D → Z * D;
  scc_alloc_slot : Z → Z → D → (Z * option Z) * D;
  scc_dealloc_slot : Z → Z → D → Z * D;
  scc_get_slot_info : Z → Z → D → (Z * option (Z * Z * Z)) * D;
  scc_load_slot : Z → Z → list Z → D → Z * D;
  scc_decrypt_slot : Z → Z → list Z → D → Z * D;
  scc_encrypt_slot : Z → Z → Z → D → (Z * list Z) * D;
  scc_set_sw_alarm : D → D;
  scc_monitor_security_failure : D → D;
  remap_pfn_range : vm_area_struct → Z → Z → Z → Z → D → Z * D;
  configuration_bytes d bs d' : scc_get_configuration d = (bs, d') → bytes bs;
  crypt_bytes inp iv dir mode check cap d r out n d' : 0 ≤ cap →
    scc_crypt inp iv dir mode check cap d = ((r, out, n), d') →
    bytes out ∧ zlen out ≤ cap ∧ 0 ≤ n < 2 ^ 32 ∧ (r = SCC_RET_OK → n = zlen out);
  encrypt_slot_bytes owner slot n d r out d' : 0 ≤ n →
    scc_encrypt_slot owner slot n d = ((r, out), d') → bytes out ∧ zlen out ≤ n
}.
#[global] Hint Mode Scc ! - : typeclass_instances.

Inductive scc_entry := scc_test_open_ref | scc_test_ioctl_ref | scc_test_release_ref | scc_test_mmap_ref.

(** The statics of the driver, what the kernel counts for it, the controller. *)
(* C: module_test/scc_test_driver.c scc_test_major_node 79-86 *)
Record scc (R D : Type) := SccState {
  scc_test_major_node : Z;
  scc_reg_handle : R;
  scc_cfg : list Z;
  module_refs : Z;
  scm : D
}.
Arguments SccState {R D}. Arguments scc_test_major_node {R D}. Arguments scc_reg_handle {R D}.
Arguments scc_cfg {R D}. Arguments module_refs {R D}. Arguments scm {R D}.

(* C: include/scc_test_driver.h SCC_TEST_MAJOR_NODE 67-70 *)
Definition SCC_TEST_MAJOR_NODE : Z := 240.
(* C: include/scc_test_driver.h SCC_TEST_DRIVER_IOCTL_IDENTIFIER 103-105 *)
Definition SCC_TEST_DRIVER_IOCTL_IDENTIFIER : Z := 115.

Section scc.
Context {U R D : Type} `{Uaccess U} `{Kmalloc} `{Ioctl} `{Errno} `{OsError} `{Pages} `{OsDriver R scc_entry} `{Scc D}.
Abbreviation KM := (M (kstate U (scc R D))).

(* C: include/scc_test_driver.h IOCTL_SCC_OK 86-86 *)
Definition IOCTL_SCC_OK : Z := 0.
(* C: include/scc_test_driver.h IOCTL_SCC_INVALID_CMD 87-87 *)
Definition IOCTL_SCC_INVALID_CMD : Z := ENOTTY.
(* C: include/scc_test_driver.h IOCTL_SCC_INVALID_MODE 88-88 *)
Definition IOCTL_SCC_INVALID_MODE : Z := EINVAL.
(* C: include/scc_test_driver.h IOCTL_SCC_SCM_BUSY 89-89 *)
Definition IOCTL_SCC_SCM_BUSY : Z := EBUSY.
(* C: include/scc_test_driver.h IOCTL_SCC_IMPROPER_STATE 90-90 *)
Definition IOCTL_SCC_IMPROPER_STATE : Z := EBADFD.
(* C: include/scc_test_driver.h IOCTL_SCC_IMPROPER_ADDR 91-91 *)
Definition IOCTL_SCC_IMPROPER_ADDR : Z := EFAULT.
(* C: include/scc_test_driver.h IOCTL_SCC_NO_MEMORY 92-92 *)
Definition IOCTL_SCC_NO_MEMORY : Z := ENOMEM.
(* C: include/scc_test_driver.h IOCTL_SCC_FAILURE 93-93 *)
Definition IOCTL_SCC_FAILURE : Z := ESPIPE.

(* C: include/scc_test_driver.h SCC_TEST_GET_CONFIGURATION 115-116 *)
Definition SCC_TEST_GET_CONFIGURATION : Z :=
  _IOW SCC_TEST_DRIVER_IOCTL_IDENTIFIER 0 (sizeof scc_configuration_access).
(* C: include/scc_test_driver.h SCC_TEST_READ_REG 118-119 *)
Definition SCC_TEST_READ_REG : Z := _IOWR SCC_TEST_DRIVER_IOCTL_IDENTIFIER 1 (sizeof scc_reg_access).
(* C: include/scc_test_driver.h SCC_TEST_WRITE_REG 121-122 *)
Definition SCC_TEST_WRITE_REG : Z := _IOWR SCC_TEST_DRIVER_IOCTL_IDENTIFIER 2 (sizeof scc_reg_access).
(* C: include/scc_test_driver.h SCC_TEST_ENCRYPT 124-125 *)
Definition SCC_TEST_ENCRYPT : Z := _IOWR SCC_TEST_DRIVER_IOCTL_IDENTIFIER 3 (sizeof scc_encrypt_decrypt).
(* C: include/scc_test_driver.h SCC_TEST_DECRYPT 127-128 *)
Definition SCC_TEST_DECRYPT : Z := _IOWR SCC_TEST_DRIVER_IOCTL_IDENTIFIER 4 (sizeof scc_encrypt_decrypt).
(* C: include/scc_test_driver.h SCC_TEST_SET_ALARM 130-130 *)
Definition SCC_TEST_SET_ALARM : Z := _IO SCC_TEST_DRIVER_IOCTL_IDENTIFIER 5.
(* C: include/scc_test_driver.h SCC_TEST_ZEROIZE 132-133 *)
Definition SCC_TEST_ZEROIZE : Z := _IOWR SCC_TEST_DRIVER_IOCTL_IDENTIFIER 6 (sizeof scc_return_word).
(* C: include/scc_test_driver.h SCC_TEST_ALLOC_SLOT 135-136 *)
Definition SCC_TEST_ALLOC_SLOT : Z := _IOWR SCC_TEST_DRIVER_IOCTL_IDENTIFIER 7 (sizeof scc_alloc_slot_access).
(* C: include/scc_test_driver.h SCC_TEST_DEALLOC_SLOT 138-139 *)
Definition SCC_TEST_DEALLOC_SLOT : Z := _IOWR SCC_TEST_DRIVER_IOCTL_IDENTIFIER 8 (sizeof scc_dealloc_slot_access).
(* C: include/scc_test_driver.h SCC_TEST_LOAD_SLOT 142-143 *)
Definition SCC_TEST_LOAD_SLOT : Z := _IOWR SCC_TEST_DRIVER_IOCTL_IDENTIFIER 9 (sizeof scc_load_slot_access).
(* C: include/scc_test_driver.h SCC_TEST_GET_SLOT_INFO 145-146 *)
Definition SCC_TEST_GET_SLOT_INFO : Z := _IOWR SCC_TEST_DRIVER_IOCTL_IDENTIFIER 10 (sizeof scc_get_slot_info_access).
(* C: include/scc_test_driver.h SCC_TEST_ENCRYPT_SLOT 148-149 *)
Definition SCC_TEST_ENCRYPT_SLOT : Z := _IOWR SCC_TEST_DRIVER_IOCTL_IDENTIFIER 11 (sizeof scc_encrypt_slot_access).

Definition set_major m (g : scc R D) : scc R D :=
  SccState m (scc_reg_handle g) (scc_cfg g) (module_refs g) (scm g).
Definition set_reg_handle r (g : scc R D) : scc R D :=
  SccState (scc_test_major_node g) r (scc_cfg g) (module_refs g) (scm g).
Definition set_cfg c (g : scc R D) : scc R D :=
  SccState (scc_test_major_node g) (scc_reg_handle g) c (module_refs g) (scm g).
Definition set_module_refs n (g : scc R D) : scc R D :=
  SccState (scc_test_major_node g) (scc_reg_handle g) (scc_cfg g) n (scm g).
Definition set_scm d (g : scc R D) : scc R D :=
  SccState (scc_test_major_node g) (scc_reg_handle g) (scc_cfg g) (module_refs g) d.

Definition statics : KM (scc R D) := λ s, Done (k_dev s, s).
Definition on_statics (f : scc R D → scc R D) : KM unit := dev (λ g, (tt, f g)).
Definition on_scm {A} (f : D → A * D) : KM A :=
  dev (λ g, let '(a, d) := f (scm g) in (a, set_scm d g)).
Definition scm_do (f : D → D) : KM unit := on_scm (λ d, (tt, f d)).
Definition on_reg_handle {A} (f : R → A * R) : KM A :=
  dev (λ g, let '(a, r) := f (scc_reg_handle g) in (a, set_reg_handle r g)).
Definition reg_handle_do (f : R → R) : KM unit := on_reg_handle (λ r, (tt, f r)).

(** ** Configuration and registers *)

(* C: module_test/scc_test_driver.c scc_test_get_configuration *)
Definition scc_test_get_configuration (scc_data : Z) : KM Z :=
  cfg ← on_scm scc_get_configuration;
  k ← to_user scc_data cfg;
  mret (if negb (k =? 0) then - IOCTL_SCC_IMPROPER_ADDR else IOCTL_SCC_OK).

(* C: module_test/scc_test_driver.c scc_test_read_register 420-451 *)
Definition scc_test_read_register (scc_data : Z) : KM Z :=
  '(reg, k) ← get_struct scc_reg_access scc_data;
  '(reg, scc_return, error_code) ←
    (if negb (k =? 0) then mret (reg, -1, - IOCTL_SCC_IMPROPER_ADDR)
     else
       '(ret, v) ← on_scm (scc_read_register (sr_offset reg));
       let reg := SccReg (sr_offset reg) (default (sr_data reg) v) (sr_function_return_code reg) in
       mret (reg, ret, if negb (ret =? SCC_RET_OK) then - IOCTL_SCC_IMPROPER_ADDR else IOCTL_SCC_OK));
  let reg := SccReg (sr_offset reg) (sr_data reg) scc_return in
  copy_code ← put_struct scc_data reg;
  mret (if negb (copy_code =? 0) then IOCTL_SCC_FAILURE else error_code).

(* C: module_test/scc_test_driver.c scc_test_write_register 465-497 *)
Definition scc_test_write_register (scc_data : Z) : KM Z :=
  '(reg, k) ← get_struct scc_reg_access scc_data;
  '(scc_return, error_code) ←
    (if negb (k =? 0) then mret (-1, - IOCTL_SCC_IMPROPER_ADDR)
     else
       ret ← on_scm (scc_write_register (sr_offset reg) (sr_data reg));
       mret (ret, if negb (ret =? SCC_RET_OK) then - IOCTL_SCC_IMPROPER_ADDR else IOCTL_SCC_OK));
  let reg := SccReg (sr_offset reg) (sr_data reg) scc_return in
  copy_code ← put_struct scc_data reg;
  mret (if negb (copy_code =? 0) then IOCTL_SCC_FAILURE else error_code).

(** ** Encryption *)

(** The two buffers, copies and the call of the SCC driver; the request with the
    length the driver gave back, its return code and the error so far.  (int)p % 8
    has the sign of p. *)
(* C: module_test/scc_test_driver.c scc_test_cipher 553-610 *)
Definition cipher_through (cmd : Z) (i o : nat) (cs : scc_encrypt_decrypt) :
    KM (scc_encrypt_decrypt * Z * Z) :=
  let input := Z.rem (s32 (data_in cs)) 8 in
  let output := Z.rem (s32 (data_out cs)) 8 in
  '(bs, copy_code) ← from_user (data_in cs) (data_in_length cs);
  _ ← store_block i input bs;
  if negb (copy_code =? 0) then mret (cs, -1, - IOCTL_SCC_NO_MEMORY)
  else
    inp ← load_block i input (data_in_length cs);
    '(return_code, out, n) ← on_scm (scc_crypt inp
      (if crypto_mode cs =? SCC_CBC_MODE then Some (init_vector0 cs, init_vector1 cs) else None)
      (if cmd =? SCC_TEST_ENCRYPT then SCC_ENCRYPT else SCC_DECRYPT)
      (crypto_mode cs) (check_mode cs) (data_out_length cs));
    _ ← store_block o output out;
    let cs := SccCipher (data_in cs) (data_in_length cs) (data_out cs) n (crypto_mode cs) (check_mode cs)
      (init_vector0 cs) (init_vector1 cs) (wait_mode cs) (sc_function_return_code cs) (verify_mode cs) in
    copy_code ←
      (if return_code =? SCC_RET_OK then
         bs ← load_block o output (data_out_length cs);
         to_user (data_out cs) bs
       else mret 0);
    mret (cs, return_code,
      if negb (copy_code =? 0) || negb (return_code =? 0) then ENOMEM else IOCTL_SCC_OK).

Definition set_return_code r (cs : scc_encrypt_decrypt) : scc_encrypt_decrypt :=
  SccCipher (data_in cs) (data_in_length cs) (data_out cs) (data_out_length cs) (crypto_mode cs)
    (check_mode cs) (init_vector0 cs) (init_vector1 cs) (wait_mode cs) r (verify_mode cs).

(** The request, its return code, the error, and the buffers to be freed. *)
(* C: module_test/scc_test_driver.c scc_test_cipher 531-614 *)
Definition cipher_work (cmd k : Z) (cs : scc_encrypt_decrypt) :
    KM (scc_encrypt_decrypt * Z * Z * option nat * option nat) :=
  if negb (k =? 0) then mret (cs, -1, - IOCTL_SCC_IMPROPER_ADDR, None, None)
  else
    area_in ← kmalloc (u32 (data_in_length cs + 16));
    area_out ← kmalloc (u32 (data_out_length cs + 16));
    match area_in, area_out with
    | Some i, Some o =>
        '(cs, return_code, error_code) ← cipher_through cmd i o cs;
        mret (cs, return_code, error_code, area_in, area_out)
    | _, _ => mret (cs, -1, - IOCTL_SCC_NO_MEMORY, area_in, area_out)
    end.

(* C: module_test/scc_test_driver.c scc_test_cipher 517-633 *)
Definition scc_test_cipher (cmd scc_data : Z) : KM Z :=
  '(cs, k) ← get_struct scc_encrypt_decrypt scc_data;
  '(cs, return_code, error_code, area_in, area_out) ← cipher_work cmd k cs;
  copy_code ← put_struct scc_data (set_return_code return_code cs);
  let error_code := if negb (copy_code =? 0) then IOCTL_SCC_FAILURE else error_code in
  _ ← kfree area_in;
  _ ← kfree area_out;
  mret error_code.

(* C: module_test/scc_test_driver.c scc_test_zeroize *)
Definition scc_test_zeroize (scc_data : Z) : KM Z :=
  return_code ← on_scm scc_zeroize_memories;
  put_struct scc_data (SccReturn return_code).

(** ** Key slots *)

(* C: module_test/scc_test_driver.c scc_test_alloc_slot 654-669 *)
Definition scc_test_alloc_slot (scc_data : Z) : KM Z :=
  '(acc, status) ← get_struct scc_alloc_slot_access scc_data;
  if status =? 0 then
    '(ret, slot) ← on_scm (scc_alloc_slot (al_value_size_bytes acc) (al_owner_id acc));
    put_struct scc_data (SccAlloc (al_value_size_bytes acc) (default (al_slot acc) slot) (al_owner_id acc) ret (al_pad acc))
  else mret status.

(* C: module_test/scc_test_driver.c scc_test_dealloc_slot 672-685 *)
Definition scc_test_dealloc_slot (scc_data : Z) : KM Z :=
  '(acc, status) ← get_struct scc_dealloc_slot_access scc_data;
  if status =? 0 then
    ret ← on_scm (scc_dealloc_slot (de_owner_id acc) (de_slot acc));
    put_struct scc_data (SccDealloc (de_slot acc) ret (de_owner_id acc))
  else mret status.

Definition set_load_status r (acc : scc_load_slot_access) : scc_load_slot_access :=
  SccLoad (lo_slot acc) (lo_key_is_red acc) (lo_owner_id acc) (lo_key_data acc) (lo_key_data_length acc)
    r (lo_pad acc).

(** The slot is asked about first; the key goes through a buffer, red as it is,
    black through the decryption.  A fault on the key leaves the status of the
    question. *)
(* C: module_test/scc_test_driver.c scc_test_load_slot 691-738 *)
Definition scc_test_load_slot (scc_data : Z) : KM Z :=
  '(acc, status) ← get_struct scc_load_slot_access scc_data;
  if status =? 0 then
    '(ret, _) ← on_scm (scc_get_slot_info (lo_owner_id acc) (lo_slot acc));
    ret ←
      (if ret =? SCC_RET_OK then
         key_data ← kmalloc (lo_key_data_length acc);
         match key_data with
         | None => mret SCC_RET_INSUFFICIENT_SPACE
         | Some b =>
             '(bs, k) ← from_user (lo_key_data acc) (lo_key_data_length acc);
             _ ← store_block b 0 bs;
             if k =? 0 then
               bs ← load_block b 0 (lo_key_data_length acc);
               if negb (lo_key_is_red acc =? 0)
               then on_scm (scc_load_slot (lo_owner_id acc) (lo_slot acc) bs)
               else on_scm (scc_decrypt_slot (lo_owner_id acc) (lo_slot acc) bs)
             else mret ret
         end
       else mret ret);
    put_struct scc_data (set_load_status ret acc)
  else mret status.

Definition set_encrypt_status r (acc : scc_encrypt_slot_access) : scc_encrypt_slot_access :=
  SccEncryptSlot (en_slot acc) (en_key_data acc) (en_owner_id acc) (en_key_data_length acc) r.

(* C: module_test/scc_test_driver.c scc_test_encrypt_slot 744-785 *)
Definition scc_test_encrypt_slot (scc_data : Z) : KM Z :=
  '(acc, status) ← get_struct scc_encrypt_slot_access scc_data;
  if status =? 0 then
    '(ret, _) ← on_scm (scc_get_slot_info (en_owner_id acc) (en_slot acc));
    '(ret, status) ←
      (if ret =? SCC_RET_OK then
         key_data ← kmalloc (en_key_data_length acc);
         match key_data with
         | None => mret (SCC_RET_INSUFFICIENT_SPACE, 0)
         | Some b =>
             '(ret, bs) ← on_scm (scc_encrypt_slot (en_owner_id acc) (en_slot acc) (en_key_data_length acc));
             _ ← store_block b 0 bs;
             if ret =? SCC_RET_OK then
               bs ← load_block b 0 (en_key_data_length acc);
               k ← to_user (en_key_data acc) bs;
               mret (ret, k)
             else mret (ret, 0)
         end
       else mret (ret, 0));
    if status =? 0 then put_struct scc_data (set_encrypt_status ret acc) else mret status
  else mret status.

(* C: module_test/scc_test_driver.c scc_test_get_slot_info 791-808 *)
Definition scc_test_get_slot_info (scc_data : Z) : KM Z :=
  '(acc, status) ← get_struct scc_get_slot_info_access scc_data;
  if status =? 0 then
    '(ret, info) ← on_scm (scc_get_slot_info (gi_owner_id acc) (gi_slot acc));
    let '(address, value_size, slot_size) :=
      default (gi_address acc, gi_value_size_bytes acc, gi_slot_size_bytes acc) info in
    put_struct scc_data (SccSlotInfo (gi_slot acc) address (gi_owner_id acc) value_size slot_size ret (gi_pad acc))
  else mret status.

(* C: module_test/scc_test_driver.c scc_test_ioctl 273-340 *)
Definition scc_test_ioctl (cmd scc_data : Z) : KM Z :=
  if cmd =? SCC_TEST_GET_CONFIGURATION then scc_test_get_configuration scc_data
  else if cmd =? SCC_TEST_READ_REG then scc_test_read_register scc_data
  else if cmd =? SCC_TEST_WRITE_REG then scc_test_write_register scc_data
  else if (cmd =? SCC_TEST_ENCRYPT) || (cmd =? SCC_TEST_DECRYPT) then scc_test_cipher cmd scc_data
  else if cmd =? SCC_TEST_ALLOC_SLOT then scc_test_alloc_slot scc_data
  else if cmd =? SCC_TEST_DEALLOC_SLOT then scc_test_dealloc_slot scc_data
  else if cmd =? SCC_TEST_LOAD_SLOT then scc_test_load_slot scc_data
  else if cmd =? SCC_TEST_ENCRYPT_SLOT then scc_test_encrypt_slot scc_data
  else if cmd =? SCC_TEST_GET_SLOT_INFO then scc_test_get_slot_info scc_data
  else if cmd =? SCC_TEST_SET_ALARM then _ ← scm_do scc_set_sw_alarm; mret OS_ERROR_OK_S
  else if cmd =? SCC_TEST_ZEROIZE then scc_test_zeroize scc_data
  else mret (- IOCTL_SCC_INVALID_CMD).

(** ** Opening, mapping, loading *)

(* C: module_test/scc_test_driver.c scc_test_open 164-176 *)
Definition scc_test_open : KM Z :=
  g ← statics;
  _ ← (if try_module_get (module_refs g) then on_statics (set_module_refs (module_refs g + 1)) else mret tt);
  mret 0.

(* C: module_test/scc_test_driver.c scc_test_release 193-205 *)
Definition scc_test_release : KM Z :=
  g ← statics; _ ← on_statics (set_module_refs (module_refs g - 1)); mret 0.

(* C: module_test/scc_test_driver.c scc_test_mmap 354-367 *)
Definition scc_test_mmap (vma : vm_area_struct) : KM (Z * vm_area_struct) :=
  let pfn := Z.shiftr SCC_BASE_ADDR PAGE_SHIFT in
  let vma := Vma (vm_start vma) (vm_end vma) pfn (Z.lor (vm_flags vma) VM_IO) (vm_page_prot vma) in
  r ← on_scm (remap_pfn_range vma (vm_start vma) pfn 8192 (vm_page_prot vma));
  mret (r, vma).

(* C: module_test/scc_test_driver.c scc_test_cleanup 224-238 *)
Definition scc_test_cleanup : KM unit :=
  g ← statics;
  if negb (scc_test_major_node g =? 0) then
    _ ← reg_handle_do (os_unregister_chrdev (scc_test_major_node g));
    on_statics (set_major 0)
  else mret tt.

(* C: module_test/scc_test_driver.c setup_user_driver_interaction 825-862 *)
Definition setup_user_driver_interaction : KM Z :=
  g ← statics;
  _ ← reg_handle_do os_driver_init_registration;
  _ ← reg_handle_do (λ r, os_driver_add_registration r OS_FN_OPEN scc_test_open_ref);
  _ ← reg_handle_do (λ r, os_driver_add_registration r OS_FN_IOCTL scc_test_ioctl_ref);
  _ ← reg_handle_do (λ r, os_driver_add_registration r OS_FN_CLOSE scc_test_release_ref);
  _ ← reg_handle_do (λ r, os_driver_add_registration r OS_FN_MMAP scc_test_release_ref);
  code ← on_reg_handle (λ r, os_driver_complete_registration r (scc_test_major_node g));
  if negb (code =? OS_ERROR_OK_S) then mret code
  else
    _ ← (if scc_test_major_node g =? 0 then on_statics (set_major code) else mret tt);
    mret code.

(** What smn_status holds is only printed. *)
(* C: module_test/scc_test_driver.c scc_test_init 105-145 *)
Definition scc_test_init : KM Z :=
  cfg ← on_scm scc_get_configuration;
  _ ← on_statics (set_cfg cfg);
  '(error_code, _) ← on_scm (scc_read_register SMN_STATUS);
  error_code ← (if error_code =? 0 then setup_user_driver_interaction else mret error_code);
  _ ← scm_do scc_monitor_security_failure;
  _ ← (if negb (error_code =? 0) then scc_test_cleanup else mret tt);
  mret error_code.
End scc.

(** ** The cipher *)

Section scc_proofs.
Context {U R D : Type} `{Uaccess U} `{Kmalloc} `{Ioctl} `{Errno} `{OsError} `{Pages} `{OsDriver R scc_entry} `{Scc D}.
Abbreviation KS := (kstate U (scc R D)).
Implicit Type s : KS.

Lemma on_scm_ok {A} (f : D → A * D) s a d :
  f (scm (k_dev s)) = (a, d) → on_scm f s = Done (a, set_dev (set_scm d (k_dev s)) s).
Proof. unfold on_scm, dev. by intros ->. Qed.

(** Places below 2^31, and lengths that leave room for the alignment bytes. *)
Definition safe_request (cs : scc_encrypt_decrypt) : Prop :=
  data_in cs < 2 ^ 31 ∧ data_out cs < 2 ^ 31 ∧
  data_in_length cs + 16 < 2 ^ 32 ∧ data_out_length cs + 16 < 2 ^ 32.

Lemma request_fields (cs : scc_encrypt_decrypt) : in_range cs →
  0 ≤ data_in cs ∧ 0 ≤ data_in_length cs ∧ 0 ≤ data_out cs ∧ 0 ≤ data_out_length cs.
Proof.
  intros Hr. apply Forall2_cons in Hr as [[? _] Hr]. apply Forall2_cons in Hr as [[? _] Hr].
  apply Forall2_cons in Hr as [[? _] Hr]. by apply Forall2_cons in Hr as [[? _] _].
Qed.

Lemma alignment x : 0 ≤ x < 2 ^ 31 → 0 ≤ Z.rem (s32 x) 8 < 8.
Proof. intros Hx. rewrite s32_small by lia. apply Z.rem_bound_pos; lia. Qed.

(** Two buffers with room for the request's data are on the heap. *)
Record buffers_for (cs : scc_encrypt_decrypt) (i o : nat) (h : gmap nat (list Z)) : Prop := BuffersFor {
  bf_ne : i ≠ o;
  bf_in : ∃ l, h !! i = Some l ∧ zlen l = data_in_length cs + 16;
  bf_out : ∃ l, h !! o = Some l ∧ zlen l = data_out_length cs + 16
}.

(** The heap is [h] but for what is in the two buffers. *)
Definition only_buffers (i o : nat) (h h' : gmap nat (list Z)) : Prop :=
  ∃ li lo, h' = <[o := lo]> (<[i := li]> h).

Lemma only_buffers_in i o h l : is_Some (h !! o) → i ≠ o → only_buffers i o h (<[i := l]> h).
Proof. intros [lo Ho] Hne. exists l, lo. symmetry. apply insert_id. by rewrite lookup_insert_ne. Qed.

(** Everything up to the call of the driver. *)
Lemma copied_in (i : nat) cs s l :
  in_range cs → safe_request cs → k_heap s !! i = Some l → zlen l = data_in_length cs + 16 →
  ∃ bs k l', from_user (data_in cs) (data_in_length cs) s = Done ((bs, k), s) ∧
    zlen bs = data_in_length cs ∧
    (∀ p, user_at (k_user s) (data_in cs) p → zlen p = data_in_length cs → bs = p ∧ k = 0) ∧
    store_block i (Z.rem (s32 (data_in cs)) 8) bs s = Done (tt, set_heap (<[i := l']> (k_heap s)) s) ∧
    load_block i (Z.rem (s32 (data_in cs)) 8) (data_in_length cs) (set_heap (<[i := l']> (k_heap s)) s) =
      Done (bs, set_heap (<[i := l']> (k_heap s)) s).
Proof.
  intros Hr (Hin & _ & Hn & _) Hl Hlen. destruct (request_fields cs Hr) as (Hi0 & Hl0 & _).
  unfold from_user. destruct (copy_from_user (k_user s) (data_in cs) (data_in_length cs)) as [bs k] eqn:E.
  pose proof (copy_from_user_len _ _ _ _ _ Hl0 E) as Hbs.
  destruct (alignment (data_in cs) ltac:(lia)) as [Ho1 Ho2].
  destruct (store_block_ok i (Z.rem (s32 (data_in cs)) 8) bs s l Hl) as (l' & ES & Hl' & Hsl); [lia..|].
  exists bs, k, l'. split; [done|]. split; [done|]. split.
  { intros p Hp Hpl. rewrite <- Hpl, copy_from_user_all in E by done. by injection E. }
  split; [done|]. destruct (load_block_ok i (Z.rem (s32 (data_in cs)) 8) (data_in_length cs)
    (set_heap (<[i := l']> (k_heap s)) s) l') as (bs' & EL & Hsl' & _); [apply lookup_insert_eq|lia..|].
  rewrite EL. rewrite Hbs, Hsl' in Hsl. by injection Hsl as ->.
Qed.

Lemma cipher_through_safe cmd i o cs s :
  in_range cs → safe_request cs → buffers_for cs i o (k_heap s) →
  ∃ cs' rc err s', cipher_through cmd i o cs s = Done ((cs', rc, err), s') ∧
    only_buffers i o (k_heap s) (k_heap s') ∧ err ∈ [IOCTL_SCC_OK; ENOMEM; - IOCTL_SCC_NO_MEMORY].
Proof.
  intros Hr Hs [Hne (li & Hi & Hli) (lo & Ho & Hlo)]. destruct (request_fields cs Hr) as (_ & _ & Ho0 & Hol0).
  destruct (copied_in i cs s li Hr Hs Hi Hli) as (bs & k & li' & EF & Hbs & _ & ES & EL).
  destruct Hs as (_ & Hout & _ & Hno). destruct (alignment (data_out cs) ltac:(lia)) as [Ho1 Ho2].
  unfold cipher_through. mstep EF. cbv beta iota. mstep ES.
  destruct (negb (k =? 0)).
  { eexists _, _, _, _. split; [done|]. split; [by apply only_buffers_in|]. set_solver. }
  mstep EL. set (s1 := set_heap (<[i := li']> (k_heap s)) s).
  match goal with |- context [on_scm ?f] => destruct (f (scm (k_dev s1))) as [[[r out] n] d] eqn:EC end.
  erewrite M_bind_done; [|apply on_scm_ok; exact EC]. cbv beta iota.
  destruct (crypt_bytes _ _ _ _ _ _ _ _ _ _ _ Hol0 EC) as (Hb & Hcap & Hn & Hok).
  destruct (store_block_ok o (Z.rem (s32 (data_out cs)) 8) out (set_dev (set_scm d (k_dev s1)) s1) lo)
    as (lo' & ES2 & Hlo' & _); [cbn; by rewrite lookup_insert_ne|lia..|].
  mstep ES2. cbv zeta. cbn [data_out_length data_out].
  set (s2 := set_heap _ _).
  assert (Hheap : only_buffers i o (k_heap s) (k_heap s2)) by (by exists li', lo').
  destruct (Z.eqb_spec r SCC_RET_OK) as [Er|Er].
  - specialize (Hok Er). destruct (load_block_ok o (Z.rem (s32 (data_out cs)) 8) n s2 lo') as (bs' & EL2 & _ & Hbl);
      [by apply lookup_insert_eq|lia..|].
    rewrite M_bind_eq, M_bind_eq, EL2. cbn [obind]. unfold to_user.
    destruct (copy_to_user _ _ _) as [u k2]. eexists _, _, _, _. split; [done|]. split; [done|].
    destruct (_ || _); set_solver.
  - eexists _, _, _, _. split; [done|]. split; [done|]. destruct (_ || _); set_solver.
Qed.

(** The heap [h'] is [h] and the buffers [pi] and [po]. *)
Inductive owns (h : gmap nat (list Z)) : option nat → option nat → gmap nat (list Z) → Prop :=
  | owns_none : owns h None None h
  | owns_in i l : h !! i = None → owns h (Some i) None (<[i := l]> h)
  | owns_out o l : h !! o = None → owns h None (Some o) (<[o := l]> h)
  | owns_both i o li lo : i ≠ o → h !! i = None → h !! o = None →
      owns h (Some i) (Some o) (<[o := lo]> (<[i := li]> h)).

Lemma owns_buffers h i o lo li h' :
  i ≠ o → h !! i = None → h !! o = None → only_buffers i o (<[o := lo]> (<[i := li]> h)) h' →
  owns h (Some i) (Some o) h'.
Proof.
  intros Hne Hi Ho (li' & lo' & ->). rewrite (insert_insert_ne _ i o) by done.
  rewrite insert_insert_eq, insert_insert_eq. by apply owns_both.
Qed.

Lemma owns_free h pi po s (r : Z) :
  owns h pi po (k_heap s) →
  (_ ← kfree pi; _ ← kfree po; mret r) s = Done (r, set_heap h s).
Proof.
  intros Ho. destruct s as [u h' c g]. cbn in Ho.
  destruct Ho as [|i l Hi|o l Ho|i o li lo Hne Hi Ho].
  - done.
  - mstep (kfree_ok i (KState u (<[i := l]> h) c g) l); [|apply lookup_insert_eq].
    unfold set_heap. cbn. by rewrite delete_insert_id.
  - erewrite M_bind_done; [|reflexivity].
    mstep (kfree_ok o (KState u (<[o := l]> h) c g) l); [|apply lookup_insert_eq].
    unfold set_heap. cbn. by rewrite delete_insert_id.
  - mstep (kfree_ok i (KState u (<[o := lo]> (<[i := li]> h)) c g) li);
      [|cbn; by rewrite lookup_insert_ne, lookup_insert_eq].
    cbn [k_heap]. rewrite delete_insert_ne, delete_insert_id by done.
    mstep (kfree_ok o (set_heap (<[o := lo]> h) (KState u (<[o := lo]> (<[i := li]> h)) c g)) lo);
      [|apply lookup_insert_eq].
    unfold set_heap. cbn. by rewrite delete_insert_id.
Qed.

(** The heap with the two buffers on it. *)
Definition with_buffers s (bi bo : list Z) : KS :=
  KState (k_user s) (<[S (k_count s) := bo]> (<[k_count s := bi]> (k_heap s))) (S (S (k_count s))) (k_dev s).

Lemma with_buffers_for cs s bi bo :
  zlen bi = data_in_length cs + 16 → zlen bo = data_out_length cs + 16 →
  buffers_for cs (k_count s) (S (k_count s)) (k_heap (with_buffers s bi bo)).
Proof.
  intros Hi Ho. split; [lia| |]; cbn.
  - exists bi. split; [|done]. by rewrite lookup_insert_ne, lookup_insert_eq by lia.
  - exists bo. split; [|done]. apply lookup_insert_eq.
Qed.

Definition cipher_codes : list Z :=
  [IOCTL_SCC_OK; ENOMEM; - IOCTL_SCC_NO_MEMORY; - IOCTL_SCC_IMPROPER_ADDR; IOCTL_SCC_FAILURE].

Lemma cipher_work_safe cmd k cs s :
  heap_ok s → in_range cs → (k = 0 → safe_request cs) →
  ∃ cs' rc err pi po s', cipher_work cmd k cs s = Done ((cs', rc, err, pi, po), s') ∧
    owns (k_heap s) pi po (k_heap s') ∧ err ∈ cipher_codes.
Proof.
  intros Hh Hr Hsafe. destruct (heap_ok_fresh_next s Hh) as [Hf1 Hf2]. unfold cipher_work, cipher_codes.
  destruct (Z.eqb_spec k 0) as [->|Hk]; cbn [negb].
  2: { eexists _, _, _, _, _, _. split; [done|]. split; [apply owns_none|set_solver]. }
  specialize (Hsafe eq_refl). pose proof Hsafe as (_ & _ & Hn1 & Hn2).
  destruct (request_fields cs Hr) as (_ & Hl1 & _ & Hl2). rewrite !u32_small by lia.
  destruct (kmalloc_answer (k_count s) (data_in_length cs + 16)) as [bi|] eqn:A1;
    (erewrite M_bind_done; [|first [by apply kmalloc_some | by apply kmalloc_none]]);
    destruct (kmalloc_answer (S (k_count s)) (data_out_length cs + 16)) as [bo|] eqn:A2;
    (erewrite M_bind_done; [|first [by apply kmalloc_some | by apply kmalloc_none]]);
    cbn [k_user k_heap k_count k_dev].
  - apply kmalloc_size in A1 as [Hbi _]; [|lia]. apply kmalloc_size in A2 as [Hbo _]; [|lia].
    destruct (cipher_through_safe cmd (k_count s) (S (k_count s)) cs (with_buffers s bi bo) Hr Hsafe)
      as (cs' & rc & err & s1 & EC & Hb & Herr); [by apply with_buffers_for|].
    unfold with_buffers in EC. mstep EC. eexists _, _, _, _, _, _. split; [done|].
    split; [eapply owns_buffers; [lia|done|done|exact Hb]|clear -Herr; set_solver].
  - eexists _, _, _, _, _, _. split; [done|]. split; [by apply owns_in|set_solver].
  - eexists _, _, _, _, _, _. split; [done|]. split; [by apply owns_out|set_solver].
  - eexists _, _, _, _, _, _. split; [done|]. split; [apply owns_none|set_solver].
Qed.

(** C6: the cipher ioctl stays within its buffers and leaves none behind: for a
    request whose places are below 2^31 and whose lengths leave room for the
    alignment bytes, whatever the allocator, the copies and the SCC driver
    answer, the ioctl returns one of its codes and the heap is as before. *)
Theorem scc_cipher_contained cmd scc_data s :
  heap_ok s →
  (∀ cs, in_range cs → user_at (k_user s) scc_data (encode cs) → safe_request cs) →
  ∃ r s', scc_test_cipher cmd scc_data s = Done (r, s') ∧ k_heap s' = k_heap s ∧ r ∈ cipher_codes.
Proof.
  intros Hh Hsafe. unfold scc_test_cipher.
  destruct (get_struct_any scc_encrypt_decrypt scc_data s) as (cs & k & EG & Hr & Hat & _). mstep EG. cbv beta iota.
  destruct (cipher_work_safe cmd k cs s Hh Hr) as (cs' & rc & err & pi & po & s1 & EW & Ho & Herr); [by auto|].
  mstep EW. cbv beta iota.
  destruct (put_struct_any scc_data (set_return_code rc cs') s1) as (u & k2 & EP & _). mstep EP. cbv zeta.
  rewrite (owns_free (k_heap s)) by done. eexists _, _. split; [done|]. split; [done|].
  destruct (negb _); [|done]. unfold cipher_codes. set_solver.
Qed.

Definition iv_of (cs : scc_encrypt_decrypt) : option (Z * Z) :=
  if crypto_mode cs =? SCC_CBC_MODE then Some (init_vector0 cs, init_vector1 cs) else None.
Definition direction (cmd : Z) : Z := if cmd =? SCC_TEST_ENCRYPT then SCC_ENCRYPT else SCC_DECRYPT.

(** The request as it comes back. *)
Definition answered_request (n : Z) (cs : scc_encrypt_decrypt) : scc_encrypt_decrypt :=
  SccCipher (data_in cs) (data_in_length cs) (data_out cs) n (crypto_mode cs) (check_mode cs)
    (init_vector0 cs) (init_vector1 cs) (wait_mode cs) 0 (verify_mode cs).

Lemma cipher_through_ok cmd i o cs s p out n d :
  in_range cs → safe_request cs → buffers_for cs i o (k_heap s) →
  user_at (k_user s) (data_in cs) p → zlen p = data_in_length cs →
  scc_crypt p (iv_of cs) (direction cmd) (crypto_mode cs) (check_mode cs) (data_out_length cs) (scm (k_dev s)) =
    ((SCC_RET_OK, out, n), d) →
  writable_at (k_user s) (data_out cs) n →
  ∃ s', cipher_through cmd i o cs s =
      Done ((SccCipher (data_in cs) (data_in_length cs) (data_out cs) n (crypto_mode cs) (check_mode cs)
        (init_vector0 cs) (init_vector1 cs) (wait_mode cs) (sc_function_return_code cs) (verify_mode cs),
        SCC_RET_OK, IOCTL_SCC_OK), s') ∧
    only_buffers i o (k_heap s) (k_heap s') ∧ k_dev s' = set_scm d (k_dev s) ∧ k_count s' = k_count s ∧
    user_at (k_user s') (data_out cs) out ∧ user_frame (k_user s) (k_user s') (data_out cs) n.
Proof.
  intros Hr Hs [Hne (li & Hi & Hli) (lo & Ho & Hlo)] Hp Hpl EC Hw.
  destruct (request_fields cs Hr) as (_ & _ & Ho0 & Hol0).
  destruct (copied_in i cs s li Hr Hs Hi Hli) as (bs & k & li' & EF & Hbs & Hsame & ES & EL).
  destruct (Hsame p Hp Hpl) as [-> ->]. clear Hsame.
  destruct Hs as (_ & Hout & _ & Hno). destruct (alignment (data_out cs) ltac:(lia)) as [Ho1 Ho2].
  destruct (crypt_bytes _ _ _ _ _ _ _ _ _ _ _ Hol0 EC) as (Hb & Hcap & Hn & Hok). specialize (Hok eq_refl).
  unfold cipher_through. mstep EF. cbv beta iota. mstep ES. cbn [negb Z.eqb].
  mstep EL. set (s1 := set_heap (<[i := li']> (k_heap s)) s).
  fold (iv_of cs) (direction cmd). erewrite M_bind_done; [|apply on_scm_ok; exact EC]. cbv beta iota.
  destruct (store_block_ok o (Z.rem (s32 (data_out cs)) 8) out (set_dev (set_scm d (k_dev s1)) s1) lo)
    as (lo' & ES2 & Hlo' & Hsl); [cbn; by rewrite lookup_insert_ne|lia..|].
  mstep ES2. cbv zeta. cbn [data_out_length data_out]. set (s2 := set_heap _ _).
  rewrite Z.eqb_refl. rewrite <- Hok in Hsl.
  destruct (load_block_ok o (Z.rem (s32 (data_out cs)) 8) n s2 lo') as (bs' & EL2 & Hsl' & _);
    [by apply lookup_insert_eq|lia..|]. rewrite Hsl in Hsl'. injection Hsl' as <-.
  rewrite M_bind_eq, M_bind_eq, EL2. cbn [obind]. rewrite Hok in Hw.
  destruct (to_user_all (data_out cs) out s2 Hb Hw) as (u & EU & Hu & Hf). rewrite EU.
  rewrite scc_ret_ok. cbn [obind negb Z.eqb orb]. rewrite Hok. eexists. split; [done|].
  split; [by exists li', lo'|]. split_and!; auto; by destruct Hf.
Qed.

Lemma cipher_ok cmd a cs s p bi bo out n d :
  heap_ok s → in_range cs → safe_request cs →
  user_at (k_user s) a (encode cs) → writable_at (k_user s) a (sizeof scc_encrypt_decrypt) →
  user_at (k_user s) (data_in cs) p → zlen p = data_in_length cs →
  kmalloc_answer (k_count s) (data_in_length cs + 16) = Some bi →
  kmalloc_answer (S (k_count s)) (data_out_length cs + 16) = Some bo →
  scc_crypt p (iv_of cs) (direction cmd) (crypto_mode cs) (check_mode cs) (data_out_length cs) (scm (k_dev s)) =
    ((SCC_RET_OK, out, n), d) →
  writable_at (k_user s) (data_out cs) n →
  data_out cs + n ≤ a ∨ a + sizeof scc_encrypt_decrypt ≤ data_out cs →
  ∃ u, scc_test_cipher cmd a s =
      Done (IOCTL_SCC_OK, KState u (k_heap s) (S (S (k_count s))) (set_scm d (k_dev s))) ∧
    user_at u (data_out cs) out ∧ user_at u a (encode (answered_request n cs)) ∧
    ∃ u1, user_frame (k_user s) u1 (data_out cs) n ∧ user_frame u1 u a (sizeof scc_encrypt_decrypt).
Proof.
  intros Hh Hr Hs Hat Hw Hp Hpl A1 A2 EC Hwo Hap.
  destruct (heap_ok_fresh_next s Hh) as [Hf1 Hf2]. destruct (request_fields cs Hr) as (_ & Hl1 & _ & Hl2).
  destruct (crypt_bytes _ _ _ _ _ _ _ _ _ _ _ Hl2 EC) as (_ & _ & _ & Hok). specialize (Hok eq_refl).
  pose proof Hs as (_ & _ & Hn1 & Hn2). pose proof A1 as A1'. pose proof A2 as A2'.
  apply kmalloc_size in A1' as [Hbi _]; [|lia]. apply kmalloc_size in A2' as [Hbo _]; [|lia].
  destruct (cipher_through_ok cmd (k_count s) (S (k_count s)) cs (with_buffers s bi bo) p out n d Hr Hs)
    as (s1 & E1 & Hb & Hd & Hc & Hu & Hf); [by apply with_buffers_for|done..|].
  assert (EW : cipher_work cmd 0 cs s = Done (SccCipher (data_in cs) (data_in_length cs) (data_out cs) n
    (crypto_mode cs) (check_mode cs) (init_vector0 cs) (init_vector1 cs) (wait_mode cs)
    (sc_function_return_code cs) (verify_mode cs), SCC_RET_OK, IOCTL_SCC_OK, Some (k_count s),
    Some (S (k_count s)), s1)).
  { unfold cipher_work. cbn [negb Z.eqb]. rewrite !u32_small by lia.
    erewrite M_bind_done; [|by apply kmalloc_some]. erewrite M_bind_done; [|by apply kmalloc_some].
    cbn [k_user k_heap k_count k_dev]. unfold with_buffers in E1. by mstep E1. }
  unfold scc_test_cipher. mstep (get_struct_all a cs s Hr Hat). cbv beta iota. mstep EW. cbv beta iota.
  match goal with |- context [put_struct a ?x] => set (cs' := x) end.
  destruct (put_struct_all a cs' s1) as (u & EP & Hu2 & Hfa).
  { eapply writable_frame; [exact Hf|exact Hw]. }
  mstep EP. cbv zeta. rewrite (owns_free (k_heap s)).
  2: { cbn. eapply owns_buffers; [|exact Hf1|exact Hf2|exact Hb]. lia. }
  exists u. unfold set_heap. cbn [k_user k_count k_dev set_user negb Z.eqb]. rewrite Hd, Hc.
  split; [done|]. split; [|split].
  - refine (user_at_frame _ _ _ _ _ _ Hfa _ Hu). lia.
  - unfold cs' in Hu2. rewrite scc_ret_ok in Hu2. exact Hu2.
  - by exists (k_user s1).
Qed.

(** ** The commands *)

Lemma scc_nrs :
  _IOC_NR SCC_TEST_GET_CONFIGURATION = 0 ∧ _IOC_NR SCC_TEST_READ_REG = 1 ∧ _IOC_NR SCC_TEST_WRITE_REG = 2 ∧
  _IOC_NR SCC_TEST_ENCRYPT = 3 ∧ _IOC_NR SCC_TEST_DECRYPT = 4 ∧ _IOC_NR SCC_TEST_SET_ALARM = 5 ∧
  _IOC_NR SCC_TEST_ZEROIZE = 6 ∧ _IOC_NR SCC_TEST_ALLOC_SLOT = 7 ∧ _IOC_NR SCC_TEST_DEALLOC_SLOT = 8 ∧
  _IOC_NR SCC_TEST_LOAD_SLOT = 9 ∧ _IOC_NR SCC_TEST_GET_SLOT_INFO = 10 ∧ _IOC_NR SCC_TEST_ENCRYPT_SLOT = 11.
Proof.
  split_and!; first [apply IOWR_nr | apply IOW_nr | apply IO_nr];
    unfold SCC_TEST_DRIVER_IOCTL_IDENTIFIER; try lia; split; by vm_compute.
Qed.

(** The handler each command goes to. *)
Lemma scc_ioctl_eq a s :
  scc_test_ioctl SCC_TEST_GET_CONFIGURATION a s = scc_test_get_configuration a s ∧
  scc_test_ioctl SCC_TEST_READ_REG a s = scc_test_read_register a s ∧
  scc_test_ioctl SCC_TEST_WRITE_REG a s = scc_test_write_register a s ∧
  scc_test_ioctl SCC_TEST_ENCRYPT a s = scc_test_cipher SCC_TEST_ENCRYPT a s ∧
  scc_test_ioctl SCC_TEST_DECRYPT a s = scc_test_cipher SCC_TEST_DECRYPT a s ∧
  scc_test_ioctl SCC_TEST_ALLOC_SLOT a s = scc_test_alloc_slot a s ∧
  scc_test_ioctl SCC_TEST_DEALLOC_SLOT a s = scc_test_dealloc_slot a s ∧
  scc_test_ioctl SCC_TEST_LOAD_SLOT a s = scc_test_load_slot a s ∧
  scc_test_ioctl SCC_TEST_ENCRYPT_SLOT a s = scc_test_encrypt_slot a s ∧
  scc_test_ioctl SCC_TEST_GET_SLOT_INFO a s = scc_test_get_slot_info a s ∧
  scc_test_ioctl SCC_TEST_ZEROIZE a s = scc_test_zeroize a s ∧
  SCC_TEST_DECRYPT ≠ SCC_TEST_ENCRYPT.
Proof.
  pose proof scc_nrs as (N0 & N1 & N2 & N3 & N4 & N5 & N6 & N7 & N8 & N9 & N10 & N11). unfold scc_test_ioctl.
  split_and!; [..|congruence];
    repeat (first [rewrite Z.eqb_refl | rewrite (proj2 (Z.eqb_neq _ _)) by congruence]); done.
Qed.

(** Decryption undoes encryption, in the state the encryption left. *)
Definition crypt_inverse : Prop := ∀ p iv mode check cap (d : D) out n d' cap',
  bytes p → scc_crypt p iv SCC_ENCRYPT mode check cap d = ((SCC_RET_OK, out, n), d') → zlen p ≤ cap' →
  ∃ d'', scc_crypt out iv SCC_DECRYPT mode check cap' d' = ((SCC_RET_OK, p, zlen p), d'').

(** C2: what the ENCRYPT ioctl writes the DECRYPT ioctl turns back: for two
    requests with the same mode and vector, the second reading where the first
    wrote, the plaintext arrives at the second's output, both return 0, and the
    heap is as before. *)
Theorem scc_cipher_roundtrip a1 a2 e f s p out n d :
  crypt_inverse → (∀ i size, 0 ≤ size → is_Some (kmalloc_answer i size)) → heap_ok s →
  in_range e → in_range f → safe_request e → safe_request f →
  user_at (k_user s) a1 (encode e) → user_at (k_user s) a2 (encode f) →
  user_at (k_user s) (data_in e) p → zlen p = data_in_length e →
  crypto_mode f = crypto_mode e → check_mode f = check_mode e →
  init_vector0 f = init_vector0 e → init_vector1 f = init_vector1 e →
  data_in f = data_out e → data_in_length f = n → zlen p ≤ data_out_length f →
  scc_crypt p (iv_of e) SCC_ENCRYPT (crypto_mode e) (check_mode e) (data_out_length e) (scm (k_dev s)) =
    ((SCC_RET_OK, out, n), d) →
  let size := sizeof scc_encrypt_decrypt in
  writable_at (k_user s) a1 size → writable_at (k_user s) a2 size →
  writable_at (k_user s) (data_out e) n → writable_at (k_user s) (data_out f) (zlen p) →
  apart (data_out e) n a1 size → apart (data_out e) n a2 size → apart a1 size a2 size →
  apart (data_out f) (zlen p) a2 size →
  ∃ s1 s2, scc_test_ioctl SCC_TEST_ENCRYPT a1 s = Done (IOCTL_SCC_OK, s1) ∧
    user_at (k_user s1) (data_out e) out ∧
    scc_test_ioctl SCC_TEST_DECRYPT a2 s1 = Done (IOCTL_SCC_OK, s2) ∧
    user_at (k_user s2) (data_out f) p ∧ k_heap s2 = k_heap s.
Proof.
  intros Hinv Hall Hh Hre Hrf Hse Hsf Hae Haf Hp Hpl Em Ec Ei0 Ei1 Edi En Hcap EC size Hw1 Hw2 Hwo Hwp
    Ap1 Ap2 Ap3 Ap4.
  destruct (scc_ioctl_eq a1 s) as (_ & _ & _ & -> & _ & _ & _ & _ & _ & _ & _ & Hne).
  pose proof (request_fields e Hre) as (_ & Hle & _ & Hoe). pose proof (request_fields f Hrf) as (_ & Hlf & _ & Hof).
  destruct (crypt_bytes _ _ _ _ _ _ _ _ _ _ _ Hoe EC) as (_ & _ & _ & Hon). specialize (Hon eq_refl).
  destruct (Hall (k_count s) (data_in_length e + 16)) as [b1 A1]; [lia|].
  destruct (Hall (S (k_count s)) (data_out_length e + 16)) as [b2 A2]; [lia|].
  destruct (cipher_ok SCC_TEST_ENCRYPT a1 e s p b1 b2 out n d) as (u1 & E1 & Hu1 & _ & v1 & Hf1 & Hg1);
    try done. { unfold direction. by rewrite Z.eqb_refl. }
  set (s1 := KState u1 (k_heap s) (S (S (k_count s))) (set_scm d (k_dev s))) in *.
  assert (Hfr : ∀ b bs, apart (data_out e) n b (zlen bs) → apart a1 size b (zlen bs) →
    user_at (k_user s) b bs → user_at u1 b bs).
  { intros b bs P1 P2 Hb. refine (user_at_frame _ _ _ _ _ _ Hg1 _ _); [unfold apart in P2; tauto|].
    refine (user_at_frame _ _ _ _ _ _ Hf1 _ Hb). unfold apart in P1. tauto. }
  assert (Hwf : ∀ b m, writable_at (k_user s) b m → writable_at u1 b m)
    by (intros b m Hb; eapply writable_frame; [exact Hg1|]; by eapply writable_frame).
  destruct (Hinv _ _ _ _ _ _ _ _ _ (data_out_length f) (user_at_bytes _ _ _ Hp) EC Hcap) as [d2 EC2].
  destruct (Hall (S (S (k_count s))) (data_in_length f + 16)) as [b3 A3]; [lia|].
  destruct (Hall (S (S (S (k_count s)))) (data_out_length f + 16)) as [b4 A4]; [lia|].
  destruct (cipher_ok SCC_TEST_DECRYPT a2 f s1 out b3 b4 p (zlen p) d2) as (u2 & E2 & Hu2 & _);
    try done; [..|].
  - intros b l Hb. apply Hh in Hb. cbn. lia.
  - apply Hfr; rewrite ?zlen_encode; done.
  - by apply Hwf.
  - by rewrite Edi.
  - by rewrite En.
  - unfold direction, iv_of. rewrite (proj2 (Z.eqb_neq SCC_TEST_DECRYPT _) Hne). by rewrite Em, Ec, Ei0, Ei1.
  - by apply Hwf.
  - exists s1. eexists. split; [exact E1|]. split; [exact Hu1|].
    destruct (scc_ioctl_eq a2 s1) as (_ & _ & _ & _ & -> & _). split; [exact E2|]. by split.
Qed.

(** ** Requests that are one call of the SCC driver *)

(** C11: the slot ioctls are the SCC driver's slot calls: allocation, release and
    the question about a slot are made once, with the owner, the slot and the
    size of the process's structure, and the structure then holds the driver's
    status and what it gave back; nothing else changes, and the ioctl returns 0
    also when the driver refused. *)
Theorem scc_slot_ioctls a s :
  (∀ acc ret slot d, request_at s a acc →
     scc_alloc_slot (al_value_size_bytes acc) (al_owner_id acc) (scm (k_dev s)) = ((ret, slot), d) →
     answers s a (SccAlloc (al_value_size_bytes acc) (default (al_slot acc) slot) (al_owner_id acc) ret (al_pad acc)) (set_scm d (k_dev s))
       (scc_test_ioctl SCC_TEST_ALLOC_SLOT a s)) ∧
  (∀ acc ret d, request_at s a acc →
     scc_dealloc_slot (de_owner_id acc) (de_slot acc) (scm (k_dev s)) = (ret, d) →
     answers s a (SccDealloc (de_slot acc) ret (de_owner_id acc)) (set_scm d (k_dev s))
       (scc_test_ioctl SCC_TEST_DEALLOC_SLOT a s)) ∧
  (∀ acc ret address value_size slot_size d, request_at s a acc →
     scc_get_slot_info (gi_owner_id acc) (gi_slot acc) (scm (k_dev s)) =
       ((ret, Some (address, value_size, slot_size)), d) →
     answers s a (SccSlotInfo (gi_slot acc) address (gi_owner_id acc) value_size slot_size ret (gi_pad acc))
       (set_scm d (k_dev s))
       (scc_test_ioctl SCC_TEST_GET_SLOT_INFO a s)) ∧
  (∀ acc ret d, request_at s a acc →
     scc_get_slot_info (gi_owner_id acc) (gi_slot acc) (scm (k_dev s)) = ((ret, None), d) →
     answers s a (SccSlotInfo (gi_slot acc) (gi_address acc) (gi_owner_id acc) (gi_value_size_bytes acc)
         (gi_slot_size_bytes acc) ret (gi_pad acc)) (set_scm d (k_dev s))
       (scc_test_ioctl SCC_TEST_GET_SLOT_INFO a s)).
Proof.
  destruct (scc_ioctl_eq a s) as (_ & _ & _ & _ & _ & -> & -> & _ & _ & -> & _ & _).
  split_and!.
  - intros acc ret slot d Hq E. by eapply (transact_ok a (λ x, on_scm (scc_alloc_slot (al_value_size_bytes x) (al_owner_id x)))
      _ acc _ s _ _ Hq (on_scm_ok _ _ _ _ E)).
  - intros acc ret d Hq E. by eapply (transact_ok a (λ x, on_scm (scc_dealloc_slot (de_owner_id x) (de_slot x)))
      _ acc _ s _ _ Hq (on_scm_ok _ _ _ _ E)).
  - intros acc ret x y z d Hq E. by eapply (transact_ok a (λ x, on_scm (scc_get_slot_info (gi_owner_id x) (gi_slot x)))
      _ acc _ s _ _ Hq (on_scm_ok _ _ _ _ E)).
  - intros acc ret d Hq E. by eapply (transact_ok a (λ x, on_scm (scc_get_slot_info (gi_owner_id x) (gi_slot x)))
      _ acc _ s _ _ Hq (on_scm_ok _ _ _ _ E)).
Qed.

(** A slot request that cannot be read: the number of bytes not copied is what
    the ioctl returns, which is no negative error. *)
Lemma scc_slot_fault a s :
  (unreadable (k_user s) a (sizeof scc_alloc_slot_access) →
     ∃ k, scc_test_ioctl SCC_TEST_ALLOC_SLOT a s = Done (k, s) ∧ 0 < k) ∧
  (unreadable (k_user s) a (sizeof scc_dealloc_slot_access) →
     ∃ k, scc_test_ioctl SCC_TEST_DEALLOC_SLOT a s = Done (k, s) ∧ 0 < k) ∧
  (unreadable (k_user s) a (sizeof scc_get_slot_info_access) →
     ∃ k, scc_test_ioctl SCC_TEST_GET_SLOT_INFO a s = Done (k, s) ∧ 0 < k).
Proof.
  destruct (scc_ioctl_eq a s) as (_ & _ & _ & _ & _ & -> & -> & _ & _ & -> & _ & _).
  split_and!; intros Hu; by apply transact_fault.
Qed.

(** The register ioctls read and write the SCC's registers: the offset and
    the value are the process's, the structure comes back with the driver's code
    and the value, and the ioctl says -EFAULT when the driver refused. *)
Theorem scc_register_ioctls a reg s :
  request_at s a reg →
  (∀ ret v d, scc_read_register (sr_offset reg) (scm (k_dev s)) = ((ret, v), d) →
     ∃ u, scc_test_ioctl SCC_TEST_READ_REG a s =
         Done (if ret =? SCC_RET_OK then IOCTL_SCC_OK else - IOCTL_SCC_IMPROPER_ADDR,
           set_user u (set_dev (set_scm d (k_dev s)) s)) ∧
       user_at u a (encode (SccReg (sr_offset reg) (default (sr_data reg) v) ret)) ∧
       user_frame (k_user s) u a (sizeof scc_reg_access)) ∧
  (∀ ret d, scc_write_register (sr_offset reg) (sr_data reg) (scm (k_dev s)) = (ret, d) →
     ∃ u, scc_test_ioctl SCC_TEST_WRITE_REG a s =
         Done (if ret =? SCC_RET_OK then IOCTL_SCC_OK else - IOCTL_SCC_IMPROPER_ADDR,
           set_user u (set_dev (set_scm d (k_dev s)) s)) ∧
       user_at u a (encode (SccReg (sr_offset reg) (sr_data reg) ret)) ∧
       user_frame (k_user s) u a (sizeof scc_reg_access)).
Proof.
  intros (Hr & Hu & Hw). destruct (scc_ioctl_eq a s) as (_ & -> & -> & _).
  unfold scc_test_read_register, scc_test_write_register.
  split; [intros ret v d E|intros ret d E]; mstep (get_struct_all a reg s Hr Hu); cbv beta iota; cbn [negb Z.eqb];
    rewrite (M_bind_eq (_ ≫= _)); (erewrite M_bind_done; [|apply on_scm_ok; exact E]);
    cbn [obind mret M_ret sr_offset sr_data].
  - destruct (put_answers a (SccReg (sr_offset reg) (default (sr_data reg) v) ret) s (set_scm d (k_dev s)) Hw) as (u & EP & Hup & Hf).
    mstep EP. cbn [negb Z.eqb]. exists u. split; [|done]. by destruct (ret =? SCC_RET_OK).
  - destruct (put_answers a (SccReg (sr_offset reg) (sr_data reg) ret) s (set_scm d (k_dev s)) Hw) as (u & EP & Hup & Hf).
    mstep EP. cbn [negb Z.eqb]. exists u. split; [|done]. by destruct (ret =? SCC_RET_OK).
Qed.

(** C25: LOAD_SLOT hands the key over: for a slot the SCC driver knows, the bytes
    of the process, all of them and unchanged, reach scc_load_slot when they are
    red and scc_decrypt_slot when they are black, and the driver's status comes
    back; the buffer with the key stays on the heap.  For a slot the driver does
    not know the status is its answer and nothing is allocated. *)
Theorem scc_load_slot_delivers a acc s :
  request_at s a acc →
  (∀ key buf info d1 ret d2,
     user_at (k_user s) (lo_key_data acc) key → zlen key = lo_key_data_length acc →
     scc_get_slot_info (lo_owner_id acc) (lo_slot acc) (scm (k_dev s)) = ((SCC_RET_OK, info), d1) →
     kmalloc_answer (k_count s) (lo_key_data_length acc) = Some buf →
     (if lo_key_is_red acc =? 0 then scc_decrypt_slot (lo_owner_id acc) (lo_slot acc) key d1
      else scc_load_slot (lo_owner_id acc) (lo_slot acc) key d1) = (ret, d2) →
     ∃ u, scc_test_ioctl SCC_TEST_LOAD_SLOT a s =
         Done (0, KState u (<[k_count s := key]> (k_heap s)) (S (k_count s)) (set_scm d2 (k_dev s))) ∧
       user_at u a (encode (set_load_status ret acc)) ∧
       user_frame (k_user s) u a (sizeof scc_load_slot_access)) ∧
  (∀ ret info d1, ret ≠ SCC_RET_OK →
     scc_get_slot_info (lo_owner_id acc) (lo_slot acc) (scm (k_dev s)) = ((ret, info), d1) →
     answers s a (set_load_status ret acc) (set_scm d1 (k_dev s)) (scc_test_ioctl SCC_TEST_LOAD_SLOT a s)).
Proof.
  intros (Hr & Hu & Hw). destruct (scc_ioctl_eq a s) as (_ & _ & _ & _ & _ & _ & _ & -> & _).
  unfold scc_test_load_slot. rewrite M_bind_eq, (get_struct_all a acc s Hr Hu). cbn [obind Z.eqb].
  split.
  - intros key buf info d1 ret d2 Hkey Hlen E1 A1 E2.
    assert (Hn : 0 ≤ lo_key_data_length acc) by (rewrite <- Hlen; apply zlen_nonneg).
    pose proof (kmalloc_size _ _ _ Hn A1) as [Hbuf _].
    erewrite M_bind_done; [|apply on_scm_ok; exact E1]. cbv beta iota. rewrite Z.eqb_refl.
    set (s1 := set_dev (set_scm d1 (k_dev s)) s).
    set (s2 := KState (k_user s) (<[k_count s := buf]> (k_heap s)) (S (k_count s)) (k_dev s1)).
    set (s3 := KState (k_user s) (<[k_count s := key]> (k_heap s)) (S (k_count s)) (k_dev s1)).
    assert (EK : kmalloc (lo_key_data_length acc) s1 = Done (Some (k_count s), s2))
      by (unfold kmalloc; cbn; by rewrite A1).
    assert (EF : from_user (lo_key_data acc) (lo_key_data_length acc) s2 = Done ((key, 0), s2))
      by (unfold from_user; cbn; by rewrite <- Hlen, copy_from_user_all).
    assert (ES : store_block (k_count s) 0 key s2 = Done (tt, s3)).
    { unfold store_block. cbn. rewrite lookup_insert_eq. cbn. rewrite splice_all by lia.
      unfold set_heap. cbn. by rewrite insert_insert_eq. }
    assert (EL : load_block (k_count s) 0 (lo_key_data_length acc) s3 = Done (key, s3)).
    { unfold load_block. cbn. rewrite lookup_insert_eq. cbn. by rewrite <- Hlen, slice_all. }
    assert (EW : on_scm (if negb (lo_key_is_red acc =? 0) then scc_load_slot (lo_owner_id acc) (lo_slot acc) key
      else scc_decrypt_slot (lo_owner_id acc) (lo_slot acc) key) s3 =
      Done (ret, set_dev (set_scm d2 (k_dev s3)) s3)) by (apply on_scm_ok; by destruct (lo_key_is_red acc =? 0)).
    rewrite M_bind_eq. mstep EK. cbv beta iota. mstep EF. cbv beta iota. mstep ES. cbn [Z.eqb]. mstep EL.
    assert (EW' : (if negb (lo_key_is_red acc =? 0) then on_scm (scc_load_slot (lo_owner_id acc) (lo_slot acc) key)
      else on_scm (scc_decrypt_slot (lo_owner_id acc) (lo_slot acc) key)) s3 =
      Done (ret, set_dev (set_scm d2 (k_dev s3)) s3)) by (rewrite <- EW; by destruct (lo_key_is_red acc =? 0)).
    rewrite EW'. cbn [obind].
    destruct (put_struct_all a (set_load_status ret acc) (set_dev (set_scm d2 (k_dev s3)) s3) Hw) as (u & EP & Hup & Hf).
    rewrite EP. by exists u.
  - intros ret info d1 Hne E1. erewrite M_bind_done; [|apply on_scm_ok; exact E1]. cbv beta iota.
    rewrite (proj2 (Z.eqb_neq _ _)) by done. by apply put_answers.
Qed.

(** The state with a buffer of a slot request, and the driver's [d]. *)
Definition with_key (u : U) (key : list Z) (d : D) s : KS :=
  KState u (<[k_count s := key]> (k_heap s)) (S (k_count s)) (set_scm d (k_dev s)).

(** The buffer is filled from its beginning. *)
Lemma key_stored u s buf bs d :
  zlen bs ≤ zlen buf →
  store_block (k_count s) 0 bs (with_key u buf d s) = Done (tt, with_key u (bs ++ drop (length bs) buf) d s) ∧
  load_block (k_count s) 0 (zlen buf) (with_key u (bs ++ drop (length bs) buf) d s) =
    Done (bs ++ drop (length bs) buf, with_key u (bs ++ drop (length bs) buf) d s).
Proof.
  intros Hl. split.
  - unfold store_block. cbn. rewrite lookup_insert_eq. cbn. unfold splice.
    rewrite Z.add_0_l, (proj2 (Z.leb_le (zlen bs) (zlen buf)) Hl). cbn. unfold set_heap, with_key. cbn. by rewrite insert_insert_eq.
  - unfold load_block. cbn. rewrite lookup_insert_eq. cbn.
    assert (zlen (bs ++ drop (length bs) buf) = zlen buf) as <-; [|by rewrite slice_all].
    unfold zlen in *. rewrite length_app, length_drop. lia.
Qed.

(** ENCRYPT_SLOT up to the key in its buffer. *)
Lemma encrypt_slot_run a acc s info d1 buf ret out d2 :
  request_at s a acc →
  scc_get_slot_info (en_owner_id acc) (en_slot acc) (scm (k_dev s)) = ((SCC_RET_OK, info), d1) →
  kmalloc_answer (k_count s) (en_key_data_length acc) = Some buf →
  scc_encrypt_slot (en_owner_id acc) (en_slot acc) (en_key_data_length acc) d1 = ((ret, out), d2) →
  let key := out ++ drop (length out) buf in
  bytes key ∧ zlen key = en_key_data_length acc ∧
  scc_test_encrypt_slot a s =
    (k ← (if ret =? SCC_RET_OK then to_user (en_key_data acc) key else mret 0);
     if k =? 0 then put_struct a (set_encrypt_status ret acc) else mret k) (with_key (k_user s) key d2 s).
Proof.
  intros (Hr & Hu & Hw) E1 A1 E2 key.
  assert (Hn : 0 ≤ en_key_data_length acc).
  { clear -Hr. do 3 apply Forall2_cons in Hr as [_ Hr]. by apply Forall2_cons in Hr as [[? _] _]. }
  destruct (kmalloc_size _ _ _ Hn A1) as [Hbuf Hbb]. destruct (encrypt_slot_bytes _ _ _ _ _ _ _ Hn E2) as [Hob Hol].
  split; [apply Forall_app; split; [done|by apply bytes_drop]|].
  split; [unfold key, zlen in *; rewrite length_app, length_drop; lia|].
  destruct (key_stored (k_user s) s buf out d2 ltac:(lia)) as [ES EL]. rewrite Hbuf in EL.
  fold key in ES, EL. unfold scc_test_encrypt_slot. mstep (get_struct_all a acc s Hr Hu). cbv beta iota. cbn [Z.eqb].
  erewrite M_bind_done; [|apply on_scm_ok; exact E1]. cbv beta iota. rewrite Z.eqb_refl. rewrite M_bind_eq.
  set (s1 := set_dev (set_scm d1 (k_dev s)) s).
  erewrite M_bind_done; [|apply (kmalloc_some _ s1); exact A1]. cbv beta iota.
  erewrite M_bind_done; [|apply on_scm_ok; exact E2]. cbv beta iota.
  match goal with |- context [(store_block _ _ _ ≫= _) ?s2] => change s2 with (with_key (k_user s) buf d2 s) end.
  mstep ES. destruct (ret =? SCC_RET_OK); [|done]. mstep EL. rewrite !M_bind_eq.
  destruct (to_user (en_key_data acc) key _) as [[k s']| | |]; cbn; try done.
Qed.

(** ENCRYPT_SLOT brings the black key to the process: for a slot the SCC
    driver knows, what scc_encrypt_slot wrote arrives at [key_data], followed by
    what the buffer held if the process asked for more, and the status comes
    back; when the driver refuses, only the status does.  If the key cannot be
    written, the number of bytes left out is returned and the structure is not
    touched.  The buffer stays on the heap on every one of these paths. *)
Theorem scc_encrypt_slot_delivers a acc s info d1 buf ret out d2 :
  request_at s a acc →
  scc_get_slot_info (en_owner_id acc) (en_slot acc) (scm (k_dev s)) = ((SCC_RET_OK, info), d1) →
  kmalloc_answer (k_count s) (en_key_data_length acc) = Some buf →
  scc_encrypt_slot (en_owner_id acc) (en_slot acc) (en_key_data_length acc) d1 = ((ret, out), d2) →
  let key := out ++ drop (length out) buf in
  let n := en_key_data_length acc in
  let size := sizeof scc_encrypt_slot_access in
  ∃ r u, scc_test_ioctl SCC_TEST_ENCRYPT_SLOT a s = Done (r, with_key u key d2 s) ∧
    (ret = SCC_RET_OK → writable_at (k_user s) (en_key_data acc) n → apart (en_key_data acc) n a size →
       r = 0 ∧ user_at u (en_key_data acc) key ∧ user_at u a (encode (set_encrypt_status ret acc))) ∧
    (ret = SCC_RET_OK → ¬ writable_at (k_user s) (en_key_data acc) n →
       0 < r ∧ user_frame (k_user s) u (en_key_data acc) n) ∧
    (ret ≠ SCC_RET_OK →
       r = 0 ∧ user_at u a (encode (set_encrypt_status ret acc)) ∧ user_frame (k_user s) u a size).
Proof.
  intros Hq E1 A1 E2 key n size. destruct (scc_ioctl_eq a s) as (_ & _ & _ & _ & _ & _ & _ & _ & -> & _).
  destruct (encrypt_slot_run a acc s info d1 buf ret out d2 Hq E1 A1 E2) as (Hb & Hl & ->). destruct Hq as (_ & _ & Hw).
  fold key in Hb, Hl |- *. change (en_key_data_length acc) with n in Hl. clearbody key n. set (s1 := with_key (k_user s) key d2 s).
  destruct (Z.eqb_spec ret SCC_RET_OK) as [Er|Er].
  - destruct (to_user_any (en_key_data acc) key s1 Hb) as (u & k & EU & Hf & Hk & Hk0). rewrite Hl in Hf, Hk.
    mstep EU. destruct (Z.eqb_spec k 0) as [->|Hne].
    + assert (Hwk : writable_at (k_user s) (en_key_data acc) n) by by apply Hk.
      destruct (to_user_all (en_key_data acc) key s1 Hb) as (u0 & EU' & Hu & _); [by rewrite Hl|].
      rewrite EU in EU'. injection EU' as Eu. subst u0.
      destruct (put_struct_all a (set_encrypt_status ret acc) (set_user u s1)) as (u2 & EP & Hu2 & Hf2).
      { eapply writable_frame; [exact Hf|exact Hw]. }
      exists 0, u2. split; [exact EP|]. split; [|by split].
      intros _ _ Hap. split; [done|]. split; [|done].
      refine (user_at_frame _ _ _ _ _ _ Hf2 _ Hu). unfold apart, size in Hap. rewrite Hl. tauto.
    + exists k, u. split; [done|]. split; [intros _ Hwk; by apply Hk in Hwk|]. split; [|done].
      intros _ _. split; [lia|done].
  - erewrite M_bind_done; [|reflexivity]. cbn [Z.eqb].
    destruct (put_struct_all a (set_encrypt_status ret acc) s1 Hw) as (u & EP & Hu & Hf).
    exists 0, u. split; [exact EP|]. by split_and!.
Qed.

(** ** Loading and unloading *)

Definition majors s : gset Z := os_majors (scc_reg_handle (k_dev s)).
Definition entry s : os_fn → option scc_entry := os_entry (scc_reg_handle (k_dev s)).

Lemma on_reg_handle_ok {A} (f : R → A * R) s a r :
  f (scc_reg_handle (k_dev s)) = (a, r) → on_reg_handle f s = Done (a, set_dev (set_reg_handle r (k_dev s)) s).
Proof. unfold on_reg_handle, dev. by intros ->. Qed.
Lemma reg_handle_do_ok (f : R → R) s :
  reg_handle_do f s = Done (tt, set_dev (set_reg_handle (f (scc_reg_handle (k_dev s))) (k_dev s)) s).
Proof. done. Qed.

(** What the registration does. *)
Lemma setup_ok s :
  ∃ r s', setup_user_driver_interaction s = Done (r, s') ∧
    scc_test_major_node (k_dev s') = scc_test_major_node (k_dev s) ∧ scm (k_dev s') = scm (k_dev s) ∧
    (r ≠ 0 → majors s' = majors s) ∧
    (r = 0 → entry s' OS_FN_OPEN = Some scc_test_open_ref ∧ entry s' OS_FN_IOCTL = Some scc_test_ioctl_ref ∧
       entry s' OS_FN_CLOSE = Some scc_test_release_ref ∧ entry s' OS_FN_MMAP = Some scc_test_release_ref ∧
       ∃ m, 0 < m ∧ m ∉ majors s ∧ majors s' = {[m]} ∪ majors s ∧
         (scc_test_major_node (k_dev s) ≠ 0 → m = scc_test_major_node (k_dev s))).
Proof.
  unfold setup_user_driver_interaction. erewrite M_bind_done; [|reflexivity]. do 5 mstep reg_handle_do_ok.
  match goal with |- context [(on_reg_handle _ ≫= _) ?s0] => set (s1 := s0) end.
  destruct (os_driver_complete_registration (scc_reg_handle (k_dev s1)) (scc_test_major_node (k_dev s))) as [c r] eqn:E.
  destruct (complete_spec _ _ _ _ E) as (He & Hbad & Hok).
  assert (Hm : os_majors (scc_reg_handle (k_dev s1)) = majors s)
    by (unfold s1, majors; cbn; by rewrite !add_majors, init_majors).
  rewrite Hm in *. erewrite M_bind_done; [|apply on_reg_handle_ok; exact E]. rewrite os_ok.
  destruct (Z.eqb_spec c 0) as [->|Hc]; cbn [negb].
  - destruct (Hok eq_refl) as (Hmaj & Hnew & Hpos & Hsame).
    assert (EM : ∀ x : KS, scc_test_major_node (k_dev x) = scc_test_major_node (k_dev s) →
      (_ ← (if scc_test_major_node (k_dev s) =? 0 then on_statics (set_major 0) else mret tt); mret 0) x = Done (0, x)).
    { intros x Hx. destruct (Z.eqb_spec (scc_test_major_node (k_dev s)) 0) as [E0|]; [|done].
      rewrite M_bind_eq. cbn. unfold set_major, set_dev. rewrite <- E0, <- Hx. destruct x as [? ? ? []]. done. }
    rewrite EM by done. eexists 0, _. split; [done|]. split; [done|]. split; [done|]. split; [done|]. intros _.
    unfold entry, majors at 2. cbn. rewrite !He. unfold s1. cbn. rewrite !add_entry, !init_entry.
    split_and!; [by vm_compute..|]. by eexists.
  - eexists c, _. split; [done|]. split; [done|]. split; [done|]. split; [|done]. intros _. by apply Hbad.
Qed.

(** With a major of its own, loading the SCC test driver registers open,
    ioctl and close on it, and unloading gives it back and clears the static;
    when the SCC's status cannot be read or the registration fails, nothing
    stays registered. *)
Theorem scc_init_cleanup s :
  scc_test_major_node (k_dev s) ≠ 0 → scc_test_major_node (k_dev s) ∉ majors s →
  ∃ r s', scc_test_init s = Done (r, s') ∧
    (r ≠ 0 → majors s' = majors s ∧ scc_test_major_node (k_dev s') = 0) ∧
    (r = 0 → majors s' = {[scc_test_major_node (k_dev s)]} ∪ majors s ∧
       entry s' OS_FN_OPEN = Some scc_test_open_ref ∧ entry s' OS_FN_IOCTL = Some scc_test_ioctl_ref ∧
       entry s' OS_FN_CLOSE = Some scc_test_release_ref ∧
       ∃ s'', scc_test_cleanup s' = Done (tt, s'') ∧ majors s'' = majors s ∧
         scc_test_major_node (k_dev s'') = 0 ∧ scc_test_cleanup s'' = Done (tt, s'')).
Proof.
  intros Hne Hfree. unfold scc_test_init.
  destruct (scc_get_configuration (scm (k_dev s))) as [cfg d1] eqn:E1.
  erewrite M_bind_done; [|apply on_scm_ok; exact E1]. erewrite M_bind_done; [|reflexivity].
  match goal with |- context [(on_scm _ ≫= _) ?s0] => set (s1 := s0) end.
  destruct (scc_read_register SMN_STATUS (scm (k_dev s1))) as [[ret v] d2] eqn:E2.
  erewrite M_bind_done; [|apply on_scm_ok; exact E2]. cbv beta iota.
  set (s2 := set_dev (set_scm d2 (k_dev s1)) s1).
  assert (Hclean : ∀ x : KS, scc_test_major_node (k_dev x) = scc_test_major_node (k_dev s) →
    ∃ x', scc_test_cleanup x = Done (tt, x') ∧ majors x' = majors x ∖ {[scc_test_major_node (k_dev s)]} ∧
      scc_test_major_node (k_dev x') = 0 ∧ scc_test_cleanup x' = Done (tt, x')).
  { intros x Hx. unfold scc_test_cleanup at 1. erewrite M_bind_done; [|reflexivity].
    rewrite Hx, (proj2 (Z.eqb_neq _ _)) by done. cbn [negb]. mstep reg_handle_do_ok.
    eexists. split; [reflexivity|]. unfold majors. cbn. by rewrite unregister_spec. }
  assert (Hd : majors s ∖ {[scc_test_major_node (k_dev s)]} = majors s) by set_solver.
  destruct (Z.eqb_spec ret 0) as [->|Hret].
  - destruct (setup_ok s2) as (r & s3 & E3 & Hm3 & _ & Hbad & Hok). mstep E3.
    erewrite M_bind_done; [|reflexivity].
    match goal with |- context [(_ ≫= _) ?s0] => set (s4 := s0) end.
    destruct (Z.eqb_spec r 0) as [->|Hr]; cbn [negb].
    + destruct (Hok eq_refl) as (He1 & He2 & He3 & _ & m & Hpos & Hnew & Hmaj & Hsame). specialize (Hsame Hne).
      subst m. exists 0, s4. split; [done|]. split; [done|]. intros _. split; [exact Hmaj|]. split_and!; try done.
      destruct (Hclean s4 Hm3) as (x & Ex & Hx & H0' & Hx2). exists x. split; [done|].
      split; [|by split]. rewrite Hx. change (majors s4) with (majors s3). rewrite Hmaj.
      change (scc_test_major_node (k_dev s2)) with (scc_test_major_node (k_dev s)).
      change (majors s2) with (majors s). set_solver.
    + destruct (Hclean s4 Hm3) as (x & Ex & Hx & H0' & Hx2). mstep Ex. exists r, x. split; [done|].
      split; [|done]. intros _. split; [|done]. rewrite Hx. change (majors s4) with (majors s3).
      by rewrite (Hbad Hr).
  - erewrite M_bind_done; [|reflexivity]. erewrite M_bind_done; [|reflexivity].
    match goal with |- context [(_ ≫= _) ?s0] => set (s4 := s0) end. rewrite (proj2 (Z.eqb_neq _ _)) by done.
    destruct (Hclean s4 eq_refl) as (x & Ex & Hx & H0' & Hx2). cbn [negb]. mstep Ex. exists ret, x. split; [done|].
    split; [|done]. intros _. split; [|done]. rewrite Hx. exact Hd.
Qed.

(** ** Where the code does not do what it means to *)

(** The call that serves mmap is the one meant for close: scc_test_mmap is not
    registered for anything. *)
Lemma scc_mmap_is_release s s' f :
  setup_user_driver_interaction s = Done (0, s') →
  entry s' OS_FN_MMAP = Some scc_test_release_ref ∧ entry s' f ≠ Some scc_test_mmap_ref.
Proof.
  intros E. destruct (setup_ok s) as (r & s1 & E1 & _ & _ & _ & Hok). rewrite E in E1. injection E1 as <- <-.
  destruct (Hok eq_refl) as (Eo & Ei & Ec & Em & _). split; [done|]. destruct f; congruence.
Qed.

(** A major chosen by the kernel is not given back: what is kept of it is the
    return code, which is 0. *)
Lemma scc_dynamic_major_stays s s' :
  scc_test_major_node (k_dev s) = 0 → setup_user_driver_interaction s = Done (0, s') →
  scc_test_cleanup s' = Done (tt, s') ∧ majors s' ≠ majors s.
Proof.
  intros Hz E. destruct (setup_ok s) as (r & s1 & E1 & Hm & _ & _ & Hok). rewrite E in E1. injection E1 as <- <-.
  destruct (Hok eq_refl) as (_ & _ & _ & _ & m & _ & Hnew & Hmaj & _). split.
  - unfold scc_test_cleanup. erewrite M_bind_done; [|reflexivity]. by rewrite Hm, Hz.
  - intros Heq. apply Hnew. rewrite <- Heq, Hmaj. set_solver.
Qed.

(** For an input above 2^31 that is not on a word of eight bytes the offset is
    negative, and the copy starts before the buffer. *)
Lemma cipher_high_address cmd i o cs s :
  2 ^ 31 ≤ data_in cs < 2 ^ 32 → data_in cs mod 8 ≠ 0 → cipher_through cmd i o cs s = UB.
Proof.
  intros Hd Hm. unfold cipher_through, from_user. rewrite M_bind_eq. cbn [obind].
  destruct (copy_from_user _ _ _) as [bs k]. rewrite M_bind_eq.
  assert (Hneg : Z.rem (s32 (data_in cs)) 8 < 0).
  { assert (Hs : s32 (data_in cs) = data_in cs - 2 ^ 32).
    { unfold s32. replace (data_in cs + 2 ^ 31) with (data_in cs - 2 ^ 31 + 1 * 2 ^ 32) by lia.
      rewrite Z_mod_plus_full, Z.mod_small by lia. lia. }
    rewrite Hs. replace (data_in cs - 2 ^ 32) with (- (2 ^ 32 - data_in cs)) by lia.
    rewrite Z.rem_opp_l, Z.rem_mod_nonneg by lia. change (2 ^ 32) with 4294967296 in *.
    change (2 ^ 31) with 2147483648 in *. dlia. }
  unfold store_block, splice. rewrite (proj2 (Z.leb_gt 0 (Z.rem (s32 (data_in cs)) 8)) Hneg). cbn.
  by destruct (k_heap s !! i).
Qed.
End scc_proofs.

(** ** An example: an SCC that encrypts with an exclusive or *)

Record scm_hw := ScmHw {
  scm_regs : gmap Z Z;
  scm_slots : gmap Z (Z * list Z);
  scm_monitored : bool
}.

#[export] Program Instance scc_api_example : SccApi := {
  SCC_RET_OK := 0; SCC_RET_INSUFFICIENT_SPACE := 5; SCC_ENCRYPT := 0; SCC_DECRYPT := 1; SCC_CBC_MODE := 2;
  SMN_STATUS := 4096; SCC_BASE_ADDR := 1392508928; VM_IO := 16384; try_module_get _ := true
}.
Next Obligation. done. Qed.
Next Obligation. lia. Qed.

Definition slot_of (d : scm_hw) (slot : Z) : option (Z * list Z) := scm_slots d !! slot.
Definition reg_of (d : scm_hw) (o : Z) : option Z := scm_regs d !! o.

#[export] Program Instance scc_example : Scc scm_hw := {
  scc_get_configuration (d : scm_hw) := (replicate 28 0, d);
  scc_read_register o (d : scm_hw) := (match reg_of d o with Some v => (0, Some v) | None => (1, None) end, d);
  scc_write_register o v (d : scm_hw) :=
    match reg_of d o with
    | Some _ => (0, ScmHw (<[o := v]> (scm_regs d)) (scm_slots d) (scm_monitored d))
    | None => (1, d)
    end;
  scc_crypt inp _ _ _ _ cap (d : scm_hw) :=
    if (zlen inp <=? cap) && (zlen inp <? 2 ^ 32) then ((0, xor_bytes inp, zlen inp), d) else ((5, [], 0), d);
  scc_zeroize_memories (d : scm_hw) := (0, ScmHw (scm_regs d) ∅ (scm_monitored d));
  scc_alloc_slot size owner (d : scm_hw) :=
    match slot_of d 7 with
    | None => ((0, Some 7), ScmHw (scm_regs d) (<[7 := (owner, [])]> (scm_slots d)) (scm_monitored d))
    | Some _ => ((5, None), d)
    end;
  scc_dealloc_slot owner slot (d : scm_hw) := (0, ScmHw (scm_regs d) (delete slot (scm_slots d)) (scm_monitored d));
  scc_get_slot_info owner slot (d : scm_hw) :=
    (match slot_of d slot with Some (_, key) => (0, Some (4096, zlen key, 32)) | None => (1, None) end, d);
  scc_load_slot owner slot key (d : scm_hw) := (0, ScmHw (scm_regs d) (<[slot := (owner, key)]> (scm_slots d)) (scm_monitored d));
  scc_decrypt_slot owner slot key (d : scm_hw) :=
    (0, ScmHw (scm_regs d) (<[slot := (owner, xor_bytes key)]> (scm_slots d)) (scm_monitored d));
  scc_encrypt_slot owner slot n (d : scm_hw) :=
    match slot_of d slot with
    | Some (_, key) => if zlen key <=? n then ((0, xor_bytes key), d) else ((5, []), d)
    | None => ((1, []), d)
    end;
  scc_set_sw_alarm (d : scm_hw) := d;
  scc_monitor_security_failure (d : scm_hw) := ScmHw (scm_regs d) (scm_slots d) true;
  remap_pfn_range _ _ _ _ _ d := (0, d)
}.
Next Obligation. intros d bs d' [= <- <-]. by repeat constructor. Qed.
Next Obligation.
  intros inp iv dir mode check cap d r out n d' Hcap. cbn. destruct (_ && _) eqn:E; intros [= <- <- <- <-].
  - zbool. rewrite zlen_xor. pose proof (zlen_nonneg inp). split_and!; [apply bytes_xor|lia..|done].
  - change (zlen []) with 0. split_and!; [constructor|lia..|discriminate].
Qed.
Next Obligation.
  intros owner slot n d r out d' Hn. cbn. destruct (slot_of d slot) as [[o key]|].
  - destruct (Z.leb_spec (zlen key) n); intros [= <- <- <-]; [rewrite zlen_xor; by split; [apply bytes_xor|]|change (zlen []) with 0; by split; [constructor|]].
  - intros [= <- <- <-]. change (zlen []) with 0. by split; [constructor|].
Qed.

Lemma xor_inverse : crypt_inverse (D := scm_hw).
Proof.
  intros p iv mode check cap d out n d' cap' Hp. cbn. destruct (_ && _) eqn:E; [|discriminate].
  intros [= <- <- <-] Hle. zbool. exists d. rewrite zlen_xor.
  rewrite (proj2 (Z.leb_le _ _) Hle), (proj2 (Z.ltb_lt (zlen p) _)) by done. cbn.
  by rewrite xor_bytes_twice.
Qed.

Definition scc_state : Type := kstate (gmap Z Z) (scc (os_handle scc_entry) scm_hw).

Definition scc_machine (u : gmap Z Z) : scc_state :=
  KState u ∅ 0 (SccState 240 (OsHandle (λ _, None) 0 ∅) [] 0 (ScmHw {[4096 := 3]} {[7 := (9, [])]} false)).

Lemma scc_machine_heap u : heap_ok (scc_machine u).
Proof. intros b l Hb. cbn in Hb. by rewrite lookup_empty in Hb. Qed.

(** Four bytes at 16, their encryption to 32, the decryption of that to 48. *)
Definition plaintext : list Z := [104; 111; 109; 101].
Definition to_encrypt : scc_encrypt_decrypt := SccCipher 16 4 32 8 2 0 1 2 0 (-1) 0.
Definition to_decrypt : scc_encrypt_decrypt := SccCipher 32 4 48 8 2 0 1 2 0 (-1) 0.
Definition cipher_memory : gmap Z Z :=
  flat_write (flat_write (flat_write (flat_write (flat_write ∅ 48 (replicate 4 0)) 32 (replicate 4 0)) 16 plaintext)
    1000 (encode to_encrypt)) 2000 (encode to_decrypt).

Lemma cipher_memory_holds :
  user_at cipher_memory 16 plaintext ∧ user_at cipher_memory 1000 (encode to_encrypt) ∧
  user_at cipher_memory 2000 (encode to_decrypt).
Proof.
  split_and!; unfold cipher_memory.
  - do 2 (apply flat_user_other; [rewrite zlen_encode; vm_compute; intuition discriminate|]).
    apply flat_user_at. by repeat constructor.
  - apply flat_user_other; [rewrite !zlen_encode; vm_compute; intuition discriminate|].
    apply flat_user_at, bytes_encode.
  - apply flat_user_at, bytes_encode.
Qed.

Lemma cipher_memory_writable :
  writable_at cipher_memory 1000 (sizeof scc_encrypt_decrypt) ∧ writable_at cipher_memory 2000 (sizeof scc_encrypt_decrypt) ∧
  writable_at cipher_memory 32 4 ∧ writable_at cipher_memory 48 4.
Proof.
  split_and!; unfold cipher_memory.
  - apply flat_writable_other. rewrite <- (zlen_encode to_encrypt). apply flat_writable_at.
  - rewrite <- (zlen_encode to_decrypt). apply flat_writable_at.
  - do 3 apply flat_writable_other. apply (flat_writable_at _ 32 (replicate 4 0)).
  - do 4 apply flat_writable_other. apply (flat_writable_at _ 48 (replicate 4 0)).
Qed.

Lemma scc_cipher_contained_witness :
  heap_ok (scc_machine cipher_memory) ∧ user_at (k_user (scc_machine cipher_memory)) 1000 (encode to_encrypt) ∧
  ∃ r s', scc_test_cipher SCC_TEST_ENCRYPT 1000 (scc_machine cipher_memory) = Done (r, s') ∧ k_heap s' = ∅.
Proof.
  destruct cipher_memory_holds as (_ & He & _).
  split; [apply scc_machine_heap|]. split; [exact He|].
  assert (Hsafe : ∀ cs, in_range cs → user_at (k_user (scc_machine cipher_memory)) 1000 (encode cs) → safe_request cs).
  { intros cs Hr Hu. assert (cs = to_encrypt) as ->; [|by vm_compute].
    rewrite <- (decode_encode cs), <- (decode_encode to_encrypt) by (done || by repeat constructor).
    f_equal. apply (user_at_inj cipher_memory 1000); [by rewrite !zlen_encode|exact Hu|exact He]. }
  destruct (scc_cipher_contained SCC_TEST_ENCRYPT 1000 (scc_machine cipher_memory) (scc_machine_heap _) Hsafe)
    as (r & s' & E & Hh & _). exists r, s'. split; [exact E|exact Hh].
Defined.

Lemma scc_cipher_roundtrip_witness :
  crypt_inverse (D := scm_hw) ∧ heap_ok (scc_machine cipher_memory) ∧
  ∃ s1 s2, scc_test_ioctl SCC_TEST_ENCRYPT 1000 (scc_machine cipher_memory) = Done (0, s1) ∧
    scc_test_ioctl SCC_TEST_DECRYPT 2000 s1 = Done (0, s2) ∧ user_at (k_user s2) 48 plaintext.
Proof.
  split; [exact xor_inverse|]. split; [apply scc_machine_heap|].
  destruct cipher_memory_holds as (Hp & He & Hf). destruct cipher_memory_writable as (W1 & W2 & W3 & W4).
  assert (Hsafe : safe_request to_encrypt ∧ safe_request to_decrypt) by (split; split_and!; by vm_compute).
  assert (Hall : ∀ i size, 0 ≤ size → is_Some (kmalloc_answer i size)) by (intros i size _; by eexists).
  destruct (scc_cipher_roundtrip 1000 2000 to_encrypt to_decrypt (scc_machine cipher_memory) plaintext
    (xor_bytes plaintext) 4 (ScmHw {[4096 := 3]} {[7 := (9, [])]} false) xor_inverse
    Hall (scc_machine_heap _)
    ltac:(by repeat constructor) ltac:(by repeat constructor) (proj1 Hsafe) (proj2 Hsafe) He Hf Hp eq_refl eq_refl
    eq_refl eq_refl eq_refl eq_refl eq_refl ltac:(vm_compute; discriminate) ltac:(vm_compute; reflexivity) W1 W2 W3 W4
    ltac:(left; vm_compute; discriminate) ltac:(left; vm_compute; discriminate)
    ltac:(left; vm_compute; discriminate) ltac:(left; vm_compute; discriminate))
    as (s1 & s2 & E1 & _ & E2 & Hu & _).
  exists s1, s2. split; [exact E1|]. split; [exact E2|exact Hu].
Defined.

(** A structure of the process at 100. *)
Definition asks {A} `{CStruct A} (x : A) : scc_state := scc_machine (flat_write ∅ 100 (encode x)).

Lemma asks_at {A} `{CStruct A} (x : A) : in_range x → request_at (asks x) 100 x.
Proof.
  intros Hr. split; [done|]. split.
  - apply flat_user_at, bytes_encode.
  - rewrite <- (zlen_encode x). apply flat_writable_at.
Qed.

Lemma scc_slot_ioctls_witness :
  let acc := SccDealloc 7 (-1) 9 in
  request_at (asks acc) 100 acc ∧
  answers (asks acc) 100 (SccDealloc 7 0 9) (set_scm (ScmHw {[4096 := 3]} ∅ false) (k_dev (asks acc)))
    (scc_test_ioctl SCC_TEST_DEALLOC_SLOT 100 (asks acc)).
Proof.
  intros acc. assert (Hq : request_at (asks acc) 100 acc) by (apply asks_at; by repeat constructor).
  split; [exact Hq|]. destruct (scc_slot_ioctls 100 (asks acc)) as (_ & Hd & _). by apply (Hd acc 0 _ Hq).
Defined.

Lemma scc_register_ioctls_witness :
  let reg := SccReg 4096 0 (-1) in
  request_at (asks reg) 100 reg ∧
  ∃ u, scc_test_ioctl SCC_TEST_READ_REG 100 (asks reg) = Done (0, set_user u (asks reg)) ∧
    user_at u 100 (encode (SccReg 4096 3 0)).
Proof.
  intros reg. assert (Hq : request_at (asks reg) 100 reg) by (apply asks_at; by repeat constructor).
  split; [exact Hq|]. destruct (scc_register_ioctls 100 reg (asks reg) Hq) as [Hr _].
  destruct (Hr 0 (Some 3) (scm (k_dev (asks reg))) eq_refl) as (u & E & Hu & _). by exists u.
Defined.

Lemma scc_load_slot_delivers_witness :
  let acc := SccLoad 7 1 9 48 4 (-1) 0 in
  let s := scc_machine (flat_write (flat_write ∅ 48 plaintext) 100 (encode acc)) in
  request_at s 100 acc ∧
  ∃ u s', scc_test_ioctl SCC_TEST_LOAD_SLOT 100 s = Done (0, s') ∧ k_user s' = u ∧
    user_at u 100 (encode (set_load_status 0 acc)).
Proof.
  intros acc s. assert (Hq : request_at s 100 acc).
  { split; [by repeat constructor|]. split.
    - apply flat_user_at, bytes_encode.
    - rewrite <- (zlen_encode acc). apply flat_writable_at. }
  split; [exact Hq|]. destruct (scc_load_slot_delivers 100 acc s Hq) as [Hl _].
  assert (Hk : user_at (k_user s) 48 plaintext).
  { apply flat_user_other; [rewrite zlen_encode; vm_compute; intuition discriminate|].
    apply flat_user_at. by repeat constructor. }
  destruct (Hl plaintext (replicate 4 0) (Some (4096, 0, 32)) (scm (k_dev s)) 0
    (ScmHw {[4096 := 3]} {[7 := (9, plaintext)]} false) Hk eq_refl eq_refl eq_refl eq_refl) as (u & E & Hu & _).
  exists u. eexists. split; [exact E|]. split; [reflexivity|exact Hu].
Defined.

(** The key of slot 7, sealed to 48; the process has room for four bytes. *)
Lemma scc_encrypt_slot_delivers_witness :
  let acc := SccEncryptSlot 7 48 9 4 (-1) in
  let d := ScmHw ∅ {[7 := (9, plaintext)]} false in
  let u0 := flat_write (flat_write ∅ 48 (replicate 4 0)) 100 (encode acc) in
  let s : scc_state := KState u0 ∅ 0 (SccState 240 (OsHandle (λ _, None) 0 ∅) [] 0 d) in
  request_at s 100 acc ∧
  ∃ s', scc_test_ioctl SCC_TEST_ENCRYPT_SLOT 100 s = Done (0, s') ∧
    user_at (k_user s') 48 (xor_bytes plaintext).
Proof.
  intros acc d u0 s. assert (Hq : request_at s 100 acc).
  { split; [by repeat constructor|]. split.
    - apply flat_user_at, bytes_encode.
    - rewrite <- (zlen_encode acc). apply flat_writable_at. }
  split; [exact Hq|].
  destruct (scc_encrypt_slot_delivers 100 acc s (Some (4096, 4, 32)) d (replicate 4 0) 0 (xor_bytes plaintext) d
    Hq ltac:(by vm_compute) ltac:(by vm_compute) ltac:(by vm_compute)) as (r & u & E & Hok & _).
  destruct (Hok eq_refl) as (-> & Hu & _).
  - apply flat_writable_other, (flat_writable_at _ 48 (replicate 4 0)).
  - left. vm_compute. discriminate.
  - eexists. split; [exact E|exact Hu].
Defined.

Lemma scc_init_cleanup_witness :
  scc_test_major_node (k_dev (scc_machine ∅)) ≠ 0 ∧ scc_test_major_node (k_dev (scc_machine ∅)) ∉ majors (scc_machine ∅) ∧
  ∃ s', scc_test_init (scc_machine ∅) = Done (0, s') ∧ entry s' OS_FN_OPEN = Some scc_test_open_ref.
Proof.
  assert (Hne : scc_test_major_node (k_dev (scc_machine ∅)) ≠ 0) by discriminate.
  assert (Hf : scc_test_major_node (k_dev (scc_machine ∅)) ∉ majors (scc_machine ∅)) by set_solver.
  split; [exact Hne|]. split; [exact Hf|].
  destruct (scc_init_cleanup (scc_machine ∅) Hne Hf) as (r & s' & E & _ & Hok).
  assert (Er : r = 0).
  { assert (E' : ∃ t, scc_test_init (scc_machine ∅) = Done (0, t)) by (eexists; vm_compute; reflexivity).
    destruct E' as [t E']. rewrite E in E'. by injection E'. }
  subst r. exists s'. split; [exact E|]. by apply Hok.
Defined.
