(* ===== verification/Scc2.v ===== *)
(** * scc2_test_driver.c and scc2_test_driver.h: the test driver of the SCC2

    The second Security Controller has partitions of secure memory: ioctls
    allocate, engage and release one, put data into it and take it out, and
    encrypt it to and decrypt it from the process's memory through a buffer the
    controller reaches.  One mutex covers every ioctl.  The SCC2 driver is the
    class [Scc2]. *)

From S2P Require Import Prelude Kernel.
From stdpp Require Import list_numbers.

Open Scope Z_scope.

(** ** The structures of the ioctls *)

(* C: include/scc2_test_driver.h scc_configuration_access 138-146 *)
Record scc_configuration_access := SccConfiguration {
  driver_major_version : Z;
  driver_minor_version : Z;
  scm_version : Z;
  smn_version : Z;
  block_size : Z;
  black_ram_size : Z;
  red_ram_size : Z
}.
#[export] Program Instance scc2_configuration_struct : CStruct scc_configuration_access := {
  c_types := [cint; cint; cint; cint; cint; cint; cint];
  c_fields a := [driver_major_version a; driver_minor_version a; scm_version a; smn_version a;
    block_size a; black_ram_size a; red_ram_size a];
  c_make vs := SccConfiguration (vs !!! 0%nat) (vs !!! 1%nat) (vs !!! 2%nat) (vs !!! 3%nat)
    (vs !!! 4%nat) (vs !!! 5%nat) (vs !!! 6%nat)
}.
Solve All Obligations with cstruct.

(* C: include/scc2_test_driver.h scc_reg_access 153-157 *)
Record scc_reg_access := SccReg {
  sr_offset : Z;
  sr_data : Z;
  sr_function_return_code : Z
}.
#[export] Program Instance scc2_reg_struct : CStruct scc_reg_access := {
  c_types := [uint32_t; uint32_t; cint];
  c_fields a := [sr_offset a; sr_data a; sr_function_return_code a];
  c_make vs := SccReg (vs !!! 0%nat) (vs !!! 1%nat) (vs !!! 2%nat)
}.
Solve All Obligations with cstruct.

(** The union is its three words: smid, part_no and phys_address for an
    allocation, umid and permissions for an engagement. *)
(* C: include/scc2_test_driver.h scc_partition_access 163-179 *)
Record scc_partition_access := SccPartition {
  pa_virt_address : Z;
  pa_word0 : Z;
  pa_word1 : Z;
  pa_word2 : Z;
  pa_scc_status : Z
}.
#[export] Program Instance scc2_partition_struct : CStruct scc_partition_access := {
  c_types := [uint32_t; uint32_t; uint32_t; uint32_t; cint];
  c_fields a := [pa_virt_address a; pa_word0 a; pa_word1 a; pa_word2 a; pa_scc_status a];
  c_make vs := SccPartition (vs !!! 0%nat) (vs !!! 1%nat) (vs !!! 2%nat) (vs !!! 3%nat) (vs !!! 4%nat)
}.
Solve All Obligations with cstruct.
Definition pa_smid := pa_word0.
Definition pa_umid := pa_word0.
Definition pa_permissions := pa_word1.

(* C: include/scc2_test_driver.h scc_part_cipher_access 186-194 *)
Record scc_part_cipher_access := SccPartCipher {
  pc_virt_address : Z;
  pc_red_offset : Z;
  pc_black_address : Z;
  pc_size_bytes : Z;
  pc_iv : Z;
  pc_scc_status : Z;
  pc_pad : Z
}.
#[export] Program Instance scc2_part_cipher_struct : CStruct scc_part_cipher_access := {
  c_types := [uint32_t; uint32_t; cptr; uint32_t; uint64_t; cint; uint32_t];
  c_fields a := [pc_virt_address a; pc_red_offset a; pc_black_address a; pc_size_bytes a; pc_iv a;
    pc_scc_status a; pc_pad a];
  c_make vs := SccPartCipher (vs !!! 0%nat) (vs !!! 1%nat) (vs !!! 2%nat) (vs !!! 3%nat) (vs !!! 4%nat)
    (vs !!! 5%nat) (vs !!! 6%nat)
}.
Solve All Obligations with cstruct.

(** ** The SCC2 driver *)

Class Scc2Api := {
  SCC_RET_OK : Z;
  SMN_STATUS_REG : Z;
  SCC_CYPHER_MODE_CBC : Z;
  scc_ret_ok : SCC_RET_OK = 0
}.

(** What a call answers and leaves behind; the secure memory as the kernel
    addresses it is [part_read] and [part_write], [None] where none is mapped.
    scc_encrypt_region writes the black bytes to the buffer, no more than it is
    asked for, and scc_decrypt_region reads them there. *)
Class Scc2 (D : Type) `{Scc2Api} := {
  scc_get_configuration : D → list Z * D;
  scc_read_register : Z → D → (Z * option Z) * D;
  scc_write_register : Z → Z → D → Z * D;
  scc_set_sw_alarm : D → D;
  scc_monitor_security_failure : D → D;
  scc_allocate_partition : Z → D → (Z * option (Z * Z * Z)) * D;
  scc_engage_partition : Z → option (list Z) → Z → D → Z * D;
  scc_release_partition : Z → D → Z * D;
  scc_encrypt_region : Z → Z → Z → list Z → Z → D → (Z * list Z) * D;
  scc_decrypt_region : Z → Z → Z → list Z → list Z → Z → D → Z * D;
  part_read : Z → Z → D → option (list Z);
  part_write : Z → list Z → D → option D;
  configuration_bytes d bs d' : scc_get_configuration d = (bs, d') → bytes bs;
  encrypt_region_bytes v o n iv mode d r out d' : 0 ≤ n →
    scc_encrypt_region v o n iv mode d = ((r, out), d') → bytes out ∧ zlen out ≤ n ∧ (r = SCC_RET_OK → zlen out = n);
  part_read_bytes v n d bs : 0 ≤ n → part_read v n d = Some bs → bytes bs ∧ zlen bs = n;
  part_read_write v bs d d' : bytes bs → part_write v bs d = Some d' → part_read v (zlen bs) d' = Some bs
}.
#[global] Hint Mode Scc2 ! - : typeclass_instances.

Inductive scc2_entry := scc2_test_open_ref | scc2_test_ioctl_ref | scc2_test_release_ref.

(* C: module_test/scc2_test_driver.c scc2_test_mutex 38-54 *)
Record scc2 (R D : Type) := Scc2State {
  scc2_test_major_node : Z;
  scc2_reg_handle : R;
  scc2_cfg : list Z;
  scc2_test_mutex : bool;
  scm2 : D
}.
Arguments Scc2State {R D}. Arguments scc2_test_major_node {R D}. Arguments scc2_reg_handle {R D}.
Arguments scc2_cfg {R D}. Arguments scc2_test_mutex {R D}. Arguments scm2 {R D}.

(* C: include/scc2_test_driver.h SCC2_TEST_DRIVER_IOCTL_IDENTIFIER 72-74 *)
Definition SCC2_TEST_DRIVER_IOCTL_IDENTIFIER : Z := 115.

Section scc2.
Context {U R D : Type} `{Uaccess U} `{Kmalloc} `{Ioctl} `{Errno} `{OsError} `{OsDriver R scc2_entry} `{Scc2 D}.
Abbreviation KM := (M (kstate U (scc2 R D))).

(* C: include/scc2_test_driver.h IOCTL_SCC2_OK 55-55 *)
Definition IOCTL_SCC2_OK : Z := 0.
(* C: include/scc2_test_driver.h IOCTL_SCC2_INVALID_CMD 56-56 *)
Definition IOCTL_SCC2_INVALID_CMD : Z := ENOTTY.
(* C: include/scc2_test_driver.h IOCTL_SCC2_INVALID_MODE 57-57 *)
Definition IOCTL_SCC2_INVALID_MODE : Z := EINVAL.
(* C: include/scc2_test_driver.h IOCTL_SCC2_SCM_BUSY 58-58 *)
Definition IOCTL_SCC2_SCM_BUSY : Z := EBUSY.
(* C: include/scc2_test_driver.h IOCTL_SCC2_IMPROPER_STATE 59-59 *)
Definition IOCTL_SCC2_IMPROPER_STATE : Z := EBADFD.
(* C: include/scc2_test_driver.h IOCTL_SCC2_IMPROPER_ADDR 60-60 *)
Definition IOCTL_SCC2_IMPROPER_ADDR : Z := EFAULT.
(* C: include/scc2_test_driver.h IOCTL_SCC2_NO_MEMORY 61-61 *)
Definition IOCTL_SCC2_NO_MEMORY : Z := ENOMEM.
(* C: include/scc2_test_driver.h IOCTL_SCC2_FAILURE 62-62 *)
Definition IOCTL_SCC2_FAILURE : Z := ESPIPE.

(* C: include/scc2_test_driver.h SCC2_TEST_GET_CONFIGURATION 84-85 *)
Definition SCC2_TEST_GET_CONFIGURATION : Z :=
  _IOW SCC2_TEST_DRIVER_IOCTL_IDENTIFIER 0 (sizeof scc_configuration_access).
(* C: include/scc2_test_driver.h SCC2_TEST_READ_REG 87-88 *)
Definition SCC2_TEST_READ_REG : Z := _IOWR SCC2_TEST_DRIVER_IOCTL_IDENTIFIER 1 (sizeof scc_reg_access).
(* C: include/scc2_test_driver.h SCC2_TEST_WRITE_REG 90-91 *)
Definition SCC2_TEST_WRITE_REG : Z := _IOWR SCC2_TEST_DRIVER_IOCTL_IDENTIFIER 2 (sizeof scc_reg_access).
(** Three commands of the SCC that the header kept.  It does not declare the
    structure of the first two, whose size is the argument; [scc_return_t] is an
    int. *)
(* C: include/scc2_test_driver.h SCC2_TEST_ENCRYPT 92-94 *)
Definition SCC2_TEST_ENCRYPT (size : Z) : Z := _IOWR SCC2_TEST_DRIVER_IOCTL_IDENTIFIER 3 size.
(* C: include/scc2_test_driver.h SCC2_TEST_DECRYPT 95-97 *)
Definition SCC2_TEST_DECRYPT (size : Z) : Z := _IOWR SCC2_TEST_DRIVER_IOCTL_IDENTIFIER 4 size.
(* C: include/scc2_test_driver.h SCC2_TEST_ZEROIZE 100-102 *)
Definition SCC2_TEST_ZEROIZE : Z := _IOWR SCC2_TEST_DRIVER_IOCTL_IDENTIFIER 6 4.
(* C: include/scc2_test_driver.h SCC2_TEST_SET_ALARM 99-99 *)
Definition SCC2_TEST_SET_ALARM : Z := _IO SCC2_TEST_DRIVER_IOCTL_IDENTIFIER 5.
(* C: include/scc2_test_driver.h SCC2_TEST_ALLOC_PART 104-105 *)
Definition SCC2_TEST_ALLOC_PART : Z := _IOWR SCC2_TEST_DRIVER_IOCTL_IDENTIFIER 12 (sizeof scc_partition_access).
(* C: include/scc2_test_driver.h SCC2_TEST_ENGAGE_PART 107-108 *)
Definition SCC2_TEST_ENGAGE_PART : Z := _IOWR SCC2_TEST_DRIVER_IOCTL_IDENTIFIER 13 (sizeof scc_partition_access).
(* C: include/scc2_test_driver.h SCC2_TEST_ENCRYPT_PART 110-111 *)
Definition SCC2_TEST_ENCRYPT_PART : Z := _IOWR SCC2_TEST_DRIVER_IOCTL_IDENTIFIER 14 (sizeof scc_part_cipher_access).
(* C: include/scc2_test_driver.h SCC2_TEST_DECRYPT_PART 112-113 *)
Definition SCC2_TEST_DECRYPT_PART : Z := _IOWR SCC2_TEST_DRIVER_IOCTL_IDENTIFIER 15 (sizeof scc_part_cipher_access).
(* C: include/scc2_test_driver.h SCC2_TEST_RELEASE_PART 115-116 *)
Definition SCC2_TEST_RELEASE_PART : Z := _IOWR SCC2_TEST_DRIVER_IOCTL_IDENTIFIER 16 (sizeof scc_partition_access).
(* C: include/scc2_test_driver.h SCC2_TEST_LOAD_PART 118-119 *)
Definition SCC2_TEST_LOAD_PART : Z := _IOWR SCC2_TEST_DRIVER_IOCTL_IDENTIFIER 17 (sizeof scc_part_cipher_access).
(* C: include/scc2_test_driver.h SCC2_TEST_READ_PART 121-122 *)
Definition SCC2_TEST_READ_PART : Z := _IOWR SCC2_TEST_DRIVER_IOCTL_IDENTIFIER 18 (sizeof scc_part_cipher_access).

Definition set_major m (g : scc2 R D) : scc2 R D :=
  Scc2State m (scc2_reg_handle g) (scc2_cfg g) (scc2_test_mutex g) (scm2 g).
Definition set_reg_handle r (g : scc2 R D) : scc2 R D :=
  Scc2State (scc2_test_major_node g) r (scc2_cfg g) (scc2_test_mutex g) (scm2 g).
Definition set_cfg c (g : scc2 R D) : scc2 R D :=
  Scc2State (scc2_test_major_node g) (scc2_reg_handle g) c (scc2_test_mutex g) (scm2 g).
Definition set_mutex b (g : scc2 R D) : scc2 R D :=
  Scc2State (scc2_test_major_node g) (scc2_reg_handle g) (scc2_cfg g) b (scm2 g).
Definition set_scm2 d (g : scc2 R D) : scc2 R D :=
  Scc2State (scc2_test_major_node g) (scc2_reg_handle g) (scc2_cfg g) (scc2_test_mutex g) d.

Definition statics : KM (scc2 R D) := λ s, Done (k_dev s, s).
Definition on_statics (f : scc2 R D → scc2 R D) : KM unit := dev (λ g, (tt, f g)).
Definition on_scm {A} (f : D → A * D) : KM A :=
  dev (λ g, let '(a, d) := f (scm2 g) in (a, set_scm2 d g)).
Definition scm_do (f : D → D) : KM unit := on_scm (λ d, (tt, f d)).
Definition on_reg_handle {A} (f : R → A * R) : KM A :=
  dev (λ g, let '(a, r) := f (scc2_reg_handle g) in (a, set_reg_handle r g)).
Definition reg_handle_do (f : R → R) : KM unit := on_reg_handle (λ r, (tt, f r)).

(** A process that finds the mutex taken waits; alone it would wait for ever. *)
Definition mutex_lock : KM unit :=
  g ← statics; _ ← lift (assert_ (negb (scc2_test_mutex g))); on_statics (set_mutex true).
Definition mutex_unlock : KM unit := on_statics (set_mutex false).

(** dma_alloc_coherent: a block of the heap that the controller reaches too. *)
Definition dma_alloc_coherent (n : Z) : KM (option nat) := kmalloc n.
Definition dma_free_coherent (b : nat) : KM unit := kfree (Some b).

(** ** Configuration and registers *)

(* C: module_test/scc2_test_driver.c scc2_test_get_configuration *)
Definition scc2_test_get_configuration (scc_data : Z) : KM Z :=
  cfg ← on_scm scc_get_configuration;
  k ← to_user scc_data cfg;
  mret (if negb (k =? 0) then - IOCTL_SCC2_IMPROPER_ADDR else IOCTL_SCC2_OK).

(* C: module_test/scc2_test_driver.c scc2_test_read_register 336-363 *)
Definition scc2_test_read_register (scc_data : Z) : KM Z :=
  '(reg, k) ← get_struct scc_reg_access scc_data;
  '(reg, scc_return, error_code) ←
    (if negb (k =? 0) then mret (reg, -1, - IOCTL_SCC2_IMPROPER_ADDR)
     else
       '(ret, v) ← on_scm (scc_read_register (sr_offset reg));
       let reg := SccReg (sr_offset reg) (default (sr_data reg) v) (sr_function_return_code reg) in
       mret (reg, ret, if negb (ret =? SCC_RET_OK) then - IOCTL_SCC2_IMPROPER_ADDR else IOCTL_SCC2_OK));
  let reg := SccReg (sr_offset reg) (sr_data reg) scc_return in
  _ ← put_struct scc_data reg;
  mret error_code.

(* C: module_test/scc2_test_driver.c scc2_test_write_register 377-404 *)
Definition scc2_test_write_register (scc_data : Z) : KM Z :=
  '(reg, k) ← get_struct scc_reg_access scc_data;
  '(scc_return, error_code) ←
    (if negb (k =? 0) then mret (-1, - IOCTL_SCC2_IMPROPER_ADDR)
     else
       ret ← on_scm (scc_write_register (sr_offset reg) (sr_data reg));
       mret (ret, if negb (ret =? SCC_RET_OK) then - IOCTL_SCC2_IMPROPER_ADDR else IOCTL_SCC2_OK));
  let reg := SccReg (sr_offset reg) (sr_data reg) scc_return in
  _ ← put_struct scc_data reg;
  mret error_code.

(** ** Partitions *)

(* C: module_test/scc2_test_driver.c scc2_test_alloc_part 410-427 *)
Definition scc2_test_alloc_part (scc_data : Z) : KM Z :=
  '(acc, status) ← get_struct scc_partition_access scc_data;
  if status =? 0 then
    '(ret, part) ← on_scm (scc_allocate_partition (pa_smid acc));
    let '(part_no, virt, phys) := default (pa_word1 acc, pa_virt_address acc, pa_word2 acc) part in
    put_struct scc_data (SccPartition virt (pa_smid acc) part_no phys ret)
  else mret status.

Definition set_part_status r (acc : scc_partition_access) : scc_partition_access :=
  SccPartition (pa_virt_address acc) (pa_word0 acc) (pa_word1 acc) (pa_word2 acc) r.

(* C: module_test/scc2_test_driver.c scc2_test_engage_part 433-460 *)
Definition scc2_test_engage_part (scc_data : Z) : KM Z :=
  '(acc, status) ← get_struct scc_partition_access scc_data;
  if status =? 0 then
    '(umid, status) ←
      (if negb (pa_umid acc =? 0) then
         '(bs, k) ← from_user (pa_umid acc) 16; mret (Some bs, k)
       else mret (None, status));
    if status =? 0 then
      ret ← on_scm (scc_engage_partition (pa_virt_address acc) umid (pa_permissions acc));
      put_struct scc_data (set_part_status ret acc)
    else mret status
  else mret status.

(* C: module_test/scc2_test_driver.c scc2_test_release_part 602-616 *)
Definition scc2_test_release_part (scc_data : Z) : KM Z :=
  '(acc, status) ← get_struct scc_partition_access scc_data;
  if status =? 0 then
    ret ← on_scm (scc_release_partition (pa_virt_address acc));
    put_struct scc_data (set_part_status ret acc)
  else mret status.

(** ** Encryption *)

Definition set_cipher_status r (acc : scc_part_cipher_access) : scc_part_cipher_access :=
  SccPartCipher (pc_virt_address acc) (pc_red_offset acc) (pc_black_address acc) (pc_size_bytes acc)
    (pc_iv acc) r (pc_pad acc).

(** The two words of iv, the low one first, and two zeros. *)
(* C: module_test/scc2_test_driver.c do_encrypt_part 471-478 *)
Definition build_iv (acc : scc_part_cipher_access) : list Z :=
  [u32 (pc_iv acc); Z.shiftr (pc_iv acc) 32; 0; 0].

(* C: module_test/scc2_test_driver.c do_encrypt_part 466-489 *)
Definition do_encrypt_part (acc : scc_part_cipher_access) (black : nat) : KM (Z * scc_part_cipher_access) :=
  '(ret, out) ← on_scm (scc_encrypt_region (pc_virt_address acc) (pc_red_offset acc) (pc_size_bytes acc)
    (build_iv acc) SCC_CYPHER_MODE_CBC);
  _ ← store_block black 0 out;
  bs ← load_block black 0 (pc_size_bytes acc);
  status ← to_user (pc_black_address acc) bs;
  mret (status, set_cipher_status ret acc).

(* C: module_test/scc2_test_driver.c do_decrypt_part 494-519 *)
Definition do_decrypt_part (acc : scc_part_cipher_access) (black : nat) : KM (Z * scc_part_cipher_access) :=
  '(bs, status) ← from_user (pc_black_address acc) (pc_size_bytes acc);
  _ ← store_block black 0 bs;
  if status =? 0 then
    bs ← load_block black 0 (pc_size_bytes acc);
    ret ← on_scm (scc_decrypt_region (pc_virt_address acc) (pc_red_offset acc) (pc_size_bytes acc) bs
      (build_iv acc) SCC_CYPHER_MODE_CBC);
    mret (status, set_cipher_status ret acc)
  else mret (status, acc).

(* C: module_test/scc2_test_driver.c scc2_test_encrypt_part 525-561 *)
Definition scc2_test_encrypt_part (cmd scc_data : Z) : KM Z :=
  '(acc, status) ← get_struct scc_part_cipher_access scc_data;
  if status =? 0 then
    black ← dma_alloc_coherent (pc_size_bytes acc);
    '(status, acc) ←
      match black with
      | None => mret (IOCTL_SCC2_NO_MEMORY, acc)
      | Some b =>
          r ← (if cmd =? SCC2_TEST_ENCRYPT_PART then do_encrypt_part acc b else do_decrypt_part acc b);
          _ ← dma_free_coherent b;
          mret r
      end;
    if status =? 0 then put_struct scc_data acc else mret status
  else mret status.

(** ** Data in and out of a partition: the address is the process's *)

(* C: module_test/scc2_test_driver.c scc2_test_load_data 563-578 *)
Definition scc2_test_load_data (scc_data : Z) : KM Z :=
  '(acc, status) ← get_struct scc_part_cipher_access scc_data;
  if status =? 0 then
    '(bs, status) ← from_user (pc_black_address acc) (pc_size_bytes acc);
    g ← statics;
    d ← lift (of_option (part_write (u32 (pc_virt_address acc + pc_red_offset acc)) bs (scm2 g)));
    _ ← on_statics (set_scm2 d);
    mret status
  else mret status.

(* C: module_test/scc2_test_driver.c scc2_test_read_data 581-596 *)
Definition scc2_test_read_data (scc_data : Z) : KM Z :=
  '(acc, status) ← get_struct scc_part_cipher_access scc_data;
  if status =? 0 then
    g ← statics;
    bs ← lift (of_option (part_read (u32 (pc_virt_address acc + pc_red_offset acc)) (pc_size_bytes acc) (scm2 g)));
    to_user (pc_black_address acc) bs
  else mret status.

(* C: module_test/scc2_test_driver.c scc2_test_ioctl 225-278 *)
Definition dispatch (cmd scc_data : Z) : KM Z :=
  if cmd =? SCC2_TEST_GET_CONFIGURATION then scc2_test_get_configuration scc_data
  else if cmd =? SCC2_TEST_READ_REG then scc2_test_read_register scc_data
  else if cmd =? SCC2_TEST_WRITE_REG then scc2_test_write_register scc_data
  else if cmd =? SCC2_TEST_SET_ALARM then _ ← scm_do scc_set_sw_alarm; mret OS_ERROR_OK_S
  else if cmd =? SCC2_TEST_ALLOC_PART then scc2_test_alloc_part scc_data
  else if cmd =? SCC2_TEST_ENGAGE_PART then scc2_test_engage_part scc_data
  else if (cmd =? SCC2_TEST_ENCRYPT_PART) || (cmd =? SCC2_TEST_DECRYPT_PART)
  then scc2_test_encrypt_part cmd scc_data
  else if cmd =? SCC2_TEST_LOAD_PART then scc2_test_load_data scc_data
  else if cmd =? SCC2_TEST_READ_PART then scc2_test_read_data scc_data
  else if cmd =? SCC2_TEST_RELEASE_PART then scc2_test_release_part scc_data
  else mret (- IOCTL_SCC2_INVALID_CMD).

(* C: module_test/scc2_test_driver.c scc2_test_ioctl 217-283 *)
Definition scc2_test_ioctl (cmd scc_data : Z) : KM Z :=
  _ ← mutex_lock;
  error_code ← dispatch cmd scc_data;
  _ ← mutex_unlock;
  mret error_code.

(** ** Opening, loading *)

(* C: module_test/scc2_test_driver.c scc2_test_open 140-143 *)
Definition scc2_test_open : KM Z := mret OS_ERROR_OK_S.
(* C: module_test/scc2_test_driver.c scc2_test_release 158-161 *)
Definition scc2_test_release : KM Z := mret OS_ERROR_OK_S.

(* C: module_test/scc2_test_driver.c scc2_test_cleanup 180-187 *)
Definition scc2_test_cleanup : KM unit :=
  _ ← on_reg_handle os_driver_remove_registration; mret tt.

(* C: module_test/scc2_test_driver.c setup_user_driver_interaction 633-665 *)
Definition setup_user_driver_interaction : KM Z :=
  g ← statics;
  _ ← reg_handle_do os_driver_init_registration;
  _ ← reg_handle_do (λ r, os_driver_add_registration r OS_FN_OPEN scc2_test_open_ref);
  _ ← reg_handle_do (λ r, os_driver_add_registration r OS_FN_IOCTL scc2_test_ioctl_ref);
  _ ← reg_handle_do (λ r, os_driver_add_registration r OS_FN_CLOSE scc2_test_release_ref);
  code ← on_reg_handle (λ r, os_driver_complete_registration r (scc2_test_major_node g));
  if negb (code =? OS_ERROR_OK_S) then mret code
  else
    _ ← (if scc2_test_major_node g =? 0 then on_statics (set_major code) else mret tt);
    mret code.

(** What smn_status holds is only printed. *)
(* C: module_test/scc2_test_driver.c scc2_test_init 88-126 *)
Definition scc2_test_init : KM Z :=
  cfg ← on_scm scc_get_configuration;
  _ ← on_statics (set_cfg cfg);
  '(error_code, _) ← on_scm (scc_read_register SMN_STATUS_REG);
  error_code ← (if error_code =? 0 then setup_user_driver_interaction else mret error_code);
  _ ← scm_do scc_monitor_security_failure;
  _ ← (if negb (error_code =? 0) then scc2_test_cleanup else mret tt);
  mret error_code.
End scc2.

(** ** Every path releases the mutex and leaves no buffer *)

Section scc2_proofs.
Context {U R D : Type} `{Uaccess U} `{Kmalloc} `{Ioctl} `{Errno} `{OsError} `{OsDriver R scc2_entry} `{Scc2 D}.
Abbreviation KS := (kstate U (scc2 R D)).
Abbreviation KM := (M KS).
Implicit Type s : KS.

Lemma on_scm2_ok {A} (f : D → A * D) s a d :
  f (scm2 (k_dev s)) = (a, d) → on_scm f s = Done (a, set_dev (set_scm2 d (k_dev s)) s).
Proof. unfold on_scm, dev. by intros ->. Qed.

(** The heap and the mutex are as before, and the heap is well formed still. *)
Record same_kernel s s' : Prop := SameKernel {
  sk_heap : k_heap s' = k_heap s;
  sk_count : (k_count s <= k_count s')%nat;
  sk_mutex : scc2_test_mutex (k_dev s') = scc2_test_mutex (k_dev s)
}.

Lemma same_kernel_refl s : same_kernel s s.
Proof. by split. Qed.
Lemma same_kernel_trans s1 s2 s3 : same_kernel s1 s2 → same_kernel s2 s3 → same_kernel s1 s3.
Proof. intros [E1 C1 M1] [E2 C2 M2]. split; [by rewrite E2|lia|by rewrite M2]. Qed.
Lemma same_kernel_heap s s' : same_kernel s s' → heap_ok s → heap_ok s'.
Proof. intros [E C _] Hh b l Hb. rewrite E in Hb. apply Hh in Hb. lia. Qed.

(** A computation that always returns, and leaves the kernel as it was. *)
Definition calm {A} (m : KM A) : Prop :=
  ∀ s, heap_ok s → ∃ a s', m s = Done (a, s') ∧ same_kernel s s'.

Lemma calm_bind {A B} (m : KM A) (f : A → KM B) : calm m → (∀ a, calm (f a)) → calm (m ≫= f).
Proof.
  intros Hm Hf s Hh. destruct (Hm s Hh) as (a & s1 & E1 & S1). mstep E1.
  destruct (Hf a s1 (same_kernel_heap _ _ S1 Hh)) as (b & s2 & E2 & S2).
  exists b, s2. split; [done|]. by eapply same_kernel_trans.
Qed.
Lemma calm_ret {A} (a : A) : calm (mret a).
Proof. intros s _. exists a, s. split; [done|]. apply same_kernel_refl. Qed.
Lemma calm_get_struct A `{CStruct A} a : calm (get_struct A a).
Proof.
  intros s _. destruct (get_struct_any A a s) as (x & k & E & _). exists (x, k), s. split; [done|].
  apply same_kernel_refl.
Qed.
Lemma calm_from_user a n : calm (from_user a n).
Proof. intros s _. eexists _, s. split; [done|]. apply same_kernel_refl. Qed.
Lemma calm_to_user a bs : calm (to_user a bs).
Proof.
  intros s _. unfold to_user. destruct (copy_to_user _ _ _) as [u k]. eexists _, _. split; [done|]. by split.
Qed.
Lemma calm_put_struct `{CStruct A} a (x : A) : calm (put_struct a x).
Proof. apply calm_to_user. Qed.
Lemma calm_on_scm {A} (f : D → A * D) : calm (on_scm f).
Proof.
  intros s _. destruct (f (scm2 (k_dev s))) as [a d] eqn:E. exists a. eexists.
  split; [by apply on_scm2_ok|]. by split.
Qed.

Create HintDb calm.
Hint Resolve calm_ret calm_get_struct calm_from_user calm_to_user calm_put_struct calm_on_scm : calm.
(** Splits a handler into its services. *)
Ltac calm_tac :=
  repeat match goal with
  | |- calm (_ ≫= _) => apply calm_bind; [|intros ?]
  | |- calm (match ?p with pair _ _ => _ end) => destruct p
  | |- calm (if ?b then _ else _) => destruct b
  | |- calm (match ?o with Some _ => _ | None => _ end) => destruct o
  | |- calm (let _ := _ in _) => cbv zeta
  end; auto with calm.

Lemma calm_get_configuration a : calm (scc2_test_get_configuration a).
Proof. unfold scc2_test_get_configuration. calm_tac. Qed.
Lemma calm_read_register a : calm (scc2_test_read_register a).
Proof. unfold scc2_test_read_register. calm_tac. Qed.
Lemma calm_write_register a : calm (scc2_test_write_register a).
Proof. unfold scc2_test_write_register. calm_tac. Qed.
Lemma calm_alloc_part a : calm (scc2_test_alloc_part a).
Proof. unfold scc2_test_alloc_part. calm_tac. Qed.
Lemma calm_engage_part a : calm (scc2_test_engage_part a).
Proof. unfold scc2_test_engage_part. calm_tac. Qed.
Lemma calm_release_part a : calm (scc2_test_release_part a).
Proof. unfold scc2_test_release_part. calm_tac. Qed.

Definition locked s : KS := set_dev (set_mutex true (k_dev s)) s.
Definition unlocked s : KS := set_dev (set_mutex false (k_dev s)) s.

Lemma mutex_lock_ok s : scc2_test_mutex (k_dev s) = false → mutex_lock s = Done (tt, locked s).
Proof. intros Hm. unfold mutex_lock. erewrite M_bind_done; [|reflexivity]. by rewrite Hm. Qed.

(** The heap is [h] and the buffer [b], of [n] bytes. *)
Definition with_black (h : gmap nat (list Z)) (b : nat) (n : Z) s : Prop :=
  h !! b = None ∧ ∃ l, k_heap s = <[b := l]> h ∧ zlen l = n.

Lemma black_loaded h b n s : with_black h b n s → 0 ≤ n → ∃ bs, load_block b 0 n s = Done (bs, s) ∧ zlen bs = n.
Proof.
  intros (_ & l & El & Hl) Hn. destruct (load_block_ok b 0 n s l) as (bs & E & _ & Hb); [|lia..|by exists bs].
  by rewrite El, lookup_insert_eq.
Qed.
Lemma black_stored h b n s bs : with_black h b n s → zlen bs ≤ n →
  ∃ s', store_block b 0 bs s = Done (tt, s') ∧ with_black h b n s' ∧
    k_user s' = k_user s ∧ k_count s' = k_count s ∧ k_dev s' = k_dev s ∧
    (zlen bs = n → k_heap s' = <[b := bs]> h).
Proof.
  intros (Hf & l & El & Hl) Hn. destruct (store_block_ok b 0 bs s l) as (l' & E & Hl' & Hs); [|lia..|].
  { by rewrite El, lookup_insert_eq. }
  eexists. split; [exact E|]. split; [split; [done|]; exists l'; split; [|lia]; cbn; by rewrite El, insert_insert_eq|].
  split_and!; [done..|]. intros Hbs. cbn. rewrite El, insert_insert_eq. f_equal.
  assert (Hll : slice l' 0 (zlen l') = Some l') by apply slice_all.
  rewrite Hl', Hl, <- Hbs, Hs in Hll. by injection Hll.
Qed.

Lemma size_bytes_range (acc : scc_part_cipher_access) : in_range acc → 0 ≤ pc_size_bytes acc < 2 ^ 32.
Proof.
  intros Hr. do 3 apply Forall2_cons in Hr as [_ Hr]. by apply Forall2_cons in Hr as [Hr _].
Qed.

Lemma do_encrypt_calm h b acc s :
  0 ≤ pc_size_bytes acc → with_black h b (pc_size_bytes acc) s →
  ∃ r s', do_encrypt_part acc b s = Done (r, s') ∧ with_black h b (pc_size_bytes acc) s' ∧
    k_count s' = k_count s ∧ scc2_test_mutex (k_dev s') = scc2_test_mutex (k_dev s).
Proof.
  intros Hn Hb. unfold do_encrypt_part.
  destruct (scc_encrypt_region (pc_virt_address acc) (pc_red_offset acc) (pc_size_bytes acc) (build_iv acc)
    SCC_CYPHER_MODE_CBC (scm2 (k_dev s))) as [[r out] d] eqn:E1.
  destruct (encrypt_region_bytes _ _ _ _ _ _ _ _ _ Hn E1) as (_ & Hout & _).
  erewrite M_bind_done; [|apply on_scm2_ok; exact E1]. cbv beta iota.
  set (s1 := set_dev (set_scm2 d (k_dev s)) s).
  destruct (black_stored h b (pc_size_bytes acc) s1 out) as (s2 & E2 & Hb2 & _ & Hc2 & Hd2 & _); [done..|].
  mstep E2. destruct (black_loaded _ _ _ _ Hb2 Hn) as (bs & E3 & _). mstep E3.
  unfold to_user. rewrite M_bind_eq. destruct (copy_to_user _ _ _) as [u k]. cbn [obind].
  eexists _, _. split; [done|]. cbn. by rewrite Hc2, Hd2.
Qed.

Lemma do_decrypt_calm h b acc s :
  0 ≤ pc_size_bytes acc → with_black h b (pc_size_bytes acc) s →
  ∃ r s', do_decrypt_part acc b s = Done (r, s') ∧ with_black h b (pc_size_bytes acc) s' ∧
    k_count s' = k_count s ∧ scc2_test_mutex (k_dev s') = scc2_test_mutex (k_dev s).
Proof.
  intros Hn Hb. unfold do_decrypt_part, from_user. rewrite M_bind_eq. cbn [obind].
  destruct (copy_from_user _ _ _) as [bs k] eqn:E1. pose proof (copy_from_user_len _ _ _ _ _ Hn E1) as Hl.
  destruct (black_stored h b (pc_size_bytes acc) s bs) as (s2 & E2 & Hb2 & _ & Hc2 & Hd2 & _); [done|lia|].
  mstep E2. destruct (k =? 0).
  2: { eexists _, _. split; [done|]. by rewrite Hc2, Hd2. }
  destruct (black_loaded _ _ _ _ Hb2 Hn) as (bs' & E3 & _). mstep E3.
  match goal with |- context [on_scm ?f] => destruct (f (scm2 (k_dev s2))) as [ret d] eqn:E4 end.
  erewrite M_bind_done; [|apply on_scm2_ok; exact E4]. eexists _, _. split; [done|]. cbn. by rewrite Hc2, Hd2.
Qed.

(** The buffer of a request, whatever is done with it and after. *)
Lemma calm_with_dma {A B} n (f : nat → KM A) (e : A) (rest : A → KM B) :
  0 ≤ n → (∀ r, calm (rest r)) →
  (∀ h b s, with_black h b n s → ∃ r s', f b s = Done (r, s') ∧ with_black h b n s' ∧
     k_count s' = k_count s ∧ scc2_test_mutex (k_dev s') = scc2_test_mutex (k_dev s)) →
  calm (black ← dma_alloc_coherent n;
    r ← match black with
        | None => mret e
        | Some b => r ← f b; _ ← dma_free_coherent b; mret r
        end;
    rest r).
Proof.
  intros Hn Hrest Hf s Hh. unfold dma_alloc_coherent, dma_free_coherent.
  destruct (kmalloc_answer (k_count s) n) as [bs|] eqn:A1.
  2: { erewrite M_bind_done; [|by apply kmalloc_none]. erewrite M_bind_done; [|reflexivity].
    match goal with |- context [rest e ?s1] => destruct (Hrest e s1) as (b & s2 & E2 & S2) end.
    { intros b l Hb. apply Hh in Hb. cbn. lia. }
    exists b, s2. split; [done|]. eapply same_kernel_trans; [|exact S2]. split; [done|cbn; lia|done]. }
  erewrite M_bind_done; [|by apply kmalloc_some]. apply kmalloc_size in A1 as [Hl _]; [|done].
  match goal with |- context [((f _ ≫= _) ≫= _) ?s0] => set (s1 := s0) end.
  destruct (Hf (k_heap s) (k_count s) s1) as (r & s2 & E2 & (Hn0 & l & El & _) & Hc & Hm).
  { split; [by apply heap_ok_fresh|]. by exists bs. }
  rewrite M_bind_eq. mstep E2. mstep (kfree_ok (k_count s) s2 l); [|by rewrite El, lookup_insert_eq].
  cbn [mret M_ret obind]. set (s3 := set_heap _ s2).
  assert (S3 : same_kernel s s3).
  { split; [cbn; by rewrite El, delete_insert_id|cbn; rewrite Hc; cbn; lia|exact Hm]. }
  destruct (Hrest r s3) as (x & s4 & E4 & S4); [by eapply same_kernel_heap|].
  exists x, s4. split; [done|]. by eapply same_kernel_trans.
Qed.

Lemma calm_encrypt_part cmd a : calm (scc2_test_encrypt_part cmd a).
Proof.
  intros s Hh. unfold scc2_test_encrypt_part.
  destruct (get_struct_any scc_part_cipher_access a s) as (acc & k & E & Hr & _). mstep E. cbv beta iota.
  pose proof (size_bytes_range acc Hr) as [Hn _]. destruct (k =? 0); [|by apply calm_ret].
  revert s Hh E. intros s Hh _. revert s Hh. change (calm (black ← dma_alloc_coherent (pc_size_bytes acc);
    r ← match black with
        | None => mret (IOCTL_SCC2_NO_MEMORY, acc)
        | Some b =>
            r ← (if cmd =? SCC2_TEST_ENCRYPT_PART then do_encrypt_part acc b else do_decrypt_part acc b);
            _ ← dma_free_coherent b; mret r
        end;
    (let '(status, acc) := r in if status =? 0 then put_struct a acc else mret status))).
  apply calm_with_dma; [done|intros []; calm_tac|]. intros h b s Hb.
  destruct (_ =? _); [by apply do_encrypt_calm|by apply do_decrypt_calm].
Qed.

(** ** The commands *)

Lemma scc2_nrs :
  _IOC_NR SCC2_TEST_GET_CONFIGURATION = 0 ∧ _IOC_NR SCC2_TEST_READ_REG = 1 ∧ _IOC_NR SCC2_TEST_WRITE_REG = 2 ∧
  _IOC_NR SCC2_TEST_SET_ALARM = 5 ∧ _IOC_NR SCC2_TEST_ALLOC_PART = 12 ∧ _IOC_NR SCC2_TEST_ENGAGE_PART = 13 ∧
  _IOC_NR SCC2_TEST_ENCRYPT_PART = 14 ∧ _IOC_NR SCC2_TEST_DECRYPT_PART = 15 ∧
  _IOC_NR SCC2_TEST_RELEASE_PART = 16 ∧ _IOC_NR SCC2_TEST_LOAD_PART = 17 ∧ _IOC_NR SCC2_TEST_READ_PART = 18.
Proof.
  split_and!; first [apply IOWR_nr | apply IOW_nr | apply IO_nr];
    unfold SCC2_TEST_DRIVER_IOCTL_IDENTIFIER; try lia; split; by vm_compute.
Qed.

(** The handler each command goes to. *)
Lemma scc2_dispatch_eq a s :
  dispatch SCC2_TEST_READ_REG a s = scc2_test_read_register a s ∧
  dispatch SCC2_TEST_WRITE_REG a s = scc2_test_write_register a s ∧
  dispatch SCC2_TEST_ALLOC_PART a s = scc2_test_alloc_part a s ∧
  dispatch SCC2_TEST_ENGAGE_PART a s = scc2_test_engage_part a s ∧
  dispatch SCC2_TEST_ENCRYPT_PART a s = scc2_test_encrypt_part SCC2_TEST_ENCRYPT_PART a s ∧
  dispatch SCC2_TEST_DECRYPT_PART a s = scc2_test_encrypt_part SCC2_TEST_DECRYPT_PART a s ∧
  dispatch SCC2_TEST_LOAD_PART a s = scc2_test_load_data a s ∧
  dispatch SCC2_TEST_READ_PART a s = scc2_test_read_data a s ∧
  dispatch SCC2_TEST_RELEASE_PART a s = scc2_test_release_part a s ∧
  SCC2_TEST_DECRYPT_PART ≠ SCC2_TEST_ENCRYPT_PART.
Proof.
  pose proof scc2_nrs as (N0 & N1 & N2 & N3 & N4 & N5 & N6 & N7 & N8 & N9 & N10). unfold dispatch.
  split_and!; [..|congruence];
    repeat (first [rewrite Z.eqb_refl | rewrite (proj2 (Z.eqb_neq _ _)) by congruence]); done.
Qed.

(** The commands the header kept from the SCC are refused. *)
Lemma scc2_declared_unserved a size cmd s : 0 ≤ size < 2 ^ 13 →
  cmd ∈ [SCC2_TEST_ENCRYPT size; SCC2_TEST_DECRYPT size; SCC2_TEST_ZEROIZE] →
  dispatch cmd a s = Done (- IOCTL_SCC2_INVALID_CMD, s).
Proof.
  intros Hsz Hc. pose proof scc2_nrs as (N0 & N1 & N2 & N3 & N4 & N5 & N6 & N7 & N8 & N9 & N10).
  assert (Hn : _IOC_NR cmd ∈ [3; 4; 6]).
  { apply elem_of_cons in Hc as [->|Hc]; [|apply elem_of_cons in Hc as [->|Hc]; [|apply list_elem_of_singleton in Hc as ->]].
    all: unfold SCC2_TEST_ENCRYPT, SCC2_TEST_DECRYPT, SCC2_TEST_ZEROIZE; rewrite IOWR_nr;
      try (unfold SCC2_TEST_DRIVER_IOCTL_IDENTIFIER; lia).
    - by left.
    - right; by left.
    - do 2 right; by left. }
  unfold dispatch. rewrite !elem_of_cons, elem_of_nil in Hn.
  repeat (rewrite (proj2 (Z.eqb_neq _ _)) by (intros ->; lia)). done.
Qed.

(** What goes to the partition by its address returns when the place is mapped,
    and never changes the heap or the mutex. *)
Definition region_place (acc : scc_part_cipher_access) : Z := u32 (pc_virt_address acc + pc_red_offset acc).
Definition region_mapped a s : Prop := ∀ acc : scc_part_cipher_access,
  in_range acc → user_at (k_user s) a (encode acc) →
  is_Some (part_read (region_place acc) (pc_size_bytes acc) (scm2 (k_dev s))) ∧
  (∀ bs, bytes bs → zlen bs = pc_size_bytes acc → is_Some (part_write (region_place acc) bs (scm2 (k_dev s)))).

Lemma load_data_kept a s : ensures (scc2_test_load_data a) s (λ _ s', same_kernel s s').
Proof.
  apply ensures_bind, ensures_get_struct. intros acc k _. destruct (k =? 0); [|apply ensures_ret, same_kernel_refl].
  apply ensures_bind. intros p s' [= <- <-]. destruct (copy_from_user _ _ _) as [bs k'].
  apply ensures_bind. intros g s' [= <- <-]. apply ensures_bind. intros d s'. destruct (part_write _ _ _); cbn; [|done]. intros [= <- <-].
  apply ensures_bind. intros [] s' [= <-]. by apply ensures_ret.
Qed.
Lemma read_data_kept a s : ensures (scc2_test_read_data a) s (λ _ s', same_kernel s s').
Proof.
  apply ensures_bind, ensures_get_struct. intros acc k _. destruct (k =? 0); [|apply ensures_ret, same_kernel_refl].
  apply ensures_bind. intros g s' [= <- <-]. apply ensures_bind. intros bs s'.
  destruct (part_read _ _ _); cbn; [|done]. intros [= <- <-]. apply ensures_to_user. by split.
Qed.

Lemma load_data_returns a s : region_mapped a s → is_done (scc2_test_load_data a s).
Proof.
  intros Hmap. unfold scc2_test_load_data.
  destruct (get_struct_any scc_part_cipher_access a s) as (acc & k & E & Hr & Hu & _). mstep E. cbv beta iota.
  destruct (Z.eqb_spec k 0) as [->|]; [|by eexists]. pose proof (size_bytes_range acc Hr) as [Hn _].
  rewrite M_bind_eq. unfold from_user. cbn [obind]. destruct (copy_from_user _ _ _) as [bs k'] eqn:EC.
  erewrite M_bind_done; [|reflexivity]. cbv beta iota.
  destruct (Hmap acc Hr (Hu eq_refl)) as [_ Hw]. destruct (Hw bs) as [d Hd].
  - by eapply copy_from_user_bytes.
  - by eapply copy_from_user_len.
  - unfold region_place in Hd. rewrite M_bind_eq, Hd. by eexists.
Qed.
Lemma read_data_returns a s : region_mapped a s → is_done (scc2_test_read_data a s).
Proof.
  intros Hmap. unfold scc2_test_read_data.
  destruct (get_struct_any scc_part_cipher_access a s) as (acc & k & E & Hr & Hu & _). mstep E. cbv beta iota.
  destruct (Z.eqb_spec k 0) as [->|]; [|by eexists]. erewrite M_bind_done; [|reflexivity].
  destruct (Hmap acc Hr (Hu eq_refl)) as [[bs Hd] _]. unfold region_place in Hd. rewrite M_bind_eq, Hd. cbn.
  unfold to_user. destruct (copy_to_user _ _ _). by eexists.
Qed.

Lemma dispatch_calm cmd a : cmd ≠ SCC2_TEST_LOAD_PART → cmd ≠ SCC2_TEST_READ_PART → calm (dispatch cmd a).
Proof.
  intros Hl Hr. unfold dispatch. rewrite (proj2 (Z.eqb_neq _ _) Hl), (proj2 (Z.eqb_neq _ _) Hr).
  repeat destruct (_ =? _); cbn [orb]; auto 1 using calm_get_configuration, calm_read_register, calm_write_register,
    calm_alloc_part, calm_engage_part, calm_release_part, calm_encrypt_part, calm_ret.
  all: unfold scm_do; calm_tac.
Qed.

(** Whatever the command, a call that returns leaves the kernel as it was. *)
Lemma dispatch_kept cmd a s : heap_ok s → ensures (dispatch cmd a) s (λ _ s', same_kernel s s').
Proof.
  intros Hh. destruct (decide (cmd = SCC2_TEST_LOAD_PART ∨ cmd = SCC2_TEST_READ_PART)) as [Hc|Hc].
  - destruct (scc2_dispatch_eq a s) as (_ & _ & _ & _ & _ & _ & El & Er & _).
    intros r s' E. destruct Hc as [-> | ->]; [rewrite El in E|rewrite Er in E].
    + by apply (load_data_kept a s r s').
    + by apply (read_data_kept a s r s').
  - destruct (dispatch_calm cmd a ltac:(tauto) ltac:(tauto) s Hh) as (r & s' & E & Sk). by eapply ensures_done.
Qed.

Lemma locked_ioctl cmd a s :
  scc2_test_mutex (k_dev s) = false →
  scc2_test_ioctl cmd a s = obind (λ '(r, s'), Done (r, unlocked s')) (dispatch cmd a (locked s)).
Proof.
  intros Hm. unfold scc2_test_ioctl. erewrite M_bind_done; [|by apply mutex_lock_ok]. rewrite M_bind_eq.
  by destruct (dispatch cmd a (locked s)) as [[r s']| | |].
Qed.

(** What can happen to the driver: a process changes its memory, opens, closes or
    asks for any command, and the call returns. *)
Inductive scc2_step : KS → KS → Prop :=
  | step_process s u : scc2_step s (set_user u s)
  | step_open s r s' : scc2_test_open s = Done (r, s') → scc2_step s s'
  | step_release s r s' : scc2_test_release s = Done (r, s') → scc2_step s s'
  | step_ioctl s cmd a r s' : scc2_test_ioctl cmd a s = Done (r, s') → scc2_step s s'.

Definition quiet (h : gmap nat (list Z)) s : Prop :=
  heap_ok s ∧ scc2_test_mutex (k_dev s) = false ∧ k_heap s = h.

Lemma scc2_step_quiet h s s' : quiet h s → scc2_step s s' → quiet h s'.
Proof.
  intros (Hh & Hm & He) Hs. destruct Hs as [s u|s r s' [= <- <-]|s r s' [= <- <-]|s cmd a r s' E]; [done..|].
  rewrite locked_ioctl in E by done. destruct (dispatch cmd a (locked s)) as [[r1 s1]| | |] eqn:ED; try done.
  injection E as <- <-. destruct (dispatch_kept cmd a (locked s) Hh _ _ ED) as [Ek Ec _].
  split; [|split; [done|]].
  - intros b l Hb. cbn in Hb. rewrite Ek in Hb. apply Hh in Hb. cbn in *. lia.
  - cbn. by rewrite Ek.
Qed.

Lemma scc2_quiet_returns h cmd a s :
  quiet h s → (cmd = SCC2_TEST_LOAD_PART ∨ cmd = SCC2_TEST_READ_PART → region_mapped a s) →
  is_done (scc2_test_ioctl cmd a s).
Proof.
  intros (Hh & Hm & _) Hmap. rewrite locked_ioctl by done.
  assert (Hd : is_done (dispatch cmd a (locked s))).
  { destruct (decide (cmd = SCC2_TEST_LOAD_PART ∨ cmd = SCC2_TEST_READ_PART)) as [Hc|Hc].
    - destruct (scc2_dispatch_eq a (locked s)) as (_ & _ & _ & _ & _ & _ & El & Er & _). specialize (Hmap Hc).
      destruct Hc as [-> | ->]; [rewrite El; by apply load_data_returns|rewrite Er; by apply read_data_returns].
    - destruct (dispatch_calm cmd a ltac:(tauto) ltac:(tauto) (locked s) Hh) as (r & s' & E & _). by eexists. }
  destruct Hd as [[r s'] ->]. by eexists.
Qed.

(** C3: no run of the device blocks it or loses memory: after whatever calls
    processes make, in any order, with whatever answers of the allocator, the
    copies and the SCC2 driver, the mutex is free and the heap is as at the
    start, no path has left the buffer of a request behind, and every next
    command returns; for the two that go to a partition by its address, if the
    place is mapped. *)
Theorem scc2_ioctl_safe s0 s :
  heap_ok s0 → scc2_test_mutex (k_dev s0) = false → rtc scc2_step s0 s →
  scc2_test_mutex (k_dev s) = false ∧ k_heap s = k_heap s0 ∧
  (∀ cmd a, (cmd = SCC2_TEST_LOAD_PART ∨ cmd = SCC2_TEST_READ_PART → region_mapped a s) →
     ∃ r s', scc2_test_ioctl cmd a s = Done (r, s') ∧ scc2_test_mutex (k_dev s') = false ∧ k_heap s' = k_heap s0).
Proof.
  intros Hh Hm Hr. assert (Hq : quiet (k_heap s0) s).
  { assert (H0q : quiet (k_heap s0) s0) by done. revert H0q. clear Hh Hm. generalize (k_heap s0). intros h.
    induction Hr as [|x y z Hxy _ IH]; [done|]. intros Hq. apply IH. by eapply scc2_step_quiet. }
  pose proof Hq as (_ & Hms & Hes). split; [done|]. split; [done|]. intros cmd a Hmap.
  destruct (scc2_quiet_returns _ cmd a s Hq Hmap) as [[r s'] E]. exists r, s'. split; [done|].
  by destruct (scc2_step_quiet _ _ _ Hq (step_ioctl _ _ _ _ _ E)) as (_ & ? & ?).
Qed.

Lemma scc2_ioctl_done cmd a s r s' :
  scc2_test_mutex (k_dev s) = false → dispatch cmd a (locked s) = Done (r, s') →
  scc2_test_ioctl cmd a s = Done (r, unlocked s').
Proof.
  intros Hm E. unfold scc2_test_ioctl. erewrite M_bind_done; [|by apply mutex_lock_ok]. by mstep E.
Qed.

Lemma unlocked_locked s u d :
  scc2_test_mutex (k_dev s) = false →
  unlocked (set_user u (set_dev (set_scm2 d (k_dev (locked s))) (locked s))) =
    set_user u (set_dev (set_scm2 d (k_dev s)) s).
Proof. intros Hm. destruct s as [? ? ? []]. cbn in *. by subst. Qed.

(** What the process sees of a command under the mutex. *)
Lemma scc2_answers {A} `{CStruct A} cmd a s (x : A) d :
  scc2_test_mutex (k_dev s) = false →
  answers (locked s) a x (set_scm2 d (k_dev (locked s))) (dispatch cmd a (locked s)) →
  answers s a x (set_scm2 d (k_dev s)) (scc2_test_ioctl cmd a s).
Proof.
  intros Hm (u & E & Hu & Hf). exists u. split; [|done].
  erewrite scc2_ioctl_done; [|done|exact E]. by rewrite unlocked_locked.
Qed.

(** C10: the partition ioctls are the SCC2 driver's calls, made once and under
    the mutex: an allocation gives the process the number and the addresses of
    the partition, an engagement passes the address, the permissions and the
    umid, the 16 bytes the process points to or none at all, a release passes
    the address; the status is the driver's, and nothing else changes.  A umid
    that cannot be read is an error, and the driver is not called. *)
Theorem scc2_partition_ioctls a acc s :
  request_at s a acc → scc2_test_mutex (k_dev s) = false →
  let d := scm2 (k_dev s) in
  (∀ ret part_no virt phys d', scc_allocate_partition (pa_smid acc) d = ((ret, Some (part_no, virt, phys)), d') →
     answers s a (SccPartition virt (pa_smid acc) part_no phys ret) (set_scm2 d' (k_dev s))
       (scc2_test_ioctl SCC2_TEST_ALLOC_PART a s)) ∧
  (∀ ret d', scc_allocate_partition (pa_smid acc) d = ((ret, None), d') →
     answers s a (set_part_status ret acc) (set_scm2 d' (k_dev s)) (scc2_test_ioctl SCC2_TEST_ALLOC_PART a s)) ∧
  (∀ umid ret d',
     match umid with
     | None => pa_umid acc = 0
     | Some bs => pa_umid acc ≠ 0 ∧ zlen bs = 16 ∧ user_at (k_user s) (pa_umid acc) bs
     end →
     scc_engage_partition (pa_virt_address acc) umid (pa_permissions acc) d = (ret, d') →
     answers s a (set_part_status ret acc) (set_scm2 d' (k_dev s)) (scc2_test_ioctl SCC2_TEST_ENGAGE_PART a s)) ∧
  (pa_umid acc ≠ 0 → unreadable (k_user s) (pa_umid acc) 16 →
     ∃ k, scc2_test_ioctl SCC2_TEST_ENGAGE_PART a s = Done (k, s) ∧ 0 < k) ∧
  (∀ ret d', scc_release_partition (pa_virt_address acc) d = (ret, d') →
     answers s a (set_part_status ret acc) (set_scm2 d' (k_dev s)) (scc2_test_ioctl SCC2_TEST_RELEASE_PART a s)).
Proof.
  intros Hq Hm d. assert (Hql : request_at (locked s) a acc) by exact Hq. pose proof Hql as (Hr & Hu & Hw).
  destruct (scc2_dispatch_eq a (locked s)) as (_ & _ & Ea & Ee & _ & _ & _ & _ & Er & _).
  split_and!.
  - intros ret pn v ph d' E. apply scc2_answers; [done|]. rewrite Ea.
    by eapply (transact_ok a (λ x, on_scm (scc_allocate_partition (pa_smid x))) _ acc _ _ _ _ Hql
      (on_scm2_ok _ (locked s) _ _ E)).
  - intros ret d' E. apply scc2_answers; [done|]. rewrite Ea.
    by eapply (transact_ok a (λ x, on_scm (scc_allocate_partition (pa_smid x))) _ acc _ _ _ _ Hql
      (on_scm2_ok _ (locked s) _ _ E)).
  - intros umid ret d' Hum E. apply scc2_answers; [done|]. rewrite Ee. unfold scc2_test_engage_part.
    mstep (get_struct_all a acc (locked s) Hr Hu). cbv beta iota. cbn [Z.eqb].
    assert (EU : (if negb (pa_umid acc =? 0) then '(bs, k) ← from_user (pa_umid acc) 16; mret (Some bs, k)
      else mret (None, 0)) (locked s) = Done ((umid, 0), locked s)).
    { destruct umid as [bs|].
      - destruct Hum as (Hn & Hl & Hbs). rewrite (proj2 (Z.eqb_neq _ 0) Hn). cbn [negb]. rewrite M_bind_eq.
        unfold from_user. cbn [k_user locked set_dev]. rewrite <- Hl, copy_from_user_all by done. done.
      - by rewrite Hum. }
    mstep EU. cbv beta iota. cbn [Z.eqb]. erewrite M_bind_done; [|apply on_scm2_ok; exact E]. by apply put_answers.
  - intros Hn Hbad. destruct (copy_from_user (k_user s) (pa_umid acc) 16) as [bs k] eqn:EC.
    pose proof (copy_from_user_fault _ _ 16 _ _ ltac:(lia) Hbad EC) as Hk. exists k. split; [|done].
    erewrite scc2_ioctl_done; [|done|rewrite Ee; unfold scc2_test_engage_part;
      mstep (get_struct_all a acc (locked s) Hr Hu); cbv beta iota; cbn [Z.eqb];
      rewrite (proj2 (Z.eqb_neq _ 0) Hn); cbn [negb];
      rewrite M_bind_eq, M_bind_eq; unfold from_user; cbn [k_user locked set_dev]; rewrite EC; cbn [obind mret M_ret];
      rewrite (proj2 (Z.eqb_neq k 0)) by lia; reflexivity].
    do 2 f_equal. destruct s as [? ? ? []]. cbn in *. by subst.
  - intros ret d' E. apply scc2_answers; [done|]. rewrite Er.
    by eapply (transact_ok a (λ x, on_scm (scc_release_partition (pa_virt_address x))) _ acc _ _ _ _ Hql
      (on_scm2_ok _ (locked s) _ _ E)).
Qed.
(** ** Encryption and decryption *)

(** The two words of the vector the driver gets are the 64 bits of the request. *)
Lemma build_iv_words acc : in_range acc →
  ∃ lo hi, build_iv acc = [lo; hi; 0; 0] ∧ 0 ≤ lo < 2 ^ 32 ∧ 0 ≤ hi < 2 ^ 32 ∧ pc_iv acc = lo + 2 ^ 32 * hi.
Proof.
  intros Hr. do 4 apply Forall2_cons in Hr as [_ Hr]. apply Forall2_cons in Hr as [Hr _].
  unfold ct_range, ct_bits in Hr. cbn in Hr. eexists _, _. split; [reflexivity|].
  rewrite Z.shiftr_div_pow2 by lia. unfold u32. change (2 ^ 32) with 4294967296. dlia.
Qed.

(** One request through its buffer: [f] is the encryption or the decryption. *)
Lemma encrypt_part_ok cmd a acc s buf acc' u d :
  request_at s a acc → heap_ok s → kmalloc_answer (k_count s) (pc_size_bytes acc) = Some buf →
  writable_at u a (sizeof scc_part_cipher_access) →
  (∀ s1, k_user s1 = k_user s → k_dev s1 = k_dev s → with_black (k_heap s) (k_count s) (pc_size_bytes acc) s1 →
     ∃ s2, (if cmd =? SCC2_TEST_ENCRYPT_PART then do_encrypt_part acc (k_count s) else do_decrypt_part acc (k_count s)) s1 =
         Done ((0, acc'), s2) ∧ with_black (k_heap s) (k_count s) (pc_size_bytes acc) s2 ∧
       k_user s2 = u ∧ k_dev s2 = d) →
  ∃ s', scc2_test_encrypt_part cmd a s = Done (0, s') ∧ k_heap s' = k_heap s ∧ k_dev s' = d ∧
    user_at (k_user s') a (encode acc') ∧ user_frame u (k_user s') a (sizeof scc_part_cipher_access).
Proof.
  intros (Hr & Hu & _) Hh A1 Hw Hf. pose proof (size_bytes_range acc Hr) as [Hn _].
  pose proof (kmalloc_size _ _ _ Hn A1) as [Hl _].
  unfold scc2_test_encrypt_part, dma_alloc_coherent, dma_free_coherent.
  mstep (get_struct_all a acc s Hr Hu). cbv beta iota. cbn [Z.eqb].
  erewrite M_bind_done; [|by apply kmalloc_some].
  match goal with |- context [(_ ≫= _) ?s0 = _] => set (s1 := s0) end.
  destruct (Hf s1) as (s2 & E2 & (Hf0 & l & El & _) & Hu2 & Hd2); [done..| |].
  { split; [by apply heap_ok_fresh|]. by exists buf. }
  rewrite M_bind_eq. mstep E2. mstep (kfree_ok (k_count s) s2 l); [|by rewrite El, lookup_insert_eq].
  cbn [mret M_ret obind Z.eqb]. set (s3 := set_heap _ s2).
  destruct (put_struct_all a acc' s3) as (u3 & E3 & Hu3 & Hf3); [cbn; by rewrite Hu2|].
  exists (set_user u3 s3). split; [exact E3|]. cbn. rewrite El, delete_insert_id by done.
  cbn in Hf3. rewrite Hu2 in Hf3. by split_and!.
Qed.

(** Decryption undoes encryption with the same vector: whenever the controller
    says that it has decrypted what it once encrypted, the region holds what it
    held then.  Nothing is asked of a decryption that is refused. *)
Definition region_inverse (v o n : Z) (iv : list Z) : Prop := ∀ (d : D) p out (d1 d' d2 : D),
  part_read (u32 (v + o)) n d = Some p →
  scc_encrypt_region v o n iv SCC_CYPHER_MODE_CBC d = ((SCC_RET_OK, out), d1) →
  scc_decrypt_region v o n out iv SCC_CYPHER_MODE_CBC d' = (SCC_RET_OK, d2) →
  part_read (u32 (v + o)) n d2 = Some p.

Lemma encrypt_ioctl_ok a e s out d buf :
  request_at s a e → scc2_test_mutex (k_dev s) = false → heap_ok s →
  kmalloc_answer (k_count s) (pc_size_bytes e) = Some buf →
  scc_encrypt_region (pc_virt_address e) (pc_red_offset e) (pc_size_bytes e) (build_iv e) SCC_CYPHER_MODE_CBC
    (scm2 (k_dev s)) = ((SCC_RET_OK, out), d) →
  writable_at (k_user s) (pc_black_address e) (pc_size_bytes e) →
  apart (pc_black_address e) (pc_size_bytes e) a (sizeof scc_part_cipher_access) →
  ∃ s1, scc2_test_ioctl SCC2_TEST_ENCRYPT_PART a s = Done (0, s1) ∧
    user_at (k_user s1) (pc_black_address e) out ∧
    user_at (k_user s1) a (encode (set_cipher_status SCC_RET_OK e)) ∧
    user_frame2 (k_user s) (k_user s1) (pc_black_address e) (pc_size_bytes e) a (sizeof scc_part_cipher_access) ∧
    k_dev s1 = set_scm2 d (k_dev s) ∧ k_heap s1 = k_heap s.
Proof.
  intros Hq Hm Hh A1 E1 Hwb Hap. pose proof Hq as (Hr & Hu & Hw). pose proof (size_bytes_range e Hr) as [Hn _].
  destruct (encrypt_region_bytes _ _ _ _ _ _ _ _ _ Hn E1) as (Hb & Hout & Hok). specialize (Hok eq_refl).
  destruct (copy_to_user_all (k_user s) (pc_black_address e) out Hb) as (u & EU & Hub & Hfb); [by rewrite Hok|].
  destruct (encrypt_part_ok SCC2_TEST_ENCRYPT_PART a e (locked s) buf (set_cipher_status SCC_RET_OK e) u
    (set_scm2 d (k_dev (locked s)))) as (s2 & E2 & Hh2 & Hd2 & Hu2 & Hf2); [done..|by eapply writable_frame| |].
  { intros s1 Hu1 Hd1 Hb1. rewrite Z.eqb_refl. unfold do_encrypt_part.
    erewrite M_bind_done; [|apply on_scm2_ok; rewrite Hd1; exact E1]. cbv beta iota.
    destruct (black_stored _ _ _ (set_dev (set_scm2 d (k_dev s1)) s1) out Hb1) as (s2 & E2 & Hb2 & Hu2 & _ & Hd2 & Hall); [lia|].
    mstep E2. specialize (Hall Hok).
    assert (EL : load_block (k_count (locked s)) 0 (pc_size_bytes e) s2 = Done (out, s2)).
    { unfold load_block. rewrite Hall, lookup_insert_eq. cbn. by rewrite <- Hok, slice_all. }
    mstep EL. rewrite M_bind_eq. unfold to_user. rewrite Hu2. cbn [k_user set_dev]. rewrite Hu1.
    cbn [k_user locked set_dev]. rewrite EU. cbn [obind]. eexists. split; [reflexivity|].
    split; [exact Hb2|]. split; [done|]. cbn. rewrite Hd2. cbn. by rewrite Hd1. }
  destruct (scc2_dispatch_eq a (locked s)) as (_ & _ & _ & _ & Ed & _).
  eexists. split; [eapply scc2_ioctl_done; [done|by rewrite Ed]|]. cbn. rewrite Hd2. split_and!.
  - refine (user_at_frame _ _ _ _ _ _ Hf2 _ Hub). unfold apart in Hap. rewrite Hok. tauto.
  - done.
  - rewrite Hok in Hfb. exact (user_frame_both _ _ _ _ _ _ _ Hfb Hf2).
  - destruct s as [? ? ? []]. cbn in *. by subst.
  - done.
Qed.

Lemma decrypt_ioctl_ok a f s out ret d buf :
  request_at s a f → scc2_test_mutex (k_dev s) = false → heap_ok s →
  kmalloc_answer (k_count s) (pc_size_bytes f) = Some buf →
  user_at (k_user s) (pc_black_address f) out → zlen out = pc_size_bytes f →
  scc_decrypt_region (pc_virt_address f) (pc_red_offset f) (pc_size_bytes f) out (build_iv f) SCC_CYPHER_MODE_CBC
    (scm2 (k_dev s)) = (ret, d) →
  ∃ s1, scc2_test_ioctl SCC2_TEST_DECRYPT_PART a s = Done (0, s1) ∧
    user_at (k_user s1) a (encode (set_cipher_status ret f)) ∧
    user_frame (k_user s) (k_user s1) a (sizeof scc_part_cipher_access) ∧
    k_dev s1 = set_scm2 d (k_dev s) ∧ k_heap s1 = k_heap s.
Proof.
  intros Hq Hm Hh A1 Hout Hlen E1. pose proof Hq as (Hr & Hu & Hw). pose proof (size_bytes_range f Hr) as [Hn _].
  destruct (scc2_dispatch_eq a (locked s)) as (_ & _ & _ & _ & _ & Ed & _ & _ & _ & Hne).
  destruct (encrypt_part_ok SCC2_TEST_DECRYPT_PART a f (locked s) buf (set_cipher_status ret f) (k_user s)
    (set_scm2 d (k_dev (locked s)))) as (s2 & E2 & Hh2 & Hd2 & Hu2 & Hf2); [done..| |].
  { intros s1 Hu1 Hd1 Hb1. rewrite (proj2 (Z.eqb_neq _ _) Hne). unfold do_decrypt_part.
    assert (EF : from_user (pc_black_address f) (pc_size_bytes f) s1 = Done ((out, 0), s1)).
    { unfold from_user. rewrite Hu1. cbn [k_user locked set_dev]. by rewrite <- Hlen, copy_from_user_all. }
    mstep EF. cbv beta iota.
    destruct (black_stored _ _ _ s1 out Hb1) as (s2 & E2 & Hb2 & Hu2 & _ & Hd2 & Hall); [lia|].
    mstep E2. specialize (Hall Hlen). cbn [Z.eqb].
    assert (EL : load_block (k_count (locked s)) 0 (pc_size_bytes f) s2 = Done (out, s2)).
    { unfold load_block. rewrite Hall, lookup_insert_eq. cbn. by rewrite <- Hlen, slice_all. }
    mstep EL. erewrite M_bind_done; [|apply on_scm2_ok; rewrite Hd2, Hd1; exact E1].
    eexists. split; [reflexivity|]. split; [exact Hb2|]. cbn. by rewrite Hu2, Hu1, Hd2, Hd1. }
  eexists. split; [eapply scc2_ioctl_done; [done|by rewrite Ed]|]. cbn. rewrite Hd2. split_and!; try done.
  destruct s as [? ? ? []]. cbn in *. by subst.
Qed.

(** C7: ENCRYPT_PART seals a region of a partition into the process's memory and
    DECRYPT_PART brings it back.  What the first puts at the black address is the
    driver's encryption.  From any later state in which the process still has
    these bytes and the mutex is free, a request with the same place, size and
    vector returns 0 with the driver's answer, whatever it is, in the request,
    and when the driver says that it has decrypted, the region is as it was
    sealed.  Nothing of the process changes but the request and the sealed bytes,
    nothing of the driver's state but the controller.  Both are for requests for which kmalloc gives the buffer, with the
    process's addresses readable and writable, and with a driver whose successful
    decryption undoes its encryption. *)
Theorem scc2_part_roundtrip a e s p out d buf :
  region_inverse (pc_virt_address e) (pc_red_offset e) (pc_size_bytes e) (build_iv e) →
  request_at s a e → scc2_test_mutex (k_dev s) = false → heap_ok s →
  kmalloc_answer (k_count s) (pc_size_bytes e) = Some buf →
  part_read (region_place e) (pc_size_bytes e) (scm2 (k_dev s)) = Some p →
  scc_encrypt_region (pc_virt_address e) (pc_red_offset e) (pc_size_bytes e) (build_iv e) SCC_CYPHER_MODE_CBC
    (scm2 (k_dev s)) = ((SCC_RET_OK, out), d) →
  writable_at (k_user s) (pc_black_address e) (pc_size_bytes e) →
  apart (pc_black_address e) (pc_size_bytes e) a (sizeof scc_part_cipher_access) →
  (∃ s1, scc2_test_ioctl SCC2_TEST_ENCRYPT_PART a s = Done (0, s1) ∧
    user_at (k_user s1) (pc_black_address e) out ∧
    user_at (k_user s1) a (encode (set_cipher_status SCC_RET_OK e)) ∧
    user_frame2 (k_user s) (k_user s1) (pc_black_address e) (pc_size_bytes e) a (sizeof scc_part_cipher_access) ∧
    k_dev s1 = set_scm2 d (k_dev s) ∧ k_heap s1 = k_heap s) ∧
  (∀ b f (t : KS) buf' ret d', request_at t b f → scc2_test_mutex (k_dev t) = false → heap_ok t →
    kmalloc_answer (k_count t) (pc_size_bytes f) = Some buf' →
    pc_virt_address f = pc_virt_address e → pc_red_offset f = pc_red_offset e →
    pc_size_bytes f = pc_size_bytes e → pc_iv f = pc_iv e →
    user_at (k_user t) (pc_black_address f) out →
    scc_decrypt_region (pc_virt_address e) (pc_red_offset e) (pc_size_bytes e) out (build_iv e) SCC_CYPHER_MODE_CBC
      (scm2 (k_dev t)) = (ret, d') →
    ∃ t1, scc2_test_ioctl SCC2_TEST_DECRYPT_PART b t = Done (0, t1) ∧
      (ret = SCC_RET_OK → part_read (region_place e) (pc_size_bytes e) (scm2 (k_dev t1)) = Some p) ∧
      user_at (k_user t1) b (encode (set_cipher_status ret f)) ∧
      user_frame (k_user t) (k_user t1) b (sizeof scc_part_cipher_access) ∧
      k_dev t1 = set_scm2 d' (k_dev t) ∧ k_heap t1 = k_heap t).
Proof.
  intros Hinv Hq Hm Hh A1 Hp E1 Hw Hap. pose proof Hq as (Hr & _). pose proof (size_bytes_range e Hr) as [Hn _].
  split; [by eapply encrypt_ioctl_ok|].
  intros b f t buf' ret d' Hqf Hmt Hht A2 Ev Eo En Ei Hout E2.
  destruct (encrypt_region_bytes _ _ _ _ _ _ _ _ _ Hn E1) as (_ & _ & Hok). specialize (Hok eq_refl).
  assert (Eiv : build_iv f = build_iv e) by (unfold build_iv; by rewrite Ei).
  destruct (decrypt_ioctl_ok b f t out ret d' buf') as (t1 & E & Hu & Hfr & Hd & Hheap); try done.
  - by rewrite En.
  - by rewrite Ev, Eo, En, Eiv.
  - exists t1. split; [done|]. rewrite Hd. split; [|done]. intros ->. exact (Hinv _ _ _ _ _ _ Hp E1 E2).
Qed.

(** C26: LOAD_PART puts the process's bytes into the partition, and READ_PART
    brings the same bytes back, wherever in the process the second request wants
    them and for as long as the place reads as they do, whatever else the
    controller went through; both requests are only read, and the status in them
    is not written. *)
Theorem scc2_load_read a e s bs d :
  in_range e → user_at (k_user s) a (encode e) → scc2_test_mutex (k_dev s) = false →
  user_at (k_user s) (pc_black_address e) bs → zlen bs = pc_size_bytes e →
  part_write (region_place e) bs (scm2 (k_dev s)) = Some d →
  scc2_test_ioctl SCC2_TEST_LOAD_PART a s = Done (0, set_dev (set_scm2 d (k_dev s)) s) ∧
  part_read (region_place e) (pc_size_bytes e) d = Some bs ∧
  (∀ b f (t : KS), in_range f → user_at (k_user t) b (encode f) → scc2_test_mutex (k_dev t) = false →
    part_read (region_place e) (pc_size_bytes e) (scm2 (k_dev t)) = Some bs →
    region_place f = region_place e → pc_size_bytes f = pc_size_bytes e →
    writable_at (k_user t) (pc_black_address f) (pc_size_bytes f) →
    ∃ u, scc2_test_ioctl SCC2_TEST_READ_PART b t = Done (0, set_user u t) ∧
      user_at u (pc_black_address f) bs ∧ user_frame (k_user t) u (pc_black_address f) (pc_size_bytes f)).
Proof.
  intros Hr Hu Hm Hbs Hlen EW. pose proof (user_at_bytes _ _ _ Hbs) as Hb. split; [|split].
  - destruct (scc2_dispatch_eq a (locked s)) as (_ & _ & _ & _ & _ & _ & Ed & _).
    erewrite scc2_ioctl_done; [|done|rewrite Ed; unfold scc2_test_load_data].
    2: { mstep (get_struct_all a e (locked s) Hr Hu). cbv beta iota. cbn [Z.eqb]. rewrite M_bind_eq.
      unfold from_user. cbn [k_user locked set_dev]. rewrite <- Hlen, copy_from_user_all by done. cbn [obind].
      erewrite M_bind_done; [|reflexivity]. fold (region_place e).
      change (scm2 (k_dev (locked s))) with (scm2 (k_dev s)). rewrite EW. reflexivity. }
    do 2 f_equal. destruct s as [? ? ? []]. cbn in *. by subst.
  - rewrite <- Hlen. exact (part_read_write _ _ _ _ Hb EW).
  - intros b f t Hrf Huf Hmt Hd Hp Hn Hw. destruct (scc2_dispatch_eq b (locked t)) as (_ & _ & _ & _ & _ & _ & _ & Ed & _).
    rewrite <- Hlen in Hn, Hd. rewrite Hn in *.
    destruct (copy_to_user_all (k_user t) (pc_black_address f) bs Hb Hw) as (u & EU & Hub & Hfr). exists u.
    split; [|done]. erewrite scc2_ioctl_done; [|done|rewrite Ed; unfold scc2_test_read_data].
    2: { mstep (get_struct_all b f (locked t) Hrf Huf). cbv beta iota. cbn [Z.eqb].
      erewrite M_bind_done; [|reflexivity]. fold (region_place f). rewrite Hp, Hn.
      change (scm2 (k_dev (locked t))) with (scm2 (k_dev t)). rewrite Hd.
      erewrite M_bind_done; [|reflexivity]. unfold to_user. cbn [k_user locked set_dev]. rewrite EU. reflexivity. }
    do 2 f_equal. destruct t as [? ? ? []]. cbn in *. by subst.
Qed.

(** ** Loading and unloading *)

Definition majors s : gset Z := os_majors (scc2_reg_handle (k_dev s)).
Definition entry s : os_fn → option scc2_entry := os_entry (scc2_reg_handle (k_dev s)).

Lemma scc2_on_reg_handle_ok {A} (f : R → A * R) s a r :
  f (scc2_reg_handle (k_dev s)) = (a, r) → on_reg_handle f s = Done (a, set_dev (set_reg_handle r (k_dev s)) s).
Proof. unfold on_reg_handle, dev. by intros ->. Qed.
Lemma scc2_reg_handle_do_ok (f : R → R) s :
  reg_handle_do f s = Done (tt, set_dev (set_reg_handle (f (scc2_reg_handle (k_dev s))) (k_dev s)) s).
Proof. done. Qed.

(** What the registration does. *)
Lemma scc2_setup_ok s :
  ∃ r s', setup_user_driver_interaction s = Done (r, s') ∧ scc2_test_mutex (k_dev s') = scc2_test_mutex (k_dev s) ∧
    (r ≠ 0 → majors s' = majors s) ∧
    (r = 0 → entry s' OS_FN_OPEN = Some scc2_test_open_ref ∧ entry s' OS_FN_IOCTL = Some scc2_test_ioctl_ref ∧
       entry s' OS_FN_CLOSE = Some scc2_test_release_ref ∧
       let m := os_driver_get_major (scc2_reg_handle (k_dev s')) in
       m ∉ majors s ∧ majors s' = {[m]} ∪ majors s ∧
         (scc2_test_major_node (k_dev s) ≠ 0 → m = scc2_test_major_node (k_dev s))).
Proof.
  unfold setup_user_driver_interaction. erewrite M_bind_done; [|reflexivity]. do 4 mstep scc2_reg_handle_do_ok.
  match goal with |- context [(on_reg_handle _ ≫= _) ?s0] => set (s1 := s0) end.
  destruct (os_driver_complete_registration (scc2_reg_handle (k_dev s1)) (scc2_test_major_node (k_dev s))) as [c r] eqn:E.
  destruct (complete_spec _ _ _ _ E) as (He & Hbad & Hok).
  assert (Hm : os_majors (scc2_reg_handle (k_dev s1)) = majors s)
    by (unfold s1, majors; cbn; by rewrite !add_majors, init_majors).
  rewrite Hm in *. erewrite M_bind_done; [|apply scc2_on_reg_handle_ok; exact E]. rewrite os_ok.
  destruct (Z.eqb_spec c 0) as [->|Hc]; cbn [negb].
  - destruct (Hok eq_refl) as (Hmaj & Hnew & Hpos & Hsame).
    assert (EM : ∀ x : KS, scc2_test_major_node (k_dev x) = scc2_test_major_node (k_dev s) →
      (_ ← (if scc2_test_major_node (k_dev s) =? 0 then on_statics (set_major 0) else mret tt); mret 0) x = Done (0, x)).
    { intros x Hx. destruct (Z.eqb_spec (scc2_test_major_node (k_dev s)) 0) as [E0|]; [|done].
      rewrite M_bind_eq. cbn. unfold set_major, set_dev. rewrite <- E0, <- Hx. destruct x as [? ? ? []]. done. }
    rewrite EM by done. eexists 0, _. split; [done|]. split; [done|]. split; [done|]. intros _.
    unfold entry, majors at 2. cbn. rewrite !He. unfold s1. cbn. rewrite !add_entry, !init_entry.
    split_and!; [by vm_compute..|done|exact Hmaj|done].
  - eexists c, _. split; [done|]. split; [done|]. split; [|done]. intros _. by apply Hbad.
Qed.

(** Loading the SCC2 test driver registers open, ioctl and close on one more
    major, the one of the static when that is set, and unloading gives back
    exactly this major, also one chosen by the kernel; when the status cannot be
    read or the registration fails, no major is gained.  The mutex stays free. *)
Theorem scc2_init_cleanup s :
  ∃ r s', scc2_test_init s = Done (r, s') ∧ scc2_test_mutex (k_dev s') = scc2_test_mutex (k_dev s) ∧
    (r ≠ 0 → majors s' ⊆ majors s) ∧
    (r = 0 →
       (∃ m, m ∉ majors s ∧ majors s' = {[m]} ∪ majors s ∧
          (scc2_test_major_node (k_dev s) ≠ 0 → m = scc2_test_major_node (k_dev s))) ∧
       entry s' OS_FN_OPEN = Some scc2_test_open_ref ∧ entry s' OS_FN_IOCTL = Some scc2_test_ioctl_ref ∧
       entry s' OS_FN_CLOSE = Some scc2_test_release_ref ∧
       ∃ s'', scc2_test_cleanup s' = Done (tt, s'') ∧ majors s'' = majors s).
Proof.
  unfold scc2_test_init.
  destruct (scc_get_configuration (scm2 (k_dev s))) as [cfg d1] eqn:E1.
  erewrite M_bind_done; [|apply on_scm2_ok; exact E1]. erewrite M_bind_done; [|reflexivity].
  match goal with |- context [(on_scm _ ≫= _) ?s0] => set (s1 := s0) end.
  destruct (scc_read_register SMN_STATUS_REG (scm2 (k_dev s1))) as [[ret v] d2] eqn:E2.
  erewrite M_bind_done; [|apply on_scm2_ok; exact E2]. cbv beta iota.
  set (s2 := set_dev (set_scm2 d2 (k_dev s1)) s1).
  assert (Hclean : ∀ x : KS, ∃ x', scc2_test_cleanup x = Done (tt, x') ∧
    scc2_test_mutex (k_dev x') = scc2_test_mutex (k_dev x) ∧
    majors x' = majors x ∖ {[os_driver_get_major (scc2_reg_handle (k_dev x))]}).
  { intros x. unfold scc2_test_cleanup. destruct (os_driver_remove_registration (scc2_reg_handle (k_dev x))) as [c r] eqn:E.
    erewrite M_bind_done; [|apply scc2_on_reg_handle_ok; exact E]. eexists. split; [reflexivity|].
    split; [done|]. by apply remove_spec in E. }
  assert (Hsetup : ∃ r s3, (if ret =? 0 then setup_user_driver_interaction else mret ret) s2 = Done (r, s3) ∧
    scc2_test_mutex (k_dev s3) = scc2_test_mutex (k_dev s2) ∧ (r ≠ 0 → majors s3 = majors s2) ∧
    (r = 0 → setup_user_driver_interaction s2 = Done (r, s3))).
  { destruct (Z.eqb_spec ret 0) as [->|Hret].
    - destruct (scc2_setup_ok s2) as (r & s3 & E3 & Hm & Hbad & _). by exists r, s3.
    - by exists ret, s2. }
  destruct Hsetup as (r & s3 & E3 & Hm3 & Hbad & Hgood). mstep E3. erewrite M_bind_done; [|reflexivity].
  match goal with |- context [(_ ≫= _) ?s0 = _] => set (s4 := s0) end.
  destruct (Z.eqb_spec r 0) as [->|Hr]; cbn [negb].
  - exists 0, s4. split; [done|]. split; [exact Hm3|]. split; [done|]. intros _.
    destruct (scc2_setup_ok s2) as (r' & s3' & E3' & _ & _ & Hok). rewrite (Hgood eq_refl) in E3'.
    injection E3' as <- <-. destruct (Hok eq_refl) as (He1 & He2 & He3 & Hnew & Hmaj & Hsame).
    split; [by eexists|]. split_and!; [done..|]. destruct (Hclean s4) as (x & Ex & _ & Hx). exists x.
    split; [done|]. rewrite Hx. change (majors s4) with (majors s3). rewrite Hmaj.
    change (majors s2) with (majors s) in *.
    change (scc2_reg_handle (k_dev s4)) with (scc2_reg_handle (k_dev s3)). set_solver.
  - destruct (Hclean s4) as (x & Ex & Hmx & Hx). mstep Ex. exists r, x. split; [done|].
    split; [rewrite Hmx; exact Hm3|]. split; [|done]. intros _. rewrite Hx. change (majors s4) with (majors s3).
    rewrite (Hbad Hr). change (majors s2) with (majors s). set_solver.
Qed.
End scc2_proofs.

(** ** An example: an SCC2 whose secure memory is a finite map *)

#[export] Program Instance scc2_api_example : Scc2Api := {
  SCC_RET_OK := 0; SMN_STATUS_REG := 4096; SCC_CYPHER_MODE_CBC := 1
}.
Next Obligation. done. Qed.

Record scm2_hw := Scm2Hw {
  hw_regs : gmap Z Z;
  hw_ram : gmap Z Z;
  hw_engaged : gmap Z (option (list Z) * Z);
  hw_monitored : bool
}.

Definition set_ram m (d : scm2_hw) : scm2_hw := Scm2Hw (hw_regs d) m (hw_engaged d) (hw_monitored d).
Definition hw_reg (d : scm2_hw) (o : Z) : option Z := hw_regs d !! o.
Definition hw_read (v n : Z) (d : scm2_hw) : option (list Z) := flat_read (hw_ram d) v n.

(** Partition 3 has 16 bytes at 8192. *)
#[export] Program Instance scc2_example : Scc2 scm2_hw := {
  scc_get_configuration (d : scm2_hw) := (replicate 28 0, d);
  scc_read_register o (d : scm2_hw) := (match hw_reg d o with Some v => (0, Some v) | None => (1, None) end, d);
  scc_write_register o v (d : scm2_hw) := (0, Scm2Hw (<[o := v]> (hw_regs d)) (hw_ram d) (hw_engaged d) (hw_monitored d));
  scc_set_sw_alarm (d : scm2_hw) := d;
  scc_monitor_security_failure (d : scm2_hw) := Scm2Hw (hw_regs d) (hw_ram d) (hw_engaged d) true;
  scc_allocate_partition smid (d : scm2_hw) :=
    ((0, Some (3, 8192, 268435456)), set_ram (flat_write (hw_ram d) 8192 (replicate 16 0)) d);
  scc_engage_partition v umid perm (d : scm2_hw) :=
    (0, Scm2Hw (hw_regs d) (hw_ram d) (<[v := (umid, perm)]> (hw_engaged d)) (hw_monitored d));
  scc_release_partition v (d : scm2_hw) := (0, Scm2Hw (hw_regs d) ∅ (delete v (hw_engaged d)) (hw_monitored d));
  scc_encrypt_region v o n iv mode (d : scm2_hw) :=
    (match hw_read (u32 (v + o)) n d with Some p => (0, xor_bytes p) | None => (1, []) end, d);
  scc_decrypt_region v o n out iv mode (d : scm2_hw) :=
    match hw_read (u32 (v + o)) n d with
    | Some _ => (0, set_ram (flat_write (hw_ram d) (u32 (v + o)) (xor_bytes out)) d)
    | None => (1, d)
    end;
  part_read v n (d : scm2_hw) := hw_read v n d;
  part_write v bs (d : scm2_hw) :=
    match hw_read v (zlen bs) d with
    | Some _ => Some (set_ram (flat_write (hw_ram d) v bs) d)
    | None => None
    end
}.
Next Obligation. intros d bs d' [= <- <-]. by repeat constructor. Qed.
Next Obligation.
  intros v o n iv mode d r out d' Hn. cbn. unfold hw_read. destruct (flat_read _ _ _) as [p|] eqn:E; intros [= <- <- <-].
  - destruct (flat_read_Some _ _ _ _ Hn E) as [Hl _]. rewrite zlen_xor. split_and!; [apply bytes_xor|lia|lia].
  - change (zlen []) with 0. split_and!; [constructor|lia|discriminate].
Qed.
Next Obligation.
  intros v n d bs Hn Hr. split; [exact (flat_read_bytes _ _ _ _ Hr)|]. by apply (flat_read_Some _ _ _ _ Hn Hr).
Qed.
Next Obligation.
  intros v bs d d' Hb. cbn. destruct (hw_read v (zlen bs) d); intros [= <-]. by apply flat_read_write.
Qed.

Lemma xor_region v o n iv : 0 ≤ n → region_inverse (D := scm2_hw) v o n iv.
Proof.
  intros Hn d p out d1 d' d2 Hp. cbn. cbn in Hp. rewrite Hp. intros [= <- <-].
  destruct (hw_read _ _ d'); intros [= <-]. rewrite xor_bytes_twice by (by eapply flat_read_bytes).
  unfold hw_read. cbn. destruct (flat_read_Some _ _ _ _ Hn Hp) as [<- _].
  apply flat_read_write. by eapply flat_read_bytes.
Qed.

Definition scc2_state : Type := kstate (gmap Z Z) (scc2 (os_handle scc2_entry) scm2_hw).

Definition scc2_hw0 : scm2_hw :=
  Scm2Hw {[4096 := 3]} (flat_write ∅ 8192 [104; 111; 109; 101; 0; 0; 0; 0; 0; 0; 0; 0; 0; 0; 0; 0]) ∅ false.
Definition scc2_machine (u : gmap Z Z) : scc2_state :=
  KState u ∅ 0 (Scc2State 0 (OsHandle (λ _, None) 0 ∅) [] false scc2_hw0).

Lemma scc2_machine_heap u : heap_ok (scc2_machine u).
Proof. intros b l Hb. cbn in Hb. by rewrite lookup_empty in Hb. Qed.

(** A request at 100, with room for four bytes at 32. *)
Definition scc2_asks {A} `{CStruct A} (bs : list Z) (x : A) : scc2_state :=
  scc2_machine (flat_write (flat_write ∅ 32 bs) 100 (encode x)).

Lemma scc2_asks_at {A} `{CStruct A} bs (x : A) : in_range x → request_at (scc2_asks bs x) 100 x.
Proof.
  intros Hr. split; [done|]. split.
  - apply flat_user_at, bytes_encode.
  - rewrite <- (zlen_encode x). apply flat_writable_at.
Qed.
Lemma scc2_asks_data {A} `{CStruct A} bs (x : A) :
  bytes bs → 32 + zlen bs ≤ 100 → user_at (k_user (scc2_asks bs x)) 32 bs.
Proof. intros Hb Hl. apply flat_user_other; [by right|]. by apply flat_user_at. Qed.
Lemma scc2_asks_room {A} `{CStruct A} bs (x : A) : writable_at (k_user (scc2_asks bs x)) 32 (zlen bs).
Proof. apply flat_writable_other, flat_writable_at. Qed.

(** The first four bytes of the partition, sealed at 32. *)
Definition seal_request : scc_part_cipher_access := SccPartCipher 8192 0 32 4 7 (-1) 0.

(** The region of the request is mapped. *)
Lemma seal_request_mapped bs : region_mapped 100 (scc2_asks bs seal_request).
Proof.
  intros acc Hr Hu. assert (Hq : request_at (scc2_asks bs seal_request) 100 seal_request)
    by (apply scc2_asks_at; by repeat constructor).
  assert (acc = seal_request) as ->.
  { destruct Hq as (Hrs & Hus & _). rewrite <- (decode_encode acc), <- (decode_encode seal_request) by done.
    f_equal. apply (user_at_inj (k_user (scc2_asks bs seal_request)) 100); [by rewrite !zlen_encode|done|done]. }
  assert (E : hw_read (region_place seal_request) 4 scc2_hw0 = Some [104; 111; 109; 101]) by by vm_compute.
  split; [by exists [104; 111; 109; 101]|]. intros ks _ Hl. change (pc_size_bytes seal_request) with 4 in Hl.
  change (scm2 (k_dev (scc2_asks bs seal_request))) with scc2_hw0. cbn [part_write scc2_example].
  rewrite Hl, E. by eexists.
Qed.

(** The request is served, and the buffer is gone. *)
Lemma scc2_ioctl_safe_witness :
  let s0 := scc2_asks [1; 2; 3; 4] seal_request in
  heap_ok s0 ∧ ∃ r s', scc2_test_ioctl SCC2_TEST_READ_PART 100 s0 = Done (r, s') ∧ k_heap s' = ∅ ∧
    scc2_test_mutex (k_dev s') = false.
Proof.
  intros s0. split; [apply scc2_machine_heap|].
  assert (Hr : rtc scc2_step s0 (set_user (k_user s0) s0)) by apply rtc_once, step_process.
  destruct (scc2_ioctl_safe s0 (set_user (k_user s0) s0) (scc2_machine_heap _) eq_refl Hr) as (_ & _ & Hall).
  destruct (Hall SCC2_TEST_READ_PART 100 (λ _, seal_request_mapped [1; 2; 3; 4])) as (r & s' & E & Hm & Hh).
  exists r, s'. split; [exact E|]. split; [exact Hh|exact Hm].
Defined.

Lemma scc2_partition_ioctls_witness :
  let acc := SccPartition 8192 0 7 0 (-1) in
  request_at (scc2_asks [] acc) 100 acc ∧
  answers (scc2_asks [] acc) 100 (set_part_status 0 acc)
    (set_scm2 (Scm2Hw {[4096 := 3]} (hw_ram scc2_hw0) {[8192 := (None, 7)]} false) (k_dev (scc2_asks [] acc)))
    (scc2_test_ioctl SCC2_TEST_ENGAGE_PART 100 (scc2_asks [] acc)).
Proof.
  intros acc. assert (Hq : request_at (scc2_asks [] acc) 100 acc) by (apply scc2_asks_at; by repeat constructor).
  split; [exact Hq|]. destruct (scc2_partition_ioctls 100 acc (scc2_asks [] acc) Hq eq_refl) as (_ & _ & He & _).
  exact (He None 0 _ eq_refl eq_refl).
Defined.

(** The region is sealed, and unsealed again by the same request. *)
Lemma scc2_part_roundtrip_witness :
  let s := scc2_asks (replicate 4 0) seal_request in
  request_at s 100 seal_request ∧
  ∃ s1 s2, scc2_test_ioctl SCC2_TEST_ENCRYPT_PART 100 s = Done (0, s1) ∧
    user_at (k_user s1) 32 (xor_bytes [104; 111; 109; 101]) ∧
    scc2_test_ioctl SCC2_TEST_DECRYPT_PART 100 s1 = Done (0, s2) ∧
    part_read 8192 4 (scm2 (k_dev s2)) = Some [104; 111; 109; 101].
Proof.
  intros s. assert (Hq : request_at s 100 seal_request) by (apply scc2_asks_at; by repeat constructor).
  split; [exact Hq|].
  destruct (scc2_part_roundtrip 100 seal_request s [104; 111; 109; 101] (xor_bytes [104; 111; 109; 101]) scc2_hw0 (replicate 4 0)
    (xor_region 8192 0 4 (build_iv seal_request) ltac:(by vm_compute)) Hq eq_refl (scc2_machine_heap _) eq_refl
    ltac:(by vm_compute) ltac:(by vm_compute)
    (scc2_asks_room (replicate 4 0) seal_request) ltac:(left; by vm_compute)) as [(s1 & E & Hu & Hr & Hfr & Hd & Hh) Hback].
  destruct (Hback 100 (set_cipher_status 0 seal_request) s1 (replicate 4 0) 0
    (set_ram (flat_write (hw_ram scc2_hw0) 8192 [104; 111; 109; 101]) scc2_hw0)) as (s2 & E2 & H2 & _);
    [|by rewrite Hd| |reflexivity..|exact Hu|by rewrite Hd; vm_compute|].
  - destruct Hq as (_ & _ & Hw). split; [by repeat constructor|]. split; [exact Hr|]. exact (writable_frame2 _ _ _ _ _ _ _ _ Hfr Hw).
  - intros b l Hb. rewrite Hh in Hb. cbn in Hb. by rewrite lookup_empty in Hb.
  - exists s1, s2. split; [exact E|]. split; [exact Hu|]. split; [exact E2|exact (H2 eq_refl)].
Defined.

Lemma scc2_load_read_witness :
  let s := scc2_asks [1; 2; 3; 4] seal_request in
  in_range seal_request ∧
  ∃ s1 u, scc2_test_ioctl SCC2_TEST_LOAD_PART 100 s = Done (0, s1) ∧
    scc2_test_ioctl SCC2_TEST_READ_PART 100 s1 = Done (0, set_user u s1) ∧ user_at u 32 [1; 2; 3; 4].
Proof.
  intros s. assert (Hq : request_at s 100 seal_request) by (apply scc2_asks_at; by repeat constructor).
  destruct Hq as (Hr & Hu & _). split; [exact Hr|].
  assert (Hd : user_at (k_user s) 32 [1; 2; 3; 4])
    by (apply scc2_asks_data; [by repeat constructor|by vm_compute]).
  set (d := set_ram (flat_write (hw_ram scc2_hw0) 8192 [1; 2; 3; 4]) scc2_hw0).
  destruct (scc2_load_read 100 seal_request s [1; 2; 3; 4] d Hr Hu eq_refl Hd eq_refl ltac:(by vm_compute)) as (E1 & Hrd & H2).
  destruct (H2 100 seal_request (set_dev (set_scm2 d (k_dev s)) s) Hr Hu eq_refl Hrd eq_refl eq_refl
    (scc2_asks_room [1; 2; 3; 4] seal_request)) as (u & E2 & Hu2 & _).
  eexists _, u. split; [exact E1|]. split; [exact E2|exact Hu2].
Defined.
