(* ===== verification/Spdc.v ===== *)
(** * spdc_test_driver.c: the test module of the SPDC framebuffer driver

    Every ioctl hands the process's argument to one call of the framebuffer
    driver and passes its answer back.  The framebuffer driver is the class
    [SpdcFb]; the structures of <linux/mxcfb.h> are the bytes of the process, of
    the sizes of [SpdcApi]. *)

From S2P Require Import Prelude Kernel.
From stdpp Require Import list_numbers.

Open Scope Z_scope.

(** The commands and sizes of <linux/mxcfb.h>. *)
Class SpdcApi := {
  MXCFB_SET_WAVEFORM_MODES : Z;
  MXCFB_SET_TEMPERATURE : Z;
  MXCFB_SET_AUTO_UPDATE_MODE : Z;
  MXCFB_SET_UPDATE_SCHEME : Z;
  MXCFB_SEND_UPDATE : Z;
  MXCFB_WAIT_FOR_UPDATE_COMPLETE : Z;
  MXCFB_SET_PWRDOWN_DELAY : Z;
  MXCFB_GET_PWRDOWN_DELAY : Z;
  waveform_modes_size : Z;
  update_data_size : Z;
  update_marker_data_size : Z;
  try_module_get : Z → bool;
  spdc_sizes : 0 < waveform_modes_size ∧ 0 < update_data_size ∧ 0 < update_marker_data_size;
  spdc_commands : NoDup [MXCFB_SET_WAVEFORM_MODES; MXCFB_SET_TEMPERATURE; MXCFB_SET_AUTO_UPDATE_MODE;
    MXCFB_SET_UPDATE_SCHEME; MXCFB_SEND_UPDATE; MXCFB_WAIT_FOR_UPDATE_COMPLETE; MXCFB_SET_PWRDOWN_DELAY;
    MXCFB_GET_PWRDOWN_DELAY]
}.

(** What a call answers, writes back into its structure, and leaves behind. *)
Class SpdcFb (D : Type) `{SpdcApi} := {
  mxc_spdc_fb_set_waveform_modes : list Z → D → D;
  mxc_spdc_fb_set_temperature : Z → D → Z * D;
  mxc_spdc_fb_set_auto_update : Z → D → Z * D;
  mxc_spdc_fb_set_upd_scheme : Z → D → Z * D;
  mxc_spdc_fb_send_update : list Z → D → (Z * list Z) * D;
  mxc_spdc_fb_wait_update_complete : list Z → D → (Z * list Z) * D;
  mxc_spdc_fb_set_pwrdown_delay : Z → D → Z * D;
  mxc_spdc_get_pwrdown_delay : D → Z * D;
  send_update_bytes bs d r out d' : mxc_spdc_fb_send_update bs d = ((r, out), d') →
    zlen out = zlen bs ∧ bytes out;
  wait_update_bytes bs d r out d' : mxc_spdc_fb_wait_update_complete bs d = ((r, out), d') →
    zlen out = zlen bs ∧ bytes out
}.
#[global] Hint Mode SpdcFb ! - : typeclass_instances.

(** The statics, what the kernel counts and has registered, the framebuffer. *)
(* C: module_test/spdc_test_driver.c gMajor 41-43 *)
Record spdc (D : Type) := SpdcState {
  gMajor : Z;
  spdc_tm_class : Z;
  sp_refs : Z;
  sp_reg : registry;
  spdc_fb : D
}.
Arguments SpdcState {D}. Arguments gMajor {D}. Arguments spdc_tm_class {D}. Arguments sp_refs {D}.
Arguments sp_reg {D}. Arguments spdc_fb {D}.

(** The entry points the file operations name. *)
Inductive spdc_entry := spdc_test_open_ref | spdc_test_release_ref | spdc_test_ioctl_ref.

(* C: module_test/spdc_test_driver.c spdc_test_fops 164-168 *)
Definition spdc_test_fops (f : os_fn) : option spdc_entry :=
  match f with
  | OS_FN_OPEN => Some spdc_test_open_ref
  | OS_FN_CLOSE => Some spdc_test_release_ref
  | OS_FN_IOCTL => Some spdc_test_ioctl_ref
  | OS_FN_MMAP => None
  end.

Section spdc.
Context {U D : Type} `{Uaccess U} `{Errno} `{Chrdev} `{SpdcFb D}.
Abbreviation KM := (M (kstate U (spdc D))).

Definition set_statics m c (g : spdc D) : spdc D := SpdcState m c (sp_refs g) (sp_reg g) (spdc_fb g).
Definition set_refs n (g : spdc D) : spdc D := SpdcState (gMajor g) (spdc_tm_class g) n (sp_reg g) (spdc_fb g).
Definition set_registry r (g : spdc D) : spdc D := SpdcState (gMajor g) (spdc_tm_class g) (sp_refs g) r (spdc_fb g).
Definition set_fb d (g : spdc D) : spdc D := SpdcState (gMajor g) (spdc_tm_class g) (sp_refs g) (sp_reg g) d.

Definition statics : KM (spdc D) := λ s, Done (k_dev s, s).
Definition on_statics (f : spdc D → spdc D) : KM unit := dev (λ g, (tt, f g)).
Definition on_fb {A} (f : D → A * D) : KM A :=
  dev (λ g, let '(a, d) := f (spdc_fb g) in (a, set_fb d g)).
Definition on_registry {A} (f : registry → A * registry) : KM A :=
  dev (λ g, let '(a, r) := f (sp_reg g) in (a, set_registry r g)).
Definition registry_do (f : registry → registry) : KM unit := on_registry (λ r, (tt, f r)).

(* C: module_test/spdc_test_driver.c spdc_test_open *)
Definition spdc_test_open : KM Z :=
  g ← statics;
  _ ← (if try_module_get (sp_refs g) then on_statics (set_refs (sp_refs g + 1)) else mret tt);
  mret 0.

(* C: module_test/spdc_test_driver.c spdc_test_release *)
Definition spdc_test_release : KM Z :=
  g ← statics; _ ← on_statics (set_refs (sp_refs g - 1)); mret 0.

(** get_user into an int is the signed value of the word. *)
(* C: module_test/spdc_test_driver.c spdc_test_ioctl 62-162 *)
Definition spdc_test_ioctl (cmd arg : Z) : KM Z :=
  if cmd =? MXCFB_SET_WAVEFORM_MODES then
    '(modes, k) ← from_user arg waveform_modes_size;
    if k =? 0 then _ ← on_fb (λ d, (tt, mxc_spdc_fb_set_waveform_modes modes d)); mret 0
    else mret (- EINVAL)
  else if cmd =? MXCFB_SET_TEMPERATURE then
    '(temperature, k) ← get_user32 arg;
    if k =? 0 then on_fb (mxc_spdc_fb_set_temperature (s32 temperature)) else mret (- EINVAL)
  else if cmd =? MXCFB_SET_AUTO_UPDATE_MODE then
    '(auto_mode, k) ← get_user32 arg;
    if k =? 0 then on_fb (mxc_spdc_fb_set_auto_update auto_mode) else mret (- EINVAL)
  else if cmd =? MXCFB_SET_UPDATE_SCHEME then
    '(update_scheme, k) ← get_user32 arg;
    if k =? 0 then on_fb (mxc_spdc_fb_set_upd_scheme update_scheme) else mret (- EINVAL)
  else if cmd =? MXCFB_SEND_UPDATE then
    '(upd_data, k) ← from_user arg update_data_size;
    if k =? 0 then
      '(ret, upd_data) ← on_fb (mxc_spdc_fb_send_update upd_data);
      if ret =? 0 then k ← to_user arg upd_data; mret (if negb (k =? 0) then - EFAULT else ret)
      else mret ret
    else mret (- EFAULT)
  else if cmd =? MXCFB_WAIT_FOR_UPDATE_COMPLETE then
    '(upd_marker_data, k) ← from_user arg update_marker_data_size;
    if k =? 0 then
      '(ret, upd_marker_data) ← on_fb (mxc_spdc_fb_wait_update_complete upd_marker_data);
      k ← to_user arg upd_marker_data;
      mret (if negb (k =? 0) then - EFAULT else ret)
    else mret (- EFAULT)
  else if cmd =? MXCFB_SET_PWRDOWN_DELAY then
    '(delay, k) ← get_user32 arg;
    if k =? 0 then on_fb (mxc_spdc_fb_set_pwrdown_delay (s32 delay)) else mret (- EINVAL)
  else if cmd =? MXCFB_GET_PWRDOWN_DELAY then
    pwrdown_delay ← on_fb mxc_spdc_get_pwrdown_delay;
    k ← put_user32 arg pwrdown_delay;
    let ret := if negb (k =? 0) then - EFAULT else - EINVAL in
    let ret := 0 in
    mret ret
  else mret (- EINVAL).

(* C: module_test/spdc_test_driver.c spdc_test_init_module *)
Definition spdc_test_init_module : KM Z :=
  error ← on_registry (register_chrdev 0);
  if error <? 0 then mret error
  else
    g ← statics;
    _ ← on_statics (set_statics error (spdc_tm_class g));
    c ← on_registry class_create;
    match c with
    | inl e =>
        _ ← on_statics (set_statics error e);
        _ ← registry_do (unregister_chrdev error);
        mret e
    | inr c =>
        _ ← on_statics (set_statics error c);
        temp_class ← on_registry (device_create c (MKDEV error 0));
        match temp_class with
        | inl _ =>
            _ ← registry_do (class_destroy c);
            _ ← registry_do (unregister_chrdev error);
            mret (-1)
        | inr _ => mret 0
        end
    end.

(* C: module_test/spdc_test_driver.c spdc_test_cleanup_module *)
Definition spdc_test_cleanup_module : KM unit :=
  g ← statics;
  _ ← registry_do (unregister_chrdev (gMajor g));
  _ ← registry_do (device_destroy (spdc_tm_class g) (MKDEV (gMajor g) 0));
  registry_do (class_destroy (spdc_tm_class g)).
End spdc.

Section spdc_proofs.
Context {U D : Type} `{Uaccess U} `{Errno} `{Chrdev} `{SpdcFb D}.
Abbreviation KS := (kstate U (spdc D)).
Implicit Type s : KS.

Lemma on_fb_ok {A} (f : D → A * D) s a d :
  f (spdc_fb (k_dev s)) = (a, d) → on_fb f s = Done (a, set_dev (set_fb d (k_dev s)) s).
Proof. unfold on_fb, dev. by intros ->. Qed.
Lemma on_registry_ok {A} (f : registry → A * registry) s a r :
  f (sp_reg (k_dev s)) = (a, r) → on_registry f s = Done (a, set_dev (set_registry r (k_dev s)) s).
Proof. unfold on_registry, dev. by intros ->. Qed.
Lemma registry_do_ok f s :
  registry_do f s = Done (tt, set_dev (set_registry (f (sp_reg (k_dev s))) (k_dev s)) s).
Proof. done. Qed.

(** Takes the branch of a command. *)
Ltac spdc_cmd :=
  pose proof spdc_commands as Hnd; rewrite !NoDup_cons, !not_elem_of_cons in Hnd; destruct_and!;
  unfold spdc_test_ioctl;
  repeat first [rewrite Z.eqb_refl | rewrite (proj2 (Z.eqb_neq _ _)) by congruence].

(** One word of the process for one call of the framebuffer driver. *)
Definition word_call (cmd : Z) (f : Z → D → Z * D) : Prop :=
  (cmd = MXCFB_SET_TEMPERATURE ∧ f = (λ v, mxc_spdc_fb_set_temperature (s32 v))) ∨
  (cmd = MXCFB_SET_AUTO_UPDATE_MODE ∧ f = mxc_spdc_fb_set_auto_update) ∨
  (cmd = MXCFB_SET_UPDATE_SCHEME ∧ f = mxc_spdc_fb_set_upd_scheme) ∨
  (cmd = MXCFB_SET_PWRDOWN_DELAY ∧ f = (λ v, mxc_spdc_fb_set_pwrdown_delay (s32 v))).

(** What the state is when the framebuffer's is [d] and the process's memory [u]. *)
Definition with_fb (u : U) (d : D) s : KS := set_user u (set_dev (set_fb d (k_dev s)) s).

Lemma word_call_eq cmd f arg s : word_call cmd f →
  spdc_test_ioctl cmd arg s =
    ('(v, k) ← get_user32 arg; if k =? 0 then on_fb (f v) else mret (- EINVAL)) s.
Proof. intros [[-> ->]|[[-> ->]|[[-> ->]|[-> ->]]]]; by spdc_cmd. Qed.

(** C23: every command of the SPDC test device is one call of the framebuffer
    driver on what the process has at the argument: a structure whole, a word
    with the sign the driver wants; the ioctl returns what the driver returned,
    SEND_UPDATE writes the structure back if that is 0 and
    WAIT_FOR_UPDATE_COMPLETE always.  GET_PWRDOWN_DELAY, whose argument is only
    written, puts the delay the driver answers there and returns 0.  Nothing else
    of the process changes. *)
Theorem spdc_ioctl_calls arg s :
  (∀ bs, user_at (k_user s) arg bs → zlen bs = waveform_modes_size →
     spdc_test_ioctl MXCFB_SET_WAVEFORM_MODES arg s =
       Done (0, with_fb (k_user s) (mxc_spdc_fb_set_waveform_modes bs (spdc_fb (k_dev s))) s)) ∧
  (∀ cmd f v r d, word_call cmd f → 0 ≤ v < 2 ^ 32 → user_at (k_user s) arg (pack1 uint32_t v) →
     f v (spdc_fb (k_dev s)) = (r, d) → spdc_test_ioctl cmd arg s = Done (r, with_fb (k_user s) d s)) ∧
  (∀ bs r out d, user_at (k_user s) arg bs → zlen bs = update_data_size →
     mxc_spdc_fb_send_update bs (spdc_fb (k_dev s)) = ((r, out), d) →
     writable_at (k_user s) arg update_data_size →
     ∃ u, spdc_test_ioctl MXCFB_SEND_UPDATE arg s = Done (r, with_fb u d s) ∧
       (r = 0 → user_at u arg out) ∧ (r ≠ 0 → u = k_user s) ∧ user_frame (k_user s) u arg update_data_size) ∧
  (∀ bs r out d, user_at (k_user s) arg bs → zlen bs = update_marker_data_size →
     mxc_spdc_fb_wait_update_complete bs (spdc_fb (k_dev s)) = ((r, out), d) →
     writable_at (k_user s) arg update_marker_data_size →
     ∃ u, spdc_test_ioctl MXCFB_WAIT_FOR_UPDATE_COMPLETE arg s = Done (r, with_fb u d s) ∧
       user_at u arg out ∧ user_frame (k_user s) u arg update_marker_data_size) ∧
  (∀ v d, mxc_spdc_get_pwrdown_delay (spdc_fb (k_dev s)) = (v, d) → writable_at (k_user s) arg 4 →
     ∃ u, spdc_test_ioctl MXCFB_GET_PWRDOWN_DELAY arg s = Done (0, with_fb u d s) ∧
       user_at u arg (pack1 uint32_t v) ∧ user_frame (k_user s) u arg 4).
Proof.
  split_and!.
  - intros bs Hu Hl. spdc_cmd. rewrite <- Hl. unfold from_user. rewrite M_bind_eq, copy_from_user_all by done. by destruct s.
  - intros cmd f v r d Hc Hv Hu E. rewrite (word_call_eq cmd f) by done. mstep (get_user32_all arg v s Hv Hu).
    cbn [Z.eqb]. rewrite (on_fb_ok _ _ _ _ E). by destruct s.
  - intros bs r out d Hu Hl E Hw. spdc_cmd. destruct (send_update_bytes _ _ _ _ _ E) as [Hlo Hb]. rewrite <- Hl in *.
    rewrite M_bind_eq. unfold from_user. rewrite copy_from_user_all by done. cbn [obind Z.eqb].
    erewrite M_bind_done; [|apply on_fb_ok; exact E]. cbv beta iota.
    destruct (Z.eqb_spec r 0) as [->|Hr].
    + destruct (to_user_all arg out (set_dev (set_fb d (k_dev s)) s) Hb) as (u & EU & Hu' & Hf); [by rewrite Hlo|].
      mstep EU. exists u. rewrite Hlo in Hf. by split_and!.
    + exists (k_user s). split; [by destruct s|]. split; [done|]. split; [done|apply user_frame_refl].
  - intros bs r out d Hu Hl E Hw. spdc_cmd. destruct (wait_update_bytes _ _ _ _ _ E) as [Hlo Hb]. rewrite <- Hl in *.
    rewrite M_bind_eq. unfold from_user. rewrite copy_from_user_all by done. cbn [obind Z.eqb].
    erewrite M_bind_done; [|apply on_fb_ok; exact E]. cbv beta iota.
    destruct (to_user_all arg out (set_dev (set_fb d (k_dev s)) s) Hb) as (u & EU & Hu' & Hf); [by rewrite Hlo|].
    mstep EU. exists u. rewrite Hlo in Hf. by split_and!.
  - intros v d E Hw. spdc_cmd. erewrite M_bind_done; [|apply on_fb_ok; exact E].
    assert (Hb : bytes (pack1 uint32_t v)) by exact (Z_to_little_endian_bound 4 8 v ltac:(lia) ltac:(lia)).
    destruct (to_user_all arg (pack1 uint32_t v) (set_dev (set_fb d (k_dev s)) s) Hb) as (u & EU & Hu' & Hf);
      [by rewrite length_pack1|].
    unfold put_user32. mstep EU. exists u. rewrite length_pack1 in Hf by done. by split_and!.
Qed.

Lemma get_user32_fault a s : unreadable (k_user s) a 4 → ∃ v k, get_user32 a s = Done ((v, k), s) ∧ k ≠ 0.
Proof.
  intros Hf. unfold get_user32, from_user. rewrite M_bind_eq. cbn [obind].
  destruct (copy_from_user (k_user s) a 4) as [bs k] eqn:E. eexists _, _. split; [reflexivity|].
  pose proof (copy_from_user_fault _ _ 4 _ _ ltac:(lia) Hf E). lia.
Qed.

(** An argument that cannot be read never reaches the framebuffer driver and
    nothing changes: the SET commands answer -EINVAL, the two update commands
    -EFAULT.  A structure that cannot be written back is -EFAULT after the call,
    but a delay that cannot be put is not reported, and 0 is returned.  Any other
    command is -EINVAL. *)
Theorem spdc_ioctl_faults arg s :
  (unreadable (k_user s) arg waveform_modes_size →
     spdc_test_ioctl MXCFB_SET_WAVEFORM_MODES arg s = Done (- EINVAL, s)) ∧
  (∀ cmd f, word_call cmd f → unreadable (k_user s) arg 4 → spdc_test_ioctl cmd arg s = Done (- EINVAL, s)) ∧
  (unreadable (k_user s) arg update_data_size → spdc_test_ioctl MXCFB_SEND_UPDATE arg s = Done (- EFAULT, s)) ∧
  (unreadable (k_user s) arg update_marker_data_size →
     spdc_test_ioctl MXCFB_WAIT_FOR_UPDATE_COMPLETE arg s = Done (- EFAULT, s)) ∧
  (∀ bs r out d, user_at (k_user s) arg bs → zlen bs = update_data_size →
     mxc_spdc_fb_send_update bs (spdc_fb (k_dev s)) = ((r, out), d) →
     ¬ writable_at (k_user s) arg update_data_size →
     ∃ u, spdc_test_ioctl MXCFB_SEND_UPDATE arg s = Done (if r =? 0 then - EFAULT else r, with_fb u d s)) ∧
  (∀ v d, mxc_spdc_get_pwrdown_delay (spdc_fb (k_dev s)) = (v, d) →
     ∃ u, spdc_test_ioctl MXCFB_GET_PWRDOWN_DELAY arg s = Done (0, with_fb u d s)) ∧
  (∀ cmd, cmd ∉ [MXCFB_SET_WAVEFORM_MODES; MXCFB_SET_TEMPERATURE; MXCFB_SET_AUTO_UPDATE_MODE;
     MXCFB_SET_UPDATE_SCHEME; MXCFB_SEND_UPDATE; MXCFB_WAIT_FOR_UPDATE_COMPLETE; MXCFB_SET_PWRDOWN_DELAY;
     MXCFB_GET_PWRDOWN_DELAY] → spdc_test_ioctl cmd arg s = Done (- EINVAL, s)).
Proof.
  pose proof spdc_sizes as (Hs1 & Hs2 & Hs3).
  assert (Hfault : ∀ n (A : Type) (f : list Z → M KS A) (e : A), 0 < n → unreadable (k_user s) arg n →
    ('(bs, k) ← from_user arg n; if k =? 0 then f bs else mret e) s = Done (e, s)).
  { intros n A f e Hn Hf. rewrite M_bind_eq. unfold from_user. cbn [obind].
    destruct (copy_from_user (k_user s) arg n) as [bs k] eqn:E.
    pose proof (copy_from_user_fault _ _ n _ _ ltac:(lia) Hf E). by rewrite (proj2 (Z.eqb_neq k 0)) by lia. }
  split_and!.
  - intros Hf. spdc_cmd. by apply Hfault.
  - intros cmd f Hc Hf. rewrite (word_call_eq cmd f) by done.
    destruct (get_user32_fault arg s Hf) as (v & k & E & Hk). mstep E. cbv beta iota. by rewrite (proj2 (Z.eqb_neq k 0)).
  - intros Hf. spdc_cmd. by apply Hfault.
  - intros Hf. spdc_cmd. by apply Hfault.
  - intros bs r out d Hu Hl E Hw. spdc_cmd. destruct (send_update_bytes _ _ _ _ _ E) as [Hlo Hb]. rewrite <- Hl in *.
    rewrite M_bind_eq. unfold from_user. rewrite copy_from_user_all by done. cbn [obind Z.eqb].
    erewrite M_bind_done; [|apply on_fb_ok; exact E]. cbv beta iota. destruct (r =? 0).
    + destruct (to_user_any arg out (set_dev (set_fb d (k_dev s)) s) Hb) as (u & k & EU & _ & Hk & _). mstep EU.
      exists u. rewrite Hlo in Hk. by rewrite (proj2 (Z.eqb_neq k 0)) by naive_solver.
    + exists (k_user s). by destruct s.
  - intros v d E. spdc_cmd. erewrite M_bind_done; [|apply on_fb_ok; exact E].
    assert (Hb : bytes (pack1 uint32_t v)) by exact (Z_to_little_endian_bound 4 8 v ltac:(lia) ltac:(lia)).
    destruct (to_user_any arg (pack1 uint32_t v) (set_dev (set_fb d (k_dev s)) s) Hb) as (u & k & EU & _).
    unfold put_user32. mstep EU. by exists u.
  - intros cmd Hn. rewrite !not_elem_of_cons in Hn. destruct_and!. unfold spdc_test_ioctl.
    by rewrite !(proj2 (Z.eqb_neq _ _)) by done.
Qed.

(** The module registers a major, a class and a device, and gives back what
    it has when one of them is refused: the answer is then negative and the
    registry as before; unloading undoes loading. *)
Theorem spdc_init_cleanup s :
  ∃ r s', spdc_test_init_module s = Done (r, s') ∧
    (r ≠ 0 → r < 0 ∧ sp_reg (k_dev s') = sp_reg (k_dev s)) ∧
    (r = 0 → gMajor (k_dev s') ∉ r_majors (sp_reg (k_dev s)) ∧
       r_majors (sp_reg (k_dev s')) = {[gMajor (k_dev s')]} ∪ r_majors (sp_reg (k_dev s)) ∧
       (spdc_tm_class (k_dev s'), MKDEV (gMajor (k_dev s')) 0) ∈ r_devices (sp_reg (k_dev s')) ∧
       ∃ s'', spdc_test_cleanup_module s' = Done (tt, s'') ∧ sp_reg (k_dev s'') = sp_reg (k_dev s)).
Proof.
  unfold spdc_test_init_module.
  destruct (register_chrdev 0 (sp_reg (k_dev s))) as [a g1] eqn:E1.
  erewrite M_bind_done; [|apply on_registry_ok; exact E1].
  destruct (Z.ltb_spec a 0) as [Ha|Ha].
  { eexists a, _. split; [done|]. split; [|lia]. intros _. split; [done|]. cbn. by eapply register_failed. }
  destruct (register_unregister 0 _ _ _ ltac:(lia) E1 Ha) as (Hnew & Hmaj & Hun & Hp). specialize (Hp eq_refl).
  cbn [Z.eqb] in *. do 2 (erewrite M_bind_done; [|reflexivity]).
  match goal with |- context [(on_registry _ ≫= _) ?s0] => set (s1 := s0) end.
  destruct (class_create (sp_reg (k_dev s1))) as [c g2] eqn:E2. erewrite M_bind_done; [|apply on_registry_ok; exact E2].
  unfold class_create in E2. destruct (class_answer (sp_reg (k_dev s1))) as [e|p] eqn:EC; injection E2 as <- <-.
  { pose proof (class_error _ _ EC). eexists e, _. split; [reflexivity|]. split; [|lia]. intros _.
    split; [done|]. exact Hun. }
  erewrite M_bind_done; [|reflexivity].
  match goal with |- context [(on_registry _ ≫= _) ?s0] => set (s2 := s0) end.
  assert (Hcd : class_destroy p (sp_reg (k_dev s2)) = g1).
  { apply (class_create_destroy (sp_reg (k_dev s1)) p). unfold class_create. by rewrite EC. }
  destruct (device_create p (MKDEV a 0) (sp_reg (k_dev s2))) as [t g3] eqn:E3.
  erewrite M_bind_done; [|apply on_registry_ok; exact E3].
  destruct t as [e|[]].
  { assert (g3 = sp_reg (k_dev s2)) as -> by (unfold device_create in E3; destruct (device_answer _ _ _); naive_solver).
    do 2 mstep registry_do_ok. eexists (-1), _. split; [done|]. split; [|lia]. intros _. split; [lia|].
    cbn. cbn in Hcd. by rewrite Hcd. }
  pose proof (device_create_destroy _ _ _ _ E3) as Hdd.
  eexists 0, _. split; [done|]. split; [done|]. intros _. cbn. split; [done|]. split_and!.
  - rewrite <- Hmaj. unfold device_create in E3. destruct (device_answer _ _ _); [done|]. by injection E3 as <-.
  - unfold device_create in E3. destruct (device_answer _ _ _); [done|]. injection E3 as <-. cbn. set_solver.
  - unfold spdc_test_cleanup_module. erewrite M_bind_done; [|reflexivity]. do 2 mstep registry_do_ok.
    eexists. split; [reflexivity|]. cbn.
    change (unregister_chrdev a (class_destroy p (device_destroy p (MKDEV a 0) g3)) = sp_reg (k_dev s)).
    by rewrite Hdd, Hcd, Hun.
Qed.
End spdc_proofs.

(** ** An example: a framebuffer that keeps what it is told *)

#[export] Program Instance spdc_api_example : SpdcApi := {
  MXCFB_SET_WAVEFORM_MODES := 43; MXCFB_SET_TEMPERATURE := 44; MXCFB_SET_AUTO_UPDATE_MODE := 45;
  MXCFB_SEND_UPDATE := 46; MXCFB_WAIT_FOR_UPDATE_COMPLETE := 47; MXCFB_SET_PWRDOWN_DELAY := 48;
  MXCFB_GET_PWRDOWN_DELAY := 49; MXCFB_SET_UPDATE_SCHEME := 50;
  waveform_modes_size := 32; update_data_size := 8; update_marker_data_size := 8;
  try_module_get _ := true
}.
Next Obligation. done. Qed.
Next Obligation. by apply (bool_decide_unpack _). Qed.

Record spdc_hw := SpdcHw {
  fb_modes : list Z;
  fb_temperature : Z;
  fb_delay : Z;
  fb_updates : list (list Z)
}.

#[export] Program Instance spdc_fb_example : SpdcFb spdc_hw := {
  mxc_spdc_fb_set_waveform_modes bs (d : spdc_hw) := SpdcHw bs (fb_temperature d) (fb_delay d) (fb_updates d);
  mxc_spdc_fb_set_temperature v (d : spdc_hw) := (0, SpdcHw (fb_modes d) v (fb_delay d) (fb_updates d));
  mxc_spdc_fb_set_auto_update v (d : spdc_hw) := (0, d);
  mxc_spdc_fb_set_upd_scheme v (d : spdc_hw) := (if v <=? 2 then 0 else -22, d);
  mxc_spdc_fb_send_update bs (d : spdc_hw) :=
    ((0, u8 <$> bs), SpdcHw (fb_modes d) (fb_temperature d) (fb_delay d) (bs :: fb_updates d));
  mxc_spdc_fb_wait_update_complete bs (d : spdc_hw) := ((0, u8 <$> bs), d);
  mxc_spdc_fb_set_pwrdown_delay v (d : spdc_hw) := (0, SpdcHw (fb_modes d) (fb_temperature d) v (fb_updates d));
  mxc_spdc_get_pwrdown_delay (d : spdc_hw) := (fb_delay d, d)
}.
Next Obligation.
  intros bs d r out d' [= <- <- <-]. unfold zlen. rewrite length_fmap. split; [done|].
  apply Forall_fmap, Forall_forall. intros b _. apply u8_range.
Qed.
Next Obligation.
  intros bs d r out d' [= <- <- <-]. unfold zlen. rewrite length_fmap. split; [done|].
  apply Forall_fmap, Forall_forall. intros b _. apply u8_range.
Qed.

Definition spdc_machine (u : gmap Z Z) : kstate (gmap Z Z) (spdc spdc_hw) :=
  KState u ∅ 0 (SpdcState 0 0 0 (Registry ∅ ∅ ∅) (SpdcHw [] 25 0 [])).

(** -5 degrees, as the process writes them. *)
Lemma spdc_ioctl_calls_witness :
  let u := flat_write ∅ 100 (pack1 uint32_t (2 ^ 32 - 5)) in
  user_at u 100 (pack1 uint32_t (2 ^ 32 - 5)) ∧
  spdc_test_ioctl MXCFB_SET_TEMPERATURE 100 (spdc_machine u) =
    Done (0, with_fb u (SpdcHw [] (-5) 0 []) (spdc_machine u)).
Proof.
  intros u. assert (Hu : user_at u 100 (pack1 uint32_t (2 ^ 32 - 5))).
  { apply flat_user_at. exact (Z_to_little_endian_bound 4 8 _ ltac:(lia) ltac:(lia)). }
  split; [exact Hu|]. destruct (spdc_ioctl_calls 100 (spdc_machine u)) as (_ & Hc & _).
  apply (Hc _ (λ v, mxc_spdc_fb_set_temperature (s32 v)) (2 ^ 32 - 5)); [by left|lia|exact Hu|reflexivity].
Defined.

Lemma spdc_ioctl_faults_witness :
  unreadable (k_user (spdc_machine ∅)) 100 4 ∧
  spdc_test_ioctl MXCFB_SET_TEMPERATURE 100 (spdc_machine ∅) = Done (-22, spdc_machine ∅).
Proof.
  assert (Hu : unreadable (k_user (spdc_machine ∅)) 100 4) by (exists 0; by vm_compute).
  split; [exact Hu|]. destruct (spdc_ioctl_faults 100 (spdc_machine ∅)) as (_ & Hc & _).
  apply (Hc _ (λ v, mxc_spdc_fb_set_temperature (s32 v))); [by left|exact Hu].
Defined.
