(* ===== verification/SocCheck.v ===== *)
(** * soc_check.h: is this one of the chips a test is for?

    The test programs that need a certain chip pass the names of the chips to
    soc_version_check; the list ends with a name that begins with a space.  The
    file /sys/devices/soc0/soc_id is a parameter: [None] when it cannot be
    opened, otherwise what it holds. *)

From S2P Require Import Prelude.
From stdpp Require Import list_numbers.

Open Scope Z_scope.

(* C: include/soc_check.h LEN 3-3 *)
Definition LEN : Z := 10.

(** strcmp(a, b) == 0, on the bytes from the two pointers on: it reads up to the
    first difference or the end of both strings. *)
Fixpoint strcmp_eq (a b : list Z) : outcome bool :=
  match a, b with
  | x :: a, y :: b => if x =? y then if x =? 0 then Done true else strcmp_eq a b else Done false
  | _, _ => UB
  end.

(** The list where the loop leaves it. *)
(* C: include/soc_check.h soc_version_check 28-33 *)
Fixpoint soc_search (name : list Z) (soc_list : list (list Z)) : outcome (list (list Z)) :=
  match soc_list with
  | [] => UB
  | entry :: rest =>
      c ← loadz entry 0;
      if negb (c =? 32) then
        same ← strcmp_eq name entry;
        if (same : bool) then Done soc_list else soc_search name rest
      else Done soc_list
  end.

(* C: include/soc_check.h soc_version_check 11-40 *)
Definition soc_version_check (soc_id : option (list Z)) (soc_name : list (list Z)) : outcome bool :=
  match soc_id with
  | None => Done false
  | Some file =>
      let name := take (Z.to_nat LEN) file in
      let ret := zlen name in
      if ret <=? 0 then Done false
      else
        name ← storez name (ret - 1) 0;
        l ← soc_search name soc_name;
        match l with
        | [] => UB
        | entry :: _ => c ← loadz entry 0; Done (negb (c =? 32))
        end
  end.

(** A string, and the bytes it has in memory. *)
Definition c_string (cs : list Z) : Prop := Forall (λ c, c ≠ 0) cs.
Definition stored (cs : list Z) : list Z := cs ++ [0].

(** What of the file the names are compared with: nine characters at most, one
    less when the file is shorter, and up to the first zero. *)
Definition soc_of (file : list Z) : list Z :=
  let name := take (Z.to_nat LEN) file in
  match list_find (λ c, c = 0) (take (length name - 1) name) with
  | Some (i, _) => take i name
  | None => take (length name - 1) name
  end.

Lemma strcmp_stored a b k :
  c_string a → c_string b → strcmp_eq (a ++ 0 :: k) (stored b) = Done (bool_decide (a = b)).
Proof.
  intros Ha. revert b. induction Ha as [|x a Hx Ha IH]; intros b Hb; destruct Hb as [|y b Hy Hb]; cbn -[Z.eqb].
  - done.
  - by rewrite (proj2 (Z.eqb_neq 0 y)) by done.
  - by rewrite (proj2 (Z.eqb_neq x 0)) by done.
  - destruct (Z.eqb_spec x y) as [->|Hne].
    + rewrite (proj2 (Z.eqb_neq y 0)) by done. change (b ++ [0]) with (stored b). rewrite IH by done. f_equal. apply bool_decide_ext. naive_solver.
    + by rewrite bool_decide_false by congruence.
Qed.

Lemma first_char cs : ∃ c, loadz (stored cs) 0 = Done c ∧ (c = 32 ↔ head cs = Some 32).
Proof. destruct cs as [|c cs]; cbn; eexists; (split; [reflexivity|naive_solver lia]). Qed.

(** The search stops at the name if it is there, and at the closing entry if not. *)
Lemma soc_search_ok a k names close rest :
  c_string a → Forall c_string names → Forall (λ n, head n ≠ Some 32) names → head close = Some 32 →
  ∃ e l, soc_search (a ++ 0 :: k) ((stored <$> names) ++ stored close :: rest) = Done (stored e :: l) ∧
    ((e = a ∧ a ∈ names) ∨ (e = close ∧ a ∉ names)).
Proof.
  intros Ha Hn Hh Hc. induction Hn as [|n names Hcn Hn IH]; cbn [fmap list_fmap app soc_search].
  - destruct (first_char close) as (c & -> & Hiff). rewrite bind_done. rewrite (proj2 Hiff Hc).
    cbn. exists close, rest. split; [done|]. right. split; [done|apply not_elem_of_nil].
  - inversion_clear Hh as [|? ? Hhn Hhs]. destruct (first_char n) as (c & -> & Hiff). rewrite bind_done.
    rewrite (proj2 (Z.eqb_neq c 32)) by tauto. cbn [negb]. rewrite strcmp_stored by done. rewrite bind_done.
    destruct (bool_decide_reflect (a = n)) as [->|Hne].
    + exists n. eexists. split; [done|]. left. split; [done|apply list_elem_of_here].
    + destruct (IH Hhs) as (e & l & -> & Hcase). exists e, l. split; [done|].
      destruct Hcase as [[-> Hin]|[-> Hout]]; [left|right]; (split; [done|]); set_solver.
Qed.

(** The name in the buffer is the string [soc_of]. *)
Lemma soc_of_string file :
  take (Z.to_nat LEN) file ≠ [] →
  c_string (soc_of file) ∧
  ∃ k, <[(length (take (Z.to_nat LEN) file) - 1)%nat := 0]> (take (Z.to_nat LEN) file) = soc_of file ++ 0 :: k.
Proof.
  unfold soc_of. generalize (take (Z.to_nat LEN) file) as name. clear file. intros name Hne.
  destruct name as [|c' name] using rev_ind; [done|]. clear IHname Hne. cbv zeta.
  rewrite length_app. cbn [length]. rewrite Nat.add_sub, take_app_length.
  rewrite (insert_app_r_alt name) by lia. rewrite Nat.sub_diag. cbn [list_insert].
  destruct (list_find (λ c, c = 0) name) as [[i x]|] eqn:E.
  - apply list_find_Some in E as (Hi & -> & Hbefore). pose proof (lookup_lt_Some _ _ _ Hi) as Hlt.
    rewrite take_app_le by lia. split.
    + apply Forall_lookup_2. intros j y Hj. apply lookup_take_Some in Hj as [Hj Hlt']. by eapply Hbefore.
    + exists (drop (S i) name ++ [0]). rewrite <- (take_drop_middle _ _ _ Hi) at 1. by rewrite <- app_assoc.
  - apply list_find_None in E. split; [exact E|]. by exists [].
Qed.

(** C24: soc_version_check says whether the chip is in the list: with a list of
    names that a name beginning with a space closes, it returns, and the answer
    is that the file can be opened, is not empty, and what it begins with, up to
    nine characters without the last one read, is one of the names. *)
Theorem soc_version_check_member soc_id names close rest :
  Forall c_string names → Forall (λ n, head n ≠ Some 32) names → head close = Some 32 →
  ∃ b, soc_version_check soc_id ((stored <$> names) ++ stored close :: rest) = Done b ∧
    (b = true ↔ ∃ file, soc_id = Some file ∧ file ≠ [] ∧ soc_of file ∈ names).
Proof.
  intros Hn Hh Hc. destruct soc_id as [file|]; [|exists false; split; [done|naive_solver]].
  unfold soc_version_check. cbv zeta.
  destruct file as [|c file]; [exists false; split; [done|naive_solver]|].
  set (f := c :: file). assert (Hne : take (Z.to_nat LEN) f ≠ []) by done.
  assert (Hl : 0 < zlen (take (Z.to_nat LEN) f)).
  { clear -Hne. destruct (take _ f) as [|x l]; [done|]. rewrite zlen_cons. pose proof (zlen_nonneg l). lia. }
  rewrite (proj2 (Z.leb_gt _ 0)) by done. rewrite storez_Done, bind_done by lia.
  destruct (soc_of_string f Hne) as (Ha & k & Ek).
  replace (Z.to_nat (zlen (take (Z.to_nat LEN) f) - 1)) with (length (take (Z.to_nat LEN) f) - 1)%nat
    by (unfold zlen; lia). rewrite Ek.
  destruct (soc_search_ok (soc_of f) k names close rest Ha Hn Hh Hc) as (e & l & -> & Hcase). rewrite bind_done.
  destruct (first_char e) as (x & -> & Hiff). rewrite bind_done. eexists. split; [done|].
  destruct Hcase as [[-> Hin]|[-> Hout]].
  - rewrite (proj2 (Z.eqb_neq x 32)).
    + split; [|done]. intros _. by exists f.
    + intros ->. pose proof (proj1 (Forall_forall _ _) Hh _ Hin). naive_solver.
  - rewrite (proj2 Hiff Hc). cbn. split; [done|]. intros (file' & [= <-] & _ & Hin). done.
Qed.

(** A list without the closing entry is read past its end. *)
Lemma soc_list_unclosed :
  soc_version_check (Some [65; 10]) [stored [66]] = UB.
Proof. reflexivity. Qed.

(** "i.MX8QM" on an i.MX8QM, which is the second of three names. *)
Lemma soc_version_check_member_witness :
  let imx8qm := [105; 46; 77; 88; 56; 81; 77] in
  let imx8qxp := [105; 46; 77; 88; 56; 81; 88; 80] in
  soc_version_check (Some (imx8qm ++ [10])) ((stored <$> [imx8qxp; imx8qm]) ++ [stored [32]]) = Done true.
Proof.
  intros imx8qm imx8qxp.
  destruct (soc_version_check_member (Some (imx8qm ++ [10])) [imx8qxp; imx8qm] [32] []) as (b & E & Hb).
  - by repeat constructor.
  - by repeat constructor.
  - reflexivity.
  - rewrite E. f_equal. apply Hb. exists (imx8qm ++ [10]). split; [done|]. split; [done|].
    assert (soc_of (imx8qm ++ [10]) = imx8qm) as -> by by vm_compute. apply list_elem_of_further, list_elem_of_here.
Defined.
