(* ===== verification/Dptc.v ===== *)
(** * dptc_daemon.h: the messages of the DPTC daemon

    The header declares the messages a daemon and its human interface exchange;
    neither program is in the repository, so that there are only the types, their
    layout and the constants.  A message is sent as its bytes. *)

From S2P Require Import Prelude Kernel.
From stdpp Require Import list_numbers.

Open Scope Z_scope.

(* C: include/dptc_daemon.h TRUE 208-208 *)
Definition TRUE : Z := 1.
(* C: include/dptc_daemon.h FALSE 209-209 *)
Definition FALSE : Z := 0.

(* C: include/dptc_daemon.h connection_param_s 34-51 *)
Record connection_param_s := ConnectionParam {
  socket : Z;
  dptc_fd : Z;
  log_fd : Z
}.
#[export] Program Instance connection_param_struct : CStruct connection_param_s := {
  c_types := [cint; cint; cint];
  c_fields a := [socket a; dptc_fd a; log_fd a];
  c_make vs := ConnectionParam (vs !!! 0%nat) (vs !!! 1%nat) (vs !!! 2%nat)
}.
Solve All Obligations with cstruct.

(* C: include/dptc_daemon.h cmd_type_e 57-113 *)
Inductive cmd_type_e :=
  | ENABLE_DPTC | DISABLE_DPTC | WRITE_TABLE | READ_TABLE | SET_FREQ | GET_FREQ | GET_STATE | GET_LOG | QUIT
  | ACK | NACK.
#[export] Instance cmd_type_eq_dec : EqDecision cmd_type_e.
Proof. solve_decision. Defined.

(** The enumerators count on from the one before. *)
(* C: include/dptc_daemon.h cmd_type_e 62-112 *)
Definition cmd_code (c : cmd_type_e) : Z :=
  match c with
  | ENABLE_DPTC => 0
  | DISABLE_DPTC => 1
  | WRITE_TABLE => 2
  | READ_TABLE => 3
  | SET_FREQ => 4
  | GET_FREQ => 5
  | GET_STATE => 6
  | GET_LOG => 7
  | QUIT => 8
  | ACK => 98
  | NACK => 99
  end.

(** What a number received stands for. *)
Definition cmd_of_code (n : Z) : option cmd_type_e :=
  list_find (λ c, cmd_code c = n)
    [ENABLE_DPTC; DISABLE_DPTC; WRITE_TABLE; READ_TABLE; SET_FREQ; GET_FREQ; GET_STATE; GET_LOG; QUIT; ACK; NACK]
  ≫= λ p, Some (p.2).

(* C: include/dptc_daemon.h command_msg_s 118-135 *)
Record command_msg_s := CommandMsg {
  cmd : Z;
  param : Z;
  msg_size : Z
}.
#[export] Program Instance command_msg_struct : CStruct command_msg_s := {
  c_types := [uint32_t; cint; cint];
  c_fields a := [cmd a; param a; msg_size a];
  c_make vs := CommandMsg (vs !!! 0%nat) (vs !!! 1%nat) (vs !!! 2%nat)
}.
Solve All Obligations with cstruct.

(** The answer of a daemon function: the message, and the address of what follows. *)
(* C: include/dptc_daemon.h return_values_s 143-156 *)
Record return_values_s := ReturnValues {
  ret_msg : command_msg_s;
  data : Z
}.

(* C: include/dptc_daemon.h DEFAULT_PORT_NUMBER 163-163 *)
Definition DEFAULT_PORT_NUMBER : Z := 3532.
(* C: include/dptc_daemon.h BACKLOG 168-168 *)
Definition BACKLOG : Z := 10.
(* C: include/dptc_daemon.h MAX_NUM_OF_FREQS 173-173 *)
Definition MAX_NUM_OF_FREQS : Z := 50.
(* C: include/dptc_daemon.h MAX_NUM_OF_WP 178-178 *)
Definition MAX_NUM_OF_WP : Z := 50.
(* C: include/dptc_daemon.h INVALED_VALUE_ERR 186-186 *)
Definition INVALED_VALUE_ERR : Z := -1.
(* C: include/dptc_daemon.h DRIVER_ACCESS_ERR 191-191 *)
Definition DRIVER_ACCESS_ERR : Z := -2.
(* C: include/dptc_daemon.h INVLID_DRIVER_VALS_ERR 196-196 *)
Definition INVLID_DRIVER_VALS_ERR : Z := -3.
(* C: include/dptc_daemon.h MEM_ALLOC_ERR 201-201 *)
Definition MEM_ALLOC_ERR : Z := -4.

Lemma cmd_of_code_of c : cmd_of_code (cmd_code c) = Some c.
Proof. by destruct c. Qed.

(** A message sent is the message received: twelve bytes that name one command
    and carry the parameter and the size of what follows. *)
Lemma command_msg_received c p n :
  - 2 ^ 31 ≤ p < 2 ^ 31 → - 2 ^ 31 ≤ n < 2 ^ 31 →
  let m := CommandMsg (cmd_code c) p n in
  zlen (encode m) = 12 ∧ decode (encode m) = m ∧ cmd_of_code (cmd (decode (encode m))) = Some c.
Proof.
  intros Hp Hn m. assert (Hr : in_range m).
  { apply Forall2_cons; split; [by destruct c|]. apply Forall2_cons; split; [exact Hp|].
    apply Forall2_cons; split; [exact Hn|constructor]. }
  rewrite (decode_encode m Hr). split; [by rewrite zlen_encode|]. split; [done|]. apply cmd_of_code_of.
Qed.
